(* ===== verification/_CoqProject ===== *)
-Q . S2P
Prelude.v
PyBase.v
Errors.v
RunState.v
Session.v
Schema.v
Effects.v
Journal.v
RunRepo.v
Hitl.v
Threads.v
RunMachine.v
RunService.v
EventBus.v
Changes.v
RunSpec.v
HitlSpec.v
System.v
Progress.v
Fixtures.v
RunProps.v
Ownership.v
Reservation.v
JournalProps.v
ThreadProps.v
HitlProps.v
Regex.v
RateLimit.v
RateLimitProps.v
CatalogSchema.v
Catalog.v
CatalogJobs.v
CatalogCleanup.v
CatalogInv.v
CatalogSteps.v
CatalogSafety.v
CatalogPreserve.v
CatalogPreserve2.v
CatalogSystem.v
CatalogClaim.v
CatalogEvolve.v
CatalogProps.v
CatalogPublish.v
CatalogServe.v
CatalogWitness.v
Auth.v
AuthProps.v
Execution.v
ExecutionProps.v
Guardrail.v
GuardrailProps.v
GuardrailSummary.v
Decimals.v
Ipaddr.v
IpaddrProps.v
Urls.v
UrlPolicy.v
UrlPolicyProps.v
UrlPolicyGate.v
Evaluation.v
EvaluationMoves.v
EvaluationProps.v
Chunking.v
ChunkingProps.v
Filters.v
FiltersProps.v
Retrieval.v
VectorStore.v
VectorProps.v
RetrievalProps.v
ParentStore.v
ParentProps.v
Publication.v
Worker.v
PublicationProps.v
PublicationBuild.v
PublicationIsolation.v
PublicationWitness.v
WorkerProps.v
EvaluationWorker.v
