(* ===== verification/Prelude.v ===== *)
(** * SuperMew: a verification library

    SuperMew is a multi-user chat and retrieval service. This library models the
    parts of its Python backend (src/backend) that decide and persist, as
    executable definitions over explicit tables, and proves what makes them
    correct.

    ** The program and the files that model it

    - Runs: a user message in a thread starts a run, which a worker claims under
      a lease and a fencing token, keeps alive, may pause for a human answer, and
      finishes; a thread has one active run, further ones queue.
      [RunState] is runs/state.py; [Schema] the tables of db/models.py the
      runtime uses; [RunRepo] runs/repository.py; [RunService] runs/service.py;
      [Hitl] the HitlCheckpointRepository of rag/checkpoint_runner.py and the
      coordinator of runs/resume.py; [Threads] threads/repository.py and
      threads/service.py; [Execution] runs/cancellation.py, the cancellation
      registry and the settlement of an execution.
    - Events: every change of a run is journalled with an outbox row, a publisher
      mirrors the outbox to a Redis stream, subscribers replay the journal.
      [Journal] is events/journal.py with its contracts; [EventBus] is
      events/outbox.py, bus.py, redis_transport.py and sse.py.
    - Document catalogue: uploads reserve candidate versions, index workers claim
      jobs under a lease and an execution fence, stage a manifest and publish by
      compare-and-swap; replaced, failed and deleted versions get cleanup jobs.
      documents/catalog.py is modelled in three files: [Catalog] (validation,
      records, guards, reservation, manifest, publication), [CatalogJobs]
      (failure, progress, claims, retries) and [CatalogCleanup] (retirement,
      cleanup jobs, worker readiness, retrieval snapshot); [CatalogSchema] has
      its tables.
    - Indexing: a build reads a file, splits it, writes parent chunks and vector
      rows under its version, verifies them and publishes. [Chunking] is
      indexing/document_loader.py and html_processor.py; [Filters]
      security/milvus_filters.py with a parser and evaluator of the filter
      language; [VectorStore] indexing/milvus_client.py and milvus_writer.py
      over an interface of the Milvus server; [ParentStore]
      indexing/parent_chunk_store.py over an interface of the cache;
      [Publication] documents/publication.py; [Worker] documents/worker.py;
      [Retrieval] documents/retrieval.py, the scope of a query.
    - Tokens: [Auth] is auth/service.py, access.py and cleanup.py, the ledger of
      refresh tokens.
    - Guardrails: [Guardrail] is guardrails/contracts.py, policy.py and
      approvals.py; [GuardrailSummary] the summary of tool arguments over a heap
      of objects, with its theorems.
    - Web research: [Ipaddr] and [Urls] model what is used of ipaddress and
      urllib.parse, [Decimals] decimal texts; [UrlPolicy] is
      web_research/url_policy.py.
    - Evaluation: jobs score a data set case by case. [Evaluation] is
      evaluation/repository.py with its contracts and tables, [EvaluationWorker]
      evaluation/worker.py.
    - Errors: [Errors] is core/errors.py, the public error and its stored form.
    - Inbound rate limits: [RateLimit] is rate_limits/contracts.py, policy.py,
      adapters.py, limiter.py and auth.py, the Lua script of the Redis adapter
      included. [Regex] decides the patterns it compiles.
    - Language and platform: [PyBase] models the Python values in use (text as
      code points, UTF-8, JSON documents, truthiness), [Session] the database
      session as a state and exception monad, [Effects] its instance for the run
      tables; code that goes through several stores is an [Act] of [VectorStore].
      This file has the shared tactics and the lemmas on finite maps, ordered
      queries and unique indexes.

    ** The theorems

    - [RunMachine] is the abstract run machine; [Changes], [RunSpec] and
      [HitlSpec] say what each transaction does; [System] composes them into
      one step relation over which any number of workers and handlers may
      interleave, and proves the refinement; [Progress] says when transactions
      succeed. [RunProps], [Ownership] and [Reservation] hold the theorems:
      refinement of the machine, queued runs and their promotion, frozen results,
      fencing, cancellation, recovery among other processes, idempotent
      reservation. [ExecutionProps]: an execution settles the run it owns, also
      when a cancellation races its completion.
    - [JournalProps]: gapless journal, exactly-once and complete subscriptions,
      the publisher's refinement. [ThreadProps]: message numbering, pages,
      deletion. [HitlProps]: a checkpoint is answered once.
    - [RateLimitProps]: the fixed-window contract as an interface, both adapters
      as instances, and the limit proved for every instance.
    - [CatalogInv] states the invariant of the catalogue: each version is a
      candidate, published, or dead with a cleanup job. [CatalogSteps],
      [CatalogSafety] and the [CatalogPreserve] files prove that every operation
      keeps it; [CatalogSystem] composes the 21 calls into a step relation,
      [CatalogEvolve] says which way rows may change, [CatalogClaim] that the
      claim loops end. [CatalogProps], [CatalogPublish] and [CatalogServe] hold
      the theorems and [CatalogWitness] their instances.
    - [ChunkingProps]: chunks form a forest. [FiltersProps]: a scope filter
      selects exactly its scope. [VectorProps] and [ParentProps]: what the two
      stores hold after each operation, and that the cache is coherent.
      [PublicationProps]: failures clean up only dead candidates, and the outcome
      of a publication is reliable. [PublicationBuild]: what a published version
      has in the stores; [PublicationIsolation]: a build touches only its
      version; [PublicationWitness] their instances. [WorkerProps]: the worker
      settles its jobs. [RetrievalProps]: a query sees exactly the current
      leaves of its tenant.
    - [AuthProps]: a refresh token is used once. [GuardrailProps]: the guardrail
      fails closed and allows exactly what the policy says.
    - [IpaddrProps], [UrlPolicyProps] and [UrlPolicyGate]: a resolved URL is
      canonical, stable and pinned to public addresses, the policy fails only by
      refusing, and the removal of dot segments equals a walk with a stack.
    - [EvaluationMoves] is the abstract machine of an evaluation job and its
      cases and the proof that every operation makes its moves;
      [EvaluationProps]: the refinement, the invariant of jobs and cases,
      final results, fencing, and a queue blocked by an invalid job.
      [EvaluationWorker]: a turn ends and settles the job it claimed, or leaves
      it under its lease when its last access fails.
    - [Fixtures], [CatalogSystem] and the ends of the property files have the
      concrete systems on which every theorem with a hypothesis is instantiated.

    ** Conventions of the models

    - A method that runs in one database transaction is one atomic step: it
      locks the rows it reads ([with_for_update]) and a raised exception rolls
      back. Methods of several transactions are composed of several. Rows that
      [skip_locked] would pass over are given by a predicate on keys.
    - Code that uses several stores or transactions runs among other processes,
      which act before each of its external calls, and its calls may fail before
      or after they take effect; both are functions of the number of the call.
      The recovery of orphaned runs is modelled with other processes before each
      of its transactions; the composition of other methods from several
      transactions is covered by theorems on each of them.
    - A cancelled task does not stop the thread it awaits: [Execution] has the
      orders in which that thread and the exception handler may commit. A second
      cancellation, during the handler, is part of the model, and of the theorem
      that a lost execution writes nothing, but not of [execution_settles_run].
      A heart-beat thread is one of the other processes, its report of a lost
      lease an oracle.
    - A flush checks the unique constraints of the whole database, and the check
      constraints of the run and evaluation tables; a violation is [EIntegrity].
      Foreign keys are enforced for evaluation jobs and cases; elsewhere that
      references resolve is proved. The length of text columns and [onupdate]
      defaults are not enforced.
    - Instants are integers (microseconds); each reading of the clock and each
      UUID comes from an oracle of the world. Integer primary keys are the
      largest key plus one. JSON text is identified with its document. Floats are
      rationals. Text is ordered by code points, NULL last.
    - Python integers and the database's are unbounded here; the code keeps no
      fixed-width arithmetic. Addresses are integers below their width.
    - What lies outside the repository is a parameter: SHA-256 and HMAC, the JWT
      codec, the token factory, Unicode normalisation, lower-casing and IDNA,
      [isoformat], [repr], the conversion of text to a number, pydantic's parsing
      of stored documents, the canonical fingerprint, the iteration order of
      sets, the answer preflight, the Redis server behind XADD, text splitters,
      file readers and the HTML parser, the embedding provider, the DNS resolver,
      cancellation probes, random draws, and the execution and scoring of
      evaluation cases. The Milvus server and the parent cache are classes whose
      laws the theorems use, with an instance of each.
    - Fuel: the claim loops of the catalogue get one turn more than there are
      jobs, proved enough ([claim_loops_terminate]); the evaluation worker one
      round more than its job has cases, proved enough
      ([evaluation_turn_settles]); UTF-8 decoding, decimal printing and the
      removal of dot segments get the length of their input, which every turn
      shortens; the batches of the vector writer as many as documents; the
      argument summary 18 levels, which are more than its depth limit lets it
      use ([summary_is_bounded]); paged reads of the vector store and of the
      documents a given number of pages, for the former proved enough when they
      hold the rows of the version ([query_all_loop_ends]); the purge of tokens
      the number of batches its caller gives; a subscription is followed for a
      given number of polls, and [subscription_is_complete] says how many deliver
      the journal; a worker for a given number of turns.

    ** Not modelled

    The RAG graph, the agent, its tools and prompts, model providers, the
    sandbox and web fetching are driven by third-party code; the SQL assistant
    decides on syntax trees of a third-party parser; the metrics of an evaluation
    are floating-point averages; HTTP routes and middleware, settings, logging
    and migrations are glue; the frontend is TypeScript. *)

From stdpp Require Export prelude gmap list strings sorting.
From Stdlib Require Export ZArith Lia.

#[export] Set Default Proof Using "Type".

(** ** Automation shared by every component *)

Open Scope Z_scope.

Create HintDb mew discriminated.
Create HintDb mew_inv discriminated.

(** [field_setter eta proj] builds the functional update of field [proj] of a
    record from its eta expansion [eta]: the projection is abstracted out of
    the expansion and replaced by the constant function of the new value. *)
Ltac field_setter eta proj :=
  let e := eval cbv beta delta [eta] in eta in
  lazymatch (eval pattern proj in e) with
  | ?F _ =>
      let s := constr:(fun v r => F (fun _ => v) r) in
      let s := eval cbv beta in s in
      exact s
  end.

(** Case analysis on every [match] and [if] of a hypothesis. *)
Ltac break_match_in H :=
  repeat (
    match type of H with
    | context [match ?x with _ => _ end] =>
        first [ is_var x; destruct x | let E := fresh "E" in destruct x eqn:E ];
        simplify_eq/=
    end).

Ltac break_match :=
  repeat (
    match goal with
    | |- context [match ?x with _ => _ end] =>
        first [ is_var x; destruct x | let E := fresh "E" in destruct x eqn:E ];
        simplify_eq/=
    end).

(** ** Truthiness of optional strings and numbers is written out per use; the
    boolean connectives of the source become [bool_decide]. *)
Ltac bool_to_prop :=
  repeat match goal with
  | H : bool_decide _ = true |- _ => apply bool_decide_eq_true in H
  | H : bool_decide _ = false |- _ => apply bool_decide_eq_false in H
  | H : _ && _ = true |- _ => apply andb_true_iff in H; destruct H
  | H : _ || _ = false |- _ => apply orb_false_iff in H; destruct H
  | H : negb _ = true |- _ => apply negb_true_iff in H
  | H : negb _ = false |- _ => apply negb_false_iff in H
  | H : (_ =? _) = true |- _ => apply Z.eqb_eq in H
  | H : (_ =? _) = false |- _ => apply Z.eqb_neq in H
  | H : (_ <=? _) = true |- _ => apply Z.leb_le in H
  | H : (_ <=? _) = false |- _ => apply Z.leb_gt in H
  | H : (_ <? _) = true |- _ => apply Z.ltb_lt in H
  | H : (_ <? _) = false |- _ => apply Z.ltb_ge in H
  end.

(** The same, with case analysis on the disjunctive tests. *)
Ltac bool_cases :=
  bool_to_prop;
  repeat (match goal with
  | H : _ || _ = true |- _ => apply orb_true_iff in H as [H|H]
  | H : _ && _ = false |- _ => apply andb_false_iff in H as [H|H]
  end; bool_to_prop).

(** ** Integer primary keys *)

Section next_id.
Context {V : Type}.
Implicit Types m : gmap Z V.

(** The key the next inserted row receives: one more than the largest. *)
Definition next_id (m : gmap Z V) : Z :=
  1 + map_fold (fun k _ acc => Z.max k acc) 0 m.

Lemma map_fold_max_ge m k v :
  m !! k = Some v -> k <= map_fold (fun k _ acc => Z.max k acc) 0 m.
Proof.
  revert k v.
  apply (map_fold_weak_ind
    (fun r m => forall k v, m !! k = Some v -> k <= r)).
  - intros k v H. by rewrite lookup_empty in H.
  - intros i x m' r Hi IH k v. rewrite lookup_insert. case_decide as E.
    + intros _. subst. lia.
    + intros H. apply IH in H. lia.
Qed.

Lemma next_id_gt m k v : m !! k = Some v -> k < next_id m.
Proof. intros H%map_fold_max_ge. unfold next_id. lia. Qed.

Lemma next_id_fresh m : m !! next_id m = None.
Proof.
  destruct (m !! next_id m) eqn:E; [|done]. apply next_id_gt in E. lia.
Qed.
End next_id.

#[export] Hint Resolve next_id_fresh : mew.

(** ** Unique indexes

    A unique index on a table is a function giving the indexed key of a row,
    [None] for a row outside the index: a partial index's predicate fails, or a
    column of the key is SQL's NULL, which equals nothing. *)
Section unique_index.
Context {K V I : Type} `{Countable K, EqDecision I}.
Implicit Types (m : gmap K V) (f : V -> option I).

Definition index_keys f m : list I := omap f (snd <$> map_to_list m).

Definition unique_index f m : bool := bool_decide (NoDup (index_keys f m)).

Definition unique_prop f m : Prop :=
  forall i j x y k,
    m !! i = Some x -> m !! j = Some y -> f x = Some k -> f y = Some k -> i = j.

Lemma unique_prop_empty f : unique_prop f ∅.
Proof. intros i j x y k Hx. by rewrite lookup_empty in Hx. Qed.

Lemma omap_perm f l1 l2 : l1 ≡ₚ l2 -> omap f l1 ≡ₚ omap f l2.
Proof.
  induction 1 as [|x l l' _ IH|x y l|l l' l'' _ IH1 _ IH2]; simpl.
  - done.
  - destruct (f x); [by constructor|done].
  - destruct (f x), (f y); try done. by constructor.
  - by etrans.
Qed.

Lemma elem_of_index_keys f m k :
  k ∈ index_keys f m <-> exists i x, m !! i = Some x /\ f x = Some k.
Proof.
  unfold index_keys. rewrite list_elem_of_omap. split.
  - intros (x & Hx & Hf). apply list_elem_of_fmap in Hx as ([i y] & -> & Hy).
    apply elem_of_map_to_list in Hy. eauto.
  - intros (i & x & Hx & Hf). exists x. split; [|done].
    apply list_elem_of_fmap. exists (i, x). by rewrite elem_of_map_to_list.
Qed.

Lemma index_keys_insert f m i x :
  m !! i = None ->
  index_keys f (<[i:=x]> m) ≡ₚ
    match f x with Some k => k :: index_keys f m | None => index_keys f m end.
Proof.
  intros Hi. unfold index_keys.
  trans (omap f (x :: (snd <$> map_to_list m))).
  - apply omap_perm. by rewrite (map_to_list_insert m i x Hi).
  - simpl. by destruct (f x).
Qed.

Lemma unique_index_spec f m : unique_index f m = true <-> unique_prop f m.
Proof.
  unfold unique_index. rewrite bool_decide_eq_true.
  induction m as [|i x m Hi IH] using map_ind.
  - split; [intros _; apply unique_prop_empty|intros _; constructor].
  - rewrite (index_keys_insert f m i x Hi). split.
    + intros ND. assert (unique_prop f m) as U.
      { apply IH. destruct (f x); [apply NoDup_cons in ND as [_ ND]; done|done]. }
      assert (forall j y k, m !! j = Some y -> f x = Some k -> f y <> Some k) as F.
      { intros j y k Hj Hfx Hfy. rewrite Hfx in ND.
        apply NoDup_cons in ND as [NI _]. apply NI, elem_of_index_keys. eauto. }
      intros j1 j2 y1 y2 k. rewrite !lookup_insert.
      repeat case_decide; intros; simplify_eq; try done.
      * exfalso. by eapply F.
      * exfalso. by eapply F.
      * by eapply U.
    + intros U. assert (NoDup (index_keys f m)) as ND.
      { apply IH. intros j1 j2 y1 y2 k H1 H2 E1 E2.
        eapply (U j1 j2 y1 y2 k); [| |done|done];
          (rewrite lookup_insert_ne; [done|congruence]). }
      destruct (f x) as [k|] eqn:Hf; [|done]. apply NoDup_cons. split; [|done].
      rewrite elem_of_index_keys. intros (j & y & Hj & Hfy).
      assert (i = j) as ->; [|congruence].
      eapply (U i j x y k); [apply lookup_insert_eq| |done|done].
      rewrite lookup_insert_ne; [done|congruence].
Qed.

(** A row update that keeps the indexed key, or drops the row from the index,
    keeps the index unique. *)
Lemma unique_prop_update f m i x y :
  unique_prop f m -> m !! i = Some x ->
  (f y = f x \/ f y = None) -> unique_prop f (<[i:=y]> m).
Proof.
  intros U Hi Hf j1 j2 y1 y2 k. rewrite !lookup_insert.
  repeat case_decide; intros; simplify_eq; try done;
    destruct Hf as [Hf|Hf]; rewrite ?Hf in *; simplify_eq; eauto.
Qed.

(** A row whose key no other row carries may take that key. *)
Lemma unique_prop_insert f m i y :
  unique_prop f m ->
  (forall j x k, j <> i -> m !! j = Some x -> f x = Some k -> f y <> Some k) ->
  unique_prop f (<[i:=y]> m).
Proof.
  intros U F j1 j2 y1 y2 k. rewrite !lookup_insert.
  repeat case_decide; intros; simplify_eq; try done; eauto; exfalso; by eapply F.
Qed.

Lemma unique_prop_delete f m i : unique_prop f m -> unique_prop f (delete i m).
Proof.
  intros U j1 j2 y1 y2 k. rewrite !lookup_delete.
  repeat case_decide; try done. eauto.
Qed.

Lemma unique_prop_fmap f (g : V -> V) m :
  (forall x, f (g x) = f x \/ f (g x) = None) -> unique_prop f m -> unique_prop f (g <$> m).
Proof.
  intros Hg U i j x y k Hi Hj Ei Ej.
  apply lookup_fmap_Some in Hi as (x' & <- & Hi). apply lookup_fmap_Some in Hj as (y' & <- & Hj).
  destruct (Hg x'), (Hg y'); try congruence. eapply (U i j x' y' k); congruence.
Qed.

Lemma unique_prop_subseteq f m m' : m' ⊆ m -> unique_prop f m -> unique_prop f m'.
Proof.
  intros S U i j x y k Hi Hj. eapply U; by eapply lookup_weaken.
Qed.
End unique_index.

(** ** Ordered queries

    [order_by key rows] is the query's ORDER BY on an integer column; rows with
    equal keys keep their relative order. *)
Section order_by.
Context {A : Type} (key : A -> Z).

Fixpoint insert_by (x : A) (l : list A) : list A :=
  match l with
  | [] => [x]
  | y :: l' => if bool_decide (key x <= key y) then x :: l else y :: insert_by x l'
  end.

Definition order_by (l : list A) : list A := foldr insert_by [] l.

Lemma insert_by_perm x l : insert_by x l ≡ₚ x :: l.
Proof.
  induction l as [|y l IH]; [done|]. simpl. case_bool_decide; [done|].
  rewrite IH. by constructor.
Qed.

Lemma order_by_perm l : order_by l ≡ₚ l.
Proof.
  induction l as [|x l IH]; [done|]. simpl. rewrite insert_by_perm. by constructor.
Qed.

Lemma elem_of_order_by x l : x ∈ order_by l <-> x ∈ l.
Proof. by rewrite (order_by_perm l). Qed.

Definition key_le (x y : A) : Prop := key x <= key y.
Definition key_lt (x y : A) : Prop := key x < key y.

Lemma insert_by_sorted x l :
  StronglySorted key_le l -> StronglySorted key_le (insert_by x l).
Proof.
  induction 1 as [|y l SS IH FA]; simpl.
  - repeat constructor.
  - case_bool_decide as E.
    + constructor; [by constructor|]. constructor; [done|].
      eapply Forall_impl; [done|]. unfold key_le. intros; lia.
    + constructor; [done|]. rewrite insert_by_perm.
      constructor; [unfold key_le; lia|done].
Qed.

Lemma order_by_sorted l : StronglySorted key_le (order_by l).
Proof. induction l; simpl; [constructor|by apply insert_by_sorted]. Qed.

Lemma insert_by_head x l :
  Forall (key_le x) l -> insert_by x l = x :: l.
Proof.
  destruct 1 as [|y l Hy _]; simpl; [done|]. by rewrite bool_decide_eq_true_2.
Qed.

(** A table scanned in key order needs no reordering. *)
Lemma order_by_sorted_id l : StronglySorted key_lt l -> order_by l = l.
Proof.
  induction 1 as [|x l SS IH FA]; [done|]. simpl. rewrite IH. apply insert_by_head.
  eapply Forall_impl; [done|]. unfold key_le, key_lt. intros; lia.
Qed.

Lemma order_by_head l x :
  head (order_by l) = Some x -> x ∈ l /\ forall y, y ∈ l -> key x <= key y.
Proof.
  intros H. pose proof (order_by_sorted l) as SS.
  destruct (order_by l) as [|z l'] eqn:E; simplify_eq/=.
  assert (x ∈ l) as Hx by (rewrite <- elem_of_order_by, E; constructor).
  split; [done|]. intros y Hy. rewrite <- elem_of_order_by, E in Hy.
  apply elem_of_cons in Hy as [->|Hy]; [lia|].
  apply StronglySorted_inv in SS as [_ FA]. rewrite Forall_forall in FA.
  by apply FA.
Qed.

Lemma order_by_nil l : order_by l = [] <-> l = [].
Proof.
  split; [|by intros ->]. intros H. apply Permutation_nil. rewrite <- H.
  by rewrite order_by_perm.
Qed.
End order_by.

(** ** Queries ordered by several columns

    ORDER BY a tuple of columns is the lexicographic order of integer lists: a
    text column contributes its code points last. *)
Fixpoint lex_le (a b : list Z) : bool :=
  match a, b with
  | [], _ => true
  | _, [] => false
  | x :: a, y :: b => (x <? y) || (x =? y) && lex_le a b
  end.

Lemma lex_le_refl a : lex_le a a = true.
Proof. induction a as [|x a IH]; simpl; [done|]. by rewrite Z.eqb_refl, IH, orb_true_r. Qed.

Lemma lex_le_trans a b c : lex_le a b = true -> lex_le b c = true -> lex_le a c = true.
Proof.
  revert b c. induction a as [|x a IH]; intros [|y b] [|z c]; simpl; try done.
  rewrite !orb_true_iff, !andb_true_iff, !Z.ltb_lt, !Z.eqb_eq.
  intros [?|[? H1]] [?|[? H2]]; try (left; lia). right. split; [lia|eauto].
Qed.

Lemma lex_le_total a b : lex_le a b = true \/ lex_le b a = true.
Proof.
  revert b. induction a as [|x a IH]; intros [|y b]; simpl; try tauto.
  rewrite !orb_true_iff, !andb_true_iff, !Z.ltb_lt, !Z.eqb_eq.
  destruct (IH b), (Z.lt_trichotomy x y) as [|[|]]; tauto || lia || intuition lia.
Qed.

Section order_by_keys.
Context {A : Type} (key : A -> list Z).

Fixpoint insert_lex (x : A) (l : list A) : list A :=
  match l with
  | [] => [x]
  | y :: l' => if lex_le (key x) (key y) then x :: l else y :: insert_lex x l'
  end.

Definition order_by_keys (l : list A) : list A := foldr insert_lex [] l.

Lemma insert_lex_perm x l : insert_lex x l ≡ₚ x :: l.
Proof.
  induction l as [|y l IH]; [done|]. simpl. destruct (lex_le _ _); [done|].
  rewrite IH. by constructor.
Qed.

Lemma order_by_keys_perm l : order_by_keys l ≡ₚ l.
Proof.
  induction l as [|x l IH]; [done|]. simpl. rewrite insert_lex_perm. by constructor.
Qed.

Lemma insert_lex_sorted x l :
  StronglySorted (fun a b => lex_le (key a) (key b) = true) l ->
  StronglySorted (fun a b => lex_le (key a) (key b) = true) (insert_lex x l).
Proof.
  induction 1 as [|y l SS IH FA]; simpl; [repeat constructor|].
  destruct (lex_le (key x) (key y)) eqn:E.
  - constructor; [by constructor|]. constructor; [done|].
    eapply Forall_impl; [done|]. intros z Hz. by eapply lex_le_trans.
  - constructor; [done|]. rewrite insert_lex_perm. constructor; [|done].
    destruct (lex_le_total (key x) (key y)); congruence.
Qed.

Lemma order_by_keys_sorted l :
  StronglySorted (fun a b => lex_le (key a) (key b) = true) (order_by_keys l).
Proof. induction l; simpl; [constructor|by apply insert_lex_sorted]. Qed.

(** The first row of an ordered query is in the table and no row precedes it. *)
Lemma order_by_keys_head l x :
  head (order_by_keys l) = Some x -> x ∈ l /\ forall y, y ∈ l -> lex_le (key x) (key y) = true.
Proof.
  intros H. pose proof (order_by_keys_sorted l) as SS. pose proof (order_by_keys_perm l) as P.
  destruct (order_by_keys l) as [|z l']; simplify_eq/=.
  apply StronglySorted_inv in SS as [_ FA]. rewrite Forall_forall in FA.
  split; [rewrite <- P; constructor|]. intros y. rewrite <- P, elem_of_cons.
  intros [->|Hy]; [apply lex_le_refl|auto].
Qed.

Lemma order_by_keys_head_None l : head (order_by_keys l) = None <-> l = [].
Proof.
  pose proof (order_by_keys_perm l) as P. destruct (order_by_keys l) as [|z l']; simpl.
  - split; [|done]. intros _. by apply Permutation_nil in P.
  - split; [done|]. intros ->. by apply Permutation_nil_r in P.
Qed.
End order_by_keys.

(** ** Rows of a keyed table that satisfy a predicate *)
Section rows.
Context {K V : Type} `{Countable K}.
Implicit Types m : gmap K V.

Definition rows_where (p : V -> bool) (m : gmap K V) : list V :=
  List.filter p (snd <$> map_to_list m).

Lemma elem_of_rows_where p m x :
  x ∈ rows_where p m <-> exists i, m !! i = Some x /\ p x = true.
Proof.
  unfold rows_where. rewrite list_elem_of_In, filter_In, <- list_elem_of_In.
  rewrite list_elem_of_fmap. split.
  - intros [([i y] & -> & Hy) Hp]. apply elem_of_map_to_list in Hy. eauto.
  - intros (i & Hi & Hp). split; [|done]. exists (i, x).
    by rewrite elem_of_map_to_list.
Qed.

(** Rows that carry their key are selected once each. *)
Lemma rows_where_keys (f : V -> K) p m :
  (forall i x, m !! i = Some x -> f x = i) -> NoDup (f <$> rows_where p m).
Proof.
  intros E. unfold rows_where.
  pose proof (fun kv H => E kv.1 kv.2 (proj1 (elem_of_map_to_list m kv.1 kv.2) H)) as E'.
  pose proof (NoDup_fst_map_to_list m) as N.
  induction (map_to_list m) as [|[k v] l IH]; [constructor|].
  rewrite fmap_cons in N. apply NoDup_cons in N as [N1 N2].
  specialize (IH ltac:(intros kv H1; apply E'; by right) N2).
  simpl. destruct (p v); [|exact IH]. rewrite fmap_cons. apply NoDup_cons. split; [|exact IH].
  assert (f v = k) as -> by (apply (E' (k, v)); by left).
  intros (x & -> & Hx)%list_elem_of_fmap. apply N1.
  apply list_elem_of_In, filter_In in Hx as [Hx _]. apply list_elem_of_In, list_elem_of_fmap in Hx as ([k' x'] & -> & Hx).
  simpl. apply list_elem_of_fmap. exists (k', x'). split; [|done]. by apply (E' (k', x')); right.
Qed.

Lemma rows_where_nil p m :
  rows_where p m = [] <-> forall i x, m !! i = Some x -> p x = false.
Proof.
  split.
  - intros E i x Hi. destruct (p x) eqn:Hp; [|done].
    assert (x ∈ rows_where p m) as HH by (apply elem_of_rows_where; eauto).
    rewrite E in HH. by apply not_elem_of_nil in HH.
  - intros F. destruct (rows_where p m) as [|x l] eqn:E; [done|].
    assert (x ∈ rows_where p m) as HH by (rewrite E; constructor).
    apply elem_of_rows_where in HH as (i & Hi & Hp). rewrite (F i x Hi) in Hp. done.
Qed.

Lemma rows_where_ext p q m : (forall x, p x = q x) -> rows_where p m = rows_where q m.
Proof. intros E. unfold rows_where. by apply filter_ext. Qed.

Lemma filter_perm {A} (p : A -> bool) (l k : list A) : l ≡ₚ k -> List.filter p l ≡ₚ List.filter p k.
Proof.
  induction 1 as [|x l k _ IH|x y l|l k m _ IH1 _ IH2]; simpl; [done| | |by etrans].
  - destruct (p x); [by constructor|done].
  - destruct (p x), (p y); try done. by constructor.
Qed.

Lemma rows_where_insert p m i x :
  m !! i = None ->
  length (rows_where p (<[i:=x]> m)) = ((if p x then 1 else 0) + length (rows_where p m))%nat.
Proof.
  intros Hi. unfold rows_where.
  assert (snd <$> map_to_list (<[i:=x]> m) ≡ₚ x :: (snd <$> map_to_list m)) as E
    by by rewrite (map_to_list_insert m i x Hi).
  rewrite (Permutation_length (filter_perm p _ _ E)). simpl. by destruct (p x).
Qed.

(** Counting the rows a deletion leaves. *)
Lemma rows_where_filter p (P : V -> Prop) `{!forall x, Decision (P x)} m :
  length (rows_where p (filter (fun kv => P kv.2) m)) =
    length (rows_where (fun x => p x && bool_decide (P x)) m).
Proof.
  induction m as [|i x m Hi IH] using map_ind; [done|].
  rewrite (rows_where_insert _ m i x Hi). destruct (decide (P x)) as [HP|HP].
  - rewrite map_filter_insert_True by done. rewrite rows_where_insert, IH.
    + rewrite (bool_decide_eq_true_2 (P x)) by done. by rewrite andb_true_r.
    + by rewrite map_lookup_filter, Hi.
  - rewrite map_filter_insert_False by done. rewrite delete_id by done. rewrite IH.
    rewrite (bool_decide_eq_false_2 (P x)) by done. by rewrite andb_false_r.
Qed.

(** The row a query for at most one match returns. *)
Definition first_where (p : V -> bool) (m : gmap K V) : option V :=
  head (rows_where p m).

Lemma first_where_Some p m x :
  first_where p m = Some x -> exists i, m !! i = Some x /\ p x = true.
Proof.
  unfold first_where. intros E. apply elem_of_rows_where.
  destruct (rows_where p m); simplify_eq/=. constructor.
Qed.

Lemma first_where_None p m :
  first_where p m = None <-> forall i x, m !! i = Some x -> p x = false.
Proof.
  unfold first_where. rewrite <- rows_where_nil.
  destruct (rows_where p m); simpl; split; congruence.
Qed.

(** When the predicate picks out at most one row, that row is the answer. *)
Lemma first_where_unique p m i x :
  m !! i = Some x -> p x = true ->
  (forall j y, m !! j = Some y -> p y = true -> j = i) ->
  first_where p m = Some x.
Proof.
  intros Hi Hp U. destruct (first_where p m) as [y|] eqn:E.
  - apply first_where_Some in E as (j & Hj & Hpy).
    rewrite (U j y Hj Hpy) in Hj. congruence.
  - rewrite first_where_None in E. rewrite (E i x Hi) in Hp. done.
Qed.
End rows.

(** ** Consecutive integer ranges *)

Fixpoint zrange (start : Z) (n : nat) : list Z :=
  match n with O => [] | S n' => start :: zrange (start + 1) n' end.

Lemma zrange_app s n k : zrange s (n + k) = zrange s n ++ zrange (s + Z.of_nat n) k.
Proof.
  revert s. induction n as [|n IH]; intros s; simpl.
  - f_equal. lia.
  - rewrite IH. do 2 f_equal. f_equal. lia.
Qed.

Lemma zrange_S_r s n : zrange s (S n) = zrange s n ++ [s + Z.of_nat n].
Proof. replace (S n) with (n + 1)%nat by lia. by rewrite zrange_app. Qed.

Lemma elem_of_zrange s n x : x ∈ zrange s n <-> s <= x < s + Z.of_nat n.
Proof.
  revert s. induction n as [|n IH]; intros s; simpl.
  - rewrite elem_of_nil. lia.
  - rewrite elem_of_cons, IH. lia.
Qed.

Lemma length_zrange s n : length (zrange s n) = n.
Proof. revert s. induction n; intros s; simpl; [done|]. by rewrite IHn. Qed.

Lemma zrange_sorted s n : StronglySorted Z.lt (zrange s n).
Proof.
  revert s. induction n as [|n IH]; intros s; simpl; constructor; [done|].
  apply Forall_forall. intros x Hx. apply elem_of_zrange in Hx. lia.
Qed.

Lemma take_zrange s n k : take k (zrange s n) = zrange s (Nat.min k n).
Proof.
  revert s n. induction k as [|k IH]; intros s n; [done|]. destruct n; [done|]. simpl. by rewrite IH.
Qed.

Lemma drop_zrange s n k : (k <= n)%nat ->
  drop k (zrange s n) = zrange (s + Z.of_nat k) (n - k).
Proof.
  intros Hk. replace n with (k + (n - k))%nat at 1 by lia.
  rewrite zrange_app, drop_app_length'; [done|by rewrite length_zrange].
Qed.

(** ** Lists *)

Lemma prefix_app_r' {A} (l k : list A) : l `prefix_of` l ++ k.
Proof. by exists k. Qed.

Lemma take_drop_prefix {A} n (l : list A) : take n l `prefix_of` l.
Proof. exists (drop n l). by rewrite take_drop. Qed.

Lemma prefix_drop {A} n (l k : list A) : l `prefix_of` k -> drop n l `prefix_of` drop n k.
Proof. intros [m ->]. rewrite drop_app. apply prefix_app_r'. Qed.

(** A batch taken from a list, followed by what comes after it in a longer one. *)
Lemma take_drop_page {A} n (l k : list A) :
  l `prefix_of` k -> take n l ++ drop (length (take n l)) k = k.
Proof.
  intros [m ->]. assert (l ++ m = take n l ++ (drop n l ++ m)) as E.
  { by rewrite app_assoc, take_drop. }
  rewrite E. by rewrite drop_app_length.
Qed.

(** The elements past a bound of a list numbered from one. *)
Lemma filter_past_all {A} (f : A -> Z) (l : list A) s c :
  f <$> l = zrange (s + 1) (length l) -> c <= s -> List.filter (fun x => c <? f x) l = l.
Proof.
  revert s. induction l as [|x l IH]; intros s E Hc; [done|].
  simpl in E. injection E as Ex E. simpl. rewrite Ex, (proj2 (Z.ltb_lt _ _)) by lia.
  f_equal. apply (IH (s + 1)); [done|lia].
Qed.

Lemma filter_past {A} (f : A -> Z) (l : list A) s c :
  f <$> l = zrange (s + 1) (length l) -> s <= c ->
  List.filter (fun x => c <? f x) l = drop (Z.to_nat (c - s)) l.
Proof.
  revert s. induction l as [|x l IH]; intros s E Hc; [by rewrite drop_nil|].
  destruct (decide (c = s)) as [->|N].
  { rewrite Z.sub_diag. apply (filter_past_all f (x :: l) s); [done|lia]. }
  simpl in E. injection E as Ex E. simpl. rewrite Ex, (proj2 (Z.ltb_ge _ _)) by lia.
  replace (Z.to_nat (c - s)) with (S (Z.to_nat (c - (s + 1)))) by lia.
  simpl. apply IH; [done|lia].
Qed.

Lemma filter_filter {A} (p q : A -> bool) (l : list A) :
  List.filter (fun x => p x && q x) l = List.filter q (List.filter p l).
Proof.
  induction l as [|x l IH]; [done|]. simpl. destruct (p x); simpl; [|done].
  destruct (q x); by rewrite IH.
Qed.

Lemma key_sorted {A} (f : A -> Z) (l : list A) :
  StronglySorted Z.lt (f <$> l) -> StronglySorted (key_lt f) l.
Proof.
  induction l as [|x l IH]; intros SS; [constructor|]. simpl in SS.
  apply StronglySorted_inv in SS as [SS FA]. constructor; [auto|].
  clear -FA. induction l; inversion_clear FA; constructor; auto.
Qed.

Lemma sorted_drop {A} (R : A -> A -> Prop) n l : StronglySorted R l -> StronglySorted R (drop n l).
Proof.
  revert l. induction n as [|n IH]; intros l SS; [done|]. destruct SS; [constructor|by apply IH].
Qed.

(** ** Sorted lists of distinct integers *)

Lemma sorted_lt_NoDup (l : list Z) : StronglySorted Z.lt l -> NoDup l.
Proof.
  induction 1 as [|x l SS IH FA]; constructor; [|done]. intros Hx.
  rewrite Forall_forall in FA. apply FA in Hx. lia.
Qed.

Lemma zrange_NoDup s n : NoDup (zrange s n).
Proof. apply sorted_lt_NoDup, zrange_sorted. Qed.

Lemma sorted_lt_le (l : list Z) : StronglySorted Z.lt l -> StronglySorted Z.le l.
Proof.
  induction 1 as [|x l SS IH FA]; constructor; [done|]. eapply Forall_impl; [done|]. simpl. lia.
Qed.

(** A duplicate-free list of the integers of an interval, in increasing order. *)
Lemma sorted_interval (l : list Z) s n :
  StronglySorted Z.le l -> NoDup l -> (forall x, x ∈ l <-> s <= x < s + Z.of_nat n) ->
  l = zrange s n.
Proof.
  intros SS ND E. apply (StronglySorted_unique Z.le); [done| |].
  - apply sorted_lt_le, zrange_sorted.
  - apply NoDup_Permutation; [done|apply zrange_NoDup|]. intros x. by rewrite E, elem_of_zrange.
Qed.

Lemma sorted_fmap {A} (f : A -> Z) (l : list A) :
  StronglySorted (key_le f) l -> StronglySorted Z.le (f <$> l).
Proof.
  induction 1 as [|x l SS IH FA]; csimpl; constructor; [done|].
  clear -FA. induction FA; csimpl; constructor; done.
Qed.

(** Rows a predicate picks with pairwise different keys. *)
Lemma rows_where_NoDup {K V B} `{Countable K} (p : V -> bool) (f : V -> B) (m : gmap K V) :
  (forall i j x y, m !! i = Some x -> m !! j = Some y -> p x = true -> p y = true ->
     f x = f y -> i = j) -> NoDup (f <$> rows_where p m).
Proof.
  intros U. unfold rows_where.
  assert (forall l : list (K * V), NoDup l.*1 -> (forall i x, (i, x) ∈ l -> m !! i = Some x) ->
    NoDup (f <$> List.filter p (snd <$> l))) as A.
  { induction l as [|[i x] l IH]; intros ND Hl; csimpl; [constructor|].
    apply NoDup_cons in ND as [Ni ND].
    assert (NoDup (f <$> List.filter p l.*2)) as IH' by (apply IH; [done|intros; apply Hl; by constructor]).
    destruct (p x) eqn:Px; [|done]. csimpl. constructor; [|done].
    intros (y & Ey & Hy)%list_elem_of_fmap. apply list_elem_of_In, filter_In in Hy as [Hy Py].
    apply list_elem_of_In, list_elem_of_fmap in Hy as ([j z] & -> & Hj). apply Ni.
    assert (i = j) as ->; [|apply list_elem_of_fmap; by exists (j, z)].
    eapply (U i j x z); try done; apply Hl; [constructor|by constructor]. }
  apply A; [apply NoDup_fst_map_to_list|]. intros i x. apply elem_of_map_to_list.
Qed.

(** Newest first is oldest first read backwards, when no two keys are equal. *)
Section descending.
Context {A : Type} (f : A -> Z).

Lemma sorted_strict (l : list A) :
  StronglySorted (key_le f) l -> NoDup (f <$> l) -> StronglySorted (key_lt f) l.
Proof.
  induction 1 as [|x l SS IH FA]; csimpl; intros ND; constructor;
    apply NoDup_cons in ND as [Nx ND]; [auto|].
  apply Forall_forall. intros y Hy. rewrite Forall_forall in FA. specialize (FA y Hy).
  unfold key_le, key_lt in *. assert (f x <> f y); [|lia]. intros E. apply Nx.
  rewrite E. by apply list_elem_of_fmap_2.
Qed.

Lemma sorted_snoc (R : A -> A -> Prop) l x :
  StronglySorted R l -> Forall (fun y => R y x) l -> StronglySorted R (l ++ [x]).
Proof.
  induction 1 as [|y l SS IH FA]; intros Hx; simpl; [repeat constructor|].
  inversion_clear Hx. constructor; [auto|]. apply Forall_app. split; [done|]. by constructor.
Qed.

Lemma sorted_rev (l : list A) :
  StronglySorted (key_lt f) l -> StronglySorted (key_lt (fun x => - f x)) (rev l).
Proof.
  induction 1 as [|x l SS IH FA]; simpl; [constructor|]. apply sorted_snoc; [done|].
  apply Forall_forall. intros y Hy%list_elem_of_In%in_rev%list_elem_of_In.
  rewrite Forall_forall in FA. specialize (FA y Hy). unfold key_lt in *. lia.
Qed.

Lemma sorted_distinct (l k : list A) :
  StronglySorted (key_lt f) l -> StronglySorted (key_lt f) k -> l ≡ₚ k -> l = k.
Proof.
  intros S1 S2 P. apply (StronglySorted_unique_strong (key_lt f)); try done.
  intros x y _ _ H1 H2. unfold key_lt in *. lia.
Qed.
End descending.

Lemma order_by_opp {A} (f : A -> Z) (l : list A) :
  NoDup (f <$> l) -> order_by (fun x => - f x) l = rev (order_by f l).
Proof.
  intros ND. apply (sorted_distinct (fun x => - f x)).
  - apply sorted_strict; [apply order_by_sorted|]. rewrite order_by_perm.
    apply (NoDup_fmap_2_strong Z.opp) in ND; [|intros; lia].
    by rewrite <- list_fmap_compose in ND.
  - apply sorted_rev, sorted_strict; [apply order_by_sorted|]. by rewrite order_by_perm.
  - by rewrite order_by_perm, <- Permutation_rev, order_by_perm.
Qed.

Lemma NoDup_fmap_filter {A B} (f : A -> B) (p : A -> bool) (l : list A) :
  NoDup (f <$> l) -> NoDup (f <$> List.filter p l).
Proof.
  induction l as [|e l IH]; [done|]. csimpl. intros [Nx ND]%NoDup_cons.
  destruct (p e); [|auto]. csimpl. constructor; [|auto].
  intros (y & Ey & Hy)%list_elem_of_fmap. apply Nx. rewrite Ey. apply list_elem_of_fmap_2.
  apply list_elem_of_In, filter_In in Hy as [Hy _]. by apply list_elem_of_In.
Qed.
