(* ===== verification/PyBase.v ===== *)
(** * Python values

    The fragment of Python the modelled code computes with: text as sequences
    of code points ([str]), its UTF-8 encoding, the string methods and the
    anchored regular expressions in use, and JSON documents with Python's
    truthiness, [dict] operations and equality. *)

From S2P Require Import Prelude.
From Stdlib Require Import NArith QArith.

Open Scope Z_scope.

(** ** Text *)

(** A Python [str]: a sequence of Unicode code points (lone surrogates, which
    UTF-8 cannot encode, included). *)
Inductive pystr := PyStr (cps : list N).

Declare Scope py_scope.
Delimit Scope py_scope with py.
Bind Scope py_scope with pystr.

Definition cps_of (s : pystr) : list N := let 'PyStr l := s in l.

#[export] Instance pystr_eq_dec : EqDecision pystr.
Proof. solve_decision. Defined.

#[export] Instance pystr_countable : Countable pystr.
Proof. refine (inj_countable' cps_of PyStr _). by intros []. Defined.

#[export] Instance pystr_inhabited : Inhabited pystr := populate (PyStr []).

Definition is_surrogate (c : N) : bool := (55296 <=? c)%N && (c <=? 57343)%N.

(** UTF-8 of one code point; surrogates and values past U+10FFFF have none. *)
Definition utf8_encode_cp (c : N) : option (list N) :=
  if (c <? 128)%N then Some [c]
  else if (c <? 2048)%N then Some [192 + c / 64; 128 + c mod 64]%N
  else if is_surrogate c then None
  else if (c <? 65536)%N then
    Some [224 + c / 4096; 128 + (c / 64) mod 64; 128 + c mod 64]%N
  else if (c <? 1114112)%N then
    Some [240 + c / 262144; 128 + (c / 4096) mod 64;
          128 + (c / 64) mod 64; 128 + c mod 64]%N
  else None.

(** [s.encode("utf-8")]: [None] stands for [UnicodeEncodeError]. *)
Definition utf8_encode (s : pystr) : option (list N) :=
  @concat _ <$> mapM utf8_encode_cp (cps_of s).

(** Decoding a well-formed byte sequence, one code point per unit of fuel. *)
Fixpoint utf8_decode_aux (fuel : nat) (bs : list N) : option (list N) :=
  match fuel with
  | O => None
  | S fuel =>
    match bs with
    | [] => Some []
    | b :: bs =>
      if (b <? 128)%N then cons b <$> utf8_decode_aux fuel bs
      else if (b <? 192)%N then None
      else if (b <? 224)%N then
        match bs with
        | c :: bs =>
            cons ((b - 192) * 64 + (c - 128))%N <$> utf8_decode_aux fuel bs
        | _ => None
        end
      else if (b <? 240)%N then
        match bs with
        | c :: d :: bs =>
            cons ((b - 224) * 4096 + (c - 128) * 64 + (d - 128))%N
              <$> utf8_decode_aux fuel bs
        | _ => None
        end
      else
        match bs with
        | c :: d :: e :: bs =>
            cons ((b - 240) * 262144 + (c - 128) * 4096
                  + (d - 128) * 64 + (e - 128))%N
              <$> utf8_decode_aux fuel bs
        | _ => None
        end
    end
  end.

Definition utf8_decode (bs : list N) : option pystr :=
  PyStr <$> utf8_decode_aux (S (length bs)) bs.

(** String literals of the development are UTF-8 and denote code points. *)
Definition pystr_parse (bs : list Byte.byte) : option pystr :=
  utf8_decode (Byte.to_N <$> bs).
Definition pystr_print (s : pystr) : option (list Byte.byte) :=
  bs ← utf8_encode s; mapM Byte.of_N bs.
String Notation pystr pystr_parse pystr_print : py_scope.

Example literal_code_points : "Run 不"%py = PyStr [82; 117; 110; 32; 19981]%N.
Proof. reflexivity. Qed.

Lemma utf8_decode_cp c bs rest fuel :
  utf8_encode_cp c = Some bs ->
  utf8_decode_aux (S fuel) (bs ++ rest) = cons c <$> utf8_decode_aux fuel rest.
Proof.
  unfold utf8_encode_cp, is_surrogate.
  assert (c = 64 * (c / 64) + c mod 64)%N as D1 by apply N.div_mod'.
  assert (c / 64 = 64 * (c / 4096) + (c / 64) mod 64)%N as D2.
  { rewrite (N.div_mod' (c / 64) 64) at 1. by rewrite N.Div0.div_div. }
  assert (c / 4096 = 64 * (c / 262144) + (c / 4096) mod 64)%N as D3.
  { rewrite (N.div_mod' (c / 4096) 64) at 1. by rewrite N.Div0.div_div. }
  pose proof (N.mod_lt c 64 ltac:(done)) as B1.
  pose proof (N.mod_lt (c / 64) 64 ltac:(done)) as B2.
  pose proof (N.mod_lt (c / 4096) 64 ltac:(done)) as B3.
  revert D1 D2 D3 B1 B2 B3.
  generalize (c mod 64)%N as r0, ((c / 64) mod 64)%N as r1, ((c / 4096) mod 64)%N as r2.
  generalize (c / 64)%N as q0, (c / 4096)%N as q1, (c / 262144)%N as q2.
  intros q0 q1 q2 r0 r1 r2 D1 D2 D3 B1 B2 B3 H.
  repeat match type of H with
  | context [if (?a && ?b) then _ else _] => destruct (a && b) eqn:?
  | context [if (?a <? ?b)%N then _ else _] => destruct (N.ltb_spec a b)
  end; simplify_eq; cbn [app utf8_decode_aux];
  repeat match goal with
  | |- context [if (?a <? ?b)%N then _ else _] => destruct (N.ltb_spec a b); try lia
  end; do 2 f_equal; lia.
Qed.

Lemma utf8_encode_cp_nonempty c bs : utf8_encode_cp c = Some bs -> (1 <= length bs)%nat.
Proof.
  unfold utf8_encode_cp. intros H. break_match_in H; simpl; lia.
Qed.

Lemma utf8_decode_concat cs bss fuel :
  mapM utf8_encode_cp cs = Some bss ->
  (length (concat bss) < fuel)%nat ->
  utf8_decode_aux fuel (concat bss) = Some cs.
Proof.
  intros H. apply mapM_Some_1 in H. revert fuel.
  induction H as [|c bs cs bss Hc _ IH]; intros fuel Hf.
  - destruct fuel; [simpl in *; lia|done].
  - destruct fuel as [|fuel]; [lia|]. cbn [concat].
    rewrite (utf8_decode_cp c bs _ fuel Hc), IH; [done|].
    simpl in Hf. rewrite length_app in Hf.
    pose proof (utf8_encode_cp_nonempty c bs Hc). lia.
Qed.

(** Every encodable string survives encoding and decoding. *)
Lemma utf8_roundtrip s bs : utf8_encode s = Some bs -> utf8_decode bs = Some s.
Proof.
  unfold utf8_encode, utf8_decode. intros H.
  apply fmap_Some in H as (bss & Hm & ->).
  rewrite (utf8_decode_concat (cps_of s) bss); [|done|lia].
  by destruct s.
Qed.

(** ** String methods *)

Definition py_len (s : pystr) : Z := Z.of_nat (length (cps_of s)).
Definition py_app (s t : pystr) : pystr := PyStr (cps_of s ++ cps_of t).
Infix "+++" := py_app (at level 60, right associativity) : py_scope.
Definition py_nonempty (s : pystr) : bool :=
  match cps_of s with [] => false | _ => true end.

(** [s[:n]] for a non-negative bound. *)
Definition py_take (n : nat) (s : pystr) : pystr := PyStr (take n (cps_of s)).

(** [str.isspace] on one code point. *)
Definition is_space (c : N) : bool :=
  ((9 <=? c) && (c <=? 13) || (28 <=? c) && (c <=? 32)
   || (c =? 133) || (c =? 160) || (c =? 5760)
   || (8192 <=? c) && (c <=? 8202) || (c =? 8232) || (c =? 8233)
   || (c =? 8239) || (c =? 8287) || (c =? 12288))%N.

Fixpoint drop_space (l : list N) : list N :=
  match l with
  | c :: l' => if is_space c then drop_space l' else l
  | [] => []
  end.

(** [s.strip()] *)
Definition py_strip (s : pystr) : pystr :=
  PyStr (rev (drop_space (rev (drop_space (cps_of s))))).

(** [s.split()]: maximal runs of non-space characters; [cur] is the run being
    read, reversed. *)
Fixpoint split_aux (cur : list N) (l : list N) : list (list N) :=
  match l with
  | [] => match cur with [] => [] | _ => [rev cur] end
  | c :: l' =>
      if is_space c
      then match cur with
           | [] => split_aux [] l'
           | _ => rev cur :: split_aux [] l'
           end
      else split_aux (c :: cur) l'
  end.
Definition py_split (s : pystr) : list pystr := PyStr <$> split_aux [] (cps_of s).

(** [sep.join(parts)] *)
Fixpoint py_join (sep : pystr) (parts : list pystr) : pystr :=
  match parts with
  | [] => PyStr []
  | [p] => p
  | p :: ps => (p +++ (sep +++ py_join sep ps))%py
  end.

Lemma drop_space_idem l : drop_space (drop_space l) = drop_space l.
Proof.
  induction l as [|c l IH]; simpl; [done|].
  destruct (is_space c) eqn:E; [done|]. simpl. by rewrite E.
Qed.

Lemma drop_space_suffix l : exists p, l = p ++ drop_space l /\ Forall (fun c => is_space c = true) p.
Proof.
  induction l as [|c l (p & Hl & Hp)]; simpl.
  - exists []. done.
  - destruct (is_space c) eqn:E.
    + exists (c :: p). simpl. split; [by f_equal|by constructor].
    + exists []. done.
Qed.

Lemma drop_space_head l : drop_space l = [] \/ exists c l', drop_space l = c :: l' /\ is_space c = false.
Proof.
  induction l as [|c l IH]; simpl; [by left|].
  destruct (is_space c) eqn:E; [done|]. right. eauto.
Qed.

Lemma drop_space_app_nonspace l c :
  is_space c = false -> exists l', drop_space (l ++ [c]) = l' ++ [c].
Proof.
  intros Hc. induction l as [|d l IH]; simpl.
  - rewrite Hc. by exists [].
  - destruct (is_space d); [done|]. by exists (d :: l).
Qed.

(** Stripping twice is stripping once. *)
Lemma py_strip_idem s : py_strip (py_strip s) = py_strip s.
Proof.
  unfold py_strip. f_equal. cbn [cps_of].
  set (l := drop_space (cps_of s)).
  assert (drop_space (rev (drop_space (rev l))) = rev (drop_space (rev l))) as ->.
  { destruct (drop_space_head (cps_of s)) as [E|(c & l' & E & Hc)];
      fold l in E; rewrite E; [done|].
    simpl. destruct (drop_space_app_nonspace (rev l') c Hc) as [l'' ->].
    rewrite rev_app_distr. simpl. by rewrite Hc. }
  by rewrite rev_involutive, drop_space_idem.
Qed.

(** ** Anchored character-class patterns *)

Definition in_range (lo hi c : N) : bool := (lo <=? c)%N && (c <=? hi)%N.
Definition is_az : N -> bool := in_range 97 122.
Definition is_AZ : N -> bool := in_range 65 90.
Definition is_09 : N -> bool := in_range 48 57.
Definition is_one_of (cs : pystr) (c : N) : bool := existsb (N.eqb c) (cps_of cs).

(** [re.fullmatch("[first][rest]{0,max}", s)] *)
Definition fullmatch_id (first rest : N -> bool) (max : option nat) (s : pystr) : bool :=
  match cps_of s with
  | [] => false
  | c :: l =>
      first c && forallb rest l
      && match max with Some n => (length l <=? n)%nat | None => true end
  end.

(** [all characters in "0123456789abcdef"] and a length of 64. *)
Definition is_hex_digest (s : pystr) : bool :=
  (py_len s =? 64) && forallb (fun c => is_09 c || in_range 97 102 c) (cps_of s).

(** [str.upper] of one code point, exact on every character whose upper case is
    ASCII (the ten non-ASCII ones are listed); the others are left alone, which
    no ASCII pattern can tell from their real upper case. *)
Definition upper_cp (c : N) : list N :=
  if is_az c then [c - 32]%N
  else if (c =? 223)%N then [83; 83]%N
  else if (c =? 305)%N then [73]%N
  else if (c =? 383)%N then [83]%N
  else if (c =? 64256)%N then [70; 70]%N
  else if (c =? 64257)%N then [70; 73]%N
  else if (c =? 64258)%N then [70; 76]%N
  else if (c =? 64259)%N then [70; 70; 73]%N
  else if (c =? 64260)%N then [70; 70; 76]%N
  else if (c =? 64261)%N || (c =? 64262)%N then [83; 84]%N
  else [c].
Definition py_upper (s : pystr) : pystr := PyStr (cps_of s ≫= upper_cp).

(** A string without spaces at its ends is its own [strip]. *)
Lemma py_strip_nospace s :
  forallb (fun c => negb (is_space c)) (cps_of s) = true -> py_strip s = s.
Proof.
  destruct s as [l]. unfold py_strip. cbn [cps_of]. intros H.
  assert (forall l, forallb (fun c => negb (is_space c)) l = true -> drop_space l = l) as D.
  { intros [|c l']; simpl; [done|]. intros [E _]%andb_true_iff.
    apply negb_true_iff in E. by rewrite E. }
  rewrite (D l H), D, rev_involutive; [done|].
  rewrite forallb_forall in *. intros c Hc. apply H. by apply in_rev.
Qed.

(** Decimal rendering of an integer, [str(n)]. *)
Fixpoint digits_aux (fuel : nat) (n : N) (acc : list N) : list N :=
  match fuel with
  | O => acc
  | S fuel =>
      let acc := (48 + n mod 10)%N :: acc in
      if (n <? 10)%N then acc else digits_aux fuel (n / 10) acc
  end.
Definition py_str_int (z : Z) : pystr :=
  let n := Z.abs_N z in
  let ds := digits_aux (S (N.to_nat (N.log2 n))) n [] in
  PyStr (if z <? 0 then 45%N :: ds else ds).

Example py_str_int_ex : py_str_int 1207 = "1207"%py /\ py_str_int (-40) = "-40"%py.
Proof. split; reflexivity. Qed.

(** ** Durations, defaults and sorting *)

(** [timedelta(seconds=n)] in microseconds. *)
Definition seconds (n : Z) : Z := n * 1000000.

(** [x or default] on an optional string and on an optional integer. *)
Definition or_str (x : option pystr) (d : pystr) : pystr :=
  match x with Some s => if py_nonempty s then s else d | None => d end.
Definition or_int (x : option Z) (d : Z) : Z :=
  match x with Some z => if z =? 0 then d else z | None => d end.

(** [sorted] on strings: code point order. *)
Fixpoint cps_le (a b : list N) : bool :=
  match a, b with
  | [], _ => true
  | _, [] => false
  | x :: a, y :: b => (x <? y)%N || (x =? y)%N && cps_le a b
  end.
Fixpoint insert_str (x : pystr) (l : list pystr) : list pystr :=
  match l with
  | [] => [x]
  | y :: l' => if cps_le (cps_of x) (cps_of y) then x :: l else y :: insert_str x l'
  end.
Definition sorted_str (l : list pystr) : list pystr := foldr insert_str [] l.

(** [s.lower()], exact on the strings whose lower case is ASCII. *)
Definition py_lower (s : pystr) : pystr :=
  PyStr ((fun c => if is_AZ c then (c + 32)%N else c) <$> cps_of s).

(** Truthiness of an optional string. *)
Definition str_set (o : option pystr) : bool :=
  match o with Some s => py_nonempty s | None => false end.

(** ** JSON documents *)

(** Decimal numbers [coeff * 10^exp], as [decimal.Decimal] holds them. *)
Record Decimal := mkDecimal { dec_coeff : Z; dec_exp : Z }.
#[export] Instance Decimal_eq_dec : EqDecision Decimal.
Proof. solve_decision. Defined.
Definition decimal_zero : Decimal := mkDecimal 0 0.
(** [d != Decimal("0")]: a decimal is zero exactly when its coefficient is. *)
Definition decimal_nonzero (d : Decimal) : bool := negb (dec_coeff d =? 0).

#[warnings="-register-all"]
Inductive json :=
| JNull
| JBool (b : bool)
| JInt (z : Z)
| JFloat (q : Q)
| JStr (s : pystr)
| JDecStr (d : Decimal)  (** [str(d)] of a decimal *)
| JArr (items : list json)
| JObj (fields : list (pystr * json)).

(** [dict.get(key)]: the last binding wins is never needed, keys are unique. *)
Fixpoint obj_get (k : pystr) (fields : list (pystr * json)) : option json :=
  match fields with
  | [] => None
  | (k', v) :: fs => if bool_decide (k = k') then Some v else obj_get k fs
  end.

(** [{**fields, k: v}]: an existing key keeps its position. *)
Fixpoint obj_set (k : pystr) (v : json) (fields : list (pystr * json)) :
    list (pystr * json) :=
  match fields with
  | [] => [(k, v)]
  | (k', v') :: fs =>
      if bool_decide (k = k') then (k, v) :: fs else (k', v') :: obj_set k v fs
  end.

Definition obj_update (base extra : list (pystr * json)) : list (pystr * json) :=
  foldl (fun acc kv => obj_set kv.1 kv.2 acc) base extra.

Lemma obj_get_set_eq k v fs : obj_get k (obj_set k v fs) = Some v.
Proof.
  induction fs as [|[k' v'] fs IH]; simpl; [by rewrite bool_decide_eq_true_2|].
  case_bool_decide; simpl; [by rewrite bool_decide_eq_true_2|].
  by rewrite bool_decide_eq_false_2.
Qed.

Lemma obj_get_set_ne k k' v fs : k <> k' -> obj_get k (obj_set k' v fs) = obj_get k fs.
Proof.
  intros N. induction fs as [|[k2 v2] fs IH]; simpl.
  - by rewrite bool_decide_eq_false_2.
  - repeat (case_bool_decide; simpl); simplify_eq; try done.
Qed.

(** Python truthiness. *)
Definition truthy (j : json) : bool :=
  match j with
  | JNull => false
  | JBool b => b
  | JInt z => negb (z =? 0)
  | JFloat q => negb (Qeq_bool q 0)
  | JStr s => py_nonempty s
  | JDecStr _ => true
  | JArr l => match l with [] => false | _ => true end
  | JObj l => match l with [] => false | _ => true end
  end.

Definition opt_truthy (o : option json) : bool :=
  match o with Some j => truthy j | None => false end.

(** Python [==] on JSON documents: objects compare as dictionaries, in any key
    order, and booleans compare as the integers 0 and 1. *)
Fixpoint py_eq (a b : json) {struct a} : bool :=
  match a, b with
  | JNull, JNull => true
  | JBool x, JBool y => Bool.eqb x y
  | JBool x, JInt z | JInt z, JBool x => z =? (if x then 1 else 0)
  | JInt x, JInt y => x =? y
  | JFloat x, JFloat y => Qeq_bool x y
  | JInt x, JFloat y => Qeq_bool (inject_Z x) y
  | JFloat x, JInt y => Qeq_bool x (inject_Z y)
  | JStr x, JStr y => bool_decide (x = y)
  | JDecStr x, JDecStr y => bool_decide (x = y)
  | JArr xs, JArr ys =>
      (fix go (xs ys : list json) {struct xs} : bool :=
         match xs, ys with
         | [], [] => true
         | x :: xs, y :: ys => py_eq x y && go xs ys
         | _, _ => false
         end) xs ys
  | JObj xs, JObj ys =>
      (length xs =? length ys)%nat &&
      (fix go (xs : list (pystr * json)) {struct xs} : bool :=
         match xs with
         | [] => true
         | (k, v) :: xs =>
             match obj_get k ys with
             | Some v' => py_eq v v' && go xs
             | None => false
             end
         end) xs
  | _, _ => false
  end.

Definition opt_py_eq (a b : option json) : bool :=
  match a, b with
  | None, None => true
  | Some x, Some y => py_eq x y
  | _, _ => false
  end.

(** A single-string payload [{"answer": s}] equals another exactly when the
    strings are equal. *)
Lemma py_eq_singleton k s t :
  py_eq (JObj [(k, JStr s)]) (JObj [(k, JStr t)]) = true <-> s = t.
Proof.
  simpl. rewrite bool_decide_eq_true_2 by done. rewrite andb_true_r.
  by rewrite bool_decide_eq_true.
Qed.
