(* ===== verification/Errors.v ===== *)
(** * Application errors

    [backend/core/errors.py]: the error codes, the normalised public error that
    HTTP responses, run rows and provider adapters share, and its persisted JSON
    form. JSON text is identified with the document it encodes. *)

From S2P Require Import Prelude PyBase.
From Stdlib Require Import QArith.

Open Scope Z_scope.

Inductive ErrorCode :=
| INVALID_REQUEST
| AUTHENTICATION_REQUIRED
| PERMISSION_DENIED
| POLICY_DENIED
| NOT_FOUND
| CONFLICT
| RATE_LIMITED
| RATE_LIMIT_UNAVAILABLE
| MODEL_RATE_LIMITED
| MODEL_TIMEOUT
| MODEL_UNAVAILABLE
| MODEL_CALL_LIMIT_EXCEEDED
| EMBEDDING_TIMEOUT
| EMBEDDING_UNAVAILABLE
| VECTOR_STORE_TIMEOUT
| VECTOR_STORE_UNAVAILABLE
| RERANK_TIMEOUT
| RERANK_UNAVAILABLE
| TOOL_TIMEOUT
| TOOL_UNAVAILABLE
| WEB_TOOL_RESULT_CONTEXT_BUDGET_EXCEEDED
| PROVIDER_TIMEOUT
| UPLOAD_INVALID
| UPLOAD_TOO_LARGE
| DOCUMENT_PARSE_FAILED
| STORAGE_UNAVAILABLE
| RUN_ACTIVE
| RUN_NOT_FOUND
| RUN_STATE_CONFLICT
| RUN_CANCELLED
| RUN_INTERRUPTED
| RUN_EXECUTION_FAILED
| IDEMPOTENCY_CONFLICT
| THREAD_VERSION_CONFLICT
| INTERNAL_ERROR.

#[export] Instance ErrorCode_eq_dec : EqDecision ErrorCode.
Proof. solve_decision. Defined.

(** [code.value] *)
Definition error_code_value (c : ErrorCode) : pystr :=
  match c with
  | INVALID_REQUEST => "INVALID_REQUEST"
  | AUTHENTICATION_REQUIRED => "AUTHENTICATION_REQUIRED"
  | PERMISSION_DENIED => "PERMISSION_DENIED"
  | POLICY_DENIED => "POLICY_DENIED"
  | NOT_FOUND => "NOT_FOUND"
  | CONFLICT => "CONFLICT"
  | RATE_LIMITED => "RATE_LIMITED"
  | RATE_LIMIT_UNAVAILABLE => "RATE_LIMIT_UNAVAILABLE"
  | MODEL_RATE_LIMITED => "MODEL_RATE_LIMITED"
  | MODEL_TIMEOUT => "MODEL_TIMEOUT"
  | MODEL_UNAVAILABLE => "MODEL_UNAVAILABLE"
  | MODEL_CALL_LIMIT_EXCEEDED => "MODEL_CALL_LIMIT_EXCEEDED"
  | EMBEDDING_TIMEOUT => "EMBEDDING_TIMEOUT"
  | EMBEDDING_UNAVAILABLE => "EMBEDDING_UNAVAILABLE"
  | VECTOR_STORE_TIMEOUT => "VECTOR_STORE_TIMEOUT"
  | VECTOR_STORE_UNAVAILABLE => "VECTOR_STORE_UNAVAILABLE"
  | RERANK_TIMEOUT => "RERANK_TIMEOUT"
  | RERANK_UNAVAILABLE => "RERANK_UNAVAILABLE"
  | TOOL_TIMEOUT => "TOOL_TIMEOUT"
  | TOOL_UNAVAILABLE => "TOOL_UNAVAILABLE"
  | WEB_TOOL_RESULT_CONTEXT_BUDGET_EXCEEDED => "WEB_TOOL_RESULT_CONTEXT_BUDGET_EXCEEDED"
  | PROVIDER_TIMEOUT => "PROVIDER_TIMEOUT"
  | UPLOAD_INVALID => "UPLOAD_INVALID"
  | UPLOAD_TOO_LARGE => "UPLOAD_TOO_LARGE"
  | DOCUMENT_PARSE_FAILED => "DOCUMENT_PARSE_FAILED"
  | STORAGE_UNAVAILABLE => "STORAGE_UNAVAILABLE"
  | RUN_ACTIVE => "RUN_ACTIVE"
  | RUN_NOT_FOUND => "RUN_NOT_FOUND"
  | RUN_STATE_CONFLICT => "RUN_STATE_CONFLICT"
  | RUN_CANCELLED => "RUN_CANCELLED"
  | RUN_INTERRUPTED => "RUN_INTERRUPTED"
  | RUN_EXECUTION_FAILED => "RUN_EXECUTION_FAILED"
  | IDEMPOTENCY_CONFLICT => "IDEMPOTENCY_CONFLICT"
  | THREAD_VERSION_CONFLICT => "THREAD_VERSION_CONFLICT"
  | INTERNAL_ERROR => "INTERNAL_ERROR"
  end%py.

(** [_CODE_PATTERN] *)
Definition code_pattern (s : pystr) : bool :=
  fullmatch_id is_AZ (fun c => is_AZ c || is_09 c || (c =? 95)%N) (Some 63%nat) s.

(** [_LABEL_PATTERN] *)
Definition label_char (c : N) : bool :=
  is_AZ c || is_az c || is_09 c || is_one_of "_.:-"%py c.
Definition label_pattern (s : pystr) : bool :=
  fullmatch_id label_char label_char (Some 79%nat) s.

Definition PUBLIC_ERROR_FORMAT : pystr := "public_error_v1"%py.

Definition _code_value (code : pystr) : pystr :=
  let value := py_upper (py_strip code) in
  if code_pattern value then value else error_code_value INTERNAL_ERROR.

Definition _safe_label (value : option pystr) : option pystr :=
  match value with
  | None => None
  | Some v =>
      let label := py_strip v in
      if label_pattern label then Some label else None
  end.

(** Non-finite floats have no rational and never reach this point as numbers. *)
Definition _safe_retry_after (value : option Q) : option Q :=
  match value with
  | None => None
  | Some seconds => if Qle_bool 0 seconds then Some seconds else None
  end.

Definition code_in (codes : list pystr) (v : pystr) : bool :=
  existsb (fun c => bool_decide (v = c)) codes.

Definition _status_for_code (code : pystr) : Z :=
  let value := _code_value code in
  if code_in [error_code_value RATE_LIMITED; error_code_value MODEL_RATE_LIMITED;
              "RERANK_RATE_LIMITED"%py] value then 429
  else if code_in [error_code_value MODEL_TIMEOUT; error_code_value EMBEDDING_TIMEOUT;
                   error_code_value VECTOR_STORE_TIMEOUT; error_code_value RERANK_TIMEOUT;
                   error_code_value TOOL_TIMEOUT; error_code_value PROVIDER_TIMEOUT;
                   "PROVIDER_DEADLINE_EXCEEDED"%py] value then 504
  else if code_in [error_code_value MODEL_UNAVAILABLE; error_code_value EMBEDDING_UNAVAILABLE;
                   error_code_value VECTOR_STORE_UNAVAILABLE; error_code_value RERANK_UNAVAILABLE;
                   error_code_value TOOL_UNAVAILABLE; error_code_value STORAGE_UNAVAILABLE;
                   error_code_value RATE_LIMIT_UNAVAILABLE;
                   "PROVIDER_AUTHENTICATION_FAILED"%py] value then 503
  else if bool_decide (value = "PROVIDER_REQUEST_INVALID"%py) then 502
  else if bool_decide (value = error_code_value WEB_TOOL_RESULT_CONTEXT_BUDGET_EXCEEDED) then 422
  else if bool_decide (value = error_code_value MODEL_CALL_LIMIT_EXCEEDED) then 422
  else if code_in [error_code_value PERMISSION_DENIED; error_code_value POLICY_DENIED] value
  then 403
  else 500.

(** [PublicError] after its [__post_init__]. *)
Record PublicError := mkPublicError {
  pe_code : pystr;
  pe_message : pystr;
  pe_status_code : Z;
  pe_retryable : bool;
  pe_category : option pystr;
  pe_stage : option pystr;
  pe_provider : option pystr;
  pe_retry_after : option Q;
  pe_details : list (pystr * json)
}.

Definition default_message : pystr := "服务暂时不可用，请稍后重试"%py.

(** The dataclass constructor with the normalisation of [__post_init__]. *)
Definition public_error (code message : pystr) (status_code : Z) (retryable : bool)
    (category stage provider : option pystr) (retry_after : option Q)
    (details : list (pystr * json)) : PublicError :=
  let code := _code_value code in
  let msg := py_strip message in
  let status := if status_code =? 0 then _status_for_code code else status_code in
  {| pe_code := code;
     pe_message := if py_nonempty msg then msg else default_message;
     pe_status_code := if (400 <=? status) && (status <=? 599) then status else 500;
     pe_retryable := retryable;
     pe_category := _safe_label category;
     pe_stage := _safe_label stage;
     pe_provider := _safe_label provider;
     pe_retry_after := _safe_retry_after retry_after;
     pe_details := details |}.

(** An exception of class [AppError] carries its public error; [ae_code] is the
    code as passed. *)
Record AppError := mkAppError { ae_code : ErrorCode; ae_public : PublicError }.

Definition app_error (code : ErrorCode) (message : pystr) (status_code : Z)
    (retryable : bool) (details : list (pystr * json))
    (category stage : option pystr) : AppError :=
  {| ae_code := code;
     ae_public := public_error (error_code_value code) message status_code retryable
                    category stage None None details |}.

(** The common call: code, message and HTTP status only. *)
Definition app_error3 (code : ErrorCode) (message : pystr) (status_code : Z) : AppError :=
  app_error code message status_code false [] None None.

(** For an [AppError] that is not a provider failure the attached public error
    is returned unchanged. *)
Definition public_error_from_exception (e : AppError) : PublicError := ae_public e.

Definition opt_jstr (o : option pystr) : json :=
  match o with Some s => JStr s | None => JNull end.
Definition opt_jfloat (o : option Q) : json :=
  match o with Some q => JFloat q | None => JNull end.

(** [PublicError.contract] *)
Definition contract (e : PublicError) : list (pystr * json) :=
  [("code"%py, JStr (pe_code e));
   ("message"%py, JStr (pe_message e));
   ("retryable"%py, JBool (pe_retryable e));
   ("category"%py, opt_jstr (pe_category e));
   ("stage"%py, opt_jstr (pe_stage e));
   ("provider"%py, opt_jstr (pe_provider e));
   ("retry_after"%py, opt_jfloat (pe_retry_after e))].

Definition serialize_public_error (e : PublicError) : json :=
  JObj (("format"%py, JStr PUBLIC_ERROR_FORMAT) :: contract e).

(** [str(value)] of a JSON scalar used as a label; a float's digits are not
    modelled and give no label. *)
Definition label_text (o : option json) : option pystr :=
  match o with
  | Some (JStr s) => Some s
  | Some (JInt z) => Some (py_str_int z)
  | Some (JBool true) => Some "True"%py
  | Some (JBool false) => Some "False"%py
  | _ => None
  end.
Definition retry_number (o : option json) : option Q :=
  match o with
  | Some (JFloat q) => Some q
  | Some (JInt z) => Some (inject_Z z)
  | Some (JBool b) => Some (if b then 1 else 0)%Q
  | _ => None
  end.

Definition deserialize_public_error (value : option json) : option PublicError :=
  match value with
  | Some (JObj payload) =>
      match obj_get "format"%py payload with
      | Some (JStr f) =>
          if bool_decide (f = PUBLIC_ERROR_FORMAT) then
            match obj_get "code"%py payload, obj_get "message"%py payload with
            | Some (JStr code), Some (JStr message) =>
                Some (public_error code message (_status_for_code code)
                        (opt_truthy (obj_get "retryable"%py payload))
                        (label_text (obj_get "category"%py payload))
                        (label_text (obj_get "stage"%py payload))
                        (label_text (obj_get "provider"%py payload))
                        (retry_number (obj_get "retry_after"%py payload)) [])
            | _, _ => None
            end
          else None
      | _ => None
      end
  | _ => None
  end.

(** ** Normalisation is idempotent *)

Lemma fullmatch_id_chars first rest max s :
  fullmatch_id first rest max s = true ->
  forallb (fun c => first c || rest c) (cps_of s) = true.
Proof.
  unfold fullmatch_id. destruct (cps_of s) as [|c l]; [done|]. simpl.
  intros [[-> Hr]%andb_true_iff _]%andb_true_iff. simpl.
  rewrite forallb_forall in *. intros x Hx. rewrite (Hr x Hx). by rewrite orb_true_r.
Qed.

Lemma forallb_weaken {A} (p q : A -> bool) l :
  (forall x, p x = true -> q x = true) -> forallb p l = true -> forallb q l = true.
Proof. rewrite !forallb_forall. eauto. Qed.

(** The identifier classes of the patterns contain no space and no lower-case
    letter that [upper] would move. *)
Lemma in_range_spec lo hi c : in_range lo hi c = true <-> (lo <= c <= hi)%N.
Proof. unfold in_range. rewrite andb_true_iff, !N.leb_le. done. Qed.

Ltac decide_ranges :=
  repeat match goal with
  | |- context [(?a =? ?b)%N] => rewrite (proj2 (N.eqb_neq a b)) by lia
  | |- context [(?a <=? ?b)%N] =>
      first [rewrite (proj2 (N.leb_gt a b)) by lia | rewrite (proj2 (N.leb_le a b)) by lia]
  end.

Lemma code_char_range c :
  is_AZ c || (is_AZ c || is_09 c || (c =? 95)%N) = true ->
  (48 <= c <= 57)%N \/ (65 <= c <= 90)%N \/ c = 95%N.
Proof.
  rewrite !orb_true_iff. unfold is_AZ, is_09. rewrite !in_range_spec, N.eqb_eq. tauto.
Qed.

Lemma label_char_range c :
  label_char c || label_char c = true -> (45 <= c <= 122)%N.
Proof.
  rewrite orb_diag. unfold label_char, is_one_of. simpl. rewrite !orb_true_iff.
  unfold is_AZ, is_az, is_09. rewrite !in_range_spec, !N.eqb_eq. intuition (try lia; done).
Qed.

Lemma upper_cp_code c : is_AZ c || (is_AZ c || is_09 c || (c =? 95)%N) = true -> upper_cp c = [c].
Proof.
  intros H%code_char_range. unfold upper_cp, is_az, in_range.
  destruct H as [H|[H|H]]; decide_ranges; done.
Qed.

Lemma space_code c :
  is_AZ c || (is_AZ c || is_09 c || (c =? 95)%N) = true -> negb (is_space c) = true.
Proof.
  intros H%code_char_range. unfold is_space.
  destruct H as [H|[H|H]]; decide_ranges; done.
Qed.

Lemma space_label c : label_char c || label_char c = true -> negb (is_space c) = true.
Proof. intros H%label_char_range. unfold is_space. decide_ranges. done. Qed.

Lemma bind_singletons {A} (f : A -> list A) (l : list A) :
  (forall x, x ∈ l -> f x = [x]) -> l ≫= f = l.
Proof.
  induction l as [|x l IH]; intros H; [done|]. cbn.
  rewrite (H x) by constructor. simpl. f_equal. apply IH. intros y Hy. apply H.
  by constructor.
Qed.

Lemma code_pattern_fixed s : code_pattern s = true -> py_upper (py_strip s) = s.
Proof.
  intros H. apply fullmatch_id_chars in H.
  rewrite py_strip_nospace by (eapply forallb_weaken; [apply space_code|done]).
  destruct s as [l]. unfold py_upper. simpl in *. f_equal. apply bind_singletons.
  intros x Hx. apply upper_cp_code. rewrite forallb_forall in H. apply H.
  by apply list_elem_of_In.
Qed.

Lemma _code_value_pattern s : code_pattern (_code_value s) = true.
Proof. unfold _code_value. destruct (code_pattern (py_upper _)) eqn:E; [done|reflexivity]. Qed.

Lemma _code_value_idem s : _code_value (_code_value s) = _code_value s.
Proof.
  pose proof (_code_value_pattern s) as H. unfold _code_value at 1.
  by rewrite (code_pattern_fixed _ H), H.
Qed.

Lemma _safe_label_idem o : _safe_label (_safe_label o) = _safe_label o.
Proof.
  destruct o as [v|]; [|done]. simpl. destruct (label_pattern (py_strip v)) eqn:E; [|done].
  simpl. by rewrite py_strip_idem, E.
Qed.

Lemma _safe_retry_after_idem o : _safe_retry_after (_safe_retry_after o) = _safe_retry_after o.
Proof.
  destruct o as [q|]; [|done]. simpl. destruct (Qle_bool 0 q) eqn:E; simpl; [by rewrite E|done].
Qed.

(** What the constructor establishes; every public error of the program is built
    by it. *)
Definition public_error_wf (e : PublicError) : Prop :=
  _code_value (pe_code e) = pe_code e /\
  py_strip (pe_message e) = pe_message e /\ py_nonempty (pe_message e) = true /\
  _safe_label (pe_category e) = pe_category e /\
  _safe_label (pe_stage e) = pe_stage e /\
  _safe_label (pe_provider e) = pe_provider e /\
  _safe_retry_after (pe_retry_after e) = pe_retry_after e.

Lemma public_error_wf_intro code message status_code retryable category stage provider
    retry_after details :
  public_error_wf (public_error code message status_code retryable category stage
                     provider retry_after details).
Proof.
  unfold public_error, public_error_wf. simpl.
  rewrite _code_value_idem, !_safe_label_idem, _safe_retry_after_idem.
  destruct (py_nonempty (py_strip message)) eqn:E.
  - by rewrite py_strip_idem.
  - repeat split; reflexivity.
Qed.

Lemma label_text_opt o : label_text (Some (opt_jstr o)) = o.
Proof. by destruct o. Qed.

Lemma retry_number_opt o : retry_number (Some (opt_jfloat o)) = o.
Proof. by destruct o. Qed.

(** The eight fields of a serialised error. *)
Lemma serialized_fields e :
  let p := ("format"%py, JStr PUBLIC_ERROR_FORMAT) :: contract e in
  obj_get "format"%py p = Some (JStr PUBLIC_ERROR_FORMAT) /\
  obj_get "code"%py p = Some (JStr (pe_code e)) /\
  obj_get "message"%py p = Some (JStr (pe_message e)) /\
  obj_get "retryable"%py p = Some (JBool (pe_retryable e)) /\
  obj_get "category"%py p = Some (opt_jstr (pe_category e)) /\
  obj_get "stage"%py p = Some (opt_jstr (pe_stage e)) /\
  obj_get "provider"%py p = Some (opt_jstr (pe_provider e)) /\
  obj_get "retry_after"%py p = Some (opt_jfloat (pe_retry_after e)).
Proof. repeat split. Qed.

(** A stored public error reads back with the same public contract. *)
Lemma deserialize_serialize e :
  public_error_wf e ->
  contract <$> deserialize_public_error (Some (serialize_public_error e)) = Some (contract e).
Proof.
  intros (Hc & Hm & Hn & Hcat & Hst & Hpr & Hra).
  unfold serialize_public_error, deserialize_public_error.
  destruct (serialized_fields e) as (-> & -> & -> & -> & -> & -> & -> & ->).
  rewrite bool_decide_eq_true_2 by done. cbn [fmap option_fmap option_map opt_truthy truthy].
  rewrite !label_text_opt, retry_number_opt. unfold public_error, contract. simpl.
  by rewrite Hc, Hm, Hn, Hcat, Hst, Hpr, Hra.
Qed.

(** Stored errors survive the round trip: whatever raw code, message, labels
    and retry hint a public error is built from, reading back its serialised form
    gives an error with the same client contract. *)
Theorem stored_error_roundtrip code message status_code retryable category stage provider
    retry_after details :
  let e := public_error code message status_code retryable category stage provider
             retry_after details in
  contract <$> deserialize_public_error (Some (serialize_public_error e)) = Some (contract e).
Proof. apply deserialize_serialize, public_error_wf_intro. Qed.
