(* ===== verification/RunState.v ===== *)
(** * Run states

    [backend/runs/state.py]: the run life-cycle states, the multitask
    strategies, the active and terminal sets and the transition table. *)

From S2P Require Import Prelude PyBase.

Open Scope Z_scope.

Inductive RunStatus :=
| QUEUED
| PENDING
| RUNNING
| WAITING_INPUT
| CANCELLING
| SUCCEEDED
| FAILED
| CANCELLED.

#[export] Instance RunStatus_eq_dec : EqDecision RunStatus.
Proof. solve_decision. Defined.

(** [RunStatus.X.value] *)
Definition status_value (s : RunStatus) : pystr :=
  match s with
  | QUEUED => "queued"
  | PENDING => "pending"
  | RUNNING => "running"
  | WAITING_INPUT => "waiting_input"
  | CANCELLING => "cancelling"
  | SUCCEEDED => "succeeded"
  | FAILED => "failed"
  | CANCELLED => "cancelled"
  end%py.

Inductive MultitaskStrategy := REJECT | ENQUEUE | CANCEL_PREVIOUS.

#[export] Instance MultitaskStrategy_eq_dec : EqDecision MultitaskStrategy.
Proof. solve_decision. Defined.

Definition strategy_value (s : MultitaskStrategy) : pystr :=
  match s with
  | REJECT => "reject"
  | ENQUEUE => "enqueue"
  | CANCEL_PREVIOUS => "cancel_previous"
  end%py.

(** [status in ACTIVE_RUN_STATUSES] *)
Definition is_active (s : RunStatus) : bool :=
  match s with
  | PENDING | RUNNING | WAITING_INPUT | CANCELLING => true
  | _ => false
  end.

(** [status in TERMINAL_RUN_STATUSES] *)
Definition is_terminal (s : RunStatus) : bool :=
  match s with SUCCEEDED | FAILED | CANCELLED => true | _ => false end.

(** [ALLOWED_TRANSITIONS] *)
Definition ALLOWED_TRANSITIONS (s : RunStatus) : list RunStatus :=
  match s with
  | QUEUED => [PENDING; CANCELLED]
  | PENDING => [RUNNING; CANCELLING; CANCELLED; FAILED]
  | RUNNING => [WAITING_INPUT; CANCELLING; SUCCEEDED; FAILED; CANCELLED]
  | WAITING_INPUT => [PENDING; RUNNING; CANCELLING; CANCELLED; FAILED]
  | CANCELLING => [CANCELLED; FAILED]
  | SUCCEEDED => []
  | FAILED => []
  | CANCELLED => []
  end.

Definition can_transition (current target : RunStatus) : bool :=
  bool_decide (current = target) || bool_decide (target ∈ ALLOWED_TRANSITIONS current).

(** The three classes partition the states. *)
Lemma status_partition s :
  s = QUEUED /\ is_active s = false /\ is_terminal s = false \/
  s <> QUEUED /\ is_active s = true /\ is_terminal s = false \/
  s <> QUEUED /\ is_active s = false /\ is_terminal s = true.
Proof. destruct s; naive_solver. Qed.

Lemma status_value_inj : Inj (=) (=) status_value.
Proof. intros [] []; vm_compute; congruence. Qed.

Lemma terminal_not_active s : is_terminal s = true -> is_active s = false.
Proof. by destruct s. Qed.

Lemma active_not_terminal s : is_active s = true -> is_terminal s = false.
Proof. by destruct s. Qed.

(** A terminal state only transitions to itself. *)
Lemma can_transition_terminal s t :
  is_terminal s = true -> can_transition s t = true -> s = t.
Proof. destruct s, t; vm_compute; congruence. Qed.

Lemma can_transition_refl s : can_transition s s = true.
Proof. by destruct s. Qed.

#[export] Hint Resolve terminal_not_active active_not_terminal : mew.
