(* ===== verification/Session.v ===== *)
(** * Sessions

    Repository and service methods run in a database session: they read and
    write the database, read the clock and draw fresh UUIDs, and raise
    exceptions. [Sess D] is the state and exception monad of such code over the
    tables [D]. The clock and the UUID source are oracles of the world, read in
    order; a transaction that raises, or whose commit violates a constraint,
    leaves the database as it found it. *)

From S2P Require Import Prelude PyBase Errors.

Open Scope Z_scope.

(** Times are naive UTC instants in microseconds. *)
Definition datetime := Z.

Inductive exn :=
| EApp (e : AppError)      (** [AppError] *)
| EPreserve (e : AppError) (** its subclass [_PreserveCandidateArtifacts] *)
| EIntegrity               (** [sqlalchemy.exc.IntegrityError] *)
| EValue (msg : pystr)     (** [ValueError], pydantic's [ValidationError] *)
| ERuntime (msg : pystr)   (** [RuntimeError] *)
| EKey                     (** [KeyError] *)
| ENone                    (** an attribute of [None], or [Query.one] without a row *)
| EClass (cls detail : pystr)  (** another exception class, with its message *)
| ECancelled               (** [asyncio.CancelledError] *)
| EFuel                    (** a bounded loop of the model ran out of iterations *).

(** The error of a request that fails validation. *)
Definition invalid_request (message : pystr) : exn := EApp (app_error3 INVALID_REQUEST message 400).

Inductive outcome (A : Type) :=
| Ret (a : A)
| Raise (e : exn).
Arguments Ret {A} a.
Arguments Raise {A} e.

(** Code without a session that may raise. *)
#[export] Instance outcome_ret : MRet outcome := fun A a => Ret a.
#[export] Instance outcome_bind : MBind outcome := fun A B k o =>
  match o with Ret a => k a | Raise e => Raise e end.
Definition check (b : bool) (e : exn) : outcome unit := if b then Ret tt else Raise e.

Lemma outcome_bind_inv {A B} (m : outcome A) (k : A -> outcome B) b :
  (m ≫= k) = Ret b -> exists a, m = Ret a /\ k a = Ret b.
Proof. destruct m as [a|e]; [eauto|done]. Qed.

Lemma check_inv b e u : check b e = Ret u -> b = true.
Proof. by destruct b. Qed.

(** [w_clock n] and [w_uuid n] are the [n]-th readings of [utcnow()] and
    [uuid4().hex]. *)
Record WorldOf (D : Type) := mkWorld {
  w_db : D;
  w_clock : nat -> datetime;
  w_tick : nat;
  w_uuid : nat -> pystr;
  w_uuid_next : nat
}.

Arguments mkWorld {D} _ _ _ _ _.
Arguments w_db {D} _.
Arguments w_clock {D} _ _.
Arguments w_tick {D} _.
Arguments w_uuid {D} _ _.
Arguments w_uuid_next {D} _.

(** The constraints a database checks when statements reach it. *)
Class Store (D : Type) := store_ok : D -> bool.

Section session.
Context {D : Type}.

Definition set_w_db (db : D) (w : WorldOf D) : WorldOf D :=
  mkWorld db (w_clock w) (w_tick w) (w_uuid w) (w_uuid_next w).
Definition set_w_tick (n : nat) (w : WorldOf D) : WorldOf D :=
  mkWorld (w_db w) (w_clock w) n (w_uuid w) (w_uuid_next w).
Definition set_w_uuid_next (n : nat) (w : WorldOf D) : WorldOf D :=
  mkWorld (w_db w) (w_clock w) (w_tick w) (w_uuid w) n.
End session.

Definition Sess (D A : Type) : Type := WorldOf D -> outcome A * WorldOf D.

#[export] Instance M_ret {D} : MRet (Sess D) := fun A a w => (Ret a, w).
#[export] Instance M_bind {D} : MBind (Sess D) := fun A B k m w =>
  match m w with
  | (Ret a, w') => k a w'
  | (Raise e, w') => (Raise e, w')
  end.

Section operations.
Context {D : Type} `{!Store D}.

Definition raise {A} (e : exn) : Sess D A := fun w => (Raise e, w).
Definition get_db : Sess D D := fun w => (Ret (w_db w), w).
Definition modify_db (f : D -> D) : Sess D unit :=
  fun w => (Ret tt, set_w_db (f (w_db w)) w).

(** [utcnow()] *)
Definition utcnow : Sess D datetime :=
  fun w => (Ret (w_clock w (w_tick w)), set_w_tick (S (w_tick w)) w).

(** [uuid4().hex] *)
Definition uuid4_hex : Sess D pystr :=
  fun w => (Ret (w_uuid w (w_uuid_next w)), set_w_uuid_next (S (w_uuid_next w)) w).

(** [if b: raise e] *)
Definition raise_if (b : bool) (e : exn) : Sess D unit :=
  if b then raise e else mret tt.

(** A query whose missing row raises. *)
Definition require {A} (o : option A) (e : exn) : Sess D A :=
  match o with Some a => mret a | None => raise e end.

(** [db.flush()]: pending statements reach the database, which checks them. *)
Definition flush : Sess D unit := fun w =>
  if store_ok (w_db w) then (Ret tt, w) else (Raise EIntegrity, w).

Definition rollback (w w' : WorldOf D) : WorldOf D := set_w_db (w_db w) w'.

(** [with db.begin(): body]: commit on success, roll back on an exception. *)
Definition transaction {A} (body : Sess D A) : Sess D A := fun w =>
  match body w with
  | (Ret a, w') =>
      if store_ok (w_db w') then (Ret a, w') else (Raise EIntegrity, rollback w w')
  | (Raise e, w') => (Raise e, rollback w w')
  end.

(** [try: m except: handler]: [handler] sees the exception and may re-raise. *)
Definition catch {A} (m : Sess D A) (handler : exn -> Sess D A) : Sess D A := fun w =>
  match m w with
  | (Ret a, w') => (Ret a, w')
  | (Raise e, w') => handler e w'
  end.

(** ** Reasoning on successful runs *)

Lemma bind_inv {A B} (k : A -> Sess D B) (m : Sess D A) w b w' :
  (mbind k m : Sess D B) w = (Ret b, w') ->
  exists a w1, m w = (Ret a, w1) /\ k a w1 = (Ret b, w').
Proof.
  unfold mbind, M_bind. destruct (m w) as [[a|e] w1]; [eauto|done].
Qed.

Lemma ret_inv {A} (a b : A) w w' : (mret a : Sess D A) w = (Ret b, w') -> a = b /\ w = w'.
Proof. unfold mret, M_ret. naive_solver. Qed.

Lemma raise_inv {A} e w (b : A) w' : raise e w = (Ret b, w') -> False.
Proof. done. Qed.

Lemma get_db_inv w d w' : get_db w = (Ret d, w') -> d = w_db w /\ w' = w.
Proof. unfold get_db. naive_solver. Qed.

Lemma modify_db_inv f w u w' :
  modify_db f w = (Ret u, w') -> w' = set_w_db (f (w_db w)) w.
Proof. unfold modify_db. naive_solver. Qed.

Lemma utcnow_inv w t w' :
  utcnow w = (Ret t, w') -> t = w_clock w (w_tick w) /\ w' = set_w_tick (S (w_tick w)) w.
Proof. unfold utcnow. naive_solver. Qed.

Lemma uuid4_hex_inv w t w' :
  uuid4_hex w = (Ret t, w') ->
  t = w_uuid w (w_uuid_next w) /\ w' = set_w_uuid_next (S (w_uuid_next w)) w.
Proof. unfold uuid4_hex. naive_solver. Qed.

Lemma raise_if_inv b e w u w' : raise_if b e w = (Ret u, w') -> b = false /\ w' = w.
Proof. unfold raise_if. destruct b; [done|]. unfold mret, M_ret. naive_solver. Qed.

Lemma require_inv {A} (o : option A) e w a w' :
  require o e w = (Ret a, w') -> o = Some a /\ w' = w.
Proof. unfold require. destruct o; [|done]. unfold mret, M_ret. naive_solver. Qed.

Lemma flush_inv w u w' : flush w = (Ret u, w') -> w' = w /\ store_ok (w_db w) = true.
Proof. unfold flush. destruct (store_ok _) eqn:E; naive_solver. Qed.

Lemma transaction_inv {A} (body : Sess D A) w a w' :
  transaction body w = (Ret a, w') ->
  body w = (Ret a, w') /\ store_ok (w_db w') = true.
Proof.
  unfold transaction. destruct (body w) as [[b|e] w1]; [|done].
  destruct (store_ok (w_db w1)) eqn:E; naive_solver.
Qed.

(** A transaction that raises has no effect on the database. *)
Lemma transaction_raise {A} (body : Sess D A) w e w' :
  transaction body w = (Raise e, w') -> w_db w' = w_db w.
Proof.
  unfold transaction. destruct (body w) as [[b|e'] w1].
  - destruct (store_ok (w_db w1)); naive_solver.
  - naive_solver.
Qed.

(** The only exception a transaction adds to those of its body is the violated
    constraint. *)
Lemma transaction_raise_inv {A} (body : Sess D A) w e w' :
  transaction body w = (Raise e, w') ->
  (exists w1, body w = (Raise e, w1)) \/
  (e = EIntegrity /\ exists a w1, body w = (Ret a, w1) /\ store_ok (w_db w1) = false).
Proof.
  unfold transaction. destruct (body w) as [[b|e'] w1].
  - destruct (store_ok (w_db w1)) eqn:E; naive_solver.
  - naive_solver.
Qed.

(** Running a computation that succeeds, one bind at a time. *)
Lemma bind_run {A B} (k : A -> Sess D B) (m : Sess D A) w a w1 :
  m w = (Ret a, w1) -> (mbind k m : Sess D B) w = k a w1.
Proof. intros E. unfold mbind, M_bind. by rewrite E. Qed.

Lemma bind_raise {A B} (k : A -> Sess D B) (m : Sess D A) w e w1 :
  m w = (Raise e, w1) -> (mbind k m : Sess D B) w = (Raise e, w1).
Proof. intros E. unfold mbind, M_bind. by rewrite E. Qed.

Lemma transaction_run {A} (body : Sess D A) w a w1 :
  body w = (Ret a, w1) -> store_ok (w_db w1) = true ->
  transaction body w = (Ret a, w1).
Proof. intros E C. unfold transaction. by rewrite E, C. Qed.

Lemma transaction_fail {A} (body : Sess D A) w e w1 :
  body w = (Raise e, w1) -> transaction body w = (Raise e, rollback w w1).
Proof. intros E. unfold transaction. by rewrite E. Qed.

End operations.

(** [minv] takes a successful run apart: one hypothesis per effect, in order,
    with case analysis on the branches of the code. *)
Ltac minv_step :=
  match goal with
  | H : (mbind _ _) _ = (Ret _, _) |- _ =>
      let a := fresh "a" in let w1 := fresh "w" in let H1 := fresh "R" in
      apply bind_inv in H as (a & w1 & H1 & H); cbn beta iota in H1, H
  | H : (mret _) _ = (Ret _, _) |- _ =>
      let E1 := fresh "E" in let E2 := fresh "E" in
      apply ret_inv in H as [E1 E2]; subst
  | H : raise _ _ = (Ret _, _) |- _ => destruct (raise_inv _ _ _ _ H)
  | H : get_db _ = (Ret _, _) |- _ =>
      let E1 := fresh "E" in let E2 := fresh "E" in
      apply get_db_inv in H as [E1 E2]; subst
  | H : modify_db _ _ = (Ret _, _) |- _ => apply modify_db_inv in H; subst
  | H : utcnow _ = (Ret _, _) |- _ =>
      let E1 := fresh "E" in let E2 := fresh "E" in
      apply utcnow_inv in H as [E1 E2]; subst
  | H : uuid4_hex _ = (Ret _, _) |- _ =>
      let E1 := fresh "E" in let E2 := fresh "E" in
      apply uuid4_hex_inv in H as [E1 E2]; subst
  | H : raise_if _ _ _ = (Ret _, _) |- _ =>
      let E1 := fresh "G" in let E2 := fresh "E" in
      apply raise_if_inv in H as [E1 E2]; subst
  | H : require _ _ _ = (Ret _, _) |- _ =>
      let E1 := fresh "Q" in let E2 := fresh "E" in
      apply require_inv in H as [E1 E2]; subst
  | H : flush _ = (Ret _, _) |- _ =>
      let E1 := fresh "E" in let C := fresh "C" in
      apply flush_inv in H as [E1 C]; subst
  | H : transaction _ _ = (Ret _, _) |- _ =>
      let C := fresh "C" in apply transaction_inv in H as [H C]; cbn beta iota in H
  | H : (match ?x with _ => _ end) _ = (Ret _, _) |- _ =>
      let B := fresh "B" in destruct x eqn:B
  | H : (if ?x then _ else _) _ = (Ret _, _) |- _ =>
      let B := fresh "B" in destruct x eqn:B
  end.
Ltac minv := repeat (minv_step; cbn [w_db w_clock w_tick w_uuid w_uuid_next
  set_w_db set_w_tick set_w_uuid_next] in *).

(** ** Effect classes

    What a computation promises about the database, resolved from its shape: it
    leaves it alone; it leaves it alone when it raises; it leaves it consistent. *)
Class ReadOnly {D A} (m : Sess D A) : Prop := read_only : forall w, w_db (m w).2 = w_db w.
Class Atomic {D A} (m : Sess D A) : Prop :=
  atomic : forall w e w', m w = (Raise e, w') -> w_db w' = w_db w.
Class Consistent {D} `{!Store D} {A} (m : Sess D A) : Prop :=
  consistent : forall w a w', m w = (Ret a, w') ->
    store_ok (w_db w) = true -> store_ok (w_db w') = true.

#[export] Instance read_only_ret {D A} (a : A) : ReadOnly (mret a : Sess D A).
Proof. done. Qed.
#[export] Instance read_only_raise {D A} e : ReadOnly (raise e : Sess D A).
Proof. done. Qed.
#[export] Instance read_only_get_db {D} : ReadOnly (get_db : Sess D _).
Proof. done. Qed.
#[export] Instance read_only_utcnow {D} : ReadOnly (utcnow : Sess D _).
Proof. done. Qed.
#[export] Instance read_only_uuid {D} : ReadOnly (uuid4_hex : Sess D _).
Proof. done. Qed.
#[export] Instance read_only_raise_if {D} b e : ReadOnly (raise_if b e : Sess D unit).
Proof. by destruct b. Qed.
#[export] Instance read_only_require {D A} (o : option A) e : ReadOnly (require o e : Sess D A).
Proof. by destruct o. Qed.
#[export] Instance read_only_bind {D A B} (m : Sess D A) (k : A -> Sess D B) :
  ReadOnly m -> (forall a, ReadOnly (k a)) -> ReadOnly (mbind k m).
Proof.
  intros Hm Hk w. unfold mbind, M_bind. specialize (Hm w).
  destruct (m w) as [[a|e] w1]; simpl in *; [|done]. by rewrite (Hk a w1).
Qed.

#[export] Instance read_only_catch {D A} (m : Sess D A) (h : exn -> Sess D A) :
  ReadOnly m -> (forall e, ReadOnly (h e)) -> ReadOnly (catch m h).
Proof.
  intros Hm Hh w. unfold catch. specialize (Hm w).
  destruct (m w) as [[a|e] w1]; simpl in *; [done|]. by rewrite (Hh e w1).
Qed.

#[export] Instance atomic_transaction {D} `{!Store D} {A} (body : Sess D A) : Atomic (transaction body).
Proof. intros w e w'. apply transaction_raise. Qed.
#[export] Instance atomic_bind {D A B} (m : Sess D A) (k : A -> Sess D B) :
  ReadOnly m -> (forall a, Atomic (k a)) -> Atomic (mbind k m).
Proof.
  intros Hm Hk w e w'. unfold mbind, M_bind. specialize (Hm w).
  destruct (m w) as [[a|e1] w1]; simpl in *; [|naive_solver].
  intros H%Hk. congruence.
Qed.
#[export] Instance atomic_catch {D A} (m : Sess D A) (h : exn -> Sess D A) :
  Atomic m -> (forall e, ReadOnly (h e)) -> Atomic (catch m h).
Proof.
  intros Hm Hh w e w'. unfold catch. destruct (m w) as [[a|e1] w1] eqn:E; [done|].
  intros H. pose proof (Hh e1 w1) as R. rewrite H in R. simpl in R. rewrite R. eauto.
Qed.
#[export] Instance atomic_read_only {D A} (m : Sess D A) : ReadOnly m -> Atomic m | 10.
Proof. intros R w e w' H. specialize (R w). by rewrite H in R. Qed.

#[export] Instance consistent_transaction {D} `{!Store D} {A} (body : Sess D A) : Consistent (transaction body).
Proof. intros w a w' [_ C]%transaction_inv _. done. Qed.
#[export] Instance consistent_read_only {D} `{!Store D} {A} (m : Sess D A) : ReadOnly m -> Consistent m | 10.
Proof. intros R w a w' H. specialize (R w). rewrite H in R. simpl in R. by rewrite R. Qed.
#[export] Instance consistent_bind {D} `{!Store D} {A B} (m : Sess D A) (k : A -> Sess D B) :
  Consistent m -> (forall a, Consistent (k a)) -> Consistent (mbind k m).
Proof.
  intros Hm Hk w b w' (a & w1 & H1 & H2)%bind_inv C. exact (Hk _ _ _ _ H2 (Hm _ _ _ H1 C)).
Qed.
#[export] Instance consistent_catch {D} `{!Store D} {A} (m : Sess D A) (h : exn -> Sess D A) :
  Consistent m -> Atomic m -> (forall e, Consistent (h e)) -> Consistent (catch m h).
Proof.
  intros Hm Ha Hh w a w'. unfold catch. destruct (m w) as [[b|e1] w1] eqn:E.
  - intros ?; simplify_eq. eauto.
  - intros H C. eapply Hh; [done|]. by rewrite (Ha _ _ _ E).
Qed.

(** Resolve an effect class through the branches of the code. *)
Ltac effects :=
  repeat first
    [ progress intros | apply _
    | match goal with
      | |- _ (match ?x with _ => _ end) => destruct x
      | |- _ (mbind _ _) => first [ apply read_only_bind | apply atomic_bind | apply consistent_bind ]
      | |- _ (catch _ _) => first [ apply read_only_catch | apply atomic_catch | apply consistent_catch ]
      end ].
