(* ===== verification/Schema.v ===== *)
(** * Persistent state

    [backend/db/models.py], the part the run runtime uses: one record per table
    row with the columns of the mapped class, the tables keyed by primary key,
    and the schema's uniqueness and check constraints as a decidable predicate.
    [run_events] is append-only and kept in insertion order. *)

From S2P Require Import Prelude PyBase Errors RunState Session.

Open Scope Z_scope.

(** ** Run events *)

(** [RunEventType], the closed set of the [run_event_v1] contract. *)
Inductive RunEventType :=
| RUN_CREATED
| RUN_STARTED
| RUN_WAITING_INPUT
| RUN_COMPLETED
| RUN_FAILED
| RUN_CANCELLED_EVENT
| PLANNER_STARTED
| PLANNER_COMPLETED
| TOOL_STARTED
| TOOL_PROGRESS
| TOOL_COMPLETED
| TOOL_FAILED
| TOOL_DENIED
| RETRIEVAL_STARTED
| RETRIEVAL_CANDIDATES
| RETRIEVAL_RERANK_COMPLETED
| RETRIEVAL_COMPLETED
| MESSAGE_DELTA
| MESSAGE_COMPLETED
| HITL_REQUIRED
| HITL_RESUMED
| USAGE_UPDATED
| ARTIFACT_CREATED
| WARNING_CREATED.

#[export] Instance RunEventType_eq_dec : EqDecision RunEventType.
Proof. solve_decision. Defined.

Definition event_type_value (t : RunEventType) : pystr :=
  match t with
  | RUN_CREATED => "run.created"
  | RUN_STARTED => "run.started"
  | RUN_WAITING_INPUT => "run.waiting_input"
  | RUN_COMPLETED => "run.completed"
  | RUN_FAILED => "run.failed"
  | RUN_CANCELLED_EVENT => "run.cancelled"
  | PLANNER_STARTED => "planner.started"
  | PLANNER_COMPLETED => "planner.completed"
  | TOOL_STARTED => "tool.started"
  | TOOL_PROGRESS => "tool.progress"
  | TOOL_COMPLETED => "tool.completed"
  | TOOL_FAILED => "tool.failed"
  | TOOL_DENIED => "tool.denied"
  | RETRIEVAL_STARTED => "retrieval.started"
  | RETRIEVAL_CANDIDATES => "retrieval.candidates"
  | RETRIEVAL_RERANK_COMPLETED => "retrieval.rerank_completed"
  | RETRIEVAL_COMPLETED => "retrieval.completed"
  | MESSAGE_DELTA => "message.delta"
  | MESSAGE_COMPLETED => "message.completed"
  | HITL_REQUIRED => "hitl.required"
  | HITL_RESUMED => "hitl.resumed"
  | USAGE_UPDATED => "usage.updated"
  | ARTIFACT_CREATED => "artifact.created"
  | WARNING_CREATED => "warning.created"
  end%py.

(** A validated contract event. *)
Record RunEventV1 := mkRunEventV1 {
  v1_schema_version : Z;
  v1_event_id : pystr;
  v1_sequence : Z;
  v1_run_id : pystr;
  v1_thread_id : pystr;
  v1_type : RunEventType;
  v1_timestamp : datetime;
  v1_data : list (pystr * json)
}.

(** ** Tables *)

Record User := mkUser {
  u_id : Z;
  u_username : pystr;
  u_password_hash : pystr;
  u_role : pystr;
  u_created_at : datetime
}.

Record Thread := mkThread {
  th_id : Z;
  th_user_id : Z;
  th_thread_id : pystr;
  th_status : pystr;
  th_version : Z;
  th_message_count : Z;
  th_last_sequence : Z;
  th_metadata_json : list (pystr * json);
  th_updated_at : datetime;
  th_created_at : datetime
}.

Definition eta_Thread (r : Thread) : Thread :=
  mkThread (th_id r) (th_user_id r) (th_thread_id r) (th_status r)
    (th_version r) (th_message_count r) (th_last_sequence r) (th_metadata_json r)
    (th_updated_at r) (th_created_at r).
Definition set_th_version : Z -> Thread -> Thread :=
  ltac:(field_setter eta_Thread th_version).
Definition set_th_message_count : Z -> Thread -> Thread :=
  ltac:(field_setter eta_Thread th_message_count).
Definition set_th_last_sequence : Z -> Thread -> Thread :=
  ltac:(field_setter eta_Thread th_last_sequence).
Definition set_th_metadata_json : list (pystr * json) -> Thread -> Thread :=
  ltac:(field_setter eta_Thread th_metadata_json).
Definition set_th_updated_at : datetime -> Thread -> Thread :=
  ltac:(field_setter eta_Thread th_updated_at).

Record Run := mkRun {
  run_id : pystr;
  run_thread_ref_id : Z;
  run_user_id : Z;
  run_tenant_id : pystr;
  run_channel : pystr;
  run_approved_tools_json : list pystr;
  run_status : RunStatus;
  run_idempotency_key : pystr;
  run_request_hash : pystr;
  run_model_name : pystr;
  run_model_catalog_hash : pystr;
  run_model_snapshot_json : json;
  run_on_disconnect : pystr;
  run_multitask_strategy : MultitaskStrategy;
  run_fencing_token : Z;
  run_user_message_id : option Z;
  run_assistant_message_id : option Z;
  run_supersedes_run_id : option pystr;
  run_last_event_sequence : Z;
  run_owner_worker_id : option pystr;
  run_lease_expires_at : option datetime;
  run_deadline_at : option datetime;
  run_started_at : option datetime;
  run_finished_at : option datetime;
  run_error_code : option pystr;
  run_error_detail_redacted : option json;
  run_skill_name : option pystr;
  run_skill_version : option pystr;
  run_skill_content_hash : option pystr;
  run_skill_activation_source : option pystr;
  run_input_tokens : Z;
  run_output_tokens : Z;
  run_cost : Decimal;
  run_created_at : datetime;
  run_updated_at : datetime
}.

Definition eta_Run (r : Run) : Run :=
  mkRun (run_id r) (run_thread_ref_id r) (run_user_id r) (run_tenant_id r)
    (run_channel r) (run_approved_tools_json r) (run_status r) (run_idempotency_key r)
    (run_request_hash r) (run_model_name r) (run_model_catalog_hash r) (run_model_snapshot_json r)
    (run_on_disconnect r) (run_multitask_strategy r) (run_fencing_token r) (run_user_message_id r)
    (run_assistant_message_id r) (run_supersedes_run_id r) (run_last_event_sequence r) (run_owner_worker_id r)
    (run_lease_expires_at r) (run_deadline_at r) (run_started_at r) (run_finished_at r)
    (run_error_code r) (run_error_detail_redacted r) (run_skill_name r) (run_skill_version r)
    (run_skill_content_hash r) (run_skill_activation_source r) (run_input_tokens r) (run_output_tokens r)
    (run_cost r) (run_created_at r) (run_updated_at r).
Definition set_run_status : RunStatus -> Run -> Run :=
  ltac:(field_setter eta_Run run_status).
Definition set_run_fencing_token : Z -> Run -> Run :=
  ltac:(field_setter eta_Run run_fencing_token).
Definition set_run_user_message_id : option Z -> Run -> Run :=
  ltac:(field_setter eta_Run run_user_message_id).
Definition set_run_assistant_message_id : option Z -> Run -> Run :=
  ltac:(field_setter eta_Run run_assistant_message_id).
Definition set_run_last_event_sequence : Z -> Run -> Run :=
  ltac:(field_setter eta_Run run_last_event_sequence).
Definition set_run_owner_worker_id : option pystr -> Run -> Run :=
  ltac:(field_setter eta_Run run_owner_worker_id).
Definition set_run_lease_expires_at : option datetime -> Run -> Run :=
  ltac:(field_setter eta_Run run_lease_expires_at).
Definition set_run_started_at : option datetime -> Run -> Run :=
  ltac:(field_setter eta_Run run_started_at).
Definition set_run_finished_at : option datetime -> Run -> Run :=
  ltac:(field_setter eta_Run run_finished_at).
Definition set_run_error_code : option pystr -> Run -> Run :=
  ltac:(field_setter eta_Run run_error_code).
Definition set_run_error_detail_redacted : option json -> Run -> Run :=
  ltac:(field_setter eta_Run run_error_detail_redacted).
Definition set_run_skill_name : option pystr -> Run -> Run :=
  ltac:(field_setter eta_Run run_skill_name).
Definition set_run_skill_version : option pystr -> Run -> Run :=
  ltac:(field_setter eta_Run run_skill_version).
Definition set_run_skill_content_hash : option pystr -> Run -> Run :=
  ltac:(field_setter eta_Run run_skill_content_hash).
Definition set_run_skill_activation_source : option pystr -> Run -> Run :=
  ltac:(field_setter eta_Run run_skill_activation_source).
Definition set_run_input_tokens : Z -> Run -> Run :=
  ltac:(field_setter eta_Run run_input_tokens).
Definition set_run_output_tokens : Z -> Run -> Run :=
  ltac:(field_setter eta_Run run_output_tokens).
Definition set_run_cost : Decimal -> Run -> Run :=
  ltac:(field_setter eta_Run run_cost).
Definition set_run_updated_at : datetime -> Run -> Run :=
  ltac:(field_setter eta_Run run_updated_at).

Record Message := mkMessage {
  msg_id : Z;
  msg_thread_ref_id : Z;
  msg_run_id : option pystr;
  msg_client_message_id : option pystr;
  msg_sequence : Z;
  msg_message_type : pystr;
  msg_content : pystr;
  msg_content_json : option json;
  msg_status : pystr;
  msg_timestamp : datetime;
  msg_updated_at : datetime;
  msg_rag_trace : option json
}.

Definition eta_Message (r : Message) : Message :=
  mkMessage (msg_id r) (msg_thread_ref_id r) (msg_run_id r) (msg_client_message_id r)
    (msg_sequence r) (msg_message_type r) (msg_content r) (msg_content_json r)
    (msg_status r) (msg_timestamp r) (msg_updated_at r) (msg_rag_trace r).
Definition set_msg_run_id : option pystr -> Message -> Message := ltac:(field_setter eta_Message msg_run_id).
Definition set_msg_content : pystr -> Message -> Message :=
  ltac:(field_setter eta_Message msg_content).
Definition set_msg_status : pystr -> Message -> Message :=
  ltac:(field_setter eta_Message msg_status).
Definition set_msg_updated_at : datetime -> Message -> Message :=
  ltac:(field_setter eta_Message msg_updated_at).
Definition set_msg_rag_trace : option json -> Message -> Message :=
  ltac:(field_setter eta_Message msg_rag_trace).

Record RunEvent := mkRunEvent {
  ev_event_id : pystr;
  ev_run_id : pystr;
  ev_sequence : Z;
  ev_schema_version : Z;
  ev_event_type : RunEventType;
  ev_payload_json : list (pystr * json);
  ev_created_at : datetime
}.

Record RunCheckpoint := mkRunCheckpoint {
  cp_id : Z;
  cp_run_id : pystr;
  cp_thread_ref_id : Z;
  cp_user_id : Z;
  cp_checkpoint_id : pystr;
  cp_hitl_token : option pystr;
  cp_interrupt_id : option pystr;
  cp_resume_idempotency_key : option pystr;
  cp_resume_payload_json : option json;
  cp_state_json : json;
  cp_next_nodes_json : list pystr;
  cp_consumed_at : option datetime;
  cp_created_at : datetime;
  cp_updated_at : datetime
}.

Definition eta_RunCheckpoint (r : RunCheckpoint) : RunCheckpoint :=
  mkRunCheckpoint (cp_id r) (cp_run_id r) (cp_thread_ref_id r) (cp_user_id r)
    (cp_checkpoint_id r) (cp_hitl_token r) (cp_interrupt_id r) (cp_resume_idempotency_key r)
    (cp_resume_payload_json r) (cp_state_json r) (cp_next_nodes_json r) (cp_consumed_at r)
    (cp_created_at r) (cp_updated_at r).
Definition set_cp_resume_idempotency_key : option pystr -> RunCheckpoint -> RunCheckpoint :=
  ltac:(field_setter eta_RunCheckpoint cp_resume_idempotency_key).
Definition set_cp_resume_payload_json : option json -> RunCheckpoint -> RunCheckpoint :=
  ltac:(field_setter eta_RunCheckpoint cp_resume_payload_json).
Definition set_cp_state_json : json -> RunCheckpoint -> RunCheckpoint :=
  ltac:(field_setter eta_RunCheckpoint cp_state_json).
Definition set_cp_next_nodes_json : list pystr -> RunCheckpoint -> RunCheckpoint :=
  ltac:(field_setter eta_RunCheckpoint cp_next_nodes_json).
Definition set_cp_consumed_at : option datetime -> RunCheckpoint -> RunCheckpoint :=
  ltac:(field_setter eta_RunCheckpoint cp_consumed_at).
Definition set_cp_updated_at : datetime -> RunCheckpoint -> RunCheckpoint :=
  ltac:(field_setter eta_RunCheckpoint cp_updated_at).

(** The payload column holds the dumped event; it is kept as the event itself. *)
Record TransactionOutbox := mkTransactionOutbox {
  ob_id : Z;
  ob_topic : pystr;
  ob_aggregate_id : pystr;
  ob_payload_json : RunEventV1;
  ob_published_at : option datetime;
  ob_attempts : Z;
  ob_created_at : datetime
}.

Definition eta_TransactionOutbox (r : TransactionOutbox) : TransactionOutbox :=
  mkTransactionOutbox (ob_id r) (ob_topic r) (ob_aggregate_id r) (ob_payload_json r)
    (ob_published_at r) (ob_attempts r) (ob_created_at r).
Definition set_ob_published_at : option datetime -> TransactionOutbox -> TransactionOutbox :=
  ltac:(field_setter eta_TransactionOutbox ob_published_at).
Definition set_ob_attempts : Z -> TransactionOutbox -> TransactionOutbox :=
  ltac:(field_setter eta_TransactionOutbox ob_attempts).

Record ToolAudit := mkToolAudit {
  ta_id : Z;
  ta_user_id : option Z;
  ta_thread_id : pystr;
  ta_run_id : option pystr;
  ta_tool_call_id : option pystr;
  ta_audit_key : pystr;
  ta_tool_name : pystr;
  ta_tool_version : pystr;
  ta_skill_name : pystr;
  ta_decision : pystr;
  ta_reason_code : option pystr;
  ta_policy_version : option pystr;
  ta_policy_hash : option pystr;
  ta_success : bool;
  ta_error_code : option pystr;
  ta_duration_ms : Z;
  ta_result_size : Z;
  ta_metadata_json : list (pystr * json);
  ta_created_at : datetime
}.

Definition eta_ToolAudit (r : ToolAudit) : ToolAudit :=
  mkToolAudit (ta_id r) (ta_user_id r) (ta_thread_id r) (ta_run_id r)
    (ta_tool_call_id r) (ta_audit_key r) (ta_tool_name r) (ta_tool_version r)
    (ta_skill_name r) (ta_decision r) (ta_reason_code r) (ta_policy_version r)
    (ta_policy_hash r) (ta_success r) (ta_error_code r) (ta_duration_ms r)
    (ta_result_size r) (ta_metadata_json r) (ta_created_at r).
Definition set_ta_run_id : option pystr -> ToolAudit -> ToolAudit :=
  ltac:(field_setter eta_ToolAudit ta_run_id).

(** ** The database *)
Record Database := mkDatabase {
  db_users : gmap Z User;
  db_threads : gmap Z Thread;
  db_runs : gmap pystr Run;
  db_messages : gmap Z Message;
  db_events : list RunEvent;
  db_checkpoints : gmap Z RunCheckpoint;
  db_outbox : gmap Z TransactionOutbox;
  db_audits : gmap Z ToolAudit
}.

Definition eta_Database (r : Database) : Database :=
  mkDatabase (db_users r) (db_threads r) (db_runs r) (db_messages r)
    (db_events r) (db_checkpoints r) (db_outbox r) (db_audits r).
Definition set_db_users : gmap Z User -> Database -> Database :=
  ltac:(field_setter eta_Database db_users).
Definition set_db_threads : gmap Z Thread -> Database -> Database :=
  ltac:(field_setter eta_Database db_threads).
Definition set_db_runs : gmap pystr Run -> Database -> Database :=
  ltac:(field_setter eta_Database db_runs).
Definition set_db_messages : gmap Z Message -> Database -> Database :=
  ltac:(field_setter eta_Database db_messages).
Definition set_db_events : list RunEvent -> Database -> Database :=
  ltac:(field_setter eta_Database db_events).
Definition set_db_checkpoints : gmap Z RunCheckpoint -> Database -> Database :=
  ltac:(field_setter eta_Database db_checkpoints).
Definition set_db_outbox : gmap Z TransactionOutbox -> Database -> Database :=
  ltac:(field_setter eta_Database db_outbox).
Definition set_db_audits : gmap Z ToolAudit -> Database -> Database :=
  ltac:(field_setter eta_Database db_audits).

(** Writing a row under its primary key. *)
Definition put_thread (t : Thread) (db : Database) : Database :=
  set_db_threads (<[th_id t := t]> (db_threads db)) db.
Definition put_run (r : Run) (db : Database) : Database :=
  set_db_runs (<[run_id r := r]> (db_runs db)) db.
Definition put_message (m : Message) (db : Database) : Database :=
  set_db_messages (<[msg_id m := m]> (db_messages db)) db.
Definition put_checkpoint (c : RunCheckpoint) (db : Database) : Database :=
  set_db_checkpoints (<[cp_id c := c]> (db_checkpoints db)) db.
Definition put_outbox (o : TransactionOutbox) (db : Database) : Database :=
  set_db_outbox (<[ob_id o := o]> (db_outbox db)) db.
Definition put_audit (a : ToolAudit) (db : Database) : Database :=
  set_db_audits (<[ta_id a := a]> (db_audits db)) db.
Definition add_event (e : RunEvent) (db : Database) : Database :=
  set_db_events (db_events db ++ [e]) db.

(** ** Constraints *)

(** [users.username UNIQUE] *)
Definition idx_username (u : User) : option pystr := Some (u_username u).
(** [uq_user_thread] *)
Definition idx_user_thread (t : Thread) : option (Z * pystr) :=
  Some (th_user_id t, th_thread_id t).
(** [uq_run_user_thread_idempotency] *)
Definition idx_run_idempotency (r : Run) : option (Z * Z * pystr) :=
  Some (run_user_id r, run_thread_ref_id r, run_idempotency_key r).
(** [uq_run_assistant_message] *)
Definition idx_run_assistant (r : Run) : option Z := run_assistant_message_id r.
(** [uq_runs_one_active_per_thread], partial on the active statuses. *)
Definition idx_run_active (r : Run) : option Z :=
  if is_active (run_status r) then Some (run_thread_ref_id r) else None.
(** [uq_message_thread_sequence] *)
Definition idx_message_sequence (m : Message) : option (Z * Z) :=
  Some (msg_thread_ref_id m, msg_sequence m).
(** [uq_message_client_id] *)
Definition idx_message_client (m : Message) : option (Z * pystr) :=
  c ← msg_client_message_id m; Some (msg_thread_ref_id m, c).
(** [uq_run_checkpoint] *)
Definition idx_checkpoint (c : RunCheckpoint) : option (pystr * pystr) :=
  Some (cp_run_id c, cp_checkpoint_id c).
(** [uq_run_checkpoint_resume_idempotency] *)
Definition idx_checkpoint_resume (c : RunCheckpoint) : option (pystr * pystr) :=
  k ← cp_resume_idempotency_key c; Some (cp_run_id c, k).
(** [run_checkpoints.hitl_token UNIQUE] *)
Definition idx_checkpoint_token (c : RunCheckpoint) : option pystr := cp_hitl_token c.
(** [uq_tool_audit_run_key] *)
Definition idx_audit (a : ToolAudit) : option (pystr * pystr) :=
  r ← ta_run_id a; Some (r, ta_audit_key a).

(** [ck_runs_skill_snapshot_complete] *)
Definition skill_snapshot_complete (r : Run) : bool :=
  match run_skill_name r, run_skill_version r, run_skill_content_hash r,
        run_skill_activation_source r with
  | None, None, None, None => true
  | Some _, Some _, Some _, Some _ => true
  | _, _, _, _ => false
  end.

(** [ck_runs_model_catalog_hash_length] *)
Definition catalog_hash_length (r : Run) : bool := py_len (run_model_catalog_hash r) =? 64.

Definition run_checks (r : Run) : bool := skill_snapshot_complete r && catalog_hash_length r.

(** [uq_run_event_sequence] and [run_events.event_id UNIQUE] *)
Definition events_unique (es : list RunEvent) : bool :=
  bool_decide (NoDup ((fun e => (ev_run_id e, ev_sequence e)) <$> es))
  && bool_decide (NoDup (ev_event_id <$> es)).

Definition constraints_ok (db : Database) : bool :=
  unique_index idx_username (db_users db)
  && unique_index idx_user_thread (db_threads db)
  && unique_index idx_run_idempotency (db_runs db)
  && unique_index idx_run_assistant (db_runs db)
  && unique_index idx_run_active (db_runs db)
  && forallb run_checks (snd <$> map_to_list (db_runs db))
  && unique_index idx_message_sequence (db_messages db)
  && unique_index idx_message_client (db_messages db)
  && events_unique (db_events db)
  && unique_index idx_checkpoint (db_checkpoints db)
  && unique_index idx_checkpoint_resume (db_checkpoints db)
  && unique_index idx_checkpoint_token (db_checkpoints db)
  && unique_index idx_audit (db_audits db).

(** The constraints as a proposition, one clause per index. *)
Record schema_ok (db : Database) : Prop := mkSchemaOk {
  ok_username : unique_prop idx_username (db_users db);
  ok_user_thread : unique_prop idx_user_thread (db_threads db);
  ok_run_idempotency : unique_prop idx_run_idempotency (db_runs db);
  ok_run_assistant : unique_prop idx_run_assistant (db_runs db);
  ok_run_active : unique_prop idx_run_active (db_runs db);
  ok_run_checks : map_Forall (fun _ r => run_checks r = true) (db_runs db);
  ok_message_sequence : unique_prop idx_message_sequence (db_messages db);
  ok_message_client : unique_prop idx_message_client (db_messages db);
  ok_events : events_unique (db_events db) = true;
  ok_checkpoint : unique_prop idx_checkpoint (db_checkpoints db);
  ok_checkpoint_resume : unique_prop idx_checkpoint_resume (db_checkpoints db);
  ok_checkpoint_token : unique_prop idx_checkpoint_token (db_checkpoints db);
  ok_audit : unique_prop idx_audit (db_audits db)
}.

Lemma forallb_rows_spec {K V} `{Countable K} (p : V -> bool) (m : gmap K V) :
  forallb p (snd <$> map_to_list m) = true <-> map_Forall (fun _ r => p r = true) m.
Proof.
  rewrite forallb_forall. split.
  - intros F i x Hi. apply F, list_elem_of_In, list_elem_of_fmap. exists (i, x).
    by rewrite elem_of_map_to_list.
  - intros F x Hx. apply list_elem_of_In, list_elem_of_fmap in Hx as ([i y] & -> & Hy).
    apply elem_of_map_to_list in Hy. by eapply F.
Qed.

Lemma constraints_ok_spec db : constraints_ok db = true <-> schema_ok db.
Proof.
  unfold constraints_ok. rewrite !andb_true_iff, !unique_index_spec, forallb_rows_spec.
  split; [intros H; destruct_and! H; by constructor|intros []; tauto].
Qed.
