(* ===== verification/Effects.v ===== *)
(** * The session of the run runtime

    The session monad over the run tables, whose flushes and commits check the
    schema's constraints. *)

From S2P Require Import Prelude PyBase Errors RunState Session Schema.

Open Scope Z_scope.

#[export] Instance database_store : Store Database := constraints_ok.

Abbreviation M := (Sess Database).
Abbreviation World := (WorldOf Database).
