(* ===== verification/Journal.v ===== *)
(** * The run event journal

    [backend/events/contracts.py], [backend/events/generated/run_event_v1.py],
    [backend/threads/contracts.py] and [backend/events/journal.py]: validated
    events, the append that numbers an event and writes it together with its
    outbox row, the fenced append of a worker, and the ordered replay. *)

From S2P Require Import Prelude PyBase Errors RunState Schema Session Effects.

Open Scope Z_scope.

(** ** Contracts *)

Definition is_alnum (c : N) : bool := is_AZ c || is_az c || is_09 c.

(** [THREAD_ID_PATTERN] *)
Definition thread_id_ok (s : pystr) : bool :=
  fullmatch_id is_alnum (fun c => is_alnum c || is_one_of "_.:-"%py c) (Some 119%nat) s.

(** [validate_thread_id] *)
Definition validate_thread_id (s : pystr) : M pystr :=
  if thread_id_ok s then mret s
  else raise (EValue "thread_id 必须以字母或数字开头，且只能包含字母、数字、_、.、:、-"%py).

(** The pattern [^prefix[A-Za-z0-9_-]+$]. *)
Definition prefixed_id_ok (prefix s : pystr) (max : Z) : bool :=
  (py_len s <=? max)
  && bool_decide (take (length (cps_of prefix)) (cps_of s) = cps_of prefix)
  && match drop (length (cps_of prefix)) (cps_of s) with
     | [] => false
     | l => forallb (fun c => is_alnum c || is_one_of "_-"%py c) l
     end.

(** The field constraints of [RunEventV1]. *)
Definition event_valid (e : RunEventV1) : bool :=
  (v1_schema_version e =? 1)
  && prefixed_id_ok "evt_"%py (v1_event_id e) 80
  && (1 <=? v1_sequence e)
  && prefixed_id_ok "run_"%py (v1_run_id e) 64
  && thread_id_ok (v1_thread_id e).

Definition new_run_event (sequence : Z) (run_id thread_id : pystr)
    (event_type : RunEventType) (data : list (pystr * json)) : M RunEventV1 :=
  u ← uuid4_hex;
  now ← utcnow;
  let e := mkRunEventV1 1 ("evt_"%py +++ u)%py sequence run_id thread_id event_type now data in
  raise_if (negb (event_valid e)) (EValue "RunEventV1"%py);;
  mret e.

(** ** Appending *)

Record JournalAppend := mkJournalAppend { ja_event : RunEventV1; ja_outbox_id : Z }.

(** The journal row and the outbox row of an event. *)
Definition event_row (e : RunEventV1) : RunEvent :=
  mkRunEvent (v1_event_id e) (v1_run_id e) (v1_sequence e) (v1_schema_version e)
    (v1_type e) (v1_data e) (v1_timestamp e).
Definition outbox_row (id : Z) (e : RunEventV1) : TransactionOutbox :=
  mkTransactionOutbox id "run_event"%py (v1_run_id e) e None 0 (v1_timestamp e).

(** [run] is the session's row object; the caller continues with the returned
    one, whose sequence counter has advanced. *)
Definition append_event_in_session (run : Run) (thread_id : pystr)
    (event_type : RunEventType) (data : list (pystr * json)) : M (Run * JournalAppend) :=
  let run := set_run_last_event_sequence (run_last_event_sequence run + 1) run in
  event ← new_run_event (run_last_event_sequence run) (run_id run) thread_id event_type data;
  db ← get_db;
  let outbox_id := next_id (db_outbox db) in
  modify_db (fun db =>
    put_outbox (outbox_row outbox_id event) (add_event (event_row event) (put_run run db)));;
  flush;;
  mret (run, mkJournalAppend event outbox_id).

Definition run_not_found : AppError := app_error3 RUN_NOT_FOUND "Run 不存在"%py 404.

Definition not_event_owner : AppError :=
  app_error3 RUN_STATE_CONFLICT "当前 worker 不再拥有该 Run 的事件写权限"%py 409.

(** The ownership test of [RunEventJournal.append]: no fence at all, or the
    current owner with the current token on a running or cancelling run. *)
Definition append_fence_ok (run : Run) (worker_id : option pystr) (fencing_token : option Z) : bool :=
  match worker_id, fencing_token with
  | None, None => true
  | Some w, Some f =>
      bool_decide (run_owner_worker_id run = Some w)
      && bool_decide (run_fencing_token run = f)
      && (bool_decide (run_status run = RUNNING) || bool_decide (run_status run = CANCELLING))
  | _, _ => false
  end.

(** [RunEventJournal.append] *)
Definition journal_append (rid : pystr) (event_type : RunEventType)
    (data : list (pystr * json)) (worker_id : option pystr) (fencing_token : option Z) :
    M JournalAppend :=
  transaction (
    db ← get_db;
    run ← require (db_runs db !! rid) (EApp run_not_found);
    raise_if (negb (append_fence_ok run worker_id fencing_token)) (EApp not_event_owner);;
    thread ← require (db_threads db !! run_thread_ref_id run) ENone;
    '(_, appended) ← append_event_in_session run (th_thread_id thread) event_type data;
    mret appended).

(** ** Reading *)

(** [_to_event]: the row was written from a validated event. *)
Definition _to_event (row : RunEvent) (thread_id : pystr) : RunEventV1 :=
  mkRunEventV1 (ev_schema_version row) (ev_event_id row) (ev_sequence row) (ev_run_id row)
    thread_id (ev_event_type row) (ev_created_at row) (ev_payload_json row).

(** The rows [run JOIN thread JOIN users] for a run id, restricted to a user
    name when one is given: the run's thread, when it is visible. *)
Definition visible_thread (db : Database) (rid : pystr) (username : option pystr) : option Thread :=
  run ← db_runs db !! rid;
  thread ← db_threads db !! run_thread_ref_id run;
  match username with
  | None => Some thread
  | Some name =>
      user ← db_users db !! run_user_id run;
      if bool_decide (u_username user = name) then Some thread else None
  end.

Definition assert_access (username rid : pystr) : M pystr :=
  db ← get_db;
  thread ← require (visible_thread db rid (Some username)) (EApp run_not_found);
  mret (th_thread_id thread).

(** The journal rows of one run past a cursor, in table order. *)
Definition events_after (db : Database) (rid : pystr) (after : Z) : list RunEvent :=
  List.filter (fun e => bool_decide (ev_run_id e = rid) && (Z.max after 0 <? ev_sequence e))
    (db_events db).

Definition read_after (rid : pystr) (after limit : Z) (username : option pystr) :
    M (list RunEventV1) :=
  db ← get_db;
  let bound := Z.to_nat (Z.max 1 (Z.min limit 1000)) in
  let rows :=
    match visible_thread db rid username with
    | Some thread =>
        (fun row => (row, th_thread_id thread)) <$>
          take bound (order_by ev_sequence (events_after db rid after))
    | None => []
    end in
  match username, rows with
  | Some name, [] => _ ← assert_access name rid; mret []
  | _, _ => mret ((fun p => _to_event p.1 p.2) <$> rows)
  end.

(** [mark_outbox_published] *)
Definition mark_outbox_published (outbox_id : Z) : M unit :=
  transaction (
    db ← get_db;
    match db_outbox db !! outbox_id with
    | Some row =>
        match ob_published_at row with
        | None =>
            now ← utcnow;
            modify_db (put_outbox (set_ob_published_at (Some now) row))
        | Some _ => mret tt
        end
    | None => mret tt
    end).

(** ** The effect of an append *)

Lemma new_run_event_spec seq rid tid ty data w e w' :
  new_run_event seq rid tid ty data w = (Ret e, w') ->
  w_db w' = w_db w /\ event_valid e = true /\ v1_sequence e = seq /\
  v1_run_id e = rid /\ v1_thread_id e = tid /\ v1_type e = ty /\ v1_data e = data.
Proof.
  unfold new_run_event. intros H. minv. apply negb_false_iff in G. naive_solver.
Qed.

(** The row an append leaves in the run table. *)
Definition bump_sequence (run : Run) : Run :=
  set_run_last_event_sequence (run_last_event_sequence run + 1) run.

Lemma append_event_spec run tid ty data w run' ja w' :
  append_event_in_session run tid ty data w = (Ret (run', ja), w') ->
  run' = bump_sequence run /\
  v1_run_id (ja_event ja) = run_id run /\
  v1_sequence (ja_event ja) = run_last_event_sequence run + 1 /\
  v1_type (ja_event ja) = ty /\ v1_data (ja_event ja) = data /\
  v1_thread_id (ja_event ja) = tid /\ event_valid (ja_event ja) = true /\
  ja_outbox_id ja = next_id (db_outbox (w_db w)) /\
  w_db w' = put_outbox (outbox_row (ja_outbox_id ja) (ja_event ja))
              (add_event (event_row (ja_event ja)) (put_run run' (w_db w))).
Proof.
  unfold append_event_in_session. intros H. minv. simplify_eq.
  apply new_run_event_spec in R as (E1 & ? & ? & ? & ? & ? & ?).
  simpl. rewrite E1. naive_solver.
Qed.
