(* ===== verification/RunRepo.v ===== *)
(** * The run repository

    [backend/runs/repository.py]: reservation of a run and its two messages
    under an idempotency key, claiming by a worker under a lease and a fencing
    token, heart beats, pausing, cancellation, finalisation with promotion of
    the next queued run, and recovery of runs whose worker is gone. *)

From S2P Require Import Prelude PyBase Errors RunState Schema Session Effects Journal.

Open Scope Z_scope.

(** ** Settings and platform *)

(** The settings the runtime reads; the deadline is a duration in microseconds. *)
Record Settings := mkSettings {
  st_multitask_strategy : MultitaskStrategy;
  st_disconnect_policy : pystr;
  st_default_deadline : Z;
  st_lease_seconds : Z;
  st_outbox_batch_size : Z
}.

(** [ModelCatalogSnapshot]: the roles with the dumped specification of each
    assigned model, and the digest of that map. *)
Record ModelCatalogSnapshot := mkModelCatalogSnapshot {
  mcs_catalog_hash : pystr;
  mcs_assignments : list (pystr * json)
}.

(** What the runtime takes from outside the repository: the SHA-256 hex digest of
    the canonical JSON text of a document, and pydantic's field validation of a
    stored model snapshot. *)
Record Env := mkEnv {
  env_settings : Settings;
  env_digest : json -> pystr;
  env_parse_snapshot : json -> option ModelCatalogSnapshot
}.

(** ** Records *)

(** [RunRecord]; instants stand for their ISO texts. *)
Record RunRecord := mkRunRecord {
  rr_id : pystr;
  rr_thread_id : pystr;
  rr_status : RunStatus;
  rr_idempotency_key : pystr;
  rr_request_hash : pystr;
  rr_multitask_strategy : MultitaskStrategy;
  rr_fencing_token : Z;
  rr_user_message_id : Z;
  rr_assistant_message_id : Z;
  rr_supersedes_run_id : option pystr;
  rr_model_name : pystr;
  rr_model_catalog_hash : pystr;
  rr_on_disconnect : pystr;
  rr_owner_worker_id : option pystr;
  rr_lease_expires_at : option datetime;
  rr_deadline_at : option datetime;
  rr_started_at : option datetime;
  rr_finished_at : option datetime;
  rr_error_code : option pystr;
  rr_skill_name : option pystr;
  rr_skill_version : option pystr;
  rr_skill_content_hash : option pystr;
  rr_skill_activation_source : option pystr;
  rr_input_tokens : Z;
  rr_output_tokens : Z;
  rr_cost : Decimal;
  rr_created_at : datetime;
  rr_updated_at : datetime;
  rr_error : option (list (pystr * json))
}.

Record RunReservation := mkRunReservation {
  rv_run : RunRecord;
  rv_created : bool;
  rv_thread_version : Z;
  rv_created_event : option RunEventV1
}.

(** [RunExecutionSnapshot]; a history entry is its role and content. *)
Record RunExecutionSnapshot := mkRunExecutionSnapshot {
  xs_run : RunRecord;
  xs_user_db_id : Z;
  xs_username : pystr;
  xs_role : pystr;
  xs_tenant_id : pystr;
  xs_channel : pystr;
  xs_approved_tools : gset pystr;
  xs_user_text : pystr;
  xs_history : list (pystr * pystr);
  xs_persistent_note : pystr;
  xs_model_snapshot : ModelCatalogSnapshot
}.

(** [RunRepository._record] *)
Definition _record (run : Run) (thread_id : pystr) : RunRecord := {|
  rr_id := run_id run;
  rr_thread_id := thread_id;
  rr_status := run_status run;
  rr_idempotency_key := run_idempotency_key run;
  rr_request_hash := run_request_hash run;
  rr_multitask_strategy := run_multitask_strategy run;
  rr_fencing_token := run_fencing_token run;
  rr_user_message_id := default 0 (run_user_message_id run);
  rr_assistant_message_id := default 0 (run_assistant_message_id run);
  rr_supersedes_run_id := run_supersedes_run_id run;
  rr_model_name := run_model_name run;
  rr_model_catalog_hash := run_model_catalog_hash run;
  rr_on_disconnect := run_on_disconnect run;
  rr_owner_worker_id := run_owner_worker_id run;
  rr_lease_expires_at := run_lease_expires_at run;
  rr_deadline_at := run_deadline_at run;
  rr_started_at := run_started_at run;
  rr_finished_at := run_finished_at run;
  rr_error_code := run_error_code run;
  rr_skill_name := run_skill_name run;
  rr_skill_version := run_skill_version run;
  rr_skill_content_hash := run_skill_content_hash run;
  rr_skill_activation_source := run_skill_activation_source run;
  rr_input_tokens := run_input_tokens run;
  rr_output_tokens := run_output_tokens run;
  rr_cost := run_cost run;
  rr_created_at := run_created_at run;
  rr_updated_at := run_updated_at run;
  rr_error := contract <$> deserialize_public_error (run_error_detail_redacted run)
|}.

(** ** Input validation *)

(** [_validate_idempotency_key] *)
Definition validate_idempotency_key (value : pystr) : M pystr :=
  let key := py_strip value in
  if negb (py_nonempty key) || (128 <? py_len key)
  then raise (invalid_request "idempotency_key 必须为 1-128 个字符"%py)
  else mret key.

(** [_security_identifier] *)
Definition security_identifier (value field_name : pystr) (maximum : Z) : M pystr :=
  let candidate := py_strip value in
  if negb (py_nonempty candidate) || (maximum <? py_len candidate)
     || negb (fullmatch_id is_az (fun c => is_az c || is_09 c || is_one_of "_.:-"%py c)
                None candidate)
  then raise (invalid_request (field_name +++ " 不是有效的安全标识符"%py)%py)
  else mret candidate.

(** [_approved_tools] *)
Definition validate_approved_tools (values : gset pystr) : M (gset pystr) :=
  if (32 <? Z.of_nat (size values))
     || existsb (fun name =>
          negb (fullmatch_id is_az (fun c => is_az c || is_09 c || is_one_of "_.-"%py c)
                  (Some 127%nat) name)) (elements values)
  then raise (invalid_request "approved_tools 包含非法工具名称"%py)
  else mret values.

Section Repository.
Context (env : Env).

(** [hash_run_request]: the digest of the request document, whose keys are in
    sorted order. *)
Definition request_document (message model_name model_catalog_hash tenant_id channel : pystr)
    (approved_tools : gset pystr) (schema_version : Z) : json :=
  JObj [("approved_tools"%py, JArr (JStr <$> sorted_str (elements approved_tools)));
        ("channel"%py, JStr channel);
        ("message"%py, JStr message);
        ("model_catalog_hash"%py, JStr model_catalog_hash);
        ("model_name"%py, JStr model_name);
        ("schema_version"%py, JInt schema_version);
        ("tenant_id"%py, JStr tenant_id)].

Definition hash_run_request (message model_name model_catalog_hash tenant_id channel : pystr)
    (approved_tools : gset pystr) : pystr :=
  env_digest env
    (request_document message model_name model_catalog_hash tenant_id channel approved_tools 2).

(** [model_catalog_hash] and [hash_matches_payload] *)
Definition model_catalog_hash (assignments : list (pystr * json)) : pystr :=
  env_digest env (JObj assignments).
Definition EMPTY_MODEL_CATALOG_SNAPSHOT : ModelCatalogSnapshot :=
  mkModelCatalogSnapshot (model_catalog_hash []) [].
Definition snapshot_dump (s : ModelCatalogSnapshot) : json :=
  JObj [("schema_version"%py, JInt 1);
        ("catalog_hash"%py, JStr (mcs_catalog_hash s));
        ("assignments"%py, JObj (mcs_assignments s))].
Definition snapshot_validate (doc : json) : option ModelCatalogSnapshot :=
  s ← env_parse_snapshot env doc;
  if is_hex_digest (mcs_catalog_hash s)
     && bool_decide (mcs_catalog_hash s = model_catalog_hash (mcs_assignments s))
  then Some s else None.

(** ** Queries *)

Definition find_user (db : Database) (username : pystr) : option User :=
  first_where (fun u => bool_decide (u_username u = username)) (db_users db).

(** [_thread_query(...).first()] *)
Definition find_thread (db : Database) (user_id : Z) (thread_id : pystr) : option Thread :=
  first_where (fun t => bool_decide (th_user_id t = user_id)
                        && bool_decide (th_thread_id t = thread_id)) (db_threads db).

(** [_existing_run] *)
Definition existing_run (db : Database) (user_id thread_ref_id : Z) (key : pystr) : option Run :=
  first_where (fun r => bool_decide (run_user_id r = user_id)
                        && bool_decide (run_thread_ref_id r = thread_ref_id)
                        && bool_decide (run_idempotency_key r = key)) (db_runs db).

(** [_active_run]: the oldest active run of the thread. *)
Definition active_run (db : Database) (thread_ref_id : Z) : option Run :=
  head (order_by run_created_at
    (rows_where (fun r => bool_decide (run_thread_ref_id r = thread_ref_id)
                          && is_active (run_status r)) (db_runs db))).

(** The run joined with its thread, and with its user when a name is given. *)
Definition run_row (db : Database) (rid : pystr) (username : option pystr) : option (Run * Thread) :=
  run ← db_runs db !! rid;
  thread ← db_threads db !! run_thread_ref_id run;
  match username with
  | None => Some (run, thread)
  | Some name =>
      user ← db_users db !! run_user_id run;
      if bool_decide (u_username user = name) then Some (run, thread) else None
  end.

Definition auth_required : exn :=
  EApp (app_error3 AUTHENTICATION_REQUIRED "用户不存在或已失效"%py 401).

(** [_get_or_create_thread] *)
Definition titled (metadata : list (pystr * json)) : bool :=
  opt_truthy (obj_get "title"%py metadata).

Definition get_or_create_thread (user : User) (thread_id : pystr) (title : option pystr)
    (allow_create : bool) : M Thread :=
  db ← get_db;
  match find_thread db (u_id user) thread_id with
  | Some thread =>
      match title with
      | Some t =>
          if py_nonempty t && negb (titled (th_metadata_json thread)) then
            let thread :=
              set_th_metadata_json (obj_set "title"%py (JStr t) (th_metadata_json thread)) thread in
            modify_db (put_thread thread);;
            mret thread
          else mret thread
      | None => mret thread
      end
  | None =>
      raise_if (negb allow_create) (EApp (app_error3 NOT_FOUND "Thread 不存在"%py 404));;
      updated_at ← utcnow;
      created_at ← utcnow;
      let metadata := match title with
                      | Some t => if py_nonempty t then [("title"%py, JStr t)] else []
                      | None => []
                      end in
      let thread := mkThread (next_id (db_threads db)) (u_id user) thread_id "active"%py
                      0 0 0 metadata updated_at created_at in
      modify_db (put_thread thread);;
      flush;;
      mret thread
  end.

(** INSERT of a run: its primary key must be new. *)
Definition insert_run (run : Run) : M unit :=
  db ← get_db;
  raise_if (bool_decide (is_Some (db_runs db !! run_id run))) EIntegrity;;
  modify_db (put_run run);;
  flush.

(** ** Reservation *)

(** The keyword arguments of [reserve]. *)
Record ReserveRequest := mkReserveRequest {
  rq_username : pystr;
  rq_thread_id : pystr;
  rq_message : pystr;
  rq_idempotency_key : pystr;
  rq_request_hash : option pystr;
  rq_expected_thread_version : option Z;
  rq_model_name : pystr;
  rq_model_snapshot : option ModelCatalogSnapshot;
  rq_on_disconnect : option pystr;
  rq_multitask_strategy : option MultitaskStrategy;
  rq_title : option pystr;
  rq_tenant_id : pystr;
  rq_channel : pystr;
  rq_approved_tools : gset pystr;
  rq_allow_implicit_thread : bool
}.

(** The validated inputs of the reservation transaction. *)
Record Reserved := mkReserved {
  rs_key : pystr;
  rs_tenant : pystr;
  rs_channel : pystr;
  rs_tools : gset pystr;
  rs_snapshot : ModelCatalogSnapshot;
  rs_hash : pystr;
  rs_strategy : MultitaskStrategy
}.

Definition reserve_inputs (q : ReserveRequest) : M Reserved :=
  thread_id ← validate_thread_id (rq_thread_id q);
  key ← validate_idempotency_key (rq_idempotency_key q);
  tenant ← security_identifier (rq_tenant_id q) "tenant_id"%py 64;
  channel ← security_identifier (rq_channel q) "channel"%py 32;
  tools ← validate_approved_tools (rq_approved_tools q);
  let snapshot := default EMPTY_MODEL_CATALOG_SNAPSHOT (rq_model_snapshot q) in
  mret {| rs_key := key; rs_tenant := tenant; rs_channel := channel; rs_tools := tools;
          rs_snapshot := snapshot;
          rs_hash := or_str (rq_request_hash q)
                       (hash_run_request (rq_message q) (rq_model_name q)
                          (mcs_catalog_hash snapshot) tenant channel tools);
          rs_strategy := default (st_multitask_strategy (env_settings env))
                           (rq_multitask_strategy q) |}.

(** The row of a new run, before its messages exist. *)
Definition new_run (q : ReserveRequest) (i : Reserved) (now : datetime) (rid : pystr)
    (user : User) (thread : Thread) (status : RunStatus) (supersedes : option pystr) : Run := {|
  run_id := rid;
  run_thread_ref_id := th_id thread;
  run_user_id := u_id user;
  run_tenant_id := rs_tenant i;
  run_channel := rs_channel i;
  run_approved_tools_json := sorted_str (elements (rs_tools i));
  run_status := status;
  run_idempotency_key := rs_key i;
  run_request_hash := rs_hash i;
  run_model_name := rq_model_name q;
  run_model_catalog_hash := mcs_catalog_hash (rs_snapshot i);
  run_model_snapshot_json := snapshot_dump (rs_snapshot i);
  run_on_disconnect := or_str (rq_on_disconnect q) (st_disconnect_policy (env_settings env));
  run_multitask_strategy := rs_strategy i;
  run_fencing_token := 1;
  run_user_message_id := None;
  run_assistant_message_id := None;
  run_supersedes_run_id := supersedes;
  run_last_event_sequence := 0;
  run_owner_worker_id := None;
  run_lease_expires_at := None;
  run_deadline_at := Some (now + st_default_deadline (env_settings env));
  run_started_at := None;
  run_finished_at := None;
  run_error_code := None;
  run_error_detail_redacted := None;
  run_skill_name := None;
  run_skill_version := None;
  run_skill_content_hash := None;
  run_skill_activation_source := None;
  run_input_tokens := 0;
  run_output_tokens := 0;
  run_cost := decimal_zero;
  run_created_at := now;
  run_updated_at := now
|}.

(** The two messages of a run: the user's text and the assistant's placeholder. *)
Definition reserve_messages (thread : Thread) (rid message : pystr) (status : RunStatus)
    (now : datetime) : M (Z * Z) :=
  db ← get_db;
  let user_id := next_id (db_messages db) in
  let user_message :=
    mkMessage user_id (th_id thread) (Some rid) (Some (rid +++ ":user"%py)%py)
      (th_last_sequence thread + 1) "human"%py message None "completed"%py now now None in
  modify_db (put_message user_message);;
  db ← get_db;
  let assistant_id := next_id (db_messages db) in
  let assistant_message :=
    mkMessage assistant_id (th_id thread) (Some rid) (Some (rid +++ ":assistant"%py)%py)
      (th_last_sequence thread + 2) "ai"%py ""%py None
      (if bool_decide (status = PENDING) then "streaming"%py else "queued"%py) now now None in
  modify_db (put_message assistant_message);;
  flush;;
  mret (user_id, assistant_id).

(** The reservation proper: everything after the idempotency and admission tests. *)
Definition reserve_new (q : ReserveRequest) (i : Reserved) (now : datetime) (user : User)
    (thread : Thread) (status : RunStatus) (supersedes : option pystr) : M RunReservation :=
  u ← uuid4_hex;
  let rid := ("run_"%py +++ u)%py in
  let run := new_run q i now rid user thread status supersedes in
  insert_run run;;
  '(user_message_id, assistant_message_id) ←
    reserve_messages thread rid (rq_message q) status now;
  let thread :=
    set_th_updated_at now
      (set_th_version (th_version thread + 2)
        (set_th_message_count (th_message_count thread + 2)
          (set_th_last_sequence (th_last_sequence thread + 2) thread))) in
  let run :=
    set_run_fencing_token (th_version thread)
      (set_run_assistant_message_id (Some assistant_message_id)
        (set_run_user_message_id (Some user_message_id) run)) in
  modify_db (fun db => put_run run (put_thread thread db));;
  '(run, appended) ← append_event_in_session run (rq_thread_id q) RUN_CREATED
    [("status"%py, JStr (status_value (run_status run)));
     ("user_message_id"%py, JInt user_message_id);
     ("assistant_message_id"%py, JInt assistant_message_id);
     ("multitask_strategy"%py, JStr (strategy_value (run_multitask_strategy run)))];
  flush;;
  mret (mkRunReservation (_record run (rq_thread_id q)) true (th_version thread)
          (Some (ja_event appended))).

(** The admission decision on the thread's active run: refuse, or the initial
    status and the superseded run. *)
Definition admission (active : option Run) (strategy : MultitaskStrategy) :
    M (RunStatus * option pystr) :=
  match active with
  | None => mret (PENDING, None)
  | Some a =>
      match strategy with
      | REJECT =>
          raise (EApp (app_error RUN_ACTIVE "该 Thread 已有正在执行的 Run"%py 409 false
                         [("active_run_id"%py, JStr (run_id a))] None None))
      | ENQUEUE => mret (QUEUED, None)
      | CANCEL_PREVIOUS => mret (QUEUED, Some (run_id a))
      end
  end.

Definition reserve_body (q : ReserveRequest) (i : Reserved) (now : datetime) : M RunReservation :=
  db ← get_db;
  user ← require (find_user db (rq_username q)) auth_required;
  thread ← get_or_create_thread user (rq_thread_id q) (rq_title q) (rq_allow_implicit_thread q);
  db ← get_db;
  match existing_run db (u_id user) (th_id thread) (rs_key i) with
  | Some existing =>
      raise_if (negb (bool_decide (run_request_hash existing = rs_hash i)))
        (EApp (app_error3 IDEMPOTENCY_CONFLICT "相同 idempotency_key 对应了不同请求"%py 409));;
      mret (mkRunReservation (_record existing (rq_thread_id q)) false (th_version thread) None)
  | None =>
      raise_if (match rq_expected_thread_version q with
                | Some v => negb (th_version thread =? v)
                | None => false
                end)
        (EApp (app_error THREAD_VERSION_CONFLICT "Thread 版本已变化，请刷新后重试"%py 409 false
                 [("current_version"%py, JInt (th_version thread))] None None));;
      '(status, supersedes) ← admission (active_run db (th_id thread)) (rs_strategy i);
      reserve_new q i now user thread status supersedes
  end.

(** [_load_reservation] *)
Definition load_reservation (username thread_id key : pystr) : M (option RunReservation) :=
  db ← get_db;
  mret (user ← find_user db username;
        thread ← find_thread db (u_id user) thread_id;
        run ← existing_run db (u_id user) (th_id thread) key;
        Some (mkRunReservation (_record run thread_id) false (th_version thread) None)).

Definition reserve (q : ReserveRequest) : M RunReservation :=
  i ← reserve_inputs q;
  now ← utcnow;
  catch (transaction (reserve_body q i now)) (fun e =>
    match e with
    | EIntegrity =>
        existing ← load_reservation (rq_username q) (rq_thread_id q) (rs_key i);
        match existing with
        | Some r =>
            if bool_decide (rr_request_hash (rv_run r) = rs_hash i) then mret r
            else raise (EApp (app_error RUN_ACTIVE "Run 并发预留冲突，请重试"%py 409 true [] None None))
        | None => raise (EApp (app_error RUN_ACTIVE "Run 并发预留冲突，请重试"%py 409 true [] None None))
        end
    | _ => raise e
    end).

(** ** Reads *)

(** [get] *)
Definition get (username rid : pystr) : M RunRecord :=
  db ← get_db;
  '(run, thread) ← require (run_row db rid (Some username)) (EApp run_not_found);
  mret (_record run (th_thread_id thread)).

(** [get_internal] *)
Definition get_internal (rid : pystr) : M RunRecord :=
  db ← get_db;
  '(run, thread) ← require (run_row db rid None) (EApp run_not_found);
  mret (_record run (th_thread_id thread)).

(** [has_durable_checkpoint] *)
Definition has_durable_checkpoint (rid : pystr) : M bool :=
  db ← get_db;
  mret (match first_where (fun c => bool_decide (cp_run_id c = rid)) (db_checkpoints db) with
        | Some _ => true
        | None => false
        end).

(** The pending runs joined with thread and user, oldest first. *)
Definition pending_rows (db : Database) (p : Run -> Thread -> User -> bool) :
    list (Run * Thread * User) :=
  omap (fun run =>
    thread ← db_threads db !! run_thread_ref_id run;
    user ← db_users db !! run_user_id run;
    if p run thread user then Some (run, thread, user) else None)
  (order_by run_created_at
     (rows_where (fun r => bool_decide (run_status r = PENDING)) (db_runs db))).

(** [find_pending] *)
Definition find_pending (username thread_id : pystr) : M (option RunRecord) :=
  db ← get_db;
  mret (row ← head (pending_rows db (fun _ thread user =>
          bool_decide (u_username user = username)
          && bool_decide (th_thread_id thread = thread_id)));
        Some (_record row.1.1 (th_thread_id row.1.2))).

(** [list_pending] *)
Definition list_pending (limit : Z) : M (list (pystr * RunRecord)) :=
  db ← get_db;
  mret ((fun row => (u_username row.2, _record row.1.1 (th_thread_id row.1.2))) <$>
          take (Z.to_nat (Z.max 1 (Z.min limit 5000))) (pending_rows db (fun _ _ _ => true))).

(** ** Fencing and transitions *)

Definition state_conflict (message : pystr) : exn :=
  EApp (app_error3 RUN_STATE_CONFLICT message 409).
Definition not_owner : exn := state_conflict "当前 worker 不再拥有该 Run"%py.

(** [_assert_fencing] *)
Definition assert_fencing (run : Run) (fencing_token : option Z) : M unit :=
  match fencing_token with
  | Some f =>
      raise_if (negb (run_fencing_token run =? f))
        (EApp (app_error RUN_STATE_CONFLICT "Run fencing token 已失效"%py 409 false
                 [("current_fencing_token"%py, JInt (run_fencing_token run))] None None))
  | None => mret tt
  end.

(** [_transition] *)
Definition transition (run : Run) (target : RunStatus) : M Run :=
  raise_if (negb (can_transition (run_status run) target))
    (state_conflict ("Run 不能从 "%py +++ status_value (run_status run) +++ " 转换到 "%py
                     +++ status_value target)%py);;
  now ← utcnow;
  mret (set_run_updated_at now (set_run_status target run)).

(** The ownership test of the fenced operations on a running run. *)
Definition owned_running (run : Run) (worker_id : pystr) : bool :=
  bool_decide (run_status run = RUNNING) && bool_decide (run_owner_worker_id run = Some worker_id).

(** ** Execution snapshot *)

Definition history_role (t : pystr) : bool :=
  bool_decide (t = "human"%py) || bool_decide (t = "ai"%py) || bool_decide (t = "system"%py).

(** [str(value or "")] of a JSON scalar; floats and containers are not rendered. *)
Definition str_or_blank (o : option json) : pystr :=
  match o with
  | Some (JStr s) => s
  | Some (JInt z) => if z =? 0 then ""%py else py_str_int z
  | Some (JBool true) => "True"%py
  | _ => ""%py
  end.
Definition persistent_note (thread : Thread) : pystr :=
  str_or_blank (obj_get "persistent_note"%py (th_metadata_json thread)).

(** The completed messages of the thread before a sequence number. *)
Definition history_rows (db : Database) (thread_ref_id before : Z) : list Message :=
  order_by msg_sequence
    (rows_where (fun m => bool_decide (msg_thread_ref_id m = thread_ref_id)
                          && (msg_sequence m <? before)
                          && bool_decide (msg_status m = "completed"%py)) (db_messages db)).

(** [load_execution_snapshot] *)
Definition load_execution_snapshot (username rid worker_id : pystr) (fencing_token : Z) :
    M RunExecutionSnapshot :=
  db ← get_db;
  '(run, thread) ← require (run_row db rid (Some username)) (EApp run_not_found);
  user ← require (db_users db !! run_user_id run) ENone;
  assert_fencing run (Some fencing_token);;
  raise_if (negb (owned_running run worker_id)) not_owner;;
  user_message ← require
    (mid ← run_user_message_id run;
     m ← db_messages db !! mid;
     if bool_decide (msg_thread_ref_id m = th_id thread)
        && bool_decide (msg_run_id m = Some (run_id run))
        && bool_decide (msg_message_type m = "human"%py)
     then Some m else None)
    (state_conflict "Run 缺少已预留的用户消息"%py);
  model_snapshot ← require (snapshot_validate (run_model_snapshot_json run))
    (EApp (app_error RUN_STATE_CONFLICT "Run 的模型快照无效"%py 409 false []
             (Some "model"%py) (Some "snapshot"%py)));
  raise_if (negb (bool_decide (mcs_catalog_hash model_snapshot = run_model_catalog_hash run)))
    (EApp (app_error RUN_STATE_CONFLICT "Run 的模型目录哈希不匹配"%py 409 false []
             (Some "model"%py) (Some "snapshot"%py)));;
  mret {|
    xs_run := _record run (th_thread_id thread);
    xs_user_db_id := u_id user;
    xs_username := u_username user;
    xs_role := u_role user;
    xs_tenant_id := run_tenant_id run;
    xs_channel := run_channel run;
    xs_approved_tools := list_to_set (run_approved_tools_json run);
    xs_user_text := msg_content user_message;
    xs_history :=
      (fun m => (msg_message_type m, msg_content m)) <$>
        List.filter (fun m => history_role (msg_message_type m))
          (history_rows db (th_id thread) (msg_sequence user_message));
    xs_persistent_note := persistent_note thread;
    xs_model_snapshot := model_snapshot
  |}.

(** ** Skill pinning and tool audits *)

Definition opt_nonempty (o : option pystr) : bool :=
  match o with Some s => py_nonempty s | None => false end.

(** [pin_skill_activation] *)
Definition pin_skill_activation (rid worker_id : pystr) (fencing_token : Z)
    (name version content_hash source : pystr) : M RunRecord :=
  transaction (
    db ← get_db;
    '(run, thread) ← require (run_row db rid None) (EApp run_not_found);
    assert_fencing run (Some fencing_token);;
    raise_if (negb (owned_running run worker_id)) not_owner;;
    if opt_nonempty (run_skill_name run) || opt_nonempty (run_skill_version run)
       || opt_nonempty (run_skill_content_hash run)
       || opt_nonempty (run_skill_activation_source run)
    then
      raise_if
        (negb (bool_decide (run_skill_name run = Some name)
               && bool_decide (run_skill_version run = Some version)
               && bool_decide (run_skill_content_hash run = Some content_hash)
               && bool_decide (run_skill_activation_source run = Some source)))
        (state_conflict "Run 已固定为另一 Skill 快照"%py);;
      mret (_record run (th_thread_id thread))
    else
      let run :=
        set_run_skill_activation_source (Some source)
          (set_run_skill_content_hash (Some content_hash)
            (set_run_skill_version (Some version)
              (set_run_skill_name (Some name) run))) in
      modify_db (put_run run);;
      mret (_record run (th_thread_id thread))).

(** The decision fields of [record_tool_audit]. *)
Record ToolAuditArgs := mkToolAuditArgs {
  aa_audit_key : pystr;
  aa_tool_call_id : option pystr;
  aa_tool_name : pystr;
  aa_tool_version : pystr;
  aa_decision : pystr;
  aa_reason_code : option pystr;
  aa_policy_version : option pystr;
  aa_policy_hash : option pystr;
  aa_success : bool;
  aa_error_code : option pystr;
  aa_duration_ms : Z;
  aa_result_size : Z;
  aa_metadata : list (pystr * json)
}.

(** [x[:n] if x else None] *)
Definition clip_opt (n : nat) (o : option pystr) : option pystr :=
  match o with Some s => if py_nonempty s then Some (py_take n s) else None | None => None end.
Definition str_or_empty (o : option pystr) : pystr := default ""%py o.

(** The audit row the arguments describe, under the current skill of the run. *)
Definition audit_row (id : Z) (run : Run) (thread_id : pystr) (a : ToolAuditArgs)
    (now : datetime) : ToolAudit := {|
  ta_id := id;
  ta_user_id := Some (run_user_id run);
  ta_thread_id := thread_id;
  ta_run_id := Some (run_id run);
  ta_tool_call_id := clip_opt 128 (aa_tool_call_id a);
  ta_audit_key := aa_audit_key a;
  ta_tool_name := py_take 128 (aa_tool_name a);
  ta_tool_version := py_take 64 (aa_tool_version a);
  ta_skill_name := str_or_empty (run_skill_name run);
  ta_decision := py_take 32 (aa_decision a);
  ta_reason_code := clip_opt 64 (aa_reason_code a);
  ta_policy_version := clip_opt 64 (aa_policy_version a);
  ta_policy_hash := if opt_nonempty (aa_policy_hash a) then aa_policy_hash a else None;
  ta_success := aa_success a;
  ta_error_code := clip_opt 64 (aa_error_code a);
  ta_duration_ms := Z.max (aa_duration_ms a) 0;
  ta_result_size := Z.max (aa_result_size a) 0;
  ta_metadata_json :=
    obj_set "skill_version"%py (JStr (str_or_empty (run_skill_version run)))
      (obj_set "skill_name"%py (JStr (str_or_empty (run_skill_name run))) (aa_metadata a));
  ta_created_at := now
|}.

(** [actual == expected] *)
Definition audit_same (x y : ToolAudit) : bool :=
  bool_decide (ta_tool_call_id x = ta_tool_call_id y)
  && bool_decide (ta_tool_name x = ta_tool_name y)
  && bool_decide (ta_tool_version x = ta_tool_version y)
  && bool_decide (ta_skill_name x = ta_skill_name y)
  && bool_decide (ta_decision x = ta_decision y)
  && bool_decide (ta_reason_code x = ta_reason_code y)
  && bool_decide (ta_policy_version x = ta_policy_version y)
  && bool_decide (ta_policy_hash x = ta_policy_hash y)
  && Bool.eqb (ta_success x) (ta_success y)
  && bool_decide (ta_error_code x = ta_error_code y)
  && bool_decide (ta_duration_ms x = ta_duration_ms y)
  && bool_decide (ta_result_size x = ta_result_size y)
  && py_eq (JObj (ta_metadata_json x)) (JObj (ta_metadata_json y)).

(** [record_tool_audit] *)
Definition record_tool_audit (rid worker_id : pystr) (fencing_token : Z) (a : ToolAuditArgs) :
    M unit :=
  transaction (
    raise_if (negb (is_hex_digest (aa_audit_key a)))
      (EValue "audit_key must be a lowercase SHA-256 digest"%py);;
    db ← get_db;
    '(run, thread) ← require (run_row db rid None) (EApp run_not_found);
    assert_fencing run (Some fencing_token);;
    raise_if (negb (owned_running run worker_id)) not_owner;;
    raise_if (match aa_policy_hash a with
              | Some h => py_nonempty h && negb (is_hex_digest h)
              | None => false
              end) (EValue "policy_hash must be a lowercase SHA-256 digest"%py);;
    now ← utcnow;
    let expected := audit_row (next_id (db_audits db)) run (th_thread_id thread) a now in
    match first_where (fun x => bool_decide (ta_run_id x = Some (run_id run))
                                && bool_decide (ta_audit_key x = aa_audit_key a))
            (db_audits db) with
    | Some existing =>
        raise_if (negb (audit_same existing expected))
          (state_conflict "重复工具审计键与既有结果不一致"%py)
    | None => modify_db (put_audit expected)
    end).

(** ** Claiming *)

Definition lease_live (lease : option datetime) (now : datetime) : bool :=
  match lease with Some t => now <=? t | None => false end.
(** [not lease or lease >= now] *)
Definition lease_open (lease : option datetime) (now : datetime) : bool :=
  match lease with Some t => now <=? t | None => true end.

(** The row of a run taken over by a worker. *)
Definition claimed (run : Run) (worker_id : pystr) (now lease_seconds : Z) : Run :=
  set_run_started_at (Some (default now (run_started_at run)))
    (set_run_lease_expires_at (Some (now + seconds lease_seconds))
      (set_run_fencing_token (run_fencing_token run + 1)
        (set_run_owner_worker_id (Some worker_id) run))).

(** [claim] *)
Definition claim (rid worker_id : pystr) (lease_seconds : option Z) : M RunRecord :=
  now ← utcnow;
  let lease_seconds := or_int lease_seconds (st_lease_seconds (env_settings env)) in
  transaction (
    db ← get_db;
    run ← require (db_runs db !! rid) (EApp run_not_found);
    let thread := db_threads db !! run_thread_ref_id run in
    let take_over :=
      run ← transition run RUNNING;
      let run := claimed run worker_id now lease_seconds in
      thread ← require thread ENone;
      '(run, _) ← append_event_in_session run (th_thread_id thread) RUN_STARTED
        [("status"%py, JStr (status_value (run_status run)));
         ("worker_id"%py, JStr worker_id);
         ("fencing_token"%py, JInt (run_fencing_token run))];
      flush;;
      mret (_record run (th_thread_id thread)) in
    match run_status run with
    | RUNNING =>
        if bool_decide (run_owner_worker_id run = Some worker_id)
           && lease_open (run_lease_expires_at run) now
        then thread ← require thread ENone; mret (_record run (th_thread_id thread))
        else if lease_live (run_lease_expires_at run) now
        then raise (EApp (app_error3 RUN_ACTIVE "Run 已被其他 worker 持有"%py 409))
        else take_over
    | PENDING => take_over
    | s => raise (state_conflict ("状态为 "%py +++ status_value s +++ " 的 Run 不能领取"%py)%py)
    end).

(** [heartbeat] *)
Definition heartbeat (rid worker_id : pystr) (fencing_token : Z) (lease_seconds : option Z) :
    M RunRecord :=
  let lease_seconds := or_int lease_seconds (st_lease_seconds (env_settings env)) in
  transaction (
    db ← get_db;
    run ← require (db_runs db !! rid) (EApp run_not_found);
    assert_fencing run (Some fencing_token);;
    raise_if (negb (bool_decide (run_owner_worker_id run = Some worker_id))
              || negb (bool_decide (run_status run = RUNNING)
                       || bool_decide (run_status run = CANCELLING))) not_owner;;
    now ← utcnow;
    updated ← utcnow;
    let run := set_run_updated_at updated
                 (set_run_lease_expires_at (Some (now + seconds lease_seconds)) run) in
    modify_db (put_run run);;
    thread ← require (db_threads db !! run_thread_ref_id run) ENone;
    mret (_record run (th_thread_id thread))).

(** Setting the status of a run's assistant message, when it has one. *)
Definition set_assistant_status (run : Run) (status : pystr) (now : M datetime) : M unit :=
  db ← get_db;
  match (mid ← run_assistant_message_id run; db_messages db !! mid) with
  | Some m =>
      t ← now;
      modify_db (put_message (set_msg_updated_at t (set_msg_status status m)))
  | None => mret tt
  end.

(** [set_waiting_input] *)
Definition set_waiting_input (rid worker_id : pystr) (fencing_token : Z) : M RunRecord :=
  transaction (
    db ← get_db;
    run ← require (db_runs db !! rid) (EApp run_not_found);
    assert_fencing run (Some fencing_token);;
    raise_if (negb (bool_decide (run_owner_worker_id run = Some worker_id))) not_owner;;
    run ← transition run WAITING_INPUT;
    let run := set_run_lease_expires_at None (set_run_owner_worker_id None run) in
    modify_db (put_run run);;
    set_assistant_status run "waiting_input"%py utcnow;;
    thread ← require (db_threads db !! run_thread_ref_id run) ENone;
    '(run, _) ← append_event_in_session run (th_thread_id thread) RUN_WAITING_INPUT
      [("status"%py, JStr (status_value (run_status run)))];
    mret (_record run (th_thread_id thread))).

(** [mark_cancelling] *)
Definition mark_cancelling (username rid : pystr) : M RunRecord :=
  transaction (
    db ← get_db;
    '(run, thread) ← require (run_row db rid (Some username)) (EApp run_not_found);
    if is_terminal (run_status run) || bool_decide (run_status run = CANCELLING)
    then mret (_record run (th_thread_id thread))
    else
      run ← transition run CANCELLING;
      modify_db (put_run run);;
      '(run, _) ← append_event_in_session run (th_thread_id thread) WARNING_CREATED
        [("code"%py, JStr "CANCEL_REQUESTED"%py);
         ("message"%py, JStr "用户已请求停止运行"%py)];
      mret (_record run (th_thread_id thread))).

(** ** Finalisation *)

Definition cancelled_message : pystr := "运行已由用户取消。"%py.

(** [_cancelled_public_error] *)
Definition _cancelled_public_error : PublicError :=
  public_error (error_code_value RUN_CANCELLED) cancelled_message 409 false
    (Some "run"%py) (Some "cancellation"%py) None None [].

(** [_message_status] *)
Definition _message_status (target : RunStatus) (partial : bool) : pystr :=
  if partial then "incomplete"%py
  else match target with
       | SUCCEEDED => "completed"%py
       | CANCELLED => "cancelled"%py
       | _ => "failed"%py
       end.

(** The oldest queued run of a thread. *)
Definition next_queued (db : Database) (thread_ref_id : Z) : option Run :=
  head (order_by run_created_at
    (rows_where (fun r => bool_decide (run_thread_ref_id r = thread_ref_id)
                          && bool_decide (run_status r = QUEUED)) (db_runs db))).

(** [_promote_next_queued] *)
Definition promote_next_queued (thread : Thread) (now : datetime) : M unit :=
  db ← get_db;
  match next_queued db (th_id thread) with
  | None => mret tt
  | Some queued =>
      let queued := set_run_updated_at now (set_run_status PENDING queued) in
      modify_db (put_run queued);;
      set_assistant_status queued "streaming"%py (mret now)
  end.

(** The keyword arguments of [finalize]. *)
Record FinalizeArgs := mkFinalizeArgs {
  fz_run_id : pystr;
  fz_target_status : RunStatus;
  fz_content : pystr;
  fz_fencing_token : option Z;
  fz_error_code : option pystr;
  fz_error_detail_redacted : option json;
  fz_input_tokens : Z;
  fz_output_tokens : Z;
  fz_cost : Decimal;
  fz_rag_trace : option json;
  fz_partial : bool;
  fz_lease_expired_before : option datetime
}.

(** The orphan test of [finalize]: with a lease bound given, the run must still
    hold a lease that expired before it. *)
Definition lease_still_expired (run : Run) (before : option datetime) : bool :=
  match before with
  | None => true
  | Some b =>
      (bool_decide (run_status run = RUNNING) || bool_decide (run_status run = CANCELLING))
      && match run_lease_expires_at run with Some t => t <? b | None => false end
  end.

(** A cancelling run ends cancelled whatever the caller asked for. *)
Definition resolve_cancelling (run : Run) (a : FinalizeArgs) : FinalizeArgs :=
  if bool_decide (run_status run = CANCELLING)
     && negb (bool_decide (fz_target_status a = CANCELLED))
  then
    let cancellation := _cancelled_public_error in
    {| fz_run_id := fz_run_id a;
       fz_target_status := CANCELLED;
       fz_content := if fz_partial a then fz_content a else pe_message cancellation;
       fz_fencing_token := fz_fencing_token a;
       fz_error_code := Some (pe_code cancellation);
       fz_error_detail_redacted := Some (serialize_public_error cancellation);
       fz_input_tokens := fz_input_tokens a;
       fz_output_tokens := fz_output_tokens a;
       fz_cost := fz_cost a;
       fz_rag_trace := fz_rag_trace a;
       fz_partial := true;
       fz_lease_expired_before := fz_lease_expired_before a |}
  else a.

(** The finished row, after the transition. *)
Definition finished (run : Run) (a : FinalizeArgs) (now : datetime) : Run :=
  set_run_cost (fz_cost a)
    (set_run_output_tokens (Z.max 0 (fz_output_tokens a))
      (set_run_input_tokens (Z.max 0 (fz_input_tokens a))
        (set_run_error_detail_redacted (fz_error_detail_redacted a)
          (set_run_error_code (fz_error_code a)
            (set_run_lease_expires_at None
              (set_run_finished_at (Some now) run)))))).

Definition terminal_event (target : RunStatus) : option RunEventType :=
  match target with
  | SUCCEEDED => Some RUN_COMPLETED
  | FAILED => Some RUN_FAILED
  | CANCELLED => Some RUN_CANCELLED_EVENT
  | _ => None
  end.

Definition opt_json (o : option json) : json := default JNull o.
Definition opt_jint (o : option Z) : json := match o with Some z => JInt z | None => JNull end.

(** The assistant message's final form. *)
Definition finish_message (assistant : option Message) (a : FinalizeArgs) (now : datetime) : M unit :=
  match assistant with
  | Some m =>
      modify_db (put_message
        (set_msg_updated_at now
          (set_msg_rag_trace (fz_rag_trace a)
            (set_msg_status (_message_status (fz_target_status a) (fz_partial a))
              (set_msg_content (fz_content a) m)))))
  | None => mret tt
  end.

(** The usage, message and terminal events of a finished run. *)
Definition finish_events (run : Run) (thread_id : pystr) (a : FinalizeArgs) : M Run :=
  run ← (if negb (fz_input_tokens a =? 0) || negb (fz_output_tokens a =? 0)
            || decimal_nonzero (fz_cost a)
         then
           '(run, _) ← append_event_in_session run thread_id USAGE_UPDATED
             [("input_tokens"%py, JInt (run_input_tokens run));
              ("output_tokens"%py, JInt (run_output_tokens run));
              ("cost"%py, JDecStr (run_cost run))];
           mret run
         else mret run);
  '(run, _) ← append_event_in_session run thread_id MESSAGE_COMPLETED
    [("message_id"%py, opt_jint (run_assistant_message_id run));
     ("content"%py, JStr (fz_content a));
     ("status"%py, JStr (_message_status (fz_target_status a) (fz_partial a)));
     ("rag_trace"%py, opt_json (fz_rag_trace a))];
  ty ← require (terminal_event (fz_target_status a)) EKey;
  '(run, _) ← append_event_in_session run thread_id ty
    [("status"%py, JStr (status_value (run_status run)));
     ("error_code"%py, opt_jstr (run_error_code run));
     ("error"%py, match deserialize_public_error (fz_error_detail_redacted a) with
                  | Some e => JObj (contract e)
                  | None => JNull
                  end);
     ("assistant_message_id"%py, opt_jint (run_assistant_message_id run))];
  mret run.

(** The body for a run that is not terminal yet. *)
Definition finalize_live (run : Run) (thread : Thread) (assistant : option Message)
    (a : FinalizeArgs) (now : datetime) : M RunRecord :=
  let a := resolve_cancelling run a in
  run ← transition run (fz_target_status a);
  let run := finished run a now in
  modify_db (put_run run);;
  finish_message assistant a now;;
  let thread := set_th_updated_at now thread in
  modify_db (put_thread thread);;
  run ← finish_events run (th_thread_id thread) a;
  flush;;
  promote_next_queued thread now;;
  flush;;
  mret (_record run (th_thread_id thread)).

(** [finalize] *)
Definition finalize (a : FinalizeArgs) : M RunRecord :=
  raise_if (negb (is_terminal (fz_target_status a)))
    (EValue "finalize target must be terminal"%py);;
  now ← utcnow;
  transaction (
    db ← get_db;
    run ← require (db_runs db !! fz_run_id a) (EApp run_not_found);
    let thread := db_threads db !! run_thread_ref_id run in
    let assistant := mid ← run_assistant_message_id run; db_messages db !! mid in
    assert_fencing run (fz_fencing_token a);;
    raise_if (negb (lease_still_expired run (fz_lease_expired_before a)))
      (state_conflict "Run lease 已续期或已被其他 worker 接管"%py);;
    if is_terminal (run_status run) then
      raise_if (negb (bool_decide (run_status run = fz_target_status a)))
        (state_conflict ("Run 已终结为 "%py +++ status_value (run_status run))%py);;
      thread ← require thread ENone;
      mret (_record run (th_thread_id thread))
    else
      thread ← require thread ENone;
      finalize_live run thread assistant a now).

(** ** Orphans *)

Definition orphan_message : pystr := "运行所属 worker 已失联，任务未完成。"%py.

Definition orphan_error : PublicError :=
  public_error "ORPHAN_RUN"%py orphan_message 503 true
    (Some "run"%py) (Some "ownership"%py) None None [].

(** The runs whose lease expired before [now]. *)
Definition orphan_candidates (db : Database) (now : datetime) : list (pystr * Z) :=
  (fun r => (run_id r, run_fencing_token r)) <$>
    rows_where (fun r =>
      (bool_decide (run_status r = RUNNING) || bool_decide (run_status r = CANCELLING))
      && match run_lease_expires_at r with Some t => t <? now | None => false end) (db_runs db).

Definition orphan_args (rid : pystr) (token : Z) (now : datetime) : FinalizeArgs := {|
  fz_run_id := rid;
  fz_target_status := FAILED;
  fz_content := orphan_message;
  fz_fencing_token := Some token;
  fz_error_code := Some "ORPHAN_RUN"%py;
  fz_error_detail_redacted := Some (serialize_public_error orphan_error);
  fz_input_tokens := 0;
  fz_output_tokens := 0;
  fz_cost := decimal_zero;
  fz_rag_trace := None;
  fz_partial := true;
  fz_lease_expired_before := Some now
|}.

(** What other processes do to the world, as a step of this one. *)
Definition interfere (f : World -> World) : M unit := fun w => (Ret tt, f w).

(** One turn of the loop: a conflict means that the run was renewed, taken over or
    ended in the meantime. *)
Definition recover_one (rid : pystr) (token : Z) (now : datetime) : M bool :=
  catch (_ ← finalize (orphan_args rid token now); mret true) (fun e =>
    match e with EApp _ => mret false | _ => raise e end).

(** Each candidate is finalised in its own transaction; other processes act before the
    [n]-th one ([others n]). *)
Fixpoint recover (others : nat -> World -> World) (n : nat) (candidates : list (pystr * Z)) (now : datetime) : M (list pystr) :=
  match candidates with
  | [] => mret []
  | (rid, token) :: rest =>
      interfere (others n);;
      done ← recover_one rid token now;
      recovered ← recover others (S n) rest now;
      mret (if done : bool then rid :: recovered else recovered)
  end.

(** [reconcile_orphans] *)
Definition reconcile_orphans (others : nat -> World -> World) (now : option datetime) : M (list pystr) :=
  now ← match now with Some t => mret t | None => utcnow end;
  db ← get_db;
  recover others 0 (orphan_candidates db now) now.

End Repository.
