(* ===== verification/Hitl.v ===== *)
(** * Human-in-the-loop checkpoints

    [HitlCheckpointRepository] of [backend/rag/checkpoint_runner.py] and the
    coordinator of [backend/runs/resume.py]: a running run is parked with a
    durable checkpoint and a one-time token; the answer consumes the token once
    and re-queues, or directly restarts, the same run. *)

From S2P Require Import Prelude PyBase Errors RunState Schema Session Effects Journal RunRepo.

Open Scope Z_scope.

(** ** Compact checkpoint documents *)

Definition RAG_TRACE_BULK_FIELDS : list pystr :=
  ["retrieved_chunks"; "initial_retrieved_chunks"; "rewrite_retrieved_chunks";
   "hitl_targeted_retrieved_chunks"; "sub_traces"]%py.

Definition key_in (ks : list pystr) (k : pystr) : bool := bool_decide (k ∈ ks).

Definition without_keys (ks : list pystr) (fields : list (pystr * json)) : list (pystr * json) :=
  List.filter (fun kv => negb (key_in ks kv.1)) fields.

(** [_compact_hitl_state] *)
Definition _compact_hitl_state (state : list (pystr * json)) : list (pystr * json) :=
  let compact := without_keys ["docs"; "context"; "sub_results"]%py state in
  match obj_get "rag_trace"%py state with
  | Some (JObj trace) =>
      obj_set "rag_trace"%py (JObj (without_keys RAG_TRACE_BULK_FIELDS trace)) compact
  | _ => compact
  end.

(** [state.get("docs") or []] *)
Definition docs_or_empty (state : list (pystr * json)) : json :=
  match obj_get "docs"%py state with
  | Some d => if truthy d then d else JArr []
  | None => JArr []
  end.

(** [_compact_resume_result] *)
Definition _compact_resume_result (state : list (pystr * json)) : list (pystr * json) :=
  obj_set "docs"%py (docs_or_empty state) (_compact_hitl_state state).

(** [dict.setdefault] *)
Definition obj_setdefault (k : pystr) (v : json) (fields : list (pystr * json)) :
    list (pystr * json) :=
  match obj_get k fields with Some _ => fields | None => obj_set k v fields end.

(** [_restore_resume_result] *)
Definition _restore_resume_result (state : list (pystr * json)) : list (pystr * json) :=
  match obj_get "docs"%py state with
  | Some (JArr (d :: ds)) =>
      let docs := JArr (d :: ds) in
      let trace := match obj_get "rag_trace"%py state with
                   | Some (JObj t) => t
                   | _ => []
                   end in
      let trace := obj_setdefault "retrieved_chunks"%py docs trace in
      let trace := if opt_truthy (obj_get "hitl_resumed"%py trace)
                   then obj_setdefault "hitl_targeted_retrieved_chunks"%py docs trace
                   else trace in
      obj_set "rag_trace"%py (JObj trace) state
  | _ => state
  end.

Record CheckpointPause := mkCheckpointPause {
  pa_run_id : pystr;
  pa_checkpoint_id : pystr;
  pa_interrupt_id : pystr;
  pa_hitl_token : pystr;
  pa_prompt : pystr;
  pa_options : json;
  pa_route : option json;
  pa_retrieval_status : option json
}.

Record ConsumedResume := mkConsumedResume {
  cr_checkpoint_id : pystr;
  cr_thread_id : pystr;
  cr_answer : pystr;
  cr_state : json;
  cr_next_nodes : list pystr;
  cr_fencing_token : Z;
  cr_already_consumed : bool;
  cr_should_resume : bool
}.

(** The locked authorisation state a preflight inspects. *)
Record ResumeAccessState := mkResumeAccessState {
  ra_user_db_id : Z;
  ra_username : pystr;
  ra_role : pystr;
  ra_skill_name : option pystr;
  ra_skill_version : option pystr;
  ra_skill_content_hash : option pystr;
  ra_skill_activation_source : option pystr
}.

Record PendingResume := mkPendingResume {
  pr_username : pystr;
  pr_run_id : pystr;
  pr_hitl_token : pystr;
  pr_answer : pystr;
  pr_idempotency_key : pystr
}.

Section Checkpoints.
Context (env : Env).

(** A preflight inspects the state and may refuse with an exception. *)
Context (preflight : ResumeAccessState -> option exn).

Definition run_preflight (s : ResumeAccessState) : M unit :=
  match preflight s with Some e => raise e | None => mret tt end.

Definition stale_token : exn := state_conflict "Run fencing token 已失效"%py.

(** [interrupt_value.get("options") or []], and its items as texts. *)
Definition options_of (interrupt_value : list (pystr * json)) : json :=
  match obj_get "options"%py interrupt_value with
  | Some o => if truthy o then o else JArr []
  | None => JArr []
  end.
Definition options_text (options : json) : json :=
  match options with
  | JArr items =>
      JArr ((fun j => match label_text (Some j) with Some s => JStr s | None => j end) <$> items)
  | o => o
  end.

(** The pause a checkpoint answers with; [interrupt_value] is the interrupt's
    document. *)
Definition pause_of (rid checkpoint_id interrupt_id token : pystr) (options : json)
    (interrupt_value : list (pystr * json)) : CheckpointPause := {|
  pa_run_id := rid;
  pa_checkpoint_id := checkpoint_id;
  pa_interrupt_id := interrupt_id;
  pa_hitl_token := token;
  pa_prompt := str_or_blank (obj_get "prompt"%py interrupt_value);
  pa_options := options;
  pa_route := obj_get "route"%py interrupt_value;
  pa_retrieval_status := obj_get "retrieval_status"%py interrupt_value
|}.

Definition find_checkpoint (db : Database) (rid checkpoint_id : pystr) : option RunCheckpoint :=
  first_where (fun c => bool_decide (cp_run_id c = rid)
                        && bool_decide (cp_checkpoint_id c = checkpoint_id)) (db_checkpoints db).

(** [record_pause] *)
Definition record_pause (rid worker_id : pystr) (fencing_token : Z)
    (checkpoint_id interrupt_id : pystr) (interrupt_value : list (pystr * json))
    (state : json) (next_nodes : list pystr) : M CheckpointPause :=
  transaction (
    db ← get_db;
    run ← require (db_runs db !! rid) (EApp run_not_found);
    match find_checkpoint db rid checkpoint_id with
    | Some existing =>
        match cp_consumed_at existing with
        | None =>
            raise_if (negb (run_fencing_token run =? fencing_token)) stale_token;;
            raise_if (negb (bool_decide (cp_interrupt_id existing = Some interrupt_id)))
              (state_conflict "checkpoint interrupt 标识不匹配"%py);;
            mret (pause_of rid checkpoint_id (or_str (cp_interrupt_id existing) interrupt_id)
                    (str_or_empty (cp_hitl_token existing)) (options_of interrupt_value)
                    interrupt_value)
        | Some _ =>
            raise (state_conflict "该 checkpoint 已完成恢复，不能再次暂停"%py)
        end
    | None =>
        raise_if (negb (bool_decide (run_owner_worker_id run = Some worker_id))
                  || negb (run_fencing_token run =? fencing_token)) not_owner;;
        raise_if (negb (bool_decide (run_status run = RUNNING)))
          (state_conflict ("状态为 "%py +++ status_value (run_status run)
                           +++ " 的 Run 不能进入 HITL"%py)%py);;
        thread ← require (db_threads db !! run_thread_ref_id run) ENone;
        u ← uuid4_hex;
        let hitl_token := ("hitl_"%py +++ u)%py in
        created ← utcnow;
        updated ← utcnow;
        let checkpoint :=
          mkRunCheckpoint (next_id (db_checkpoints db)) (run_id run) (th_id thread)
            (run_user_id run) checkpoint_id (Some hitl_token) (Some interrupt_id)
            None None state next_nodes None created updated in
        now ← utcnow;
        let run := set_run_updated_at now
                     (set_run_lease_expires_at None
                       (set_run_owner_worker_id None (set_run_status WAITING_INPUT run))) in
        modify_db (fun db => put_run run (put_checkpoint checkpoint db));;
        set_assistant_status run "waiting_input"%py utcnow;;
        '(run, _) ← append_event_in_session run (th_thread_id thread) RUN_WAITING_INPUT
          [("status"%py, JStr (status_value (run_status run)))];
        '(run, _) ← append_event_in_session run (th_thread_id thread) HITL_REQUIRED
          (obj_update [("hitl_token"%py, JStr hitl_token);
                       ("checkpoint_id"%py, JStr checkpoint_id)] interrupt_value);
        mret (pause_of rid checkpoint_id interrupt_id hitl_token
                (options_text (options_of interrupt_value)) interrupt_value)
    end).

(** The checkpoint joined with its run, thread and user. *)
Definition checkpoint_row (db : Database) (username rid token : pystr) :
    option (RunCheckpoint * Run * Thread * User) :=
  run ← db_runs db !! rid;
  thread ← db_threads db !! run_thread_ref_id run;
  user ← db_users db !! run_user_id run;
  checkpoint ← first_where (fun c => bool_decide (cp_run_id c = rid)
                                     && bool_decide (cp_hitl_token c = Some token))
                 (db_checkpoints db);
  if bool_decide (u_username user = username) then Some (checkpoint, run, thread, user) else None.

(** The id of the run's latest checkpoint. *)
Definition latest_checkpoint_id (db : Database) (rid : pystr) : option Z :=
  cp_id <$> head (order_by (fun c => - cp_id c)
    (rows_where (fun c => bool_decide (cp_run_id c = rid)) (db_checkpoints db))).

Definition resume_access (run : Run) (user : User) : ResumeAccessState :=
  mkResumeAccessState (u_id user) (u_username user) (u_role user) (run_skill_name run)
    (run_skill_version run) (run_skill_content_hash run) (run_skill_activation_source run).

(** The row of a run restarted by a worker. *)
Definition restarted (run : Run) (worker_id : pystr) (now : datetime) : Run :=
  set_run_lease_expires_at (Some (now + seconds (st_lease_seconds (env_settings env))))
    (set_run_fencing_token (run_fencing_token run + 1)
      (set_run_owner_worker_id (Some worker_id) (set_run_status RUNNING run))).

(** The [run.started] event of a resumed run. *)
Definition resumed_started (run : Run) (thread : Thread) (worker_id checkpoint_id : pystr) : M Run :=
  '(run, _) ← append_event_in_session run (th_thread_id thread) RUN_STARTED
    [("status"%py, JStr (status_value (run_status run)));
     ("worker_id"%py, JStr worker_id);
     ("fencing_token"%py, JInt (run_fencing_token run));
     ("resume_checkpoint_id"%py, JStr checkpoint_id)];
  mret run.

Definition answer_payload (answer : pystr) : json := JObj [("answer"%py, JStr answer)].

(** A second request for a consumed checkpoint: it must repeat the first, and a
    worker may pick up the latest one. *)
Definition replay_resume (checkpoint : RunCheckpoint) (run : Run) (thread : Thread)
    (is_latest : bool) (answer idempotency_key : pystr) (worker_id : option pystr) :
    M ConsumedResume :=
  raise_if (negb (bool_decide (cp_resume_idempotency_key checkpoint = Some idempotency_key)
                  && opt_py_eq (cp_resume_payload_json checkpoint) (Some (answer_payload answer))))
    (EApp (app_error3 IDEMPOTENCY_CONFLICT "该 HITL token 已被消费"%py 409));;
  '(run, should_resume) ←
    match worker_id with
    | Some w =>
        if py_nonempty w && is_latest then
          match run_status run with
          | PENDING =>
              now ← utcnow;
              updated ← utcnow;
              let run := set_run_updated_at updated (restarted run w now) in
              modify_db (put_run run);;
              run ← resumed_started run thread w (cp_checkpoint_id checkpoint);
              mret (run, true)
          | RUNNING =>
              raise_if (negb (bool_decide (run_owner_worker_id run = Some w)))
                (EApp (app_error3 RUN_ACTIVE "HITL 恢复已被其他 worker 领取"%py 409));;
              mret (run, true)
          | _ => mret (run, false)
          end
        else mret (run, false)
    | None => mret (run, false)
    end;
  mret {| cr_checkpoint_id := cp_checkpoint_id checkpoint;
          cr_thread_id := th_thread_id thread;
          cr_answer := answer;
          cr_state := cp_state_json checkpoint;
          cr_next_nodes := cp_next_nodes_json checkpoint;
          cr_fencing_token := run_fencing_token run;
          cr_already_consumed := true;
          cr_should_resume := should_resume |}.

(** The first answer: consume the checkpoint and re-queue or restart the run. *)
Definition accept_resume (checkpoint : RunCheckpoint) (run : Run) (thread : Thread)
    (answer idempotency_key : pystr) (worker_id : option pystr) : M ConsumedResume :=
  raise_if (negb (bool_decide (run_status run = WAITING_INPUT)))
    (state_conflict ("状态为 "%py +++ status_value (run_status run) +++ " 的 Run 不能恢复"%py)%py);;
  consumed ← utcnow;
  cp_updated ← utcnow;
  let checkpoint :=
    set_cp_updated_at cp_updated
      (set_cp_resume_payload_json (Some (answer_payload answer))
        (set_cp_resume_idempotency_key (Some idempotency_key)
          (set_cp_consumed_at (Some consumed) checkpoint))) in
  let worker := match worker_id with
                | Some w => if py_nonempty w then Some w else None
                | None => None
                end in
  run ← match worker with
        | Some w => now ← utcnow; mret (restarted run w now)
        | None => mret (set_run_lease_expires_at None
                          (set_run_owner_worker_id None (set_run_status PENDING run)))
        end;
  updated ← utcnow;
  let run := set_run_updated_at updated run in
  modify_db (fun db => put_run run (put_checkpoint checkpoint db));;
  set_assistant_status run "streaming"%py utcnow;;
  '(run, _) ← append_event_in_session run (th_thread_id thread) HITL_RESUMED
    [("checkpoint_id"%py, JStr (cp_checkpoint_id checkpoint));
     ("answer"%py, JStr answer);
     ("status"%py, JStr (status_value (run_status run)))];
  run ← match worker with
        | Some w => resumed_started run thread w (cp_checkpoint_id checkpoint)
        | None => mret run
        end;
  mret {| cr_checkpoint_id := cp_checkpoint_id checkpoint;
          cr_thread_id := th_thread_id thread;
          cr_answer := answer;
          cr_state := cp_state_json checkpoint;
          cr_next_nodes := cp_next_nodes_json checkpoint;
          cr_fencing_token := run_fencing_token run;
          cr_already_consumed := false;
          cr_should_resume := match worker with Some _ => true | None => false end |}.

(** Another checkpoint of the run that already used the idempotency key. *)
Definition conflicting_resume_key (db : Database) (rid key : pystr) (cid : Z) : bool :=
  match first_where (fun c => bool_decide (cp_run_id c = rid)
                              && bool_decide (cp_resume_idempotency_key c = Some key)
                              && negb (cp_id c =? cid)) (db_checkpoints db) with
  | Some _ => true
  | None => false
  end.

(** [consume_resume] *)
Definition consume_resume (username rid hitl_token answer idempotency_key : pystr)
    (worker_id : option pystr) : M ConsumedResume :=
  let clean_answer := py_strip answer in
  raise_if (negb (py_nonempty clean_answer)) (invalid_request "HITL answer 不能为空"%py);;
  catch (transaction (
    db ← get_db;
    '(checkpoint, run, thread, user) ← require (checkpoint_row db username rid hitl_token)
      (EApp (app_error3 RUN_NOT_FOUND "HITL checkpoint 不存在"%py 404));
    let is_latest := bool_decide (latest_checkpoint_id db rid = Some (cp_id checkpoint)) in
    run_preflight (resume_access run user);;
    raise_if (conflicting_resume_key db (run_id run) idempotency_key (cp_id checkpoint))
      (EApp (app_error3 IDEMPOTENCY_CONFLICT "该恢复幂等键已用于当前 Run 的其他 HITL 请求"%py 409));;
    match cp_consumed_at checkpoint with
    | Some _ => replay_resume checkpoint run thread is_latest clean_answer idempotency_key worker_id
    | None => accept_resume checkpoint run thread clean_answer idempotency_key worker_id
    end))
  (fun e => match e with
            | EIntegrity =>
                raise (EApp (app_error3 IDEMPOTENCY_CONFLICT "HITL 恢复请求发生幂等冲突"%py 409))
            | _ => raise e
            end).

(** [record_resume_result] *)
Definition record_resume_result (rid checkpoint_id worker_id : pystr) (fencing_token : Z)
    (state : list (pystr * json)) : M unit :=
  transaction (
    db ← get_db;
    let row := checkpoint ← find_checkpoint db rid checkpoint_id;
               run ← db_runs db !! rid;
               Some (checkpoint, run) in
    '(checkpoint, run) ← require row (state_conflict "HITL checkpoint 状态不存在"%py);
    raise_if (negb (run_fencing_token run =? fencing_token)) stale_token;;
    raise_if (bool_decide (run_status run = RUNNING)
              && negb (bool_decide (run_owner_worker_id run = Some worker_id))) not_owner;;
    now ← utcnow;
    modify_db (put_checkpoint
      (set_cp_updated_at now
        (set_cp_next_nodes_json []
          (set_cp_state_json (JObj (_compact_resume_result state)) checkpoint))))).

(** ** Pending resumes *)

(** Consumed checkpoints of pending runs, latest consumption first. *)
Definition pending_resume_rows (db : Database) : list (RunCheckpoint * Run * User) :=
  omap (fun c =>
    run ← db_runs db !! cp_run_id c;
    user ← db_users db !! run_user_id run;
    if bool_decide (run_status run = PENDING) then Some (c, run, user) else None)
  (order_by (fun c => - default 0 (cp_consumed_at c))
     (rows_where (fun c => bool_decide (is_Some (cp_consumed_at c))
                           && bool_decide (is_Some (cp_resume_idempotency_key c)))
        (db_checkpoints db))).

Fixpoint collect_resumes (seen : list pystr) (rows : list (RunCheckpoint * Run * User)) :
    list PendingResume :=
  match rows with
  | [] => []
  | (c, run, user) :: rest =>
      if bool_decide (run_id run ∈ seen) then collect_resumes seen rest
      else
        let payload := match cp_resume_payload_json c with Some (JObj p) => p | _ => [] end in
        let answer := py_strip (str_or_blank (obj_get "answer"%py payload)) in
        if negb (py_nonempty answer) || negb (opt_nonempty (cp_resume_idempotency_key c))
        then collect_resumes seen rest
        else
          mkPendingResume (u_username user) (run_id run) (str_or_empty (cp_hitl_token c)) answer
            (str_or_empty (cp_resume_idempotency_key c))
          :: collect_resumes (run_id run :: seen) rest
  end.

(** [list_pending_resumes] *)
Definition list_pending_resumes (limit : Z) : M (list PendingResume) :=
  db ← get_db;
  mret (collect_resumes []
          (take (Z.to_nat (Z.max 1 (Z.min limit 5000))) (pending_resume_rows db))).

(** ** Accepting an answer over HTTP *)

Record RunResumeAcceptance := mkRunResumeAcceptance {
  ac_run : RunRecord;
  ac_checkpoint_id : pystr;
  ac_created : bool
}.

(** [RunResumeCoordinator.accept] *)
Definition resume_accept (username rid hitl_token answer idempotency_key : pystr) :
    M RunResumeAcceptance :=
  consumed ← consume_resume username rid hitl_token answer idempotency_key None;
  run ← get username rid;
  mret (mkRunResumeAcceptance run (cr_checkpoint_id consumed)
          (negb (cr_already_consumed consumed))).

End Checkpoints.
