(* ===== verification/Threads.v ===== *)
(** * Threads and messages

    [backend/threads/repository.py] and [backend/threads/service.py]: the
    message journal of a thread with its optimistic version, the summaries with
    the run to show, the newest-first message window, deletion, and the
    application service on top with its cursor pagination. *)

From S2P Require Import Prelude PyBase Errors RunState Schema Session Effects Journal RunRepo.

Open Scope Z_scope.

Record MessageAppend := mkMessageAppend {
  ma_role : pystr;
  ma_content : pystr;
  ma_status : pystr;
  ma_run_id : option pystr;
  ma_client_message_id : option pystr;
  ma_content_json : option json;
  ma_rag_trace : option json
}.

Record MessageRecord := mkMessageRecord {
  mr_id : Z;
  mr_thread_id : pystr;
  mr_sequence : Z;
  mr_role : pystr;
  mr_content : pystr;
  mr_status : pystr;
  mr_run_id : option pystr;
  mr_client_message_id : option pystr;
  mr_timestamp : datetime;
  mr_updated_at : datetime;
  mr_rag_trace : option json;
  mr_skill_name : option pystr
}.

Record UserAccessSnapshot := mkUserAccessSnapshot {
  ua_user_db_id : Z;
  ua_username : pystr;
  ua_role : pystr
}.

Record ThreadSummaryRecord := mkThreadSummaryRecord {
  ts_thread_id : pystr;
  ts_title : pystr;
  ts_created_at : datetime;
  ts_updated_at : datetime;
  ts_message_count : Z;
  ts_version : Z;
  ts_thread_status : pystr;
  ts_active_run_id : option pystr;
  ts_active_run_status : option RunStatus
}.

(** [_active_run_priority] *)
Definition _active_run_priority (s : RunStatus) : Z :=
  match s with
  | RUNNING => 0
  | WAITING_INPUT => 1
  | CANCELLING => 2
  | PENDING => 3
  | QUEUED => 4
  | _ => 5
  end.

Section Repository.

(** [normalize_rag_trace] belongs to the RAG trace schema: a parameter here. *)
Context (normalize_rag_trace : option json -> option json).

(** [current_user_access] *)
Definition current_user_access (username : pystr) : M UserAccessSnapshot :=
  db ← get_db;
  user ← require (find_user db username) auth_required;
  mret (mkUserAccessSnapshot (u_id user) (u_username user) (u_role user)).

(** [ThreadRepository._get_or_create_thread] *)
Definition thread_get_or_create (user : User) (thread_id : pystr)
    (metadata : list (pystr * json)) : M Thread :=
  db ← get_db;
  match find_thread db (u_id user) thread_id with
  | Some thread => mret thread
  | None =>
      updated_at ← utcnow;
      created_at ← utcnow;
      let thread := mkThread (next_id (db_threads db)) (u_id user) thread_id "active"%py
                      0 0 0 metadata updated_at created_at in
      modify_db (put_thread thread);;
      flush;;
      mret thread
  end.

(** [ThreadRepository._record] *)
Definition message_record (m : Message) (thread_id : pystr) (skill_name : option pystr) :
    MessageRecord := {|
  mr_id := msg_id m;
  mr_thread_id := thread_id;
  mr_sequence := msg_sequence m;
  mr_role := msg_message_type m;
  mr_content := msg_content m;
  mr_status := msg_status m;
  mr_run_id := msg_run_id m;
  mr_client_message_id := msg_client_message_id m;
  mr_timestamp := msg_timestamp m;
  mr_updated_at := msg_updated_at m;
  mr_rag_trace := normalize_rag_trace (msg_rag_trace m);
  mr_skill_name := skill_name
|}.

(** [_assert_version] *)
Definition assert_version (thread : Thread) (expected : option Z) : M unit :=
  match expected with
  | Some v =>
      raise_if (negb (th_version thread =? v))
        (EApp (app_error CONFLICT "Thread 已被其他请求更新，请刷新后重试"%py 409 false
                 [("current_version"%py, JInt (th_version thread))] None None))
  | None => mret tt
  end.

(** The message with a client id in a thread. *)
Definition message_by_client (db : Database) (thread_ref_id : Z) (client_id : pystr) :
    option Message :=
  first_where (fun m => bool_decide (msg_thread_ref_id m = thread_ref_id)
                        && bool_decide (msg_client_message_id m = Some client_id))
    (db_messages db).

(** The write of [append_message]. *)
Definition append_row (thread : Thread) (message : MessageAppend)
    (metadata : list (pystr * json)) : M Message :=
  now ← utcnow;
  db ← get_db;
  let row := mkMessage (next_id (db_messages db)) (th_id thread) (ma_run_id message)
               (ma_client_message_id message) (th_last_sequence thread + 1) (ma_role message)
               (ma_content message) (ma_content_json message) (ma_status message) now now
               (normalize_rag_trace (ma_rag_trace message)) in
  let thread :=
    set_th_metadata_json (obj_update (th_metadata_json thread) metadata)
      (set_th_updated_at now
        (set_th_version (th_version thread + 1)
          (set_th_message_count (th_message_count thread + 1)
            (set_th_last_sequence (msg_sequence row) thread)))) in
  modify_db (fun db => put_thread thread (put_message row db));;
  flush;;
  mret row.

(** [append_message] *)
Definition append_message (username thread_id : pystr) (message : MessageAppend)
    (expected_version : option Z) (metadata : list (pystr * json)) : M (option MessageRecord) :=
  catch (transaction (
    db ← get_db;
    match find_user db username with
    | None => mret None
    | Some user =>
        thread ← thread_get_or_create user thread_id metadata;
        assert_version thread expected_version;;
        db ← get_db;
        let existing :=
          match ma_client_message_id message with
          | Some c => if py_nonempty c then message_by_client db (th_id thread) c else None
          | None => None
          end in
        match existing with
        | Some m => mret (Some (message_record m thread_id None))
        | None =>
            row ← append_row thread message metadata;
            mret (Some (message_record row thread_id None))
        end
    end))
  (fun e => match e with
            | EIntegrity =>
                raise (EApp (app_error CONFLICT "消息序号或幂等键冲突，请重试"%py 409 true [] None None))
            | _ => raise e
            end).

(** [create_assistant_placeholder] *)
Definition create_assistant_placeholder (username thread_id rid : pystr)
    (expected_version : option Z) : M (option MessageRecord) :=
  append_message username thread_id
    (mkMessageAppend "ai"%py ""%py "streaming"%py (Some rid)
       (Some (rid +++ ":assistant"%py)%py) None None)
    expected_version [].

(** [finalize_message] *)
Definition finalize_message (username thread_id : pystr) (message_id : Z)
    (content status : pystr) (rag_trace : option json) : M (option MessageRecord) :=
  transaction (
    db ← get_db;
    match find_user db username with
    | None => mret None
    | Some user =>
        match find_thread db (u_id user) thread_id with
        | None => mret None
        | Some thread =>
            match db_messages db !! message_id with
            | None => mret None
            | Some row =>
                if negb (bool_decide (msg_thread_ref_id row = th_id thread)) then mret None
                else
                  let trace := normalize_rag_trace rag_trace in
                  if bool_decide (msg_content row = content)
                     && bool_decide (msg_status row = status)
                     && opt_py_eq (msg_rag_trace row) trace
                  then mret (Some (message_record row thread_id None))
                  else
                    now ← utcnow;
                    let row := set_msg_updated_at now
                                 (set_msg_rag_trace trace
                                   (set_msg_status status (set_msg_content content row))) in
                    modify_db (fun db =>
                      put_thread (set_th_updated_at now thread) (put_message row db));;
                    flush;;
                    mret (Some (message_record row thread_id None))
            end
        end
    end).

(** The messages of a thread below a cursor, newest first. *)
Definition messages_before (db : Database) (thread_ref_id : Z) (before : option Z) : list Message :=
  order_by (fun m => - msg_sequence m)
    (rows_where (fun m => bool_decide (msg_thread_ref_id m = thread_ref_id)
                          && match before with Some b => msg_sequence m <? b | None => true end)
       (db_messages db)).

Definition message_skill (db : Database) (m : Message) : option pystr :=
  rid ← msg_run_id m; run ← db_runs db !! rid; run_skill_name run.

(** [list_messages_before] *)
Definition list_messages_before (username thread_id : pystr) (before : option Z) (limit : Z) :
    M (option (list MessageRecord)) :=
  db ← get_db;
  mret (user ← find_user db username;
        thread ← find_thread db (u_id user) thread_id;
        Some ((fun m => message_record m thread_id (message_skill db m)) <$>
                take (Z.to_nat (Z.max 1 (Z.min limit 501)))
                  (messages_before db (th_id thread) before))).

(** [_summary_record] *)
Definition summary_record (thread : Thread) (active_run : option Run) : ThreadSummaryRecord := {|
  ts_thread_id := th_thread_id thread;
  ts_title := let t := str_or_blank (obj_get "title"%py (th_metadata_json thread)) in
              if py_nonempty t then t else th_thread_id thread;
  ts_created_at := th_created_at thread;
  ts_updated_at := th_updated_at thread;
  ts_message_count := th_message_count thread;
  ts_version := th_version thread;
  ts_thread_status := th_status thread;
  ts_active_run_id := run_id <$> active_run;
  ts_active_run_status := run_status <$> active_run
|}.

(** [ThreadRepository.create_thread] *)
Definition repo_create_thread (username thread_id : pystr) (title : option pystr) : M unit :=
  transaction (
    db ← get_db;
    user ← require (find_user db username) auth_required;
    let title := match title with Some t => if py_nonempty t then Some t else None | None => None end in
    thread ← thread_get_or_create user thread_id
               (match title with Some t => [("title"%py, JStr t)] | None => [] end);
    match title with
    | Some t =>
        if titled (th_metadata_json thread) then mret tt
        else modify_db (put_thread (set_th_metadata_json
               (obj_set "title"%py (JStr t) (th_metadata_json thread)) thread))
    | None => mret tt
    end).

(** The run a summary shows: not terminal, by priority, then oldest. *)
Definition summary_run (db : Database) (thread_ref_id : Z) : option Run :=
  head (order_by (fun r => _active_run_priority (run_status r))
    (order_by run_created_at
      (rows_where (fun r => bool_decide (run_thread_ref_id r = thread_ref_id)
                            && negb (is_terminal (run_status r))) (db_runs db)))).

(** [get_thread_summary] *)
Definition get_thread_summary (username thread_id : pystr) : M (option ThreadSummaryRecord) :=
  db ← get_db;
  mret (user ← find_user db username;
        thread ← find_thread db (u_id user) thread_id;
        Some (summary_record thread (summary_run db (th_id thread)))).

(** [list_thread_summaries]: one summary per thread, most recently updated first. *)
Definition list_thread_summaries (username : pystr) : M (list ThreadSummaryRecord) :=
  db ← get_db;
  mret (match find_user db username with
        | None => []
        | Some user =>
            (fun t => summary_record t (summary_run db (th_id t))) <$>
              order_by (fun t => - th_updated_at t)
                (rows_where (fun t => bool_decide (th_user_id t = u_id user)) (db_threads db))
        end).

(** Deleting a thread removes its messages, runs, events and checkpoints; audits
    and messages elsewhere that refer to one of its runs keep their row without it. *)
Definition cascade_delete (thread : Thread) (db : Database) : Database :=
  let tid := th_id thread in
  let gone rid := match db_runs db !! rid with
                  | Some r => bool_decide (run_thread_ref_id r = tid)
                  | None => false
                  end in
  {| db_users := db_users db;
     db_threads := delete tid (db_threads db);
     db_runs := filter (fun kv => run_thread_ref_id kv.2 <> tid) (db_runs db);
     db_messages := (fun m => if match msg_run_id m with Some r => gone r | None => false end
                              then set_msg_run_id None m else m) <$>
                      filter (fun kv => msg_thread_ref_id kv.2 <> tid) (db_messages db);
     db_events := List.filter (fun e => negb (gone (ev_run_id e))) (db_events db);
     db_checkpoints := filter (fun kv => gone (cp_run_id kv.2) = false) (db_checkpoints db);
     db_outbox := db_outbox db;
     db_audits := (fun a => if match ta_run_id a with Some r => gone r | None => false end
                            then set_ta_run_id None a else a) <$> db_audits db |}.

(** [ThreadRepository.delete_thread] *)
Definition repo_delete_thread (username thread_id : pystr) : M bool :=
  transaction (
    db ← get_db;
    match find_user db username with
    | None => mret false
    | Some user =>
        match find_thread db (u_id user) thread_id with
        | None => mret false
        | Some thread =>
            match first_where (fun r => bool_decide (run_thread_ref_id r = th_id thread)
                                        && negb (is_terminal (run_status r))) (db_runs db) with
            | Some active =>
                raise (EApp (app_error RUN_ACTIVE "Thread 仍有活跃 Run，请先取消或等待运行结束"%py
                               409 false
                               [("active_run_id"%py, JStr (run_id active));
                                ("active_run_status"%py, JStr (status_value (run_status active)))]
                               None None))
            | None => modify_db (cascade_delete thread);; mret true
            end
        end
    end).

(** ** Service *)

Record ThreadMessage := mkThreadMessage {
  tm_id : Z;
  tm_run_id : option pystr;
  tm_sequence : Z;
  tm_status : pystr;
  tm_role : pystr;
  tm_content : pystr;
  tm_timestamp : datetime;
  tm_rag_trace : option json;
  tm_skill_name : option pystr
}.

Record ThreadMessagePage := mkThreadMessagePage {
  tp_messages : list ThreadMessage;
  tp_previous_cursor : option Z
}.

(** [_message_role] *)
Definition _message_role (value : pystr) : M pystr :=
  if bool_decide (value = "human"%py) then mret "user"%py
  else if bool_decide (value = "ai"%py) then mret "assistant"%py
  else if bool_decide (value = "system"%py) then mret "system"%py
  else raise (ERuntime ("unsupported durable Message role: "%py +++ value)%py).

(** [_message] *)
Definition _message (r : MessageRecord) : M ThreadMessage :=
  role ← _message_role (mr_role r);
  mret (mkThreadMessage (mr_id r) (mr_run_id r) (mr_sequence r) (mr_status r) role
          (mr_content r) (mr_timestamp r) (mr_rag_trace r) (mr_skill_name r)).

(** [ThreadService.create_thread] *)
Definition create_thread (username : pystr) (thread_id title : option pystr) :
    M ThreadSummaryRecord :=
  candidate ← match thread_id with
              | Some t => if py_nonempty t then mret t
                          else u ← uuid4_hex; mret ("thread_"%py +++ u)%py
              | None => u ← uuid4_hex; mret ("thread_"%py +++ u)%py
              end;
  resolved_id ← validate_thread_id candidate;
  let compact := py_join " "%py (py_split (default ""%py title)) in
  raise_if (160 <? py_len compact) (EValue "title 不能超过 160 个字符"%py);;
  repo_create_thread username resolved_id (if py_nonempty compact then Some compact else None);;
  created ← get_thread_summary username resolved_id;
  require created (ERuntime "created Thread could not be reloaded"%py).

(** [ThreadService.list_threads] *)
Definition list_threads (username : pystr) : M (list ThreadSummaryRecord) :=
  list_thread_summaries username.

(** [ThreadService.recent_messages] *)
Definition recent_messages (username thread_id : pystr) (before : option Z) (limit : Z) :
    M ThreadMessagePage :=
  resolved_id ← validate_thread_id thread_id;
  raise_if (match before with Some b => b <? 1 | None => false end)
    (EValue "before 必须是正整数 sequence"%py);;
  raise_if (negb ((1 <=? limit) && (limit <=? 500))) (EValue "limit 必须在 1 到 500 之间"%py);;
  found ← list_messages_before username resolved_id before (limit + 1);
  rows ← require found (EApp (app_error3 NOT_FOUND "Thread 不存在"%py 404));
  let has_previous := limit <? Z.of_nat (length rows) in
  let selected := take (Z.to_nat limit) rows in
  messages ← mapM _message (rev selected);
  mret (mkThreadMessagePage messages
          (if has_previous then tm_sequence <$> head messages else None)).

(** [ThreadService.delete_thread] *)
Definition delete_thread (username thread_id : pystr) : M bool :=
  resolved_id ← validate_thread_id thread_id;
  repo_delete_thread username resolved_id.

End Repository.
