(* ===== verification/RunMachine.v ===== *)
(** * The run machine

    What the runtime promises about runs, without messages, events or time-outs:
    a run is its thread, its admission time, its status and its ownership (worker,
    fencing token, lease). [abs_step] lists the moves a run may make; the
    invariants of the machine are proved by induction over them, and the
    transactions of the repositories refine it. *)

From S2P Require Import Prelude PyBase RunState Session Schema.

Open Scope Z_scope.

Record AbsRun := mkAbsRun {
  ar_thread : Z;
  ar_created : datetime;
  ar_status : RunStatus;
  ar_owner : option pystr;
  ar_token : Z;
  ar_lease : option datetime
}.

#[export] Instance AbsRun_eq_dec : EqDecision AbsRun.
Proof. solve_decision. Defined.

Definition abs_run (r : Run) : AbsRun :=
  mkAbsRun (run_thread_ref_id r) (run_created_at r) (run_status r) (run_owner_worker_id r)
    (run_fencing_token r) (run_lease_expires_at r).

Definition abs (db : Database) : gmap pystr AbsRun := abs_run <$> db_runs db.

(** The active and the queued runs of a thread. *)
Definition ar_active (r : AbsRun) : bool := is_active (ar_status r).

Definition occupied (m : gmap pystr AbsRun) (t : Z) : Prop :=
  exists i r, m !! i = Some r /\ ar_thread r = t /\ ar_active r = true.

Definition queued_in (m : gmap pystr AbsRun) (t : Z) (i : pystr) (r : AbsRun) : Prop :=
  m !! i = Some r /\ ar_thread r = t /\ ar_status r = QUEUED.

(** Moves of a single row. *)
Definition ar_claimed (r : AbsRun) (w : pystr) (lease : datetime) : AbsRun :=
  mkAbsRun (ar_thread r) (ar_created r) RUNNING (Some w) (ar_token r + 1) (Some lease).
Definition ar_renewed (r : AbsRun) (lease : datetime) : AbsRun :=
  mkAbsRun (ar_thread r) (ar_created r) (ar_status r) (ar_owner r) (ar_token r) (Some lease).
Definition ar_released (r : AbsRun) (s : RunStatus) : AbsRun :=
  mkAbsRun (ar_thread r) (ar_created r) s None (ar_token r) None.
Definition ar_marked (r : AbsRun) : AbsRun :=
  mkAbsRun (ar_thread r) (ar_created r) CANCELLING (ar_owner r) (ar_token r) (ar_lease r).
Definition ar_finished (r : AbsRun) (s : RunStatus) : AbsRun :=
  mkAbsRun (ar_thread r) (ar_created r) s (ar_owner r) (ar_token r) None.
Definition ar_promoted (r : AbsRun) : AbsRun :=
  mkAbsRun (ar_thread r) (ar_created r) PENDING (ar_owner r) (ar_token r) (ar_lease r).

(** The thread's oldest queued run, if there is one, becomes pending. *)
Inductive promote (t : Z) (m : gmap pystr AbsRun) : gmap pystr AbsRun -> Prop :=
| promote_none : (forall i r, ~ queued_in m t i r) -> promote t m m
| promote_oldest i r :
    queued_in m t i r -> (forall j x, queued_in m t j x -> ar_created r <= ar_created x) ->
    promote t m (<[i := ar_promoted r]> m).

Definition claimable (s : RunStatus) : bool :=
  match s with PENDING | RUNNING | WAITING_INPUT => true | _ => false end.

Inductive abs_step (m : gmap pystr AbsRun) : gmap pystr AbsRun -> Prop :=
| abs_admit i t now token :
    m !! i = None -> ~ occupied m t ->
    abs_step m (<[i := mkAbsRun t now PENDING None token None]> m)
| abs_enqueue i t now token :
    m !! i = None -> occupied m t ->
    abs_step m (<[i := mkAbsRun t now QUEUED None token None]> m)
| abs_claim i r w lease :
    m !! i = Some r -> claimable (ar_status r) = true ->
    abs_step m (<[i := ar_claimed r w lease]> m)
| abs_renew i r lease :
    m !! i = Some r -> ar_status r = RUNNING \/ ar_status r = CANCELLING ->
    is_Some (ar_owner r) ->
    abs_step m (<[i := ar_renewed r lease]> m)
| abs_pause i r :
    m !! i = Some r -> ar_status r = RUNNING ->
    abs_step m (<[i := ar_released r WAITING_INPUT]> m)
| abs_requeue i r :
    m !! i = Some r -> ar_status r = WAITING_INPUT ->
    abs_step m (<[i := ar_released r PENDING]> m)
| abs_mark i r :
    m !! i = Some r -> claimable (ar_status r) = true ->
    abs_step m (<[i := ar_marked r]> m)
| abs_finish i r s m' :
    m !! i = Some r -> is_terminal (ar_status r) = false -> is_terminal s = true ->
    can_transition (ar_status r) s = true ->
    (ar_status r = CANCELLING -> s = CANCELLED) ->
    (ar_active r = true \/
       forall j x, j <> i -> ~ queued_in m (ar_thread r) j x) ->
    promote (ar_thread r) (<[i := ar_finished r s]> m) m' ->
    abs_step m m'
| abs_delete t :
    (forall i r, m !! i = Some r -> ar_thread r = t -> is_terminal (ar_status r) = true) ->
    abs_step m (filter (fun kv => ar_thread kv.2 <> t) m).

(** ** Invariants *)

(** Ownership by status: a run in execution has a worker and a lease, a run that
    waits has neither, a finished run has no lease. *)
Definition ownership_ok (r : AbsRun) : Prop :=
  match ar_status r with
  | QUEUED | PENDING | WAITING_INPUT => ar_owner r = None /\ ar_lease r = None
  | RUNNING => is_Some (ar_owner r) /\ is_Some (ar_lease r)
  | CANCELLING => is_Some (ar_owner r) <-> is_Some (ar_lease r)
  | SUCCEEDED | FAILED | CANCELLED => ar_lease r = None
  end.

Record abs_inv (m : gmap pystr AbsRun) : Prop := mkAbsInv {
  (** at most one active run per thread *)
  inv_exclusive : forall i j x y, m !! i = Some x -> m !! j = Some y ->
    ar_thread x = ar_thread y -> ar_active x = true -> ar_active y = true -> i = j;
  (** a queued run waits behind an active one *)
  inv_queue : forall i r, m !! i = Some r -> ar_status r = QUEUED -> occupied m (ar_thread r);
  inv_ownership : forall i r, m !! i = Some r -> ownership_ok r
}.

Lemma abs_inv_empty : abs_inv (∅ : gmap pystr AbsRun).
Proof.
  constructor; [intros i j x y H|intros i r H..]; by rewrite lookup_empty in H.
Qed.

(** A move of one row within its thread that keeps it active keeps the first two
    invariants. *)
Lemma occupied_insert m i r r' t :
  m !! i = Some r -> ar_thread r' = ar_thread r -> (ar_active r = true -> ar_active r' = true) ->
  occupied m t -> occupied (<[i := r']> m) t.
Proof.
  intros Hi Et Ea (j & x & Hj & Hx & Ha). destruct (decide (j = i)) as [->|N].
  - exists i, r'. rewrite lookup_insert_eq. simplify_eq. split_and!; [done|congruence|auto].
  - exists j, x. by rewrite lookup_insert_ne.
Qed.

Ltac abs_cases :=
  repeat match goal with
  | H : <[_ := _]> _ !! _ = Some _ |- _ =>
      apply lookup_insert_Some in H as [[<- <-]|[? H]]
  end.

Lemma abs_inv_move m i r r' :
  abs_inv m -> m !! i = Some r -> ar_thread r' = ar_thread r ->
  ar_active r = true -> ar_active r' = true -> ownership_ok r' ->
  abs_inv (<[i := r']> m).
Proof.
  intros [I1 I2 I3] Hi Et Ha Ha' Ho. constructor.
  - intros i1 i2 x y H1 H2 E A1 A2. abs_cases; try done.
    + eapply (I1 i1 i x r); try done. congruence.
    + eapply (I1 i i2 r y); try done. congruence.
    + eauto.
  - intros j x Hj Hq. eapply occupied_insert; eauto. abs_cases.
    + unfold ar_active in Ha'. by rewrite Hq in Ha'.
    + eauto.
  - intros j x Hj. abs_cases; eauto.
Qed.

Lemma claimable_active s : claimable s = true -> is_active s = true.
Proof. by destruct s. Qed.

Lemma occupied_fresh m i r t : m !! i = None -> occupied m t -> occupied (<[i := r]> m) t.
Proof.
  intros Hi (j & x & Hj & ?). exists j, x. rewrite lookup_insert_ne by congruence. done.
Qed.

(** A new run is admitted into a free thread or queued behind the active one. *)
Lemma abs_inv_new m i r :
  abs_inv m -> m !! i = None -> ar_owner r = None -> ar_lease r = None ->
  (ar_status r = PENDING /\ ~ occupied m (ar_thread r)) \/
  (ar_status r = QUEUED /\ occupied m (ar_thread r)) ->
  abs_inv (<[i := r]> m).
Proof.
  intros [I1 I2 I3] Hi Ho Hl Hs. constructor.
  - intros i1 i2 x y H1 H2 E A1 A2. unfold ar_active in *.
    destruct Hs as [[Hs N]|[Hs N]]; abs_cases; try done; try (by rewrite Hs in *).
    + destruct N. exists i1, x. split_and!; done.
    + destruct N. exists i2, y. split_and!; done.
    + eauto.
    + eauto.
  - intros j x Hj Hq. apply lookup_insert_Some in Hj as [[<- <-]|[N Hj]].
    + destruct Hs as [[Hs _]|[_ Hs]]; [congruence|by apply occupied_fresh].
    + apply occupied_fresh; eauto.
  - intros j x Hj. abs_cases; eauto. unfold ownership_ok.
    destruct Hs as [[-> _]|[-> _]]; done.
Qed.

Lemma abs_inv_delete m t :
  abs_inv m ->
  (forall i r, m !! i = Some r -> ar_thread r = t -> is_terminal (ar_status r) = true) ->
  abs_inv (filter (fun kv => ar_thread kv.2 <> t) m).
Proof.
  intros [I1 I2 I3] F. constructor.
  - intros i1 i2 x y [H1 _]%map_lookup_filter_Some [H2 _]%map_lookup_filter_Some. eauto.
  - intros i r [Hi Hn]%map_lookup_filter_Some Hq. simpl in Hn.
    destruct (I2 i r Hi Hq) as (j & x & Hj & Ex & Ha). exists j, x. split_and!; [|done..].
    apply map_lookup_filter_Some. simpl. split; congruence.
  - intros i r [Hi _]%map_lookup_filter_Some. eauto.
Qed.

(** Finishing a run: nothing in its thread stays queued behind nothing, because
    the oldest queued run takes the free place. *)
Lemma abs_inv_finish m i r s m' :
  abs_inv m -> m !! i = Some r -> is_terminal s = true ->
  (ar_active r = true \/ forall j x, j <> i -> ~ queued_in m (ar_thread r) j x) ->
  promote (ar_thread r) (<[i := ar_finished r s]> m) m' ->
  abs_inv m'.
Proof.
  intros [I1 I2 I3] Hi Hs Hq Hp.
  assert (Q : forall j x, queued_in (<[i := ar_finished r s]> m) (ar_thread r) j x ->
            j <> i /\ m !! j = Some x /\ ar_thread x = ar_thread r /\ ar_status x = QUEUED).
  { intros j x (Hj & ? & ?). abs_cases; simplify_eq/=; done. }
  assert (O : forall t, t <> ar_thread r -> occupied m t -> occupied (<[i := ar_finished r s]> m) t).
  { intros t N (j & x & Hj & Ht & Ha). exists j, x.
    rewrite lookup_insert_ne by congruence. done. }
  assert (A : ar_active (ar_finished r s) = false) by (by apply terminal_not_active).
  assert (I3' : forall j x, <[i := ar_finished r s]> m !! j = Some x -> ownership_ok x).
  { intros j x Hj. abs_cases; eauto. unfold ownership_ok. simpl. by destruct s. }
  destruct Hp as [Hn|q x Hx Hmin].
  - constructor; [| |done].
    + intros i1 i2 x y H1 H2 E A1 A2. abs_cases; try done; try congruence. eauto.
    + intros j x Hj Hst. destruct (decide (ar_thread x = ar_thread r)) as [E|N].
      * destruct (Hn j x). split_and!; done.
      * apply O; [done|]. abs_cases; [done|eauto].
  - destruct (Q q x Hx) as (Nq & Hqm & Et & Est).
    assert (Ha : ar_active r = true).
    { destruct Hq as [Hq|Hq]; [done|]. destruct (Hq q x Nq). split_and!; done. }
    constructor.
    + intros i1 i2 y z H1 H2 E A1 A2. abs_cases; try done; try congruence.
      * destruct (I1 i i1 r y); try done. simpl in E. congruence.
      * destruct (I1 i i2 r z); try done. simpl in E. congruence.
      * eauto.
    + intros j y Hj Hst. destruct (decide (ar_thread y = ar_thread r)) as [E|N].
      * exists q, (ar_promoted x). rewrite lookup_insert_eq. split_and!; [done|simpl; congruence|done].
      * assert (occupied m (ar_thread y)) as Oy.
        { abs_cases; simplify_eq/=; eauto. }
        eapply occupied_insert; [by rewrite lookup_insert_ne|done| |by apply O].
        unfold ar_active. by rewrite Est.
    + intros j y Hj. apply lookup_insert_Some in Hj as [[<- <-]|[_ Hj]]; [|eauto].
      specialize (I3 _ _ Hqm). unfold ownership_ok in *. rewrite Est in I3. done.
Qed.

Lemma abs_step_inv m m' : abs_inv m -> abs_step m m' -> abs_inv m'.
Proof.
  intros I [i t now tok Hi Ho|i t now tok Hi Ho|i r w l Hi Hc|i r l Hi Hs Ho|i r Hi Hs|i r Hi Hs
           |i r Hi Hc|i r s m1 Hi Ht Hs Hc Hcc Hq Hp|t Ht].
  - apply abs_inv_new; naive_solver.
  - apply abs_inv_new; naive_solver.
  - apply claimable_active in Hc. eapply abs_inv_move; try done.
  - eapply abs_inv_move; try done.
    + unfold ar_active. by destruct Hs as [-> | ->].
    + unfold ar_active. simpl. by destruct Hs as [-> | ->].
    + unfold ownership_ok. simpl. by destruct Hs as [-> | ->].
  - eapply abs_inv_move; try done. unfold ar_active. by rewrite Hs.
  - eapply abs_inv_move; try done. unfold ar_active. by rewrite Hs.
  - pose proof (inv_ownership _ I _ _ Hi) as Ho. pose proof (claimable_active _ Hc).
    eapply abs_inv_move; try done. unfold ownership_ok in *. simpl.
    destruct (ar_status r); try done.
    + destruct Ho as [-> ->]. by split; intros [].
    + tauto.
    + destruct Ho as [-> ->]. by split; intros [].
  - by eapply abs_inv_finish.
  - by apply abs_inv_delete.
Qed.

Lemma abs_steps_inv m m' : abs_inv m -> rtc abs_step m m' -> abs_inv m'.
Proof. intros I S. induction S; eauto using abs_step_inv. Qed.
