(* ===== verification/RunService.v ===== *)
(** * The run service

    [backend/runs/service.py]: the application interface shared by the HTTP
    routes and the execution workers. Every method delegates to the repository;
    the cancellation request chooses between an immediate finalisation and a
    cancellation mark by the run's state. *)

From S2P Require Import Prelude PyBase Errors RunState Schema Session Effects Journal RunRepo.

Open Scope Z_scope.

Section Service.
Context (env : Env).

(** [model_control.runtime_snapshot(required_roles={ANSWER})]: the catalogue the
    model control component serves at the moment of the call. *)
Context (runtime_snapshot : M ModelCatalogSnapshot).

Record CreateRunRequest := mkCreateRunRequest {
  cq_username : pystr;
  cq_thread_id : pystr;
  cq_message : pystr;
  cq_idempotency_key : pystr;
  cq_expected_thread_version : option Z;
  cq_multitask_strategy : option MultitaskStrategy;
  cq_on_disconnect : option pystr;
  cq_tenant_id : pystr;
  cq_channel : pystr;
  cq_approved_tools : gset pystr
}.

(** [model_snapshot.require(ModelRole.ANSWER).model_name] *)
Definition answer_model_name (s : ModelCatalogSnapshot) : M pystr :=
  spec ← require (obj_get "answer"%py (mcs_assignments s)) EKey;
  match spec with
  | JObj fields =>
      match obj_get "model_name"%py fields with
      | Some (JStr name) => mret name
      | _ => raise ENone
      end
  | _ => raise ENone
  end.

Definition run_title (compact_message : pystr) : pystr :=
  let t := py_take 16 (py_join " "%py (py_split compact_message)) in
  if py_nonempty t then t else "新会话"%py.

(** [create_run] *)
Definition create_run (allow_implicit_threads : bool) (c : CreateRunRequest) : M RunReservation :=
  let compact_message := py_strip (cq_message c) in
  model_snapshot ← runtime_snapshot;
  model_name ← answer_model_name model_snapshot;
  reserve env {|
    rq_username := cq_username c;
    rq_thread_id := cq_thread_id c;
    rq_message := compact_message;
    rq_idempotency_key := cq_idempotency_key c;
    rq_request_hash := None;
    rq_expected_thread_version := cq_expected_thread_version c;
    rq_model_name := model_name;
    rq_model_snapshot := Some model_snapshot;
    rq_on_disconnect := cq_on_disconnect c;
    rq_multitask_strategy := cq_multitask_strategy c;
    rq_title := Some (run_title compact_message);
    rq_tenant_id := cq_tenant_id c;
    rq_channel := cq_channel c;
    rq_approved_tools := cq_approved_tools c;
    rq_allow_implicit_thread := allow_implicit_threads |}.

(** [get_run] *)
Definition get_run (username rid : pystr) : M RunRecord := get username rid.

(** [claim_run] *)
Definition claim_run (rid worker_id : pystr) : M RunRecord := claim env rid worker_id None.

(** [heartbeat] *)
Definition heartbeat_run (rid worker_id : pystr) (fencing_token : Z) : M RunRecord :=
  heartbeat env rid worker_id fencing_token None.

(** [wait_for_input] *)
Definition wait_for_input (rid worker_id : pystr) (fencing_token : Z) : M RunRecord :=
  set_waiting_input rid worker_id fencing_token.

(** [complete_run] *)
Definition complete_args (rid content : pystr) (fencing_token : option Z)
    (input_tokens output_tokens : Z) (cost : Decimal) (rag_trace : option json) :
    FinalizeArgs :=
  mkFinalizeArgs rid SUCCEEDED content fencing_token None None input_tokens output_tokens
    cost rag_trace false None.
Definition complete_run (rid content : pystr) (fencing_token : option Z)
    (input_tokens output_tokens : Z) (cost : Decimal) (rag_trace : option json) : M RunRecord :=
  finalize (complete_args rid content fencing_token input_tokens output_tokens cost rag_trace).

(** The [public_error] argument of [fail_run]. *)
Inductive FailureCause :=
| CauseApp (e : AppError)
| CausePublic (e : PublicError)
| CauseNone.

Definition resolved_error (cause : FailureCause) (error_code message : option pystr) : PublicError :=
  match cause with
  | CauseApp e => public_error_from_exception e
  | CausePublic e => e
  | CauseNone =>
      public_error (or_str error_code (error_code_value RUN_EXECUTION_FAILED))
        (or_str message "运行失败，请稍后重试。"%py) 500 true
        (Some "run"%py) (Some "execution"%py) None None []
  end.

(** [fail_run] *)
Definition fail_args (rid : pystr) (error_code message : option pystr) (cause : FailureCause)
    (fencing_token : option Z) (partial : bool) : FinalizeArgs :=
  let e := resolved_error cause error_code message in
  mkFinalizeArgs rid FAILED (or_str message (pe_message e)) fencing_token (Some (pe_code e))
    (Some (serialize_public_error e)) 0 0 decimal_zero None partial None.
Definition fail_run (rid : pystr) (error_code message : option pystr) (cause : FailureCause)
    (fencing_token : option Z) (partial : bool) : M RunRecord :=
  finalize (fail_args rid error_code message cause fencing_token partial).

(** [reconcile_orphans] *)
Definition service_reconcile_orphans (others : nat -> World -> World) (now : option datetime) : M (list pystr) :=
  reconcile_orphans others now.

(** [request_cancel] *)
Definition cancel_args (rid : pystr) : FinalizeArgs :=
  let e := _cancelled_public_error in
  mkFinalizeArgs rid CANCELLED (pe_message e) None (Some (pe_code e))
    (Some (serialize_public_error e)) 0 0 decimal_zero None true None.
Definition request_cancel (username rid : pystr) : M RunRecord :=
  current ← get username rid;
  match rr_status current with
  | SUCCEEDED | FAILED | CANCELLED => mret current
  | QUEUED | PENDING | WAITING_INPUT => finalize (cancel_args rid)
  | RUNNING | CANCELLING => mark_cancelling username rid
  end.

End Service.
