(* ===== verification/EventBus.v ===== *)
(** * Publishing and subscribing

    [backend/events/outbox.py], [backend/events/bus.py], [backend/events/sse.py]
    and the adapter of [backend/events/redis_transport.py]. The journal is the
    durable truth; the Redis stream only wakes subscribers up. The stream server
    is a parameter: an [XADD] reply and the server's next state. *)

From S2P Require Import Prelude PyBase Errors RunState Schema Session Effects Journal RunRepo.

Open Scope Z_scope.

(** ** The stream adapter *)

(** A reply of the server to [XADD]: stored, an error whose message says the id is
    not larger than the newest one, or any other error. *)
Inductive XaddReply := XaddStored | XaddIdTooSmall | XaddFailed.

(** The commands of the stream server the adapter uses. *)
Class StreamServer (T : Type) := {
  xadd : pystr -> Z -> RunEventV1 -> T -> XaddReply * T
}.

Section Transport.
Context {T : Type} `{!StreamServer T} (key_prefix : pystr).

(** [_stream_key] *)
Definition _stream_key (rid : pystr) : pystr :=
  (key_prefix +++ ":run_events:v1:"%py +++ rid)%py.

(** [RedisEventTransport.publish]: [true] when it returns, [false] when it raises;
    an id that is already in the stream counts as delivered. *)
Definition transport_publish (e : RunEventV1) (s : T) : bool * T :=
  match xadd (_stream_key (v1_run_id e)) (v1_sequence e) e s with
  | (XaddStored, s') => (true, s')
  | (XaddIdTooSmall, s') => (true, s')
  | (XaddFailed, s') => (false, s')
  end.

(** ** The outbox publisher *)

Record OutboxItem := mkOutboxItem { oi_id : Z; oi_payload : RunEventV1 }.

(** The rows [_load_pending] selects, oldest first. *)
Definition pending_outbox (db : Database) : list TransactionOutbox :=
  order_by ob_id
    (rows_where (fun o => bool_decide (ob_topic o = "run_event"%py)
                          && bool_decide (ob_published_at o = None)) (db_outbox db)).

(** [_load_pending] *)
Definition _load_pending (limit : Z) : M (list OutboxItem) :=
  db ← get_db;
  mret ((fun o => mkOutboxItem (ob_id o) (ob_payload_json o)) <$>
          take (Z.to_nat limit) (pending_outbox db)).

(** [_mark_published] *)
Definition _mark_published (outbox_id : Z) : M unit := mark_outbox_published outbox_id.

(** [_mark_attempt] *)
Definition _mark_attempt (outbox_id : Z) : M unit :=
  transaction (
    db ← get_db;
    match db_outbox db !! outbox_id with
    | Some row => modify_db (put_outbox (set_ob_attempts (ob_attempts row + 1) row))
    | None => mret tt
    end).

(** The loop of [publish_pending]: stop at the first failure, which is counted as
    an attempt; the third component is the number published. *)
Fixpoint publish_items (items : list OutboxItem) (w : World) (s : T) (published : Z) :
    outcome Z * World * T :=
  match items with
  | [] => (Ret published, w, s)
  | item :: rest =>
      let failed_attempt w s :=
        match _mark_attempt (oi_id item) w with
        | (Ret _, w') => (Ret published, w', s)
        | (Raise e, w') => (Raise e, w', s)
        end in
      if event_valid (oi_payload item) then
        match transport_publish (oi_payload item) s with
        | (true, s') =>
            match _mark_published (oi_id item) w with
            | (Ret _, w') => publish_items rest w' s' (published + 1)
            | (Raise _, w') => failed_attempt w' s'
            end
        | (false, s') => failed_attempt w s'
        end
      else failed_attempt w s
  end.

(** [publish_pending] *)
Definition publish_pending (env : Env) (limit : option Z) (w : World) (s : T) :
    outcome Z * World * T :=
  match _load_pending (or_int limit (st_outbox_batch_size (env_settings env))) w with
  | (Ret items, w') => publish_items items w' s 0
  | (Raise e, w') => (Raise e, w', s)
  end.

(** ** The bus *)

(** [PersistentEventBus.publish]: the event is durable once it is appended; the
    transport, when there is one, and the outbox mark are best effort. *)
Definition bus_publish (has_transport : bool) (rid : pystr) (event_type : RunEventType) (data : list (pystr * json))
    (worker_id : option pystr) (fencing_token : option Z) (w : World) (s : T) :
    outcome RunEventV1 * World * T :=
  match journal_append rid event_type data worker_id fencing_token w with
  | (Raise e, w') => (Raise e, w', s)
  | (Ret appended, w') =>
      if negb has_transport then (Ret (ja_event appended), w', s) else
      match transport_publish (ja_event appended) s with
      | (true, s') => (Ret (ja_event appended), (mark_outbox_published (ja_outbox_id appended) w').2, s')
      | (false, s') => (Ret (ja_event appended), w', s')
      end
  end.

End Transport.

(** ** Subscribing *)

(** [event.type in TERMINAL_EVENT_TYPES] *)
Definition is_terminal_event (t : RunEventType) : bool :=
  match t with RUN_COMPLETED | RUN_FAILED | RUN_CANCELLED_EVENT => true | _ => false end.

(** The inner loop over one batch: what is yielded, the new cursor, and whether
    the generator returned. *)
Fixpoint drain (events : list RunEventV1) (cursor : Z) : list RunEventV1 * Z * bool :=
  match events with
  | [] => ([], cursor, false)
  | event :: rest =>
      if v1_sequence event <=? cursor then drain rest cursor
      else if is_terminal_event (v1_type event) then ([event], v1_sequence event, true)
      else let '(out, c, finished) := drain rest (v1_sequence event) in
           (event :: out, c, finished)
  end.

(** One poll of the journal; without a user name the read does not raise. *)
Definition poll (rid : pystr) (cursor : Z) (w : World) : list RunEventV1 :=
  match (read_after rid cursor 500 None w).1 with Ret events => events | Raise _ => [] end.

(** The generator's loop over the worlds its polls see, each with the state of the
    heartbeat timer at that time: [None] in the output is a heartbeat. *)
Fixpoint subscribe_loop (rid : pystr) (cursor : Z) (polls : list (World * bool)) :
    list (option RunEventV1) :=
  match polls with
  | [] => []
  | (w, heartbeat_due) :: rest =>
      match poll rid cursor w with
      | [] => if heartbeat_due : bool then None :: subscribe_loop rid cursor rest
              else subscribe_loop rid cursor rest
      | events =>
          let '(out, cursor', finished) := drain events cursor in
          (Some <$> out) ++ (if finished : bool then [] else subscribe_loop rid cursor' rest)
      end
  end.

(** [PersistentEventBus.subscribe] *)
Definition subscribe (username rid : pystr) (after : Z) (w : World) (polls : list (World * bool)) :
    outcome (list (option RunEventV1)) :=
  match assert_access username rid w with
  | (Ret _, _) => Ret (subscribe_loop rid (Z.max after 0) polls)
  | (Raise e, _) => Raise e
  end.

(** ** Server-sent events *)

(** [format_sse_event]; [dump] is the JSON text of the event. *)
Definition format_sse_event (dump : RunEventV1 -> pystr) (e : RunEventV1) : pystr :=
  ("id: "%py +++ py_str_int (v1_sequence e) +++ PyStr [10%N]
   +++ "event: "%py +++ event_type_value (v1_type e) +++ PyStr [10%N]
   +++ "data: "%py +++ dump e +++ PyStr [10%N; 10%N])%py.
