(* ===== verification/Changes.v ===== *)
(** * Database changes and the stored-data invariant

    Every transaction of the runtime other than the deletion of a thread is a
    sequence of a few kinds of change to the tables. [change] lists them; [db_wf] is the invariant of the stored data
    they all keep: primary and foreign keys, the gapless event journal of each
    run with its outbox mirror, and the gapless message journal of each thread. *)

From S2P Require Import Prelude PyBase Errors RunState Schema Session Effects Journal RunRepo Threads.

Open Scope Z_scope.

(** The columns of a run that are fixed by its reservation. *)
Definition run_core (r : Run) :=
  (run_id r, run_thread_ref_id r, run_user_id r,
   (run_tenant_id r, run_channel r, run_approved_tools_json r),
   (run_idempotency_key r, run_request_hash r),
   (run_model_name r, run_model_catalog_hash r, run_model_snapshot_json r),
   (run_on_disconnect r, run_multitask_strategy r),
   (run_user_message_id r, run_assistant_message_id r, run_supersedes_run_id r),
   (run_deadline_at r, run_created_at r)).

(** The columns of a thread other than its title and its modification time. *)
Definition thread_core (t : Thread) :=
  (th_id t, th_user_id t, th_thread_id t, th_status t,
   (th_version t, th_message_count t, th_last_sequence t), th_created_at t).

(** The columns of a message that its finalisation does not touch. *)
Definition message_core (m : Message) :=
  (msg_id m, msg_thread_ref_id m, msg_run_id m, msg_client_message_id m, msg_sequence m,
   msg_message_type m, msg_timestamp m).

Definition checkpoint_core (c : RunCheckpoint) :=
  (cp_id c, cp_run_id c, cp_thread_ref_id c, cp_user_id c, cp_checkpoint_id c,
   cp_hitl_token c, cp_interrupt_id c).

(** The answer a checkpoint received. *)
Definition answered (c : RunCheckpoint) :=
  (cp_consumed_at c, cp_resume_idempotency_key c, cp_resume_payload_json c).

Definition outbox_core (o : TransactionOutbox) :=
  (ob_id o, ob_topic o, ob_aggregate_id o, ob_payload_json o, ob_created_at o).

(** The version, the count and the last sequence number of a thread advance
    together with its messages. *)
Definition advance_thread (n : Z) (t : Thread) : Thread :=
  set_th_version (th_version t + n)
    (set_th_message_count (th_message_count t + n)
      (set_th_last_sequence (th_last_sequence t + n) t)).

(** A message of the thread with a given number, stored under a new key. *)
Definition fresh_message (db : Database) (t : Thread) (seq : Z) (m : Message) : Prop :=
  db_messages db !! msg_id m = None /\ msg_thread_ref_id m = th_id t /\ msg_sequence m = seq.

(** A row update of a run: the reservation columns and the event counter stay, and
    the status moves along the transition table. *)
Definition run_update (r r' : Run) : Prop :=
  run_core r' = run_core r /\ run_last_event_sequence r' = run_last_event_sequence r /\
  can_transition (run_status r) (run_status r') = true.

(** The ids an event of the run carries are well formed. *)
Definition run_names_ok (r : Run) (t : Thread) : Prop :=
  prefixed_id_ok "run_"%py (run_id r) 64 = true /\ thread_id_ok (th_thread_id t) = true.

Inductive change (db : Database) : Database -> Prop :=
| ch_thread t t' :
    db_threads db !! th_id t = Some t -> thread_core t' = thread_core t ->
    change db (put_thread t' db)
| ch_new_thread t :
    db_threads db !! th_id t = None -> is_Some (db_users db !! th_user_id t) ->
    th_version t = 0 -> th_message_count t = 0 -> th_last_sequence t = 0 ->
    change db (put_thread t db)
| ch_run r r' :
    db_runs db !! run_id r = Some r -> run_update r r' ->
    change db (put_run r' db)
| ch_append r r' e :
    db_runs db !! run_id r = Some r -> run_update r r' ->
    v1_run_id e = run_id r' -> v1_sequence e = run_last_event_sequence r' + 1 ->
    change db (put_outbox (outbox_row (next_id (db_outbox db)) e)
                (add_event (event_row e) (put_run (bump_sequence r') db)))
| ch_new_run t t' r u a :
    db_threads db !! th_id t = Some t -> thread_core t' = thread_core (advance_thread 2 t) ->
    db_runs db !! run_id r = None -> run_thread_ref_id r = th_id t ->
    run_user_id r = th_user_id t ->
    run_last_event_sequence r = 0 ->
    run_user_message_id r = Some (msg_id u) ->
    run_assistant_message_id r = Some (msg_id a) ->
    fresh_message db t (th_last_sequence t + 1) u ->
    fresh_message (put_message u db) t (th_last_sequence t + 2) a ->
    msg_run_id u = Some (run_id r) -> msg_run_id a = Some (run_id r) ->
    msg_message_type u = "human"%py -> msg_message_type a = "ai"%py ->
    run_names_ok r t ->
    change db (put_run r (put_thread t' (put_message a (put_message u db))))
| ch_new_message t t' m :
    db_threads db !! th_id t = Some t -> thread_core t' = thread_core (advance_thread 1 t) ->
    fresh_message db t (th_last_sequence t + 1) m ->
    change db (put_thread t' (put_message m db))
| ch_message m m' :
    db_messages db !! msg_id m = Some m -> message_core m' = message_core m ->
    change db (put_message m' db)
| ch_new_checkpoint c r :
    db_checkpoints db !! cp_id c = None -> db_runs db !! cp_run_id c = Some r ->
    cp_thread_ref_id c = run_thread_ref_id r -> cp_user_id c = run_user_id r ->
    change db (put_checkpoint c db)
| ch_checkpoint c c' :
    db_checkpoints db !! cp_id c = Some c -> checkpoint_core c' = checkpoint_core c ->
    (is_Some (cp_consumed_at c) -> answered c' = answered c) ->
    change db (put_checkpoint c' db)
| ch_audit a :
    db_audits db !! ta_id a = None -> change db (put_audit a db)
| ch_outbox o o' :
    db_outbox db !! ob_id o = Some o -> outbox_core o' = outbox_core o ->
    change db (put_outbox o' db).

Definition changes (db db' : Database) : Prop := rtc change db db'.

(** ** The invariant of the stored data *)

(** The journal of one run, in the order it was written. *)
Definition journal_of (db : Database) (rid : pystr) : list RunEvent :=
  List.filter (fun e => bool_decide (ev_run_id e = rid)) (db_events db).

(** The event row and the outbox row tell the same event. *)
Definition mirrors (e : RunEvent) (o : TransactionOutbox) : Prop :=
  ob_topic o = "run_event"%py /\ ob_aggregate_id o = ev_run_id e /\
  event_row (ob_payload_json o) = e.

Record db_wf (db : Database) : Prop := mkDbWf {
  wf_user_key : forall i u, db_users db !! i = Some u -> u_id u = i;
  wf_thread_key : forall i t, db_threads db !! i = Some t -> th_id t = i;
  wf_run_key : forall i r, db_runs db !! i = Some r -> run_id r = i;
  wf_message_key : forall i m, db_messages db !! i = Some m -> msg_id m = i;
  wf_checkpoint_key : forall i c, db_checkpoints db !! i = Some c -> cp_id c = i;
  wf_outbox_key : forall i o, db_outbox db !! i = Some o -> ob_id o = i;
  wf_audit_key : forall i a, db_audits db !! i = Some a -> ta_id a = i;
  wf_thread_user : forall i t, db_threads db !! i = Some t ->
    is_Some (db_users db !! th_user_id t);
  wf_run_thread : forall i r, db_runs db !! i = Some r ->
    exists t, db_threads db !! run_thread_ref_id r = Some t /\ run_user_id r = th_user_id t /\
      run_names_ok r t;
  wf_run_messages : forall i r, db_runs db !! i = Some r ->
    exists mu ma u a, run_user_message_id r = Some mu /\ run_assistant_message_id r = Some ma /\
      db_messages db !! mu = Some u /\ db_messages db !! ma = Some a /\
      msg_run_id u = Some i /\ msg_run_id a = Some i /\
      msg_message_type u = "human"%py /\ msg_message_type a = "ai"%py /\
      msg_thread_ref_id u = run_thread_ref_id r /\ msg_thread_ref_id a = run_thread_ref_id r /\
      msg_sequence a = msg_sequence u + 1;
  wf_message_thread : forall i m, db_messages db !! i = Some m ->
    exists t, db_threads db !! msg_thread_ref_id m = Some t /\
      1 <= msg_sequence m <= th_last_sequence t;
  wf_thread_messages : forall i t, db_threads db !! i = Some t ->
    0 <= th_last_sequence t /\ th_version t = th_last_sequence t /\
    th_message_count t = th_last_sequence t /\
    forall s, 1 <= s <= th_last_sequence t ->
      exists k m, db_messages db !! k = Some m /\ msg_thread_ref_id m = i /\ msg_sequence m = s;
  wf_checkpoint_run : forall i c, db_checkpoints db !! i = Some c ->
    exists r, db_runs db !! cp_run_id c = Some r /\
      cp_thread_ref_id c = run_thread_ref_id r /\ cp_user_id c = run_user_id r;
  wf_event_run : forall e, e ∈ db_events db -> is_Some (db_runs db !! ev_run_id e);
  wf_journal : forall i r, db_runs db !! i = Some r ->
    0 <= run_last_event_sequence r /\
    ev_sequence <$> journal_of db i = zrange 1 (Z.to_nat (run_last_event_sequence r));
  wf_event_outbox : forall e, e ∈ db_events db ->
    exists k o, db_outbox db !! k = Some o /\ mirrors e o
}.

(** ** Row updates

    [db_wf] reads only the columns the row updates keep: it respects the equality
    of the tables up to those columns. *)
Section same_rows.
Context {K V B : Type} `{Countable K} (f : V -> B).
Implicit Types m : gmap K V.

Definition same_rows m m' : Prop := f <$> m = f <$> m'.

Lemma same_rows_lookup m m' i x :
  same_rows m m' -> m !! i = Some x -> exists x', m' !! i = Some x' /\ f x = f x'.
Proof.
  intros E Hi. assert ((f <$> m') !! i = Some (f x)) as Hx.
  { unfold same_rows in E. by rewrite <- E, lookup_fmap, Hi. }
  apply lookup_fmap_Some in Hx as (y & ? & ?). eauto.
Qed.

Lemma same_rows_update m i x y :
  m !! i = Some x -> f y = f x -> same_rows (<[i := y]> m) m.
Proof.
  intros Hi Hf. unfold same_rows. rewrite fmap_insert, Hf. apply insert_id.
  by rewrite lookup_fmap, Hi.
Qed.
End same_rows.

#[export] Instance same_rows_refl {K V B} `{Countable K} (f : V -> B) :
  Reflexive (same_rows (K:=K) f).
Proof. by intros m. Qed.

Definition run_key (r : Run) := (run_core r, run_last_event_sequence r).

Record same_db (db db' : Database) : Prop := mkSameDb {
  same_users : db_users db' = db_users db;
  same_threads : same_rows thread_core (db_threads db') (db_threads db);
  same_runs : same_rows run_key (db_runs db') (db_runs db);
  same_messages : same_rows message_core (db_messages db') (db_messages db);
  same_events : db_events db' = db_events db;
  same_checkpoints : same_rows checkpoint_core (db_checkpoints db') (db_checkpoints db);
  same_outbox : same_rows outbox_core (db_outbox db') (db_outbox db);
  same_audits : db_audits db' = db_audits db
}.

#[export] Instance same_db_sym : Symmetric same_db.
Proof. intros db db' []. by constructor. Qed.

Ltac same_inv :=
  repeat match goal with
  | E : thread_core _ = thread_core _ |- _ => unfold thread_core in E; injection E as ?
  | E : run_key _ = run_key _ |- _ => unfold run_key, run_core in E; injection E as ?
  | E : message_core _ = message_core _ |- _ => unfold message_core in E; injection E as ?
  | E : checkpoint_core _ = checkpoint_core _ |- _ => unfold checkpoint_core in E; injection E as ?
  | E : outbox_core _ = outbox_core _ |- _ => unfold outbox_core in E; injection E as ?
  end.

(** Carry a row found in one table over to the other. *)
Ltac carry :=
  match goal with
  | S : same_rows ?f ?m ?m', H : ?m !! ?i = Some ?x |- _ =>
      lazymatch goal with
      | _ : m' !! i = Some _ |- _ => fail
      | _ => let y := fresh "y" in let Hy := fresh "Hy" in let E := fresh "E" in
             destruct (same_rows_lookup f m m' i x S H) as (y & Hy & E)
      end
  end.
Ltac row_key L := carry; same_inv; match goal with Hy : _ !! _ = Some ?y |- _ =>
  is_var y; apply L in Hy; congruence end.

Lemma db_wf_same db db' : same_db db db' -> db_wf db -> db_wf db'.
Proof.
  intros S W. pose proof (symmetry S) as S'. destruct S as [SU ST SR SM SE SC SO SA], S' as [SU' ST' SR' SM' SE' SC' SO' SA'].
  constructor; first [intros i x Hi | intros e He].
  - rewrite SU in Hi. by eapply (wf_user_key _ W).
  - row_key (wf_thread_key _ W).
  - row_key (wf_run_key _ W).
  - row_key (wf_message_key _ W).
  - row_key (wf_checkpoint_key _ W).
  - row_key (wf_outbox_key _ W).
  - rewrite SA in Hi. by eapply (wf_audit_key _ W).
  - carry. same_inv. apply (wf_thread_user _ W) in Hy. congruence.
  - carry. same_inv. apply (wf_run_thread _ W) in Hy as (t & Ht & ? & ? & ?).
    carry. same_inv. exists y0. split_and!; [congruence..|]. split; congruence.
  - carry. same_inv.
    apply (wf_run_messages _ W) in Hy as (mu & ma & u & a & ? & ? & ? & ? & Hx).
    destruct_and! Hx. repeat carry. same_inv. exists mu, ma, y1, y0.
    split_and!; first [eassumption|congruence].
  - carry. same_inv. apply (wf_message_thread _ W) in Hy as (t & Ht & ?).
    carry. same_inv. exists y0. split; [congruence|lia].
  - carry. same_inv. apply (wf_thread_messages _ W) in Hy as (? & ? & ? & F).
    split_and!; [lia..|]. intros s Hs. destruct (F s) as (k & m & ? & ? & ?); [lia|].
    carry. same_inv. exists k, y0. split_and!; congruence.
  - carry. same_inv. apply (wf_checkpoint_run _ W) in Hy as (r & Hr & ? & ?).
    carry. same_inv. exists y0. split_and!; congruence.
  - rewrite SE in He. apply (wf_event_run _ W) in He as [r Hr]. carry. eauto.
  - carry. same_inv. apply (wf_journal _ W) in Hy. unfold journal_of in *.
    rewrite SE. congruence.
  - rewrite SE in He. apply (wf_event_outbox _ W) in He as (k & o & Ho & M1 & M2 & M3).
    carry. same_inv. exists k, y. split; [done|]. split_and!; congruence.
Qed.

(** ** New rows *)

Lemma lookup_insert_fresh {K V} `{Countable K} (m : gmap K V) k v i x :
  m !! k = None -> m !! i = Some x -> <[k := v]> m !! i = Some x.
Proof. intros Hk Hi. rewrite lookup_insert_ne; [done|congruence]. Qed.
#[export] Hint Resolve lookup_insert_fresh : mew.

(** Split on the inserted key in every lookup of the context. *)
Ltac lookup_cases :=
  repeat match goal with
  | H : <[_ := _]> _ !! _ = Some _ |- _ =>
      apply lookup_insert_Some in H as [[<- <-]|[? H]]
  end.

Lemma wf_new_thread db t :
  db_wf db -> db_threads db !! th_id t = None -> is_Some (db_users db !! th_user_id t) ->
  th_version t = 0 -> th_message_count t = 0 -> th_last_sequence t = 0 ->
  db_wf (put_thread t db).
Proof.
  intros W Hf Hu Hv Hc Hs. constructor; simpl; first [intros i x Hi | intros e He]; lookup_cases;
    try (by eapply W); try done.
  - apply (wf_run_thread _ W) in Hi as (t' & Ht & ?). eauto with mew.
  - apply (wf_message_thread _ W) in Hi as (t' & Ht & ?). eauto with mew.
  - split_and!; [lia..|]. intros s. lia.
Qed.

(** Replacing a thread by one with a longer message journal keeps what the other
    tables ask of their threads. *)
Lemma lookup_longer (m : gmap Z Thread) t t' i x :
  m !! th_id t = Some t -> th_id t' = th_id t -> th_user_id t' = th_user_id t ->
  th_thread_id t' = th_thread_id t -> th_last_sequence t <= th_last_sequence t' -> m !! i = Some x ->
  exists y, <[th_id t' := t']> m !! i = Some y /\ th_user_id y = th_user_id x /\
    th_thread_id y = th_thread_id x /\ th_last_sequence x <= th_last_sequence y.
Proof.
  intros Ht E1 E2 E3 E4 Hi. destruct (decide (i = th_id t')) as [->|N].
  - exists t'. rewrite lookup_insert_eq. assert (x = t) as -> by congruence.
    split_and!; [done..|lia].
  - exists x. rewrite lookup_insert_ne by done. split_and!; [done..|lia].
Qed.

Lemma wf_new_message db t t' m :
  db_wf db -> db_threads db !! th_id t = Some t ->
  thread_core t' = thread_core (advance_thread 1 t) ->
  fresh_message db t (th_last_sequence t + 1) m ->
  db_wf (put_thread t' (put_message m db)).
Proof.
  intros W Ht Hc (Hm & Hmt & Hms). unfold thread_core in Hc. simpl in Hc.
  injection Hc as Eid Eu Et _ Ev Ec El _.
  pose proof (lookup_longer (db_threads db) t t') as L.
  pose proof (wf_thread_messages _ W _ _ Ht) as (? & ? & ? & F).
  constructor; simpl; first [intros i x Hi | intros e He]; lookup_cases;
    try (by eapply W); try done.
  - rewrite Eu. by eapply W.
  - apply (wf_run_thread _ W) in Hi as (u & Hu & ? & ? & ?).
    apply L in Hu as (y & ? & ? & ? & ?); [|done..|lia]. exists y.
    split_and!; [congruence..|]. split; congruence.
  - apply (wf_run_messages _ W) in Hi as (mu & ma & u & a & ? & ? & ? & ? & Hx).
    exists mu, ma, u, a. split_and!; try tauto; eauto with mew.
  - exists t'. rewrite Hmt, <- Eid, lookup_insert_eq. split; [done|lia].
  - apply (wf_message_thread _ W) in Hi as (u & Hu & ?).
    apply L in Hu as (y & ? & ? & ? & ?); [|done..|lia]. exists y. split; [done|lia].
  - split_and!; [lia..|]. intros s Hs. destruct (decide (s = th_last_sequence t + 1)) as [->|N].
    + exists (msg_id m), m. rewrite lookup_insert_eq. split_and!; congruence.
    + destruct (F s) as (k & y & ? & ? & ?); [lia|].
      exists k, y. split_and!; [eauto with mew|congruence|done].
  - apply (wf_thread_messages _ W) in Hi as (? & ? & ? & G). split_and!; [done..|].
    intros s Hs. destruct (G s Hs) as (k & y & ? & ? & ?). exists k, y.
    split_and!; eauto with mew.
Qed.

(** The journal of a run that was not stored is empty. *)
Lemma journal_fresh db rid :
  db_wf db -> db_runs db !! rid = None -> journal_of db rid = [].
Proof.
  intros W Hr. unfold journal_of. destruct (List.filter _ _) as [|e l] eqn:E; [done|].
  assert (e ∈ List.filter (fun e => bool_decide (ev_run_id e = rid)) (db_events db)) as He
    by (rewrite E; constructor).
  apply list_elem_of_In, filter_In in He as [He%list_elem_of_In Hb%bool_decide_eq_true].
  apply (wf_event_run _ W) in He as [r Hr']. congruence.
Qed.

Lemma wf_new_run_row db r t mu ma u a :
  db_wf db -> db_runs db !! run_id r = None ->
  db_threads db !! run_thread_ref_id r = Some t -> run_user_id r = th_user_id t ->
  run_last_event_sequence r = 0 ->
  run_user_message_id r = Some mu -> run_assistant_message_id r = Some ma ->
  db_messages db !! mu = Some u -> db_messages db !! ma = Some a ->
  msg_run_id u = Some (run_id r) -> msg_run_id a = Some (run_id r) ->
  msg_message_type u = "human"%py -> msg_message_type a = "ai"%py ->
  msg_thread_ref_id u = run_thread_ref_id r -> msg_thread_ref_id a = run_thread_ref_id r ->
  msg_sequence a = msg_sequence u + 1 -> run_names_ok r t ->
  db_wf (put_run r db).
Proof.
  intros W Hr Ht Hu Hs. intros.
  constructor; simpl; first [intros i x Hi | intros e He]; lookup_cases;
    try (by eapply W); try done.
  - eauto.
  - exists mu, ma, u, a. split_and!; done.
  - apply (wf_checkpoint_run _ W) in Hi as (y & Hy & ?). eauto with mew.
  - apply (wf_event_run _ W) in He as [y Hy]. eauto with mew.
  - rewrite Hs. split; [done|]. by rewrite (journal_fresh db (run_id r) W Hr : journal_of (put_run r db) _ = _).
Qed.

Lemma wf_new_run db t t' r u a :
  db_wf db ->
  db_threads db !! th_id t = Some t -> thread_core t' = thread_core (advance_thread 2 t) ->
  db_runs db !! run_id r = None -> run_thread_ref_id r = th_id t ->
  run_user_id r = th_user_id t -> run_last_event_sequence r = 0 ->
  run_user_message_id r = Some (msg_id u) -> run_assistant_message_id r = Some (msg_id a) ->
  fresh_message db t (th_last_sequence t + 1) u ->
  fresh_message (put_message u db) t (th_last_sequence t + 2) a ->
  msg_run_id u = Some (run_id r) -> msg_run_id a = Some (run_id r) ->
  msg_message_type u = "human"%py -> msg_message_type a = "ai"%py -> run_names_ok r t ->
  db_wf (put_run r (put_thread t' (put_message a (put_message u db)))).
Proof.
  intros W Ht Hc Hr Hrt Hru Hrs Hmu Hma Fu Fa Ru Ra Tu Ta No.
  pose proof (wf_new_message db t (advance_thread 1 t) u W Ht eq_refl Fu) as W1.
  set (db1 := put_thread (advance_thread 1 t) (put_message u db)) in *.
  assert (db_threads db1 !! th_id (advance_thread 1 t) = Some (advance_thread 1 t)) as Ht1
    by apply lookup_insert_eq.
  assert (db_wf (put_thread t' (put_message a db1))) as W2.
  { eapply (wf_new_message db1 (advance_thread 1 t) t' a W1 Ht1).
    - rewrite Hc. unfold thread_core. simpl. by rewrite <- !Z.add_assoc.
    - destruct Fa as (? & ? & Es). split_and!; [done..|]. rewrite Es. simpl. lia. }
  assert (th_id t' = th_id t /\ th_user_id t' = th_user_id t /\ th_thread_id t' = th_thread_id t)
    as (Eid & Eu & Et) by (unfold thread_core in Hc; simpl in Hc; by injection Hc).
  replace (put_thread t' (put_message a (put_message u db))) with (put_thread t' (put_message a db1)).
  2:{ unfold db1, put_thread, set_db_threads. simpl. f_equal. rewrite Eid. apply insert_insert_eq. }
  destruct Fu as (Fu1 & Fu2 & Fu3), Fa as (Fa1 & Fa2 & Fa3).
  eapply (wf_new_run_row _ r t' (msg_id u) (msg_id a) u a W2); simpl; try done; try congruence.
  - rewrite Hrt, <- Eid. apply lookup_insert_eq.
  - apply lookup_insert_fresh; [done|]. apply lookup_insert_eq.
  - apply lookup_insert_eq.
  - lia.
  - destruct No. split; congruence.
Qed.

(** ** Events *)

Lemma journal_of_append db o e r rid :
  journal_of (put_outbox o (add_event e (put_run r db))) rid =
    journal_of db rid ++ (if bool_decide (ev_run_id e = rid) then [e] else []).
Proof.
  unfold journal_of, add_event. simpl. rewrite List.filter_app. simpl.
  by case_bool_decide.
Qed.

Lemma wf_append db r e :
  db_wf db -> db_runs db !! run_id r = Some r ->
  v1_run_id e = run_id r -> v1_sequence e = run_last_event_sequence r + 1 ->
  db_wf (put_outbox (outbox_row (next_id (db_outbox db)) e)
           (add_event (event_row e) (put_run (bump_sequence r) db))).
Proof.
  intros W Hr He Hs. pose proof (next_id_fresh (db_outbox db)) as Ho.
  assert (L : forall i x, db_runs db !! i = Some x ->
    exists y, <[run_id r := bump_sequence r]> (db_runs db) !! i = Some y /\ run_core y = run_core x).
  { intros i x Hi. destruct (decide (i = run_id r)) as [->|N].
    - eexists. rewrite lookup_insert_eq. split; [done|]. by simplify_eq.
    - exists x. by rewrite lookup_insert_ne. }
  constructor; simpl; first [intros i x Hi | intros x Hx]; lookup_cases;
    try (by eapply W); try done.
  - apply (wf_run_thread _ W _ _ Hr).
  - apply (wf_run_messages _ W _ _ Hr).
  - apply (wf_checkpoint_run _ W) in Hi as (y & Hy & ? & ?). apply L in Hy as (z & ? & E).
    unfold run_core in E. injection E as ?. exists z. split_and!; congruence.
  - apply elem_of_app in Hx as [Hx|Hx%list_elem_of_singleton].
    + apply (wf_event_run _ W) in Hx as [y Hy]. apply L in Hy as (z & ? & ?). eauto.
    + subst. simpl. rewrite He, lookup_insert_eq. eauto.
  - destruct (wf_journal _ W _ _ Hr) as [P J]. unfold bump_sequence at 1 2. cbn [run_last_event_sequence set_run_last_event_sequence]. split; [lia|].
    rewrite journal_of_append, bool_decide_eq_true_2 by done.
    rewrite fmap_app, J. simpl. rewrite Hs, Z2Nat.inj_add by lia. simpl.
    rewrite Nat.add_1_r, zrange_S_r. do 2 f_equal. lia.
  - destruct (wf_journal _ W _ _ Hi) as [P J]. split; [done|].
    rewrite journal_of_append, bool_decide_eq_false_2 by (simpl; congruence). by rewrite app_nil_r.
  - apply elem_of_app in Hx as [Hx|Hx%list_elem_of_singleton].
    + apply (wf_event_outbox _ W) in Hx as (k & o & ? & ?). eauto with mew.
    + subst. eexists _, _. rewrite lookup_insert_eq. split; [done|]. by split_and!.
Qed.

(** ** Checkpoints and audits *)

Lemma wf_new_checkpoint db c r :
  db_wf db -> db_checkpoints db !! cp_id c = None -> db_runs db !! cp_run_id c = Some r ->
  cp_thread_ref_id c = run_thread_ref_id r -> cp_user_id c = run_user_id r ->
  db_wf (put_checkpoint c db).
Proof.
  intros W Hc Hr Et Eu.
  constructor; simpl; first [intros i x Hi | intros e He]; lookup_cases;
    try (by eapply W); try done. eauto.
Qed.

Lemma wf_audit db a : db_wf db -> db_wf (put_audit a db).
Proof.
  intros W. constructor; simpl; first [intros i x Hi | intros e He]; lookup_cases;
    try (by eapply W); done.
Qed.

(** ** Deletion of a thread *)

(** A run survives exactly when it belongs to another thread. *)
Lemma survives_delete t db i r :
  db_runs (cascade_delete t db) !! i = Some r <->
    db_runs db !! i = Some r /\ run_thread_ref_id r <> th_id t.
Proof. simpl. by rewrite map_lookup_filter_Some. Qed.

Lemma journal_of_delete t db i r :
  db_runs db !! i = Some r -> run_thread_ref_id r <> th_id t ->
  journal_of (cascade_delete t db) i = journal_of db i.
Proof.
  intros Hi Hn. unfold journal_of. simpl. induction (db_events db) as [|e l IH]; [done|].
  simpl. case_bool_decide as E.
  - rewrite E, Hi, bool_decide_eq_false_2 by done. simpl.
    rewrite E, bool_decide_eq_true_2 by done. by f_equal.
  - destruct (negb _); simpl; [|done]. by rewrite bool_decide_eq_false_2.
Qed.

(** A message survives when it belongs to another thread, at most without its run. *)
Lemma message_survives t db i m :
  db_messages (cascade_delete t db) !! i = Some m ->
  exists m0, db_messages db !! i = Some m0 /\ msg_thread_ref_id m0 <> th_id t /\
    (m = m0 \/ m = set_msg_run_id None m0).
Proof.
  simpl. intros (m0 & <- & [Hm N]%map_lookup_filter_Some)%lookup_fmap_Some.
  exists m0. split_and!; [done..|]. case_match; auto.
Qed.

Lemma message_kept t db i m :
  db_messages db !! i = Some m -> msg_thread_ref_id m <> th_id t ->
  exists m', db_messages (cascade_delete t db) !! i = Some m' /\
    (m' = m \/ m' = set_msg_run_id None m) /\
    (forall rid r, msg_run_id m = Some rid -> db_runs db !! rid = Some r ->
       run_thread_ref_id r <> th_id t -> m' = m).
Proof.
  intros Hm N. eexists. split.
  - simpl. apply lookup_fmap_Some. exists m. split; [reflexivity|]. by apply map_lookup_filter_Some.
  - split; [case_match; auto|]. intros rid r -> -> Nr. by rewrite bool_decide_eq_false_2.
Qed.

Lemma wf_delete db t :
  db_wf db -> db_threads db !! th_id t = Some t -> db_wf (cascade_delete t db).
Proof.
  intros W Ht. constructor; [intros i x Hi..|intros e He|intros i x Hi|intros e He];
    try apply survives_delete in Hi as [Hi Hn]; try (by eapply W);
    try apply message_survives in Hi as (m0 & Hi & Hn & Hm); 
    cbn [cascade_delete db_users db_threads db_runs db_events db_checkpoints db_outbox db_audits] in *;
    try apply lookup_delete_Some in Hi as [? Hi];
    try apply map_lookup_filter_Some in Hi as [Hi Hm]; try (by eapply W).
  - apply (wf_message_key _ W) in Hi. by destruct Hm as [-> | ->].
  - apply lookup_fmap_Some in Hi as (a & <- & Ha). apply (wf_audit_key _ W) in Ha.
    by case_match.
  - apply (wf_run_thread _ W) in Hi as (t' & Ht' & ?). exists t'.
    rewrite lookup_delete_ne by done. done.
  - pose proof Hi as Hr. apply (wf_run_messages _ W) in Hi as (mu & ma & u & a & ? & ? & Hu & Ha & Hx).
    destruct_and! Hx.
    destruct (message_kept t db mu u) as (u' & Hu' & _ & Eu); [done|congruence|].
    destruct (message_kept t db ma a) as (a' & Ha' & _ & Ea); [done|congruence|].
    rewrite (Eu i x) in Hu' by done. rewrite (Ea i x) in Ha' by done.
    exists mu, ma, u, a. split_and!; done.
  - apply (wf_message_thread _ W) in Hi as (t' & Ht' & ?).
    exists t'. destruct Hm as [-> | ->]; simpl; rewrite lookup_delete_ne by congruence; done.
  - apply (wf_thread_messages _ W) in Hi as (? & ? & ? & F). split_and!; [done..|].
    intros s Hs. destruct (F s Hs) as (k & m & Hm & ? & ?).
    destruct (message_kept t db k m) as (m' & Hm' & [-> | ->] & _); [done|congruence|..]; eauto 6.
  - apply (wf_checkpoint_run _ W) in Hi as (r & Hr & ? & ?). exists r.
    rewrite map_lookup_filter_Some. simpl in *. rewrite Hr in Hm.
    by apply bool_decide_eq_false in Hm.
  - apply list_elem_of_In, filter_In in He as [He%list_elem_of_In Hg].
    apply (wf_event_run _ W) in He as [r Hr]. exists r.
    rewrite map_lookup_filter_Some. simpl. rewrite Hr in Hg.
    by apply negb_true_iff, bool_decide_eq_false in Hg.
  - rewrite (journal_of_delete t db i x Hi Hn). by eapply W.
  - apply list_elem_of_In, filter_In in He as [He%list_elem_of_In Hg].
    by apply (wf_event_outbox _ W) in He.
Qed.

(** ** Every change keeps the invariant *)

Ltac by_same_rows :=
  eapply db_wf_same; [|eassumption]; constructor; simpl; try reflexivity;
  eapply same_rows_update; try eassumption.

Lemma same_id_put_run r r' db :
  db_runs db !! run_id r = Some r -> run_id r' = run_id r -> run_key r' = run_key r ->
  same_db db (put_run r' db).
Proof.
  intros Hr Ei Ek. constructor; simpl; try reflexivity.
  eapply same_rows_update; [by rewrite Ei|done].
Qed.

Lemma run_update_key r r' : run_update r r' -> run_id r' = run_id r /\ run_key r' = run_key r.
Proof.
  intros (Ec & Es & _). unfold run_key. rewrite Ec, Es. split; [|done].
  unfold run_core in Ec. by injection Ec.
Qed.

Lemma change_wf db db' : db_wf db -> change db db' -> db_wf db'.
Proof.
  intros W [t t' Ht Hc|t|r r' Hr Hu|r r' e Hr Hu He Hs|t t' r u a|t t' m|m m' Hm Hc
    |c r|c c' Hc Hk _|a|o o' Ho Hk].
  - by_same_rows. by injection Hc as ->.
  - by apply wf_new_thread.
  - apply run_update_key in Hu as [Ei Ek]. eapply db_wf_same; [|done].
    by eapply same_id_put_run.
  - destruct (run_update_key _ _ Hu) as [Ei Ek].
    assert (db_wf (put_run r' db)) as W1.
    { eapply db_wf_same; [|done]. by eapply same_id_put_run. }
    replace (put_run (bump_sequence r') db) with (put_run (bump_sequence r') (put_run r' db)).
    + eapply (wf_append _ r' e W1); [apply lookup_insert_eq|done..].
    + unfold put_run, set_db_runs. simpl. f_equal. apply insert_insert_eq.
  - by eapply wf_new_run.
  - by eapply wf_new_message.
  - by_same_rows. by injection Hc as ->.
  - by eapply wf_new_checkpoint.
  - by_same_rows. by injection Hk as ->.
  - by apply wf_audit.
  - by_same_rows. by injection Hk as ->.
Qed.

Lemma changes_wf db db' : db_wf db -> changes db db' -> db_wf db'.
Proof. intros W C. induction C; eauto using change_wf. Qed.

Lemma changes_one db db' : change db db' -> changes db db'.
Proof. unfold changes. apply rtc_once. Qed.

Lemma changes_trans db1 db2 db3 : changes db1 db2 -> changes db2 db3 -> changes db1 db3.
Proof. unfold changes. intros. by etrans. Qed.

#[export] Hint Resolve changes_one : mew.

(** ** The journal only grows *)

Lemma change_events db db' : change db db' -> db_events db `prefix_of` db_events db'.
Proof. intros []; simpl; done || apply prefix_app_r'. Qed.

Lemma changes_events db db' : changes db db' -> db_events db `prefix_of` db_events db'.
Proof. induction 1 as [|db1 db2 db3 C%change_events _ IH]; [done|by etrans]. Qed.

Lemma journal_of_prefix db db' i :
  db_events db `prefix_of` db_events db' -> journal_of db i `prefix_of` journal_of db' i.
Proof. intros [k E]. unfold journal_of. rewrite E, List.filter_app. apply prefix_app_r'. Qed.

(** ** An answer, once given, stays *)

Lemma change_answer db db' i c :
  change db db' -> db_checkpoints db !! i = Some c -> is_Some (cp_consumed_at c) ->
  exists c', db_checkpoints db' !! i = Some c' /\ answered c' = answered c /\
    checkpoint_core c' = checkpoint_core c.
Proof.
  intros Ch Hi Hc.
  destruct Ch as [| | | | | | |c1 r Hn|c1 c2 H1 Hk Ha| |]; simpl; try (by exists c).
  - exists c. rewrite lookup_insert_ne by congruence. done.
  - assert (cp_id c2 = cp_id c1) as E by (by injection Hk). rewrite E.
    destruct (decide (i = cp_id c1)) as [->|N].
    + rewrite lookup_insert_eq. assert (c = c1) as -> by congruence. exists c2. split_and!; [done|by apply Ha|done].
    + exists c. by rewrite lookup_insert_ne.
Qed.

Lemma changes_answer db db' i c :
  changes db db' -> db_checkpoints db !! i = Some c -> is_Some (cp_consumed_at c) ->
  exists c', db_checkpoints db' !! i = Some c' /\ answered c' = answered c /\
    checkpoint_core c' = checkpoint_core c.
Proof.
  intros Ch. revert c. induction Ch as [|db1 db2 db3 C _ IH]; intros c Hi Hc; [eauto|].
  destruct (change_answer _ _ _ _ C Hi Hc) as (c1 & H1 & A1 & K1).
  assert (cp_consumed_at c1 = cp_consumed_at c) as E by (by injection A1).
  destruct (IH c1 H1) as (c2 & H2 & A2 & K2); [by rewrite E|].
  exists c2. split_and!; congruence.
Qed.
