(* ===== verification/RunSpec.v ===== *)
(** * What the run transactions do

    One lemma per operation of [RunRepo]: a successful call is a sequence of
    changes of the stored data, and its effect on the run table is a single move
    of one row (with the promotion of a queued one at the end of a run). *)

From S2P Require Import Prelude PyBase Errors RunState Schema Session Effects Journal RunRepo Threads Changes RunMachine.

Open Scope Z_scope.

(** The run table after the write of one row. *)
Definition moves (db db' : Database) (r r' : Run) : Prop :=
  changes db db' /\ db_runs db !! run_id r = Some r /\ run_core r' = run_core r /\
  db_runs db' = <[run_id r := r']> (db_runs db).

(** Only other tables changed. *)
Definition aside (db db' : Database) : Prop :=
  changes db db' /\ db_runs db' = db_runs db.

Lemma abs_moves db db' r r' :
  moves db db' r r' -> abs db' = <[run_id r := abs_run r']> (abs db).
Proof. intros (_ & _ & _ & E). unfold abs. by rewrite E, fmap_insert. Qed.

Lemma abs_aside db db' : aside db db' -> abs db' = abs db.
Proof. intros [_ E]. unfold abs. by rewrite E. Qed.

Lemma abs_lookup db i r : db_runs db !! i = Some r -> abs db !! i = Some (abs_run r).
Proof. intros H. unfold abs. by rewrite lookup_fmap, H. Qed.

Lemma aside_refl db : aside db db.
Proof. split; [apply rtc_refl|done]. Qed.
#[export] Hint Resolve aside_refl abs_lookup : mew.

(** A run row written back with a new event. *)
Lemma append_changes r run tid ty data w run' ja w' :
  append_event_in_session run tid ty data w = (Ret (run', ja), w') ->
  db_runs (w_db w) !! run_id r = Some r -> run_update r run ->
  moves (w_db w) (w_db w') r run' /\ run' = bump_sequence run /\
  db_threads (w_db w') = db_threads (w_db w) /\
  db_messages (w_db w') = db_messages (w_db w) /\
  db_users (w_db w') = db_users (w_db w).
Proof.
  intros H Hr Hu. apply append_event_spec in H as (-> & E1 & E2 & _ & _ & _ & _ & E3 & ->).
  rewrite E3. destruct (run_update_key _ _ Hu) as [Ei _]. split_and!; try done. split_and!.
  - apply changes_one. by eapply ch_append.
  - done.
  - destruct Hu as [<- _]. done.
  - simpl. by rewrite Ei.
Qed.

Lemma put_run_moves db r r' :
  db_runs db !! run_id r = Some r -> run_update r r' -> moves db (put_run r' db) r r'.
Proof.
  intros Hr Hu. destruct (run_update_key _ _ Hu) as [Ei _]. split_and!.
  - apply changes_one. by eapply ch_run.
  - done.
  - by destruct Hu.
  - simpl. by rewrite Ei.
Qed.

Lemma run_core_id r r' : run_core r' = run_core r -> run_id r' = run_id r.
Proof. unfold run_core. intros E. by injection E. Qed.

Lemma moves_row db db' r r' : moves db db' r r' -> db_runs db' !! run_id r' = Some r'.
Proof. intros (_ & _ & E & ->). rewrite (run_core_id _ _ E). apply lookup_insert_eq. Qed.

Lemma moves_trans db1 db2 db3 r1 r2 r3 :
  moves db1 db2 r1 r2 -> moves db2 db3 r2 r3 -> moves db1 db3 r1 r3.
Proof.
  intros (C1 & L1 & K1 & E1) (C2 & L2 & K2 & E2). split_and!.
  - by eapply changes_trans.
  - done.
  - congruence.
  - rewrite E2, E1, (run_core_id _ _ K1). apply insert_insert_eq.
Qed.

Lemma moves_aside db1 db2 db3 r r' :
  moves db1 db2 r r' -> aside db2 db3 -> moves db1 db3 r r'.
Proof.
  intros (C1 & L1 & K1 & E1) (C2 & E2). split_and!; [by eapply changes_trans|done..|congruence].
Qed.

Lemma aside_moves db1 db2 db3 r r' :
  aside db1 db2 -> moves db2 db3 r r' -> moves db1 db3 r r'.
Proof.
  intros (C2 & E2) (C1 & L1 & K1 & E1).
  split_and!; [by eapply changes_trans|congruence..].
Qed.

Lemma set_assistant_status_spec run status now w u w' :
  set_assistant_status run status now w = (Ret u, w') ->
  (forall v t v', now v = (Ret t, v') -> w_db v' = w_db v) ->
  db_wf (w_db w) ->
  aside (w_db w) (w_db w') /\ db_threads (w_db w') = db_threads (w_db w) /\
  db_users (w_db w') = db_users (w_db w).
Proof.
  intros H Hn W. unfold set_assistant_status in H. minv; try (split; [apply aside_refl|done]).
  apply Hn in R. rewrite R. split; [|done]. split; [|done]. apply changes_one.
  apply (ch_message _ m); [|done].
  destruct (run_assistant_message_id run) as [mid|]; [|done]. simpl in B.
  by rewrite (wf_message_key _ W _ _ B).
Qed.

Lemma utcnow_keeps (v : World) t v' : utcnow v = (Ret t, v') -> w_db v' = w_db v.
Proof. intros [_ ->]%utcnow_inv. done. Qed.

Lemma ret_keeps {A} (a : A) v t v' : (mret a : M A) v = (Ret t, v') -> w_db v' = w_db v.
Proof. intros [_ ->]%ret_inv. done. Qed.
#[export] Hint Resolve utcnow_keeps ret_keeps : mew.

Lemma run_row_Some db rid name run thread :
  run_row db rid name = Some (run, thread) ->
  db_runs db !! rid = Some run /\ db_threads db !! run_thread_ref_id run = Some thread.
Proof.
  unfold run_row. destruct (db_runs db !! rid) as [r|] eqn:Hr; [|done]. simpl.
  destruct (db_threads db !! run_thread_ref_id r) as [t|] eqn:Ht; [|done]. simpl.
  destruct name as [n|]; [|naive_solver].
  destruct (db_users db !! run_user_id r) as [u|]; [|done]. simpl. case_bool_decide; naive_solver.
Qed.

(** Name the row a query found [row], its lookup [Hrow], and use its key. *)
Ltac row_found W :=
  repeat match goal with
  | Q : run_row _ _ _ = Some (_, _) |- _ => apply run_row_Some in Q as [Q ?]
  end;
  match goal with
  | Q : db_runs _ !! ?rid = Some ?r |- _ =>
      let K := fresh "K" in pose proof (wf_run_key _ W _ _ Q) as K;
      cbn [w_db set_w_tick set_w_uuid_next set_w_db] in K, Q; try subst rid;
      rename r into row; rename Q into Hrow
  end.

(** A row update whose status move is in the table. *)
Ltac row_update :=
  split_and!; [reflexivity|reflexivity|];
  cbn [run_status set_run_status set_run_updated_at];
  first [ done | assumption
        | by match goal with B : run_status _ = _ |- _ => rewrite B end ].

Lemma run_update_refl r : run_update r r.
Proof. split_and!; [done..|apply can_transition_refl]. Qed.

Lemma moves_wf db db' r r' : db_wf db -> moves db db' r r' -> db_wf db'.
Proof. intros W (C & _). by eapply changes_wf. Qed.

(** An event appended to a row that was just written. *)
Lemma moves_append db r run tid ty data w run' ja w' :
  moves db (w_db w) r run ->
  append_event_in_session run tid ty data w = (Ret (run', ja), w') ->
  moves db (w_db w') r (bump_sequence run) /\ run' = bump_sequence run.
Proof.
  intros Mv H. pose proof (moves_row _ _ _ _ Mv) as L.
  eapply (append_changes run) in H as (Mv' & -> & _); [|done|apply run_update_refl].
  split; [|done]. by eapply moves_trans.
Qed.

(** The assistant message updated after a row was written. *)
Lemma moves_status db r run run0 status now w u w' :
  db_wf db -> moves db (w_db w) r run ->
  set_assistant_status run0 status now w = (Ret u, w') ->
  (forall v t v', now v = (Ret t, v') -> w_db v' = w_db v) ->
  moves db (w_db w') r run.
Proof.
  intros W Mv H Hn. eapply set_assistant_status_spec in H as [A _]; [|done|by eapply moves_wf].
  by eapply moves_aside.
Qed.

(** Neither touches the checkpoints. *)
Lemma append_checkpoints run tid ty data w x w' :
  append_event_in_session run tid ty data w = (Ret x, w') ->
  db_checkpoints (w_db w') = db_checkpoints (w_db w).
Proof.
  destruct x as [run' ja]. intros H.
  by apply append_event_spec in H as (_ & _ & _ & _ & _ & _ & _ & _ & ->).
Qed.

Lemma status_checkpoints run status now w u w' :
  set_assistant_status run status now w = (Ret u, w') ->
  (forall v t v', now v = (Ret t, v') -> w_db v' = w_db v) ->
  db_checkpoints (w_db w') = db_checkpoints (w_db w).
Proof.
  intros H Hn. unfold set_assistant_status in H. minv; try done.
  match goal with R : now _ = _ |- _ => apply Hn in R; by rewrite R end.
Qed.

(** Follow a written row through the message updates and the appended events. *)
Ltac follow W :=
  repeat match goal with
  | Mv : moves ?db (w_db ?v) ?r ?run, H : set_assistant_status _ _ _ ?v = (Ret _, _) |- _ =>
      eapply (moves_status db r run) in H; [|exact W|exact Mv|by eauto with mew]; clear Mv
  | Mv : moves ?db (w_db ?v) ?r ?run, H : append_event_in_session ?run _ _ _ ?v = (Ret (_, _), _) |- _ =>
      eapply (moves_append db r run) in H as [? ->]; [|exact Mv]; clear Mv
  end.

Lemma assert_fencing_inv run token w u w' :
  assert_fencing run token w = (Ret u, w') ->
  w' = w /\ forall t, token = Some t -> run_fencing_token run = t.
Proof. unfold assert_fencing. intros H. minv; bool_to_prop; naive_solver. Qed.

Section Specs.
Context (env : Env).

Lemma claim_spec rid wid ls w rec w' :
  claim env rid wid ls w = (Ret rec, w') -> db_wf (w_db w) ->
  exists r, db_runs (w_db w) !! rid = Some r /\
  ((w_db w' = w_db w /\ run_status r = RUNNING /\ run_owner_worker_id r = Some wid /\
    lease_open (run_lease_expires_at r) (w_clock w (w_tick w)) = true /\
    rr_fencing_token rec = run_fencing_token r) \/
   (exists r' lease, moves (w_db w) (w_db w') r r' /\
    (run_status r = PENDING \/
     run_status r = RUNNING /\
       lease_live (run_lease_expires_at r) (w_clock w (w_tick w)) = false) /\
    abs_run r' = ar_claimed (abs_run r) wid lease /\
    rr_fencing_token rec = run_fencing_token r + 1)).
Proof.
  intros H W. unfold claim, transition in H. minv; row_found W.
  - exists row. split; [done|right].
    eapply (append_changes row) in R1 as (Mv & -> & _); [|done|row_update].
    eexists _, _. split; [exact Mv|]. naive_solver.
  - exists row. split; [done|left]. bool_to_prop. naive_solver.
  - exists row. split; [done|right].
    eapply (append_changes row) in R1 as (Mv & -> & _); [|done|row_update].
    eexists _, _. split; [exact Mv|]. naive_solver.
Qed.

Lemma heartbeat_spec rid wid token ls w rec w' :
  heartbeat env rid wid token ls w = (Ret rec, w') -> db_wf (w_db w) ->
  exists r r' lease, db_runs (w_db w) !! rid = Some r /\ moves (w_db w) (w_db w') r r' /\
    run_fencing_token r = token /\ run_owner_worker_id r = Some wid /\
    (run_status r = RUNNING \/ run_status r = CANCELLING) /\
    abs_run r' = ar_renewed (abs_run r) lease.
Proof.
  intros H W. unfold heartbeat, assert_fencing in H. minv. row_found W.
  eexists row, _, _. split; [done|]. split.
  { apply put_run_moves; [done|]. split_and!; [done..|]. apply can_transition_refl. }
  bool_cases; split_and!; auto.
Qed.

Lemma set_waiting_input_spec rid wid token w rec w' :
  set_waiting_input rid wid token w = (Ret rec, w') -> db_wf (w_db w) ->
  exists r r', db_runs (w_db w) !! rid = Some r /\ moves (w_db w) (w_db w') r r' /\
    run_fencing_token r = token /\ run_owner_worker_id r = Some wid /\
    (run_status r = RUNNING \/ run_status r = WAITING_INPUT) /\
    abs_run r' = ar_released (abs_run r) WAITING_INPUT.
Proof.
  intros H W. unfold set_waiting_input, assert_fencing, transition in H. minv. row_found W.
  bool_to_prop. eexists row, _. split; [done|]. split.
  { eapply moves_append; [|done]. eapply moves_status; [done| |done|eauto with mew].
    apply put_run_moves; [done|row_update]. }
  split_and!; try done. destruct (run_status row); auto; done.
Qed.

Lemma mark_cancelling_spec name rid w rec w' :
  mark_cancelling name rid w = (Ret rec, w') -> db_wf (w_db w) ->
  exists r, db_runs (w_db w) !! rid = Some r /\
  ((w_db w' = w_db w /\ (is_terminal (run_status r) = true \/ run_status r = CANCELLING)) \/
   (exists r', moves (w_db w) (w_db w') r r' /\ claimable (run_status r) = true /\
      abs_run r' = ar_marked (abs_run r))).
Proof.
  intros H W. unfold mark_cancelling, transition in H. minv; row_found W; exists row.
  - split; [done|left]. bool_cases; auto.
  - split; [done|right]. bool_to_prop. eexists. split.
    { eapply moves_append; [|done]. apply put_run_moves; [done|row_update]. }
    split; [|done]. destruct (run_status row); done.
Qed.

Lemma pin_skill_activation_spec rid wid token name version hash source w rec w' :
  pin_skill_activation rid wid token name version hash source w = (Ret rec, w') ->
  db_wf (w_db w) ->
  exists r, db_runs (w_db w) !! rid = Some r /\
    run_fencing_token r = token /\ run_status r = RUNNING /\ run_owner_worker_id r = Some wid /\
  ((w_db w' = w_db w /\ run_skill_name r = Some name /\ run_skill_version r = Some version /\
    run_skill_content_hash r = Some hash /\ run_skill_activation_source r = Some source) \/
   (exists r', moves (w_db w) (w_db w') r r' /\ abs_run r' = abs_run r /\
      run_skill_name r' = Some name /\ run_skill_version r' = Some version /\
      run_skill_content_hash r' = Some hash /\ run_skill_activation_source r' = Some source)).
Proof.
  intros H W. unfold pin_skill_activation, assert_fencing, owned_running in H.
  minv; row_found W; exists row; bool_to_prop; split_and!; try done.
  - left. by split_and!.
  - right. eexists. split; [apply put_run_moves; [done|]|done].
    split_and!; [done..|]. apply can_transition_refl.
Qed.

Lemma record_tool_audit_spec rid wid token args w u w' :
  record_tool_audit rid wid token args w = (Ret u, w') -> db_wf (w_db w) ->
  aside (w_db w) (w_db w') /\
  exists r, db_runs (w_db w) !! rid = Some r /\ run_fencing_token r = token /\
    run_status r = RUNNING /\ run_owner_worker_id r = Some wid.
Proof.
  intros H W. unfold record_tool_audit, assert_fencing, owned_running in H.
  minv; row_found W; bool_to_prop; (split; [|by exists row]); try apply aside_refl.
  split; [|done]. apply changes_one, ch_audit. simpl. apply next_id_fresh.
Qed.

Lemma journal_append_spec rid ty data wid token w ja w' :
  journal_append rid ty data wid token w = (Ret ja, w') -> db_wf (w_db w) ->
  exists r, db_runs (w_db w) !! rid = Some r /\ append_fence_ok r wid token = true /\
    moves (w_db w) (w_db w') r (bump_sequence r).
Proof.
  intros H W. unfold journal_append in H. minv. row_found W. exists row. bool_to_prop.
  split_and!; try done.
  match goal with R : append_event_in_session _ _ _ _ _ = _ |- _ =>
    eapply (append_changes row) in R as (Mv & -> & _); [done|done|apply run_update_refl] end.
Qed.

(** ** Finalisation *)

Lemma finish_events_spec db r run tid args w run' w' :
  moves db (w_db w) r run -> finish_events run tid args w = (Ret run', w') ->
  moves db (w_db w') r run' /\ abs_run run' = abs_run run /\ is_terminal (fz_target_status args) = true.
Proof.
  intros Mv H. unfold finish_events in H. minv; simplify_eq;
    repeat match goal with
    | Mv : moves db (w_db ?w) r ?run, H : append_event_in_session ?run _ _ _ ?w = _ |- _ =>
        eapply moves_append in H as [? ->]; [|exact Mv]; clear Mv
    end; (split_and!; [done|done|]); by destruct (fz_target_status args).
Qed.

Lemma finish_message_spec assistant args now w u w' :
  finish_message assistant args now w = (Ret u, w') ->
  (forall m, assistant = Some m -> db_messages (w_db w) !! msg_id m = Some m) ->
  aside (w_db w) (w_db w') /\ db_threads (w_db w') = db_threads (w_db w).
Proof.
  intros H Hm. unfold finish_message in H. minv; [|by split; [apply aside_refl|]].
  split; [|done]. split; [|done]. apply changes_one. eapply (ch_message _ m); eauto.
Qed.

Lemma next_queued_Some db t q :
  next_queued db t = Some q ->
  (exists i, db_runs db !! i = Some q) /\ run_thread_ref_id q = t /\ run_status q = QUEUED /\
  forall i x, db_runs db !! i = Some x -> run_thread_ref_id x = t -> run_status x = QUEUED ->
    run_created_at q <= run_created_at x.
Proof.
  unfold next_queued. intros [Hq Hmin]%order_by_head.
  apply elem_of_rows_where in Hq as (i & Hi & Hp). bool_to_prop. split_and!; eauto.
  intros j x Hj Ht Hs. apply Hmin, elem_of_rows_where. exists j. split; [done|].
  by rewrite !bool_decide_eq_true_2.
Qed.

Lemma next_queued_None db t :
  next_queued db t = None ->
  forall i x, db_runs db !! i = Some x -> run_thread_ref_id x = t -> run_status x <> QUEUED.
Proof.
  unfold next_queued. intros H i x Hi Ht Hs.
  destruct (order_by _ _) eqn:E; [|done]. apply order_by_nil in E.
  rewrite rows_where_nil in E. specialize (E i x Hi).
  by rewrite !bool_decide_eq_true_2 in E.
Qed.

(** The effect of the promotion on the tables. *)
Inductive promotes (t : Z) (db : Database) : Database -> Prop :=
| promotes_none :
    (forall i x, db_runs db !! i = Some x -> run_thread_ref_id x = t -> run_status x <> QUEUED) ->
    promotes t db db
| promotes_oldest db' q q' :
    moves db db' q q' -> run_thread_ref_id q = t -> run_status q = QUEUED ->
    (forall i x, db_runs db !! i = Some x -> run_thread_ref_id x = t -> run_status x = QUEUED ->
       run_created_at q <= run_created_at x) ->
    abs_run q' = ar_promoted (abs_run q) ->
    promotes t db db'.

Lemma promote_next_queued_spec thread now w u w' :
  promote_next_queued thread now w = (Ret u, w') -> db_wf (w_db w) ->
  promotes (th_id thread) (w_db w) (w_db w').
Proof.
  intros H W. unfold promote_next_queued in H. minv.
  - apply next_queued_Some in B as ([i Hi] & Ht & Hs & Hmin).
    pose proof (wf_run_key _ W _ _ Hi) as <-.
    eapply promotes_oldest; [|exact Ht|done|done|].
    + eapply moves_status; [done| |done|eauto with mew].
      apply put_run_moves; [done|]. split_and!; [done..|]. by rewrite Hs.
    + done.
  - eapply promotes_none, next_queued_None; done.
Qed.

Lemma promotes_abs t db db' : promotes t db db' -> promote t (abs db) (abs db').
Proof.
  intros [N|db1 q q' Mv Ht Hs Hmin Eq].
  - apply promote_none. intros i x (Hi & Ht & Hs). unfold abs in Hi.
    apply lookup_fmap_Some in Hi as (r & <- & Hr). by eapply N.
  - rewrite (abs_moves _ _ _ _ Mv), Eq. destruct Mv as (_ & Hq & _).
    apply promote_oldest; [split_and!; eauto with mew|].
    intros j x (Hj & Htx & Hsx). unfold abs in Hj.
    apply lookup_fmap_Some in Hj as (r & <- & Hr). by eapply Hmin.
Qed.

Lemma promotes_changes t db db' : promotes t db db' -> changes db db'.
Proof. intros [_|db1 q q' (C & _) _ _ _ _]; [apply rtc_refl|done]. Qed.

(** What [finalize] asks for, on a run that is being cancelled. *)
Definition final_target (r : Run) (a : FinalizeArgs) : RunStatus :=
  fz_target_status (resolve_cancelling r a).

Lemma final_target_cancelling r a :
  run_status r = CANCELLING -> final_target r a = CANCELLED.
Proof.
  intros Hs. unfold final_target, resolve_cancelling. rewrite Hs.
  rewrite bool_decide_eq_true_2 by done. simpl. case_bool_decide; done.
Qed.

Lemma finalize_live_spec r thread assistant args now w rec w' :
  finalize_live r thread assistant args now w = (Ret rec, w') -> db_wf (w_db w) ->
  db_runs (w_db w) !! run_id r = Some r -> db_threads (w_db w) !! th_id thread = Some thread ->
  (forall m, assistant = Some m -> db_messages (w_db w) !! msg_id m = Some m) ->
  exists db1 r', moves (w_db w) db1 r r' /\ promotes (th_id thread) db1 (w_db w') /\
    can_transition (run_status r) (final_target r args) = true /\
    is_terminal (final_target r args) = true /\
    abs_run r' = ar_finished (abs_run r) (final_target r args).
Proof.
  intros H W Hr Ht Hm. unfold finalize_live, transition in H.
  fold (final_target r args) in H. set (args' := resolve_cancelling r args) in *.
  minv. bool_to_prop.
  match goal with H : finish_message _ _ _ ?v = _ |- _ =>
    assert (moves (w_db w) (w_db v) r (finished (set_run_updated_at (w_clock w (w_tick w))
      (set_run_status (final_target r args) r)) args' now)) as M1
      by (apply put_run_moves; [done|row_update]);
    eapply finish_message_spec in H as [A1 A2]; [|done]
  end.
  match goal with H : finish_events _ _ _ ?v = _ |- _ =>
    eapply (finish_events_spec (w_db w) r) in H as (M2 & E2 & T2)
  end.
  2:{ eapply moves_aside; [by eapply moves_aside|]. split; [|done]. apply changes_one.
      apply (ch_thread _ thread); [|done]. by rewrite A2. }
  match goal with H : promote_next_queued _ _ _ = _ |- _ =>
    apply promote_next_queued_spec in H; [|by eapply moves_wf] end.
  do 2 eexists. split_and!; [exact M2|done..|]. by rewrite E2.
Qed.

Lemma finalize_spec args w rec w' :
  finalize args w = (Ret rec, w') -> db_wf (w_db w) ->
  exists r, db_runs (w_db w) !! fz_run_id args = Some r /\
    is_terminal (fz_target_status args) = true /\
    (forall t, fz_fencing_token args = Some t -> run_fencing_token r = t) /\
    lease_still_expired r (fz_lease_expired_before args) = true /\
  ((w_db w' = w_db w /\ is_terminal (run_status r) = true /\
    run_status r = fz_target_status args) \/
   (is_terminal (run_status r) = false /\ constraints_ok (w_db w') = true /\
    exists db1 r', moves (w_db w) db1 r r' /\
      promotes (run_thread_ref_id r) db1 (w_db w') /\
      can_transition (run_status r) (final_target r args) = true /\
      is_terminal (final_target r args) = true /\
      abs_run r' = ar_finished (abs_run r) (final_target r args))).
Proof.
  intros H W. unfold finalize in H. minv;
    (match goal with R : assert_fencing _ _ _ = _ |- _ =>
       apply assert_fencing_inv in R as [-> F] end); bool_to_prop;
    cbn [w_db set_w_tick] in *;
    (match goal with Q : db_runs _ !! _ = Some ?x |- _ =>
       exists x; pose proof (wf_run_key _ W _ _ Q) as K; split_and!; try done end).
  - left. by split_and!.
  - right. pose proof (wf_thread_key _ W _ _ Q0) as Kt.
    eapply finalize_live_spec in H; [|exact W|by rewrite K|by rewrite Kt|].
    + destruct H as (db1 & r' & ? & Hp & ? & ? & ?). rewrite Kt in Hp.
      split_and!; [done..|]. exists db1, r'. by split_and!.
    + intros m Hm. destruct (run_assistant_message_id _) as [mid|]; [|done]. simpl in Hm.
      by rewrite (wf_message_key _ W _ _ Hm).
Qed.

(** ** Reservation *)

Lemma find_user_Some db name u :
  db_wf db -> find_user db name = Some u -> db_users db !! u_id u = Some u /\ u_username u = name.
Proof.
  intros W (i & Hi & Hp)%first_where_Some. bool_to_prop.
  by rewrite (wf_user_key _ W _ _ Hi).
Qed.

Lemma find_thread_Some db uid tid t :
  db_wf db -> find_thread db uid tid = Some t ->
  db_threads db !! th_id t = Some t /\ th_user_id t = uid /\ th_thread_id t = tid.
Proof.
  intros W (i & Hi & Hp)%first_where_Some. bool_to_prop.
  by rewrite (wf_thread_key _ W _ _ Hi).
Qed.

Lemma existing_run_Some db uid tid key r :
  db_wf db -> existing_run db uid tid key = Some r ->
  db_runs db !! run_id r = Some r /\ run_user_id r = uid /\ run_thread_ref_id r = tid /\
  run_idempotency_key r = key.
Proof.
  intros W (i & Hi & Hp)%first_where_Some. bool_to_prop.
  by rewrite (wf_run_key _ W _ _ Hi).
Qed.

Lemma existing_run_None db uid tid key i r :
  existing_run db uid tid key = None -> db_runs db !! i = Some r ->
  ~ (run_user_id r = uid /\ run_thread_ref_id r = tid /\ run_idempotency_key r = key).
Proof.
  intros N Hi (E1 & E2 & E3). unfold existing_run in N. rewrite first_where_None in N.
  specialize (N i r Hi). by rewrite !bool_decide_eq_true_2 in N.
Qed.

Lemma active_run_Some db t r :
  active_run db t = Some r ->
  exists i, db_runs db !! i = Some r /\ run_thread_ref_id r = t /\ is_active (run_status r) = true.
Proof.
  unfold active_run. intros [(i & Hi & Hp)%elem_of_rows_where _]%order_by_head.
  bool_to_prop. eauto.
Qed.

Lemma active_run_None db t :
  active_run db t = None -> ~ occupied (abs db) t.
Proof.
  unfold active_run. intros H (i & x & Hi & Ht & Ha). unfold abs in Hi.
  apply lookup_fmap_Some in Hi as (r & <- & Hr).
  destruct (order_by _ _) eqn:E; [|done]. apply order_by_nil in E.
  rewrite rows_where_nil in E. specialize (E i r Hr). simpl in Ht.
  rewrite bool_decide_eq_true_2 in E by done. unfold ar_active in Ha. simpl in Ha. by rewrite Ha in E.
Qed.

Lemma active_run_occupied db t r : active_run db t = Some r -> occupied (abs db) t.
Proof.
  intros (i & Hi & Ht & Ha)%active_run_Some. exists i, (abs_run r). eauto with mew.
Qed.

Lemma get_or_create_thread_spec user tid title allow w t w' :
  get_or_create_thread user tid title allow w = (Ret t, w') -> db_wf (w_db w) ->
  db_users (w_db w) !! u_id user = Some user ->
  aside (w_db w) (w_db w') /\ db_threads (w_db w') !! th_id t = Some t /\
  th_user_id t = u_id user /\ th_thread_id t = tid /\
  match find_thread (w_db w) (u_id user) tid with
  | Some t0 => thread_core t = thread_core t0 /\ db_messages (w_db w') = db_messages (w_db w)
  | None => allow = true
  end.
Proof.
  intros H W Hu. unfold get_or_create_thread in H. minv;
    try (match goal with B : find_thread _ _ _ = Some _ |- _ =>
           destruct (find_thread_Some _ _ _ _ W B) as (? & ? & ?) end);
    try (split_and!; [apply aside_refl|done..]).
  - split_and!; try done; [|simpl; apply lookup_insert_eq].
    split; [|done]. apply changes_one. by eapply ch_thread.
  - bool_to_prop. split_and!; try done; [|simpl; apply lookup_insert_eq].
    split; [|done]. apply changes_one. apply ch_new_thread; simpl; eauto. apply next_id_fresh.
Qed.

Lemma reserve_messages_spec t rid msg status now w mu ma w' :
  reserve_messages t rid msg status now w = (Ret (mu, ma), w') ->
  exists u a, w_db w' = put_message a (put_message u (w_db w)) /\
    msg_id u = mu /\ msg_id a = ma /\
    fresh_message (w_db w) t (th_last_sequence t + 1) u /\
    fresh_message (put_message u (w_db w)) t (th_last_sequence t + 2) a /\
    msg_run_id u = Some rid /\ msg_run_id a = Some rid /\
    msg_message_type u = "human"%py /\ msg_message_type a = "ai"%py /\
    msg_content u = msg /\ msg_status u = "completed"%py /\
    msg_status a = (if bool_decide (status = PENDING) then "streaming"%py else "queued"%py).
Proof.
  intros H. unfold reserve_messages in H. minv. simplify_eq.
  do 2 eexists. split; [reflexivity|]. simpl. split_and!; try done.
  - split_and!; [apply next_id_fresh|done..].
  - split_and!; [simpl; apply next_id_fresh|done..].
Qed.

Lemma reserve_new_spec q i now user t status sup w rv w' :
  reserve_new env q i now user t status sup w = (Ret rv, w') -> db_wf (w_db w) ->
  db_threads (w_db w) !! th_id t = Some t -> th_user_id t = u_id user ->
  th_thread_id t = rq_thread_id q ->
  exists r e, db_runs (w_db w) !! run_id r = None /\ changes (w_db w) (w_db w') /\
    db_runs (w_db w') = <[run_id r := r]> (db_runs (w_db w)) /\
    abs_run r = mkAbsRun (th_id t) now status None (th_version t + 2) None /\
    run_user_id r = u_id user /\ run_idempotency_key r = rs_key i /\
    run_request_hash r = rs_hash i /\ run_supersedes_run_id r = sup /\
    rv = mkRunReservation (_record r (rq_thread_id q)) true (th_version t + 2) (Some e) /\
    v1_type e = RUN_CREATED /\ v1_sequence e = 1 /\ run_last_event_sequence r = 1.
Proof.
  intros H W Ht Hu Hn. unfold reserve_new, insert_run in H. minv. bool_to_prop.
  rename R0 into RA, R1 into RM.
  set (r0 := new_run env q i now ("run_" +++ w_uuid w (w_uuid_next w))%py user t status sup) in *.
  match type of RA with append_event_in_session ?x _ _ _ (set_w_db (put_run _ (put_thread ?y _)) _) = _ =>
    set (r1 := x) in *; set (t1 := y) in * end.
  apply reserve_messages_spec in RM
    as (u & a' & E & Eu & Ea & Fu & Fa & ? & ? & ? & ? & _). cbn [w_db set_w_db] in E.
  apply append_event_spec in RA as (-> & E1 & E2 & E4 & _ & E6 & E7 & E3 & Ew).
  rewrite E3 in Ew. cbn [w_db set_w_db] in Ew.
  assert (Hf : db_runs (w_db w) !! run_id r1 = None)
    by (apply eq_None_not_Some; done).
  assert (E5 : put_run r1 (put_thread t1 (w_db w2)) =
            put_run r1 (put_thread t1 (put_message a' (put_message u (w_db w))))).
  { rewrite E. unfold put_run at 1 3, set_db_runs. simpl. f_equal. apply insert_insert_eq. }
  rewrite E5 in Ew, E3.
  assert (C1 : changes (w_db w) (put_run r1 (put_thread t1 (put_message a' (put_message u (w_db w)))))).
  { apply changes_one. eapply (ch_new_run _ t); try done.
    - simpl. congruence.
    - simpl. congruence.
    - unfold event_valid in E7. bool_to_prop. split; congruence. }
  exists (bump_sequence r1), (ja_event j). split_and!; try done.
  - rewrite Ew. eapply changes_trans; [exact C1|]. apply changes_one.
    eapply (ch_append _ r1 r1); [apply lookup_insert_eq|apply run_update_refl|done..].
  - rewrite Ew. simpl. apply insert_insert_eq.
Qed.

Lemma reserve_inputs_inv q w i w' :
  reserve_inputs env q w = (Ret i, w') -> w' = w.
Proof.
  unfold reserve_inputs, validate_thread_id, validate_idempotency_key, security_identifier,
    validate_approved_tools. intros H. minv; done.
Qed.

(** The initial status and the superseded run a reservation decides on. *)
Definition admitted_as (db : Database) (t : Z) (strategy : MultitaskStrategy) (status : RunStatus)
    (sup : option pystr) : Prop :=
  match active_run db t with
  | None => status = PENDING /\ sup = None
  | Some a => status = QUEUED /\
      ((strategy = ENQUEUE /\ sup = None) \/ (strategy = CANCEL_PREVIOUS /\ sup = Some (run_id a)))
  end.

Lemma admission_inv db t strategy w status sup w' :
  admission (active_run db t) strategy w = (Ret (status, sup), w') ->
  w' = w /\ admitted_as db t strategy status sup.
Proof.
  unfold admission, admitted_as. intros H. destruct (active_run db t), strategy; minv; naive_solver.
Qed.

(** The result of a reservation: the run that holds the key already, or a new one. *)
Record reserve_new_result (q : ReserveRequest) (i : Reserved) (now : datetime) (db db' : Database)
    (rv : RunReservation) (user : User) (t : Thread) (r : Run) : Prop := {
  rn_created : rv_created rv = true;
  rn_changes : changes db db';
  rn_user : find_user db (rq_username q) = Some user;
  rn_thread : th_user_id t = u_id user /\ th_thread_id t = rq_thread_id q;
  rn_version : forall v, rq_expected_thread_version q = Some v -> th_version t = v;
  rn_fresh : db_runs db !! run_id r = None;
  rn_runs : db_runs db' = <[run_id r := r]> (db_runs db);
  rn_status : admitted_as db (th_id t) (rs_strategy i) (run_status r) (run_supersedes_run_id r);
  rn_abs : abs_run r = mkAbsRun (th_id t) now (run_status r) None (th_version t + 2) None;
  rn_no_key : existing_run db (u_id user) (th_id t) (rs_key i) = None;
  rn_key : run_user_id r = u_id user /\ run_idempotency_key r = rs_key i /\ run_request_hash r = rs_hash i;
  rn_record : rv_run rv = _record r (rq_thread_id q)
}.

Record reserve_old_result (q : ReserveRequest) (i : Reserved) (db db' : Database)
    (rv : RunReservation) (user : User) (t : Thread) (r : Run) : Prop := {
  ro_created : rv_created rv = false;
  ro_aside : aside db db';
  ro_user : find_user db (rq_username q) = Some user;
  ro_thread : th_user_id t = u_id user /\ th_thread_id t = rq_thread_id q;
  ro_existing : existing_run db (u_id user) (th_id t) (rs_key i) = Some r;
  ro_hash : run_request_hash r = rs_hash i;
  ro_record : rv_run rv = _record r (rq_thread_id q)
}.

Lemma existing_run_aside db db' uid tid key :
  aside db db' -> existing_run db' uid tid key = existing_run db uid tid key.
Proof. intros [_ E]. unfold existing_run. by rewrite E. Qed.

Lemma active_run_aside db db' tid : aside db db' -> active_run db' tid = active_run db tid.
Proof. intros [_ E]. unfold active_run. by rewrite E. Qed.

Lemma reserve_body_spec q i now w rv w' :
  reserve_body env q i now w = (Ret rv, w') -> db_wf (w_db w) ->
  exists user t r, reserve_old_result q i (w_db w) (w_db w') rv user t r \/
                   reserve_new_result q i now (w_db w) (w_db w') rv user t r.
Proof.
  intros H W. unfold reserve_body in H. minv.
  all: match goal with R : get_or_create_thread _ _ _ _ _ = (Ret ?t, ?w1), Q : find_user _ _ = Some ?u |- _ =>
    rename R into RT, t into th, w1 into wt, u into us, Q into Hus end.
  all: destruct (find_user_Some _ _ _ W Hus) as [Hu1 Hu2].
  all: apply get_or_create_thread_spec in RT as (As & Ht1 & Ht2 & Ht3 & _); [|done..].
  all: assert (W1 : db_wf (w_db wt)) by (destruct As; by eapply changes_wf).
  - exists us, th, r. left. bool_to_prop. rewrite (existing_run_aside _ _ _ _ _ As) in B.
    by constructor.
  - match goal with R : admission _ _ _ = (Ret (?s, _), _) |- _ =>
      rename s into st; apply admission_inv in R as [-> Had] end.
    apply reserve_new_spec in H as (r & e & F1 & F2 & F3 & F4 & F5 & F6 & F7 & F8 & -> & _); [|done..].
    exists us, th, r. right. rewrite (existing_run_aside _ _ _ _ _ As) in B.
    destruct As as [As1 As2].
    constructor; try done.
    + by eapply changes_trans.
    + intros v Hv. rewrite Hv in G. by bool_to_prop.
    + by rewrite <- As2.
    + by rewrite F3, As2.
    + rewrite F8. assert (run_status r = st) as -> by (by injection F4).
      unfold admitted_as in *. by rewrite <- (active_run_aside (w_db w) (w_db wt)).
    + rewrite F4. f_equal. by injection F4.
Qed.

Lemma reserve_spec q w rv w' :
  reserve env q w = (Ret rv, w') -> db_wf (w_db w) ->
  exists i user t r, reserve_inputs env q w = (Ret i, w) /\
    (reserve_old_result q i (w_db w) (w_db w') rv user t r \/
     reserve_new_result q i (w_clock w (w_tick w)) (w_db w) (w_db w') rv user t r).
Proof.
  intros H W. unfold reserve in H. apply bind_inv in H as (i & w1 & Hi & H).
  pose proof (reserve_inputs_inv _ _ _ _ Hi) as ->. exists i.
  apply bind_inv in H as (now & w2 & [-> ->]%utcnow_inv & H).
  unfold catch in H. destruct (transaction _ _) as [[rv1|e] w3] eqn:T.
  - simplify_eq. apply transaction_inv in T as [T C].
    apply reserve_body_spec in T as (us & t & r & T); [|done]. exists us, t, r. by split.
  - apply transaction_raise in T. cbn [w_db set_w_tick] in T. destruct e; minv.
    unfold load_reservation in *. minv.
    match goal with E : _ = Some rv |- _ => rename E into El end. rewrite T in El.
    destruct (find_user _ _) as [us|] eqn:Eu; [|done]. simpl in El.
    destruct (find_thread _ _ _) as [t|] eqn:Et; [|done]. simpl in El.
    destruct (existing_run _ _ _ _) as [r|] eqn:Er; simplify_eq/=.
    exists us, t, r. split; [done|]. left. bool_to_prop. rewrite T.
    apply find_thread_Some in Et as (? & ? & ?); [|done].
    constructor; try done. apply aside_refl.
Qed.

End Specs.
