(* ===== verification/HitlSpec.v ===== *)
(** * What the checkpoint and thread transactions do

    The effect of [Hitl] and [Threads] on the stored data and on the run table,
    in the terms of [RunSpec]. *)

From S2P Require Import Prelude PyBase Errors RunState Schema Session Effects Journal RunRepo Hitl Threads EventBus Changes RunMachine RunSpec.

Open Scope Z_scope.

(** ** Pausing *)

Lemma put_checkpoint_aside db c r :
  db_checkpoints db !! cp_id c = None -> db_runs db !! cp_run_id c = Some r ->
  cp_thread_ref_id c = run_thread_ref_id r -> cp_user_id c = run_user_id r ->
  aside db (put_checkpoint c db).
Proof. intros. split; [|done]. apply changes_one. by eapply ch_new_checkpoint. Qed.

Lemma update_checkpoint_aside db c c' :
  db_checkpoints db !! cp_id c = Some c -> checkpoint_core c' = checkpoint_core c ->
  (is_Some (cp_consumed_at c) -> answered c' = answered c) ->
  aside db (put_checkpoint c' db).
Proof. intros. split; [|done]. apply changes_one. by eapply ch_checkpoint. Qed.

Lemma find_checkpoint_Some db rid cid c :
  db_wf db -> find_checkpoint db rid cid = Some c ->
  db_checkpoints db !! cp_id c = Some c /\ cp_run_id c = rid /\ cp_checkpoint_id c = cid.
Proof.
  intros W (i & Hi & Hp)%first_where_Some. bool_to_prop.
  by rewrite (wf_checkpoint_key _ W _ _ Hi).
Qed.

Lemma record_pause_spec rid wid token cid iid value state nodes w p w' :
  record_pause rid wid token cid iid value state nodes w = (Ret p, w') -> db_wf (w_db w) ->
  exists r, db_runs (w_db w) !! rid = Some r /\ run_fencing_token r = token /\
  ((w_db w' = w_db w /\
     exists c, find_checkpoint (w_db w) rid cid = Some c /\ cp_consumed_at c = None /\
       cp_interrupt_id c = Some iid /\ pa_hitl_token p = str_or_empty (cp_hitl_token c)) \/
   (exists r', find_checkpoint (w_db w) rid cid = None /\ moves (w_db w) (w_db w') r r' /\
      run_status r = RUNNING /\ run_owner_worker_id r = Some wid /\
      abs_run r' = ar_released (abs_run r) WAITING_INPUT /\
      exists c, db_checkpoints (w_db w') = <[cp_id c := c]> (db_checkpoints (w_db w)) /\
        cp_run_id c = rid /\ cp_checkpoint_id c = cid /\ cp_consumed_at c = None /\
        cp_interrupt_id c = Some iid /\ cp_hitl_token c = Some (pa_hitl_token p))).
Proof.
  intros H W. unfold record_pause in H. minv; row_found W; exists row; bool_to_prop.
  - split_and!; [done..|]. left. split; [done|]. eauto.
  - match goal with Q : db_threads _ !! _ = Some ?t |- _ =>
      pose proof (wf_thread_key _ W _ _ Q) as Kt end.
    match goal with H : set_assistant_status ?x _ _ ?v = _ |- _ =>
      assert (moves (w_db w) (w_db v) row x) as Mv end.
    { eapply aside_moves; [|apply put_run_moves; [done|row_update]].
      eapply (put_checkpoint_aside _ _ row); try done. apply next_id_fresh. }
    match goal with H : set_assistant_status ?x _ _ ?v = (_, ?v') |- _ =>
      pose proof (status_checkpoints _ _ _ _ _ _ H ltac:(eauto with mew)) as Es;
      assert (db_checkpoints (w_db w') = db_checkpoints (w_db v)) as Ec end.
    { repeat match goal with R : append_event_in_session _ _ _ _ _ = _ |- _ =>
        apply append_checkpoints in R end. congruence. }
    follow W. split_and!; [done..|]. right. eexists. split_and!; try done.
    eexists. rewrite Ec. split; [reflexivity|]. by split_and!.
Qed.

(** ** Resuming *)

Lemma checkpoint_row_Some db name rid token c r t u :
  db_wf db -> checkpoint_row db name rid token = Some (c, r, t, u) ->
  db_checkpoints db !! cp_id c = Some c /\ cp_run_id c = rid /\ cp_hitl_token c = Some token /\
  db_runs db !! rid = Some r /\ run_id r = rid /\
  db_threads db !! run_thread_ref_id r = Some t /\ u_username u = name /\
  db_users db !! run_user_id r = Some u.
Proof.
  intros W. unfold checkpoint_row.
  destruct (db_runs db !! rid) as [r0|] eqn:Hr; [|done]. simpl.
  destruct (db_threads db !! _) as [t0|] eqn:Ht; [|done]. simpl.
  destruct (db_users db !! _) as [u0|] eqn:Hu; [|done]. simpl.
  destruct (first_where _ _) as [c0|] eqn:Hc; [|done]. simpl.
  case_bool_decide; [|done]. intros ?; simplify_eq.
  apply first_where_Some in Hc as (i & Hi & Hp). bool_to_prop.
  rewrite (wf_checkpoint_key _ W _ _ Hi). split_and!; try done. by eapply wf_run_key.
Qed.

Section Resume.
Context (env : Env) (preflight : ResumeAccessState -> option exn).

(** The worker that restarts the run with the answer, if one is named. *)
Definition worker_of (worker : option pystr) : option pystr :=
  match worker with Some w => if py_nonempty w then Some w else None | None => None end.

Lemma accept_resume_spec c r t answer key worker w res w' :
  accept_resume env c r t answer key worker w = (Ret res, w') -> db_wf (w_db w) ->
  cp_consumed_at c = None ->
  db_checkpoints (w_db w) !! cp_id c = Some c -> db_runs (w_db w) !! run_id r = Some r ->
  run_status r = WAITING_INPUT /\ cr_already_consumed res = false /\ cr_answer res = answer /\
  cr_checkpoint_id res = cp_checkpoint_id c /\
  exists r', moves (w_db w) (w_db w') r r' /\ cr_fencing_token res = run_fencing_token r' /\
  (exists c', db_checkpoints (w_db w') = <[cp_id c := c']> (db_checkpoints (w_db w)) /\
     is_Some (cp_consumed_at c') /\ cp_resume_idempotency_key c' = Some key /\
     cp_resume_payload_json c' = Some (answer_payload answer) /\
     checkpoint_core c' = checkpoint_core c) /\
  match worker_of worker with
  | Some wid => exists lease, abs_run r' = ar_claimed (abs_run r) wid lease
  | None => abs_run r' = ar_released (abs_run r) PENDING
  end.
Proof.
  intros H W Ho Hc Hr. unfold accept_resume, resumed_started in H. fold (worker_of worker) in H.
  destruct (worker_of worker) as [wid|]; minv; bool_to_prop; simplify_eq;
    (match goal with H : set_assistant_status ?x _ _ ?v = _ |- _ =>
       assert (moves (w_db w) (w_db v) r x) as Mv;
         [eapply aside_moves; [|apply put_run_moves; [done|row_update]];
          apply (update_checkpoint_aside _ c); [done..|rewrite Ho; by intros []]|];
       assert (db_checkpoints (w_db w') = db_checkpoints (w_db v)) as Ec
         by (etrans; [|eapply status_checkpoints; [exact H|eauto with mew]];
             by repeat match goal with R : append_event_in_session _ _ _ _ _ = _ |- _ =>
                  apply append_checkpoints in R; rewrite ?R; clear R end)
     end); follow W; split_and!; try done; eexists; split_and!; try done;
     try (eexists; rewrite Ec; split; [reflexivity|]; split_and!; [eauto|done..]).
  by eexists.
Qed.

Lemma replay_resume_spec c r t latest answer key worker w res w' :
  replay_resume env c r t latest answer key worker w = (Ret res, w') -> db_wf (w_db w) ->
  db_runs (w_db w) !! run_id r = Some r ->
  cp_resume_idempotency_key c = Some key /\
  opt_py_eq (cp_resume_payload_json c) (Some (answer_payload answer)) = true /\
  cr_already_consumed res = true /\ cr_checkpoint_id res = cp_checkpoint_id c /\
  db_checkpoints (w_db w') = db_checkpoints (w_db w) /\
  ((w_db w' = w_db w /\ cr_fencing_token res = run_fencing_token r) \/
   (run_status r = PENDING /\ latest = true /\
    exists r' wid lease, worker = Some wid /\ moves (w_db w) (w_db w') r r' /\
      cr_fencing_token res = run_fencing_token r' /\
      abs_run r' = ar_claimed (abs_run r) wid lease)).
Proof.
  intros H W Hr. unfold replay_resume, resumed_started in H. minv; bool_to_prop; simplify_eq;
    split_and!; try done; try (by left).
  - match goal with R : append_event_in_session _ _ _ _ _ = _ |- _ =>
      by apply append_checkpoints in R end.
  - right. split_and!; [done..|].
    match goal with H : append_event_in_session ?x _ _ _ ?v = _ |- _ =>
      assert (moves (w_db w) (w_db v) r x) as Mv by (apply put_run_moves; [done|row_update]) end.
    follow W. by eexists _, _, _.
Qed.

(** The first answer to a checkpoint, and its repetition. *)
Lemma consume_resume_spec name rid token answer key worker w res w' :
  consume_resume env preflight name rid token answer key worker w = (Ret res, w') ->
  db_wf (w_db w) ->
  exists c r t u, checkpoint_row (w_db w) name rid token = Some (c, r, t, u) /\
    preflight (resume_access r u) = None /\ py_nonempty (py_strip answer) = true /\
    conflicting_resume_key (w_db w) rid key (cp_id c) = false /\
    constraints_ok (w_db w') = true /\
    exists v v', w_db v = w_db w /\ w_db v' = w_db w' /\
    match cp_consumed_at c with
    | Some _ => replay_resume env c r t
                  (bool_decide (latest_checkpoint_id (w_db w) rid = Some (cp_id c)))
                  (py_strip answer) key worker v = (Ret res, v')
    | None => accept_resume env c r t (py_strip answer) key worker v = (Ret res, v')
    end.
Proof.
  intros H W. unfold consume_resume in H.
  apply bind_inv in H as (? & ? & [G ->]%raise_if_inv & H). unfold catch in H.
  destruct (transaction _ _) as [[res1|e] w1] eqn:T; [simplify_eq|by destruct e; minv].
  apply transaction_inv in T as [T C]. unfold run_preflight in T.
  apply bind_inv in T as (? & ? & [-> ->]%get_db_inv & T).
  apply bind_inv in T as ([[[c r] t] u] & ? & [Q ->]%require_inv & T). cbn beta iota in T.
  destruct (checkpoint_row_Some _ _ _ _ _ _ _ _ W Q) as (_ & _ & _ & _ & Ki & _).
  apply bind_inv in T as (? & w2 & P & T).
  apply bind_inv in T as (? & ? & [G2 ->]%raise_if_inv & T).
  destruct (preflight _) eqn:Pe; [done|]. apply ret_inv in P as [_ <-].
  exists c, r, t, u. bool_to_prop. rewrite Ki in G2. split_and!; try done.
  exists w, w'. split_and!; [done..|]. by destruct (cp_consumed_at c).
Qed.

Lemma record_resume_result_spec rid cid wid token state w x w' :
  record_resume_result rid cid wid token state w = (Ret x, w') -> db_wf (w_db w) ->
  aside (w_db w) (w_db w') /\
  exists r, db_runs (w_db w) !! rid = Some r /\ run_fencing_token r = token /\
    (run_status r = RUNNING -> run_owner_worker_id r = Some wid).
Proof.
  intros H W. unfold record_resume_result in H. minv.
  match goal with Q : _ = Some (_, _) |- _ => rename Q into Hq end.
  destruct (find_checkpoint _ _ _) eqn:Hc; [|done]. simpl in Hq.
  destruct (db_runs _ !! rid) eqn:Hr; simplify_eq/=. bool_to_prop.
  apply find_checkpoint_Some in Hc as (Hc & _); [|done].
  split; [by apply (update_checkpoint_aside _ r)|]. eexists. split_and!; try done.
  intros Hs. rewrite Hs in *. by bool_cases.
Qed.

End Resume.

(** ** Threads *)

Section ThreadSpecs.
Context (normalize_rag_trace : option json -> option json).

Lemma thread_get_or_create_spec user tid meta w t w' :
  thread_get_or_create user tid meta w = (Ret t, w') -> db_wf (w_db w) ->
  db_users (w_db w) !! u_id user = Some user ->
  aside (w_db w) (w_db w') /\ db_threads (w_db w') !! th_id t = Some t /\
  th_user_id t = u_id user /\ th_thread_id t = tid.
Proof.
  intros H W Hu. unfold thread_get_or_create in H. minv.
  - apply find_thread_Some in B as (? & ? & ?); [|done]. split; [apply aside_refl|done].
  - split_and!; try done; [|simpl; apply lookup_insert_eq].
    split; [|done]. apply changes_one, ch_new_thread; simpl; eauto. apply next_id_fresh.
Qed.

Lemma repo_create_thread_spec name tid title w u w' :
  repo_create_thread name tid title w = (Ret u, w') -> db_wf (w_db w) ->
  aside (w_db w) (w_db w').
Proof.
  intros H W. unfold repo_create_thread in H.
  apply transaction_inv in H as [H _].
  apply bind_inv in H as (? & ? & [-> ->]%get_db_inv & H).
  apply bind_inv in H as (user & ? & [Hu ->]%require_inv & H).
  apply bind_inv in H as (t & w1 & Ht & H).
  apply find_user_Some in Hu as [Hu _]; [|done].
  apply thread_get_or_create_spec in Ht as (As & Hl & _ & _); [|done..].
  minv; try done.
  destruct As as [C E]. split; [|done]. eapply changes_trans; [done|].
  apply changes_one. by eapply ch_thread.
Qed.

Lemma append_message_spec name tid m ver meta w res w' :
  append_message normalize_rag_trace name tid m ver meta w = (Ret res, w') -> db_wf (w_db w) ->
  aside (w_db w) (w_db w').
Proof.
  intros H W. unfold append_message, catch in H.
  destruct (transaction _ _) as [[res1|e] w1] eqn:T; [simplify_eq|by destruct e; minv].
  apply transaction_inv in T as [T _].
  apply bind_inv in T as (? & ? & [-> ->]%get_db_inv & T).
  destruct (find_user _ _) as [user|] eqn:Hu; [|minv; apply aside_refl].
  apply find_user_Some in Hu as [Hu _]; [|done].
  apply bind_inv in T as (t & w1 & Ht & T).
  apply thread_get_or_create_spec in Ht as (As & Hl & _ & _); [|done..].
  unfold assert_version, append_row in T. destruct As as [C E].
  minv; try done.
  all: split; [|done]; eapply changes_trans; [done|]; apply changes_one;
    eapply (ch_new_message _ t); [done|done|];
    split_and!; [simpl; apply next_id_fresh|done..].
Qed.

Lemma finalize_message_spec name tid mid content status trace w res w' :
  finalize_message normalize_rag_trace name tid mid content status trace w = (Ret res, w') ->
  db_wf (w_db w) -> aside (w_db w) (w_db w').
Proof.
  intros H W. unfold finalize_message in H. minv; try apply aside_refl.
  match goal with B : find_thread _ _ _ = Some _ |- _ =>
    apply find_thread_Some in B as (Ht & _); [|done] end.
  match goal with B : db_messages _ !! _ = Some _ |- _ =>
    pose proof (wf_message_key _ W _ _ B); subst mid; rename B into Hm end.
  split; [|done]. eapply changes_trans; [|apply changes_one; by eapply ch_thread].
  apply changes_one. by eapply ch_message.
Qed.

Lemma repo_delete_thread_spec name tid w res w' :
  repo_delete_thread name tid w = (Ret res, w') -> db_wf (w_db w) ->
  (res = false /\ w_db w' = w_db w) \/
  (res = true /\ exists t, db_threads (w_db w) !! th_id t = Some t /\ th_thread_id t = tid /\
     (forall i r, db_runs (w_db w) !! i = Some r -> run_thread_ref_id r = th_id t ->
        is_terminal (run_status r) = true) /\
     w_db w' = cascade_delete t (w_db w)).
Proof.
  intros H W. unfold repo_delete_thread in H. minv; try (by left). right. split; [done|].
  match goal with B : find_thread _ _ _ = Some ?t |- _ =>
    apply find_thread_Some in B as (Ht & ? & ?); [|done]; exists t end.
  split_and!; try done. intros i r Hi Hr.
  match goal with B : first_where _ _ = None |- _ => rewrite first_where_None in B;
    specialize (B i r Hi); rename B into Hn end.
  rewrite bool_decide_eq_true_2 in Hn by done. by bool_cases.
Qed.

End ThreadSpecs.

(** ** Outbox marks *)

Lemma mark_outbox_published_spec id w u w' :
  mark_outbox_published id w = (Ret u, w') -> db_wf (w_db w) -> aside (w_db w) (w_db w').
Proof.
  intros H W. unfold mark_outbox_published in H. minv; try apply aside_refl.
  split; [|done]. apply changes_one.
  match goal with B : db_outbox _ !! _ = Some ?o |- _ =>
    apply (ch_outbox _ o); [by rewrite (wf_outbox_key _ W _ _ B)|done] end.
Qed.

Lemma mark_attempt_spec id w u w' :
  _mark_attempt id w = (Ret u, w') -> db_wf (w_db w) -> aside (w_db w) (w_db w').
Proof.
  intros H W. unfold _mark_attempt in H. minv; try apply aside_refl.
  split; [|done]. apply changes_one.
  match goal with B : db_outbox _ !! _ = Some ?o |- _ =>
    apply (ch_outbox _ o); [by rewrite (wf_outbox_key _ W _ _ B)|done] end.
Qed.
