(* ===== verification/System.v ===== *)
(** * The system

    All transactions of the run runtime over one database, as operations any
    number of workers and request handlers may interleave. [exec_effect] sums up
    what a successful operation does; refinement of the run machine, preservation
    of the stored-data invariant and reachability follow from it. *)

From S2P Require Import Prelude PyBase Errors RunState Schema Session Effects Journal RunRepo Hitl Threads EventBus Changes RunMachine RunSpec HitlSpec.

Open Scope Z_scope.

Section System.
Context (env : Env).
Context (preflight : ResumeAccessState -> option exn).
Context (normalize_rag_trace : option json -> option json).

(** One constructor per transaction; the journal append is the fenced one of the
    workers. *)
Inductive Op :=
| OReserve (q : ReserveRequest)
| OClaim (rid worker_id : pystr) (lease_seconds : option Z)
| OHeartbeat (rid worker_id : pystr) (token : Z) (lease_seconds : option Z)
| OWaitInput (rid worker_id : pystr) (token : Z)
| OMarkCancelling (username rid : pystr)
| OFinalize (a : FinalizeArgs)
| OPinSkill (rid worker_id : pystr) (token : Z) (name version hash source : pystr)
| OToolAudit (rid worker_id : pystr) (token : Z) (a : ToolAuditArgs)
| OAppend (rid worker_id : pystr) (token : Z) (ty : RunEventType) (data : list (pystr * json))
| OPause (rid worker_id : pystr) (token : Z) (checkpoint_id interrupt_id : pystr)
    (value : list (pystr * json)) (state : json) (next_nodes : list pystr)
| OResume (username rid hitl_token answer key : pystr) (worker_id : option pystr)
| OResumeResult (rid checkpoint_id worker_id : pystr) (token : Z) (state : list (pystr * json))
| OMarkPublished (outbox_id : Z)
| OMarkAttempt (outbox_id : Z)
| OCreateThread (username thread_id : pystr) (title : option pystr)
| OAppendMessage (username thread_id : pystr) (m : MessageAppend) (version : option Z)
    (metadata : list (pystr * json))
| OFinalizeMessage (username thread_id : pystr) (message_id : Z) (content status : pystr)
    (trace : option json)
| ODeleteThread (username thread_id : pystr).

Definition run_op {A} (m : M A) : M unit := _ ← m; mret tt.

Definition exec (o : Op) : M unit :=
  match o with
  | OReserve q => run_op (reserve env q)
  | OClaim rid wid ls => run_op (claim env rid wid ls)
  | OHeartbeat rid wid token ls => run_op (heartbeat env rid wid token ls)
  | OWaitInput rid wid token => run_op (set_waiting_input rid wid token)
  | OMarkCancelling name rid => run_op (mark_cancelling name rid)
  | OFinalize a => run_op (finalize a)
  | OPinSkill rid wid token name version hash source =>
      run_op (pin_skill_activation rid wid token name version hash source)
  | OToolAudit rid wid token a => run_op (record_tool_audit rid wid token a)
  | OAppend rid wid token ty data => run_op (journal_append rid ty data (Some wid) (Some token))
  | OPause rid wid token cid iid value state nodes =>
      run_op (record_pause rid wid token cid iid value state nodes)
  | OResume name rid token answer key wid =>
      run_op (consume_resume env preflight name rid token answer key wid)
  | OResumeResult rid cid wid token state => run_op (record_resume_result rid cid wid token state)
  | OMarkPublished id => run_op (mark_outbox_published id)
  | OMarkAttempt id => run_op (_mark_attempt id)
  | OCreateThread name tid title => run_op (repo_create_thread name tid title)
  | OAppendMessage name tid m ver meta =>
      run_op (append_message normalize_rag_trace name tid m ver meta)
  | OFinalizeMessage name tid mid content status trace =>
      run_op (finalize_message normalize_rag_trace name tid mid content status trace)
  | ODeleteThread name tid => run_op (repo_delete_thread name tid)
  end.

(** ** The effect of a successful operation *)

(** A move of one row that is not the end of its run. *)
Inductive row_move (a : AbsRun) : AbsRun -> Prop :=
| rm_same : ar_active a = true -> row_move a a
| rm_claim w lease : claimable (ar_status a) = true -> row_move a (ar_claimed a w lease)
| rm_renew lease :
    ar_status a = RUNNING \/ ar_status a = CANCELLING -> is_Some (ar_owner a) ->
    row_move a (ar_renewed a lease)
| rm_pause : ar_status a = RUNNING -> row_move a (ar_released a WAITING_INPUT)
| rm_requeue : ar_status a = WAITING_INPUT -> row_move a (ar_released a PENDING)
| rm_mark : claimable (ar_status a) = true -> row_move a (ar_marked a).

(** [fin] tells whether the operation is a finalisation: only those end a run. *)
Inductive effect (fin : bool) (db : Database) : Database -> Prop :=
| eff_aside db' : aside db db' -> effect fin db db'
| eff_move db' r r' : moves db db' r r' -> row_move (abs_run r) (abs_run r') -> effect fin db db'
| eff_finish db' db1 r r' s :
    fin = true ->
    moves db db1 r r' -> promotes (run_thread_ref_id r) db1 db' ->
    is_terminal (run_status r) = false -> is_terminal s = true ->
    can_transition (run_status r) s = true -> (run_status r = CANCELLING -> s = CANCELLED) ->
    abs_run r' = ar_finished (abs_run r) s -> constraints_ok db' = true ->
    effect fin db db'
| eff_new db' r t now token :
    changes db db' -> db_runs db !! run_id r = None ->
    db_runs db' = <[run_id r := r]> (db_runs db) ->
    abs_run r = mkAbsRun t now (run_status r) None token None ->
    (run_status r = PENDING /\ ~ occupied (abs db) t) \/
    (run_status r = QUEUED /\ occupied (abs db) t) ->
    effect fin db db'
| eff_delete t :
    db_threads db !! th_id t = Some t ->
    (forall i r, db_runs db !! i = Some r -> run_thread_ref_id r = th_id t ->
       is_terminal (run_status r) = true) ->
    effect fin db (cascade_delete t db).

Lemma owned_effect db r :
  db_runs db !! run_id r = Some r -> abs_inv (abs db) -> run_status r = WAITING_INPUT ->
  run_owner_worker_id r = None.
Proof.
  intros Hr I Hs. pose proof (inv_ownership _ I _ _ (abs_lookup _ _ _ Hr)) as O.
  unfold ownership_ok in O. simpl in O. rewrite Hs in O. by destruct O.
Qed.

Lemma reserve_effect q w rv w' :
  reserve env q w = (Ret rv, w') -> db_wf (w_db w) -> effect false (w_db w) (w_db w').
Proof.
  intros H W. apply reserve_spec in H as (i & u & t & r & _ & [[]|[]]); [| |done].
  - by apply eff_aside.
  - eapply eff_new; try done. unfold admitted_as in *.
    destruct (active_run _ _) eqn:E.
    + right. split; [by destruct_and!|]. by eapply active_run_occupied.
    + left. split; [by destruct_and!|]. by apply active_run_None.
Qed.

Lemma finalize_effect a w rec w' :
  finalize a w = (Ret rec, w') -> db_wf (w_db w) -> effect true (w_db w) (w_db w').
Proof.
  intros H W. apply finalize_spec in H
    as (r & Hr & _ & _ & _ & [[-> _]|(Ht & Hc & db1 & r' & Mv & Hp & Htr & Hs & Ha)]); [| |done].
  - apply eff_aside, aside_refl.
  - eapply eff_finish; try done. intros. by apply final_target_cancelling.
Qed.

Lemma consume_resume_effect name rid token answer key wid w res w' :
  consume_resume env preflight name rid token answer key wid w = (Ret res, w') ->
  db_wf (w_db w) -> effect false (w_db w) (w_db w').
Proof.
  intros H W.
  apply consume_resume_spec in H as (c & r & t & u & Q & _ & _ & _ & _ & v & v' & Ev & Ev' & H);
    [|done].
  apply checkpoint_row_Some in Q as (Hc & _ & _ & Hr & Ki & _); [|done].
  rewrite <- Ki in Hr. rewrite <- Ev in *. rewrite <- Ev'. destruct (cp_consumed_at c) eqn:Eo.
  - apply replay_resume_spec in H as (_ & _ & _ & _ & _ & [[-> _]|H]); [| |done..].
    + apply eff_aside, aside_refl.
    + destruct H as (Hs & _ & r' & w1 & l & _ & Mv & _ & Ea). eapply eff_move; [done|].
      rewrite Ea. apply rm_claim. simpl. by rewrite Hs.
  - apply accept_resume_spec in H as (Hs & _ & _ & _ & r' & Mv & _ & _ & Ea); [|done..].
    eapply eff_move; [done|]. destruct (worker_of wid).
    + destruct Ea as [l ->]. apply rm_claim. simpl. by rewrite Hs.
    + rewrite Ea. by apply rm_requeue.
Qed.

Lemma fence_active r w t :
  append_fence_ok r (Some w) (Some t) = true ->
  run_owner_worker_id r = Some w /\ run_fencing_token r = t /\
  (run_status r = RUNNING \/ run_status r = CANCELLING).
Proof. unfold append_fence_ok. intros H. bool_cases; auto. Qed.

Definition is_finalize (o : Op) : bool := match o with OFinalize _ => true | _ => false end.

(** The effect of every operation that succeeds. *)
Lemma exec_effect o w w' :
  exec o w = (Ret tt, w') -> db_wf (w_db w) -> abs_inv (abs (w_db w)) ->
  effect (is_finalize o) (w_db w) (w_db w').
Proof.
  intros H W I. destruct o; simpl in H; unfold run_op in H;
    apply bind_inv in H as (x & w1 & H & [_ <-]%ret_inv).
  - by eapply reserve_effect.
  - apply claim_spec in H as (r & Hr & [(-> & _)|(r' & l & Mv & Hs & Ea & _)]); [| |done].
    + apply eff_aside, aside_refl.
    + eapply eff_move; [done|]. rewrite Ea. apply rm_claim. simpl.
      by destruct Hs as [-> | [-> _]].
  - apply heartbeat_spec in H as (r & r' & l & _ & Mv & _ & Ho & Hs & Ea); [|done].
    eapply eff_move; [done|]. rewrite Ea. apply rm_renew; [done|]. simpl. rewrite Ho. eauto.
  - apply set_waiting_input_spec in H as (r & r' & Hr & Mv & _ & Ho & [Hs|Hs] & Ea); [| |done].
    + eapply eff_move; [done|]. rewrite Ea. by apply rm_pause.
    + destruct Mv as (_ & Hr' & _). rewrite (owned_effect _ _ Hr' I Hs) in Ho. done.
  - apply mark_cancelling_spec in H as (r & Hr & [(-> & _)|(r' & Mv & Hs & Ea)]); [| |done].
    + apply eff_aside, aside_refl.
    + eapply eff_move; [done|]. rewrite Ea. by apply rm_mark.
  - by eapply finalize_effect.
  - apply pin_skill_activation_spec in H as (r & Hr & _ & Hs & _ & [(-> & _)|(r' & Mv & Ea & _)]);
      [| |done].
    + apply eff_aside, aside_refl.
    + eapply eff_move; [done|]. rewrite Ea. apply rm_same. unfold ar_active. simpl. by rewrite Hs.
  - apply record_tool_audit_spec in H as [As _]; [|done]. by apply eff_aside.
  - apply journal_append_spec in H as (r & Hr & (_ & _ & Hs)%fence_active & Mv); [|done].
    eapply eff_move; [done|]. apply (rm_same (abs_run r)). unfold ar_active. simpl.
    by destruct Hs as [-> | ->].
  - apply record_pause_spec in H as (r & Hr & _ & [(-> & _)|(r' & _ & Mv & Hs & _ & Ea & _)]); [| |done].
    + apply eff_aside, aside_refl.
    + eapply eff_move; [done|]. rewrite Ea. by apply rm_pause.
  - by eapply consume_resume_effect.
  - apply record_resume_result_spec in H as [As _]; [|done]. by apply eff_aside.
  - apply eff_aside. by eapply mark_outbox_published_spec.
  - apply eff_aside. by eapply mark_attempt_spec.
  - apply eff_aside. by eapply repo_create_thread_spec.
  - apply eff_aside. by eapply append_message_spec.
  - apply eff_aside. by eapply finalize_message_spec.
  - apply repo_delete_thread_spec in H as [(_ & ->)|(_ & t & Ht & _ & Hn & ->)]; [| |done].
    + apply eff_aside, aside_refl.
    + by apply eff_delete.
Qed.

(** ** Refinement of the run machine *)

Lemma effect_wf fin db db' : effect fin db db' -> db_wf db -> db_wf db'.
Proof.
  intros [db1 [C _]|db1 r r' (C & _) _|db2 db1 r r' s _ (C & _) Hp|db1 r t now tok C|t Ht Hn] W.
  all: try (by eapply changes_wf).
  - eapply changes_wf; [done|]. eapply changes_trans; [done|]. by eapply promotes_changes.
  - by apply wf_delete.
Qed.

(** The journal of a run that the operation does not delete only grows. *)
Lemma effect_journal fin db db' i :
  effect fin db db' -> is_Some (db_runs db' !! i) -> journal_of db i `prefix_of` journal_of db' i.
Proof.
  intros [db1 [C _]|db1 r r' (C & _) _|db2 db1 r r' s _ (C & _) Hp|db1 r t now tok C|t Ht Hn] [x Hx].
  all: try (by apply journal_of_prefix, changes_events).
  - apply journal_of_prefix, changes_events. eapply changes_trans; [done|]. by eapply promotes_changes.
  - apply survives_delete in Hx as [Hx N]. by rewrite (journal_of_delete t db i x).
Qed.

Lemma row_move_step db r a' :
  db_runs db !! run_id r = Some r -> row_move (abs_run r) a' ->
  rtc abs_step (abs db) (<[run_id r := a']> (abs db)).
Proof.
  intros Hr Hm. pose proof (abs_lookup _ _ _ Hr) as La.
  destruct Hm; try (apply rtc_once; by econstructor).
  rewrite insert_id by done. apply rtc_refl.
Qed.

(** The thread of an active run, in a database that satisfies the index. *)
Lemma active_unique db i j x y :
  constraints_ok db = true -> db_runs db !! i = Some x -> db_runs db !! j = Some y ->
  run_thread_ref_id x = run_thread_ref_id y ->
  is_active (run_status x) = true -> is_active (run_status y) = true -> i = j.
Proof.
  intros [_ _ _ _ U _ _ _ _ _ _ _ _]%constraints_ok_spec Hi Hj Et Hx Hy.
  eapply (U i j x y); try done; unfold idx_run_active; [by rewrite Hx|by rewrite Hy, Et].
Qed.

(** Ending a queued run never promotes another one: the thread has an active run,
    and the index admits no second. *)
Lemma finish_guard db db1 db' r r' s :
  abs_inv (abs db) -> moves db db1 r r' -> promotes (run_thread_ref_id r) db1 db' ->
  is_terminal (run_status r) = false -> is_terminal s = true ->
  abs_run r' = ar_finished (abs_run r) s -> constraints_ok db' = true ->
  ar_active (abs_run r) = true \/
  forall j x, j <> run_id r -> ~ queued_in (abs db) (run_thread_ref_id r) j x.
Proof.
  intros I (C & Hr & Kr & Er) Hp Ht Hs Ea Hc. unfold ar_active. simpl.
  destruct (is_active (run_status r)) eqn:A; [by left|right].
  assert (run_status r = QUEUED) as Hq by (by destruct (run_status r)).
  intros j x Nj (Hj & Htj & Hsj). unfold abs in Hj.
  apply lookup_fmap_Some in Hj as (y & <- & Hy). simpl in *.
  assert (db_runs db1 !! j = Some y) as Hy1 by (rewrite Er, lookup_insert_ne; done).
  destruct Hp as [Hn|db2 q q' Mq Hqt Hqs _ Eq]; [by eapply Hn|].
  destruct (inv_queue _ I _ _ (abs_lookup _ _ _ Hr) Hq) as (k & z & Hk & Hzt & Hza).
  unfold abs in Hk. apply lookup_fmap_Some in Hk as (b & <- & Hb). simpl in *.
  assert (k <> run_id r) as Nk by (intros ->; unfold ar_active in Hza; simpl in Hza; congruence).
  assert (db_runs db1 !! k = Some b) as Hb1 by (rewrite Er, lookup_insert_ne; done).
  pose proof (moves_row _ _ _ _ Mq) as Lq. destruct Mq as (_ & Lq0 & Kq & Eqd).
  assert (k <> run_id q) as Nq.
  { intros ->. rewrite Lq0 in Hb1. simplify_eq. unfold ar_active in Hza. simpl in Hza.
    by rewrite Hqs in Hza. }
  rewrite (run_core_id _ _ Kq) in Lq.
  apply Nq. eapply (active_unique db2 k (run_id q) b q'); try done.
  - rewrite Eqd, lookup_insert_ne; done.
  - unfold run_core in Kq. injection Kq as ?. congruence.
  - replace (run_status q') with PENDING; [done|]. by injection Eq.
Qed.

Lemma effect_refines fin db db' :
  effect fin db db' -> abs_inv (abs db) -> rtc abs_step (abs db) (abs db').
Proof.
  intros [db1 As|db1 r r' Mv Hm|db2 db1 r r' s _ Mv Hp Ht Hs Htr Hcc Ea Hc|db1 r t now tok C Hn Er Ea Hs|t Ht Hn] I.
  - rewrite (abs_aside _ _ As). apply rtc_refl.
  - rewrite (abs_moves _ _ _ _ Mv). destruct Mv as (_ & Hr & _). by eapply row_move_step.
  - apply rtc_once. pose proof (finish_guard _ _ _ _ _ _ I Mv Hp Ht Hs Ea Hc) as G.
    apply promotes_abs in Hp. rewrite (abs_moves _ _ _ _ Mv), Ea in Hp.
    destruct Mv as (_ & Hr & _). by eapply abs_finish; eauto with mew.
  - apply rtc_once. unfold abs at 2. rewrite Er, fmap_insert. fold (abs db).
    assert (abs db !! run_id r = None) as Ha by (unfold abs; by rewrite lookup_fmap, Hn).
    rewrite Ea. destruct Hs as [[-> Ho]|[-> Ho]]; by constructor.
  - apply rtc_once.
    replace (abs (cascade_delete t db)) with (filter (fun kv => ar_thread kv.2 <> th_id t) (abs db)).
    + apply abs_delete. intros i x Hi Hx. unfold abs in Hi.
      apply lookup_fmap_Some in Hi as (r & <- & Hr). by eapply Hn.
    + unfold abs. simpl. by rewrite map_filter_fmap.
Qed.

(** ** Failures and constraints *)

#[local] Instance atomic_run_op {A} (m : M A) : Atomic m -> Atomic (run_op m).
Proof.
  intros Hm w e w'. unfold run_op, mbind, M_bind.
  destruct (m w) as [[a|e1] w1] eqn:E; [done|]. intros ?; simplify_eq. eauto.
Qed.

#[local] Instance consistent_run_op {A} (m : M A) : Consistent m -> Consistent (run_op m).
Proof. intros Hm. unfold run_op. apply _. Qed.

#[local] Instance read_only_reserve_inputs q : ReadOnly (reserve_inputs env q).
Proof.
  unfold reserve_inputs, validate_thread_id, validate_idempotency_key, security_identifier,
    validate_approved_tools. effects.
Qed.

#[local] Instance read_only_load_reservation name tid key : ReadOnly (load_reservation name tid key).
Proof. unfold load_reservation. apply _. Qed.

Ltac op_effects := 
  unfold reserve, claim, heartbeat, set_waiting_input, mark_cancelling, finalize,
    pin_skill_activation, record_tool_audit, journal_append, record_pause, consume_resume,
    record_resume_result, mark_outbox_published, _mark_attempt, repo_create_thread,
    append_message, finalize_message, repo_delete_thread; cbv zeta; effects.

#[local] Instance atomic_exec o : Atomic (exec o).
Proof. destruct o; cbn [exec]; apply atomic_run_op; op_effects. Qed.

#[local] Instance consistent_exec o : Consistent (exec o).
Proof. destruct o; cbn [exec]; apply consistent_run_op; op_effects. Qed.

Lemma run_op_raise {A} (m : M A) w e w' : m w = (Raise e, w') -> run_op m w = (Raise e, w').
Proof. intros E. unfold run_op. by apply bind_raise. Qed.

Lemma run_op_ret {A} (m : M A) w a w' : m w = (Ret a, w') -> run_op m w = (Ret tt, w').
Proof. intros E. unfold run_op. by erewrite bind_run. Qed.

(** An operation that raises leaves the database as it was. *)
Lemma exec_raise o w e w' : exec o w = (Raise e, w') -> w_db w' = w_db w.
Proof. apply atomic. Qed.

Lemma exec_constraints o w w' :
  exec o w = (Ret tt, w') -> constraints_ok (w_db w) = true -> constraints_ok (w_db w') = true.
Proof. apply consistent. Qed.

(** ** Reachable databases *)

Record sys_inv (db : Database) : Prop := mkSysInv {
  si_wf : db_wf db;
  si_constraints : constraints_ok db = true;
  si_abs : abs_inv (abs db)
}.

(** One operation, of any worker, at any time and with any UUIDs, successful or
    not. *)
Definition sys_step (db db' : Database) : Prop :=
  exists o w oc w', exec o w = (oc, w') /\ w_db w = db /\ w_db w' = db'.

(** The database after the users signed up, before the first thread. *)
Definition initial (db : Database) : Prop :=
  (forall i u, db_users db !! i = Some u -> u_id u = i) /\
  unique_prop idx_username (db_users db) /\
  db = set_db_users (db_users db) (mkDatabase ∅ ∅ ∅ ∅ [] ∅ ∅ ∅).

Definition reachable (db : Database) : Prop := exists db0, initial db0 /\ rtc sys_step db0 db.

Lemma initial_inv db : initial db -> sys_inv db.
Proof.
  intros (K & U & E). rewrite E. constructor.
  - constructor; simpl; first [intros i x Hi | intros x Hi]; try (by rewrite lookup_empty in Hi);
      try (by apply elem_of_nil in Hi). eauto.
  - apply constraints_ok_spec. constructor; simpl; try apply unique_prop_empty; try done.
  - unfold abs. simpl. rewrite fmap_empty. apply abs_inv_empty.
Qed.

Lemma sys_step_inv db db' : sys_inv db -> sys_step db db' -> sys_inv db'.
Proof.
  intros [W C I] (o & w & oc & w' & H & <- & <-). destruct oc as [[]|e].
  - pose proof (exec_effect _ _ _ H W I) as Ef. constructor.
    + by eapply effect_wf.
    + by eapply exec_constraints.
    + eapply abs_steps_inv; [done|]. by eapply effect_refines.
  - apply exec_raise in H. rewrite H. by constructor.
Qed.

Lemma reachable_inv db : reachable db -> sys_inv db.
Proof.
  intros (db0 & I0 & S). apply initial_inv in I0. induction S; eauto using sys_step_inv.
Qed.

Lemma reachable_step db db' : reachable db -> sys_step db db' -> reachable db'.
Proof. intros (db0 & I0 & S) St. exists db0. split; [done|]. by eapply rtc_r. Qed.

(** Running operations one after the other; a failed one is skipped over. *)
Definition run_ops (ops : list Op) (w : World) : World :=
  foldl (fun w o => (exec o w).2) w ops.

Lemma run_ops_reachable ops w : reachable (w_db w) -> reachable (w_db (run_ops ops w)).
Proof.
  revert w. induction ops as [|o ops IH]; intros w R; [done|]. simpl. apply IH.
  eapply reachable_step; [done|]. destruct (exec o w) as [oc w'] eqn:E. simpl.
  exists o, w, oc, w'. done.
Qed.

End System.
