(* ===== verification/Progress.v ===== *)
(** * Progress

    A transaction of the runtime succeeds when its guards hold: the events it
    appends are valid, the constraints stay satisfied and no exception escapes.
    The only outside condition is that the UUIDs it draws are new. *)

From S2P Require Import Prelude PyBase Errors RunState Schema Session Effects Journal RunRepo Threads Changes RunMachine RunSpec System.

Open Scope Z_scope.

(** The next [k] event ids the world will hand out. *)
Definition event_ids (w : World) (k : nat) : list pystr :=
  (fun n => ("evt_"%py +++ w_uuid w n)%py) <$> seq (w_uuid_next w) k.

(** They are distinct, well formed and not in the journal. *)
Definition fresh_ids (k : nat) (w : World) : Prop :=
  NoDup (event_ids w k) /\
  Forall (fun id => prefixed_id_ok "evt_"%py id 80 = true /\
                    id ∉ (ev_event_id <$> db_events (w_db w))) (event_ids w k).

#[export] Instance fresh_ids_dec k w : Decision (fresh_ids k w).
Proof. unfold fresh_ids. apply _. Defined.

(** ** Constraints *)

(** A new version of a run row keeps the constraints. *)
Definition run_fits (r0 run : Run) : Prop :=
  run_update r0 run /\ run_checks run = true /\
  (idx_run_active run = idx_run_active r0 \/ idx_run_active run = None).

Lemma constraints_row db r0 run :
  constraints_ok db = true -> db_runs db !! run_id r0 = Some r0 ->
  run_core run = run_core r0 -> run_checks run = true ->
  unique_prop idx_run_active (<[run_id r0 := run]> (db_runs db)) ->
  constraints_ok (put_run run db) = true.
Proof.
  rewrite !constraints_ok_spec. intros [] Hr Hc Hk Ha. constructor; try done; simpl;
    rewrite (run_core_id _ _ Hc); try done.
  - eapply unique_prop_update; [done..|left]. unfold idx_run_idempotency.
    unfold run_core in Hc. injection Hc as ?. congruence.
  - eapply unique_prop_update; [done..|left]. unfold idx_run_assistant.
    unfold run_core in Hc. by injection Hc.
  - by apply map_Forall_insert_2.
Qed.

Lemma constraints_put_run db r0 run :
  constraints_ok db = true -> db_runs db !! run_id r0 = Some r0 ->
  run_core run = run_core r0 -> run_checks run = true ->
  (idx_run_active run = idx_run_active r0 \/ idx_run_active run = None) ->
  constraints_ok (put_run run db) = true.
Proof.
  intros C Hr Hc Hk Ha. eapply constraints_row; try done.
  apply constraints_ok_spec in C. eapply unique_prop_update; [apply C|done..].
Qed.

Lemma constraints_put_message db m m' :
  constraints_ok db = true -> db_messages db !! msg_id m = Some m ->
  message_core m' = message_core m -> constraints_ok (put_message m' db) = true.
Proof.
  rewrite !constraints_ok_spec. intros [] Hm Hc. unfold message_core in Hc. injection Hc as E1 E2 _ E3 E4 _ _.
  constructor; try done; simpl; rewrite E1; (eapply unique_prop_update; [done..|left]).
  - unfold idx_message_sequence. by rewrite E2, E4.
  - unfold idx_message_client. by rewrite E2, E3.
Qed.

Lemma constraints_put_thread db t t' :
  constraints_ok db = true -> db_threads db !! th_id t = Some t ->
  thread_core t' = thread_core t -> constraints_ok (put_thread t' db) = true.
Proof.
  rewrite !constraints_ok_spec. intros [] Ht Hc. unfold thread_core in Hc. injection Hc as E1 E2 E3 _ _ _ _ _.
  constructor; try done; simpl. rewrite E1. eapply unique_prop_update; [done..|left].
  unfold idx_user_thread. congruence.
Qed.

Lemma constraints_put_outbox db o : constraints_ok (put_outbox o db) = constraints_ok db.
Proof. done. Qed.

Lemma constraints_add_event db e :
  constraints_ok db = true ->
  (forall x, x ∈ db_events db -> ev_run_id x = ev_run_id e -> ev_sequence x <> ev_sequence e) ->
  ev_event_id e ∉ (ev_event_id <$> db_events db) ->
  constraints_ok (add_event e db) = true.
Proof.
  rewrite !constraints_ok_spec. intros [] Hs Hi. constructor; try done. simpl.
  unfold events_unique in *. bool_to_prop. apply andb_true_iff. rewrite !bool_decide_eq_true.
  rewrite !fmap_app. simpl. split; apply NoDup_app; split_and!; try done; try apply NoDup_singleton.
  - intros x Hx ->%list_elem_of_singleton. apply list_elem_of_fmap in Hx as (y & E & Hy).
    injection E as E1 E2. by eapply Hs.
  - intros x Hx ->%list_elem_of_singleton. done.
Qed.

(** ** Appending an event *)

Lemma new_sequence_free db r :
  db_wf db -> db_runs db !! run_id r = Some r ->
  forall x, x ∈ db_events db -> ev_run_id x = run_id r ->
    ev_sequence x <> run_last_event_sequence r + 1.
Proof.
  intros W Hr x Hx Ei Es. destruct (wf_journal _ W _ _ Hr) as [P J].
  assert (x ∈ journal_of db (run_id r)) as Hj.
  { unfold journal_of. apply list_elem_of_In, filter_In. rewrite bool_decide_eq_true.
    split; [by apply list_elem_of_In|done]. }
  assert (ev_sequence x ∈ zrange 1 (Z.to_nat (run_last_event_sequence r))) as Hz.
  { rewrite <- J. apply list_elem_of_fmap. eauto. }
  apply elem_of_zrange in Hz. lia.
Qed.

Lemma append_succeeds k r0 run tid ty data w :
  fresh_ids (S k) w -> db_wf (w_db w) -> constraints_ok (w_db w) = true ->
  db_runs (w_db w) !! run_id r0 = Some r0 -> run_fits r0 run ->
  prefixed_id_ok "run_"%py (run_id run) 64 = true -> thread_id_ok tid = true ->
  exists ja w', append_event_in_session run tid ty data w = (Ret (bump_sequence run, ja), w') /\
    constraints_ok (w_db w') = true /\ fresh_ids k w'.
Proof.
  intros [ND FA] W C Hr (Hu & Hk & Ha) Hn Ht.
  assert (Ec := Hu). destruct Ec as (Hc & Hs & _). pose proof (run_core_id _ _ Hc) as Ei.
  unfold event_ids in *. simpl in ND, FA.
  apply NoDup_cons in ND as [NI ND]. apply Forall_cons in FA as [[Hv Hf] FA].
  destruct (wf_journal _ W _ _ Hr) as [P _].
  unfold append_event_in_session, new_run_event, uuid4_hex, utcnow, get_db, modify_db, flush, store_ok, database_store.
  unfold mbind, M_bind, mret, M_ret. cbn beta iota.
  cbn [w_clock w_tick w_uuid w_uuid_next set_w_tick set_w_uuid_next w_db].
  set (e := mkRunEventV1 1 _ _ _ _ _ _ _).
  assert (event_valid e = true) as Hev.
  { unfold event_valid. simpl. rewrite Hv, Hn, Ht, Hs. rewrite andb_true_r, !andb_true_r.
    simpl. apply Z.leb_le. lia. }
  rewrite Hev. simpl negb. cbn [raise_if]. unfold mret, M_ret. cbn beta iota. cbn [w_db set_w_db].
  assert (Cok : constraints_ok (put_outbox (outbox_row (next_id (db_outbox (w_db w))) e)
    (add_event (event_row e) (put_run (bump_sequence run) (w_db w)))) = true).
  { rewrite constraints_put_outbox. apply constraints_add_event.
    - eapply (constraints_put_run _ r0); try done.
    - simpl. rewrite Ei, Hs. by apply new_sequence_free.
    - done. }
  cbn [w_db set_w_db set_w_tick set_w_uuid_next] in *. unfold bump_sequence in Cok. rewrite Cok.
  do 2 eexists. split; [reflexivity|]. split; [done|]. split; [done|]. simpl.
  apply Forall_forall. intros id Hid. rewrite Forall_forall in FA.
  destruct (FA id Hid) as [? ?]. split; [done|].
  rewrite fmap_app. simpl. rewrite not_elem_of_app. split; [done|].
  rewrite list_elem_of_singleton. intros ->. done.
Qed.

(** ** Claiming and finishing *)

(** Unfold the monad and run the pure steps. *)
Ltac mrun :=
  unfold mbind, M_bind, mret, M_ret, raise, get_db, modify_db, utcnow, uuid4_hex, require, raise_if;
  cbn [w_db w_clock w_tick w_uuid w_uuid_next set_w_db set_w_tick set_w_uuid_next negb].

Lemma flush_run w : constraints_ok (w_db w) = true -> flush w = (Ret tt, w).
Proof. intros E. unfold flush, store_ok, database_store. by rewrite E. Qed.

Lemma transition_run run target w :
  can_transition (run_status run) target = true ->
  transition run target w =
    (Ret (set_run_updated_at (w_clock w (w_tick w)) (set_run_status target run)),
     set_w_tick (S (w_tick w)) w).
Proof. intros E. unfold transition. by rewrite E. Qed.

Lemma run_thread_found db i r :
  db_wf db -> db_runs db !! i = Some r ->
  exists t, db_threads db !! run_thread_ref_id r = Some t /\ th_id t = run_thread_ref_id r /\
    run_names_ok r t.
Proof.
  intros W Hr. destruct (wf_run_thread _ W _ _ Hr) as (t & Ht & _ & Hn).
  exists t. split_and!; [done|by eapply wf_thread_key|done].
Qed.

Lemma constraints_run_checks db i r :
  constraints_ok db = true -> db_runs db !! i = Some r -> run_checks r = true.
Proof. intros C%constraints_ok_spec Hr. by apply (ok_run_checks _ C) in Hr. Qed.

Lemma claim_succeeds env rid wid ls w r :
  sys_inv (w_db w) -> fresh_ids 1 w -> db_runs (w_db w) !! rid = Some r ->
  run_status r = PENDING ->
  exists rec w', claim env rid wid ls w = (Ret rec, w').
Proof.
  intros [W C _] Hf Hr Hs. pose proof (wf_run_key _ W _ _ Hr) as <-.
  destruct (run_thread_found _ _ _ W Hr) as (t & Ht & Kt & Hn1 & Hn2).
  unfold claim, transaction. mrun. rewrite Hr. mrun. rewrite Hs, transition_run by (by rewrite Hs).
  mrun. rewrite Ht. mrun.
  match goal with |- context [append_event_in_session ?x ?a ?b ?c ?v] =>
    destruct (append_succeeds 0 r x a b c v) as (ja & w' & E & C' & _) end; try done.
  - split; [row_update|]. split.
    + by eapply (constraints_run_checks _ _ r).
    + left. unfold idx_run_active. cbn. by rewrite Hs.
  - rewrite E. mrun. unfold flush, store_ok, database_store. rewrite C'. rewrite C'. eauto.
Qed.

Lemma run_fits_refl db r :
  constraints_ok db = true -> db_runs db !! run_id r = Some r -> run_fits r r.
Proof.
  intros C Hr. split; [apply run_update_refl|]. split; [by eapply constraints_run_checks|by left].
Qed.

(** An event appended to the stored row itself. *)
Lemma append_again k run tid ty data w :
  fresh_ids (S k) w -> db_wf (w_db w) -> constraints_ok (w_db w) = true ->
  db_runs (w_db w) !! run_id run = Some run ->
  prefixed_id_ok "run_"%py (run_id run) 64 = true -> thread_id_ok tid = true ->
  exists ja w', append_event_in_session run tid ty data w = (Ret (bump_sequence run, ja), w') /\
    constraints_ok (w_db w') = true /\ fresh_ids k w' /\ db_wf (w_db w') /\
    db_runs (w_db w') !! run_id (bump_sequence run) = Some (bump_sequence run).
Proof.
  intros Hf W C Hr Hn Ht.
  destruct (append_succeeds k run run tid ty data w) as (ja & w' & E & C' & F'); try done.
  { by eapply run_fits_refl. }
  exists ja, w'. destruct (append_changes run _ _ _ _ _ _ _ _ E Hr) as (Mv & _).
  { apply run_update_refl. }
  split_and!; [done..|by eapply moves_wf|by eapply moves_row].
Qed.

Lemma fresh_ids_weaken k w : fresh_ids (S k) w -> fresh_ids k w.
Proof.
  unfold fresh_ids, event_ids. rewrite seq_S, fmap_app. intros [N F].
  apply NoDup_app in N as (N & _ & _). apply Forall_app in F as [F _]. done.
Qed.

Lemma finish_events_succeeds run tid a w :
  fresh_ids 3 w -> db_wf (w_db w) -> constraints_ok (w_db w) = true ->
  db_runs (w_db w) !! run_id run = Some run ->
  prefixed_id_ok "run_"%py (run_id run) 64 = true -> thread_id_ok tid = true ->
  is_terminal (fz_target_status a) = true ->
  exists run' w', finish_events run tid a w = (Ret run', w') /\ constraints_ok (w_db w') = true.
Proof.
  intros Hf W C Hr Hn Ht Hs. unfold finish_events.
  assert (exists run1 w1,
    (if negb (fz_input_tokens a =? 0) || negb (fz_output_tokens a =? 0) || decimal_nonzero (fz_cost a)
     then '(run, _) ← append_event_in_session run tid USAGE_UPDATED
            [("input_tokens"%py, JInt (run_input_tokens run));
             ("output_tokens"%py, JInt (run_output_tokens run));
             ("cost"%py, JDecStr (run_cost run))];
          mret run
     else mret run) w = (Ret run1, w1) /\
    fresh_ids 2 w1 /\ db_wf (w_db w1) /\ constraints_ok (w_db w1) = true /\
    db_runs (w_db w1) !! run_id run1 = Some run1 /\ run_id run1 = run_id run)
    as (run1 & w1 & E1 & F1 & W1 & C1 & R1 & I1).
  { destruct (_ || _).
    - destruct (append_again 2 run tid USAGE_UPDATED
        [("input_tokens"%py, JInt (run_input_tokens run));
         ("output_tokens"%py, JInt (run_output_tokens run));
         ("cost"%py, JDecStr (run_cost run))] w) as (ja & w1 & E & ? & ? & ? & ?); try done.
      exists (bump_sequence run), w1. erewrite bind_run by exact E. by split_and!.
    - exists run, w. split_and!; try done. by apply fresh_ids_weaken. }
  erewrite bind_run by exact E1.
  match goal with |- context [append_event_in_session run1 tid MESSAGE_COMPLETED ?d] =>
    destruct (append_again 1 run1 tid MESSAGE_COMPLETED d w1) as (ja2 & w2 & E2 & C2 & F2 & W2 & R2);
      try done; [by rewrite I1|] end.
  erewrite bind_run by exact E2. cbn beta iota.
  destruct (terminal_event (fz_target_status a)) as [ty|] eqn:Ety;
    [|by destruct (fz_target_status a)].
  erewrite bind_run by reflexivity.
  match goal with |- context [append_event_in_session ?r2 tid ty ?d] =>
    destruct (append_again 0 r2 tid ty d w2) as (ja3 & w3 & E3 & C3 & F3 & W3 & R3);
      try done; [by rewrite <- I1 in Hn|] end.
  erewrite bind_run by exact E3. cbn beta iota. eauto.
Qed.

(** ** Promotion into a free thread *)

Lemma constraints_activate db q q' :
  constraints_ok db = true -> db_runs db !! run_id q = Some q ->
  run_core q' = run_core q -> run_checks q' = true ->
  ~ occupied (abs db) (run_thread_ref_id q) ->
  constraints_ok (put_run q' db) = true.
Proof.
  intros C Hr Hc Hk No. eapply constraints_row; try done.
  assert (run_thread_ref_id q' = run_thread_ref_id q) as Et
    by (unfold run_core in Hc; by injection Hc).
  apply constraints_ok_spec in C. apply unique_prop_insert; [apply C|].
  intros j x k Nj Hx Ex Eq. unfold idx_run_active in *.
  destruct (is_active (run_status x)) eqn:Ax; [|done].
  destruct (is_active (run_status q')); [|done].
  apply No. exists j, (abs_run x). split_and!; [eauto with mew| |done]. simpl. congruence.
Qed.

Lemma set_status_succeeds run status now t w :
  (forall v, now v = (Ret t, v)) -> db_wf (w_db w) -> constraints_ok (w_db w) = true ->
  exists w', set_assistant_status run status now w = (Ret tt, w') /\ constraints_ok (w_db w') = true.
Proof.
  intros Hn W C. unfold set_assistant_status. erewrite bind_run by reflexivity.
  destruct (_ ≫= _) as [m|] eqn:E; [|by eexists].
  erewrite bind_run by apply Hn. eexists. split; [reflexivity|]. simpl.
  destruct (run_assistant_message_id run) as [mid|]; [|done]. simpl in E.
  eapply (constraints_put_message _ m); [done| |done]. by rewrite (wf_message_key _ W _ _ E).
Qed.

Lemma set_status_returns run status now t w :
  (forall v, now v = (Ret t, v)) -> exists w', set_assistant_status run status now w = (Ret tt, w').
Proof.
  intros Hn. unfold set_assistant_status. erewrite bind_run by reflexivity.
  destruct (_ ≫= _) as [m|]; [|by eexists]. erewrite bind_run by apply Hn. by eexists.
Qed.

(** The promotion itself always returns: only the flush after it may refuse. *)
Lemma promote_returns thread now w : exists w', promote_next_queued thread now w = (Ret tt, w').
Proof.
  unfold promote_next_queued. erewrite bind_run by reflexivity.
  destruct (next_queued _ _) as [q|]; [|by eexists].
  erewrite bind_run by reflexivity. by eapply set_status_returns.
Qed.

Lemma promote_succeeds thread now w :
  db_wf (w_db w) -> constraints_ok (w_db w) = true -> ~ occupied (abs (w_db w)) (th_id thread) ->
  exists w', promote_next_queued thread now w = (Ret tt, w') /\ constraints_ok (w_db w') = true.
Proof.
  intros W C No. unfold promote_next_queued. erewrite bind_run by reflexivity.
  destruct (next_queued _ _) as [q|] eqn:Eq; [|by eexists].
  apply next_queued_Some in Eq as ([i Hi] & Ht & Hs & _).
  pose proof (wf_run_key _ W _ _ Hi) as <-.
  erewrite bind_run by reflexivity.
  eapply set_status_succeeds; [done| |]; simpl.
  - eapply moves_wf; [exact W|]. apply put_run_moves; [done|row_update].
  - eapply (constraints_activate _ q); try done; [exact (constraints_run_checks _ _ _ C Hi)|].
    by rewrite Ht.
Qed.

(** ** Ending an active run *)

(** Once its active run is finished, the thread is free. *)
Lemma finished_frees_thread db db' r r' s :
  abs_inv (abs db) -> moves db db' r r' -> is_active (run_status r) = true ->
  abs_run r' = ar_finished (abs_run r) s -> is_terminal s = true ->
  ~ occupied (abs db') (run_thread_ref_id r).
Proof.
  intros I Mv Ha Er Hs (j & x & Hj & Ht & Hx). rewrite (abs_moves _ _ _ _ Mv), Er in Hj.
  destruct Mv as (_ & Hr & _ & _). apply lookup_insert_Some in Hj as [[<- <-]|[N Hj]].
  - unfold ar_active in Hx. simpl in Hx. apply terminal_not_active in Hs. congruence.
  - apply N. eapply (inv_exclusive _ I (run_id r) j (abs_run r) x); eauto with mew.
Qed.

Lemma finish_message_run assistant a now w :
  db_wf (w_db w) -> constraints_ok (w_db w) = true ->
  (forall m, assistant = Some m -> db_messages (w_db w) !! msg_id m = Some m) ->
  exists db', finish_message assistant a now w = (Ret tt, set_w_db db' w) /\
    constraints_ok db' = true /\ aside (w_db w) db' /\ db_threads db' = db_threads (w_db w) /\
    db_events db' = db_events (w_db w).
Proof.
  intros W C Hm. destruct assistant as [m|].
  - unfold finish_message, modify_db. eexists. split; [reflexivity|].
    split; [by eapply (constraints_put_message _ m); eauto|]. split; [|done].
    split; [|done]. apply changes_one. by eapply (ch_message _ m); eauto.
  - exists (w_db w). destruct w. split_and!; try done. apply aside_refl.
Qed.

Lemma fresh_ids_db k w db : db_events db = db_events (w_db w) -> fresh_ids k w -> fresh_ids k (set_w_db db w).
Proof. unfold fresh_ids, event_ids. simpl. by intros ->. Qed.

(** The end of a run up to the promotion: whatever its status, nothing raises
    until the next run is promoted. *)
Lemma finalize_live_ends r t assistant a now w :
  sys_inv (w_db w) -> fresh_ids 3 w -> db_runs (w_db w) !! run_id r = Some r ->
  db_threads (w_db w) !! th_id t = Some t -> th_id t = run_thread_ref_id r -> run_names_ok r t ->
  (forall m, assistant = Some m -> db_messages (w_db w) !! msg_id m = Some m) ->
  can_transition (run_status r) (final_target r a) = true ->
  is_terminal (final_target r a) = true ->
  exists r4 t' w4, moves (w_db w) (w_db w4) r r4 /\ constraints_ok (w_db w4) = true /\
    abs_run r4 = ar_finished (abs_run r) (final_target r a) /\ th_id t' = th_id t /\
    finalize_live r t assistant a now w =
      (promote_next_queued t' now;; flush;; mret (_record r4 (th_thread_id t'))) w4.
Proof.
  intros [W C I] Hf Hr Ht Et [Hn1 Hn2] Hm Htr Hs. unfold finalize_live.
  fold (final_target r a). set (a' := resolve_cancelling r a) in *.
  erewrite bind_run by (by apply transition_run). erewrite bind_run by reflexivity.
  set (r1 := finished (set_run_updated_at _ (set_run_status (final_target r a) r)) a' now).
  set (w1 := set_w_db _ _).
  assert (moves (w_db w) (w_db w1) r r1) as M1 by (apply put_run_moves; [done|row_update]).
  assert (constraints_ok (w_db w1) = true) as C1.
  { eapply (constraints_put_run _ r); try done; [exact (constraints_run_checks _ _ _ C Hr)|].
    right. unfold idx_run_active. simpl. by rewrite (terminal_not_active _ Hs). }
  destruct (finish_message_run assistant a' now w1) as (db2 & E2 & C2 & A2 & T2 & V2);
    [by eapply moves_wf|done|done|].
  erewrite bind_run by exact E2. erewrite bind_run by reflexivity.
  set (t' := set_th_updated_at now t). set (w3 := set_w_db (put_thread t' _) _).
  assert (moves (w_db w) (w_db w3) r r1) as M3.
  { eapply moves_aside; [by eapply moves_aside|]. split; [|done]. apply changes_one.
    apply (ch_thread _ t); [simpl; by rewrite T2|done]. }
  assert (db_wf (w_db w3)) as W3 by (by eapply moves_wf).
  destruct (finish_events_succeeds r1 (th_thread_id t') a' w3) as (r4 & w4 & E4 & C4); try done.
  { apply (fresh_ids_db 3 _ (put_thread t' db2)), fresh_ids_db; simpl; try done. }
  { apply (constraints_put_thread _ t); [done|simpl; by rewrite T2|done]. }
  { by eapply moves_row. }
  pose proof (finish_events_spec _ _ _ _ _ _ _ _ M3 E4) as (M4 & Ea & _).
  exists r4, t', w4. split_and!; [done..|].
  erewrite bind_run by exact E4. by erewrite bind_run by (by apply flush_run).
Qed.

Lemma finalize_live_succeeds r t assistant a now w :
  sys_inv (w_db w) -> fresh_ids 3 w -> db_runs (w_db w) !! run_id r = Some r ->
  db_threads (w_db w) !! th_id t = Some t -> th_id t = run_thread_ref_id r -> run_names_ok r t ->
  (forall m, assistant = Some m -> db_messages (w_db w) !! msg_id m = Some m) ->
  is_active (run_status r) = true -> can_transition (run_status r) (final_target r a) = true ->
  is_terminal (final_target r a) = true ->
  exists rec w', finalize_live r t assistant a now w = (Ret rec, w') /\ constraints_ok (w_db w') = true.
Proof.
  intros SI Hf Hr Ht Et Hn Hm Ha Htr Hs. assert (W := si_wf _ SI).
  destruct (finalize_live_ends r t assistant a now w) as (r4 & t' & w4 & M4 & C4 & Ea & Ei & E); try done.
  destruct (promote_succeeds t' now w4) as (w5 & E5 & C5);
    [exact (moves_wf _ _ _ _ W M4)|done| |].
  { rewrite Ei, Et. eapply (finished_frees_thread (w_db w) _ r r4 (final_target r a)); try done. apply SI. }
  rewrite E. erewrite bind_run by exact E5. erewrite bind_run by (by apply flush_run).
  do 2 eexists. split; [reflexivity|done].
Qed.

(** A queued run cannot end while another queued run of its thread would be promoted
    beside the active one: the flush after the promotion refuses. *)
Lemma finalize_live_blocked r t assistant a now w i q :
  sys_inv (w_db w) -> fresh_ids 3 w -> db_runs (w_db w) !! run_id r = Some r ->
  db_threads (w_db w) !! th_id t = Some t -> th_id t = run_thread_ref_id r -> run_names_ok r t ->
  (forall m, assistant = Some m -> db_messages (w_db w) !! msg_id m = Some m) ->
  run_status r = QUEUED -> can_transition QUEUED (final_target r a) = true ->
  is_terminal (final_target r a) = true ->
  db_runs (w_db w) !! i = Some q -> i <> run_id r ->
  run_thread_ref_id q = run_thread_ref_id r -> run_status q = QUEUED ->
  exists w', finalize_live r t assistant a now w = (Raise EIntegrity, w').
Proof.
  intros SI Hf Hr Ht Et Hn Hm Hq Htr Hs Hi Ni Hti Hsi. assert (W := si_wf _ SI).
  destruct (finalize_live_ends r t assistant a now w) as (r4 & t' & w4 & M4 & C4 & Ea & Ei & E);
    try done; [by rewrite Hq|].
  destruct (promote_returns t' now w4) as (w5 & E5). exists w5.
  rewrite E. erewrite bind_run by exact E5. apply bind_raise. unfold flush, store_ok, database_store.
  destruct (constraints_ok (w_db w5)) eqn:C5; [|done]. exfalso.
  apply promote_next_queued_spec in E5; [|exact (moves_wf _ _ _ _ W M4)]. rewrite Ei, Et in E5.
  destruct (finish_guard _ _ _ _ _ _ (si_abs _ SI) M4 E5 ltac:(by rewrite Hq) Hs Ea C5) as [A|N].
  - unfold ar_active in A. simpl in A. by rewrite Hq in A.
  - eapply (N i (abs_run q)); [done|]. split_and!; eauto with mew.
Qed.

(** The guards of [finalize] passed, its transaction is that of the live run. *)
Lemma finalize_opens a w r :
  sys_inv (w_db w) -> db_runs (w_db w) !! fz_run_id a = Some r ->
  is_terminal (run_status r) = false -> is_terminal (fz_target_status a) = true ->
  (forall t, fz_fencing_token a = Some t -> run_fencing_token r = t) ->
  lease_still_expired r (fz_lease_expired_before a) = true ->
  let v := set_w_tick (S (w_tick w)) w in
  exists t assistant, db_threads (w_db v) !! th_id t = Some t /\ th_id t = run_thread_ref_id r /\
    run_names_ok r t /\ (forall m, assistant = Some m -> db_messages (w_db v) !! msg_id m = Some m) /\
    finalize a w = transaction (fun _ => finalize_live r t assistant a (w_clock w (w_tick w)) v) v.
Proof.
  intros SI Hr Ha Hs Htok Hl v. assert (W := si_wf _ SI).
  destruct (run_thread_found _ _ _ W Hr) as (t & Ht & Kt & Hn).
  exists t, (mid ← run_assistant_message_id r; db_messages (w_db w) !! mid).
  split_and!; [by rewrite Kt|done..| |].
  - intros m Hm. destruct (run_assistant_message_id r) as [mid|]; [|done]. simpl in *.
    by rewrite (wf_message_key _ W _ _ Hm).
  - unfold finalize. rewrite Hs. erewrite bind_run by reflexivity. erewrite bind_run by reflexivity.
    fold v. unfold transaction. erewrite bind_run by reflexivity.
    erewrite bind_run by (simpl; by rewrite Hr). rewrite Ha, Hl. simpl negb.
    erewrite bind_run.
    2:{ unfold assert_fencing. destruct (fz_fencing_token a) as [tok|]; [|reflexivity].
        rewrite (Htok tok eq_refl), Z.eqb_refl. reflexivity. }
    erewrite bind_run by reflexivity. cbn [w_db set_w_tick v]. rewrite Ht.
    by erewrite bind_run by reflexivity.
Qed.

Lemma final_target_terminal r a :
  is_terminal (fz_target_status a) = true -> is_terminal (final_target r a) = true.
Proof. intros Hs. unfold final_target, resolve_cancelling. by destruct (_ && _). Qed.

Lemma finalize_succeeds a w r :
  sys_inv (w_db w) -> fresh_ids 3 w -> db_runs (w_db w) !! fz_run_id a = Some r ->
  is_active (run_status r) = true -> is_terminal (fz_target_status a) = true ->
  can_transition (run_status r) (final_target r a) = true ->
  (forall t, fz_fencing_token a = Some t -> run_fencing_token r = t) ->
  lease_still_expired r (fz_lease_expired_before a) = true ->
  exists rec w', finalize a w = (Ret rec, w').
Proof.
  intros SI Hf Hr Ha Hs Htr Htok Hl. pose proof (wf_run_key _ (si_wf _ SI) _ _ Hr) as K.
  destruct (finalize_opens a w r) as (t & m & Ht & Kt & Hn & Hm & ->); try done.
  { by apply active_not_terminal. }
  destruct (finalize_live_succeeds r t m a (w_clock w (w_tick w)) (set_w_tick (S (w_tick w)) w))
    as (rec & w' & E & C'); try done; [by rewrite K|by apply final_target_terminal|].
  exists rec, w'. by apply transaction_run.
Qed.

Lemma finalize_blocked a w r i q :
  sys_inv (w_db w) -> fresh_ids 3 w -> db_runs (w_db w) !! fz_run_id a = Some r ->
  run_status r = QUEUED -> is_terminal (fz_target_status a) = true ->
  can_transition QUEUED (final_target r a) = true ->
  (forall t, fz_fencing_token a = Some t -> run_fencing_token r = t) ->
  lease_still_expired r (fz_lease_expired_before a) = true ->
  db_runs (w_db w) !! i = Some q -> i <> fz_run_id a ->
  run_thread_ref_id q = run_thread_ref_id r -> run_status q = QUEUED ->
  exists w', finalize a w = (Raise EIntegrity, w').
Proof.
  intros SI Hf Hr Hq Hs Htr Htok Hl Hi Ni Ht Hsq. pose proof (wf_run_key _ (si_wf _ SI) _ _ Hr) as K.
  destruct (finalize_opens a w r) as (t & m & Hth & Kt & Hn & Hm & ->); try done; [by rewrite Hq|].
  destruct (finalize_live_blocked r t m a (w_clock w (w_tick w)) (set_w_tick (S (w_tick w)) w) i q)
    as (w' & E); try done; [by rewrite K|by apply final_target_terminal|by rewrite K|].
  eexists. by apply transaction_fail.
Qed.
