(* ===== verification/Fixtures.v ===== *)
(** * A concrete system

    One user, one thread, one worker: the worlds on which the theorems are
    instantiated. The clock advances by a second per reading, the UUIDs are the
    decimal numerals, the digest is constant. *)

From S2P Require Import Prelude PyBase Errors RunState Schema Session Effects Journal RunRepo Hitl Threads RunMachine System.

Open Scope Z_scope.

Definition hex64 : pystr := PyStr (replicate 64 97%N).
Definition ex_env : Env :=
  mkEnv (mkSettings REJECT "continue"%py 120000000 30 100) (fun _ => hex64)
    (fun _ => Some (mkModelCatalogSnapshot hex64 [])).
Definition ex_preflight (s : ResumeAccessState) : option exn := None.
Definition ex_normalize (trace : option json) : option json := trace.

Definition ann : User := mkUser 1 "ann"%py "x"%py "user"%py 0.
Definition ex_db0 : Database := mkDatabase {[1 := ann]} ∅ ∅ ∅ [] ∅ ∅ ∅.
Definition ex_w0 : World :=
  mkWorld ex_db0 (fun n => 1000000 * Z.of_nat n) 0 (fun n => py_str_int (Z.of_nat n)) 0.

(** The world after a list of operations. *)
Definition after (ops : list Op) : World := run_ops ex_env ex_preflight ex_normalize ops ex_w0.
Definition ex_reachable : Database -> Prop := reachable ex_env ex_preflight ex_normalize.

Definition ex_request (key : pystr) (s : MultitaskStrategy) : ReserveRequest :=
  mkReserveRequest "ann"%py "t1"%py "hello"%py key None None "m"%py None None (Some s)
    (Some "title"%py) "default"%py "run"%py ∅ true.
Definition ex_finalize (rid : pystr) (target : RunStatus) : FinalizeArgs :=
  mkFinalizeArgs rid target "answer"%py None None None 10 20 decimal_zero None false None.

(** The run ids of the first three reservations, in the order of [ops_queue]. *)
Definition run_a : pystr := "run_0"%py.

(** A claimed run with two more queued behind it. *)
Definition ops_reserved : list Op := [OReserve (ex_request "k1"%py REJECT)].
Definition ops_claimed : list Op := ops_reserved ++ [OClaim run_a "w1"%py None].
Definition ops_queue : list Op :=
  ops_claimed ++ [OReserve (ex_request "k2"%py ENQUEUE); OReserve (ex_request "k3"%py ENQUEUE)].
Definition run_b : pystr := "run_3"%py.
Definition run_c : pystr := "run_5"%py.

(** The claimed run parked at a checkpoint. *)
Definition ops_paused : list Op :=
  ops_claimed ++ [OPause run_a "w1"%py 3 "cp1"%py "int1"%py [] JNull []].
(** A cancellation mark that arrives after the pause. *)
Definition ops_stuck : list Op := ops_paused ++ [OMarkCancelling "ann"%py run_a].

Lemma ex_initial : initial ex_db0.
Proof.
  split_and!; [..|done].
  - intros i u Hi. unfold ex_db0 in Hi. simpl in Hi.
    apply lookup_singleton_Some in Hi as [<- <-]. done.
  - apply unique_index_spec. by vm_compute.
Qed.

Lemma after_reachable ops : ex_reachable (w_db (after ops)).
Proof.
  apply run_ops_reachable. exists ex_db0. split; [apply ex_initial|apply rtc_refl].
Qed.

(** Rows of the example worlds. *)
Definition blank_run : Run :=
  new_run ex_env (ex_request ""%py REJECT)
    (mkReserved ""%py ""%py ""%py ∅ (mkModelCatalogSnapshot ""%py []) ""%py REJECT)
    0 ""%py ann (mkThread 0 0 ""%py ""%py 0 0 0 [] 0 0) QUEUED None.
Definition row (w : World) (rid : pystr) : Run := default blank_run (db_runs (w_db w) !! rid).

Lemma row_found w rid :
  bool_decide (is_Some (db_runs (w_db w) !! rid)) = true ->
  db_runs (w_db w) !! rid = Some (row w rid).
Proof. intros [r Hr]%bool_decide_eq_true. unfold row. by rewrite Hr. Qed.

(** A run of a computation, from its outcome alone. *)
Lemma run_eq {A} (m : M A) w oc : (m w).1 = oc -> m w = (oc, (m w).2).
Proof. intros <-. by destruct (m w). Qed.

Definition is_ret {A} (oc : outcome A) : bool := match oc with Ret _ => true | Raise _ => false end.
Definition value {A} (d : A) (oc : outcome A) : A := match oc with Ret a => a | Raise _ => d end.

Lemma ret_eq {A} (d : A) (m : M A) w :
  is_ret (m w).1 = true -> m w = (Ret (value d (m w).1), (m w).2).
Proof. by destruct (m w) as [[a|e] w']. Qed.

Definition blank_record : RunRecord := _record blank_run ""%py.

Lemma exec_after ops o oc :
  (exec ex_env ex_preflight ex_normalize o (after ops)).1 = oc ->
  exec ex_env ex_preflight ex_normalize o (after ops) = (oc, after (ops ++ [o])).
Proof.
  intros <-. unfold after at 3, run_ops. rewrite foldl_app. simpl.
  fold (run_ops ex_env ex_preflight ex_normalize ops ex_w0). fold (after ops).
  apply surjective_pairing.
Qed.

(** One more operation is a step. *)
Lemma after_step ops o :
  sys_step ex_env ex_preflight ex_normalize (w_db (after ops)) (w_db (after (ops ++ [o]))).
Proof.
  unfold after, run_ops. rewrite foldl_app. simpl.
  destruct (exec ex_env ex_preflight ex_normalize o (foldl _ ex_w0 ops)) as [oc w'] eqn:E.
  exists o, (run_ops ex_env ex_preflight ex_normalize ops ex_w0), oc, w'. done.
Qed.

(** Evaluate a closed example. *)
Ltac ex_run := first [ apply after_reachable | apply row_found; by vm_compute
                     | apply after_step | by vm_compute
                     | refine (bool_decide_eq_true_1 _ _); by vm_compute ].
