(* ===== verification/RunProps.v ===== *)
(** * Properties of the run life cycle

    Theorems about every reachable database and every operation: exclusivity and
    progress of a thread's runs, frozen results, fencing, cancellation. *)

From S2P Require Import Prelude PyBase Errors RunState Schema Session Effects Journal RunRepo RunService Hitl Threads Changes RunMachine RunSpec HitlSpec System Progress Fixtures.

Open Scope Z_scope.

(** ** How one row may change in one operation *)

Inductive row_change (fin : bool) (a : AbsRun) : AbsRun -> Prop :=
| rc_move a' : row_move a a' -> row_change fin a a'
| rc_finish s :
    fin = true ->
    is_terminal (ar_status a) = false -> is_terminal s = true ->
    can_transition (ar_status a) s = true ->
    (ar_status a = CANCELLING -> s = CANCELLED) -> row_change fin a (ar_finished a s)
| rc_promote : ar_status a = QUEUED -> fin = true -> row_change fin a (ar_promoted a).

Lemma moves_other db db' r r' i x :
  moves db db' r r' -> i <> run_id r -> db_runs db' !! i = Some x -> db_runs db !! i = Some x.
Proof. intros (_ & _ & _ & ->) N. by rewrite lookup_insert_ne. Qed.

Lemma moves_at db db' r r' x y :
  moves db db' r r' -> db_runs db !! run_id r = Some x -> db_runs db' !! run_id r = Some y ->
  x = r /\ y = r' /\ run_core y = run_core x.
Proof.
  intros (_ & L & K & E) Hx Hy. rewrite E, lookup_insert_eq in Hy. split_and!; congruence.
Qed.

Lemma effect_row fin db db' i r r' :
  effect fin db db' -> db_runs db !! i = Some r -> db_runs db' !! i = Some r' ->
  run_core r' = run_core r /\ (r' = r \/ row_change fin (abs_run r) (abs_run r')).
Proof.
  intros [db1 [_ E]|db1 x x' Mv Hm|db2 db1 x x' s Hfin Mv Hp Ht Hs Htr Hcc Ea Hc|db1 x t now tok C Hn Er Ea Hs|t Ht Hn] Hi Hi'.
  - rewrite E in Hi'. simplify_eq. auto.
  - destruct (decide (i = run_id x)) as [->|N].
    + destruct (moves_at _ _ _ _ _ _ Mv Hi Hi') as (-> & -> & K). split; [done|right].
      by apply rc_move.
    + apply (moves_other _ _ _ _ _ _ Mv N) in Hi'. simplify_eq. auto.
  - destruct (decide (i = run_id x)) as [->|N].
    + assert (db_runs db2 !! run_id x = Some x') as E.
      { pose proof (moves_row _ _ _ _ Mv) as L. destruct Mv as (_ & _ & K & _).
        rewrite (run_core_id _ _ K) in L.
        destruct Hp as [_|db3 q q' Mq _ Hq _ _]; [done|].
        destruct (decide (run_id x = run_id q)) as [Eq|Nq].
        - destruct Mq as (_ & Lq & _). rewrite <- Eq, L in Lq. simplify_eq.
          assert (run_status q = s) as <- by (by injection Ea). by rewrite Hq in Hs.
        - destruct Mq as (_ & _ & _ & ->). by rewrite lookup_insert_ne. }
      destruct Mv as (_ & L & K & _). assert (x = r) as -> by congruence.
      assert (x' = r') as -> by congruence. split; [done|right]. rewrite Ea. by apply rc_finish.
    + assert (db_runs db1 !! i = Some r) as L1.
      { destruct Mv as (_ & _ & _ & ->). by rewrite lookup_insert_ne. }
      destruct Hp as [_|db3 q q' Mq _ Hq _ Eq]; [simplify_eq; auto|].
      destruct (decide (i = run_id q)) as [->|Nq].
      * destruct (moves_at _ _ _ _ _ _ Mq L1 Hi') as (-> & -> & K). split; [done|right].
        rewrite Eq. by apply rc_promote.
      * apply (moves_other _ _ _ _ _ _ Mq Nq) in Hi'. simplify_eq. auto.
  - rewrite Er, lookup_insert_ne in Hi' by congruence. simplify_eq. auto.
  - apply survives_delete in Hi' as [Hi' _]. simplify_eq. auto.
Qed.

Lemma row_change_live fin a a' : row_change fin a a' -> is_terminal (ar_status a) = false.
Proof.
  intros [a1 Hm|s _ A|A _]; [|done|by rewrite A].
  destruct Hm as [A|w l A|l [A|A] _|A|A|A]; unfold ar_active in *; by destruct (ar_status a).
Qed.

Lemma row_change_transition fin a a' :
  row_change fin a a' -> can_transition (ar_status a) (ar_status a') = true.
Proof.
  intros [a1 Hm|s _ A|A _]; [|done|by rewrite A].
  destruct Hm as [A|w l A|l [A|A] _|A|A|A]; simpl; try apply can_transition_refl;
    by destruct (ar_status a).
Qed.

Lemma row_change_token fin a a' :
  row_change fin a a' ->
  (ar_token a' = ar_token a /\ (ar_owner a' = ar_owner a \/ ar_owner a' = None)) \/
  (ar_token a' = ar_token a + 1 /\ ar_status a' = RUNNING /\ is_Some (ar_owner a')).
Proof. intros [a1 []|s _ A|A _]; simpl; eauto 6. Qed.

(** A run that disappears was deleted with its thread. *)
Lemma effect_gone fin db db' i r :
  effect fin db db' -> db_runs db !! i = Some r -> db_runs db' !! i = None ->
  db_threads db' !! run_thread_ref_id r = None.
Proof.
  intros [db1 [_ E]|db1 x x' (_ & _ & _ & E) _|db2 db1 x x' s _ (_ & _ & _ & E) Hp _ _ _ _ _ _
         |db1 x t now tok _ Hn E _ _|t Ht Hn] Hi Hi'.
  - congruence.
  - rewrite E in Hi'. apply lookup_insert_None in Hi' as [? _]. congruence.
  - assert (db_runs db1 !! i = None) as N.
    { destruct Hp as [_|db3 q q' (_ & _ & _ & E') _ _ _ _]; [done|].
      rewrite E' in Hi'. by apply lookup_insert_None in Hi' as [? _]. }
    rewrite E in N. apply lookup_insert_None in N as [? _]. congruence.
  - rewrite E in Hi'. apply lookup_insert_None in Hi' as [? _]. congruence.
  - simpl in *. destruct (decide (run_thread_ref_id r = th_id t)) as [->|N].
    + apply lookup_delete_eq.
    + apply map_lookup_filter_None in Hi' as [?|F]; [congruence|].
      specialize (F r Hi). simpl in F. done.
Qed.

(** A row that is not queued survives the promotion as it is. *)
Lemma promotes_keeps t db db' i r :
  promotes t db db' -> db_runs db !! i = Some r -> run_status r <> QUEUED ->
  db_runs db' !! i = Some r.
Proof.
  intros [_|db1 q q' (_ & Lq & _ & E) _ Hq _ _] Hi Hs; [done|].
  rewrite E, lookup_insert_ne; [done|]. intros <-. congruence.
Qed.

(** After a successful finalisation the run is terminal, with the resolved target. *)
Lemma finalize_row a w rec w' r :
  finalize a w = (Ret rec, w') -> db_wf (w_db w) -> db_runs (w_db w) !! fz_run_id a = Some r ->
  exists r', db_runs (w_db w') !! fz_run_id a = Some r' /\ is_terminal (run_status r') = true /\
    (is_terminal (run_status r) = false -> run_status r' = final_target r a).
Proof.
  intros H W Hr. destruct (finalize_spec _ _ _ _ H W) as (x & Hx & _ & _ & _ &
    [(-> & Ht & _)|(Hnt & _ & db1 & r' & Mv & Hp & _ & Hs & Ea)]);
    assert (x = r) as -> by congruence.
  - exists r. split_and!; [done..|]. congruence.
  - exists r'. pose proof (moves_row _ _ _ _ Mv) as L. destruct Mv as (_ & _ & K & _).
    rewrite (run_core_id _ _ K), (wf_run_key _ W _ _ Hr) in L.
    assert (run_status r' = final_target r a) as Es by (by injection Ea).
    split_and!; [|by rewrite Es|done]. eapply promotes_keeps; [done..|].
    rewrite Es. intros E. by rewrite E in Hs.
Qed.

Section Properties.
Context (env : Env) (preflight : ResumeAccessState -> option exn).
Context (normalize : option json -> option json).

#[local] Abbreviation exec := (exec env preflight normalize).
#[local] Abbreviation reachable := (reachable env preflight normalize).
#[local] Abbreviation sys_step := (sys_step env preflight normalize).

Lemma step_effect db db' :
  reachable db -> sys_step db db' -> db' = db \/ exists fin, effect fin db db'.
Proof.
  intros [W C I]%reachable_inv (o & w & oc & w' & H & <- & <-). destruct oc as [[]|e].
  - right. eexists. by eapply exec_effect.
  - left. by eapply exec_raise.
Qed.

(** C1. Refinement: in every reachable database, a transaction either raises and
    leaves the database untouched, or its effect on the run table is a sequence
    of moves of the abstract run machine. *)
Theorem run_machine_refinement o w oc w' :
  reachable (w_db w) -> exec o w = (oc, w') ->
  match oc with
  | Ret _ => rtc abs_step (abs (w_db w)) (abs (w_db w'))
  | Raise _ => w_db w' = w_db w
  end.
Proof.
  intros [W C I]%reachable_inv H. destruct oc as [[]|e].
  - eapply effect_refines; [|done]. by eapply exec_effect.
  - by eapply exec_raise.
Qed.

(** C3. A finished run is frozen: no transaction changes any column of its row;
    it only disappears together with its thread. *)
Theorem terminal_run_frozen db db' i r :
  reachable db -> sys_step db db' -> db_runs db !! i = Some r ->
  is_terminal (run_status r) = true ->
  db_runs db' !! i = Some r \/
  (db_runs db' !! i = None /\ db_threads db' !! run_thread_ref_id r = None).
Proof.
  intros R S Hi Ht. destruct (step_effect _ _ R S) as [->|[fin Ef]]; [by left|].
  destruct (db_runs db' !! i) as [r'|] eqn:Hi'.
  - left. destruct (effect_row _ _ _ _ _ _ Ef Hi Hi') as [_ [->|Hc]]; [done|].
    apply row_change_live in Hc. simpl in Hc. congruence.
  - right. split; [done|]. by eapply effect_gone.
Qed.

(** Between two consecutive states the status of a run moves along
    [ALLOWED_TRANSITIONS], and the columns its reservation fixed (owner, thread,
    key, request hash, model snapshot, messages, deadline) never change. *)
Theorem status_follows_transition_table db db' i r r' :
  reachable db -> sys_step db db' -> db_runs db !! i = Some r -> db_runs db' !! i = Some r' ->
  can_transition (run_status r) (run_status r') = true /\ run_core r' = run_core r.
Proof.
  intros R S Hi Hi'. destruct (step_effect _ _ R S) as [->|[fin Ef]].
  - simplify_eq. split; [apply can_transition_refl|done].
  - destruct (effect_row _ _ _ _ _ _ Ef Hi Hi') as [K [->|Hc]].
    + split; [apply can_transition_refl|done].
    + split; [|done]. by apply row_change_transition in Hc.
Qed.

(** Fencing tokens only grow, and every time a run changes hands to a worker
    its token grows by one, so two tenures never share a token. *)
Theorem fencing_token_grows db db' i r r' :
  reachable db -> sys_step db db' -> db_runs db !! i = Some r -> db_runs db' !! i = Some r' ->
  run_fencing_token r <= run_fencing_token r' <= run_fencing_token r + 1 /\
  (forall wid, run_owner_worker_id r' = Some wid -> run_owner_worker_id r <> Some wid ->
     run_fencing_token r' = run_fencing_token r + 1 /\ run_status r' = RUNNING).
Proof.
  intros R S Hi Hi'. destruct (step_effect _ _ R S) as [->|[fin Ef]].
  - simplify_eq. split; [lia|]. naive_solver.
  - destruct (effect_row _ _ _ _ _ _ Ef Hi Hi') as [_ [->|Hc]].
    + split; [lia|]. naive_solver.
    + apply row_change_token in Hc as [[Et Eo]|(Et & Es & _)]; simpl in *.
      * split; [lia|]. intros wid E1 E2. destruct Eo; congruence.
      * split; [lia|]. done.
Qed.

(** ** Fencing *)

(** The run and the token an operation is fenced by. *)
Definition op_fence (o : Op) : option (pystr * Z) :=
  match o with
  | OHeartbeat rid _ token _ | OWaitInput rid _ token | OPinSkill rid _ token _ _ _ _
  | OToolAudit rid _ token _ | OAppend rid _ token _ _ | OPause rid _ token _ _ _ _ _
  | OResumeResult rid _ _ token _ => Some (rid, token)
  | OFinalize a => token ← fz_fencing_token a; Some (fz_run_id a, token)
  | _ => None
  end.

Lemma fenced_success o w w' rid token :
  exec o w = (Ret tt, w') -> db_wf (w_db w) -> op_fence o = Some (rid, token) ->
  exists r, db_runs (w_db w) !! rid = Some r /\ run_fencing_token r = token.
Proof.
  intros H W F. destruct o; simpl in F; simplify_eq; cbn [System.exec] in H; unfold run_op in H;
    apply bind_inv in H as (x & w1 & H & [_ <-]%ret_inv).
  - apply heartbeat_spec in H as (r & ? & ? & ? & ? & ? & _); eauto.
  - apply set_waiting_input_spec in H as (r & ? & ? & ? & ? & _); eauto.
  - apply finalize_spec in H as (r & Hr & _ & Hf & _); [|done].
    destruct (fz_fencing_token a) as [t|] eqn:Et; simplify_eq/=. eauto.
  - apply pin_skill_activation_spec in H as (r & ? & ? & _); eauto.
  - apply record_tool_audit_spec in H as (_ & r & ? & ? & _); eauto.
  - apply journal_append_spec in H as (r & ? & (_ & ? & _)%fence_active & _); eauto.
  - apply record_pause_spec in H as (r & ? & ? & _); eauto.
  - apply record_resume_result_spec in H as (_ & r & ? & ? & _); eauto.
Qed.

(** C4. A worker whose token is stale cannot touch the run: each fenced operation
    (heart beat, pause, skill pin, tool audit, event append, finalisation, resume
    result) raises and the database stays as it was. *)
Theorem stale_worker_is_fenced_off o w rid token r :
  reachable (w_db w) -> op_fence o = Some (rid, token) ->
  db_runs (w_db w) !! rid = Some r -> run_fencing_token r <> token ->
  exists e w', exec o w = (Raise e, w') /\ w_db w' = w_db w.
Proof.
  intros [W _ _]%reachable_inv F Hr Ht. destruct (exec o w) as [[[]|e] w'] eqn:E.
  - destruct (fenced_success _ _ _ _ _ E W F) as (x & Hx & Et). congruence.
  - exists e, w'. split; [done|]. by eapply exec_raise.
Qed.

(** ** Ending a run *)

(** Cancellation wins: whatever outcome is reported for a run that is being
    cancelled, it ends cancelled. *)
Theorem cancelling_run_ends_cancelled a w rec w' r :
  reachable (w_db w) -> finalize a w = (Ret rec, w') ->
  db_runs (w_db w) !! fz_run_id a = Some r -> run_status r = CANCELLING ->
  exists r', db_runs (w_db w') !! fz_run_id a = Some r' /\ run_status r' = CANCELLED.
Proof.
  intros [W C I]%reachable_inv H Hr Hs.
  destruct (finalize_row _ _ _ _ _ H W Hr) as (r' & Hr' & _ & Et). exists r'. split; [done|].
  rewrite Et by (by rewrite Hs). by apply final_target_cancelling.
Qed.

(** Ending the active run of a thread hands the thread on: when runs are
    queued, afterwards the oldest of them, and no other, is pending. *)
Theorem finish_promotes_oldest_queued a w rec w' r i q :
  reachable (w_db w) -> finalize a w = (Ret rec, w') ->
  db_runs (w_db w) !! fz_run_id a = Some r -> is_active (run_status r) = true ->
  db_runs (w_db w) !! i = Some q -> run_thread_ref_id q = run_thread_ref_id r ->
  run_status q = QUEUED ->
  exists j p p', db_runs (w_db w) !! j = Some p /\ run_thread_ref_id p = run_thread_ref_id r /\
    run_status p = QUEUED /\ run_created_at p <= run_created_at q /\
    db_runs (w_db w') !! j = Some p' /\ run_status p' = PENDING /\
    forall k x, db_runs (w_db w') !! k = Some x ->
      run_thread_ref_id x = run_thread_ref_id r -> is_active (run_status x) = true -> k = j.
Proof.
  intros [W C I]%reachable_inv H Hr Ha Hq Htq Hsq.
  destruct (finalize_spec _ _ _ _ H W) as (x & Hx & _ & _ & _ &
    [(_ & Ht & _)|(_ & Hc & db1 & r' & Mv & Hp & _ & Hs & Ea)]);
    assert (x = r) as -> by congruence.
  { apply active_not_terminal in Ha. congruence. }
  assert (i <> run_id r) as Ni.
  { intros ->. pose proof (wf_run_key _ W _ _ Hr) as K. rewrite K in Hq. simplify_eq.
    by rewrite Hsq in Ha. }
  destruct Mv as (_ & Lr & Kr & Er).
  assert (db_runs db1 !! i = Some q) as Hq1 by (rewrite Er, lookup_insert_ne; done).
  destruct Hp as [Hn|db2 p p' Mq Hpt Hps Hmin Ep]; [by destruct (Hn i q Hq1 Htq)|].
  destruct Mq as (_ & Lp & Kp & Eq).
  assert (run_id p <> run_id r) as Np.
  { intros E. rewrite E, Er, lookup_insert_eq in Lp. simplify_eq.
    assert (run_status p = final_target r a) as Es by (by injection Ea).
    rewrite <- Es, Hps in Hs. done. }
  assert (Lp' : db_runs db2 !! run_id p = Some p') by (by rewrite Eq, lookup_insert_eq).
  assert (Sp : run_status p' = PENDING) by (by injection Ep).
  exists (run_id p), p, p'. split_and!; try done.
  - rewrite Er, lookup_insert_ne in Lp; done.
  - by eapply Hmin.
  - intros k x Hk Hkt Hka. eapply (active_unique db2 k (run_id p) x p'); try done.
    + rewrite Hkt, <- Hpt. unfold run_core in Kp. by injection Kp.
    + by rewrite Sp.
Qed.

(** C2. No queued run is stranded, whatever the interleaving of reservations,
    claims, resumptions, promotions and cancellations: its thread has exactly one active
    run, and every finalisation that ends that run hands the thread on to the oldest
    queued run, which is pending afterwards and the only active one. *)
Theorem queued_waits_behind_active db i q :
  reachable db -> db_runs db !! i = Some q -> run_status q = QUEUED ->
  exists j r, db_runs db !! j = Some r /\ run_thread_ref_id r = run_thread_ref_id q /\
    is_active (run_status r) = true /\
    (forall k x, db_runs db !! k = Some x -> run_thread_ref_id x = run_thread_ref_id q ->
       is_active (run_status x) = true -> k = j) /\
    forall a w rec w', w_db w = db -> fz_run_id a = j -> finalize a w = (Ret rec, w') ->
      exists k p p', db_runs db !! k = Some p /\ run_thread_ref_id p = run_thread_ref_id q /\
        run_status p = QUEUED /\ run_created_at p <= run_created_at q /\
        db_runs (w_db w') !! k = Some p' /\ run_status p' = PENDING /\
        forall k' x, db_runs (w_db w') !! k' = Some x ->
          run_thread_ref_id x = run_thread_ref_id q -> is_active (run_status x) = true -> k' = k.
Proof.
  intros R Hi Hs. assert (SI := R). apply reachable_inv in SI as [W C I].
  destruct (inv_queue _ I _ _ (abs_lookup _ _ _ Hi) Hs) as (j & a & Hj & Ht & Ha).
  unfold abs in Hj. apply lookup_fmap_Some in Hj as (r & <- & Hr).
  change (run_thread_ref_id r = run_thread_ref_id q) in Ht.
  exists j, r. split_and!; [done..| |].
  - intros k x Hk Hkt Hka. eapply (active_unique db k j x r); try done. by rewrite Ht.
  - intros f w rec w' <- <- H. rewrite <- Ht. by eapply finish_promotes_oldest_queued.
Qed.

(** C5. While a thread has an active run and at least two queued ones, no queued
    run can be cancelled or ended in any other way: the finalisation would promote
    another queued run beside the active one, which violates the unique index of
    active runs. The owner's cancellation request raises the database's integrity
    error, every other finalisation of the run raises as well, and neither changes
    anything. *)
Theorem queued_run_cannot_be_cancelled name rid w r t i q :
  reachable (w_db w) -> fresh_ids 3 w -> run_row (w_db w) rid (Some name) = Some (r, t) ->
  run_status r = QUEUED -> db_runs (w_db w) !! i = Some q -> i <> rid ->
  run_thread_ref_id q = run_thread_ref_id r -> run_status q = QUEUED ->
  (exists w', request_cancel name rid w = (Raise EIntegrity, w') /\ w_db w' = w_db w) /\
  forall a, fz_run_id a = rid -> exists e w', finalize a w = (Raise e, w') /\ w_db w' = w_db w.
Proof.
  intros R Hf Hrow Hs Hq Ni Ht Hsq. assert (SI := reachable_inv _ _ _ _ R). assert (W := si_wf _ SI).
  pose proof (proj1 (run_row_Some _ _ _ _ _ Hrow)) as Hr.
  assert (Keep : forall a e w', finalize a w = (Raise e, w') -> w_db w' = w_db w).
  { intros a e w' E. eapply (exec_raise env preflight normalize (OFinalize a)). by apply run_op_raise. }
  split.
  - destruct (finalize_blocked (cancel_args rid) w r i q SI Hf Hr Hs) as (w' & E); try done.
    { unfold final_target, resolve_cancelling. by rewrite Hs. }
    exists w'. split; [|by eapply Keep]. unfold request_cancel.
    erewrite bind_run by (unfold get; erewrite bind_run by reflexivity; by rewrite Hrow).
    cbn [rr_status _record]. by rewrite Hs.
  - intros a <-. destruct (finalize a w) as [[rec|e] w1] eqn:F; [exfalso|exists e, w1; eauto].
    destruct (finalize_spec _ _ _ _ F W) as (x & Hx & _ & _ & _ &
      [(_ & Htt & _)|(Hnt & Hc & db1 & r' & Mv & Hp & _ & Hst & Ea)]);
      assert (x = r) as -> by congruence; [by rewrite Hs in Htt|].
    destruct (finish_guard _ _ _ _ _ _ (si_abs _ SI) Mv Hp Hnt Hst Ea Hc) as [A|N].
    + unfold ar_active in A. simpl in A. by rewrite Hs in A.
    + eapply (N i (abs_run q)); [by rewrite (wf_run_key _ W _ _ Hr)|]. split_and!; eauto with mew.
Qed.

End Properties.

(** ** Witnesses *)

Lemma run_machine_refinement_witness :
  let w := after ops_reserved in let w' := after ops_claimed in
  rtc abs_step (abs (w_db w)) (abs (w_db w')) /\
  run_status (row w run_a) = PENDING /\ run_status (row w' run_a) = RUNNING.
Proof.
  split_and!; [|ex_run..].
  exact (run_machine_refinement ex_env ex_preflight ex_normalize (OClaim run_a "w1"%py None)
    (after ops_reserved) (Ret tt) (after ops_claimed) (after_reachable _)
    (exec_after ops_reserved (OClaim run_a "w1"%py None) (Ret tt) ltac:(by vm_compute))).
Defined.

Definition ops_finished : list Op := ops_queue ++ [OFinalize (ex_finalize run_a SUCCEEDED)].

Lemma terminal_run_frozen_witness :
  let w := after ops_finished in
  let w' := after (ops_finished ++ [OClaim run_b "w2"%py None]) in
  run_status (row w run_a) = SUCCEEDED /\ run_status (row w' run_b) = RUNNING /\
  (db_runs (w_db w') !! run_a = Some (row w run_a) \/
   (db_runs (w_db w') !! run_a = None /\ db_threads (w_db w') !! run_thread_ref_id (row w run_a) = None)).
Proof.
  intros w w'. split_and!; [ex_run..|].
  apply (terminal_run_frozen ex_env ex_preflight ex_normalize (w_db w)); ex_run.
Defined.

Lemma status_follows_transition_table_witness :
  let w := after ops_queue in let w' := after ops_finished in
  can_transition (run_status (row w run_b)) (run_status (row w' run_b)) = true /\
  run_core (row w' run_b) = run_core (row w run_b).
Proof.
  intros w w'.
  apply (status_follows_transition_table ex_env ex_preflight ex_normalize (w_db w) (w_db w') run_b); ex_run.
Defined.

Lemma fencing_token_grows_witness :
  let w := after ops_reserved in let w' := after ops_claimed in
  run_fencing_token (row w run_a) <= run_fencing_token (row w' run_a)
    <= run_fencing_token (row w run_a) + 1 /\
  (forall wid, run_owner_worker_id (row w' run_a) = Some wid ->
     run_owner_worker_id (row w run_a) <> Some wid ->
     run_fencing_token (row w' run_a) = run_fencing_token (row w run_a) + 1 /\
     run_status (row w' run_a) = RUNNING).
Proof.
  intros w w'.
  apply (fencing_token_grows ex_env ex_preflight ex_normalize (w_db w) (w_db w') run_a); ex_run.
Defined.

Lemma stale_worker_is_fenced_off_witness :
  let w := after ops_claimed in
  exists e w', exec ex_env ex_preflight ex_normalize (OHeartbeat run_a "w1"%py 2 None) w = (Raise e, w')
    /\ w_db w' = w_db w.
Proof.
  intros w.
  apply (stale_worker_is_fenced_off ex_env ex_preflight ex_normalize
    (OHeartbeat run_a "w1"%py 2 None) w run_a 2 (row w run_a)); ex_run.
Defined.

Lemma cancelling_run_ends_cancelled_witness :
  let w := after (ops_claimed ++ [OMarkCancelling "ann"%py run_a]) in
  let a := ex_finalize run_a SUCCEEDED in
  exists r', db_runs (w_db (finalize a w).2) !! run_a = Some r' /\ run_status r' = CANCELLED.
Proof.
  intros w a.
  refine (cancelling_run_ends_cancelled ex_env ex_preflight ex_normalize a w _ _ (row w run_a)
    _ (ret_eq blank_record (finalize a) w _) _ _); ex_run.
Defined.

Lemma finish_promotes_oldest_queued_witness :
  let w := after ops_queue in let a := ex_finalize run_a SUCCEEDED in
  let w' := (finalize a w).2 in
  exists j p p', db_runs (w_db w) !! j = Some p /\
    run_thread_ref_id p = run_thread_ref_id (row w run_a) /\
    run_status p = QUEUED /\ run_created_at p <= run_created_at (row w run_c) /\
    db_runs (w_db w') !! j = Some p' /\ run_status p' = PENDING /\
    forall k x, db_runs (w_db w') !! k = Some x ->
      run_thread_ref_id x = run_thread_ref_id (row w run_a) ->
      is_active (run_status x) = true -> k = j.
Proof.
  intros w a w'.
  refine (finish_promotes_oldest_queued ex_env ex_preflight ex_normalize a w _ w'
    (row w run_a) run_c (row w run_c) _ (ret_eq blank_record (finalize a) w _) _ _ _ _ _); ex_run.
Defined.

Lemma queued_waits_behind_active_witness :
  let w := after ops_queue in
  run_status (row w run_b) = QUEUED /\
  exists j r, db_runs (w_db w) !! j = Some r /\
    run_thread_ref_id r = run_thread_ref_id (row w run_b) /\ is_active (run_status r) = true.
Proof.
  intros w. split; [ex_run|].
  destruct (queued_waits_behind_active ex_env ex_preflight ex_normalize (w_db w) run_b (row w run_b))
    as (j & r & Hr & Ht & Ha & _); [ex_run..|]. exists j, r. exact (conj Hr (conj Ht Ha)).
Defined.

(** The user's cancellation of the first queued run: the unique index refuses it. *)
Lemma queued_run_cannot_be_cancelled_witness :
  let w := after ops_queue in
  (exists w', request_cancel "ann"%py run_b w = (Raise EIntegrity, w') /\ w_db w' = w_db w) /\
  forall a, fz_run_id a = run_b -> exists e w', finalize a w = (Raise e, w') /\ w_db w' = w_db w.
Proof.
  intros w.
  assert (exists rt, run_row (w_db w) run_b (Some "ann"%py) = Some rt /\ rt.1 = row w run_b) as ([r t] & Hrow & E).
  { eexists (row w run_b, _). split; [vm_compute; reflexivity|reflexivity]. }
  refine (queued_run_cannot_be_cancelled ex_env ex_preflight ex_normalize "ann"%py run_b w r t
    run_c (row w run_c) _ _ Hrow _ _ _ _ _); clear Hrow; simpl in E; subst r; ex_run.
Defined.
