(* ===== verification/Ownership.v ===== *)
(** * Ownership, recovery and cancellation

    Claims and leases, recovery of runs whose worker is gone, and what a
    cancellation request does in each state. *)

From S2P Require Import Prelude PyBase Errors RunState Schema Session Effects Journal RunRepo RunService Hitl Threads Changes RunMachine RunSpec HitlSpec System Progress Fixtures RunProps.

Open Scope Z_scope.

(** What a run that is being cancelled and has no worker may do. *)
Lemma ownerless_row_change a a' :
  ar_status a = CANCELLING -> ar_owner a = None -> row_change false a a' -> a' = a.
Proof.
  intros Hs Ho [a1 Hm|s F|_ F]; [|done..].
  destruct Hm as [_|w l Hc|l _ [w Hw]|Hc|Hc|Hc]; try done; try congruence; by rewrite Hs in Hc.
Qed.

Lemma get_inv name rid w cur w' :
  get name rid w = (Ret cur, w') ->
  exists r t, db_runs (w_db w) !! rid = Some r /\ cur = _record r (th_thread_id t) /\ w' = w.
Proof.
  unfold get. intros H. minv.
  match goal with Q : run_row _ _ _ = Some (?r, ?t) |- _ =>
    apply run_row_Some in Q as [Q _]; by exists r, t end.
Qed.

Section Ownership.
Context (env : Env) (preflight : ResumeAccessState -> option exn).
Context (normalize : option json -> option json).

#[local] Abbreviation exec := (exec env preflight normalize).
#[local] Abbreviation reachable := (reachable env preflight normalize).
#[local] Abbreviation sys_step := (sys_step env preflight normalize).

(** A pending run can always be claimed: the claim returns, makes the worker
    the owner of a running run and issues the next fencing token. *)
Theorem pending_run_can_be_claimed rid wid ls w r :
  reachable (w_db w) -> fresh_ids 1 w -> db_runs (w_db w) !! rid = Some r ->
  run_status r = PENDING ->
  exists rec w' r', claim env rid wid ls w = (Ret rec, w') /\
    db_runs (w_db w') !! rid = Some r' /\ run_status r' = RUNNING /\
    run_owner_worker_id r' = Some wid /\ run_fencing_token r' = run_fencing_token r + 1 /\
    rr_fencing_token rec = run_fencing_token r + 1.
Proof.
  intros SI%reachable_inv Hf Hr Hs. assert (W := si_wf _ SI).
  destruct (claim_succeeds env rid wid ls w r SI Hf Hr Hs) as (rec & w' & E).
  destruct (claim_spec _ _ _ _ _ _ _ E W) as (x & Hx & [(_ & Hs' & _)|(r' & l & Mv & _ & Ea & Et)]);
    assert (x = r) as -> by congruence; [congruence|].
  exists rec, w', r'. pose proof (moves_row _ _ _ _ Mv) as L. destruct Mv as (_ & _ & K & _).
  rewrite (run_core_id _ _ K), (wf_run_key _ W _ _ Hr) in L. unfold abs_run, ar_claimed in Ea.
  injection Ea as ? ? ? ? ? ?. by split_and!.
Qed.

(** A run whose lease has not expired cannot be taken over by another worker:
    the claim raises and the database stays as it was. *)
Theorem live_lease_is_exclusive rid wid ls w r :
  reachable (w_db w) -> db_runs (w_db w) !! rid = Some r -> run_status r = RUNNING ->
  run_owner_worker_id r <> Some wid ->
  lease_live (run_lease_expires_at r) (w_clock w (w_tick w)) = true ->
  exists e w', claim env rid wid ls w = (Raise (EApp e), w') /\ ae_code e = RUN_ACTIVE /\
    w_db w' = w_db w.
Proof.
  intros R Hr Hs Ho Hl.
  assert (exists e w', claim env rid wid ls w = (Raise (EApp e), w') /\ ae_code e = RUN_ACTIVE)
    as (e & w' & E & Hc).
  { do 2 eexists. split.
    - unfold claim. erewrite bind_run by reflexivity. apply transaction_fail.
      erewrite bind_run by reflexivity. erewrite bind_run by (simpl; by rewrite Hr).
      rewrite Hs, bool_decide_eq_false_2 by done. cbn [andb]. rewrite Hl. reflexivity.
    - done. }
  exists e, w'. split_and!; [done..|].
  eapply (exec_raise env preflight normalize (OClaim rid wid ls)). by apply run_op_raise.
Qed.

(** The end of an active run always goes through: with the owner's token (or
    none) and an allowed target the finalisation returns, whatever is queued. *)
Theorem active_run_can_be_finished a w r :
  reachable (w_db w) -> fresh_ids 3 w -> db_runs (w_db w) !! fz_run_id a = Some r ->
  is_active (run_status r) = true -> is_terminal (fz_target_status a) = true ->
  can_transition (run_status r) (fz_target_status a) = true ->
  (forall t, fz_fencing_token a = Some t -> run_fencing_token r = t) ->
  fz_lease_expired_before a = None ->
  exists rec w' r', finalize a w = (Ret rec, w') /\
    db_runs (w_db w') !! fz_run_id a = Some r' /\ is_terminal (run_status r') = true.
Proof.
  intros SI%reachable_inv Hf Hr Ha Hs Htr Htok Hl. assert (W := si_wf _ SI).
  destruct (finalize_succeeds a w r SI Hf Hr Ha Hs) as (rec & w' & E); try done.
  { destruct (decide (run_status r = CANCELLING)) as [Ec|Nc].
    - rewrite (final_target_cancelling _ _ Ec), Ec. done.
    - unfold final_target, resolve_cancelling. by rewrite bool_decide_eq_false_2. }
  { by rewrite Hl. }
  destruct (finalize_row _ _ _ _ _ E W Hr) as (r' & Hr' & Hst & _). exists rec, w', r'. done.
Qed.

(** ** Recovery *)

(** A run that a worker left: it runs or is being cancelled, and its lease ended
    before [now]. *)
Definition expired (r : Run) (now : datetime) : Prop :=
  (run_status r = RUNNING \/ run_status r = CANCELLING) /\
  exists t, run_lease_expires_at r = Some t /\ t < now.

Lemma lease_still_expired_spec r now :
  lease_still_expired r (Some now) = true <-> expired r now.
Proof.
  unfold lease_still_expired, expired. rewrite andb_true_iff, orb_true_iff, !bool_decide_eq_true.
  destruct (run_lease_expires_at r) as [t|]; [rewrite Z.ltb_lt|].
  - split; [intros [? ?]; eauto|]. intros [? (u & E & ?)]. by simplify_eq.
  - split; [by intros [_ ?]|]. by intros [_ (u & ? & _)].
Qed.

Lemma orphan_candidates_spec db now rid token :
  db_wf db -> (rid, token) ∈ orphan_candidates db now <->
  exists r, db_runs db !! rid = Some r /\ run_fencing_token r = token /\ expired r now.
Proof.
  intros W. unfold orphan_candidates. rewrite list_elem_of_fmap. split.
  - intros (r & E & (i & Hi & Hp)%elem_of_rows_where). simplify_eq.
    rewrite (wf_run_key _ W _ _ Hi). exists r. split_and!; [done..|].
    apply lease_still_expired_spec. exact Hp.
  - intros (r & Hr & <- & He%lease_still_expired_spec). exists r.
    rewrite (wf_run_key _ W _ _ Hr). split; [done|]. apply elem_of_rows_where. by exists rid.
Qed.

Lemma orphan_candidates_NoDup db now : db_wf db -> NoDup (orphan_candidates db now).*1.
Proof.
  intros W. unfold orphan_candidates. rewrite <- list_fmap_compose.
  apply (rows_where_keys run_id), W.
Qed.

(** What one recovery finalisation leaves of a row. *)
Lemma orphan_finalize_row rid token now w rec w' i r :
  finalize (orphan_args rid token now) w = (Ret rec, w') -> db_wf (w_db w) ->
  db_runs (w_db w) !! i = Some r -> run_status r <> QUEUED -> i <> rid ->
  db_runs (w_db w') !! i = Some r.
Proof.
  intros H W Hi Hq Hne.
  destruct (finalize_spec _ _ _ _ H W) as (x & Hx & _ & _ & _ &
    [(-> & _)|(_ & _ & db1 & r' & Mv & Hp & _ & _ & _)]); [done|]. simpl in Hx.
  eapply promotes_keeps; [done| |done].
  pose proof (wf_run_key _ W _ _ Hx) as K. destruct Mv as (_ & _ & _ & ->).
  rewrite lookup_insert_ne; [done|]. congruence.
Qed.

(** The turns of the recovery loop: each candidate with the world in which its
    transaction starts, after the other processes have acted. *)
Definition Turn : Type := pystr * Z * World.
Fixpoint turns (others : nat -> World -> World) (n : nat) (candidates : list (pystr * Z))
    (now : datetime) (w : World) : list Turn :=
  match candidates with
  | [] => []
  | (rid, token) :: rest =>
      let w1 := others n w in
      (rid, token, w1) :: turns others (S n) rest now (recover_one rid token now w1).2
  end.

(** At its turn the candidate is what the query saw: an expired run under the
    same fencing token. *)
Definition still_orphaned (now : datetime) (t : Turn) : Prop :=
  let '(rid, token, w) := t in
  exists r, db_runs (w_db w) !! rid = Some r /\ run_fencing_token r = token /\ expired r now.

#[export] Instance still_orphaned_dec now t : Decision (still_orphaned now t).
Proof.
  destruct t as [[rid token] w]. unfold still_orphaned.
  destruct (db_runs (w_db w) !! rid) as [r|]; [|right; by intros (r & ? & _)].
  destruct (decide (run_fencing_token r = token)) as [E|N];
    [|right; intros (x & ? & ? & _); by simplify_eq].
  destruct (lease_still_expired r (Some now)) eqn:L.
  - left. exists r. split_and!; [done..|]. by apply lease_still_expired_spec.
  - right. intros (x & ? & ? & X%lease_still_expired_spec). simplify_eq. congruence.
Defined.

(** How recovery ends a run. *)
Definition orphan_end (r : Run) : RunStatus :=
  match run_status r with CANCELLING => CANCELLED | _ => FAILED end.

Lemma recover_one_orphan rid token now w :
  reachable (w_db w) -> fresh_ids 3 w -> still_orphaned now (rid, token, w) ->
  exists rec w', finalize (orphan_args rid token now) w = (Ret rec, w') /\
    recover_one rid token now w = (Ret true, w') /\
    forall r, db_runs (w_db w) !! rid = Some r ->
      exists r', db_runs (w_db w') !! rid = Some r' /\ run_status r' = orphan_end r.
Proof.
  intros SI%reachable_inv Hf (r & Hr & Et & He). assert (W := si_wf _ SI).
  assert (final_target r (orphan_args rid token now) = orphan_end r /\
    can_transition (run_status r) (orphan_end r) = true /\ is_active (run_status r) = true) as (Ef & Htr & Ha).
  { unfold final_target, resolve_cancelling, orphan_end. by destruct He as [[Es|Es] _]; rewrite Es. }
  destruct (finalize_succeeds (orphan_args rid token now) w r SI Hf Hr Ha) as (rec & w' & E); try done.
  { by rewrite Ef. }
  { intros t [= <-]. done. }
  { by apply lease_still_expired_spec. }
  exists rec, w'. split_and!; [done|unfold recover_one, catch|].
  - by erewrite bind_run by exact E.
  - intros x Hx. assert (x = r) as -> by congruence.
    destruct (finalize_row _ _ _ _ _ E W Hr) as (r' & Hr' & _ & Es). exists r'. split; [done|].
    rewrite <- Ef. apply Es. by destruct He as [[-> | ->] _].
Qed.

Lemma recover_one_other rid token now w :
  ~ still_orphaned now (rid, token, w) ->
  exists w', recover_one rid token now w = (Ret false, w') /\ w_db w' = w_db w.
Proof.
  intros N. assert (exists e w', finalize (orphan_args rid token now) w = (Raise (EApp e), w')) as (e & w' & E).
  { unfold finalize. erewrite bind_run by reflexivity. erewrite bind_run by reflexivity.
    set (v := set_w_tick _ _).
    assert (forall (body : M RunRecord), (exists e w1, body v = (Raise (EApp e), w1)) ->
      exists e w1, transaction body v = (Raise (EApp e), w1)) as L.
    { intros body (e & w1 & E). do 2 eexists. by apply transaction_fail. }
    apply L. erewrite bind_run by reflexivity. change (w_db v) with (w_db w). cbn [fz_run_id orphan_args].
    destruct (db_runs (w_db w) !! rid) as [r|] eqn:Hr; [|do 2 eexists; by apply bind_raise].
    erewrite bind_run by reflexivity. cbv zeta. cbn [fz_fencing_token orphan_args].
    destruct (decide (run_fencing_token r = token)) as [Et|Nt].
    - erewrite bind_run by (unfold assert_fencing; rewrite Et, Z.eqb_refl; reflexivity).
      assert (lease_still_expired r (Some now) = false) as Hl.
      { apply not_true_is_false. intros ?%lease_still_expired_spec. apply N. by exists r. }
      cbn [fz_lease_expired_before orphan_args]. rewrite Hl. do 2 eexists. by apply bind_raise.
    - do 2 eexists. apply bind_raise. unfold assert_fencing. apply Z.eqb_neq in Nt. by rewrite Nt. }
  exists w'. unfold recover_one, catch. erewrite bind_raise by exact E. split; [done|].
  assert (Atomic (finalize (orphan_args rid token now))) as A by (unfold finalize; effects). by eapply A.
Qed.

(** Both turns keep the database reachable. *)
Lemma recover_one_reachable rid token now w :
  reachable (w_db w) -> fresh_ids 3 w -> reachable (w_db (recover_one rid token now w).2).
Proof.
  intros R Hf. destruct (decide (still_orphaned now (rid, token, w))) as [O|N].
  - destruct (recover_one_orphan _ _ _ _ R Hf O) as (rec & w' & E & -> & _). simpl.
    eapply reachable_step; [done|]. exists (OFinalize (orphan_args rid token now)), w, (Ret tt), w'.
    split_and!; [|done..]. by eapply run_op_ret.
  - destruct (recover_one_other _ _ _ _ N) as (w' & -> & E). simpl. by rewrite E.
Qed.

Definition turns_fresh (ts : list Turn) : Prop := Forall (fun t => fresh_ids 3 t.2) ts.

(** The loop of [reconcile_orphans], whatever the others do between its turns. *)
Lemma recover_spec others n candidates now w :
  (forall k w, reachable (w_db w) -> reachable (w_db (others k w))) ->
  reachable (w_db w) -> turns_fresh (turns others n candidates now w) ->
  exists w', recover others n candidates now w =
      (Ret (filter (still_orphaned now) (turns others n candidates now w)).*1.*1, w') /\
    reachable (w_db w') /\ (turns others n candidates now w).*1 = candidates /\
    Forall (fun t => reachable (w_db t.2)) (turns others n candidates now w).
Proof.
  intros Ho. revert n w. induction candidates as [|[rid token] rest IH]; intros n w R Hf; [by exists w|].
  cbn [recover turns] in *. set (w1 := others n w) in *. apply Forall_cons in Hf as [Hf1 Hf].
  assert (R1 : reachable (w_db w1)) by (by apply Ho).
  destruct (IH _ _ (recover_one_reachable rid token now w1 R1 Hf1) Hf) as (w' & E & R' & L & F).
  exists w'. rewrite fmap_cons, L. split_and!; [|done|done|by constructor].
  erewrite bind_run by reflexivity. fold w1. rewrite filter_cons.
  destruct (decide (still_orphaned now (rid, token, w1))) as [O|N].
  - destruct (recover_one_orphan _ _ _ _ R1 Hf1 O) as (rec & w2 & _ & E1 & _). rewrite E1 in *.
    erewrite bind_run by exact E1. by erewrite bind_run by exact E.
  - destruct (recover_one_other _ _ _ _ N) as (w2 & E1 & _). rewrite E1 in *.
    erewrite bind_run by exact E1. by erewrite bind_run by exact E.
Qed.

(** Undisturbed, the loop ends every candidate and leaves the other runs that are
    not queued. *)
Lemma recover_alone candidates now w n rids w' :
  recover (fun _ w => w) n candidates now w = (Ret rids, w') ->
  reachable (w_db w) -> turns_fresh (turns (fun _ w => w) n candidates now w) ->
  NoDup candidates.*1 -> Forall (fun c => still_orphaned now (c, w)) candidates ->
  (forall i r, db_runs (w_db w) !! i = Some r -> run_status r <> QUEUED -> i ∉ candidates.*1 ->
     db_runs (w_db w') !! i = Some r) /\
  (forall i r, i ∈ candidates.*1 -> db_runs (w_db w) !! i = Some r ->
     exists r', db_runs (w_db w') !! i = Some r' /\ run_status r' = orphan_end r).
Proof.
  revert n w rids. induction candidates as [|[rid token] rest IH]; intros n w rids H R Hf ND FA.
  { apply ret_inv in H as [_ <-]. split; [done|]. intros i r Hi. by apply elem_of_nil in Hi. }
  cbn [recover turns] in *. apply Forall_cons in Hf as [Hf1 Hf], FA as [O FA].
  rewrite fmap_cons in ND. apply NoDup_cons in ND as [Ni ND]. cbn [snd fst] in *.
  pose proof (recover_one_reachable rid token now w R Hf1) as R1.
  destruct (recover_one_orphan _ _ _ _ R Hf1 O) as (rec & w1 & E & E1 & T). rewrite E1 in *. cbn [snd] in *.
  erewrite bind_run in H by reflexivity. erewrite bind_run in H by exact E1.
  apply bind_inv in H as (rs & w2 & H2 & [_ <-]%ret_inv).
  assert (W := si_wf _ (reachable_inv _ _ _ _ R)).
  assert (Keep : forall i r, db_runs (w_db w) !! i = Some r -> run_status r <> QUEUED -> i <> rid ->
    db_runs (w_db w1) !! i = Some r) by (intros; by eapply orphan_finalize_row).
  destruct (IH _ _ _ H2 R1 Hf ND) as [K1 T1].
  { apply Forall_forall. intros [i tok] Hi. rewrite Forall_forall in FA.
    destruct (FA _ Hi) as (x & Hx & Et & He). exists x. split_and!; [|done..]. apply Keep; [done| |].
    - by destruct He as [[-> | ->] _].
    - intros ->. apply Ni, list_elem_of_fmap. by exists (rid, tok). }
  split.
  - intros i r Hi Hq [Nr Nn]%not_elem_of_cons. apply K1; [by apply Keep|done..].
  - intros i r [->|Hi]%elem_of_cons Hr.
    + destruct (T _ Hr) as (r' & Hr' & Es). exists r'. split; [|done]. apply K1; [done| |done].
      rewrite Es. unfold orphan_end. by destruct (run_status r).
    + apply T1; [done|]. apply Keep; [done| |by intros ->].
      apply list_elem_of_fmap in Hi as ([j tok] & -> & Hi). rewrite Forall_forall in FA.
      destruct (FA _ Hi) as (x & Hx & _ & He). simpl in *. assert (x = r) as -> by congruence.
      by destruct He as [[-> | ->] _].
Qed.

(** C33. Recovery of orphaned runs is exact. The other processes may perform any
    transactions [between n] before the [n]-th candidate's own. The candidates are
    the runs whose lease had ended, each once, under the fencing token they had.
    The runs reported are exactly the candidates that are still in that state, under
    the same token, at their turn: each of those ends, cancelled if it was being
    cancelled and failed otherwise, and no other run changes but for the
    promotion of a queued one; a candidate that was renewed, taken over or ended in the
    meantime is left alone, with the rest of the database. So when nobody intervenes
    every expired run ends and every other run that is not queued stays as it is. *)
Theorem orphan_recovery (between : nat -> list Op) now w :
  let others n := run_ops env preflight normalize (between n) in
  let candidates := orphan_candidates (w_db w) now in
  let ts := turns others 0 candidates now w in
  reachable (w_db w) -> Forall (fun t => fresh_ids 3 t.2) ts ->
  (forall rid token, (rid, token) ∈ candidates <->
     exists r, db_runs (w_db w) !! rid = Some r /\ run_fencing_token r = token /\ expired r now) /\
  NoDup candidates.*1 /\ ts.*1 = candidates /\
  (forall rid token w1, (rid, token, w1) ∈ ts ->
     let w2 := (recover_one rid token now w1).2 in
     (still_orphaned now (rid, token, w1) ->
        (forall r, db_runs (w_db w1) !! rid = Some r ->
           exists r', db_runs (w_db w2) !! rid = Some r' /\ run_status r' = orphan_end r) /\
        (forall i r, db_runs (w_db w1) !! i = Some r -> run_status r <> QUEUED -> i <> rid ->
           db_runs (w_db w2) !! i = Some r)) /\
     (~ still_orphaned now (rid, token, w1) -> w_db w2 = w_db w1)) /\
  exists w', reconcile_orphans others (Some now) w =
      (Ret (filter (still_orphaned now) ts).*1.*1, w') /\
    reachable (w_db w') /\
    ((forall n, between n = []) -> forall i r, db_runs (w_db w) !! i = Some r ->
       (expired r now ->
          exists r', db_runs (w_db w') !! i = Some r' /\ run_status r' = orphan_end r) /\
       (~ expired r now -> run_status r <> QUEUED -> db_runs (w_db w') !! i = Some r)).
Proof.
  intros others candidates ts R Hf. assert (W := si_wf _ (reachable_inv _ _ _ _ R)).
  pose proof (orphan_candidates_NoDup (w_db w) now W) as ND. fold candidates in ND.
  destruct (recover_spec others 0 candidates now w) as (w' & E & R' & L & FR); [|done..|].
  { intros. by apply run_ops_reachable. }
  split_and!; [intros; by apply orphan_candidates_spec|done|exact L| |].
  - intros rid token w1 Hin w2. unfold turns_fresh in *. rewrite Forall_forall in Hf, FR.
    specialize (Hf _ Hin). specialize (FR _ Hin). simpl in Hf, FR. split.
    + intros O. destruct (recover_one_orphan _ _ _ _ FR Hf O) as (rec & v & E1 & E2 & T).
      unfold w2. rewrite E2. split; [exact T|]. intros i r Hi Hq Ni.
      eapply orphan_finalize_row; try done. apply (reachable_inv _ _ _ _ FR).
    + intros N. destruct (recover_one_other _ _ _ _ N) as (v & E1 & E2). unfold w2. by rewrite E1.
  - exists w'. split_and!; [|done|].
    { unfold reconcile_orphans. erewrite bind_run by reflexivity. by erewrite bind_run by reflexivity. }
    intros Hb i r Hr.
    assert (forall n v, others n v = v) as Hid by (intros n v; unfold others; by rewrite Hb).
    assert (forall cs n v, turns others n cs now v = turns (fun _ w => w) n cs now v /\
      recover others n cs now v = recover (fun _ w => w) n cs now v) as Eq.
    { induction cs as [|[rid token] cs IH]; intros n v; [done|]. cbn [turns recover]. rewrite Hid.
      split; [by rewrite (proj1 (IH _ _))|].
      unfold interfere, mbind, M_bind. rewrite Hid. cbn beta iota.
      destruct (recover_one rid token now v) as [[d|e] v1]; [|done]. by rewrite (proj2 (IH _ _)). }
    unfold ts in Hf. rewrite (proj1 (Eq _ _ _)) in Hf. rewrite (proj2 (Eq _ _ _)) in E.
    destruct (recover_alone _ _ _ _ _ _ E R Hf ND) as [K T].
    { apply Forall_forall. intros [rid token] Hc. by apply orphan_candidates_spec in Hc. }
    split.
    + intros He. apply T; [|done]. apply list_elem_of_fmap. exists (i, run_fencing_token r).
      split; [done|]. apply orphan_candidates_spec; eauto.
    + intros Ne Hq. apply K; [done..|]. intros ([rid token] & -> & Hc)%list_elem_of_fmap.
      apply orphan_candidates_spec in Hc as (x & Hx & _ & He); [|done]. simpl in *. congruence.
Qed.

(** ** Cancellation *)

(** A live run is not deleted. *)
Lemma effect_live_kept fin db db' i r :
  effect fin db db' -> db_runs db !! i = Some r -> is_terminal (run_status r) = false ->
  is_Some (db_runs db' !! i).
Proof.
  intros [db1 [_ E]|db1 x x' (_ & _ & _ & E) _|db2 db1 x x' s _ (_ & _ & _ & E) Hp _ _ _ _ _ _
         |db1 x t now tok _ Hn E _ _|t Ht Hn] Hi Hl.
  - rewrite E. eauto.
  - rewrite E. apply lookup_insert_is_Some'. eauto.
  - assert (is_Some (db_runs db1 !! i)) as H1 by (rewrite E; apply lookup_insert_is_Some'; eauto).
    destruct Hp as [_|db3 q q' (_ & _ & _ & E') _ _ _ _]; [done|].
    rewrite E'. apply lookup_insert_is_Some'. eauto.
  - rewrite E. apply lookup_insert_is_Some'. eauto.
  - exists r. apply survives_delete. split; [done|]. intros Et.
    rewrite (Hn i r Hi Et) in Hl. done.
Qed.

(** C34. A cancellation mark that lands on a run without a worker is never acted
    on: no operation other than an unconditional finalisation changes the run's
    status or ownership, and the recovery of orphans does not see it, because it
    has no lease. The thread stays occupied meanwhile. *)
Theorem ownerless_cancelling_run_is_stuck o w oc w' rid r :
  reachable (w_db w) -> db_runs (w_db w) !! rid = Some r ->
  run_status r = CANCELLING -> run_owner_worker_id r = None ->
  (forall a, o = OFinalize a -> fz_lease_expired_before a <> None) ->
  exec o w = (oc, w') ->
  (exists r', db_runs (w_db w') !! rid = Some r' /\ abs_run r' = abs_run r) /\
  (forall now, rid ∉ (orphan_candidates (w_db w) now).*1).
Proof.
  intros [W C I]%reachable_inv Hr Hs Ho Hf H.
  assert (run_lease_expires_at r = None) as Hl.
  { pose proof (inv_ownership _ I _ _ (abs_lookup _ _ _ Hr)) as O.
    unfold ownership_ok in O. simpl in O. rewrite Hs, Ho in O.
    destruct (run_lease_expires_at r); [|done]. by destruct (proj2 O ltac:(eauto)). }
  split.
  - destruct oc as [[]|e]; [|apply exec_raise in H; rewrite H; eauto].
    pose proof (exec_effect _ _ _ _ _ _ H W I) as Ef. destruct o as [| | | | |a| | | | | | | | | | | |].
    6:{ cbn [System.exec] in H. unfold run_op in H. apply bind_inv in H as (rec & ? & H & [_ <-]%ret_inv).
        assert (fz_run_id a <> rid \/ lease_still_expired r (fz_lease_expired_before a) = false) as N.
        { specialize (Hf a eq_refl). destruct (fz_lease_expired_before a); [|done].
          right. simpl. rewrite Hl. apply andb_false_r. }
        destruct (finalize_spec _ _ _ _ H W) as (y & Hy & _ & _ & Hle &
          [(-> & _)|(_ & _ & db1 & r' & (_ & _ & _ & E) & Hp & _)]); [eauto|].
        exists r. split; [|done]. eapply promotes_keeps; [done| |by rewrite Hs].
        rewrite E, (wf_run_key _ W _ _ Hy), lookup_insert_ne; [done|].
        intros E2. rewrite E2 in Hy. destruct N; congruence. }
    all: cbn [is_finalize] in Ef; destruct (effect_live_kept _ _ _ _ _ Ef Hr) as [r' Hr'];
      [by rewrite Hs|]; exists r'; (split; [done|]);
      destruct (effect_row _ _ _ _ _ _ Ef Hr Hr') as [_ [->|Hc]]; [done|];
      by apply (ownerless_row_change (abs_run r) (abs_run r')).
  - intros now Hin. apply list_elem_of_fmap in Hin as ([i tok] & -> & Hin).
    apply orphan_candidates_spec in Hin as (x & Hx & _ & _ & t & Ht & _); [|done].
    simpl in Hr. congruence.
Qed.

(** A cancellation request by the owner of a run: a finished run is returned
    as it is, a running one is marked, and a pending or waiting one, which no
    worker holds, ends cancelled at once. *)
Theorem request_cancel_by_status name rid w rec w' r :
  reachable (w_db w) -> request_cancel name rid w = (Ret rec, w') ->
  db_runs (w_db w) !! rid = Some r ->
  exists r', db_runs (w_db w') !! rid = Some r' /\
    match run_status r with
    | SUCCEEDED | FAILED | CANCELLED => r' = r
    | RUNNING | CANCELLING => run_status r' = CANCELLING
    | QUEUED | PENDING | WAITING_INPUT => run_status r' = CANCELLED
    end.
Proof.
  intros [W C I]%reachable_inv H Hr. unfold request_cancel in H.
  apply bind_inv in H as (cur & w1 & H1 & H).
  apply get_inv in H1 as (x & t & Hx & -> & ->). assert (x = r) as -> by congruence.
  cbn [rr_status _record] in H. destruct (run_status r) eqn:Es.
  all: try (apply ret_inv in H as [_ <-]; by exists r).
  all: try (destruct (finalize_row _ _ _ _ _ H W Hr) as (r' & Hr' & _ & Et); exists r';
            split; [done|]; rewrite Et by (by rewrite Es);
            unfold final_target, resolve_cancelling; by rewrite Es).
  all: apply mark_cancelling_spec in H as (y & Hy & [(-> & [Ht|Hc])|(r' & Mv & Hcl & Ea)]); [..|done];
    assert (y = r) as -> by congruence; try (rewrite Es in *; done); eauto.
  all: exists r'; pose proof (moves_row _ _ _ _ Mv) as L; destruct Mv as (_ & _ & K & _);
    rewrite (run_core_id _ _ K), (wf_run_key _ W _ _ Hr) in L; split; [done|by injection Ea].
Qed.

End Ownership.

(** ** Witnesses *)

Lemma pending_run_can_be_claimed_witness :
  let w := after ops_reserved in
  exists rec w' r', claim ex_env run_a "w1"%py None w = (Ret rec, w') /\
    db_runs (w_db w') !! run_a = Some r' /\ run_status r' = RUNNING /\
    run_owner_worker_id r' = Some "w1"%py /\
    run_fencing_token r' = run_fencing_token (row w run_a) + 1 /\
    rr_fencing_token rec = run_fencing_token (row w run_a) + 1.
Proof.
  intros w.
  apply (pending_run_can_be_claimed ex_env ex_preflight ex_normalize run_a "w1"%py None w (row w run_a));
    ex_run.
Defined.

Lemma live_lease_is_exclusive_witness :
  let w := after ops_claimed in
  exists e w', claim ex_env run_a "w2"%py None w = (Raise (EApp e), w') /\ ae_code e = RUN_ACTIVE /\
    w_db w' = w_db w.
Proof.
  intros w.
  apply (live_lease_is_exclusive ex_env ex_preflight ex_normalize run_a "w2"%py None w (row w run_a));
    ex_run.
Defined.

Lemma active_run_can_be_finished_witness :
  let w := after ops_queue in let a := ex_finalize run_a SUCCEEDED in
  exists rec w' r', finalize a w = (Ret rec, w') /\
    db_runs (w_db w') !! run_a = Some r' /\ is_terminal (run_status r') = true.
Proof.
  intros w a.
  apply (active_run_can_be_finished ex_env ex_preflight ex_normalize a w (row w run_a));
    [ex_run..|done|done].
Defined.

(** Two workers whose leases have ended; the second one renews its lease after the
    candidates were read. *)
Definition run_d : pystr := "run_7"%py.
Definition ops_two : list Op := ops_queue ++
  [OReserve (mkReserveRequest "ann"%py "t2"%py "hello"%py "k4"%py None None "m"%py None None
     (Some REJECT) (Some "title"%py) "default"%py "run"%py ∅ true);
   OClaim run_d "w2"%py None].
Definition ex_between (n : nat) : list Op :=
  if (n =? 0)%nat then [OHeartbeat run_d "w2"%py 3 (Some 1000000000)] else [].

Lemma orphan_recovery_witness :
  let w := after ops_two in let now := 100000000 in
  let others n := run_ops ex_env ex_preflight ex_normalize (ex_between n) in
  let alone _ w := w in
  ((orphan_candidates (w_db w) now).*1 = [run_d; run_a] /\
   exists w', reconcile_orphans others (Some now) w = (Ret [run_a], w') /\
     reachable ex_env ex_preflight ex_normalize (w_db w')) /\
  exists w', reconcile_orphans alone (Some now) w = (Ret [run_d; run_a], w') /\
    forall i r, db_runs (w_db w) !! i = Some r -> expired r now ->
      exists r', db_runs (w_db w') !! i = Some r' /\ run_status r' = orphan_end r.
Proof.
  intros w now others alone. split; [split; [ex_run|]|].
  - destruct (orphan_recovery ex_env ex_preflight ex_normalize ex_between now w)
      as (_ & _ & _ & _ & w' & E & R & _); [ex_run..|].
    exists w'. split; [|exact R]. refine (eq_trans E _). by do 2 f_equal.
  - destruct (orphan_recovery ex_env ex_preflight ex_normalize (fun _ => []) now w)
      as (_ & _ & _ & _ & w' & E & _ & A); [ex_run..|].
    exists w'. split.
    + refine (eq_trans E _). by do 2 f_equal.
    + intros i r Hr. by apply (A (fun _ => eq_refl) i r Hr).
Defined.

Lemma ownerless_cancelling_run_is_stuck_witness :
  let w := after ops_stuck in let o := OClaim run_a "w2"%py None in
  run_status (row w run_a) = CANCELLING /\
  (exists r', db_runs (w_db (exec ex_env ex_preflight ex_normalize o w).2) !! run_a = Some r' /\
     abs_run r' = abs_run (row w run_a)) /\
  (forall now, run_a ∉ (orphan_candidates (w_db w) now).*1).
Proof.
  intros w o. split; [ex_run|].
  refine (ownerless_cancelling_run_is_stuck ex_env ex_preflight ex_normalize o w
    (exec ex_env ex_preflight ex_normalize o w).1 _ run_a (row w run_a) _ _ _ _ _ _);
    [ex_run..| |apply surjective_pairing].
  intros a E. discriminate E.
Defined.

Lemma request_cancel_by_status_witness :
  let w := after ops_claimed in
  exists r', db_runs (w_db (request_cancel "ann"%py run_a w).2) !! run_a = Some r' /\
    run_status r' = CANCELLING.
Proof.
  intros w.
  refine (request_cancel_by_status ex_env ex_preflight ex_normalize "ann"%py run_a w _ _ (row w run_a)
    _ (ret_eq blank_record (request_cancel "ann"%py run_a) w _) _); ex_run.
Defined.
