(* ===== verification/Reservation.v ===== *)
(** * Properties of the reservation

    Idempotency keys, admission into a thread, and the refusals. *)

From S2P Require Import Prelude PyBase Errors RunState Schema Session Effects Journal RunRepo RunService Hitl Threads Changes RunMachine RunSpec HitlSpec System Progress Fixtures.

Open Scope Z_scope.

Section Reservation.
Context (env : Env) (preflight : ResumeAccessState -> option exn).
Context (normalize : option json -> option json).

#[local] Abbreviation exec := (exec env preflight normalize).
#[local] Abbreviation reachable := (reachable env preflight normalize).

(** The thread of a reservation, when it exists: at most its title is filled in. *)
Lemma get_or_create_found user tid title allow w t :
  db_wf (w_db w) -> constraints_ok (w_db w) = true ->
  find_thread (w_db w) (u_id user) tid = Some t ->
  exists t' db', get_or_create_thread user tid title allow w = (Ret t', set_w_db db' w) /\
    thread_core t' = thread_core t /\ constraints_ok db' = true /\
    db_runs db' = db_runs (w_db w) /\ db_messages db' = db_messages (w_db w) /\
    db_events db' = db_events (w_db w).
Proof.
  intros W C Ht. destruct (find_thread_Some _ _ _ _ W Ht) as (Hl & _ & _).
  unfold get_or_create_thread. erewrite bind_run by reflexivity. rewrite Ht.
  assert (w = set_w_db (w_db w) w) as E by (by destruct w).
  destruct title as [s|]; [destruct (_ && _)|].
  - do 2 eexists. split; [reflexivity|]. split_and!; try done.
    by apply (constraints_put_thread _ t).
  - exists t, (w_db w). split_and!; try done. by rewrite <- E.
  - exists t, (w_db w). split_and!; try done. by rewrite <- E.
Qed.

Lemma existing_run_runs db db' uid tid key :
  db_runs db' = db_runs db -> existing_run db' uid tid key = existing_run db uid tid key.
Proof. intros E. unfold existing_run. by rewrite E. Qed.

Lemma active_run_runs db db' tid :
  db_runs db' = db_runs db -> active_run db' tid = active_run db tid.
Proof. intros E. unfold active_run. by rewrite E. Qed.

(** The reservation's transaction up to the idempotency test. *)
Lemma reserve_body_run q i now w user t :
  db_wf (w_db w) -> constraints_ok (w_db w) = true ->
  find_user (w_db w) (rq_username q) = Some user ->
  find_thread (w_db w) (u_id user) (rq_thread_id q) = Some t ->
  exists t' db', thread_core t' = thread_core t /\ constraints_ok db' = true /\
    db_runs db' = db_runs (w_db w) /\ db_messages db' = db_messages (w_db w) /\
    db_events db' = db_events (w_db w) /\
    reserve_body env q i now w =
      (match existing_run (w_db w) (u_id user) (th_id t) (rs_key i) with
       | Some existing =>
           raise_if (negb (bool_decide (run_request_hash existing = rs_hash i)))
             (EApp (app_error3 IDEMPOTENCY_CONFLICT "相同 idempotency_key 对应了不同请求"%py 409));;
           mret (mkRunReservation (_record existing (rq_thread_id q)) false (th_version t) None)
       | None =>
           raise_if (match rq_expected_thread_version q with
                     | Some v => negb (th_version t =? v)
                     | None => false
                     end)
             (EApp (app_error THREAD_VERSION_CONFLICT "Thread 版本已变化，请刷新后重试"%py 409 false
                      [("current_version"%py, JInt (th_version t))] None None));;
           '(status, supersedes) ← admission (active_run (w_db w) (th_id t)) (rs_strategy i);
           reserve_new env q i now user t' status supersedes
       end) (set_w_db db' w).
Proof.
  intros W C Hu Ht.
  destruct (get_or_create_found user (rq_thread_id q) (rq_title q) (rq_allow_implicit_thread q) w t W C Ht)
    as (t' & db' & E & Ec & C' & Er & Em & Ev).
  exists t', db'. split_and!; try done. unfold reserve_body.
  erewrite bind_run by reflexivity. erewrite bind_run by (by rewrite Hu).
  erewrite bind_run by exact E. erewrite bind_run by reflexivity. cbn [w_db set_w_db].
  assert (th_id t' = th_id t /\ th_version t' = th_version t) as [-> ->]
    by (unfold thread_core in Ec; by injection Ec).
  by rewrite (existing_run_runs (w_db w)), (active_run_runs (w_db w)).
Qed.

(** The whole reservation, from the outcome of its transaction. *)
Lemma reserve_returns q i w rv db' :
  reserve_inputs env q w = (Ret i, w) ->
  let w1 := set_w_tick (S (w_tick w)) w in
  reserve_body env q i (w_clock w (w_tick w)) w1 = (Ret rv, set_w_db db' w1) ->
  constraints_ok db' = true ->
  reserve env q w = (Ret rv, set_w_db db' w1).
Proof.
  intros Hi w1 E C. unfold reserve. erewrite bind_run by exact Hi.
  erewrite bind_run by reflexivity. unfold catch. by erewrite transaction_run by (done || exact E).
Qed.

Lemma reserve_refuses q i w e w2 :
  reserve_inputs env q w = (Ret i, w) ->
  let w1 := set_w_tick (S (w_tick w)) w in
  reserve_body env q i (w_clock w (w_tick w)) w1 = (Raise (EApp e), w2) ->
  exists w', reserve env q w = (Raise (EApp e), w') /\ w_db w' = w_db w.
Proof.
  intros Hi w1 E. exists (rollback w1 w2). split; [|done]. unfold reserve.
  erewrite bind_run by exact Hi. erewrite bind_run by reflexivity. unfold catch.
  by erewrite transaction_fail by exact E.
Qed.

(** C35. Reservations are idempotent: a request repeated under its key returns the
    run it created the first time, in its current state, and writes no run, no
    message and no event, however the run has moved on since; the same key with a
    different request is refused and changes nothing. *)
Theorem reservation_is_idempotent q w i user t r :
  reachable (w_db w) -> reserve_inputs env q w = (Ret i, w) ->
  find_user (w_db w) (rq_username q) = Some user ->
  find_thread (w_db w) (u_id user) (rq_thread_id q) = Some t ->
  existing_run (w_db w) (u_id user) (th_id t) (rs_key i) = Some r ->
  if bool_decide (run_request_hash r = rs_hash i) then
    exists w', reserve env q w =
        (Ret (mkRunReservation (_record r (rq_thread_id q)) false (th_version t) None), w') /\
      db_runs (w_db w') = db_runs (w_db w) /\ db_messages (w_db w') = db_messages (w_db w) /\
      db_events (w_db w') = db_events (w_db w)
  else
    exists e w', reserve env q w = (Raise (EApp e), w') /\ ae_code e = IDEMPOTENCY_CONFLICT /\
      w_db w' = w_db w.
Proof.
  intros [W C _]%reachable_inv Hi Hu Ht He.
  destruct (reserve_body_run q i (w_clock w (w_tick w)) (set_w_tick (S (w_tick w)) w) user t W C Hu Ht)
    as (t' & db' & _ & C' & Er & Em & Ev & E).
  cbn [w_db set_w_tick] in E. rewrite He in E. destruct (bool_decide _) eqn:Hh.
  - eexists. split; [exact (reserve_returns _ _ _ _ _ Hi E C')|done].
  - destruct (reserve_refuses _ _ _ _ _ Hi E) as (w' & E' & Ew). eauto.
Qed.

(** A thread with an active run refuses a further run under the reject
    strategy, naming the active one, and changes nothing. *)
Theorem reject_strategy_refuses q w i user t a :
  reachable (w_db w) -> reserve_inputs env q w = (Ret i, w) ->
  find_user (w_db w) (rq_username q) = Some user ->
  find_thread (w_db w) (u_id user) (rq_thread_id q) = Some t ->
  existing_run (w_db w) (u_id user) (th_id t) (rs_key i) = None ->
  rq_expected_thread_version q = None -> rs_strategy i = REJECT ->
  active_run (w_db w) (th_id t) = Some a ->
  exists e w', reserve env q w = (Raise (EApp e), w') /\ ae_code e = RUN_ACTIVE /\
    obj_get "active_run_id"%py (pe_details (ae_public e)) = Some (JStr (run_id a)) /\
    w_db w' = w_db w.
Proof.
  intros [W C _]%reachable_inv Hi Hu Ht He Hv Hst Ha.
  destruct (reserve_body_run q i (w_clock w (w_tick w)) (set_w_tick (S (w_tick w)) w) user t W C Hu Ht)
    as (t' & db' & _ & _ & _ & _ & _ & E).
  cbn [w_db set_w_tick] in E. rewrite He, Hv, Ha, Hst in E.
  destruct (reserve_refuses _ _ _ _ _ Hi E) as (w' & E' & Ew).
  do 2 eexists. split; [exact E'|]. by split_and!.
Qed.

(** Admission: a reservation that creates a run adds exactly one row to the
    run table and changes no other; the run starts without an owner or a lease,
    pending when the thread has no active run and queued otherwise (recording the
    run it supersedes under the cancel-previous strategy), and the thread's
    version is the one the client expected. *)
Theorem reservation_admits q w rv w' :
  reachable (w_db w) -> reserve env q w = (Ret rv, w') -> rv_created rv = true ->
  exists i t r, reserve_inputs env q w = (Ret i, w) /\
    db_runs (w_db w) !! run_id r = None /\
    db_runs (w_db w') = <[run_id r := r]> (db_runs (w_db w)) /\
    rv_run rv = _record r (rq_thread_id q) /\
    run_thread_ref_id r = th_id t /\ th_thread_id t = rq_thread_id q /\
    run_owner_worker_id r = None /\ run_lease_expires_at r = None /\
    (forall v, rq_expected_thread_version q = Some v -> th_version t = v) /\
    match active_run (w_db w) (th_id t) with
    | None => run_status r = PENDING /\ run_supersedes_run_id r = None
    | Some a => run_status r = QUEUED /\
        ((rs_strategy i = ENQUEUE /\ run_supersedes_run_id r = None) \/
         (rs_strategy i = CANCEL_PREVIOUS /\ run_supersedes_run_id r = Some (run_id a)))
    end.
Proof.
  intros [W C _]%reachable_inv H Hc.
  destruct (reserve_spec _ _ _ _ _ H W) as (i & user & t & r & Hi & [[]|N]); [congruence|].
  exists i, t, r. pose proof (rn_abs _ _ _ _ _ _ _ _ _ N) as Ea.
  unfold abs_run in Ea. injection Ea as Et _ Eo El. destruct N as [? ? ? [? ?] ? ? ? Hst].
  unfold admitted_as in Hst. by split_and!.
Qed.
End Reservation.

(** ** Witnesses *)

Definition blank_reserved : Reserved :=
  mkReserved ""%py ""%py ""%py ∅ (mkModelCatalogSnapshot ""%py []) ""%py REJECT.
Definition blank_thread : Thread := mkThread 0 0 ""%py ""%py 0 0 0 [] 0 0.
Definition blank_reservation : RunReservation := mkRunReservation blank_record false 0 None.

(** The thread of the example. *)
Definition ex_thread (w : World) : Thread := default blank_thread (find_thread (w_db w) 1 "t1"%py).
Definition ex_inputs (q : ReserveRequest) (w : World) : Reserved :=
  value blank_reserved (reserve_inputs ex_env q w).1.

Lemma ex_inputs_eq q w :
  is_ret (reserve_inputs ex_env q w).1 = true ->
  reserve_inputs ex_env q w = (Ret (ex_inputs q w), w).
Proof.
  intros H. unfold ex_inputs. pose proof (ret_eq blank_reserved _ _ H) as E.
  rewrite E. simpl. by rewrite (reserve_inputs_inv _ _ _ _ _ E).
Qed.

Lemma reservation_is_idempotent_witness :
  let w := after ops_queue in let q := ex_request "k2"%py ENQUEUE in
  let q' := mkReserveRequest "ann"%py "t1"%py "another"%py "k2"%py (Some "other"%py) None "m"%py None None
    (Some ENQUEUE) None "default"%py "run"%py ∅ true in
  (exists w', reserve ex_env q w =
      (Ret (mkRunReservation (_record (row w run_b) "t1"%py) false (th_version (ex_thread w)) None), w') /\
    db_runs (w_db w') = db_runs (w_db w) /\ db_messages (w_db w') = db_messages (w_db w) /\
    db_events (w_db w') = db_events (w_db w)) /\
  (exists e w', reserve ex_env q' w = (Raise (EApp e), w') /\ ae_code e = IDEMPOTENCY_CONFLICT /\
    w_db w' = w_db w).
Proof.
  intros w q q'. split.
  - assert (bool_decide (run_request_hash (row w run_b) = rs_hash (ex_inputs q w)) = true) as Hb
      by (by vm_compute).
    pose proof (reservation_is_idempotent ex_env ex_preflight ex_normalize q w (ex_inputs q w) ann
      (ex_thread w) (row w run_b)) as H. rewrite Hb in H.
    apply H; first [apply after_reachable | by vm_compute | apply ex_inputs_eq; by vm_compute].
  - assert (bool_decide (run_request_hash (row w run_b) = rs_hash (ex_inputs q' w)) = false) as Hb
      by (by vm_compute).
    pose proof (reservation_is_idempotent ex_env ex_preflight ex_normalize q' w (ex_inputs q' w) ann
      (ex_thread w) (row w run_b)) as H. rewrite Hb in H.
    apply H; first [apply after_reachable | by vm_compute | apply ex_inputs_eq; by vm_compute].
Defined.

Lemma reject_strategy_refuses_witness :
  let w := after ops_claimed in let q := ex_request "k2"%py REJECT in
  exists e w', reserve ex_env q w = (Raise (EApp e), w') /\ ae_code e = RUN_ACTIVE /\
    obj_get "active_run_id"%py (pe_details (ae_public e)) = Some (JStr run_a) /\
    w_db w' = w_db w.
Proof.
  intros w q.
  refine (reject_strategy_refuses ex_env ex_preflight ex_normalize q w (ex_inputs q w) ann
    (ex_thread w) (row w run_a) _ _ _ _ _ _ _ _); first [apply after_reachable | by vm_compute | apply ex_inputs_eq; by vm_compute].
Defined.

Lemma reservation_admits_witness :
  let w := after ops_claimed in let q := ex_request "k2"%py CANCEL_PREVIOUS in
  let rv := value blank_reservation (reserve ex_env q w).1 in
  run_supersedes_run_id (row (reserve ex_env q w).2 run_b) = Some run_a /\
  exists i t r, reserve_inputs ex_env q w = (Ret i, w) /\
    db_runs (w_db w) !! run_id r = None /\
    db_runs (w_db (reserve ex_env q w).2) = <[run_id r := r]> (db_runs (w_db w)) /\
    rv_run rv = _record r (rq_thread_id q) /\
    run_thread_ref_id r = th_id t /\ th_thread_id t = rq_thread_id q /\
    run_owner_worker_id r = None /\ run_lease_expires_at r = None /\
    (forall v, rq_expected_thread_version q = Some v -> th_version t = v) /\
    match active_run (w_db w) (th_id t) with
    | None => run_status r = PENDING /\ run_supersedes_run_id r = None
    | Some a => run_status r = QUEUED /\
        ((rs_strategy i = ENQUEUE /\ run_supersedes_run_id r = None) \/
         (rs_strategy i = CANCEL_PREVIOUS /\ run_supersedes_run_id r = Some (run_id a)))
    end.
Proof.
  intros w q rv. split; [ex_run|].
  refine (reservation_admits ex_env ex_preflight ex_normalize q w rv _ _
    (ret_eq blank_reservation (reserve ex_env q) w _) _); ex_run.
Defined.
