(* ===== verification/JournalProps.v ===== *)
(** * Properties of the event journal and of its delivery

    The journal of a run is gapless and append-only, pages are contiguous, a
    subscription delivers it exactly once and in order, and the outbox hands every
    event to the stream in order. *)

From S2P Require Import Prelude PyBase Errors RunState Schema Session Effects Journal RunRepo RunService EventBus Hitl Threads Changes RunMachine RunSpec HitlSpec System Progress Fixtures.

Open Scope Z_scope.

(** ** The journal of one run *)

Section OneRun.
Context (db : Database) (rid : pystr) (r : Run).
Context (W : db_wf db) (Hr : db_runs db !! rid = Some r).

Lemma journal_numbers : ev_sequence <$> journal_of db rid = zrange 1 (length (journal_of db rid)).
Proof using W Hr.
  destruct (wf_journal _ W _ _ Hr) as [_ E]. rewrite E. f_equal.
  rewrite <- (length_fmap ev_sequence), E. by rewrite length_zrange.
Qed.

Lemma events_after_journal after :
  events_after db rid after = drop (Z.to_nat (Z.max after 0)) (journal_of db rid).
Proof using W Hr.
  unfold events_after. rewrite filter_filter. fold (journal_of db rid).
  rewrite (filter_past ev_sequence _ 0); [f_equal; lia|apply journal_numbers|lia].
Qed.

Lemma events_after_ordered after :
  order_by ev_sequence (events_after db rid after) = events_after db rid after.
Proof using W Hr.
  apply order_by_sorted_id. rewrite events_after_journal. apply sorted_drop, key_sorted.
  rewrite journal_numbers. apply zrange_sorted.
Qed.

(** The page a read without a user name returns. *)
Lemma read_after_page t after limit w :
  w_db w = db -> db_threads db !! run_thread_ref_id r = Some t ->
  read_after rid after limit None w =
    (Ret ((fun e => _to_event e (th_thread_id t)) <$>
            take (Z.to_nat (Z.max 1 (Z.min limit 1000)))
              (drop (Z.to_nat (Z.max after 0)) (journal_of db rid))), w).
Proof using W Hr.
  intros Ew Ht. unfold read_after. erewrite bind_run by reflexivity. rewrite Ew.
  unfold visible_thread. rewrite Hr. simpl. rewrite Ht. simpl.
  rewrite events_after_ordered, events_after_journal.
  destruct (_ <$> take _ _) as [|x l] eqn:E; rewrite <- ?E, <- list_fmap_compose; [|done].
  apply fmap_nil_inv in E. by rewrite E.
Qed.
End OneRun.

Lemma event_row_to_event e tid : event_row (_to_event e tid) = e.
Proof. by destruct e. Qed.

Lemma rows_of_page tid (l : list RunEvent) : event_row <$> ((fun e => _to_event e tid) <$> l) = l.
Proof.
  rewrite <- list_fmap_compose. etrans; [|apply list_fmap_id]. apply list_fmap_ext.
  intros. apply event_row_to_event.
Qed.

(** ** Delivery *)

(** A journal up to its terminal event. *)
Fixpoint until_terminal (l : list RunEvent) : list RunEvent :=
  match l with
  | [] => []
  | e :: l' => e :: if is_terminal_event (ev_event_type e) then [] else until_terminal l'
  end.
Definition has_terminal (l : list RunEvent) : bool :=
  existsb (fun e => is_terminal_event (ev_event_type e)) l.

Lemma until_terminal_app l k :
  until_terminal (l ++ k) =
    if has_terminal l then until_terminal l else l ++ until_terminal k.
Proof.
  induction l as [|e l IH]; [done|]. simpl. rewrite IH.
  destruct (is_terminal_event _); simpl; [done|]. by destruct (has_terminal l).
Qed.

Lemma until_terminal_id l : has_terminal l = false -> until_terminal l = l.
Proof.
  intros E. rewrite <- (app_nil_r l) at 1. rewrite until_terminal_app, E. simpl.
  by rewrite app_nil_r.
Qed.

Lemma until_terminal_prefix l k :
  l `prefix_of` k -> until_terminal l `prefix_of` until_terminal k.
Proof.
  intros [m ->]. rewrite until_terminal_app. destruct (has_terminal l) eqn:E; [done|].
  rewrite until_terminal_id by done. apply prefix_app_r'.
Qed.

(** One batch numbered from the cursor on. *)
Lemma drain_page tid l c :
  ev_sequence <$> l = zrange (c + 1) (length l) ->
  exists c', drain ((fun e => _to_event e tid) <$> l) c =
      ((fun e => _to_event e tid) <$> until_terminal l, c', has_terminal l) /\
    (has_terminal l = false -> c' = c + Z.of_nat (length l)).
Proof.
  revert c. induction l as [|e l IH]; intros c E; csimpl.
  - exists c. split; [done|]. lia.
  - csimpl in E. injection E as Ee E. rewrite Ee, (proj2 (Z.leb_gt _ _)) by lia.
    destruct (is_terminal_event _); csimpl; [by eexists|].
    destruct (IH (c + 1) E) as (c' & -> & Hc). exists c'. split; [done|].
    intros H. rewrite Hc by done. lia.
Qed.

Section Journal.
Context (env : Env) (preflight : ResumeAccessState -> option exn).
Context (normalize : option json -> option json).

#[local] Abbreviation reachable := (reachable env preflight normalize).
#[local] Abbreviation sys_step := (sys_step env preflight normalize).

(** C36. The journal of a run is gapless: its events, in the order they were
    written, are numbered 1, 2, ... up to the run's event counter. *)
Theorem journal_is_gapless db rid r :
  reachable db -> db_runs db !! rid = Some r ->
  0 <= run_last_event_sequence r /\
  ev_sequence <$> journal_of db rid = zrange 1 (Z.to_nat (run_last_event_sequence r)).
Proof. intros [W _ _]%reachable_inv Hr. by apply (wf_journal _ W). Qed.

Lemma step_journal db db' rid :
  reachable db -> sys_step db db' -> is_Some (db_runs db' !! rid) ->
  journal_of db rid `prefix_of` journal_of db' rid.
Proof.
  intros [W C I]%reachable_inv (o & w & oc & w' & H & <- & <-) Hr. destruct oc as [[]|e].
  - eapply effect_journal; [|done]. by eapply exec_effect.
  - apply exec_raise in H. by rewrite H.
Qed.

(** The journal is append-only: no operation rewrites, reorders or drops an
    event of a run that still exists afterwards. *)
Theorem journal_is_append_only db db' rid :
  reachable db -> sys_step db db' -> is_Some (db_runs db' !! rid) ->
  journal_of db rid `prefix_of` journal_of db' rid.
Proof. apply step_journal. Qed.

(** Replay: a read past a cursor returns the next events of the journal, in
    order, without a gap or a repetition, at most [limit] (clamped to 1..1000). *)
Theorem read_after_is_next_page rid after limit w r :
  reachable (w_db w) -> db_runs (w_db w) !! rid = Some r ->
  exists events, read_after rid after limit None w = (Ret events, w) /\
    event_row <$> events =
      take (Z.to_nat (Z.max 1 (Z.min limit 1000)))
        (drop (Z.to_nat (Z.max after 0)) (journal_of (w_db w) rid)).
Proof.
  intros [W _ _]%reachable_inv Hr. destruct (wf_run_thread _ W _ _ Hr) as (t & Ht & _).
  eexists. split; [by apply (read_after_page (w_db w) rid r)|].
  apply rows_of_page.
Qed.

(** ** Subscriptions *)

(** Steps during which the run stays in the table. *)
Definition alive_step (rid : pystr) (db db' : Database) : Prop :=
  sys_step db db' /\ is_Some (db_runs db' !! rid).

(** The worlds a subscriber's polls see, from [db] on, with the system running in
    between, and the database at the end. *)
Fixpoint polled (rid : pystr) (db : Database) (polls : list (World * bool)) (db_end : Database) : Prop :=
  match polls with
  | [] => rtc (alive_step rid) db db_end
  | (w, _) :: rest => rtc (alive_step rid) db (w_db w) /\ polled rid (w_db w) rest db_end
  end.

Definition live (rid : pystr) (db : Database) : Prop :=
  reachable db /\ is_Some (db_runs db !! rid).

Lemma alive_steps rid db db' :
  live rid db -> rtc (alive_step rid) db db' ->
  live rid db' /\ journal_of db rid `prefix_of` journal_of db' rid.
Proof.
  intros L S. induction S as [|db1 db2 db3 [St Hr] _ IH]; [done|]. destruct L as [R _].
  destruct IH as [L P]; [split; [by eapply reachable_step|done]|]. split; [done|].
  etrans; [|exact P]. by eapply step_journal.
Qed.

Lemma polled_journal rid db polls db_end :
  live rid db -> polled rid db polls db_end -> journal_of db rid `prefix_of` journal_of db_end rid.
Proof.
  revert db. induction polls as [|[w due] rest IH]; intros db L P; simpl in P.
  - by eapply alive_steps.
  - destruct P as [S P]. destruct (alive_steps _ _ _ L S) as [L1 P1]. etrans; eauto.
Qed.

(** One poll returns the next batch of the journal. *)
Lemma poll_page rid c w :
  live rid (w_db w) -> 0 <= c ->
  exists tid, let page := take 500 (drop (Z.to_nat c) (journal_of (w_db w) rid)) in
    poll rid c w = (fun e => _to_event e tid) <$> page /\
    ev_sequence <$> page = zrange (c + 1) (length page).
Proof.
  intros [[W _ _]%reachable_inv [r Hr]] Hc. destruct (wf_run_thread _ W _ _ Hr) as (t & Ht & _).
  exists (th_thread_id t). split.
  - unfold poll. rewrite (read_after_page _ _ _ W Hr t) by done. simpl. do 2 f_equal.
    rewrite Z.max_l by lia. done.
  - set (J := journal_of (w_db w) rid). rewrite fmap_take, fmap_drop.
    unfold J. rewrite (journal_numbers _ _ _ W Hr). fold J. set (n := length J).
    destruct (decide (Z.to_nat c <= n)%nat) as [Hl|Hl].
    + rewrite drop_zrange by done. rewrite length_take, length_drop. fold n.
      rewrite take_zrange. f_equal; lia.
    + rewrite !drop_ge by (rewrite ?length_zrange; lia). done.
Qed.

(** The events a subscription yields, as journal rows. *)
Definition delivered (rid : pystr) (cursor : Z) (polls : list (World * bool)) : list RunEvent :=
  event_row <$> omap id (subscribe_loop rid cursor polls).

Lemma delivered_app tid (l : list RunEvent) k :
  event_row <$> omap id ((Some <$> ((fun e => _to_event e tid) <$> l)) ++ k) =
    l ++ (event_row <$> omap id k).
Proof.
  rewrite omap_app, fmap_app. f_equal. induction l as [|e l IH]; [done|]. csimpl.
  by rewrite event_row_to_event, IH.
Qed.

Lemma subscribe_loop_batch rid c w due rest :
  poll rid c w <> [] ->
  subscribe_loop rid c ((w, due) :: rest) =
    let '(out, c', finished) := drain (poll rid c w) c in
    (Some <$> out) ++ (if finished : bool then [] else subscribe_loop rid c' rest).
Proof. simpl. by destruct (poll rid c w). Qed.

(** A poll either finds nothing, or delivers its batch up to the terminal event. *)
Lemma delivered_cons rid c w due rest :
  live rid (w_db w) -> 0 <= c ->
  let page := take 500 (drop (Z.to_nat c) (journal_of (w_db w) rid)) in
  delivered rid c ((w, due) :: rest) =
    if has_terminal page then until_terminal page
    else page ++ delivered rid (c + Z.of_nat (length page)) rest.
Proof.
  intros L Hc page. destruct (poll_page rid c w L Hc) as (tid & Ep & En). fold page in Ep, En.
  unfold delivered. destruct (decide (page = [])) as [E|N].
  - rewrite E in *. cbn [subscribe_loop]. rewrite Ep. simpl. rewrite Z.add_0_r. by destruct due.
  - destruct (drain_page tid page c En) as (c' & Ed & Hc').
    rewrite subscribe_loop_batch by (rewrite Ep; by destruct page). rewrite Ep, Ed, delivered_app.
    destruct (has_terminal page) eqn:Ht; [by rewrite app_nil_r|].
    by rewrite Hc', until_terminal_id.
Qed.

(** C37. A subscription delivers the journal exactly once and in order: whatever
    is appended while it runs, the events it has yielded are the events of the
    journal right after the client's cursor, without a gap, a repetition or an
    event past the terminal one. *)
Theorem subscription_is_exactly_once rid c db polls db_end :
  live rid db -> 0 <= c -> polled rid db polls db_end ->
  delivered rid c polls `prefix_of` until_terminal (drop (Z.to_nat c) (journal_of db_end rid)).
Proof.
  revert c db. induction polls as [|[w due] rest IH]; intros c db L Hc P.
  { apply prefix_nil. }
  destruct P as [S P]. destruct (alive_steps _ _ _ L S) as [L1 _].
  rewrite delivered_cons by done.
  set (J := journal_of (w_db w) rid). set (page := take 500 _).
  assert (J `prefix_of` journal_of db_end rid) as [k Ek] by (by eapply polled_journal).
  destruct (has_terminal page) eqn:Ht.
  - apply until_terminal_prefix. etrans; [apply take_drop_prefix|]. apply prefix_drop.
    rewrite Ek. apply prefix_app_r'.
  - replace (drop (Z.to_nat c) (journal_of db_end rid))
      with (page ++ drop (Z.to_nat (c + Z.of_nat (length page))) (journal_of db_end rid)).
    + rewrite until_terminal_app, Ht. apply prefix_app, (IH _ _ L1); [lia|done].
    + rewrite Z2Nat.inj_add, Nat2Z.id, <- drop_drop by lia.
      apply take_drop_page. rewrite Ek. apply prefix_drop, prefix_app_r'.
Qed.

(** A subscription misses nothing: once the journal stands still, polls
    enough to read the rest in batches of 500 deliver all of it, up to and
    including the terminal event. *)
Theorem subscription_is_complete rid c w dues :
  live rid (w_db w) -> 0 <= c ->
  Z.of_nat (length (journal_of (w_db w) rid)) - c <= 500 * Z.of_nat (length dues) ->
  delivered rid c ((fun due => (w, due)) <$> dues) =
    until_terminal (drop (Z.to_nat c) (journal_of (w_db w) rid)).
Proof.
  set (J := journal_of (w_db w) rid). revert c.
  induction dues as [|due dues IH]; intros c L Hc Hn; csimpl.
  { rewrite drop_ge by (simpl in Hn; lia). done. }
  rewrite delivered_cons by done. fold J. set (page := take 500 _).
  assert (drop (Z.to_nat c) J = page ++ drop (Z.to_nat (c + Z.of_nat (length page))) J) as E.
  { symmetry. rewrite Z2Nat.inj_add, Nat2Z.id, <- drop_drop by lia. by apply take_drop_page. }
  rewrite E, until_terminal_app. destruct (has_terminal page) eqn:Ht; [done|]. f_equal.
  apply IH; [done|lia|]. simpl in Hn. unfold page. rewrite length_take, length_drop. lia.
Qed.

(** ** The outbox *)

Definition published (db : Database) (k : Z) : Prop :=
  exists o, db_outbox db !! k = Some o /\ is_Some (ob_published_at o).

(** No event is lost: every event of the journal has an outbox row with the
    same content, and that row is either marked published or among those the
    publisher will load. *)
Theorem every_event_reaches_outbox db e :
  reachable db -> e ∈ db_events db ->
  exists k o, db_outbox db !! k = Some o /\ mirrors e o /\
    (published db k \/ o ∈ pending_outbox db).
Proof.
  intros [W _ _]%reachable_inv He. destruct (wf_event_outbox _ W _ He) as (k & o & Hk & Mi).
  exists k, o. split_and!; [done..|]. destruct (ob_published_at o) eqn:E.
  - left. exists o. rewrite E. eauto.
  - right. unfold pending_outbox. rewrite elem_of_order_by, elem_of_rows_where. exists k.
    destruct Mi as (-> & _). by rewrite E.
Qed.

Section Publisher.
Context {T : Type} `{!StreamServer T} (key_prefix : pystr).

(** Handing events to the stream one by one, up to the first that is refused. *)
Fixpoint offer (es : list RunEventV1) (s : T) : nat * T :=
  match es with
  | [] => (O, s)
  | e :: rest =>
      if event_valid e then
        match transport_publish key_prefix e s with
        | (true, s') => let '(n, s'') := offer rest s' in (S n, s'')
        | (false, s') => (O, s')
        end
      else (O, s)
  end.

(** Only marks of outbox rows changed, and exactly the given rows became published. *)
Record marked (ids : list Z) (db db' : Database) : Prop := {
  mk_rest : set_db_outbox (db_outbox db) db' = db;
  mk_rows : forall k o, db_outbox db !! k = Some o ->
    exists o', db_outbox db' !! k = Some o' /\ outbox_core o' = outbox_core o;
  mk_published : forall k, published db' k <-> published db k \/ k ∈ ids
}.

Lemma marked_put o o' db ids :
  db_outbox db !! ob_id o = Some o -> outbox_core o' = outbox_core o ->
  (is_Some (ob_published_at o') <-> is_Some (ob_published_at o) \/ ob_id o ∈ ids) ->
  (forall k, k ∈ ids -> k = ob_id o) ->
  marked ids db (put_outbox o' db).
Proof.
  intros Ho Hc Hp Hi. assert (ob_id o' = ob_id o) as Ei by (by injection Hc).
  constructor.
  - by destruct db.
  - intros k x Hx. simpl. rewrite Ei. destruct (decide (k = ob_id o)) as [->|N].
    + rewrite lookup_insert_eq. exists o'. split; [done|]. congruence.
    + rewrite lookup_insert_ne by done. eauto.
  - intros k. unfold published. simpl. rewrite Ei. destruct (decide (k = ob_id o)) as [->|N].
    + rewrite lookup_insert_eq. split.
      * intros (x & [= <-] & Hx). apply Hp in Hx as [Hx|Hx]; [left; eauto|by right].
      * intros [(x & Hx & Hy)|Hy]; exists o'; (split; [done|]); apply Hp; [left; congruence|by right].
    + rewrite lookup_insert_ne by done. split; [auto|]. intros [?|Hk]; [done|]. by apply Hi in Hk.
Qed.

Lemma marked_refl db : marked [] db db.
Proof. constructor; [by destruct db|eauto|]. intros k. rewrite elem_of_nil. tauto. Qed.

Lemma marked_trans ids1 ids2 db1 db2 db3 :
  marked ids1 db1 db2 -> marked ids2 db2 db3 -> marked (ids1 ++ ids2) db1 db3.
Proof.
  intros [R1 K1 P1] [R2 K2 P2]. constructor.
  - rewrite <- R1 at 2. rewrite <- R2. by destruct db1, db3.
  - intros k o (o' & (o2 & ? & ?)%K2 & ?)%K1. exists o2. split; [done|congruence].
  - intros k. rewrite P2, P1, elem_of_app. tauto.
Qed.

Lemma mark_published_run o w :
  db_wf (w_db w) -> constraints_ok (w_db w) = true -> db_outbox (w_db w) !! ob_id o = Some o ->
  exists w', _mark_published (ob_id o) w = (Ret tt, w') /\ marked [ob_id o] (w_db w) (w_db w').
Proof.
  intros W C Ho. unfold _mark_published, mark_outbox_published, transaction. mrun. rewrite Ho. simpl.
  destruct (ob_published_at o) eqn:E; simpl.
  - unfold store_ok, database_store. rewrite C. eexists. split; [done|].
    replace (w_db w) with (put_outbox o (w_db w)) at 2.
    + apply (marked_put o); [done..|rewrite E; split; eauto|]. intros k Hk. by apply list_elem_of_singleton in Hk.
    + unfold put_outbox. rewrite insert_id by done. by destruct (w_db w).
  - rewrite constraints_put_outbox, C. eexists. split; [done|]. simpl.
    apply (marked_put o); [done..| |].
    + simpl. rewrite list_elem_of_singleton. split; [by right|eauto].
    + intros k Hk. by apply list_elem_of_singleton in Hk.
Qed.

Lemma mark_attempt_run o w :
  db_wf (w_db w) -> constraints_ok (w_db w) = true -> db_outbox (w_db w) !! ob_id o = Some o ->
  exists w', _mark_attempt (ob_id o) w = (Ret tt, w') /\ marked [] (w_db w) (w_db w').
Proof.
  intros W C Ho. unfold _mark_attempt, transaction. mrun. rewrite Ho. simpl.
  rewrite constraints_put_outbox, C. eexists. split; [done|]. simpl.
  apply (marked_put o); [done..| |].
  - simpl. rewrite elem_of_nil. tauto.
  - intros k Hk. by apply elem_of_nil in Hk.
Qed.

(** Both marks keep the stored-data invariant. *)
Lemma mark_keeps {A} (m : M A) w a w' :
  m w = (Ret a, w') -> Consistent m -> aside (w_db w) (w_db w') ->
  db_wf (w_db w) -> constraints_ok (w_db w) = true ->
  db_wf (w_db w') /\ constraints_ok (w_db w') = true.
Proof. intros H Cm [Ch _] W C. split; [by eapply changes_wf|by eapply Cm]. Qed.

Lemma publish_items_spec items w s p :
  db_wf (w_db w) -> constraints_ok (w_db w) = true ->
  (forall it, it ∈ items -> is_Some (db_outbox (w_db w) !! oi_id it)) ->
  let '(n, s') := offer (oi_payload <$> items) s in
  exists w', publish_items key_prefix items w s p = (Ret (p + Z.of_nat n), w', s') /\
    marked (take n (oi_id <$> items)) (w_db w) (w_db w').
Proof.
  revert w s p. induction items as [|it items IH]; intros w s p W C Hi.
  { exists w. rewrite Z.add_0_r. split; [done|apply marked_refl]. }
  destruct (Hi it) as [o Ho]; [constructor|]. pose proof (wf_outbox_key _ W _ _ Ho) as Ko.
  rewrite <- Ko in Ho. csimpl.
  assert (exists w', _mark_attempt (oi_id it) w = (Ret tt, w') /\ marked [] (w_db w) (w_db w'))
    as (wa & Ea & Ma) by (rewrite <- Ko; by apply mark_attempt_run).
  destruct (event_valid (oi_payload it)).
  2:{ exists wa. rewrite Ea, Z.add_0_r. done. }
  destruct (transport_publish key_prefix (oi_payload it) s) as [[|] s1].
  2:{ exists wa. rewrite Ea, Z.add_0_r. done. }
  destruct (mark_published_run o w W C Ho) as (w1 & E1 & M1). rewrite Ko in E1, M1. rewrite E1.
  destruct (mark_keeps _ _ _ _ E1) as [W1 C1]; try done.
  { apply consistent_transaction. }
  { by eapply mark_outbox_published_spec. }
  specialize (IH w1 s1 (p + 1) W1 C1). destruct (offer (oi_payload <$> items) s1) as [n s2].
  destruct IH as (w2 & E2 & M2).
  { intros x Hx. destruct (Hi x) as [y Hy]; [by constructor|].
    destruct (mk_rows _ _ _ M1 _ _ Hy) as (y' & ? & _). eauto. }
  exists w2. rewrite E2. split; [do 3 f_equal; lia|]. csimpl.
  by apply (marked_trans [oi_id it] _ _ _ _ M1).
Qed.

(** The publisher hands the oldest unpublished events to the stream in the
    order they were written, stops at the first one that is refused, and marks as
    published exactly those the stream took: nothing is marked that was not
    delivered, and no other row or table changes. *)
Theorem publisher_marks_what_it_delivers limit w s :
  reachable (w_db w) ->
  let batch := take (Z.to_nat (or_int limit (st_outbox_batch_size (env_settings env))))
                 (pending_outbox (w_db w)) in
  let '(n, s') := offer (ob_payload_json <$> batch) s in
  exists w', publish_pending key_prefix env limit w s = (Ret (Z.of_nat n), w', s') /\
    marked (take n (ob_id <$> batch)) (w_db w) (w_db w').
Proof.
  intros [W C _]%reachable_inv batch.
  pose proof (publish_items_spec ((fun o => mkOutboxItem (ob_id o) (ob_payload_json o)) <$> batch)
    w s 0 W C) as H.
  rewrite <- !list_fmap_compose in H. apply H. intros it Hit.
  apply list_elem_of_fmap in Hit as (o & -> & Ho). simpl.
  apply elem_of_take in Ho as (j & Hj & _). apply list_elem_of_lookup_2 in Hj.
  unfold pending_outbox in Hj. rewrite elem_of_order_by, elem_of_rows_where in Hj.
  destruct Hj as (i & Hi & _). rewrite (wf_outbox_key _ W _ _ Hi). eauto.
Qed.
End Publisher.
End Journal.

(** ** Witnesses *)

(** A stream server that stores an entry whose id is larger than the newest one. *)
#[export] Instance stream_map : StreamServer (gmap pystr Z) := {
  xadd key id _ s :=
    if bool_decide (default 0 (s !! key) < id) then (XaddStored, <[key := id]> s)
    else (XaddIdTooSmall, s)
}.

Lemma ex_live ops rid :
  bool_decide (is_Some (db_runs (w_db (after ops)) !! rid)) = true ->
  live ex_env ex_preflight ex_normalize rid (w_db (after ops)).
Proof. intros H%bool_decide_eq_true. split; [apply after_reachable|done]. Qed.

Lemma journal_is_gapless_witness :
  let db := w_db (after ops_queue) in
  length (journal_of db run_a) = 2%nat /\
  0 <= run_last_event_sequence (row (after ops_queue) run_a) /\
  ev_sequence <$> journal_of db run_a =
    zrange 1 (Z.to_nat (run_last_event_sequence (row (after ops_queue) run_a))).
Proof.
  intros db. split; [ex_run|].
  apply (journal_is_gapless ex_env ex_preflight ex_normalize); ex_run.
Defined.

Lemma journal_is_append_only_witness :
  journal_of (w_db (after ops_reserved)) run_a `prefix_of` journal_of (w_db (after ops_claimed)) run_a.
Proof.
  apply (journal_is_append_only ex_env ex_preflight ex_normalize); ex_run.
Defined.

Lemma read_after_is_next_page_witness :
  let w := after ops_claimed in
  exists events, read_after run_a 1 10 None w = (Ret events, w) /\
    event_row <$> events = take 10 (drop 1 (journal_of (w_db w) run_a)).
Proof.
  intros w.
  apply (read_after_is_next_page ex_env ex_preflight ex_normalize run_a 1 10 w (row w run_a)); ex_run.
Defined.

Lemma subscription_is_exactly_once_witness :
  let polls := [(after ops_reserved, false); (after ops_claimed, true)] in
  length (delivered run_a 0 polls) = 2%nat /\
  delivered run_a 0 polls `prefix_of` until_terminal (journal_of (w_db (after ops_claimed)) run_a).
Proof.
  intros polls. split; [ex_run|].
  apply (subscription_is_exactly_once ex_env ex_preflight ex_normalize run_a 0
    (w_db (after ops_reserved)) polls (w_db (after ops_claimed))).
  - apply ex_live. by vm_compute.
  - done.
  - split; [apply rtc_refl|split; [|apply rtc_refl]]. apply rtc_once.
    split; [apply after_step|]. refine (bool_decide_eq_true_1 _ _). by vm_compute.
Defined.

Lemma subscription_is_complete_witness :
  let w := after (ops_claimed ++ [OFinalize (ex_finalize run_a SUCCEEDED)]) in
  length (journal_of (w_db w) run_a) = 5%nat /\
  delivered run_a 1 [(w, true)] = until_terminal (drop 1 (journal_of (w_db w) run_a)).
Proof.
  intros w. split; [ex_run|].
  apply (subscription_is_complete ex_env ex_preflight ex_normalize run_a 1 w [true]).
  - apply ex_live. by vm_compute.
  - done.
  - by vm_compute.
Defined.

Definition blank_event : RunEvent := mkRunEvent ""%py ""%py 0 1 RUN_CREATED [] 0.

Lemma every_event_reaches_outbox_witness :
  let db := w_db (after ops_claimed) in let e := default blank_event (head (db_events db)) in
  exists k o, db_outbox db !! k = Some o /\ mirrors e o /\ (published db k \/ o ∈ pending_outbox db).
Proof.
  intros db e. apply (every_event_reaches_outbox ex_env ex_preflight ex_normalize); [ex_run|].
  apply (list_elem_of_lookup_2 _ 0). by vm_compute.
Defined.

Lemma publisher_marks_what_it_delivers_witness :
  let w := after ops_claimed in let s := (∅ : gmap pystr Z) in
  let batch := take (Z.to_nat (or_int None (st_outbox_batch_size (env_settings ex_env))))
                 (pending_outbox (w_db w)) in
  (offer "mew"%py (ob_payload_json <$> batch) s).1 = 2%nat /\
  let '(n, s') := offer "mew"%py (ob_payload_json <$> batch) s in
  exists w', publish_pending "mew"%py ex_env None w s = (Ret (Z.of_nat n), w', s') /\
    marked (take n (ob_id <$> batch)) (w_db w) (w_db w').
Proof.
  intros w s batch. split; [by vm_compute|].
  apply (publisher_marks_what_it_delivers ex_env ex_preflight ex_normalize "mew"%py None w s).
  apply after_reachable.
Defined.
