(* ===== verification/ThreadProps.v ===== *)
(** * Properties of threads

    The message journal of a thread, its pages, its summary and its deletion. *)

From S2P Require Import Prelude PyBase Errors RunState Schema Session Effects Journal RunRepo RunService EventBus Hitl Threads Changes RunMachine RunSpec HitlSpec System Progress Fixtures.

Open Scope Z_scope.

(** ** The messages of a thread *)

Section Messages.
Context (db : Database) (W : db_wf db) (C : constraints_ok db = true).

Definition in_thread (tid : Z) (m : Message) : bool := bool_decide (msg_thread_ref_id m = tid).

(** The messages of a thread with a number in a range, in order. *)
Lemma message_window (p : Z -> bool) (t : Thread) lo n :
  db_threads db !! th_id t = Some t ->
  (forall s, 1 <= s <= th_last_sequence t /\ p s = true <-> lo <= s < lo + Z.of_nat n) ->
  msg_sequence <$> order_by msg_sequence
    (rows_where (fun m => in_thread (th_id t) m && p (msg_sequence m)) (db_messages db)) =
  zrange lo n.
Proof using W C.
  intros Ht Hp. set (q := fun m => _). apply sorted_interval.
  - apply sorted_fmap, order_by_sorted.
  - rewrite order_by_perm. apply rows_where_NoDup. unfold q, in_thread. intros i j x y Hi Hj Px Py E.
    bool_to_prop. pose proof (proj1 (constraints_ok_spec db) C) as S.
    eapply (ok_message_sequence _ S); try done; unfold idx_message_sequence; congruence.
  - intros s. rewrite <- Hp, list_elem_of_fmap. unfold q, in_thread. split.
    + intros (m & -> & (i & Hi & Pm)%elem_of_order_by%elem_of_rows_where). bool_to_prop.
      destruct (wf_message_thread _ W _ _ Hi) as (t' & Ht' & ?).
      assert (t' = t) as -> by congruence. done.
    + intros [Hs Ps]. destruct (wf_thread_messages _ W _ _ Ht) as (_ & _ & _ & F).
      destruct (F s Hs) as (k & m & Hk & Em & Es). exists m. split; [done|].
      apply elem_of_order_by, elem_of_rows_where. exists k. split; [done|].
      by rewrite bool_decide_eq_true_2, Es, Ps.
Qed.
End Messages.


(** ** Deletion *)

Lemma events_unique_filter (p : RunEvent -> bool) es :
  events_unique es = true -> events_unique (List.filter p es) = true.
Proof.
  unfold events_unique. rewrite !andb_true_iff, !bool_decide_eq_true.
  intros [H1 H2]. split; by apply NoDup_fmap_filter.
Qed.

Lemma constraints_cascade db t : constraints_ok db = true -> constraints_ok (cascade_delete t db) = true.
Proof.
  rewrite !constraints_ok_spec. intros []. constructor; simpl; try done;
    try (eapply unique_prop_subseteq; [|eassumption]; first [apply map_filter_subseteq|apply delete_subseteq]).
  - intros i r [Hi _]%map_lookup_filter_Some. eauto.
  - apply unique_prop_fmap; [intros m; left; by case_match|].
    by eapply unique_prop_subseteq; [apply map_filter_subseteq|].
  - apply unique_prop_fmap; [intros m; left; by case_match|].
    by eapply unique_prop_subseteq; [apply map_filter_subseteq|].
  - by apply events_unique_filter.
  - apply unique_prop_fmap; [|done]. intros a. case_match; [|by left]. right. done.
Qed.

(** ** Pages *)

Section Threads.
Context (env : Env) (preflight : ResumeAccessState -> option exn).
Context (normalize : option json -> option json).

#[local] Abbreviation reachable := (reachable env preflight normalize).

(** A thread's counters agree with its messages: they are numbered 1, 2, ...
    without a gap or a repetition up to the last sequence number, which is also
    the thread's version and message count. *)
Theorem thread_counters_agree db t :
  reachable db -> db_threads db !! th_id t = Some t ->
  0 <= th_last_sequence t /\ th_version t = th_last_sequence t /\
  th_message_count t = th_last_sequence t /\
  msg_sequence <$> order_by msg_sequence (rows_where (in_thread (th_id t)) (db_messages db)) =
    zrange 1 (Z.to_nat (th_last_sequence t)).
Proof.
  intros [W C _]%reachable_inv Ht. destruct (wf_thread_messages _ W _ _ Ht) as (P & V & N & _).
  split_and!; [done..|].
  rewrite <- (message_window db W C (fun _ => true) t 1 _ Ht).
  - f_equal. f_equal. unfold rows_where. apply List.filter_ext. intros. by rewrite andb_true_r.
  - intros s. split; [intros [? _]; lia|]. intros. split; [lia|done].
Qed.

Lemma messages_run (l : list MessageRecord) w :
  Forall (fun r => history_role (mr_role r) = true) l ->
  exists k, mapM _message l w = (Ret k, w) /\ tm_sequence <$> k = mr_sequence <$> l.
Proof.
  induction 1 as [|r l Hr _ (k & E & Ek)]; [by exists []|]. cbn [mapM].
  assert (exists m, _message r w = (Ret m, w) /\ tm_sequence m = mr_sequence r) as (m & Em & Es).
  { unfold _message, _message_role, history_role in *. apply orb_true_iff in Hr as [Hr|Hr].
    - apply orb_true_iff in Hr as [Hr|Hr]; apply bool_decide_eq_true in Hr; rewrite Hr; by eexists.
    - apply bool_decide_eq_true in Hr. rewrite Hr. by eexists. }
  exists (m :: k). erewrite bind_run by exact Em. erewrite bind_run by exact E.
  split; [done|]. csimpl. by rewrite Es, Ek.
Qed.

Lemma fmap_rev {A B} (f : A -> B) (l : list A) : f <$> rev l = rev (f <$> l).
Proof. apply map_rev. Qed.

(** The newest messages of a window, oldest first. *)
Lemma newest_first {A} (f : A -> Z) (asc : list A) n k :
  f <$> asc = zrange 1 n ->
  f <$> rev (take k (rev asc)) = zrange (1 + Z.of_nat (n - k)) (Nat.min k n).
Proof.
  intros E. assert (length asc = n) as Hl by (by rewrite <- (length_fmap f), E, length_zrange).
  rewrite firstn_rev, rev_involutive, Hl, fmap_drop, E, drop_zrange by lia. f_equal. lia.
Qed.

(** The highest sequence number a page may show. *)
Definition page_top (t : Thread) (before : option Z) : Z :=
  match before with Some b => Z.min (b - 1) (th_last_sequence t) | None => th_last_sequence t end.

Lemma messages_before_window db t before :
  db_wf db -> constraints_ok db = true -> db_threads db !! th_id t = Some t ->
  (forall b, before = Some b -> 1 <= b) ->
  exists asc, messages_before db (th_id t) before = rev asc /\
    msg_sequence <$> asc = zrange 1 (Z.to_nat (page_top t before)) /\
    forall m, m ∈ asc -> exists i, db_messages db !! i = Some m /\ msg_thread_ref_id m = th_id t.
Proof.
  intros W C Ht Hb. unfold messages_before.
  set (p := fun s => match before with Some b => s <? b | None => true end).
  change (rows_where _ _)
    with (rows_where (fun m => in_thread (th_id t) m && p (msg_sequence m)) (db_messages db)).
  destruct (wf_thread_messages _ W _ _ Ht) as (P & _).
  pose proof (message_window db W C p t 1 (Z.to_nat (page_top t before)) Ht) as E.
  exists (order_by msg_sequence
    (rows_where (fun m => in_thread (th_id t) m && p (msg_sequence m)) (db_messages db))).
  assert (forall s, 1 <= s <= th_last_sequence t /\ p s = true <->
    1 <= s < 1 + Z.of_nat (Z.to_nat (page_top t before))) as F.
  { intros s. unfold p, page_top. destruct before as [b|].
    - specialize (Hb b eq_refl). rewrite Z.ltb_lt. lia.
    - split; [intros [? _]; lia|]. intros. split; [lia|done]. }
  specialize (E F). split_and!; [|done|].
  - apply order_by_opp. rewrite <- (order_by_perm msg_sequence), E. apply zrange_NoDup.
  - intros m (i & Hi & Pm)%elem_of_order_by%elem_of_rows_where. unfold in_thread in Pm.
    bool_to_prop. eauto.
Qed.

Lemma page_cursor (k : list ThreadMessage) lo n (more : bool) :
  tm_sequence <$> k = zrange lo n -> (more = true -> n <> 0%nat) ->
  (if more then tm_sequence <$> head k else None) = if more then Some lo else None.
Proof.
  intros E Hn. destruct more; [|done]. destruct n; [by destruct Hn|].
  destruct k; [done|]. csimpl in E. injection E as E _. simpl. by rewrite E.
Qed.

(** The message page below a cursor: exactly the [limit] newest messages with
    a smaller sequence number (all of them, if there are fewer), oldest first; the
    previous cursor is the number of the first one shown, and is absent exactly
    when nothing older is left. Following the cursors therefore walks through the
    whole thread without a gap or a repetition. *)
Theorem recent_messages_window name tid before limit w user t :
  reachable (w_db w) -> find_user (w_db w) name = Some user ->
  find_thread (w_db w) (u_id user) tid = Some t -> thread_id_ok tid = true ->
  1 <= limit <= 500 -> (forall b, before = Some b -> 1 <= b) ->
  (forall i m, db_messages (w_db w) !! i = Some m -> msg_thread_ref_id m = th_id t ->
     history_role (msg_message_type m) = true) ->
  let hi := page_top t before in let lo := Z.max 1 (hi - limit + 1) in
  exists page, recent_messages normalize name tid before limit w = (Ret page, w) /\
    tm_sequence <$> tp_messages page = zrange lo (Z.to_nat (hi - lo + 1)) /\
    tp_previous_cursor page = if 1 <? lo then Some lo else None.
Proof.
  intros [W C _]%reachable_inv Hu Hf Hid Hl Hb Hr hi lo.
  destruct (find_thread_Some _ _ _ _ W Hf) as (Ht & _).
  assert (0 <= hi) as Hhi.
  { destruct (wf_thread_messages _ W _ _ Ht) as (P & _). unfold hi, page_top.
    destruct before as [b|]; [specialize (Hb b eq_refl)|]; lia. }
  destruct (messages_before_window _ _ before W C Ht Hb) as (asc & Ed & En & Hin). fold hi in En.
  assert (length asc = Z.to_nat hi) as Hlen by (by rewrite <- (length_fmap msg_sequence), En, length_zrange).
  unfold recent_messages, validate_thread_id. rewrite Hid. erewrite bind_run by reflexivity.
  erewrite bind_run by (unfold raise_if; destruct before as [b|]; [|done];
    rewrite (proj2 (Z.ltb_ge b 1)) by (by apply Hb); reflexivity).
  erewrite bind_run by (unfold raise_if; rewrite (proj2 (Z.leb_le 1 limit)),
    (proj2 (Z.leb_le limit 500)) by lia; reflexivity).
  unfold list_messages_before. erewrite bind_run by reflexivity. rewrite Hu. cbn [mbind option_bind].
  rewrite Hf. cbn [mbind option_bind]. rewrite Ed. erewrite bind_run by reflexivity.
  rewrite Z.max_r, Z.min_l,  length_fmap, length_take, length_rev, Hlen by lia.
  rewrite <- fmap_take, take_take, (Nat.min_l (Z.to_nat limit)), <- fmap_rev by lia.
  set (rows := (fun m => _) <$> rev (take (Z.to_nat limit) (rev asc))).
  assert (mr_sequence <$> rows = zrange lo (Z.to_nat (hi - lo + 1))) as Es.
  { unfold rows. rewrite <- list_fmap_compose.
    etrans; [apply (newest_first msg_sequence asc _ _ En)|]. unfold lo. f_equal; lia. }
  destruct (messages_run rows w) as (k & Ek & Esk).
  { apply Forall_forall. intros x (m & -> & Hm)%list_elem_of_fmap.
    apply list_elem_of_In, in_rev, list_elem_of_In in Hm.
    apply elem_of_take in Hm as (j & Hm%list_elem_of_lookup_2 & _).
    destruct (Hin m) as (i & Hi & Hti); [by apply list_elem_of_In, in_rev, list_elem_of_In|].
    by apply (Hr i). }
  erewrite bind_run by exact Ek. eexists. split; [reflexivity|]. cbn [tp_messages tp_previous_cursor].
  rewrite Esk, Es. split; [done|].
  rewrite (page_cursor k lo (Z.to_nat (hi - lo + 1))).
  - destruct (limit <? _) eqn:E1, (1 <? lo) eqn:E2; try done; exfalso; bool_to_prop; lia.
  - by rewrite Esk.
  - intros E1. bool_to_prop. lia.
Qed.

(** ** Deleting a thread *)

Lemma delete_thread_run name tid w user t :
  find_user (w_db w) name = Some user -> find_thread (w_db w) (u_id user) tid = Some t ->
  thread_id_ok tid = true ->
  delete_thread name tid w =
    transaction (match first_where (fun r => bool_decide (run_thread_ref_id r = th_id t)
                                     && negb (is_terminal (run_status r))) (db_runs (w_db w)) with
     | Some active =>
         raise (EApp (app_error RUN_ACTIVE "Thread 仍有活跃 Run，请先取消或等待运行结束"%py
                        409 false
                        [("active_run_id"%py, JStr (run_id active));
                         ("active_run_status"%py, JStr (status_value (run_status active)))]
                        None None))
     | None => modify_db (cascade_delete t);; mret true
     end) w.
Proof.
  intros Hu Ht Hid. unfold delete_thread, validate_thread_id. rewrite Hid.
  erewrite bind_run by reflexivity. unfold repo_delete_thread, transaction.
  erewrite bind_run by reflexivity. by rewrite Hu, Ht.
Qed.

(** A thread with a run that has not ended cannot be deleted: the request is
    refused, naming a run in the way, and nothing changes. *)
Theorem live_thread_is_not_deleted name tid w user t i r :
  reachable (w_db w) -> find_user (w_db w) name = Some user ->
  find_thread (w_db w) (u_id user) tid = Some t -> thread_id_ok tid = true ->
  db_runs (w_db w) !! i = Some r -> run_thread_ref_id r = th_id t ->
  is_terminal (run_status r) = false ->
  exists e w' a, delete_thread name tid w = (Raise (EApp e), w') /\ w_db w' = w_db w /\
    ae_code e = RUN_ACTIVE /\
    obj_get "active_run_id"%py (pe_details (ae_public e)) = Some (JStr (run_id a)) /\
    db_runs (w_db w) !! run_id a = Some a /\ run_thread_ref_id a = th_id t /\
    is_terminal (run_status a) = false.
Proof.
  intros [W _ _]%reachable_inv Hu Ht Hid Hi Hr Hl. erewrite delete_thread_run by done.
  destruct (first_where _ _) as [a|] eqn:E.
  - apply first_where_Some in E as (j & Hj & Hp). bool_to_prop.
    do 3 eexists. split; [by apply transaction_fail|]. split_and!; try done.
    by rewrite (wf_run_key _ W _ _ Hj).
  - rewrite first_where_None in E. specialize (E i r Hi). simpl in E.
    rewrite bool_decide_eq_true_2, Hl in E by done. done.
Qed.

(** A reference to a run of the thread. *)
Definition names_run_of (t : Thread) (db : Database) (o : option pystr) : Prop :=
  exists rid r, o = Some rid /\ db_runs db !! rid = Some r /\ run_thread_ref_id r = th_id t.

(** What a complete deletion of a thread is, table by table: the rows of the thread are
    gone, every other row is kept, and the nullable references to one of its runs are
    cleared. *)
Record thread_erased (t : Thread) (db db' : Database) : Prop := mkThreadErased {
  er_users : db_users db' = db_users db;
  er_outbox : db_outbox db' = db_outbox db;
  er_threads : forall i x, db_threads db' !! i = Some x <-> db_threads db !! i = Some x /\ i <> th_id t;
  er_runs : forall i r, db_runs db' !! i = Some r <-> db_runs db !! i = Some r /\ run_thread_ref_id r <> th_id t;
  er_events : forall e, e ∈ db_events db' <-> e ∈ db_events db /\ ~ names_run_of t db (Some (ev_run_id e));
  er_journals : forall i r, db_runs db' !! i = Some r -> journal_of db' i = journal_of db i;
  er_checkpoints : forall i c, db_checkpoints db' !! i = Some c <->
    db_checkpoints db !! i = Some c /\ cp_thread_ref_id c <> th_id t;
  er_messages : forall i m', db_messages db' !! i = Some m' <->
    exists m, db_messages db !! i = Some m /\ msg_thread_ref_id m <> th_id t /\
      (names_run_of t db (msg_run_id m) /\ m' = set_msg_run_id None m \/
       ~ names_run_of t db (msg_run_id m) /\ m' = m);
  er_audits : forall i a', db_audits db' !! i = Some a' <->
    exists a, db_audits db !! i = Some a /\
      (names_run_of t db (ta_run_id a) /\ a' = set_ta_run_id None a \/
       ~ names_run_of t db (ta_run_id a) /\ a' = a)
}.

(** The test of the cascade. *)
Lemma names_run_spec t db o :
  match o with
  | Some rid => match db_runs db !! rid with Some r => bool_decide (run_thread_ref_id r = th_id t) | None => false end
  | None => false
  end = true <-> names_run_of t db o.
Proof.
  unfold names_run_of. destruct o as [rid|]; [|split; [done|by intros (? & ? & ? & _)]].
  destruct (db_runs db !! rid) as [r|] eqn:E; [rewrite bool_decide_eq_true|].
  - split; [eauto|]. intros (? & ? & ? & ? & ?). by simplify_eq.
  - split; [done|]. intros (? & ? & ? & ? & ?). by simplify_eq.
Qed.

(** A row whose reference is cleared when it names a run of the thread. *)
Lemma cleared_spec {A} t db (ref : A -> option pystr) (clear : A -> A) x y :
  (if match ref x with
      | Some rid => match db_runs db !! rid with Some r => bool_decide (run_thread_ref_id r = th_id t) | None => false end
      | None => false
      end then clear x else x) = y <->
  names_run_of t db (ref x) /\ y = clear x \/ ~ names_run_of t db (ref x) /\ y = x.
Proof.
  pose proof (names_run_spec t db (ref x)) as N. destruct (match ref x with Some _ => _ | None => _ end).
  - assert (names_run_of t db (ref x)) by (by apply N). naive_solver.
  - assert (~ names_run_of t db (ref x)) by (by intros ?%N). naive_solver.
Qed.

Lemma cascade_erases t db : db_wf db -> thread_erased t db (cascade_delete t db).
Proof.
  intros W. constructor; try done.
  - intros i x. simpl. rewrite lookup_delete_Some. naive_solver.
  - intros i r. apply survives_delete.
  - intros e. simpl. rewrite list_elem_of_In, filter_In, <- list_elem_of_In, negb_true_iff, <- not_true_iff_false.
    by rewrite <- (names_run_spec t db (Some (ev_run_id e))).
  - intros i r [Hr Hn]%survives_delete. by eapply journal_of_delete.
  - intros i c. simpl. rewrite map_lookup_filter_Some. simpl. split; intros [Hc Hn]; (split; [done|]);
      destruct (wf_checkpoint_run _ W _ _ Hc) as (r & Hr & Et & _); rewrite Hr in *; rewrite Et in *.
    + by apply bool_decide_eq_false in Hn.
    + by apply bool_decide_eq_false.
  - intros i m'. simpl. rewrite lookup_fmap_Some.
    setoid_rewrite (cleared_spec t db msg_run_id (set_msg_run_id None)). setoid_rewrite map_lookup_filter_Some. naive_solver.
  - intros i a'. simpl. rewrite lookup_fmap_Some.
    setoid_rewrite (cleared_spec t db ta_run_id (set_ta_run_id None)). naive_solver.
Qed.

(** C38. A thread whose runs have all ended is deleted with everything that hangs
    on it, and nothing else is. Its row, its messages, its runs with all their
    events, and its checkpoints are gone; every other thread, message, run, event
    and checkpoint is kept as it was, the journals of the other runs included; a
    message or tool audit that named one of the deleted runs only loses that
    reference; users and outbox do not change. *)
Theorem thread_deletion_is_complete name tid w user t :
  reachable (w_db w) -> find_user (w_db w) name = Some user ->
  find_thread (w_db w) (u_id user) tid = Some t -> thread_id_ok tid = true ->
  (forall i r, db_runs (w_db w) !! i = Some r -> run_thread_ref_id r = th_id t ->
     is_terminal (run_status r) = true) ->
  exists w', delete_thread name tid w = (Ret true, w') /\ reachable (w_db w') /\
    find_thread (w_db w') (u_id user) tid = None /\ thread_erased t (w_db w) (w_db w').
Proof.
  intros R Hu Ht Hid Hn. destruct (reachable_inv _ _ _ _ R) as [W C _].
  assert (delete_thread name tid w = (Ret true, set_w_db (cascade_delete t (w_db w)) w)) as E.
  { erewrite delete_thread_run by done.
    rewrite (proj2 (first_where_None _ _)).
    - apply transaction_run; [done|]. by apply constraints_cascade.
    - intros i r Hi. case_bool_decide; [|done]. simpl. by rewrite (Hn i r). }
  set (w' := set_w_db _ w) in E. exists w'.
  assert (reachable (w_db w')) as R'.
  { eapply reachable_step; [exact R|]. exists (ODeleteThread name tid), w, (Ret tt), w'.
    split; [|done]. apply (run_op_ret _ _ true).
    unfold delete_thread, validate_thread_id in E. rewrite Hid in E.
    by erewrite bind_run in E by reflexivity. }
  destruct (find_thread_Some _ _ _ _ W Ht) as (Htl & Htu & Htt).
  split_and!; [done..| |by apply cascade_erases].
  apply first_where_None. intros j x Hx. simpl in Hx. apply lookup_delete_Some in Hx as [Nx Hx].
  apply andb_false_iff. destruct (decide (th_user_id x = u_id user)) as [Eu|Eu];
    [right|left; by apply bool_decide_eq_false].
  apply bool_decide_eq_false. intros Ex. apply Nx. apply constraints_ok_spec in C.
  symmetry. apply (ok_user_thread _ C j (th_id t) x t (u_id user, tid)); try done;
    unfold idx_user_thread; congruence.
Qed.

(** ** Summaries *)

(** The run a thread's summary shows is the active one, whenever there is an
    active one; otherwise the thread has no run left to finish. *)
Theorem summary_shows_active_run db tid :
  reachable db ->
  match active_run db tid with
  | Some a => summary_run db tid = Some a
  | None => forall i r, db_runs db !! i = Some r -> run_thread_ref_id r = tid ->
              is_terminal (run_status r) = true
  end.
Proof.
  intros [W C I]%reachable_inv. destruct (active_run db tid) as [a|] eqn:Ea.
  - apply active_run_Some in Ea as (i & Hi & Et & Aa). unfold summary_run.
    set (rows := order_by run_created_at _).
    assert (forall r, r ∈ rows <-> exists j, db_runs db !! j = Some r /\ run_thread_ref_id r = tid /\
      is_terminal (run_status r) = false) as Hrows.
    { intros r. unfold rows. rewrite elem_of_order_by, elem_of_rows_where.
      split; intros (j & Hj & Hp); exists j; (split; [done|]).
      - by bool_to_prop.
      - destruct Hp as [E1 E2]. by rewrite bool_decide_eq_true_2, E2. }
    assert (a ∈ rows) as Ha by (apply Hrows; exists i; split_and!; [done..|by apply active_not_terminal]).
    destruct (head (order_by _ rows)) as [x|] eqn:E.
    + apply order_by_head in E as [(j & Hj & Ej & Lj)%Hrows Hmin].
      assert (is_active (run_status x) = true) as Ax.
      { specialize (Hmin a Ha). cbn beta in Hmin.
        destruct (run_status x), (run_status a); try done; simpl in Hmin; lia. }
      assert (i = j) as <- by (eapply active_unique; try done; congruence). congruence.
    + destruct (order_by _ rows) eqn:En; [|done]. apply order_by_nil in En.
      rewrite En in Ha. by apply elem_of_nil in Ha.
  - intros i r Hi Et. destruct (is_terminal (run_status r)) eqn:Er; [done|].
    apply active_run_None in Ea. destruct (is_active (run_status r)) eqn:Ar.
    + destruct Ea. exists i, (abs_run r). eauto with mew.
    + assert (run_status r = QUEUED) as Eq by (by destruct (run_status r)).
      destruct (inv_queue _ I _ _ (abs_lookup _ _ _ Hi) Eq) as (j & x & ?).
      destruct Ea. exists j, x. by rewrite <- Et.
Qed.
End Threads.

(** ** Witnesses *)

Definition blank_thread_row : Thread := mkThread 0 0 ""%py ""%py 0 0 0 [] 0 0.
Definition thread_row (w : World) : Thread :=
  default blank_thread_row (find_thread (w_db w) 1 "t1"%py).
Definition ops_done : list Op := ops_claimed ++ [OFinalize (ex_finalize run_a SUCCEEDED)].

Lemma thread_counters_agree_witness :
  let db := w_db (after ops_queue) in let t := thread_row (after ops_queue) in
  th_last_sequence t = 6 /\
  0 <= th_last_sequence t /\ th_version t = th_last_sequence t /\
  th_message_count t = th_last_sequence t /\
  msg_sequence <$> order_by msg_sequence (rows_where (in_thread (th_id t)) (db_messages db)) =
    zrange 1 (Z.to_nat (th_last_sequence t)).
Proof.
  intros db t. split; [by vm_compute|].
  apply (thread_counters_agree ex_env ex_preflight ex_normalize); [ex_run|by vm_compute].
Defined.

Lemma recent_messages_window_witness :
  let w := after ops_queue in
  exists page, recent_messages ex_normalize "ann"%py "t1"%py (Some 6) 3 w = (Ret page, w) /\
    tm_sequence <$> tp_messages page = [3; 4; 5] /\ tp_previous_cursor page = Some 3.
Proof.
  intros w.
  apply (recent_messages_window ex_env ex_preflight ex_normalize "ann"%py "t1"%py (Some 6) 3 w ann
    (thread_row w)); [ex_run|by vm_compute..|lia|intros b [= <-]; lia|].
  intros i m Hm _. revert i m Hm.
  refine (proj1 (forallb_rows_spec (fun m => history_role (msg_message_type m)) (db_messages (w_db w))) _).
  by vm_compute.
Defined.

Lemma live_thread_is_not_deleted_witness :
  let w := after ops_claimed in
  exists e w' a, delete_thread "ann"%py "t1"%py w = (Raise (EApp e), w') /\ w_db w' = w_db w /\
    ae_code e = RUN_ACTIVE /\
    obj_get "active_run_id"%py (pe_details (ae_public e)) = Some (JStr (run_id a)) /\
    db_runs (w_db w) !! run_id a = Some a /\ run_thread_ref_id a = th_id (thread_row w) /\
    is_terminal (run_status a) = false.
Proof.
  intros w.
  apply (live_thread_is_not_deleted ex_env ex_preflight ex_normalize "ann"%py "t1"%py w ann
    (thread_row w) run_a (row w run_a)); [ex_run|by vm_compute..].
Defined.

Lemma thread_deletion_is_complete_witness :
  let w := after ops_done in
  exists w', delete_thread "ann"%py "t1"%py w = (Ret true, w') /\
    find_thread (w_db w') 1 "t1"%py = None /\ thread_erased (thread_row w) (w_db w) (w_db w').
Proof.
  intros w.
  destruct (thread_deletion_is_complete ex_env ex_preflight ex_normalize "ann"%py "t1"%py w ann
    (thread_row w)) as (w' & E & _ & F & D); [apply after_reachable|vm_compute; reflexivity..| |exists w'; exact (conj E (conj F D))].
  intros i r Hr _. revert i r Hr.
  refine (proj1 (forallb_rows_spec (fun r => is_terminal (run_status r)) (db_runs (w_db w))) _).
  by vm_compute.
Defined.

Lemma summary_shows_active_run_witness :
  let db := w_db (after ops_queue) in
  active_run db 1 = Some (row (after ops_queue) run_a) /\
  match active_run db 1 with
  | Some a => summary_run db 1 = Some a
  | None => forall i r, db_runs db !! i = Some r -> run_thread_ref_id r = 1 ->
              is_terminal (run_status r) = true
  end.
Proof.
  intros db. split; [by vm_compute|].
  apply (summary_shows_active_run ex_env ex_preflight ex_normalize db 1). apply after_reachable.
Defined.
