(* ===== verification/HitlProps.v ===== *)
(** * Properties of pauses and answers

    A checkpoint is answered at most once, its answer is final and may be repeated
    safely, and the answer hands the run back to the workers. *)

From S2P Require Import Prelude PyBase Errors RunState Schema Session Effects Journal RunRepo RunService EventBus Hitl Threads Changes RunMachine RunSpec HitlSpec System Progress Fixtures.

Open Scope Z_scope.

Section Answers.
Context (env : Env) (preflight : ResumeAccessState -> option exn).
Context (normalize : option json -> option json).

#[local] Abbreviation reachable := (reachable env preflight normalize).
#[local] Abbreviation sys_step := (sys_step env preflight normalize).

Lemma effect_answer fin db db' i c :
  effect fin db db' -> db_wf db -> db_checkpoints db !! i = Some c -> is_Some (cp_consumed_at c) ->
  (exists c', db_checkpoints db' !! i = Some c' /\ answered c' = answered c /\
     checkpoint_core c' = checkpoint_core c) \/
  db_threads db' !! cp_thread_ref_id c = None.
Proof.
  intros Ef W Hi Hc.
  destruct Ef as [db1 [C _]|db1 r r' (C & _) _|db2 db1 r r' s _ (C & _) Hp|db1 r t now tok C|t Ht Hn].
  all: try (left; by eapply changes_answer).
  - left. eapply changes_answer; [|done..]. eapply changes_trans; [done|]. by eapply promotes_changes.
  - destruct (wf_checkpoint_run _ W _ _ Hi) as (r & Hr & Et & _). simpl.
    destruct (decide (run_thread_ref_id r = th_id t)) as [E|N].
    + right. rewrite Et, E. apply lookup_delete_eq.
    + left. exists c. split; [|done]. apply map_lookup_filter_Some. split; [done|]. simpl.
      rewrite Hr. by apply bool_decide_eq_false.
Qed.

(** An answer is final: once a checkpoint is consumed, no operation changes
    when it was consumed, the answer or its idempotency key; the checkpoint only
    disappears with its thread. *)
Theorem answer_is_final db db' i c :
  reachable db -> sys_step db db' ->
  db_checkpoints db !! i = Some c -> is_Some (cp_consumed_at c) ->
  (exists c', db_checkpoints db' !! i = Some c' /\ answered c' = answered c /\
     checkpoint_core c' = checkpoint_core c) \/
  db_threads db' !! cp_thread_ref_id c = None.
Proof.
  intros [W C I]%reachable_inv (o & w & oc & w' & H & <- & <-) Hi Hc. destruct oc as [[]|e].
  - eapply effect_answer; try done. by eapply exec_effect.
  - apply exec_raise in H. rewrite H. eauto.
Qed.

(** The first answer to an open checkpoint is recorded under its key, and the
    run, which was waiting, is handed back: pending for any worker, or running
    under the named worker with a fresh fencing token. *)
Theorem first_answer_resumes_run name rid token answer key worker w res w' c r t u :
  reachable (w_db w) ->
  consume_resume env preflight name rid token answer key worker w = (Ret res, w') ->
  checkpoint_row (w_db w) name rid token = Some (c, r, t, u) -> cp_consumed_at c = None ->
  run_status r = WAITING_INPUT /\ cr_already_consumed res = false /\
  (exists c', db_checkpoints (w_db w') !! cp_id c = Some c' /\ is_Some (cp_consumed_at c') /\
     cp_resume_idempotency_key c' = Some key /\
     cp_resume_payload_json c' = Some (answer_payload (py_strip answer))) /\
  exists r', db_runs (w_db w') !! rid = Some r' /\ cr_fencing_token res = run_fencing_token r' /\
    match worker_of worker with
    | Some wid => run_status r' = RUNNING /\ run_owner_worker_id r' = Some wid /\
                  run_fencing_token r' = run_fencing_token r + 1
    | None => run_status r' = PENDING /\ run_owner_worker_id r' = None /\
              run_fencing_token r' = run_fencing_token r
    end.
Proof.
  intros [W C I]%reachable_inv H Q Ho.
  destruct (consume_resume_spec _ _ _ _ _ _ _ _ _ _ _ H W)
    as (c1 & r1 & t1 & u1 & Q1 & _ & _ & _ & _ & v & v' & Ev & Ev' & H1).
  rewrite Q in Q1. injection Q1 as <- <- <- <-. rewrite Ho in H1.
  destruct (checkpoint_row_Some _ _ _ _ _ _ _ _ W Q) as (Hc & _ & _ & Hr & Ki & _).
  rewrite <- Ki, <- Ev in Hr. rewrite <- Ev in W, Hc. rewrite <- Ev'.
  destruct (accept_resume_spec _ _ _ _ _ _ _ _ _ _ H1 W Ho Hc Hr)
    as (Hs & Ha & _ & _ & r' & Mv & Hf & (c' & Ec & Hcc & Hk & Hp & _) & Ea).
  split_and!; try done.
  - exists c'. by rewrite Ec, lookup_insert_eq.
  - exists r'. pose proof (moves_row _ _ _ _ Mv) as L. destruct Mv as (_ & _ & K & _).
    rewrite (run_core_id _ _ K), Ki in L. split_and!; [done..|].
    destruct (worker_of worker).
    + destruct Ea as [l Ea]. unfold abs_run, ar_claimed in Ea. injection Ea. done.
    + unfold abs_run, ar_released in Ea. injection Ea. done.
Qed.

(** The transaction of an answer, for a checkpoint the user may see. *)
Lemma consume_run name rid token answer key worker w c r t u :
  checkpoint_row (w_db w) name rid token = Some (c, r, t, u) ->
  py_nonempty (py_strip answer) = true -> preflight (resume_access r u) = None ->
  exists h, (forall e w0, h (EApp e) w0 = (Raise (EApp e), w0)) /\
  consume_resume env preflight name rid token answer key worker w =
    catch (transaction (
      raise_if (conflicting_resume_key (w_db w) (run_id r) key (cp_id c))
        (EApp (app_error3 IDEMPOTENCY_CONFLICT "该恢复幂等键已用于当前 Run 的其他 HITL 请求"%py 409));;
      match cp_consumed_at c with
      | Some _ => replay_resume env c r t
          (bool_decide (latest_checkpoint_id (w_db w) rid = Some (cp_id c))) (py_strip answer) key worker
      | None => accept_resume env c r t (py_strip answer) key worker
      end)) h w.
Proof.
  intros Q Hn Hp. eexists. split; [|].
  2:{ unfold consume_resume. rewrite Hn. erewrite bind_run by reflexivity.
      unfold catch, transaction. erewrite bind_run by reflexivity. rewrite Q.
      erewrite bind_run by reflexivity. cbn beta iota. unfold run_preflight. rewrite Hp.
      erewrite bind_run by reflexivity. reflexivity. }
  done.
Qed.

(** No other checkpoint of the run holds the key of an answered one. *)
Lemma own_key_no_conflict db c key :
  db_wf db -> constraints_ok db = true -> db_checkpoints db !! cp_id c = Some c ->
  cp_resume_idempotency_key c = Some key ->
  conflicting_resume_key db (cp_run_id c) key (cp_id c) = false.
Proof.
  intros W C Hc Hk. unfold conflicting_resume_key.
  rewrite (proj2 (first_where_None _ _)); [done|].
  intros j x Hx. destruct (decide (cp_id x = cp_id c)) as [Ex|Nx].
  - rewrite Ex, Z.eqb_refl. apply andb_false_r.
  - apply not_true_iff_false. intros Hq. bool_to_prop. apply Nx.
    rewrite (wf_checkpoint_key _ W _ _ Hx). apply constraints_ok_spec in C.
    apply (ok_checkpoint_resume _ C j (cp_id c) x c (cp_run_id c, key)); try done;
      unfold idx_checkpoint_resume; [|by rewrite Hk].
    match goal with H : cp_resume_idempotency_key x = _ |- _ => rewrite H end. simpl. congruence.
Qed.

(** The request repeats the answer the checkpoint received. *)
Definition same_answer (c : RunCheckpoint) (key answer : pystr) : bool :=
  bool_decide (cp_resume_idempotency_key c = Some key)
  && opt_py_eq (cp_resume_payload_json c) (Some (answer_payload (py_strip answer))).

(** A checkpoint takes one answer: repeating it under the same key reports the
    checkpoint as already consumed and writes nothing, whatever has happened to
    the run since; another key, or the same key with another answer, is refused
    and changes nothing. *)
Theorem checkpoint_takes_one_answer name rid token answer key w c r t u :
  reachable (w_db w) -> checkpoint_row (w_db w) name rid token = Some (c, r, t, u) ->
  py_nonempty (py_strip answer) = true -> preflight (resume_access r u) = None ->
  is_Some (cp_consumed_at c) ->
  if same_answer c key answer then
    exists res w', consume_resume env preflight name rid token answer key None w = (Ret res, w') /\
      cr_already_consumed res = true /\ cr_should_resume res = false /\
      cr_checkpoint_id res = cp_checkpoint_id c /\ w_db w' = w_db w
  else
    exists e w', consume_resume env preflight name rid token answer key None w = (Raise (EApp e), w') /\
      ae_code e = IDEMPOTENCY_CONFLICT /\ w_db w' = w_db w.
Proof.
  intros [W C I]%reachable_inv Q Hn Hp [now Ho].
  destruct (checkpoint_row_Some _ _ _ _ _ _ _ _ W Q) as (Hc & Kr & _ & Hr & Ki & _).
  destruct (consume_run _ _ _ _ key None _ _ _ _ _ Q Hn Hp) as (h & Hh & E).
  rewrite E, Ho, Ki, <- Kr. clear E. unfold catch, replay_resume. fold (same_answer c key answer).
  destruct (same_answer c key answer) eqn:Hs.
  - assert (cp_resume_idempotency_key c = Some key) as Hk by (unfold same_answer in Hs; by bool_to_prop).
    rewrite (own_key_no_conflict _ _ _ W C Hc Hk). erewrite transaction_run; [|reflexivity|exact C].
    do 2 eexists. split; [reflexivity|done].
  - destruct (conflicting_resume_key _ _ _ _); erewrite transaction_fail by reflexivity;
      rewrite Hh; do 2 eexists; (split; [reflexivity|done]).
Qed.

(** ** Pauses *)

Lemma pause_found rid wid token cid iid value state nodes r c w htok :
  constraints_ok (w_db w) = true -> db_runs (w_db w) !! rid = Some r ->
  find_checkpoint (w_db w) rid cid = Some c -> cp_consumed_at c = None ->
  run_fencing_token r = token -> cp_interrupt_id c = Some iid ->
  htok = str_or_empty (cp_hitl_token c) ->
  exists p w', record_pause rid wid token cid iid value state nodes w = (Ret p, w') /\
    w_db w' = w_db w /\ pa_hitl_token p = htok.
Proof.
  intros C Hr Hc Ho Ht Hi ->. do 2 eexists. split.
  - apply transaction_run; [|exact C]. erewrite bind_run by reflexivity. rewrite Hr.
    erewrite bind_run by reflexivity. rewrite Hc, Ho, Ht, Z.eqb_refl, Hi, bool_decide_eq_true_2 by done.
    reflexivity.
  - done.
Qed.

(** A pause may be retried: after a successful pause, the same call again
    (by the same holder of the token, while the checkpoint is unanswered) returns
    the same HITL token and writes nothing. *)
Theorem pause_can_be_retried rid wid token cid iid value state nodes w p w1 :
  reachable (w_db w) ->
  record_pause rid wid token cid iid value state nodes w = (Ret p, w1) ->
  exists p' w2, record_pause rid wid token cid iid value state nodes w1 = (Ret p', w2) /\
    w_db w2 = w_db w1 /\ pa_hitl_token p' = pa_hitl_token p.
Proof.
  intros R H. pose proof (reachable_inv _ _ _ _ R) as [W C _].
  assert (constraints_ok (w_db w1) = true) as C1 by (by apply transaction_inv in H as [_ ?]).
  destruct (record_pause_spec _ _ _ _ _ _ _ _ _ _ _ H W) as (r & Hr & Htok &
    [(E & c & Hc & Ho & Hi & Hp)|(r' & Hn & Mv & _ & _ & Ea & c & Ec & Kc & Kd & Ho & Hi & Hp)]).
  - eapply (pause_found _ _ _ _ _ _ _ _ r c); try done; congruence.
  - assert (run_id r = rid) as Kr by (by eapply wf_run_key).
    pose proof (moves_row _ _ _ _ Mv) as L. destruct Mv as (_ & _ & K & _).
    rewrite (run_core_id _ _ K), Kr in L.
    eapply (pause_found _ _ _ _ _ _ _ _ r' c); try done.
    + unfold find_checkpoint. rewrite Ec. apply (first_where_unique _ _ (cp_id c)).
      * apply lookup_insert_eq.
      * by rewrite !bool_decide_eq_true_2.
      * intros j y Hj Hy. destruct (decide (j = cp_id c)) as [->|N]; [done|].
        rewrite lookup_insert_ne in Hj by done. unfold find_checkpoint in Hn.
        rewrite first_where_None in Hn. specialize (Hn j y Hj). congruence.
    + unfold abs_run, ar_released in Ea. injection Ea. congruence.
    + rewrite Hp. done.
Qed.

(** ** Progress *)

Lemma fresh_ids_tick k w n : fresh_ids k w -> fresh_ids k (set_w_tick n w).
Proof. done. Qed.

Lemma set_assistant_status_run k run status w :
  db_wf (w_db w) -> constraints_ok (w_db w) = true -> fresh_ids k w ->
  exists w', set_assistant_status run status utcnow w = (Ret tt, w') /\
    constraints_ok (w_db w') = true /\ fresh_ids k w'.
Proof.
  intros W C F. unfold set_assistant_status. erewrite bind_run by reflexivity.
  destruct (run_assistant_message_id run) as [mid|]; [|eauto]. simpl.
  destruct (db_messages (w_db w) !! mid) as [m|] eqn:Hm; [|eauto]. eexists. split; [reflexivity|]. simpl.
  pose proof (wf_message_key _ W _ _ Hm) as Km. split; [|done].
  apply (constraints_put_message _ m); [done|by rewrite Km|done].
Qed.

(** The answered row of a checkpoint keeps the constraints. *)
Lemma constraints_answer db c c' key :
  db_wf db -> constraints_ok db = true -> db_checkpoints db !! cp_id c = Some c ->
  checkpoint_core c' = checkpoint_core c -> cp_resume_idempotency_key c' = Some key ->
  conflicting_resume_key db (cp_run_id c) key (cp_id c) = false ->
  constraints_ok (put_checkpoint c' db) = true.
Proof.
  intros W. rewrite !constraints_ok_spec. intros [] Hc Hk Ek Hf. unfold checkpoint_core in Hk.
  injection Hk as E1 E2 _ _ E3 E4 _. constructor; try done; simpl; rewrite E1.
  - eapply unique_prop_update; [done..|left]. unfold idx_checkpoint. by rewrite E2, E3.
  - apply unique_prop_insert; [done|]. intros j x k Nj Hx Hxk Hyk.
    unfold idx_checkpoint_resume in *. rewrite Ek, E2 in Hyk. simpl in Hyk. injection Hyk as <-.
    destruct (cp_resume_idempotency_key x) eqn:Ex; simpl in Hxk; simplify_eq.
    unfold conflicting_resume_key in Hf. case_match eqn:Ef; [done|].
    rewrite first_where_None in Ef. specialize (Ef j x Hx). simpl in Ef.
    rewrite Ex, !bool_decide_eq_true_2 in Ef by done. simpl in Ef. bool_to_prop.
    apply Nj. by rewrite <- (wf_checkpoint_key _ W _ _ Hx).
  - eapply unique_prop_update; [done..|left]. unfold idx_checkpoint_token. by rewrite E4.
Qed.

Lemma accept_succeeds c r t answer key w :
  db_wf (w_db w) -> constraints_ok (w_db w) = true -> fresh_ids 1 w ->
  db_checkpoints (w_db w) !! cp_id c = Some c -> db_runs (w_db w) !! run_id r = Some r ->
  run_status r = WAITING_INPUT -> run_names_ok r t -> cp_consumed_at c = None ->
  conflicting_resume_key (w_db w) (cp_run_id c) key (cp_id c) = false ->
  exists res w', accept_resume env c r t answer key None w = (Ret res, w') /\
    constraints_ok (w_db w') = true /\ cr_already_consumed res = false.
Proof.
  intros W C F Hc Hr Hs [Hn1 Hn2] Ho Hf. unfold accept_resume. rewrite Hs.
  do 6 (erewrite bind_run by reflexivity).
  set (r1 := set_run_updated_at _ _). set (c1 := set_cp_updated_at _ _). set (w1 := set_w_db _ _).
  assert (aside (w_db w) (put_checkpoint c1 (w_db w))) as A0.
  { apply (update_checkpoint_aside _ c); [done..|]. rewrite Ho. by intros []. }
  assert (moves (w_db w) (w_db w1) r r1) as M1.
  { eapply aside_moves; [exact A0|]. apply put_run_moves; [done|row_update]. }
  assert (constraints_ok (w_db w1) = true) as C1.
  { apply (constraints_put_run _ r); try done.
    - by apply (constraints_answer _ c _ key).
    - by eapply (constraints_run_checks _ _ r).
    - left. unfold idx_run_active. simpl. by rewrite Hs. }
  destruct (set_assistant_status_run 1 r1 "streaming"%py w1) as (w2 & E2 & C2 & F2);
    [by eapply moves_wf|done|done|].
  destruct (set_assistant_status_spec _ _ _ _ _ _ E2) as (A2 & _);
    [eauto with mew|by eapply moves_wf|].
  pose proof (moves_aside _ _ _ _ _ M1 A2) as M2.
  erewrite bind_run by exact E2.
  match goal with |- context [append_event_in_session r1 ?a ?b ?d] =>
    destruct (append_again 0 r1 a b d w2) as (ja & w3 & E3 & C3 & _ & W3 & R3); try done end.
  { by eapply moves_wf. }
  { by eapply moves_row. }
  erewrite bind_run by exact E3. do 2 eexists. split; [reflexivity|done].
Qed.

(** A waiting run can be resumed: the first answer to its open checkpoint, by
    its owner, under a key not used before and accepted by the preflight, succeeds
    (given that the drawn UUIDs are new), and leaves the run pending. *)
Theorem waiting_run_can_be_resumed name rid token answer key w c r t u :
  reachable (w_db w) -> checkpoint_row (w_db w) name rid token = Some (c, r, t, u) ->
  py_nonempty (py_strip answer) = true -> preflight (resume_access r u) = None ->
  conflicting_resume_key (w_db w) rid key (cp_id c) = false ->
  cp_consumed_at c = None -> run_status r = WAITING_INPUT -> fresh_ids 1 w ->
  exists res w', consume_resume env preflight name rid token answer key None w = (Ret res, w') /\
    cr_already_consumed res = false.
Proof.
  intros [W C I]%reachable_inv Q Hn Hp Hf Ho Hs F.
  destruct (checkpoint_row_Some _ _ _ _ _ _ _ _ W Q) as (Hc & Kc & _ & Hr & Ki & Ht & _).
  destruct (run_thread_found _ _ _ W Hr) as (t' & Ht' & _ & Hn1 & Hn2).
  assert (t' = t) as -> by congruence.
  destruct (consume_run _ _ _ _ key None _ _ _ _ _ Q Hn Hp) as (h & _ & E).
  rewrite E, Ho, Ki, Hf. unfold catch.
  enough (exists res w', accept_resume env c r t (py_strip answer) key None w = (Ret res, w') /\
    constraints_ok (w_db w') = true /\ cr_already_consumed res = false) as (res & w' & Ea & C' & Hres).
  { erewrite transaction_run; [| |exact C']; [|erewrite bind_run by reflexivity; exact Ea].
    exists res, w'. done. }
  clear E h. apply (accept_succeeds c r t (py_strip answer) key w); try done; [by rewrite Ki|].
  by rewrite Kc.
Qed.
End Answers.

(** ** Witnesses *)

Definition ops_answered : list Op :=
  ops_paused ++ [OResume "ann"%py run_a "hitl_3"%py "yes"%py "rk1"%py None].

Definition blank_checkpoint : RunCheckpoint :=
  mkRunCheckpoint 0 ""%py 0 0 ""%py None None None None JNull [] None 0 0.
Definition checkpoint_1 (w : World) : RunCheckpoint :=
  default blank_checkpoint (db_checkpoints (w_db w) !! 1).
Definition thread_1 (w : World) : Thread :=
  default (mkThread 0 0 ""%py ""%py 0 0 0 [] 0 0) (db_threads (w_db w) !! 1).
Definition blank_resume : ConsumedResume :=
  mkConsumedResume ""%py ""%py ""%py JNull [] 0 false false.
Definition blank_pause : CheckpointPause :=
  mkCheckpointPause ""%py ""%py ""%py ""%py ""%py JNull None None.

Ltac hitl_run := first [apply after_reachable | vm_compute; reflexivity
                      | refine (bool_decide_eq_true_1 _ _); by vm_compute].

Lemma answer_is_final_witness :
  let w := after ops_answered in
  let w' := after (ops_answered ++ [OClaim run_a "w2"%py None]) in
  (exists c', db_checkpoints (w_db w') !! 1 = Some c' /\ answered c' = answered (checkpoint_1 w) /\
     checkpoint_core c' = checkpoint_core (checkpoint_1 w)) \/
  db_threads (w_db w') !! cp_thread_ref_id (checkpoint_1 w) = None.
Proof.
  intros w w'.
  apply (answer_is_final ex_env ex_preflight ex_normalize (w_db w) (w_db w') 1 (checkpoint_1 w));
    [hitl_run|apply after_step|by vm_compute|hitl_run].
Defined.

Lemma first_answer_resumes_run_witness :
  let w := after ops_paused in
  let m := consume_resume ex_env ex_preflight "ann"%py run_a "hitl_3"%py "yes"%py "rk1"%py (Some "w2"%py) in
  run_status (row w run_a) = WAITING_INPUT /\
  exists r', db_runs (w_db (m w).2) !! run_a = Some r' /\ run_status r' = RUNNING /\
    run_owner_worker_id r' = Some "w2"%py.
Proof.
  intros w m.
  destruct (first_answer_resumes_run ex_env ex_preflight ex_normalize "ann"%py run_a "hitl_3"%py
    "yes"%py "rk1"%py (Some "w2"%py) w (value blank_resume (m w).1) (m w).2
    (checkpoint_1 w) (row w run_a) (thread_1 w) ann) as (Hs & _ & _ & r' & Hr & _ & Hst & Ho & _).
  - apply after_reachable.
  - apply (ret_eq blank_resume m w). by vm_compute.
  - by vm_compute.
  - by vm_compute.
  - split; [exact Hs|]. exists r'. exact (conj Hr (conj Hst Ho)).
Defined.

Lemma checkpoint_takes_one_answer_witness :
  let w := after ops_answered in
  let m answer := consume_resume ex_env ex_preflight "ann"%py run_a "hitl_3"%py answer "rk1"%py None w in
  (exists res w', m " yes "%py = (Ret res, w') /\
    cr_already_consumed res = true /\ cr_should_resume res = false /\
    cr_checkpoint_id res = cp_checkpoint_id (checkpoint_1 w) /\ w_db w' = w_db w) /\
  (exists e w', m "no"%py = (Raise (EApp e), w') /\ ae_code e = IDEMPOTENCY_CONFLICT /\ w_db w' = w_db w).
Proof.
  intros w m. split.
  - assert (same_answer (checkpoint_1 w) "rk1"%py " yes "%py = true) as Hb by (by vm_compute).
    pose proof (checkpoint_takes_one_answer ex_env ex_preflight ex_normalize "ann"%py run_a "hitl_3"%py
      " yes "%py "rk1"%py w (checkpoint_1 w) (row w run_a) (thread_1 w) ann) as H.
    rewrite Hb in H. apply H; hitl_run.
  - assert (same_answer (checkpoint_1 w) "rk1"%py "no"%py = false) as Hb by (by vm_compute).
    pose proof (checkpoint_takes_one_answer ex_env ex_preflight ex_normalize "ann"%py run_a "hitl_3"%py
      "no"%py "rk1"%py w (checkpoint_1 w) (row w run_a) (thread_1 w) ann) as H.
    rewrite Hb in H. apply H; hitl_run.
Defined.

Lemma waiting_run_can_be_resumed_witness :
  let w := after ops_paused in
  exists res w', consume_resume ex_env ex_preflight "ann"%py run_a "hitl_3"%py "yes"%py "rk1"%py None w
      = (Ret res, w') /\ cr_already_consumed res = false.
Proof.
  intros w.
  apply (waiting_run_can_be_resumed ex_env ex_preflight ex_normalize "ann"%py run_a "hitl_3"%py
    "yes"%py "rk1"%py w (checkpoint_1 w) (row w run_a) (thread_1 w) ann); hitl_run.
Defined.

Lemma pause_can_be_retried_witness :
  let w := after ops_claimed in
  let m := record_pause run_a "w1"%py 3 "cp1"%py "int1"%py [] JNull [] in
  exists p' w2, m (m w).2 = (Ret p', w2) /\ w_db w2 = w_db (m w).2 /\
    pa_hitl_token p' = pa_hitl_token (value blank_pause (m w).1).
Proof.
  intros w m.
  apply (pause_can_be_retried ex_env ex_preflight ex_normalize run_a "w1"%py 3 "cp1"%py "int1"%py
    [] JNull [] w); [hitl_run|]. apply (ret_eq blank_pause m w). by vm_compute.
Defined.
