(* ===== verification/Regex.v ===== *)
(** * Regular expressions

    The patterns the program compiles with [re.compile] and tests with
    [fullmatch] use literals, classes, alternation, concatenation and repetition
    only. [re_fullmatch] decides them by derivatives; [re_fullmatch_spec] says it
    decides membership in the language of the pattern. *)

From S2P Require Import Prelude PyBase.

Inductive regex :=
| RNone
| REps
| RChr (p : N -> bool)
| RCat (r s : regex)
| RAlt (r s : regex)
| RStar (r : regex).

(** [a] literal text, [r?] and [r+]. *)
Definition RLit (s : pystr) : regex := foldr (fun c r => RCat (RChr (N.eqb c)) r) REps (cps_of s).
Definition ROpt (r : regex) : regex := RAlt r REps.
Definition RPlus (r : regex) : regex := RCat r (RStar r).
(** [[^c]] *)
Definition RNot (c : N) : regex := RChr (fun x => negb (N.eqb c x)).
Definition RCats (rs : list regex) : regex := foldr RCat REps rs.

(** The language of a pattern. *)
Inductive matches : regex -> list N -> Prop :=
| m_eps : matches REps []
| m_chr p c : p c = true -> matches (RChr p) [c]
| m_cat r s l1 l2 : matches r l1 -> matches s l2 -> matches (RCat r s) (l1 ++ l2)
| m_alt_l r s l : matches r l -> matches (RAlt r s) l
| m_alt_r r s l : matches s l -> matches (RAlt r s) l
| m_star_nil r : matches (RStar r) []
| m_star_cons r c l1 l2 :
    matches r (c :: l1) -> matches (RStar r) l2 -> matches (RStar r) (c :: l1 ++ l2).

Fixpoint nullable (r : regex) : bool :=
  match r with
  | RNone | RChr _ => false
  | REps | RStar _ => true
  | RCat r s => nullable r && nullable s
  | RAlt r s => nullable r || nullable s
  end.

Fixpoint deriv (c : N) (r : regex) : regex :=
  match r with
  | RNone | REps => RNone
  | RChr p => if p c then REps else RNone
  | RCat r s => if nullable r then RAlt (RCat (deriv c r) s) (deriv c s) else RCat (deriv c r) s
  | RAlt r s => RAlt (deriv c r) (deriv c s)
  | RStar r => RCat (deriv c r) (RStar r)
  end.

(** [Pattern.fullmatch(s) is not None] *)
Definition re_fullmatch (r : regex) (s : pystr) : bool :=
  nullable (foldl (fun r c => deriv c r) r (cps_of s)).

Lemma matches_nil r : matches r [] <-> nullable r = true.
Proof.
  split.
  - intros H. remember [] as l eqn:E. induction H; simplify_eq/=; try done.
    + apply app_nil in E as [-> ->]. by rewrite IHmatches1, IHmatches2.
    + by rewrite IHmatches.
    + rewrite IHmatches by done. apply orb_true_r.
  - induction r; simpl; intros H; try done; try (by constructor).
    + apply andb_true_iff in H as [H1 H2]. apply (m_cat _ _ [] []); auto.
    + apply orb_true_iff in H as [H|H]; [apply m_alt_l|apply m_alt_r]; auto.
Qed.

Lemma matches_deriv c r l : matches r (c :: l) <-> matches (deriv c r) l.
Proof.
  revert l. induction r as [| |p|r1 IH1 r2 IH2|r1 IH1 r2 IH2|r IH]; intros l; simpl.
  - split; inversion 1.
  - split; inversion 1.
  - split.
    + inversion 1; subst. match goal with H : p c = true |- _ => rewrite H end. constructor.
    + destruct (p c) eqn:E; inversion 1; subst. by constructor.
  - assert (forall l, matches (RCat (deriv c r1) r2) l -> matches (RCat r1 r2) (c :: l)) as F.
    { intros k H. inversion H; subst. apply (m_cat _ _ (c :: l1)); [by apply IH1|done]. }
    split.
    + intros H. inversion H as [| |? ? l1 l2 H1 H2 Er El| | | |]; subst. destruct l1 as [|x l1]; simpl in *.
      * subst. apply matches_nil in H1. rewrite H1. apply m_alt_r. by apply IH2.
      * injection El as -> <-. destruct (nullable r1); [apply m_alt_l|]; constructor; auto; by apply IH1.
    + destruct (nullable r1) eqn:E; [|apply F]. intros H. inversion H; subst; [by apply F|].
      apply (m_cat _ _ [] (c :: l)); [by apply matches_nil|by apply IH2].
  - split; inversion 1; subst; first [apply m_alt_l; by apply IH1 | apply m_alt_r; by apply IH2].
  - split.
    + inversion 1; subst. constructor; [by apply IH|done].
    + inversion 1; subst. constructor; [by apply IH|done].
Qed.

Lemma re_fullmatch_spec r s : re_fullmatch r s = true <-> matches r (cps_of s).
Proof.
  unfold re_fullmatch. generalize (cps_of s) as l. intros l. revert r.
  induction l as [|c l IH]; intros r; simpl.
  - symmetry. apply matches_nil.
  - rewrite IH. symmetry. apply matches_deriv.
Qed.
