(* ===== verification/RateLimit.v ===== *)
(** * Inbound rate limiting

    [backend/rate_limits/contracts.py], [policy.py], [adapters.py], [limiter.py]
    and [auth.py]: validated inputs and decisions, the route table, the in-memory
    and the Redis adapter (with the Lua script it sends), and the limiter that
    composes them. Times are rational seconds; each [consume] runs under a lock or
    as one script, so it is one step. *)

From Stdlib Require Import QArith Qround.
From S2P Require Import Prelude PyBase Errors Regex.

Open Scope Z_scope.

(** ** Contracts *)

Inductive rl_error :=
| RateLimitUnavailable (adapter reason : pystr)
| RlValueError.

Inductive rl_result (A : Type) := Ok (a : A) | Err (e : rl_error).
Arguments Ok {A} a.
Arguments Err {A} e.

(** [^[a-z][a-z0-9_.-]{0,63}$], the pattern of policy ids and of safe labels. *)
Definition stable_id (s : pystr) : bool :=
  fullmatch_id is_az (fun c => is_az c || is_09 c || is_one_of "_.-"%py c) (Some 63%nat) s.

(** [^[A-Z]{3,12}$] *)
Definition method_ok (s : pystr) : bool :=
  (3 <=? py_len s) && (py_len s <=? 12) && forallb is_AZ (cps_of s).

Definition _positive_int (value maximum : Z) : bool := (1 <=? value) && (value <=? maximum).

(** [_finite_timestamp] of a finite number. *)
Definition _finite_timestamp (q : Q) : bool := Qle_bool 0 q.

(** [RateLimitUnavailable.__init__] *)
Definition unavailable (adapter reason : pystr) : rl_error :=
  RateLimitUnavailable (if stable_id adapter then adapter else "unknown"%py)
    (if stable_id reason then reason else "unavailable"%py).

Record RateLimitPolicy := mkRateLimitPolicy {
  rp_id : pystr;
  rp_limit : Z;
  rp_window_seconds : Z
}.

(** [RateLimitPolicy.__post_init__] *)
Definition policy_ok (p : RateLimitPolicy) : bool :=
  stable_id (rp_id p) && _positive_int (rp_limit p) 1000000
  && _positive_int (rp_window_seconds p) 86400.

Record RateLimitCheck := mkRateLimitCheck {
  ck_method : pystr;
  ck_path : pystr;
  ck_client_identity : pystr;
  ck_cost : Z
}.

(** [path.split("?", 1)[0]] *)
Fixpoint take_until (c : N) (l : list N) : list N :=
  match l with [] => [] | x :: l' => if (x =? c)%N then [] else x :: take_until c l' end.
Definition without_query (path : pystr) : pystr := PyStr (take_until 63 (cps_of path)).

Definition absolute_path (path : pystr) : bool :=
  match cps_of path with c :: _ => (c =? 47)%N | [] => false end.
Definition control_char (c : N) : bool := (c <? 32)%N || (c =? 127)%N.

(** [RateLimitCheck.__post_init__] *)
Definition make_check (method path client_identity : pystr) (cost : Z) : rl_result RateLimitCheck :=
  let method := py_upper (py_strip method) in
  if negb (method_ok method) then Err RlValueError
  else
    let path := without_query path in
    match utf8_encode path with
    | None => Err RlValueError
    | Some path_bytes =>
        if negb (absolute_path path) || (2048 <? Z.of_nat (length path_bytes))
           || existsb control_char (cps_of path)
        then Err RlValueError
        else
          match utf8_encode client_identity with
          | None => Err RlValueError
          | Some identity_bytes =>
              if (Z.of_nat (length identity_bytes) =? 0) || (4096 <? Z.of_nat (length identity_bytes))
              then Err RlValueError
              else if negb (_positive_int cost 1000000) then Err RlValueError
              else Ok (mkRateLimitCheck method path client_identity cost)
          end
    end.

Record RateLimitSnapshot := mkRateLimitSnapshot {
  sn_allowed : bool;
  sn_remaining : Z;
  sn_reset_at : Q;
  sn_observed_at : Q
}.

(** [RateLimitSnapshot.__post_init__] *)
Definition make_snapshot (allowed : bool) (remaining : Z) (reset_at observed_at : Q) :
    rl_result RateLimitSnapshot :=
  if (remaining <? 0) || negb (_finite_timestamp reset_at) || negb (_finite_timestamp observed_at)
     || negb (Qle_bool observed_at reset_at)
  then Err RlValueError
  else Ok (mkRateLimitSnapshot allowed remaining reset_at observed_at).

Record RateLimitDecision := mkRateLimitDecision {
  de_policy_id : pystr;
  de_allowed : bool;
  de_limit : Z;
  de_remaining : Z;
  de_retry_after : Z;
  de_reset : Z
}.

(** [RateLimitDecision.__post_init__] *)
Definition make_decision (policy_id : pystr) (allowed : bool) (limit remaining retry_after reset : Z) :
    rl_result RateLimitDecision :=
  if negb (stable_id policy_id) || negb (_positive_int limit 1000000)
     || negb ((0 <=? remaining) && (remaining <=? limit))
     || (retry_after <? 0) || (reset <? 0)
  then Err RlValueError
  else Ok (mkRateLimitDecision policy_id allowed limit remaining retry_after reset).

(** The storage seam: the clock and the store are part of the adapter's state. *)
Class RateLimitAdapter (T : Type) := {
  consume : pystr -> RateLimitPolicy -> Z -> T -> rl_result RateLimitSnapshot * T;
  adapter_close : T -> rl_result unit * T
}.

(** ** Route policies *)

Definition AUTH_LOGIN_POLICY := mkRateLimitPolicy "auth-login"%py 10 60.
Definition AUTH_REGISTER_POLICY := mkRateLimitPolicy "auth-register"%py 5 3600.
Definition AUTH_REFRESH_POLICY := mkRateLimitPolicy "auth-refresh"%py 120 60.
Definition AUTH_LOGOUT_POLICY := mkRateLimitPolicy "auth-logout"%py 120 60.
Definition THREAD_RUN_POLICY := mkRateLimitPolicy "thread-run"%py 30 60.
Definition HITL_RESUME_POLICY := mkRateLimitPolicy "hitl-resume"%py 30 60.
Definition DOCUMENT_UPLOAD_POLICY := mkRateLimitPolicy "document-upload"%py 10 3600.
Definition GENERAL_API_POLICY := mkRateLimitPolicy "api-general"%py 120 60.

Record RoutePolicyRule := mkRoutePolicyRule {
  ru_methods : list pystr;
  ru_path_pattern : regex;
  ru_policy : RateLimitPolicy
}.

(** [RoutePolicyRule.matches] *)
Definition rule_matches (rule : RoutePolicyRule) (method path : pystr) : bool :=
  bool_decide (method ∈ ru_methods rule) && re_fullmatch (ru_path_pattern rule) path.

(** [[^/]+] and [/?] *)
Definition segment : regex := RPlus (RNot 47).
Definition slash : regex := ROpt (RLit "/"%py).

Definition DEFAULT_ROUTE_POLICY_RULES : list RoutePolicyRule := [
  mkRoutePolicyRule ["POST"%py] (RCats [RLit "/auth/login"%py; slash]) AUTH_LOGIN_POLICY;
  mkRoutePolicyRule ["POST"%py] (RCats [RLit "/auth/register"%py; slash]) AUTH_REGISTER_POLICY;
  mkRoutePolicyRule ["POST"%py] (RCats [RLit "/auth/refresh"%py; slash]) AUTH_REFRESH_POLICY;
  mkRoutePolicyRule ["POST"%py] (RCats [RLit "/auth/logout"%py; ROpt (RLit "-all"%py); slash])
    AUTH_LOGOUT_POLICY;
  mkRoutePolicyRule ["POST"%py]
    (RCats [RLit "/v1/threads/"%py; segment; RLit "/runs"%py; ROpt (RLit "/stream"%py); slash])
    THREAD_RUN_POLICY;
  mkRoutePolicyRule ["POST"%py] (RCats [RLit "/v1/runs/"%py; segment; RLit "/resume"%py; slash])
    HITL_RESUME_POLICY;
  mkRoutePolicyRule ["POST"%py] (RCats [RLit "/documents/upload/async"%py; slash])
    DOCUMENT_UPLOAD_POLICY
].

(** [RoutePolicyMatcher.match] *)
Definition match_policy (rules : list RoutePolicyRule) (fallback : RateLimitPolicy)
    (method path : pystr) : RateLimitPolicy :=
  let normalized_method := py_upper (py_strip method) in
  let normalized_path := without_query path in
  match List.find (fun rule => rule_matches rule normalized_method normalized_path) rules with
  | Some rule => ru_policy rule
  | None => fallback
  end.

(** [DEFAULT_ROUTE_POLICY_MATCHER] *)
Definition default_match : pystr -> pystr -> RateLimitPolicy :=
  match_policy DEFAULT_ROUTE_POLICY_RULES GENERAL_API_POLICY.

(** ** The in-memory adapter *)

Record _MemoryWindow := mkMemoryWindow { mw_count : Z; mw_reset_at : Q }.

(** [ma_clock] is what the clock would return now: [None] when it raises or returns
    no finite number. *)
Record InMemoryRateLimitAdapter := mkInMemoryRateLimitAdapter {
  ma_windows : gmap pystr _MemoryWindow;
  ma_closed : bool;
  ma_clock : option Q
}.

(** [InMemoryRateLimitAdapter.consume] *)
Definition memory_consume (key : pystr) (policy : RateLimitPolicy) (cost : Z)
    (s : InMemoryRateLimitAdapter) : rl_result RateLimitSnapshot * InMemoryRateLimitAdapter :=
  if ma_closed s then (Err (unavailable "memory"%py "closed"%py), s)
  else
    match ma_clock s with
    | None => (Err (unavailable "memory"%py "clock_invalid"%py), s)
    | Some now =>
        if negb (Qle_bool 0 now) then (Err (unavailable "memory"%py "clock_invalid"%py), s)
        else
          let windows := filter (fun kv => Qle_bool (mw_reset_at kv.2) now = false) (ma_windows s) in
          let state :=
            match windows !! key with
            | Some state => state
            | None =>
                let window := rp_window_seconds policy in
                let reset_at := (Qfloor (now / inject_Z window) + 1) * window in
                mkMemoryWindow 0 (inject_Z reset_at)
            end in
          let allowed := mw_count state + cost <=? rp_limit policy in
          let state := if allowed then mkMemoryWindow (mw_count state + cost) (mw_reset_at state)
                       else state in
          let remaining := Z.max (rp_limit policy - mw_count state) 0 in
          (make_snapshot allowed remaining (mw_reset_at state) now,
           mkInMemoryRateLimitAdapter (<[key := state]> windows) (ma_closed s) (ma_clock s))
    end.

(** [InMemoryRateLimitAdapter.close] *)
Definition memory_close (s : InMemoryRateLimitAdapter) : rl_result unit * InMemoryRateLimitAdapter :=
  (Ok tt, mkInMemoryRateLimitAdapter ∅ true (ma_clock s)).

#[export] Instance memory_adapter : RateLimitAdapter InMemoryRateLimitAdapter := {
  consume := memory_consume;
  adapter_close := memory_close
}.

(** ** The Redis adapter *)

(** A value of a script's reply: an integer, a boolean, or a text with the number
    [int] reads from it. *)
Inductive RedisValue := VInt (z : Z) | VBool (b : bool) | VText (number : option Z).

(** [_response_integer] *)
Definition _response_integer (v : RedisValue) : option Z :=
  match v with
  | VBool _ => None
  | VInt z => if z <? 0 then None else Some z
  | VText n => z ← n; if z <? 0 then None else Some z
  end.

(** The client: the evaluation of the script with its key and arguments, [None]
    when the call raises or replies with no list; and whether closing succeeds. *)
Class RedisEvalClient (C : Type) := {
  redis_eval : pystr -> Z -> Z -> Z -> C -> option (list RedisValue) * C;
  redis_aclose : C -> bool * C
}.

Record RedisRateLimitAdapter (C : Type) := mkRedisRateLimitAdapter {
  ra_client : C;
  ra_close_client : bool;
  ra_closed : bool
}.
Arguments mkRedisRateLimitAdapter {C}.
Arguments ra_client {C}.
Arguments ra_close_client {C}.
Arguments ra_closed {C}.

(** The checks on a reply. *)
Definition redis_snapshot (limit : Z) (response : option (list RedisValue)) :
    rl_result RateLimitSnapshot :=
  match response with
  | Some [a; r; t; n] =>
      match _response_integer a, _response_integer r, _response_integer t, _response_integer n with
      | Some allowed_raw, Some remaining, Some reset_at_ms, Some observed_at_ms =>
          if negb ((allowed_raw =? 0) || (allowed_raw =? 1)) || (limit <? remaining)
          then Err (unavailable "redis"%py "unavailable"%py)
          else
            match make_snapshot (allowed_raw =? 1) remaining (inject_Z reset_at_ms / 1000)
                    (inject_Z observed_at_ms / 1000) with
            | Ok s => Ok s
            | Err _ => Err (unavailable "redis"%py "unavailable"%py)
            end
      | _, _, _, _ => Err (unavailable "redis"%py "unavailable"%py)
      end
  | _ => Err (unavailable "redis"%py "unavailable"%py)
  end.

(** [RedisRateLimitAdapter.consume] *)
Definition redis_consume {C} `{!RedisEvalClient C} (key : pystr) (policy : RateLimitPolicy) (cost : Z)
    (s : RedisRateLimitAdapter C) : rl_result RateLimitSnapshot * RedisRateLimitAdapter C :=
  if ra_closed s then (Err (unavailable "redis"%py "closed"%py), s)
  else
    let '(response, client) :=
      redis_eval key (rp_limit policy) (rp_window_seconds policy * 1000) cost (ra_client s) in
    (redis_snapshot (rp_limit policy) response,
     mkRedisRateLimitAdapter client (ra_close_client s) (ra_closed s)).

(** [RedisRateLimitAdapter.close] *)
Definition redis_close {C} `{!RedisEvalClient C} (s : RedisRateLimitAdapter C) :
    rl_result unit * RedisRateLimitAdapter C :=
  if ra_closed s then (Ok tt, s)
  else if ra_close_client s then
    let '(closed, client) := redis_aclose (ra_client s) in
    (if closed : bool then Ok tt else Err (unavailable "redis"%py "close_failed"%py),
     mkRedisRateLimitAdapter client (ra_close_client s) true)
  else (Ok tt, mkRedisRateLimitAdapter (ra_client s) (ra_close_client s) true).

#[export] Instance redis_adapter {C} `{!RedisEvalClient C} : RateLimitAdapter (RedisRateLimitAdapter C) := {
  consume := redis_consume;
  adapter_close := redis_close
}.

(** *** The script on the server *)

(** A hash with its expiry; the server answers as if an expired key did not exist. *)
Record RedisHash := mkRedisHash {
  rh_window_start_ms : Z;
  rh_count : Z;
  rh_expire_at_ms : Z
}.
Record RedisServer := mkRedisServer {
  sv_store : gmap pystr RedisHash;
  sv_seconds : Z;
  sv_microseconds : Z
}.

(** [redis.call('TIME')] in milliseconds. *)
Definition server_now_ms (sv : RedisServer) : Z := sv_seconds sv * 1000 + sv_microseconds sv / 1000.

Definition live_hash (sv : RedisServer) (key : pystr) : option RedisHash :=
  h ← sv_store sv !! key; if server_now_ms sv <? rh_expire_at_ms h then Some h else None.

(** [_FIXED_WINDOW_LUA] *)
Definition _FIXED_WINDOW_LUA (key : pystr) (limit window_ms cost : Z) (sv : RedisServer) :
    list Z * RedisServer :=
  let now_ms := server_now_ms sv in
  let window_start_ms := now_ms - now_ms mod window_ms in
  let reset_at_ms := window_start_ms + window_ms in
  let stored := live_hash sv key in
  let count := match stored with Some h => rh_count h | None => 0 end in
  let count :=
    match stored with
    | None => 0
    | Some h => if negb (rh_window_start_ms h =? window_start_ms) then 0 else count
    end in
  let allowed := count + cost <=? limit in
  let count := if allowed then count + cost else count in
  let remaining := limit - count in
  let remaining := if remaining <? 0 then 0 else remaining in
  ([if allowed then 1 else 0; remaining; reset_at_ms; now_ms],
   mkRedisServer (<[key := mkRedisHash window_start_ms count reset_at_ms]> (sv_store sv))
     (sv_seconds sv) (sv_microseconds sv)).

#[export] Instance redis_server : RedisEvalClient RedisServer := {
  redis_eval key limit window_ms cost sv :=
    let '(reply, sv) := _FIXED_WINDOW_LUA key limit window_ms cost sv in (Some (VInt <$> reply), sv);
  redis_aclose sv := (true, sv)
}.

(** ** The limiter *)

Section Limiter.
Context {T : Type} `{!RateLimitAdapter T}.

(** [hmac.new(key, material, sha256).hexdigest()] under the configured key, the
    route matcher and the key prefix. *)
Context (hmac_hex : pystr -> pystr) (matcher : pystr -> pystr -> RateLimitPolicy) (key_prefix : pystr).

Record RateLimiter := mkRateLimiter { rl_adapter : T; rl_closed : bool }.

(** [_storage_key] *)
Definition _storage_key (policy_id client_identity : pystr) : pystr :=
  let material := ("rate-limit-identity-v1"%py +++ PyStr [0%N] +++ policy_id +++ PyStr [0%N]
                   +++ client_identity)%py in
  (key_prefix +++ ":rate_limit:v1:"%py +++ policy_id +++ ":"%py +++ hmac_hex material)%py.

(** The decision derived from a snapshot. *)
Definition decide_snapshot (policy : RateLimitPolicy) (snapshot : RateLimitSnapshot) :
    rl_result RateLimitDecision :=
  if rp_limit policy <? sn_remaining snapshot
  then Err (unavailable "limiter"%py "invalid_adapter_response"%py)
  else
    let retry_after :=
      if sn_allowed snapshot then 0
      else Z.max 1 (Qceiling (sn_reset_at snapshot - sn_observed_at snapshot)) in
    make_decision (rp_id policy) (sn_allowed snapshot) (rp_limit policy) (sn_remaining snapshot)
      retry_after (Qceiling (sn_reset_at snapshot)).

(** [RateLimiter.check] *)
Definition limiter_check (c : RateLimitCheck) (l : RateLimiter) :
    rl_result RateLimitDecision * RateLimiter :=
  if rl_closed l then (Err (unavailable "limiter"%py "closed"%py), l)
  else
    let policy := matcher (ck_method c) (ck_path c) in
    match consume (_storage_key (rp_id policy) (ck_client_identity c)) policy (ck_cost c)
            (rl_adapter l) with
    | (Err e, a) => (Err e, mkRateLimiter a (rl_closed l))
    | (Ok snapshot, a) => (decide_snapshot policy snapshot, mkRateLimiter a (rl_closed l))
    end.

(** [RateLimiter.close] *)
Definition limiter_close (l : RateLimiter) : rl_result unit * RateLimiter :=
  if rl_closed l then (Ok tt, l)
  else let '(res, a) := adapter_close (rl_adapter l) in (res, mkRateLimiter a true).

(** ** The limit on login attempts *)

(** Unicode normalisation with case folding, and the digest of long names. *)
Context (normalize_username_for_rate_limit : pystr -> pystr) (sha256_hex : list N -> pystr).

(** [_bounded_username_identity]; encoding a name with a lone surrogate raises. *)
Definition _bounded_username_identity (value : option json) : rl_result (option pystr) :=
  match value with
  | Some (JStr s) =>
      let normalized := normalize_username_for_rate_limit s in
      if negb (py_nonempty normalized) then Ok None
      else
        match utf8_encode normalized with
        | None => Err RlValueError
        | Some encoded =>
            if Z.of_nat (length encoded) <=? 1024 then Ok (Some normalized)
            else Ok (Some ("sha256:"%py +++ sha256_hex encoded)%py)
        end
  | _ => Ok None
  end.

(** [_direct_client_host] *)
Definition _direct_client_host (client_host : option pystr) : rl_result pystr :=
  match client_host with
  | Some h =>
      if negb (py_nonempty h) then Ok "unknown"%py
      else
        let host := py_strip h in
        if negb (py_nonempty host) then Ok "unknown"%py
        else
          match utf8_encode host with
          | None => Err RlValueError
          | Some bytes => Ok (if 512 <? Z.of_nat (length bytes) then "unknown"%py else host)
          end
  | None => Ok "unknown"%py
  end.

Inductive auth_result :=
| AuthPass
| AuthRefused (e : AppError)
| AuthError (e : rl_error).

Definition auth_unavailable : AppError :=
  mkAppError RATE_LIMIT_UNAVAILABLE
    (public_error (error_code_value RATE_LIMIT_UNAVAILABLE) "请求限流服务暂时不可用，请稍后重试"%py
       503 true (Some "rate_limit"%py) (Some "auth_identity"%py) None (Some 1%Q) []).
Definition auth_limited (d : RateLimitDecision) : AppError :=
  mkAppError RATE_LIMITED
    (public_error (error_code_value RATE_LIMITED) "请求过于频繁，请稍后重试"%py 429 true
       (Some "rate_limit"%py) (Some (de_policy_id d)) None (Some (inject_Z (de_retry_after d)))
       [("limit"%py, JInt (de_limit d)); ("remaining"%py, JInt (de_remaining d));
        ("reset"%py, JInt (de_reset d))]).

(** [enforce_auth_username_rate_limit]: [payload] is the decoded body, [None] when it
    does not decode; the limiter is absent when the application has none. *)
Definition enforce_auth_username_rate_limit (limiter : option RateLimiter) (payload : option json)
    (method path : pystr) (client_host : option pystr) : auth_result * option RateLimiter :=
  match limiter, payload with
  | Some l, Some (JObj fields) =>
      match _bounded_username_identity (obj_get "username"%py fields) with
      | Err e => (AuthError e, limiter)
      | Ok None => (AuthPass, limiter)
      | Ok (Some username) =>
          match _direct_client_host client_host with
          | Err e => (AuthError e, limiter)
          | Ok host =>
              match make_check method path
                      ("host:"%py +++ host +++ PyStr [0%N] +++ "username:"%py +++ username)%py 2 with
              | Err e => (AuthError e, limiter)
              | Ok c =>
                  match limiter_check c l with
                  | (Err (RateLimitUnavailable _ _), l') => (AuthRefused auth_unavailable, Some l')
                  | (Err e, l') => (AuthError e, Some l')
                  | (Ok d, l') =>
                      if negb (de_allowed d) then (AuthRefused (auth_limited d), Some l')
                      else (AuthPass, Some l')
                  end
              end
          end
      end
  | _, _ => (AuthPass, limiter)
  end.
End Limiter.
Arguments RateLimiter : clear implicits.
Arguments mkRateLimiter {T}.
Arguments rl_adapter {T}.
Arguments rl_closed {T}.
