(* ===== verification/RateLimitProps.v ===== *)
(** * Properties of rate limiting

    The fixed-window contract of a rate limit store as a specification and an
    interface; both adapters implement it; the limiter, proved against the
    interface, never admits more than a policy's limit in a window. *)

From Stdlib Require Import QArith Qround.
From S2P Require Import Prelude PyBase Errors Regex RateLimit.

Open Scope Z_scope.

(** ** The contract *)

(** Per key: a window and the cost admitted in it. *)
Record Usage := mkUsage { us_window : Z; us_count : Z }.

(** The length of a policy's window, and the window a time falls into. *)
Definition window_ms (p : RateLimitPolicy) : Z := rp_window_seconds p * 1000.
Definition window_at (p : RateLimitPolicy) (now_ms : Z) : Z := now_ms / window_ms p.

Definition used (s : gmap pystr Usage) (key : pystr) (window : Z) : Z :=
  match s !! key with
  | Some u => if us_window u =? window then us_count u else 0
  | None => 0
  end.

Definition seconds_of (ms : Z) : Q := inject_Z ms / 1000.

(** One consumption: admit the cost if it fits into the current window. *)
Definition spec_admits (s : gmap pystr Usage) (key : pystr) (p : RateLimitPolicy) (cost now_ms : Z) : bool :=
  used s key (window_at p now_ms) + cost <=? rp_limit p.
Definition spec_count (s : gmap pystr Usage) (key : pystr) (p : RateLimitPolicy) (cost now_ms : Z) : Z :=
  let n := used s key (window_at p now_ms) in
  if spec_admits s key p cost now_ms then n + cost else n.
Definition spec_consume (s : gmap pystr Usage) (key : pystr) (p : RateLimitPolicy) (cost now_ms : Z) :
    gmap pystr Usage :=
  <[key := mkUsage (window_at p now_ms) (spec_count s key p cost now_ms)]> s.
Definition spec_snapshot (s : gmap pystr Usage) (key : pystr) (p : RateLimitPolicy) (cost now_ms : Z) :
    RateLimitSnapshot :=
  mkRateLimitSnapshot (spec_admits s key p cost now_ms)
    (Z.max (rp_limit p - spec_count s key p cost now_ms) 0)
    (seconds_of ((window_at p now_ms + 1) * window_ms p)) (seconds_of now_ms).

(** Snapshots up to the representation of their rational times. *)
Definition snap_equiv (a b : RateLimitSnapshot) : Prop :=
  sn_allowed a = sn_allowed b /\ sn_remaining a = sn_remaining b /\
  (sn_reset_at a == sn_reset_at b)%Q /\ (sn_observed_at a == sn_observed_at b)%Q.

#[export] Instance snap_equiv_equivalence : Equivalence snap_equiv.
Proof.
  split.
  - intros a. by repeat split.
  - intros a b (? & ? & ? & ?). repeat split; by symmetry.
  - intros a b c (? & ? & ? & ?) (? & ? & ? & ?). repeat split; by etrans.
Qed.

#[export] Instance decide_snapshot_proper p : Proper (snap_equiv ==> eq) (decide_snapshot p).
Proof.
  intros a b (E1 & E2 & E3 & E4). unfold decide_snapshot. rewrite E1, E2.
  rewrite (Qceiling_comp _ _ E3). replace (Qceiling (sn_reset_at a - sn_observed_at a))
    with (Qceiling (sn_reset_at b - sn_observed_at b)); [done|].
  apply Qceiling_comp. by rewrite E3, E4.
Qed.

(** Counts are never negative. *)
Definition counts_ok (s : gmap pystr Usage) : Prop := map_Forall (fun _ u => 0 <= us_count u) s.

Lemma used_nonneg s key i : counts_ok s -> 0 <= used s key i.
Proof.
  intros H. unfold used. destruct (s !! key) as [u|] eqn:E; [|done].
  specialize (H key u E). simpl in H. by destruct (us_window u =? i).
Qed.

Lemma spec_count_nonneg s key p cost now : counts_ok s -> 1 <= cost -> 0 <= spec_count s key p cost now.
Proof.
  intros H Hc. pose proof (used_nonneg s key (window_at p now) H). unfold spec_count.
  destruct (spec_admits _ _ _ _ _); lia.
Qed.

Lemma counts_consume s key p cost now :
  counts_ok s -> 1 <= cost -> counts_ok (spec_consume s key p cost now).
Proof.
  intros H Hc. apply map_Forall_insert_2; [|done]. by apply spec_count_nonneg.
Qed.

(** A store keeps the contract for the keys of a policy assignment: at each time
    not before the previous one, [consume] answers as specified and moves on to a
    state that represents the new usage. *)
Class FixedWindowAdapter (T : Type) `{!RateLimitAdapter T} (pol : pystr -> RateLimitPolicy) := {
  set_now : Z -> T -> T;
  represents : Z -> gmap pystr Usage -> T -> Prop;
  consume_fixed_window t0 s a key cost now :
    represents t0 s a -> t0 <= now -> 0 <= now -> 1 <= cost -> policy_ok (pol key) = true ->
    exists snap a', consume key (pol key) cost (set_now now a) = (Ok snap, a') /\
      snap_equiv snap (spec_snapshot s key (pol key) cost now) /\
      represents now (spec_consume s key (pol key) cost now) a'
}.

(** ** Arithmetic *)

Lemma policy_bounds p :
  policy_ok p = true -> 1 <= rp_limit p <= 1000000 /\ 1 <= rp_window_seconds p /\ 0 < window_ms p /\
  stable_id (rp_id p) = true.
Proof. unfold policy_ok, _positive_int, window_ms. intros H. bool_to_prop. split_and!; first [done|lia]. Qed.

Lemma window_start p now :
  0 < window_ms p -> now - now mod window_ms p = window_at p now * window_ms p.
Proof. intros H. unfold window_at. rewrite Z.mod_eq by lia. lia. Qed.

Lemma window_bounds p now :
  0 < window_ms p -> window_at p now * window_ms p <= now < (window_at p now + 1) * window_ms p.
Proof.
  intros H. unfold window_at. pose proof (Z.div_mod now (window_ms p)). 
  pose proof (Z.mod_pos_bound now (window_ms p)). lia.
Qed.

Lemma seconds_le a b : Qle_bool (seconds_of a) (seconds_of b) = (a <=? b).
Proof.
  unfold seconds_of, Qle_bool, Qdiv, Qmult, Qinv. simpl.
  destruct (a <=? b) eqn:E; bool_to_prop; [apply Z.leb_le|apply Z.leb_gt]; lia.
Qed.

Lemma seconds_nonneg a : Qle_bool 0 (seconds_of a) = (0 <=? a).
Proof.
  unfold seconds_of, Qle_bool, Qdiv, Qmult, Qinv. simpl.
  destruct (0 <=? a) eqn:E; bool_to_prop; [apply Z.leb_le|apply Z.leb_gt]; lia.
Qed.

Lemma make_snapshot_ok allowed remaining reset now :
  0 <= remaining -> 0 <= now <= reset ->
  make_snapshot allowed remaining (seconds_of reset) (seconds_of now) =
    Ok (mkRateLimitSnapshot allowed remaining (seconds_of reset) (seconds_of now)).
Proof.
  intros Hr Hn. unfold make_snapshot, _finite_timestamp. rewrite !seconds_nonneg, seconds_le.
  rewrite (proj2 (Z.ltb_ge remaining 0)), !(proj2 (Z.leb_le _ _)) by lia. done.
Qed.

(** ** Redis *)

Lemma redis_snapshot_ok limit (b : bool) r reset now :
  0 <= r <= limit -> 0 <= now <= reset ->
  redis_snapshot limit (Some (VInt <$> [if b then 1 else 0; r; reset; now])) =
    Ok (mkRateLimitSnapshot b r (seconds_of reset) (seconds_of now)).
Proof.
  intros Hr Hn. unfold redis_snapshot. csimpl. unfold _response_integer.
  rewrite (proj2 (Z.ltb_ge r 0)), (proj2 (Z.ltb_ge reset 0)), (proj2 (Z.ltb_ge now 0)),
    (proj2 (Z.ltb_ge limit r)) by lia.
  fold (seconds_of reset) (seconds_of now).
  destruct b; simpl; by rewrite make_snapshot_ok by lia.
Qed.

Section Redis.
Context (pol : pystr -> RateLimitPolicy).

Definition redis_at (now : Z) (a : RedisRateLimitAdapter RedisServer) : RedisRateLimitAdapter RedisServer :=
  mkRedisRateLimitAdapter
    (mkRedisServer (sv_store (ra_client a)) (now / 1000) (now mod 1000 * 1000))
    (ra_close_client a) (ra_closed a).

(** The hash of a key holds its window and count, and expires with the window. *)
Definition hash_of (p : RateLimitPolicy) (u : Usage) : RedisHash :=
  mkRedisHash (us_window u * window_ms p) (us_count u) ((us_window u + 1) * window_ms p).

Definition redis_represents (t0 : Z) (s : gmap pystr Usage) (a : RedisRateLimitAdapter RedisServer) : Prop :=
  ra_closed a = false /\ counts_ok s /\
  sv_store (ra_client a) = map_imap (fun key u => Some (hash_of (pol key) u)) s.

Lemma redis_now now a : server_now_ms (ra_client (redis_at now a)) = now.
Proof.
  unfold server_now_ms. simpl. rewrite Z.div_mul by lia. pose proof (Z.div_mod now 1000). lia.
Qed.

(** The count the script starts from. *)
Lemma redis_count t0 s a key now :
  redis_represents t0 s a -> 0 < window_ms (pol key) ->
  match live_hash (ra_client (redis_at now a)) key with
  | None => 0
  | Some h =>
      if negb (rh_window_start_ms h =? window_at (pol key) now * window_ms (pol key)) then 0
      else match live_hash (ra_client (redis_at now a)) key with
           | Some h => rh_count h
           | None => 0
           end
  end = used s key (window_at (pol key) now).
Proof.
  intros (_ & _ & E) Hw. unfold live_hash, used. rewrite redis_now. simpl. rewrite E.
  rewrite map_lookup_imap. destruct (s !! key) as [u|]; [|done]. simpl.
  pose proof (window_bounds (pol key) now Hw) as B.
  destruct (now <? _) eqn:L; simpl; bool_to_prop.
  - destruct (us_window u =? _) eqn:Ew; bool_to_prop.
    + by rewrite Ew, Z.eqb_refl.
    + rewrite (proj2 (Z.eqb_neq _ _)); [done|]. intros F. apply Ew. nia.
  - rewrite (proj2 (Z.eqb_neq _ _)); [done|]. intros F. rewrite F in L. lia.
Qed.

Lemma redis_keeps_contract t0 s a key cost now :
  redis_represents t0 s a -> t0 <= now -> 0 <= now -> 1 <= cost -> policy_ok (pol key) = true ->
  exists snap a', redis_consume key (pol key) cost (redis_at now a) = (Ok snap, a') /\
    snap_equiv snap (spec_snapshot s key (pol key) cost now) /\
    redis_represents now (spec_consume s key (pol key) cost now) a'.
Proof.
  intros R Ht Hn Hc Hp. destruct (policy_bounds _ Hp) as (Hl & Hw & Hm & _).
  pose proof (redis_count t0 s a key now R Hm) as Ec. destruct R as (Rc & Ro & Rs).
  pose proof (spec_count_nonneg s key (pol key) cost now Ro Hc) as Pc.
  pose proof (window_bounds (pol key) now Hm) as B.
  unfold redis_consume. cbn [ra_closed redis_at]. rewrite Rc.
  unfold redis_eval, redis_server, _FIXED_WINDOW_LUA. fold (window_ms (pol key)).
  rewrite redis_now, window_start by done. cbv zeta. rewrite Ec.
  fold (spec_admits s key (pol key) cost now). fold (spec_count s key (pol key) cost now).
  set (n := spec_count s key (pol key) cost now) in *.
  set (reset := window_at (pol key) now * window_ms (pol key) + window_ms (pol key)).
  assert (reset = (window_at (pol key) now + 1) * window_ms (pol key)) as Er by (unfold reset; lia).
  replace (if rp_limit (pol key) - n <? 0 then 0 else rp_limit (pol key) - n)
    with (Z.max (rp_limit (pol key) - n) 0) by (destruct (_ <? _) eqn:E; bool_to_prop; lia).
  rewrite redis_snapshot_ok by lia. do 2 eexists. split; [reflexivity|]. split.
  - unfold spec_snapshot. fold n. rewrite Er. done.
  - split; [done|]. split; [by apply counts_consume|]. simpl. rewrite Rs. unfold spec_consume. fold n.
    symmetry. apply map_imap_insert_Some. unfold hash_of. simpl. by rewrite Er.
Qed.
End Redis.

#[export] Instance redis_fixed_window pol :
  FixedWindowAdapter (RedisRateLimitAdapter RedisServer) pol := {
  set_now := redis_at;
  represents := redis_represents pol;
  consume_fixed_window := redis_keeps_contract pol
}.

(** ** Memory *)

Section Memory.
Context (pol : pystr -> RateLimitPolicy).

Definition memory_at (now : Z) (a : InMemoryRateLimitAdapter) : InMemoryRateLimitAdapter :=
  mkInMemoryRateLimitAdapter (ma_windows a) (ma_closed a) (Some (seconds_of now)).

(** The end of a usage's window. *)
Definition usage_end (key : pystr) (u : Usage) : Z := (us_window u + 1) * window_ms (pol key).

(** Every stored window tells the usage of its key; a usage without a window has
    expired. *)
Record memory_represents (t0 : Z) (s : gmap pystr Usage) (a : InMemoryRateLimitAdapter) : Prop := {
  mem_open : ma_closed a = false;
  mem_counts : counts_ok s;
  mem_window : forall key w, ma_windows a !! key = Some w ->
    exists u, s !! key = Some u /\ mw_count w = us_count u /\
      (mw_reset_at w == seconds_of (usage_end key u))%Q /\ us_window u * window_ms (pol key) <= t0;
  mem_gone : forall key u, s !! key = Some u ->
    is_Some (ma_windows a !! key) \/ usage_end key u <= t0
}.

Lemma reset_seconds p now :
  0 < window_ms p -> 1 <= rp_window_seconds p ->
  (inject_Z ((Qfloor (seconds_of now / inject_Z (rp_window_seconds p)) + 1) * rp_window_seconds p) ==
     seconds_of ((window_at p now + 1) * window_ms p))%Q.
Proof.
  intros Hm Hw.
  assert (Qfloor (seconds_of now / inject_Z (rp_window_seconds p)) = window_at p now) as ->.
  { unfold window_at. rewrite Zdiv_Qdiv. apply Qfloor_comp. unfold seconds_of, window_ms.
    rewrite inject_Z_mult. field. intros E. unfold Qeq in E. simpl in E. lia. }
  unfold seconds_of, window_ms. rewrite !inject_Z_mult. field.
Qed.

(** The window a consumption finds or opens. *)
Definition memory_window (key : pystr) (now : Z) (a : InMemoryRateLimitAdapter) : _MemoryWindow :=
  match filter (fun kv => Qle_bool (mw_reset_at kv.2) (seconds_of now) = false) (ma_windows a) !! key with
  | Some w => w
  | None =>
      mkMemoryWindow 0 (inject_Z ((Qfloor (seconds_of now / inject_Z (rp_window_seconds (pol key))) + 1)
                                  * rp_window_seconds (pol key)))
  end.

Lemma memory_window_spec t0 s a key now :
  memory_represents t0 s a -> t0 <= now -> 0 < window_ms (pol key) -> 1 <= rp_window_seconds (pol key) ->
  let w := memory_window key now a in
  mw_count w = used s key (window_at (pol key) now) /\
  (mw_reset_at w == seconds_of ((window_at (pol key) now + 1) * window_ms (pol key)))%Q.
Proof.
  intros R Ht Hm Hw. unfold memory_window. pose proof (window_bounds (pol key) now Hm) as B.
  destruct (filter _ _ !! key) as [w|] eqn:E.
  - apply map_lookup_filter_Some in E as [Hk Hlive]. simpl in Hlive.
    destruct (mem_window _ _ _ R _ _ Hk) as (u & Hu & Ec & Er & Hs).
    rewrite Er, seconds_le in Hlive. bool_to_prop. unfold usage_end in *.
    assert (us_window u = window_at (pol key) now) as Ew by nia.
    unfold used. rewrite Hu, Ew, Z.eqb_refl. split; [done|]. by rewrite Er, Ew.
  - split; [|by apply reset_seconds]. simpl. unfold used.
    destruct (s !! key) as [u|] eqn:Hu; [|done].
    destruct (us_window u =? window_at (pol key) now) eqn:Ew; [|done]. bool_to_prop. exfalso.
    assert (usage_end key u <= now) as F; [|unfold usage_end in F; rewrite Ew in F; lia].
    apply map_lookup_filter_None in E as [Hn|Hf].
    + destruct (mem_gone _ _ _ R _ _ Hu) as [[w Hk]|F]; [congruence|lia].
    + destruct (mem_gone _ _ _ R _ _ Hu) as [[w Hk]|F]; [|lia].
      specialize (Hf w Hk). simpl in Hf. apply not_false_is_true in Hf.
      destruct (mem_window _ _ _ R _ _ Hk) as (u' & Hu' & _ & Er & _). simplify_eq.
      rewrite Er, seconds_le in Hf. by bool_to_prop.
Qed.

(** The store after a consumption. *)
Lemma memory_represents_step t0 s a key cost now w' :
  memory_represents t0 s a -> t0 <= now -> 1 <= cost -> 0 < window_ms (pol key) ->
  mw_count w' = spec_count s key (pol key) cost now ->
  (mw_reset_at w' == seconds_of ((window_at (pol key) now + 1) * window_ms (pol key)))%Q ->
  memory_represents now (spec_consume s key (pol key) cost now)
    (mkInMemoryRateLimitAdapter
       (<[key := w']> (filter (fun kv => Qle_bool (mw_reset_at kv.2) (seconds_of now) = false) (ma_windows a)))
       (ma_closed a) (Some (seconds_of now))).
Proof.
  intros R Ht Hc Hm Ec Er. pose proof (window_bounds (pol key) now Hm) as B. unfold spec_consume.
  constructor; simpl.
  - apply R.
  - apply counts_consume; [apply R|done].
  - intros k w Hk. destruct (decide (k = key)) as [->|N].
    + rewrite lookup_insert_eq in Hk. rewrite lookup_insert_eq. simplify_eq. eexists. split; [done|]. simpl. split_and!; [done|exact Er|lia].
    + rewrite lookup_insert_ne in Hk by done. rewrite lookup_insert_ne by done. apply map_lookup_filter_Some in Hk as [Hk _].
      destruct (mem_window _ _ _ R _ _ Hk) as (u & Hu & ? & ? & ?). exists u. split_and!; [done..|lia].
  - intros k u Hk. destruct (decide (k = key)) as [->|N].
    + left. rewrite lookup_insert_eq. eauto.
    + rewrite lookup_insert_ne in Hk by done. rewrite lookup_insert_ne by done.
      destruct (mem_gone _ _ _ R _ _ Hk) as [[w Hw]|F]; [|right; lia].
      destruct (Qle_bool (mw_reset_at w) (seconds_of now)) eqn:E.
      * right. destruct (mem_window _ _ _ R _ _ Hw) as (u' & Hu' & _ & Ew & _). simplify_eq.
        rewrite Ew, seconds_le in E. by bool_to_prop.
      * left. exists w. by apply map_lookup_filter_Some.
Qed.

Lemma make_snapshot_equiv allowed remaining reset q now :
  (q == seconds_of reset)%Q -> 0 <= remaining -> 0 <= now <= reset ->
  make_snapshot allowed remaining q (seconds_of now) =
    Ok (mkRateLimitSnapshot allowed remaining q (seconds_of now)).
Proof.
  intros E Hr Hn. unfold make_snapshot, _finite_timestamp.
  rewrite !(Qleb_comp _ _ (reflexivity _) _ _ E), !seconds_nonneg, seconds_le.
  rewrite (proj2 (Z.ltb_ge remaining 0)), !(proj2 (Z.leb_le _ _)) by lia. done.
Qed.

Lemma memory_keeps_contract t0 s a key cost now :
  memory_represents t0 s a -> t0 <= now -> 0 <= now -> 1 <= cost -> policy_ok (pol key) = true ->
  exists snap a', memory_consume key (pol key) cost (memory_at now a) = (Ok snap, a') /\
    snap_equiv snap (spec_snapshot s key (pol key) cost now) /\
    memory_represents now (spec_consume s key (pol key) cost now) a'.
Proof.
  intros R Ht Hn Hc Hp. destruct (policy_bounds _ Hp) as (Hl & Hw & Hm & _).
  pose proof (spec_count_nonneg s key (pol key) cost now (mem_counts _ _ _ R) Hc) as Pc.
  pose proof (window_bounds (pol key) now Hm) as B.
  destruct (memory_window_spec t0 s a key now R Ht Hm Hw) as [Ec Er].
  unfold memory_consume. cbn [ma_closed ma_clock ma_windows memory_at].
  rewrite (mem_open _ _ _ R), seconds_nonneg, (proj2 (Z.leb_le 0 now)) by done. cbn [negb]. cbv zeta.
  fold (memory_window key now a). rewrite Ec. fold (spec_admits s key (pol key) cost now).
  set (w' := if spec_admits s key (pol key) cost now then _ else _).
  assert (mw_count w' = spec_count s key (pol key) cost now) as Ec'.
  { unfold w', spec_count. destruct (spec_admits _ _ _ _ _); [done|exact Ec]. }
  assert (mw_reset_at w' = mw_reset_at (memory_window key now a)) as Er'.
  { unfold w'. by destruct (spec_admits _ _ _ _ _). }
  rewrite <- Er' in Er. rewrite (make_snapshot_equiv _ _ _ _ _ Er) by lia. rewrite Ec'.
  do 2 eexists. split; [reflexivity|]. split; [by split_and!|].
  pose proof (memory_represents_step t0 s a key cost now w' R Ht Hc Hm Ec' Er) as S.
  by rewrite (mem_open _ _ _ R) in S.
Qed.
End Memory.

#[export] Instance memory_fixed_window pol : FixedWindowAdapter InMemoryRateLimitAdapter pol := {
  set_now := memory_at;
  represents := memory_represents pol;
  consume_fixed_window := memory_keeps_contract pol
}.

(** ** The limiter over any store that keeps the contract *)

Definition default_policies : list RateLimitPolicy :=
  [AUTH_LOGIN_POLICY; AUTH_REGISTER_POLICY; AUTH_REFRESH_POLICY; AUTH_LOGOUT_POLICY;
   THREAD_RUN_POLICY; HITL_RESUME_POLICY; DOCUMENT_UPLOAD_POLICY; GENERAL_API_POLICY].

Lemma default_match_in method path : default_match method path ∈ default_policies.
Proof.
  unfold default_match, match_policy. destruct (List.find _ _) as [rule|] eqn:E.
  - apply List.find_some in E as [E _]. simpl in E.
    repeat (destruct E as [<-|E]; [set_solver|]). done.
  - set_solver.
Qed.

Lemma default_policies_ok p : p ∈ default_policies -> policy_ok p = true.
Proof.
  unfold default_policies. rewrite !elem_of_cons, elem_of_nil. intros H.
  repeat (destruct H as [->|H]; [by vm_compute|]). done.
Qed.

Fixpoint is_prefix (l k : list N) : bool :=
  match l, k with
  | [], _ => true
  | x :: l', y :: k' => (x =? y)%N && is_prefix l' k'
  | _, [] => false
  end.

Lemma is_prefix_app l k1 k2 : is_prefix (l ++ k1) (l ++ k2) = is_prefix k1 k2.
Proof. induction l as [|x l IH]; [done|]. simpl. by rewrite N.eqb_refl. Qed.

Section Keys.
Context (hmac_hex : pystr -> pystr) (key_prefix : pystr).

(** The policy a storage key belongs to: the one whose id follows the prefix. *)
Definition key_head (p : RateLimitPolicy) : list N :=
  cps_of (key_prefix +++ ":rate_limit:v1:"%py +++ rp_id p +++ ":"%py)%py.
Definition key_policy (key : pystr) : RateLimitPolicy :=
  default GENERAL_API_POLICY
    (List.find (fun p => is_prefix (key_head p) (cps_of key)) default_policies).

Lemma key_policy_spec p identity :
  p ∈ default_policies -> key_policy (_storage_key hmac_hex key_prefix (rp_id p) identity) = p.
Proof.
  intros Hp. unfold key_policy.
  assert (forall q, is_prefix (key_head q) (cps_of (_storage_key hmac_hex key_prefix (rp_id p) identity))
    = is_prefix (cps_of (rp_id q +++ ":"%py)%py)
        (cps_of (rp_id p +++ ":"%py)%py ++
         cps_of (hmac_hex ("rate-limit-identity-v1"%py +++ PyStr [0%N] +++ rp_id p +++ PyStr [0%N]
                           +++ identity)%py))) as F.
  { intros q. unfold key_head, _storage_key, py_app. cbn [cps_of].
    rewrite <- !(assoc_L (++)), !is_prefix_app. done. }
  set (d := cps_of (hmac_hex _)) in F. unfold default_policies in *.
  rewrite !elem_of_cons, elem_of_nil in Hp. cbn [List.find]. rewrite !F. clear F.
  repeat (destruct Hp as [->|Hp]; [reflexivity|]). done.
Qed.
End Keys.

Section Traces.
Context (hmac_hex : pystr -> pystr) (key_prefix : pystr).

#[local] Abbreviation pol := (key_policy key_prefix).
#[local] Abbreviation check := (limiter_check hmac_hex default_match key_prefix).

Definition check_policy (c : RateLimitCheck) : RateLimitPolicy := default_match (ck_method c) (ck_path c).
Definition check_key (c : RateLimitCheck) : pystr :=
  _storage_key hmac_hex key_prefix (rp_id (check_policy c)) (ck_client_identity c).

Lemma check_policy_ok c : policy_ok (check_policy c) = true.
Proof. apply default_policies_ok, default_match_in. Qed.

Lemma check_key_policy c : pol (check_key c) = check_policy c.
Proof. apply key_policy_spec, default_match_in. Qed.

(** Requests in the order they arrive, each with its time in milliseconds. *)
Fixpoint arrivals (t0 : Z) (reqs : list (Z * RateLimitCheck)) : Prop :=
  match reqs with
  | [] => True
  | (now, c) :: rest => t0 <= now /\ 0 <= now /\ 1 <= ck_cost c /\ arrivals now rest
  end.

(** The decisions a limiter over the store gives, and those of the contract. *)
Fixpoint limiter_run {T} `{!RateLimitAdapter T, !FixedWindowAdapter T pol}
    (reqs : list (Z * RateLimitCheck)) (l : RateLimiter T) : list (rl_result RateLimitDecision) :=
  match reqs with
  | [] => []
  | (now, c) :: rest =>
      let '(d, l') := check c (mkRateLimiter (set_now now (rl_adapter l)) (rl_closed l)) in
      d :: limiter_run rest l'
  end.

Definition spec_decision (s : gmap pystr Usage) (now : Z) (c : RateLimitCheck) : rl_result RateLimitDecision :=
  decide_snapshot (check_policy c) (spec_snapshot s (check_key c) (check_policy c) (ck_cost c) now).
Definition spec_next (s : gmap pystr Usage) (now : Z) (c : RateLimitCheck) : gmap pystr Usage :=
  spec_consume s (check_key c) (check_policy c) (ck_cost c) now.

Fixpoint spec_run (reqs : list (Z * RateLimitCheck)) (s : gmap pystr Usage) :
    list (rl_result RateLimitDecision) :=
  match reqs with
  | [] => []
  | (now, c) :: rest => spec_decision s now c :: spec_run rest (spec_next s now c)
  end.

Lemma limiter_run_spec {T} `{!RateLimitAdapter T, !FixedWindowAdapter T pol} reqs t0 s a :
  represents t0 s a -> arrivals t0 reqs -> limiter_run reqs (mkRateLimiter a false) = spec_run reqs s.
Proof.
  revert t0 s a. induction reqs as [|[now c] rest IH]; intros t0 s a R H; [done|].
  destruct H as (Ht & Hn & Hc & H). simpl. unfold limiter_check. cbn [rl_closed rl_adapter].
  fold (check_policy c). fold (check_key c).
  destruct (consume_fixed_window t0 s a (check_key c) (ck_cost c) now R Ht Hn Hc)
    as (snap & a' & E & Es & R').
  { rewrite check_key_policy. apply check_policy_ok. }
  rewrite check_key_policy in *. rewrite E. f_equal.
  - unfold spec_decision. by rewrite Es.
  - by apply (IH now).
Qed.

Definition fresh_memory : InMemoryRateLimitAdapter := mkInMemoryRateLimitAdapter ∅ false None.
Definition fresh_redis : RedisRateLimitAdapter RedisServer :=
  mkRedisRateLimitAdapter (mkRedisServer ∅ 0 0) true false.

(** C39. The two stores are interchangeable: for any requests arriving at
    non-decreasing times, the limiter decides the same over the in-memory adapter
    as over the Redis adapter running its script, and as the fixed-window
    contract prescribes. *)
Theorem adapters_are_equivalent reqs :
  arrivals 0 reqs ->
  limiter_run reqs (mkRateLimiter fresh_memory false) = spec_run reqs ∅ /\
  limiter_run reqs (mkRateLimiter fresh_redis false) = spec_run reqs ∅.
Proof.
  intros H. split.
  - apply (limiter_run_spec _ 0); [|done]. constructor; simpl; [done|by apply map_Forall_empty|..].
    + intros key w Hw. by rewrite lookup_empty in Hw.
    + intros key u Hu. by rewrite lookup_empty in Hu.
  - apply (limiter_run_spec _ 0); [|done]. split; [done|]. split; [by apply map_Forall_empty|].
    simpl. by rewrite map_imap_empty.
Qed.

(** ** The limit *)

(** The cost admitted for a key in one of its windows. *)
Fixpoint admitted (key : pystr) (window : Z) (reqs : list (Z * RateLimitCheck))
    (ds : list (rl_result RateLimitDecision)) : Z :=
  match reqs, ds with
  | (now, c) :: rest, d :: ds' =>
      (match d with
       | Ok d => if bool_decide (check_key c = key) && (window_at (check_policy c) now =? window)
                    && de_allowed d then ck_cost c else 0
       | Err _ => 0
       end) + admitted key window rest ds'
  | _, _ => 0
  end.

(** The contract always decides. *)
Definition retry_of (p : RateLimitPolicy) (allowed : bool) (now : Z) : Z :=
  if allowed then 0
  else Z.max 1 (Qceiling (seconds_of ((window_at p now + 1) * window_ms p) - seconds_of now)).

Lemma window_end_seconds p now :
  Qceiling (seconds_of ((window_at p now + 1) * window_ms p)) = (window_at p now + 1) * rp_window_seconds p.
Proof.
  rewrite <- (Qceiling_Z ((window_at p now + 1) * rp_window_seconds p)). apply Qceiling_comp.
  unfold seconds_of, window_ms. rewrite !inject_Z_mult. field.
Qed.

Lemma spec_decision_ok s now c :
  counts_ok s -> 0 <= now -> 1 <= ck_cost c ->
  let p := check_policy c in
  let allowed := spec_admits s (check_key c) p (ck_cost c) now in
  spec_decision s now c =
    Ok (mkRateLimitDecision (rp_id p) allowed (rp_limit p)
          (Z.max (rp_limit p - spec_count s (check_key c) p (ck_cost c) now) 0)
          (retry_of p allowed now) ((window_at p now + 1) * rp_window_seconds p)).
Proof.
  intros Ho Hn Hc p allowed. destruct (policy_bounds p (check_policy_ok c)) as (Hl & Hw & Hm & Hid).
  pose proof (spec_count_nonneg s (check_key c) p (ck_cost c) now Ho Hc) as Pc.
  pose proof (window_bounds p now Hm) as B.
  unfold spec_decision, decide_snapshot. fold p. cbn [spec_snapshot sn_remaining sn_allowed sn_reset_at sn_observed_at].
  rewrite (proj2 (Z.ltb_ge _ _)) by lia. fold allowed. fold (retry_of p allowed now).
  rewrite window_end_seconds. unfold make_decision, _positive_int. rewrite Hid.
  assert (0 <= retry_of p allowed now) as Hr by (unfold retry_of; destruct allowed; lia).
  assert (0 <= window_at p now) as Hi by (unfold window_at; apply Z.div_pos; lia).
  rewrite (proj2 (Z.leb_le 1 _)), (proj2 (Z.leb_le (rp_limit p) 1000000)), !(proj2 (Z.leb_le _ _)) by lia.
  rewrite (proj2 (Z.ltb_ge (retry_of p allowed now) 0)), (proj2 (Z.ltb_ge _ 0)) by nia. done.
Qed.

Lemma key_policy_ok key : policy_ok (key_policy key_prefix key) = true.
Proof.
  unfold key_policy. destruct (List.find _ _) eqn:E; [|done].
  apply List.find_some in E as [E _]. by apply default_policies_ok, list_elem_of_In.
Qed.

Lemma key_policy_window key : 0 < window_ms (key_policy key_prefix key).
Proof. by destruct (policy_bounds _ (key_policy_ok key)) as (_ & _ & ? & _). Qed.

(** No request of a later window counts for an earlier one. *)
Lemma admitted_past key i reqs t0 ds :
  arrivals t0 reqs -> i < window_at (key_policy key_prefix key) t0 -> admitted key i reqs ds = 0.
Proof.
  revert t0 ds. induction reqs as [|[now c] rest IH]; intros t0 ds H Hi; [done|].
  destruct H as (Ht & _ & _ & H). destruct ds as [|d ds]; [done|]. simpl.
  assert (i < window_at (key_policy key_prefix key) now) as Hi'.
  { eapply Z.lt_le_trans; [done|]. apply Z.div_le_mono; [apply key_policy_window|done]. }
  rewrite (IH now) by done. destruct d as [d|]; [|done].
  case_bool_decide as E; [|done]. rewrite <- E, check_key_policy in Hi'.
  by rewrite (proj2 (Z.eqb_neq _ _)) by lia.
Qed.

(** What is admitted from a state on, together with what was before. *)
Lemma admitted_bound key i reqs t0 s :
  counts_ok s -> arrivals t0 reqs -> used s key i <= rp_limit (key_policy key_prefix key) ->
  (forall u, s !! key = Some u -> us_window u <= window_at (key_policy key_prefix key) t0) ->
  used s key i + admitted key i reqs (spec_run reqs s) <= rp_limit (key_policy key_prefix key).
Proof.
  revert t0 s. induction reqs as [|[now c] rest IH]; intros t0 s Ho H Hu Hs; simpl; [lia|].
  destruct H as (Ht & Hn & Hc & H). rewrite spec_decision_ok by done. simpl.
  assert (window_at (key_policy key_prefix key) t0 <= window_at (key_policy key_prefix key) now) as Hw.
  { apply Z.div_le_mono; [apply key_policy_window|done]. }
  specialize (IH now (spec_next s now c) (counts_consume _ _ _ _ _ Ho Hc) H).
  case_bool_decide as Ek; simpl.
  - subst key. rewrite check_key_policy in *. set (p := check_policy c) in *.
    assert (forall j, used (spec_next s now c) (check_key c) j =
      if window_at p now =? j then spec_count s (check_key c) p (ck_cost c) now else 0) as Eu.
    { intros j. unfold used, spec_next, spec_consume. by rewrite lookup_insert_eq. }
    rewrite Eu in IH.
    assert (forall u, spec_next s now c !! check_key c = Some u -> us_window u <= window_at p now) as Hs'.
    { intros u. unfold spec_next, spec_consume. rewrite lookup_insert_eq. intros ?; by simplify_eq. }
    destruct (window_at p now =? i) eqn:Ew; bool_to_prop; simpl.
    + unfold spec_count, spec_admits in *. rewrite Ew in *.
      destruct (_ <=? _) eqn:E; bool_to_prop; specialize (IH ltac:(lia) Hs'); lia.
    + destruct (decide (i < window_at p now)) as [L|L].
      * rewrite (admitted_past _ _ _ now); [lia|done|]. by rewrite check_key_policy.
      * assert (used s (check_key c) i = 0) as ->.
        { unfold used. destruct (s !! _) as [u|] eqn:E; [|done]. specialize (Hs u eq_refl).
          by rewrite (proj2 (Z.eqb_neq _ _)) by lia. }
        apply IH; [|done]. destruct (policy_bounds p (check_policy_ok c)). lia.
  - unfold used, spec_next, spec_consume in *. rewrite lookup_insert_ne in IH by done.
    apply IH; [done|]. intros u E. specialize (Hs u E). lia.
Qed.

(** C40. The limit holds: whatever the requests and their times, over either store
    or any other that keeps the contract, the cost admitted for one client under
    one policy within one window never exceeds the policy's limit. *)
Theorem limit_is_enforced {T} `{!RateLimitAdapter T, !FixedWindowAdapter T (key_policy key_prefix)}
    reqs a key window :
  represents 0 ∅ a -> arrivals 0 reqs ->
  admitted key window reqs (limiter_run reqs (mkRateLimiter a false)) <=
    rp_limit (key_policy key_prefix key).
Proof.
  intros R H. rewrite (limiter_run_spec _ 0 ∅) by done.
  pose proof (admitted_bound key window reqs 0 ∅) as B. unfold used in B. rewrite lookup_empty in B.
  destruct (policy_bounds _ (key_policy_ok key)) as (Hl & _).
  apply B; [by apply map_Forall_empty|done|lia|done].
Qed.

(** Whole seconds that cover a span of milliseconds. *)
Lemma ceiling_covers a b : a - b <= 1000 * Qceiling (seconds_of a - seconds_of b).
Proof.
  pose proof (Qle_ceiling (seconds_of a - seconds_of b)) as H. revert H.
  generalize (Qceiling (seconds_of a - seconds_of b)) as r. intros r H.
  unfold seconds_of, Qle, Qminus, Qplus, Qopp, Qdiv, Qmult, Qinv in H. simpl in H. lia.
Qed.

Lemma ceiling_le a b n : a - b <= 1000 * n -> Qceiling (seconds_of a - seconds_of b) <= n.
Proof.
  intros H. rewrite <- (Qceiling_Z n). apply Qceiling_resp_le.
  unfold seconds_of, Qle, Qminus, Qplus, Qopp, Qdiv, Qmult, Qinv. simpl. lia.
Qed.

(** Every request is decided, and the hints a client gets are right: what
    remains lies between zero and the limit; an admitted request carries no
    retry hint; a refused one is told to wait between one second and one window,
    and once it has, the window that was exhausted is over. *)
Theorem decision_hints_are_right {T} `{!RateLimitAdapter T, !FixedWindowAdapter T (key_policy key_prefix)}
    t0 s a c now :
  represents t0 s a -> counts_ok s -> t0 <= now -> 0 <= now -> 1 <= ck_cost c ->
  exists d l', limiter_check hmac_hex default_match key_prefix c (mkRateLimiter (set_now now a) false)
      = (Ok d, l') /\
    let p := check_policy c in
    de_policy_id d = rp_id p /\ de_limit d = rp_limit p /\ 0 <= de_remaining d <= de_limit d /\
    if de_allowed d then de_retry_after d = 0
    else 1 <= de_retry_after d <= rp_window_seconds p /\
         window_at p now < window_at p (now + 1000 * de_retry_after d).
Proof.
  intros R Ho Ht Hn Hc. set (p := check_policy c).
  destruct (policy_bounds p (check_policy_ok c)) as (Hl & Hw & Hm & _).
  pose proof (window_bounds p now Hm) as B.
  pose proof (spec_count_nonneg s (check_key c) p (ck_cost c) now Ho Hc) as Pc.
  destruct (consume_fixed_window t0 s a (check_key c) (ck_cost c) now R Ht Hn Hc) as (snap & a' & E & Es & _).
  { rewrite check_key_policy. apply check_policy_ok. }
  rewrite check_key_policy in E, Es. fold p in E, Es.
  unfold limiter_check. cbn [rl_closed rl_adapter]. cbv zeta. fold (check_policy c). fold p.
  change (_storage_key hmac_hex key_prefix (rp_id p) (ck_client_identity c)) with (check_key c).
  rewrite E, (decide_snapshot_proper p _ _ Es).
  change (decide_snapshot p _) with (spec_decision s now c).
  rewrite spec_decision_ok by done. fold p.
  do 2 eexists. split; [reflexivity|].
  cbn [de_policy_id de_allowed de_limit de_remaining de_retry_after]. split_and!; try first [done|lia].
  unfold retry_of. destruct (spec_admits _ _ _ _ _); [done|].
  pose proof (ceiling_covers ((window_at p now + 1) * window_ms p) now) as Cv.
  assert (Qceiling (seconds_of ((window_at p now + 1) * window_ms p) - seconds_of now)
    <= rp_window_seconds p) as Cl by (apply ceiling_le; unfold window_ms in *; lia).
  split; [lia|]. unfold window_at at 2.
  apply (Z.lt_le_trans _ (window_at p now + 1)); [lia|]. apply Z.div_le_lower_bound; lia.
Qed.
End Traces.

(** ** Witnesses *)

Definition ex_hmac (material : pystr) : pystr := "0f"%py.
Definition login : RateLimitCheck := mkRateLimitCheck "POST"%py "/auth/login"%py "host:a"%py 4.
Definition ex_reqs : list (Z * RateLimitCheck) :=
  [(1000, login); (2000, login); (3500, login); (61000, login)].

Lemma ex_arrivals : arrivals 0 ex_reqs.
Proof. simpl. lia. Qed.

Lemma adapters_are_equivalent_witness :
  (fun d => match d with Ok d => de_allowed d | Err _ => false end) <$>
    limiter_run ex_hmac "mew"%py ex_reqs (mkRateLimiter fresh_memory false) = [true; true; false; true] /\
  limiter_run ex_hmac "mew"%py ex_reqs (mkRateLimiter fresh_memory false)
    = spec_run ex_hmac "mew"%py ex_reqs ∅ /\
  limiter_run ex_hmac "mew"%py ex_reqs (mkRateLimiter fresh_redis false)
    = spec_run ex_hmac "mew"%py ex_reqs ∅.
Proof.
  split; [by vm_compute|]. apply (adapters_are_equivalent ex_hmac "mew"%py ex_reqs ex_arrivals).
Defined.

Lemma fresh_redis_represents pol : redis_represents pol 0 ∅ fresh_redis.
Proof. split; [done|]. split; [by apply map_Forall_empty|]. simpl. by rewrite map_imap_empty. Qed.

Lemma limit_is_enforced_witness :
  let key := check_key ex_hmac "mew"%py login in
  let ds := limiter_run ex_hmac "mew"%py ex_reqs (mkRateLimiter fresh_redis false) in
  admitted ex_hmac "mew"%py key 0 ex_reqs ds = 8 /\
  admitted ex_hmac "mew"%py key 0 ex_reqs ds <= rp_limit (key_policy "mew"%py key).
Proof.
  intros key ds. split; [by vm_compute|].
  apply (limit_is_enforced ex_hmac "mew"%py ex_reqs fresh_redis key 0);
    [apply fresh_redis_represents|apply ex_arrivals].
Defined.

Lemma decision_hints_are_right_witness :
  exists d l', limiter_check ex_hmac default_match "mew"%py login
      (mkRateLimiter (redis_at 1000 fresh_redis) false) = (Ok d, l') /\
    let p := check_policy login in
    de_policy_id d = rp_id p /\ de_limit d = rp_limit p /\ 0 <= de_remaining d <= de_limit d /\
    if de_allowed d then de_retry_after d = 0
    else 1 <= de_retry_after d <= rp_window_seconds p /\
         window_at p 1000 < window_at p (1000 + 1000 * de_retry_after d).
Proof.
  refine (decision_hints_are_right (FixedWindowAdapter0 := redis_fixed_window (key_policy "mew"%py))
    ex_hmac "mew"%py 0 ∅ fresh_redis login 1000 _ _ _ _ _);
    [apply fresh_redis_represents|by apply map_Forall_empty|simpl; lia..].
Defined.
