(* ===== verification/CatalogSchema.v ===== *)
(** * Persistent state of the document catalogue

    [backend/db/models.py], the tables [backend/documents/catalog.py] owns: one
    record per row with the columns of the mapped class, the tables keyed by
    primary key, the status enumerations, and the schema's uniqueness
    constraints as the predicate a flush checks. *)

From S2P Require Import Prelude PyBase Errors Session.

Open Scope Z_scope.

(** ** Status enumerations *)

Inductive DocumentVersionStatus :=
| V_UPLOADED | V_PARSING | V_INDEXING | V_STAGED | V_READY | V_FAILED | V_SUPERSEDED.

Inductive IndexJobStatus :=
| J_PENDING | J_RUNNING | J_RETRY_WAIT | J_STAGED
| J_COMPLETED | J_FAILED | J_CANCELLED | J_DEAD_LETTER.

Inductive CleanupJobStatus :=
| C_PENDING | C_RUNNING | C_RETRY_WAIT | C_COMPLETED | C_DEAD_LETTER.

Inductive WorkerStatus := W_STARTING | W_RUNNING | W_DRAINING | W_STOPPED.

#[export] Instance DocumentVersionStatus_eq_dec : EqDecision DocumentVersionStatus.
Proof. solve_decision. Defined.
#[export] Instance IndexJobStatus_eq_dec : EqDecision IndexJobStatus.
Proof. solve_decision. Defined.
#[export] Instance CleanupJobStatus_eq_dec : EqDecision CleanupJobStatus.
Proof. solve_decision. Defined.
#[export] Instance WorkerStatus_eq_dec : EqDecision WorkerStatus.
Proof. solve_decision. Defined.

(** The values of the string enumerations. *)
Definition index_status_value (s : IndexJobStatus) : pystr :=
  match s with
  | J_PENDING => "pending"
  | J_RUNNING => "running"
  | J_RETRY_WAIT => "retry_wait"
  | J_STAGED => "staged"
  | J_COMPLETED => "completed"
  | J_FAILED => "failed"
  | J_CANCELLED => "cancelled"
  | J_DEAD_LETTER => "dead_letter"
  end%py.

Definition cleanup_status_value (s : CleanupJobStatus) : pystr :=
  match s with
  | C_PENDING => "pending"
  | C_RUNNING => "running"
  | C_RETRY_WAIT => "retry_wait"
  | C_COMPLETED => "completed"
  | C_DEAD_LETTER => "dead_letter"
  end%py.

Definition worker_status_value (s : WorkerStatus) : pystr :=
  match s with
  | W_STARTING => "starting"
  | W_RUNNING => "running"
  | W_DRAINING => "draining"
  | W_STOPPED => "stopped"
  end%py.

Definition all_index_statuses : list IndexJobStatus :=
  [J_PENDING; J_RUNNING; J_RETRY_WAIT; J_STAGED; J_COMPLETED; J_FAILED; J_CANCELLED; J_DEAD_LETTER].
Definition all_cleanup_statuses : list CleanupJobStatus :=
  [C_PENDING; C_RUNNING; C_RETRY_WAIT; C_COMPLETED; C_DEAD_LETTER].
Definition all_worker_statuses : list WorkerStatus := [W_STARTING; W_RUNNING; W_DRAINING; W_STOPPED].

(** The member with a given value, as [str(status)] looks it up. *)
Definition parse_index_status (s : pystr) : option IndexJobStatus :=
  List.find (fun x => bool_decide (index_status_value x = s)) all_index_statuses.
Definition parse_cleanup_status (s : pystr) : option CleanupJobStatus :=
  List.find (fun x => bool_decide (cleanup_status_value x = s)) all_cleanup_statuses.
Definition parse_worker_status (s : pystr) : option WorkerStatus :=
  List.find (fun x => bool_decide (worker_status_value x = s)) all_worker_statuses.

(** [_ACTIVE_VERSION_STATUSES] *)
Definition version_active (s : DocumentVersionStatus) : bool :=
  match s with
  | V_UPLOADED | V_PARSING | V_INDEXING | V_STAGED | V_READY => true
  | V_FAILED | V_SUPERSEDED => false
  end.

(** ** Tables *)

Record KnowledgeBase := mkKnowledgeBase {
  kb_id : pystr;
  kb_tenant_id : pystr;
  kb_name : pystr;
  kb_owner_id : Z;
  kb_status : pystr;
  kb_catalog_revision : Z;
  kb_created_at : datetime;
  kb_updated_at : datetime
}.

Definition eta_KnowledgeBase (r : KnowledgeBase) : KnowledgeBase :=
  mkKnowledgeBase (kb_id r) (kb_tenant_id r) (kb_name r) (kb_owner_id r) (kb_status r)
    (kb_catalog_revision r) (kb_created_at r) (kb_updated_at r).
Definition set_kb_catalog_revision : Z -> KnowledgeBase -> KnowledgeBase :=
  ltac:(field_setter eta_KnowledgeBase kb_catalog_revision).
Definition set_kb_updated_at : datetime -> KnowledgeBase -> KnowledgeBase :=
  ltac:(field_setter eta_KnowledgeBase kb_updated_at).

Record Document := mkDocument {
  doc_id : pystr;
  doc_tenant_id : pystr;
  doc_knowledge_base_id : pystr;
  doc_canonical_name : pystr;
  doc_owner_id : Z;
  doc_current_version_id : option pystr;
  doc_pending_version_id : option pystr;
  doc_publication_fence : Z;
  doc_version_counter : Z;
  doc_status : pystr;
  doc_deleted_at : option datetime;
  doc_created_at : datetime;
  doc_updated_at : datetime
}.

Definition eta_Document (r : Document) : Document :=
  mkDocument (doc_id r) (doc_tenant_id r) (doc_knowledge_base_id r) (doc_canonical_name r)
    (doc_owner_id r) (doc_current_version_id r) (doc_pending_version_id r)
    (doc_publication_fence r) (doc_version_counter r) (doc_status r) (doc_deleted_at r)
    (doc_created_at r) (doc_updated_at r).
Definition set_doc_current_version_id : option pystr -> Document -> Document :=
  ltac:(field_setter eta_Document doc_current_version_id).
Definition set_doc_pending_version_id : option pystr -> Document -> Document :=
  ltac:(field_setter eta_Document doc_pending_version_id).
Definition set_doc_publication_fence : Z -> Document -> Document :=
  ltac:(field_setter eta_Document doc_publication_fence).
Definition set_doc_version_counter : Z -> Document -> Document :=
  ltac:(field_setter eta_Document doc_version_counter).
Definition set_doc_status : pystr -> Document -> Document :=
  ltac:(field_setter eta_Document doc_status).
Definition set_doc_deleted_at : option datetime -> Document -> Document :=
  ltac:(field_setter eta_Document doc_deleted_at).
Definition set_doc_updated_at : datetime -> Document -> Document :=
  ltac:(field_setter eta_Document doc_updated_at).

Record DocumentVersion := mkDocumentVersion {
  dv_id : pystr;
  dv_document_id : pystr;
  dv_content_sha256 : pystr;
  dv_build_fingerprint : pystr;
  dv_version_number : Z;
  dv_source_object_key : pystr;
  dv_media_type : pystr;
  dv_size_bytes : Z;
  dv_parser_version : pystr;
  dv_chunker_version : pystr;
  dv_embedding_model : pystr;
  dv_index_version : pystr;
  dv_vector_collection : pystr;
  dv_status : DocumentVersionStatus;
  dv_chunk_count : Z;
  dv_parent_chunk_count : Z;
  dv_error_code : option pystr;
  dv_error_detail_redacted : option pystr;
  dv_published_at : option datetime;
  dv_superseded_at : option datetime;
  dv_cleanup_after : option datetime;
  dv_index_cleaned_at : option datetime;
  dv_cleanup_error_code : option pystr;
  dv_created_at : datetime;
  dv_updated_at : datetime
}.

Definition eta_DocumentVersion (r : DocumentVersion) : DocumentVersion :=
  mkDocumentVersion (dv_id r) (dv_document_id r) (dv_content_sha256 r) (dv_build_fingerprint r)
    (dv_version_number r) (dv_source_object_key r) (dv_media_type r) (dv_size_bytes r)
    (dv_parser_version r) (dv_chunker_version r) (dv_embedding_model r) (dv_index_version r)
    (dv_vector_collection r) (dv_status r) (dv_chunk_count r) (dv_parent_chunk_count r)
    (dv_error_code r) (dv_error_detail_redacted r) (dv_published_at r) (dv_superseded_at r)
    (dv_cleanup_after r) (dv_index_cleaned_at r) (dv_cleanup_error_code r) (dv_created_at r)
    (dv_updated_at r).
Definition set_dv_status : DocumentVersionStatus -> DocumentVersion -> DocumentVersion :=
  ltac:(field_setter eta_DocumentVersion dv_status).
Definition set_dv_chunk_count : Z -> DocumentVersion -> DocumentVersion :=
  ltac:(field_setter eta_DocumentVersion dv_chunk_count).
Definition set_dv_parent_chunk_count : Z -> DocumentVersion -> DocumentVersion :=
  ltac:(field_setter eta_DocumentVersion dv_parent_chunk_count).
Definition set_dv_error_code : option pystr -> DocumentVersion -> DocumentVersion :=
  ltac:(field_setter eta_DocumentVersion dv_error_code).
Definition set_dv_error_detail_redacted : option pystr -> DocumentVersion -> DocumentVersion :=
  ltac:(field_setter eta_DocumentVersion dv_error_detail_redacted).
Definition set_dv_published_at : option datetime -> DocumentVersion -> DocumentVersion :=
  ltac:(field_setter eta_DocumentVersion dv_published_at).
Definition set_dv_superseded_at : option datetime -> DocumentVersion -> DocumentVersion :=
  ltac:(field_setter eta_DocumentVersion dv_superseded_at).
Definition set_dv_cleanup_after : option datetime -> DocumentVersion -> DocumentVersion :=
  ltac:(field_setter eta_DocumentVersion dv_cleanup_after).
Definition set_dv_index_cleaned_at : option datetime -> DocumentVersion -> DocumentVersion :=
  ltac:(field_setter eta_DocumentVersion dv_index_cleaned_at).
Definition set_dv_cleanup_error_code : option pystr -> DocumentVersion -> DocumentVersion :=
  ltac:(field_setter eta_DocumentVersion dv_cleanup_error_code).
Definition set_dv_updated_at : datetime -> DocumentVersion -> DocumentVersion :=
  ltac:(field_setter eta_DocumentVersion dv_updated_at).

Record IndexJob := mkIndexJob {
  ij_id : pystr;
  ij_document_version_id : pystr;
  ij_status : IndexJobStatus;
  ij_current_step : pystr;
  ij_progress : Z;
  ij_attempts : Z;
  ij_max_attempts : Z;
  ij_publication_fence : Z;
  ij_execution_fence : Z;
  ij_expected_current_version_id : option pystr;
  ij_owner_worker_id : option pystr;
  ij_lease_expires_at : option datetime;
  ij_heartbeat_at : option datetime;
  ij_next_retry_at : option datetime;
  ij_error_code : option pystr;
  ij_error_detail_redacted : option pystr;
  ij_step_state_json : list (pystr * json);
  ij_started_at : option datetime;
  ij_finished_at : option datetime;
  ij_created_at : datetime;
  ij_updated_at : datetime
}.

Definition eta_IndexJob (r : IndexJob) : IndexJob :=
  mkIndexJob (ij_id r) (ij_document_version_id r) (ij_status r) (ij_current_step r)
    (ij_progress r) (ij_attempts r) (ij_max_attempts r) (ij_publication_fence r)
    (ij_execution_fence r) (ij_expected_current_version_id r) (ij_owner_worker_id r)
    (ij_lease_expires_at r) (ij_heartbeat_at r) (ij_next_retry_at r) (ij_error_code r)
    (ij_error_detail_redacted r) (ij_step_state_json r) (ij_started_at r) (ij_finished_at r)
    (ij_created_at r) (ij_updated_at r).
Definition set_ij_status : IndexJobStatus -> IndexJob -> IndexJob :=
  ltac:(field_setter eta_IndexJob ij_status).
Definition set_ij_current_step : pystr -> IndexJob -> IndexJob :=
  ltac:(field_setter eta_IndexJob ij_current_step).
Definition set_ij_progress : Z -> IndexJob -> IndexJob :=
  ltac:(field_setter eta_IndexJob ij_progress).
Definition set_ij_attempts : Z -> IndexJob -> IndexJob :=
  ltac:(field_setter eta_IndexJob ij_attempts).
Definition set_ij_execution_fence : Z -> IndexJob -> IndexJob :=
  ltac:(field_setter eta_IndexJob ij_execution_fence).
Definition set_ij_owner_worker_id : option pystr -> IndexJob -> IndexJob :=
  ltac:(field_setter eta_IndexJob ij_owner_worker_id).
Definition set_ij_lease_expires_at : option datetime -> IndexJob -> IndexJob :=
  ltac:(field_setter eta_IndexJob ij_lease_expires_at).
Definition set_ij_heartbeat_at : option datetime -> IndexJob -> IndexJob :=
  ltac:(field_setter eta_IndexJob ij_heartbeat_at).
Definition set_ij_next_retry_at : option datetime -> IndexJob -> IndexJob :=
  ltac:(field_setter eta_IndexJob ij_next_retry_at).
Definition set_ij_error_code : option pystr -> IndexJob -> IndexJob :=
  ltac:(field_setter eta_IndexJob ij_error_code).
Definition set_ij_error_detail_redacted : option pystr -> IndexJob -> IndexJob :=
  ltac:(field_setter eta_IndexJob ij_error_detail_redacted).
Definition set_ij_step_state_json : list (pystr * json) -> IndexJob -> IndexJob :=
  ltac:(field_setter eta_IndexJob ij_step_state_json).
Definition set_ij_started_at : option datetime -> IndexJob -> IndexJob :=
  ltac:(field_setter eta_IndexJob ij_started_at).
Definition set_ij_finished_at : option datetime -> IndexJob -> IndexJob :=
  ltac:(field_setter eta_IndexJob ij_finished_at).
Definition set_ij_updated_at : datetime -> IndexJob -> IndexJob :=
  ltac:(field_setter eta_IndexJob ij_updated_at).

Record IndexManifest := mkIndexManifest {
  mf_id : Z;
  mf_document_version_id : pystr;
  mf_chunk_id : pystr;
  mf_store_kind : pystr;
  mf_section_id : pystr;
  mf_chunk_level : Z;
  mf_content_hash : pystr;
  mf_indexed_at : datetime
}.


Record DocumentCleanupJob := mkDocumentCleanupJob {
  cj_id : pystr;
  cj_document_version_id : pystr;
  cj_status : CleanupJobStatus;
  cj_current_step : pystr;
  cj_attempts : Z;
  cj_max_attempts : Z;
  cj_owner_worker_id : option pystr;
  cj_execution_fence : Z;
  cj_lease_expires_at : option datetime;
  cj_heartbeat_at : option datetime;
  cj_next_retry_at : option datetime;
  cj_error_code : option pystr;
  cj_error_detail_redacted : option pystr;
  cj_step_state_json : list (pystr * json);
  cj_started_at : option datetime;
  cj_finished_at : option datetime;
  cj_created_at : datetime;
  cj_updated_at : datetime
}.

Definition eta_DocumentCleanupJob (r : DocumentCleanupJob) : DocumentCleanupJob :=
  mkDocumentCleanupJob (cj_id r) (cj_document_version_id r) (cj_status r) (cj_current_step r)
    (cj_attempts r) (cj_max_attempts r) (cj_owner_worker_id r) (cj_execution_fence r)
    (cj_lease_expires_at r) (cj_heartbeat_at r) (cj_next_retry_at r) (cj_error_code r)
    (cj_error_detail_redacted r) (cj_step_state_json r) (cj_started_at r) (cj_finished_at r)
    (cj_created_at r) (cj_updated_at r).
Definition set_cj_status : CleanupJobStatus -> DocumentCleanupJob -> DocumentCleanupJob :=
  ltac:(field_setter eta_DocumentCleanupJob cj_status).
Definition set_cj_current_step : pystr -> DocumentCleanupJob -> DocumentCleanupJob :=
  ltac:(field_setter eta_DocumentCleanupJob cj_current_step).
Definition set_cj_attempts : Z -> DocumentCleanupJob -> DocumentCleanupJob :=
  ltac:(field_setter eta_DocumentCleanupJob cj_attempts).
Definition set_cj_max_attempts : Z -> DocumentCleanupJob -> DocumentCleanupJob :=
  ltac:(field_setter eta_DocumentCleanupJob cj_max_attempts).
Definition set_cj_owner_worker_id : option pystr -> DocumentCleanupJob -> DocumentCleanupJob :=
  ltac:(field_setter eta_DocumentCleanupJob cj_owner_worker_id).
Definition set_cj_execution_fence : Z -> DocumentCleanupJob -> DocumentCleanupJob :=
  ltac:(field_setter eta_DocumentCleanupJob cj_execution_fence).
Definition set_cj_lease_expires_at : option datetime -> DocumentCleanupJob -> DocumentCleanupJob :=
  ltac:(field_setter eta_DocumentCleanupJob cj_lease_expires_at).
Definition set_cj_heartbeat_at : option datetime -> DocumentCleanupJob -> DocumentCleanupJob :=
  ltac:(field_setter eta_DocumentCleanupJob cj_heartbeat_at).
Definition set_cj_next_retry_at : option datetime -> DocumentCleanupJob -> DocumentCleanupJob :=
  ltac:(field_setter eta_DocumentCleanupJob cj_next_retry_at).
Definition set_cj_error_code : option pystr -> DocumentCleanupJob -> DocumentCleanupJob :=
  ltac:(field_setter eta_DocumentCleanupJob cj_error_code).
Definition set_cj_error_detail_redacted : option pystr -> DocumentCleanupJob -> DocumentCleanupJob :=
  ltac:(field_setter eta_DocumentCleanupJob cj_error_detail_redacted).
Definition set_cj_step_state_json : list (pystr * json) -> DocumentCleanupJob -> DocumentCleanupJob :=
  ltac:(field_setter eta_DocumentCleanupJob cj_step_state_json).
Definition set_cj_started_at : option datetime -> DocumentCleanupJob -> DocumentCleanupJob :=
  ltac:(field_setter eta_DocumentCleanupJob cj_started_at).
Definition set_cj_finished_at : option datetime -> DocumentCleanupJob -> DocumentCleanupJob :=
  ltac:(field_setter eta_DocumentCleanupJob cj_finished_at).
Definition set_cj_updated_at : datetime -> DocumentCleanupJob -> DocumentCleanupJob :=
  ltac:(field_setter eta_DocumentCleanupJob cj_updated_at).

Record DocumentRetirementJob := mkDocumentRetirementJob {
  rj_id : pystr;
  rj_document_id : pystr;
  rj_tenant_id : pystr;
  rj_canonical_name : pystr;
  rj_publication_fence : Z;
  rj_cleanup_version_ids_json : list pystr;
  rj_error_code : option pystr;
  rj_created_at : datetime;
  rj_updated_at : datetime
}.

Definition eta_DocumentRetirementJob (r : DocumentRetirementJob) : DocumentRetirementJob :=
  mkDocumentRetirementJob (rj_id r) (rj_document_id r) (rj_tenant_id r) (rj_canonical_name r)
    (rj_publication_fence r) (rj_cleanup_version_ids_json r) (rj_error_code r) (rj_created_at r)
    (rj_updated_at r).
Definition set_rj_publication_fence : Z -> DocumentRetirementJob -> DocumentRetirementJob :=
  ltac:(field_setter eta_DocumentRetirementJob rj_publication_fence).
Definition set_rj_cleanup_version_ids_json : list pystr -> DocumentRetirementJob -> DocumentRetirementJob :=
  ltac:(field_setter eta_DocumentRetirementJob rj_cleanup_version_ids_json).
Definition set_rj_error_code : option pystr -> DocumentRetirementJob -> DocumentRetirementJob :=
  ltac:(field_setter eta_DocumentRetirementJob rj_error_code).
Definition set_rj_updated_at : datetime -> DocumentRetirementJob -> DocumentRetirementJob :=
  ltac:(field_setter eta_DocumentRetirementJob rj_updated_at).

Record WorkerHeartbeat := mkWorkerHeartbeat {
  wh_worker_id : pystr;
  wh_worker_kind : pystr;
  wh_status : WorkerStatus;
  wh_started_at : datetime;
  wh_heartbeat_at : datetime;
  wh_stopped_at : option datetime;
  wh_metadata_json : list (pystr * json);
  wh_created_at : datetime;
  wh_updated_at : datetime
}.

Definition eta_WorkerHeartbeat (r : WorkerHeartbeat) : WorkerHeartbeat :=
  mkWorkerHeartbeat (wh_worker_id r) (wh_worker_kind r) (wh_status r) (wh_started_at r)
    (wh_heartbeat_at r) (wh_stopped_at r) (wh_metadata_json r) (wh_created_at r)
    (wh_updated_at r).
Definition set_wh_worker_kind : pystr -> WorkerHeartbeat -> WorkerHeartbeat :=
  ltac:(field_setter eta_WorkerHeartbeat wh_worker_kind).
Definition set_wh_status : WorkerStatus -> WorkerHeartbeat -> WorkerHeartbeat :=
  ltac:(field_setter eta_WorkerHeartbeat wh_status).
Definition set_wh_started_at : datetime -> WorkerHeartbeat -> WorkerHeartbeat :=
  ltac:(field_setter eta_WorkerHeartbeat wh_started_at).
Definition set_wh_heartbeat_at : datetime -> WorkerHeartbeat -> WorkerHeartbeat :=
  ltac:(field_setter eta_WorkerHeartbeat wh_heartbeat_at).
Definition set_wh_stopped_at : option datetime -> WorkerHeartbeat -> WorkerHeartbeat :=
  ltac:(field_setter eta_WorkerHeartbeat wh_stopped_at).
Definition set_wh_metadata_json : list (pystr * json) -> WorkerHeartbeat -> WorkerHeartbeat :=
  ltac:(field_setter eta_WorkerHeartbeat wh_metadata_json).
Definition set_wh_updated_at : datetime -> WorkerHeartbeat -> WorkerHeartbeat :=
  ltac:(field_setter eta_WorkerHeartbeat wh_updated_at).

(** ** The catalogue's tables *)

Record CatalogDb := mkCatalogDb {
  c_kbs : gmap pystr KnowledgeBase;
  c_docs : gmap pystr Document;
  c_versions : gmap pystr DocumentVersion;
  c_jobs : gmap pystr IndexJob;
  c_manifests : gmap Z IndexManifest;
  c_cleanups : gmap pystr DocumentCleanupJob;
  c_retirements : gmap pystr DocumentRetirementJob;
  c_workers : gmap pystr WorkerHeartbeat
}.

Definition eta_CatalogDb (r : CatalogDb) : CatalogDb :=
  mkCatalogDb (c_kbs r) (c_docs r) (c_versions r) (c_jobs r) (c_manifests r) (c_cleanups r)
    (c_retirements r) (c_workers r).
Definition set_c_kbs : gmap pystr KnowledgeBase -> CatalogDb -> CatalogDb :=
  ltac:(field_setter eta_CatalogDb c_kbs).
Definition set_c_docs : gmap pystr Document -> CatalogDb -> CatalogDb :=
  ltac:(field_setter eta_CatalogDb c_docs).
Definition set_c_versions : gmap pystr DocumentVersion -> CatalogDb -> CatalogDb :=
  ltac:(field_setter eta_CatalogDb c_versions).
Definition set_c_jobs : gmap pystr IndexJob -> CatalogDb -> CatalogDb :=
  ltac:(field_setter eta_CatalogDb c_jobs).
Definition set_c_manifests : gmap Z IndexManifest -> CatalogDb -> CatalogDb :=
  ltac:(field_setter eta_CatalogDb c_manifests).
Definition set_c_cleanups : gmap pystr DocumentCleanupJob -> CatalogDb -> CatalogDb :=
  ltac:(field_setter eta_CatalogDb c_cleanups).
Definition set_c_retirements : gmap pystr DocumentRetirementJob -> CatalogDb -> CatalogDb :=
  ltac:(field_setter eta_CatalogDb c_retirements).
Definition set_c_workers : gmap pystr WorkerHeartbeat -> CatalogDb -> CatalogDb :=
  ltac:(field_setter eta_CatalogDb c_workers).

(** Writing a row under its primary key. *)
Definition put_kb (r : KnowledgeBase) (db : CatalogDb) : CatalogDb :=
  set_c_kbs (<[kb_id r := r]> (c_kbs db)) db.
Definition put_doc (r : Document) (db : CatalogDb) : CatalogDb :=
  set_c_docs (<[doc_id r := r]> (c_docs db)) db.
Definition put_version (r : DocumentVersion) (db : CatalogDb) : CatalogDb :=
  set_c_versions (<[dv_id r := r]> (c_versions db)) db.
Definition put_job (r : IndexJob) (db : CatalogDb) : CatalogDb :=
  set_c_jobs (<[ij_id r := r]> (c_jobs db)) db.
Definition put_manifest (r : IndexManifest) (db : CatalogDb) : CatalogDb :=
  set_c_manifests (<[mf_id r := r]> (c_manifests db)) db.
Definition put_cleanup (r : DocumentCleanupJob) (db : CatalogDb) : CatalogDb :=
  set_c_cleanups (<[cj_id r := r]> (c_cleanups db)) db.
Definition put_retirement (r : DocumentRetirementJob) (db : CatalogDb) : CatalogDb :=
  set_c_retirements (<[rj_id r := r]> (c_retirements db)) db.
Definition put_worker (r : WorkerHeartbeat) (db : CatalogDb) : CatalogDb :=
  set_c_workers (<[wh_worker_id r := r]> (c_workers db)) db.

(** ** Constraints *)

(** [uq_knowledge_base_tenant_name] *)
Definition idx_kb_name (k : KnowledgeBase) : option (pystr * pystr) :=
  Some (kb_tenant_id k, kb_name k).
(** [uq_document_canonical_name] *)
Definition idx_doc_name (d : Document) : option (pystr * pystr) :=
  Some (doc_knowledge_base_id d, doc_canonical_name d).
(** [uq_document_content_build_active], partial on the active statuses. *)
Definition idx_version_active (v : DocumentVersion) : option (pystr * pystr * pystr) :=
  if version_active (dv_status v)
  then Some (dv_document_id v, dv_content_sha256 v, dv_build_fingerprint v) else None.
(** [uq_document_version_number] *)
Definition idx_version_number (v : DocumentVersion) : option (pystr * Z) :=
  Some (dv_document_id v, dv_version_number v).
(** [uq_index_job_document_version] *)
Definition idx_job_version (j : IndexJob) : option pystr := Some (ij_document_version_id j).
(** [uq_document_cleanup_job_document_version] *)
Definition idx_cleanup_version (c : DocumentCleanupJob) : option pystr :=
  Some (cj_document_version_id c).
(** [uq_index_manifest_chunk] *)
Definition idx_manifest_chunk (m : IndexManifest) : option (pystr * pystr * pystr) :=
  Some (mf_document_version_id m, mf_store_kind m, mf_chunk_id m).

Definition catalog_constraints (db : CatalogDb) : bool :=
  unique_index idx_kb_name (c_kbs db)
  && unique_index idx_doc_name (c_docs db)
  && unique_index idx_version_active (c_versions db)
  && unique_index idx_version_number (c_versions db)
  && unique_index idx_job_version (c_jobs db)
  && unique_index idx_cleanup_version (c_cleanups db)
  && unique_index idx_manifest_chunk (c_manifests db).

#[export] Instance catalog_store : Store CatalogDb := catalog_constraints.

(** The constraints as a proposition, one clause per index. *)
Record catalog_schema_ok (db : CatalogDb) : Prop := mkCatalogSchemaOk {
  cok_kb_name : unique_prop idx_kb_name (c_kbs db);
  cok_doc_name : unique_prop idx_doc_name (c_docs db);
  cok_version_active : unique_prop idx_version_active (c_versions db);
  cok_version_number : unique_prop idx_version_number (c_versions db);
  cok_job_version : unique_prop idx_job_version (c_jobs db);
  cok_cleanup_version : unique_prop idx_cleanup_version (c_cleanups db);
  cok_manifest_chunk : unique_prop idx_manifest_chunk (c_manifests db)
}.

Lemma catalog_constraints_spec db : catalog_constraints db = true <-> catalog_schema_ok db.
Proof.
  unfold catalog_constraints. rewrite !andb_true_iff, !unique_index_spec.
  split; [intros H; destruct_and! H; by constructor|intros []; tauto].
Qed.

Definition empty_catalog : CatalogDb := mkCatalogDb ∅ ∅ ∅ ∅ ∅ ∅ ∅ ∅.
