(* ===== verification/Catalog.v ===== *)
(** * The document catalogue

    [backend/documents/catalog.py], first part: input validation, the records
    the methods return, the guards on execution leases and publication fences,
    and the life of a candidate version from its upload reservation through its
    manifest to its publication. Row locks make each method one atomic step;
    times are naive UTC instants. *)

From S2P Require Import Prelude PyBase Errors Session CatalogSchema.

Open Scope Z_scope.

Abbreviation CM := (Sess CatalogDb).

(** What the catalogue takes from the standard library's data tables: the
    SHA-256 hex digest of a document's canonical JSON text, NFC normalisation,
    ISO rendering of an instant, [repr] of the JSON values [str] does not render
    as text, and [int] of a text. *)
Record CatalogEnv := mkCatalogEnv {
  ce_digest : json -> pystr;
  ce_nfc : pystr -> pystr;
  ce_isoformat : datetime -> pystr;
  ce_repr : json -> pystr;
  ce_int_text : pystr -> option Z
}.

(** ** Records *)

Record BuildProfile := mkBuildProfile {
  bp_parser_version : pystr;
  bp_chunker_version : pystr;
  bp_embedding_model : pystr;
  bp_index_version : pystr
}.


Record ManifestEntry := mkManifestEntry {
  me_chunk_id : pystr;
  me_content_hash : pystr;
  me_store_kind : pystr;
  me_section_id : pystr;
  me_chunk_level : Z
}.


(** [KnowledgeBaseRecord] and [_knowledge_base_record] *)
Record KnowledgeBaseRecord := mkKnowledgeBaseRecord {
  kbr_id : pystr;
  kbr_tenant_id : pystr;
  kbr_name : pystr;
  kbr_owner_id : Z;
  kbr_status : pystr;
  kbr_catalog_revision : Z
}.


Definition _knowledge_base_record (row : KnowledgeBase) : KnowledgeBaseRecord := {|
  kbr_id := kb_id row;
  kbr_tenant_id := kb_tenant_id row;
  kbr_name := kb_name row;
  kbr_owner_id := kb_owner_id row;
  kbr_status := kb_status row;
  kbr_catalog_revision := kb_catalog_revision row
|}.

(** [DocumentVersionRecord] and [_version_record] *)
Record DocumentVersionRecord := mkDocumentVersionRecord {
  vr_id : pystr;
  vr_document_id : pystr;
  vr_content_sha256 : pystr;
  vr_build_fingerprint : pystr;
  vr_version_number : Z;
  vr_source_object_key : pystr;
  vr_media_type : pystr;
  vr_size_bytes : Z;
  vr_parser_version : pystr;
  vr_chunker_version : pystr;
  vr_embedding_model : pystr;
  vr_index_version : pystr;
  vr_vector_collection : pystr;
  vr_status : DocumentVersionStatus;
  vr_chunk_count : Z;
  vr_parent_chunk_count : Z;
  vr_error_code : option pystr;
  vr_published_at : option datetime;
  vr_superseded_at : option datetime;
  vr_cleanup_after : option datetime;
  vr_index_cleaned_at : option datetime;
  vr_cleanup_error_code : option pystr;
  vr_created_at : datetime;
  vr_updated_at : datetime
}.


Definition _version_record (row : DocumentVersion) : DocumentVersionRecord := {|
  vr_id := dv_id row;
  vr_document_id := dv_document_id row;
  vr_content_sha256 := dv_content_sha256 row;
  vr_build_fingerprint := dv_build_fingerprint row;
  vr_version_number := dv_version_number row;
  vr_source_object_key := dv_source_object_key row;
  vr_media_type := dv_media_type row;
  vr_size_bytes := dv_size_bytes row;
  vr_parser_version := dv_parser_version row;
  vr_chunker_version := dv_chunker_version row;
  vr_embedding_model := dv_embedding_model row;
  vr_index_version := dv_index_version row;
  vr_vector_collection := dv_vector_collection row;
  vr_status := dv_status row;
  vr_chunk_count := dv_chunk_count row;
  vr_parent_chunk_count := dv_parent_chunk_count row;
  vr_error_code := dv_error_code row;
  vr_published_at := dv_published_at row;
  vr_superseded_at := dv_superseded_at row;
  vr_cleanup_after := dv_cleanup_after row;
  vr_index_cleaned_at := dv_index_cleaned_at row;
  vr_cleanup_error_code := dv_cleanup_error_code row;
  vr_created_at := dv_created_at row;
  vr_updated_at := dv_updated_at row
|}.

(** [IndexJobRecord] and [_job_record] *)
Record IndexJobRecord := mkIndexJobRecord {
  jr_id : pystr;
  jr_document_id : pystr;
  jr_document_version_id : pystr;
  jr_canonical_name : pystr;
  jr_tenant_id : pystr;
  jr_status : IndexJobStatus;
  jr_current_step : pystr;
  jr_progress : Z;
  jr_attempts : Z;
  jr_max_attempts : Z;
  jr_publication_fence : Z;
  jr_execution_fence : Z;
  jr_expected_current_version_id : option pystr;
  jr_owner_worker_id : option pystr;
  jr_lease_expires_at : option datetime;
  jr_heartbeat_at : option datetime;
  jr_next_retry_at : option datetime;
  jr_error_code : option pystr;
  jr_step_state_json : list (pystr * json);
  jr_started_at : option datetime;
  jr_finished_at : option datetime;
  jr_created_at : datetime;
  jr_updated_at : datetime
}.


Definition _job_record (row : IndexJob) (document : Document) : IndexJobRecord := {|
  jr_id := ij_id row;
  jr_document_id := doc_id document;
  jr_document_version_id := ij_document_version_id row;
  jr_canonical_name := doc_canonical_name document;
  jr_tenant_id := doc_tenant_id document;
  jr_status := ij_status row;
  jr_current_step := ij_current_step row;
  jr_progress := ij_progress row;
  jr_attempts := ij_attempts row;
  jr_max_attempts := ij_max_attempts row;
  jr_publication_fence := ij_publication_fence row;
  jr_execution_fence := ij_execution_fence row;
  jr_expected_current_version_id := ij_expected_current_version_id row;
  jr_owner_worker_id := ij_owner_worker_id row;
  jr_lease_expires_at := ij_lease_expires_at row;
  jr_heartbeat_at := ij_heartbeat_at row;
  jr_next_retry_at := ij_next_retry_at row;
  jr_error_code := ij_error_code row;
  jr_step_state_json := ij_step_state_json row;
  jr_started_at := ij_started_at row;
  jr_finished_at := ij_finished_at row;
  jr_created_at := ij_created_at row;
  jr_updated_at := ij_updated_at row
|}.

(** [CleanupJobRecord] and [_cleanup_job_record] *)
Record CleanupJobRecord := mkCleanupJobRecord {
  cr_id : pystr;
  cr_document_version_id : pystr;
  cr_status : CleanupJobStatus;
  cr_current_step : pystr;
  cr_attempts : Z;
  cr_max_attempts : Z;
  cr_owner_worker_id : option pystr;
  cr_execution_fence : Z;
  cr_lease_expires_at : option datetime;
  cr_heartbeat_at : option datetime;
  cr_next_retry_at : option datetime;
  cr_error_code : option pystr;
  cr_step_state_json : list (pystr * json);
  cr_started_at : option datetime;
  cr_finished_at : option datetime;
  cr_created_at : datetime;
  cr_updated_at : datetime
}.


Definition _cleanup_job_record (row : DocumentCleanupJob) : CleanupJobRecord := {|
  cr_id := cj_id row;
  cr_document_version_id := cj_document_version_id row;
  cr_status := cj_status row;
  cr_current_step := cj_current_step row;
  cr_attempts := cj_attempts row;
  cr_max_attempts := cj_max_attempts row;
  cr_owner_worker_id := cj_owner_worker_id row;
  cr_execution_fence := cj_execution_fence row;
  cr_lease_expires_at := cj_lease_expires_at row;
  cr_heartbeat_at := cj_heartbeat_at row;
  cr_next_retry_at := cj_next_retry_at row;
  cr_error_code := cj_error_code row;
  cr_step_state_json := cj_step_state_json row;
  cr_started_at := cj_started_at row;
  cr_finished_at := cj_finished_at row;
  cr_created_at := cj_created_at row;
  cr_updated_at := cj_updated_at row
|}.

(** [RetirementJobRecord] and [_retirement_job_record] *)
Record RetirementJobRecord := mkRetirementJobRecord {
  rtr_id : pystr;
  rtr_document_id : pystr;
  rtr_tenant_id : pystr;
  rtr_canonical_name : pystr;
  rtr_publication_fence : Z;
  rtr_cleanup_version_ids_json : list pystr;
  rtr_error_code : option pystr;
  rtr_created_at : datetime;
  rtr_updated_at : datetime
}.


Definition _retirement_job_record (row : DocumentRetirementJob) : RetirementJobRecord := {|
  rtr_id := rj_id row;
  rtr_document_id := rj_document_id row;
  rtr_tenant_id := rj_tenant_id row;
  rtr_canonical_name := rj_canonical_name row;
  rtr_publication_fence := rj_publication_fence row;
  rtr_cleanup_version_ids_json := rj_cleanup_version_ids_json row;
  rtr_error_code := rj_error_code row;
  rtr_created_at := rj_created_at row;
  rtr_updated_at := rj_updated_at row
|}.

Record DocumentRecord := mkDocumentRecord {
  dr_id : pystr;
  dr_tenant_id : pystr;
  dr_knowledge_base_id : pystr;
  dr_canonical_name : pystr;
  dr_owner_id : Z;
  dr_status : pystr;
  dr_publication_fence : Z;
  dr_version_counter : Z;
  dr_catalog_revision : Z;
  dr_current_version : option DocumentVersionRecord;
  dr_pending_version : option DocumentVersionRecord;
  dr_pending_job : option IndexJobRecord;
  dr_deleted_at : option datetime;
  dr_created_at : datetime;
  dr_updated_at : datetime
}.


Record UploadReservation := mkUploadReservation {
  ur_document : DocumentRecord;
  ur_version : DocumentVersionRecord;
  ur_job : IndexJobRecord;
  ur_created : bool;
  ur_requeued : bool;
  ur_already_current : bool;
  ur_publication_fence : Z;
  ur_expected_current_version_id : option pystr
}.


Record VersionBuild := mkVersionBuild {
  vb_job : IndexJobRecord;
  vb_document : DocumentRecord;
  vb_version : DocumentVersionRecord
}.


Record IndexJobExecution := mkIndexJobExecution {
  ix_worker_id : pystr;
  ix_execution_fence : Z
}.


Record CleanupJobExecution := mkCleanupJobExecution {
  cx_worker_id : pystr;
  cx_execution_fence : Z
}.


Record CleanupBuild := mkCleanupBuild {
  cb_job : CleanupJobRecord;
  cb_document : DocumentRecord;
  cb_version : DocumentVersionRecord
}.


Record PublicationResult := mkPublicationResult {
  pr_document : DocumentRecord;
  pr_version : DocumentVersionRecord;
  pr_previous_version : option DocumentVersionRecord;
  pr_published : bool
}.


(** ** Validation *)

Definition catalog_conflict (message : pystr) : exn := EApp (app_error3 CONFLICT message 409).
Definition catalog_conflict_retry (message : pystr) : exn :=
  EApp (app_error CONFLICT message 409 true [] None None).
Definition catalog_not_found (message : pystr) : exn := EApp (app_error3 NOT_FOUND message 404).

Section Catalog.
Context (env : CatalogEnv).

Definition _required_text (value field : pystr) (maximum : Z) : CM pystr :=
  let normalized := py_strip (ce_nfc env value) in
  if negb (py_nonempty normalized) || (maximum <? py_len normalized)
  then raise (invalid_request
         (field +++ " 必须为 1-"%py +++ py_str_int maximum +++ " 个字符"%py)%py)
  else mret normalized.

Definition _content_hash (value : pystr) : CM pystr :=
  let normalized := py_lower (py_strip value) in
  if is_hex_digest normalized then mret normalized
  else raise (invalid_request "content_sha256 必须是 64 位十六进制摘要"%py).

(** [str(value or "").strip()[:n]] *)
Definition clipped (n : nat) (value : pystr) : pystr := py_take n (py_strip value).

(** [str(detail or "")[:2000] or None] *)
Definition redacted (detail : option pystr) : option pystr :=
  let d := py_take 2000 (default (PyStr []) detail) in
  if py_nonempty d then Some d else None.

(** [BuildProfile.fingerprint] *)
Definition fingerprint (p : BuildProfile) : pystr :=
  ce_digest env (JObj [
    ("chunker_version"%py, JStr (bp_chunker_version p));
    ("embedding_model"%py, JStr (bp_embedding_model p));
    ("index_version"%py, JStr (bp_index_version p));
    ("parser_version"%py, JStr (bp_parser_version p));
    ("schema_version"%py, JInt 1)]).

Definition _new_id (prefix : pystr) : CM pystr :=
  u ← uuid4_hex; mret (prefix +++ "_"%py +++ u)%py.

(** [_database_now] and [_lease_clock] *)
Definition _database_now : CM datetime := utcnow.
Definition _lease_clock (override : option datetime) : CM datetime :=
  match override with Some t => mret t | None => _database_now end.

(** ** Row writes *)

Definition save_kb (r : KnowledgeBase) : CM unit := modify_db (put_kb r).
Definition save_doc (r : Document) : CM unit := modify_db (put_doc r).
Definition save_version (r : DocumentVersion) : CM unit := modify_db (put_version r).
Definition save_job (r : IndexJob) : CM unit := modify_db (put_job r).
Definition save_cleanup (r : DocumentCleanupJob) : CM unit := modify_db (put_cleanup r).

(** An insertion under a primary key that is taken violates its constraint. *)
Definition add_kb (r : KnowledgeBase) : CM unit :=
  db ← get_db; raise_if (bool_decide (is_Some (c_kbs db !! kb_id r))) EIntegrity;; save_kb r.
Definition add_doc (r : Document) : CM unit :=
  db ← get_db; raise_if (bool_decide (is_Some (c_docs db !! doc_id r))) EIntegrity;; save_doc r.
Definition add_version (r : DocumentVersion) : CM unit :=
  db ← get_db;
  raise_if (bool_decide (is_Some (c_versions db !! dv_id r))) EIntegrity;; save_version r.
Definition add_job (r : IndexJob) : CM unit :=
  db ← get_db; raise_if (bool_decide (is_Some (c_jobs db !! ij_id r))) EIntegrity;; save_job r.
Definition add_cleanup (r : DocumentCleanupJob) : CM unit :=
  db ← get_db;
  raise_if (bool_decide (is_Some (c_cleanups db !! cj_id r))) EIntegrity;; save_cleanup r.

(** [update(Document).where(id, cond).values(f)]; the number of rows changed. *)
Definition update_document (did : pystr) (cond : Document -> bool) (f : Document -> Document) :
    CM Z :=
  db ← get_db;
  match c_docs db !! did with
  | Some d => if cond d then save_doc (f d);; mret 1 else mret 0
  | None => mret 0
  end.

(** [_bump_revision] *)
Definition _bump_revision (k : KnowledgeBase) (now : datetime) : CM unit :=
  save_kb (set_kb_updated_at now (set_kb_catalog_revision (kb_catalog_revision k + 1) k)).

(** ** Guards *)

Definition index_terminal (s : IndexJobStatus) : bool :=
  match s with
  | J_COMPLETED | J_FAILED | J_CANCELLED | J_DEAD_LETTER => true
  | _ => false
  end.

Definition lease_expired (lease : option datetime) (now : datetime) : bool :=
  match lease with Some t => t <=? now | None => true end.

Definition stale_index_lease (fence : Z) : exn :=
  EApp (app_error CONFLICT "索引任务 execution lease 已失效"%py 409 false
          [("current_execution_fence"%py, JInt fence)] None None).
Definition stale_cleanup_lease (fence : Z) : exn :=
  EApp (app_error CONFLICT "清理任务 execution lease 已失效"%py 409 false
          [("current_execution_fence"%py, JInt fence)] None None).

Definition _assert_index_execution (job : IndexJob) (execution : option IndexJobExecution)
    (now : datetime) : CM unit :=
  match execution with
  | None =>
      match ij_owner_worker_id job with
      | None => mret tt
      | Some _ => raise (catalog_conflict "索引任务已由 worker 领取，写入必须携带 execution fence"%py)
      end
  | Some x =>
      raise_if (bool_decide (ij_owner_worker_id job <> Some (ix_worker_id x))
                || negb (ij_execution_fence job =? ix_execution_fence x)
                || lease_expired (ij_lease_expires_at job) now)
        (stale_index_lease (ij_execution_fence job))
  end.

Definition _assert_cleanup_execution (job : DocumentCleanupJob) (x : CleanupJobExecution)
    (now : datetime) : CM unit :=
  raise_if (bool_decide (cj_owner_worker_id job <> Some (cx_worker_id x))
            || negb (cj_execution_fence job =? cx_execution_fence x)
            || bool_decide (cj_status job <> C_RUNNING)
            || lease_expired (cj_lease_expires_at job) now)
    (stale_cleanup_lease (cj_execution_fence job)).

(** [_assert_candidate] *)
Definition _assert_candidate (document : Document) (job : IndexJob) (version : DocumentVersion)
    (publication_fence : Z) : CM unit :=
  raise_if (index_terminal (ij_status job))
    (catalog_conflict ("终态索引任务 "%py +++ index_status_value (ij_status job)
                         +++ " 不能继续写入候选版本"%py)%py);;
  raise_if (negb (publication_fence =? ij_publication_fence job)
            || negb (publication_fence =? doc_publication_fence document)
            || bool_decide (doc_pending_version_id document <> Some (dv_id version)))
    (EApp (app_error CONFLICT "候选版本 fencing token 已失效"%py 409 false
             [("current_publication_fence"%py, JInt (doc_publication_fence document))]
             None None));;
  raise_if (bool_decide (is_Some (doc_deleted_at document)))
    (catalog_conflict "已删除文档不能继续发布"%py).

(** ** Queries *)

(** [_job_for_version] and the cleanup job of a version *)
Definition _job_for_version (db : CatalogDb) (vid : pystr) : option IndexJob :=
  first_where (fun j => bool_decide (ij_document_version_id j = vid)) (c_jobs db).
Definition cleanup_for_version (db : CatalogDb) (vid : pystr) : option DocumentCleanupJob :=
  first_where (fun c => bool_decide (cj_document_version_id c = vid)) (c_cleanups db).

(** [_knowledge_base] *)
Definition _knowledge_base (tenant_id knowledge_base_id : pystr) : CM KnowledgeBase :=
  db ← get_db;
  require (k ← c_kbs db !! knowledge_base_id;
           if bool_decide (kb_tenant_id k = tenant_id) && bool_decide (kb_status k = "active"%py)
           then Some k else None)
    (catalog_not_found "知识库不存在"%py).

(** The sort key of a row identifier. *)
Definition id_key (s : pystr) : list Z := Z.of_N <$> cps_of s.

(** [_document_query] *)
Definition _document_query (db : CatalogDb) (tenant_id canonical_name : pystr)
    (knowledge_base_id : option pystr) : list Document :=
  rows_where (fun d =>
    bool_decide (doc_tenant_id d = tenant_id) && bool_decide (doc_canonical_name d = canonical_name)
    && match knowledge_base_id with
       | Some k => bool_decide (doc_knowledge_base_id d = k)
       | None => true
       end) (c_docs db).

(** [_document] *)
Definition _document (tenant_id canonical_name : pystr) (knowledge_base_id : option pystr) :
    CM (option Document) :=
  db ← get_db;
  match take 2 (order_by_keys (fun d => id_key (doc_id d))
                  (_document_query db tenant_id canonical_name knowledge_base_id)) with
  | [] => mret None
  | [d] => mret (Some d)
  | _ => raise (catalog_conflict "canonical_name 在多个知识库中不唯一，请指定 knowledge_base_id"%py)
  end.

(** [_version_by_pointer] *)
Definition foreign_pointer : exn := catalog_conflict "文档版本指针不属于当前文档"%py.
Definition _version_by_pointer (document : Document) (version_id : option pystr) :
    CM (option DocumentVersion) :=
  db ← get_db;
  if negb (str_set version_id) then mret None
  else match version_id ≫= fun v => c_versions db !! v with
       | Some v => raise_if (bool_decide (dv_document_id v <> doc_id document)) foreign_pointer;;
                   mret (Some v)
       | None => raise foreign_pointer
       end.

(** The version and the job a pointer of a document row names. *)
Definition pointed_version (db : CatalogDb) (pointer : option pystr) : option DocumentVersion :=
  if str_set pointer then pointer ≫= fun v => c_versions db !! v else None.
Definition pointed_job (db : CatalogDb) (pointer : option pystr) : option IndexJob :=
  if str_set pointer then pointer ≫= _job_for_version db else None.

(** [_document_records] on one row and on the rows of a query *)
Definition document_record (document : Document) : CM DocumentRecord :=
  db ← get_db;
  let current := pointed_version db (doc_current_version_id document) in
  let pending := pointed_version db (doc_pending_version_id document) in
  raise_if (match current with
            | Some v => bool_decide (dv_document_id v <> doc_id document) | None => false end)
    foreign_pointer;;
  raise_if (match pending with
            | Some v => bool_decide (dv_document_id v <> doc_id document) | None => false end)
    foreign_pointer;;
  mret {|
    dr_id := doc_id document;
    dr_tenant_id := doc_tenant_id document;
    dr_knowledge_base_id := doc_knowledge_base_id document;
    dr_canonical_name := doc_canonical_name document;
    dr_owner_id := doc_owner_id document;
    dr_status := doc_status document;
    dr_publication_fence := doc_publication_fence document;
    dr_version_counter := doc_version_counter document;
    dr_catalog_revision :=
      default 0 (kb_catalog_revision <$> c_kbs db !! doc_knowledge_base_id document);
    dr_current_version := _version_record <$> current;
    dr_pending_version := _version_record <$> pending;
    dr_pending_job :=
      (fun j => _job_record j document) <$> pointed_job db (doc_pending_version_id document);
    dr_deleted_at := doc_deleted_at document;
    dr_created_at := doc_created_at document;
    dr_updated_at := doc_updated_at document
  |}.

Fixpoint _document_records (documents : list Document) : CM (list DocumentRecord) :=
  match documents with
  | [] => mret []
  | d :: rows => r ← document_record d; rs ← _document_records rows; mret (r :: rs)
  end.

(** A row the session has changed, as it reads it back. *)
Definition fresh_record (did : pystr) : CM DocumentRecord :=
  db ← get_db; d ← require (c_docs db !! did) ENone; document_record d.

(** The join of [_job_graph] for one job row. *)
Definition graph_of (db : CatalogDb) (j : IndexJob) :
    option (IndexJob * DocumentVersion * Document * KnowledgeBase) :=
  v ← c_versions db !! ij_document_version_id j;
  d ← c_docs db !! dv_document_id v;
  k ← c_kbs db !! doc_knowledge_base_id d;
  Some (j, v, d, k).

(** [_job_graph] *)
Definition _job_graph (job_id : pystr) (tenant_id : option pystr) :
    CM (IndexJob * DocumentVersion * Document * KnowledgeBase) :=
  db ← get_db;
  require (j ← c_jobs db !! job_id;
           g ← graph_of db j;
           let '(_, _, d, _) := g in
           match tenant_id with
           | Some t => if bool_decide (doc_tenant_id d = t) then Some g else None
           | None => Some g
           end)
    (catalog_not_found "索引任务不存在"%py).

(** ** Cleanup jobs of dead versions *)

(** [_ensure_cleanup_job] *)
Definition new_cleanup_job (cid vid : pystr) (max_attempts : Z) (next_retry_at created_at : datetime) :
    DocumentCleanupJob := {|
  cj_id := cid;
  cj_document_version_id := vid;
  cj_status := C_PENDING;
  cj_current_step := "pending"%py;
  cj_attempts := 0;
  cj_max_attempts := Z.max max_attempts 1;
  cj_owner_worker_id := None;
  cj_execution_fence := 0;
  cj_lease_expires_at := None;
  cj_heartbeat_at := None;
  cj_next_retry_at := Some next_retry_at;
  cj_error_code := None;
  cj_error_detail_redacted := None;
  cj_step_state_json := [];
  cj_started_at := None;
  cj_finished_at := None;
  cj_created_at := created_at;
  cj_updated_at := created_at
|}.

Definition sooner (t : datetime) (o : option datetime) : bool :=
  match o with Some u => t <? u | None => true end.

Definition _ensure_cleanup_job (vid : pystr) (next_retry_at : datetime) (max_attempts : Z) :
    CM unit :=
  db ← get_db;
  match cleanup_for_version db vid with
  | Some job =>
      if (bool_decide (cj_status job = C_PENDING) || bool_decide (cj_status job = C_RETRY_WAIT))
         && sooner next_retry_at (cj_next_retry_at job)
      then now ← utcnow;
           save_cleanup (set_cj_updated_at now (set_cj_next_retry_at (Some next_retry_at) job))
      else mret tt
  | None =>
      created_at ← utcnow;
      cid ← _new_id "cleanup"%py;
      add_cleanup (new_cleanup_job cid vid max_attempts next_retry_at created_at)
  end.

(** The index job of a version that leaves the catalogue before it is done. *)
Definition cancelled_job (now : datetime) (job : IndexJob) : IndexJob :=
  set_ij_updated_at now (set_ij_lease_expires_at None (set_ij_owner_worker_id None
    (set_ij_finished_at (Some now) (set_ij_current_step "superseded"%py
      (set_ij_status J_CANCELLED job))))).

Definition superseded_version (now cleanup_after : datetime) (v : DocumentVersion) :
    DocumentVersion :=
  set_dv_updated_at now (set_dv_cleanup_after (Some cleanup_after)
    (set_dv_superseded_at (Some now) (set_dv_status V_SUPERSEDED v))).

(** [_supersede_version] *)
Definition _supersede_version (version : DocumentVersion) (now cleanup_after : datetime)
    (cancel_job : bool) : CM DocumentVersion :=
  let version := superseded_version now cleanup_after version in
  save_version version;;
  db ← get_db;
  cleanup_attempts ←
    (if cancel_job
     then match _job_for_version db (dv_id version) with
          | Some job =>
              (if negb (index_terminal (ij_status job))
               then save_job (cancelled_job now job) else mret tt);;
              mret (ij_max_attempts job)
          | None => mret 3
          end
     else mret 3);
  _ensure_cleanup_job (dv_id version) cleanup_after cleanup_attempts;;
  mret version.

(** A body tried again once when a concurrent writer wins a unique key. *)
Definition retried {A} (body : CM A) (conflict : exn) : CM A :=
  catch (transaction body) (fun e =>
    match e with
    | EIntegrity =>
        catch (transaction body) (fun e' =>
          match e' with EIntegrity => raise conflict | _ => raise e' end)
    | _ => raise e
    end).

(** ** Knowledge bases *)

Definition kb_by_name (db : CatalogDb) (tenant name : pystr) : option KnowledgeBase :=
  first_where (fun k => bool_decide (kb_tenant_id k = tenant) && bool_decide (kb_name k = name))
    (c_kbs db).

Definition ensure_knowledge_base (tenant_id : pystr) (owner_id : Z) (name : pystr)
    (knowledge_base_id : option pystr) : CM KnowledgeBaseRecord :=
  tenant ← _required_text tenant_id "tenant_id"%py 64;
  normalized_name ← _required_text name "name"%py 160;
  retried (
    db ← get_db;
    match kb_by_name db tenant normalized_name with
    | Some row =>
        raise_if (negb (kb_owner_id row =? owner_id))
          (EApp (app_error3 PERMISSION_DENIED "无权使用该知识库"%py 403));;
        mret (_knowledge_base_record row)
    | None =>
        kid ← (match knowledge_base_id with
               | Some k => if py_nonempty k then mret k else _new_id "kb"%py
               | None => _new_id "kb"%py
               end);
        created_at ← utcnow;
        updated_at ← utcnow;
        let row := mkKnowledgeBase kid tenant normalized_name owner_id "active"%py 0
                     created_at updated_at in
        add_kb row;; flush;;
        mret (_knowledge_base_record row)
    end)
  (catalog_conflict_retry "知识库并发创建冲突，请重试"%py).

Definition find_knowledge_base (tenant_id name : pystr) : CM (option KnowledgeBaseRecord) :=
  tenant ← _required_text tenant_id "tenant_id"%py 64;
  normalized_name ← _required_text name "name"%py 160;
  db ← get_db;
  mret (_knowledge_base_record <$>
    first_where (fun k => bool_decide (kb_tenant_id k = tenant)
                          && bool_decide (kb_name k = normalized_name)
                          && bool_decide (kb_status k = "active"%py)) (c_kbs db)).

(** ** Upload reservation *)

Record UploadRequest := mkUploadRequest {
  up_tenant_id : pystr;
  up_knowledge_base_id : pystr;
  up_canonical_name : pystr;
  up_owner_id : Z;
  up_content_sha256 : pystr;
  up_source_object_key : pystr;
  up_media_type : pystr;
  up_size_bytes : Z;
  up_processing_profile : BuildProfile;
  up_vector_collection : pystr;
  up_max_attempts : Z
}.

(** The request after validation. *)
Record UploadInputs := mkUploadInputs {
  ui_tenant : pystr;
  ui_knowledge_base_key : pystr;
  ui_name : pystr;
  ui_digest : pystr;
  ui_source_key : pystr;
  ui_media : pystr;
  ui_profile : BuildProfile;
  ui_collection : pystr
}.

Definition upload_inputs (q : UploadRequest) : CM UploadInputs :=
  let p := up_processing_profile q in
  tenant ← _required_text (up_tenant_id q) "tenant_id"%py 64;
  kb_key ← _required_text (up_knowledge_base_id q) "knowledge_base_id"%py 64;
  name ← _required_text (up_canonical_name q) "canonical_name"%py 255;
  digest ← _content_hash (up_content_sha256 q);
  source_key ← _required_text (up_source_object_key q) "source_object_key"%py 512;
  let media := clipped 160 (up_media_type q) in
  raise_if ((up_size_bytes q <? 0) || (up_max_attempts q <? 1))
    (invalid_request "size_bytes 和 max_attempts 必须为有效正数"%py);;
  parser ← _required_text (bp_parser_version p) "parser_version"%py 64;
  chunker ← _required_text (bp_chunker_version p) "chunker_version"%py 64;
  let embedding := clipped 160 (bp_embedding_model p) in
  index ← _required_text (bp_index_version p) "index_version"%py 64;
  let collection := clipped 160 (up_vector_collection q) in
  mret (mkUploadInputs tenant kb_key name digest source_key media
          (mkBuildProfile parser chunker embedding index) collection).

(** The document row of the name, created when the name is new. *)
Definition new_document (did : pystr) (i : UploadInputs) (owner_id : Z)
    (created_at updated_at : datetime) : Document :=
  mkDocument did (ui_tenant i) (ui_knowledge_base_key i) (ui_name i) owner_id None None 0 0
    "pending"%py None created_at updated_at.

Definition document_for_upload (q : UploadRequest) (i : UploadInputs) : CM Document :=
  document ← _document (ui_tenant i) (ui_name i) (Some (ui_knowledge_base_key i));
  match document with
  | Some d =>
      raise_if (negb (doc_owner_id d =? up_owner_id q))
        (EApp (app_error3 PERMISSION_DENIED "无权更新该文档"%py 403));;
      mret d
  | None =>
      did ← _new_id "doc"%py;
      created_at ← utcnow;
      updated_at ← utcnow;
      let d := new_document did i (up_owner_id q) created_at updated_at in
      add_doc d;; flush;; mret d
  end.

(** The versions of a document built from the same content with the same profile. *)
Definition same_identity (did digest fp : pystr) (v : DocumentVersion) : bool :=
  bool_decide (dv_document_id v = did) && bool_decide (dv_content_sha256 v = digest)
  && bool_decide (dv_build_fingerprint v = fp).
Definition matching_versions (db : CatalogDb) (did digest fp : pystr) : list DocumentVersion :=
  order_by (fun v => - dv_version_number v) (rows_where (same_identity did digest fp) (c_versions db)).
Definition matching_by_id (l : list DocumentVersion) (pointer : option pystr) :
    option DocumentVersion :=
  p ← pointer; List.find (fun v => bool_decide (dv_id v = p)) l.

(** The completed job recorded for a current version that has none. *)
Definition reused_job (jid : pystr) (d : Document) (v : DocumentVersion) (max_attempts : Z)
    (now created_at updated_at : datetime) : IndexJob := {|
  ij_id := jid;
  ij_document_version_id := dv_id v;
  ij_status := J_COMPLETED;
  ij_current_step := "published"%py;
  ij_progress := 100;
  ij_attempts := 0;
  ij_max_attempts := max_attempts;
  ij_publication_fence := doc_publication_fence d;
  ij_execution_fence := 0;
  ij_expected_current_version_id := Some (dv_id v);
  ij_owner_worker_id := None;
  ij_lease_expires_at := None;
  ij_heartbeat_at := None;
  ij_next_retry_at := None;
  ij_error_code := None;
  ij_error_detail_redacted := None;
  ij_step_state_json := [("reused_current"%py, JBool true)];
  ij_started_at := None;
  ij_finished_at := Some (default now (dv_published_at v));
  ij_created_at := created_at;
  ij_updated_at := updated_at
|}.

Definition reserve_current (q : UploadRequest) (d : Document) (v : DocumentVersion) (now : datetime) :
    CM UploadReservation :=
  raise_if (bool_decide (dv_status v <> V_READY))
    (catalog_conflict "current_version 身份匹配但未处于 ready 状态"%py);;
  db ← get_db;
  job ← (match _job_for_version db (dv_id v) with
         | None =>
             jid ← _new_id "idxjob"%py;
             created_at ← utcnow;
             updated_at ← utcnow;
             let j := reused_job jid d v (up_max_attempts q) now created_at updated_at in
             add_job j;; flush;; mret j
         | Some j =>
             raise_if (bool_decide (ij_status j <> J_COMPLETED))
               (catalog_conflict "current_version 对应索引任务未完成"%py);;
             mret j
         end);
  record ← document_record d;
  mret (mkUploadReservation record (_version_record v) (_job_record job d) false false true
          (doc_publication_fence d) (Some (dv_id v))).

(** The candidate version and its job. *)
Definition new_version (vid : pystr) (d : Document) (q : UploadRequest) (i : UploadInputs)
    (created_at updated_at : datetime) : DocumentVersion := {|
  dv_id := vid;
  dv_document_id := doc_id d;
  dv_content_sha256 := ui_digest i;
  dv_build_fingerprint := fingerprint (ui_profile i);
  dv_version_number := doc_version_counter d;
  dv_source_object_key := ui_source_key i;
  dv_media_type := ui_media i;
  dv_size_bytes := up_size_bytes q;
  dv_parser_version := bp_parser_version (ui_profile i);
  dv_chunker_version := bp_chunker_version (ui_profile i);
  dv_embedding_model := bp_embedding_model (ui_profile i);
  dv_index_version := bp_index_version (ui_profile i);
  dv_vector_collection := ui_collection i;
  dv_status := V_UPLOADED;
  dv_chunk_count := 0;
  dv_parent_chunk_count := 0;
  dv_error_code := None;
  dv_error_detail_redacted := None;
  dv_published_at := None;
  dv_superseded_at := None;
  dv_cleanup_after := None;
  dv_index_cleaned_at := None;
  dv_cleanup_error_code := None;
  dv_created_at := created_at;
  dv_updated_at := updated_at
|}.

Definition new_job (jid vid : pystr) (d : Document) (fp : pystr) (max_attempts : Z)
    (now created_at : datetime) : IndexJob := {|
  ij_id := jid;
  ij_document_version_id := vid;
  ij_status := J_PENDING;
  ij_current_step := "upload"%py;
  ij_progress := 5;
  ij_attempts := 0;
  ij_max_attempts := max_attempts;
  ij_publication_fence := doc_publication_fence d;
  ij_execution_fence := 0;
  ij_expected_current_version_id := doc_current_version_id d;
  ij_owner_worker_id := None;
  ij_lease_expires_at := None;
  ij_heartbeat_at := None;
  ij_next_retry_at := None;
  ij_error_code := None;
  ij_error_detail_redacted := None;
  ij_step_state_json := [
    ("build_fingerprint"%py, JStr fp);
    ("message"%py, JStr "文件已保存，候选版本等待持久化 worker 构建"%py);
    ("active_step"%py, JStr "upload"%py);
    ("active_step_percent"%py, JInt 100)];
  ij_started_at := None;
  ij_finished_at := None;
  ij_created_at := created_at;
  ij_updated_at := now
|}.

(** The document row that takes a new candidate. *)
Definition counted (d : Document) : Document :=
  set_doc_version_counter (doc_version_counter d + 1) d.
Definition with_candidate (vid : pystr) (now : datetime) (d : Document) : Document :=
  set_doc_updated_at now (set_doc_deleted_at None
    (set_doc_status (if str_set (doc_current_version_id d) then "updating"%py else "indexing"%py)
      (set_doc_pending_version_id (Some vid)
        (set_doc_publication_fence (doc_publication_fence d + 1) d)))).

Definition reserve_candidate (q : UploadRequest) (i : UploadInputs) (k : KnowledgeBase)
    (d : Document) (now : datetime) (requeued : bool) : CM UploadReservation :=
  old_pending ← _version_by_pointer d (doc_pending_version_id d);
  match old_pending with
  | Some v => _supersede_version v now now true;; flush
  | None => mret tt
  end;;
  let d := counted d in
  save_doc d;;
  vid ← _new_id "docver"%py;
  created_at ← utcnow;
  updated_at ← utcnow;
  let candidate := new_version vid d q i created_at updated_at in
  add_version candidate;; flush;;
  let d := with_candidate vid now d in
  save_doc d;;
  jid ← _new_id "idxjob"%py;
  job_created_at ← utcnow;
  let job := new_job jid vid d (fingerprint (ui_profile i)) (up_max_attempts q) now job_created_at in
  add_job job;;
  _bump_revision k now;;
  flush;;
  record ← document_record d;
  mret (mkUploadReservation record (_version_record candidate) (_job_record job d) true requeued
          false (doc_publication_fence d) (doc_current_version_id d)).

(** The pending candidate a repeated upload of the same content joins. *)
Definition joinable (d : Document) (v : DocumentVersion) (j : IndexJob) : bool :=
  version_active (dv_status v)
  && (ij_publication_fence j =? doc_publication_fence d)
  && negb (bool_decide (ij_status j = J_FAILED) || bool_decide (ij_status j = J_CANCELLED)
           || bool_decide (ij_status j = J_DEAD_LETTER)).

Definition pointer_ids (d : Document) : list pystr :=
  option_list (doc_current_version_id d) ++ option_list (doc_pending_version_id d).

Definition reserve_upload_body (q : UploadRequest) (i : UploadInputs) : CM UploadReservation :=
  k ← _knowledge_base (ui_tenant i) (ui_knowledge_base_key i);
  now ← utcnow;
  d ← document_for_upload q i;
  db ← get_db;
  let matching := matching_versions db (doc_id d) (ui_digest i) (fingerprint (ui_profile i)) in
  match matching_by_id matching (doc_current_version_id d) with
  | Some v => reserve_current q d v now
  | None =>
      let pending_match := matching_by_id matching (doc_pending_version_id d) in
      let pending_job := pending_match ≫= fun v => _job_for_version db (dv_id v) in
      match pending_match, pending_job with
      | Some v, Some j =>
          if joinable d v j then
            record ← document_record d;
            mret (mkUploadReservation record (_version_record v) (_job_record j d) false false false
                    (doc_publication_fence d) (ij_expected_current_version_id j))
          else
            raise_if (existsb (fun v => version_active (dv_status v)
                                        && negb (bool_decide (dv_id v ∈ pointer_ids d))) matching)
              (catalog_conflict "存在未被 current/pending 指针持有的活跃同身份版本"%py);;
            reserve_candidate q i k d now true
      | _, _ =>
          raise_if (existsb (fun v => version_active (dv_status v)
                                      && negb (bool_decide (dv_id v ∈ pointer_ids d))) matching)
            (catalog_conflict "存在未被 current/pending 指针持有的活跃同身份版本"%py);;
          reserve_candidate q i k d now (match matching with [] => false | _ => true end)
      end
  end.

Definition reserve_upload (q : UploadRequest) : CM UploadReservation :=
  i ← upload_inputs q;
  retried (reserve_upload_body q i)
    (catalog_conflict_retry "文档候选版本并发预留冲突，请重试"%py).

(** ** The manifest of a built candidate *)

(** [_manifest_entry] *)
Definition _manifest_entry (entry : ManifestEntry) : CM ManifestEntry :=
  chunk_id ← _required_text (me_chunk_id entry) "chunk_id"%py 512;
  content_hash ← _content_hash (me_content_hash entry);
  store_kind ← _required_text (me_store_kind entry) "store_kind"%py 32;
  raise_if (negb (bool_decide (store_kind = "vector"%py) || bool_decide (store_kind = "parent"%py)))
    (invalid_request "store_kind 仅支持 vector 或 parent"%py);;
  let section_id := clipped 256 (me_section_id entry) in
  raise_if (me_chunk_level entry <? 0) (invalid_request "chunk_level 不能为负数"%py);;
  mret (mkManifestEntry chunk_id content_hash store_kind section_id (me_chunk_level entry)).

Definition manifest_key (e : ManifestEntry) : pystr * pystr := (me_store_kind e, me_chunk_id e).

(** The normalised manifest, in the order of its entries. *)
Fixpoint normalized_manifest (acc : list ManifestEntry) (entries : list ManifestEntry) :
    CM (list ManifestEntry) :=
  match entries with
  | [] => mret acc
  | value :: rest =>
      entry ← _manifest_entry value;
      raise_if (bool_decide (manifest_key entry ∈ (manifest_key <$> acc)))
        (invalid_request "manifest 中存在重复的 (store_kind, chunk_id)"%py);;
      normalized_manifest (acc ++ [entry]) rest
  end.

Definition count_kind (kind : pystr) (l : list ManifestEntry) : Z :=
  Z.of_nat (length (List.filter (fun e => bool_decide (me_store_kind e = kind)) l)).

(** The manifest rows of a version, and how many of a kind. *)
Definition manifest_rows (db : CatalogDb) (vid kind : pystr) : list IndexManifest :=
  rows_where (fun m => bool_decide (mf_document_version_id m = vid)
                       && bool_decide (mf_store_kind m = kind)) (c_manifests db).
Definition manifest_count (db : CatalogDb) (vid kind : pystr) : Z :=
  Z.of_nat (length (manifest_rows db vid kind)).

Definition manifest_row (mid : Z) (vid : pystr) (now : datetime) (e : ManifestEntry) : IndexManifest :=
  mkIndexManifest mid vid (me_chunk_id e) (me_store_kind e) (me_section_id e) (me_chunk_level e)
    (me_content_hash e) now.

Fixpoint add_manifests (vid : pystr) (now : datetime) (entries : list ManifestEntry)
    (m : gmap Z IndexManifest) : gmap Z IndexManifest :=
  match entries with
  | [] => m
  | e :: rest =>
      add_manifests vid now rest (<[next_id m := manifest_row (next_id m) vid now e]> m)
  end.

(** The stored manifest of the version is replaced by the verified one. *)
Definition replace_manifest (vid : pystr) (now : datetime) (entries : list ManifestEntry)
    (db : CatalogDb) : CatalogDb :=
  set_c_manifests
    (add_manifests vid now entries
       (filter (fun p => mf_document_version_id p.2 <> vid) (c_manifests db))) db.

Definition staged_version (vectors parents : Z) (now : datetime) (v : DocumentVersion) :
    DocumentVersion :=
  set_dv_updated_at now (set_dv_error_detail_redacted None (set_dv_error_code None
    (set_dv_parent_chunk_count parents (set_dv_chunk_count vectors (set_dv_status V_STAGED v))))).

Definition staged_job (entries vectors parents : Z) (now : datetime) (j : IndexJob) : IndexJob :=
  set_ij_updated_at now
    (set_ij_step_state_json (obj_update (ij_step_state_json j)
       [("manifest_entry_count"%py, JInt entries); ("vector_chunk_count"%py, JInt vectors);
        ("parent_chunk_count"%py, JInt parents)])
      (set_ij_progress 95 (set_ij_current_step "verified"%py (set_ij_status J_STAGED j)))).

Definition version_build (job : IndexJob) (version : DocumentVersion) (document : Document) :
    CM VersionBuild :=
  record ← document_record document;
  mret (mkVersionBuild (_job_record job document) record (_version_record version)).

Definition record_manifest (job_id : pystr) (publication_fence : Z) (entries : list ManifestEntry)
    (vector_chunk_count parent_chunk_count : option Z) (execution : option IndexJobExecution) :
    CM VersionBuild :=
  normalized ← normalized_manifest [] entries;
  let inferred_vectors := count_kind "vector"%py normalized in
  let inferred_parents := count_kind "parent"%py normalized in
  let vector_count := default inferred_vectors vector_chunk_count in
  let parent_count := default inferred_parents parent_chunk_count in
  raise_if ((vector_count <? 1) || (parent_count <? 0))
    (invalid_request "已验证的向量 chunk 数必须大于 0"%py);;
  raise_if (negb (vector_count =? inferred_vectors) || negb (parent_count =? inferred_parents))
    (invalid_request "显式 chunk count 必须与 exact manifest 完全一致"%py);;
  transaction (
    '(job, version, document, knowledge_base) ← _job_graph job_id None;
    now ← _database_now;
    _assert_index_execution job execution now;;
    _assert_candidate document job version publication_fence;;
    modify_db (replace_manifest (dv_id version) now normalized);;
    let version := staged_version vector_count parent_count now version in
    save_version version;;
    let job := staged_job (Z.of_nat (length normalized)) vector_count parent_count now job in
    save_job job;;
    _bump_revision knowledge_base now;;
    flush;;
    version_build job version document).

(** ** Publication *)

(** [_VERSION_REPLACEMENT_CLEANUP_GRACE] *)
Definition replacement_grace : Z := seconds 3600.

Definition published_document (vid : pystr) (now : datetime) (d : Document) : Document :=
  set_doc_updated_at now (set_doc_status "ready"%py
    (set_doc_pending_version_id None (set_doc_current_version_id (Some vid) d))).

Definition published_version (now : datetime) (v : DocumentVersion) : DocumentVersion :=
  set_dv_updated_at now (set_dv_cleanup_error_code None (set_dv_index_cleaned_at None
    (set_dv_cleanup_after None (set_dv_superseded_at None (set_dv_published_at (Some now)
      (set_dv_status V_READY v)))))).

Definition completed_job (now : datetime) (j : IndexJob) : IndexJob :=
  set_ij_updated_at now (set_ij_finished_at (Some now) (set_ij_next_retry_at None
    (set_ij_lease_expires_at None (set_ij_owner_worker_id None (set_ij_progress 100
      (set_ij_current_step "published"%py (set_ij_status J_COMPLETED j))))))).

Definition publish (job_id : pystr) (publication_fence : Z)
    (expected_current_version_id : option pystr) (execution : option IndexJobExecution) :
    CM PublicationResult :=
  transaction (
    '(job, version, document, knowledge_base) ← _job_graph job_id None;
    if bool_decide (doc_current_version_id document = Some (dv_id version))
       && bool_decide (dv_status version = V_READY) && bool_decide (ij_status job = J_COMPLETED)
    then
      record ← document_record document;
      mret (mkPublicationResult record (_version_record version) None false)
    else
      now ← _database_now;
      _assert_index_execution job execution now;;
      _assert_candidate document job version publication_fence;;
      raise_if (bool_decide (ij_expected_current_version_id job <> expected_current_version_id))
        (catalog_conflict "预期 current_version 与任务预留不一致"%py);;
      raise_if (bool_decide (dv_status version <> V_STAGED))
        (catalog_conflict "候选版本尚未完成索引验证"%py);;
      db ← get_db;
      let vectors := manifest_count db (dv_id version) "vector"%py in
      let parents := manifest_count db (dv_id version) "parent"%py in
      raise_if ((vectors <? 1) || negb (vectors =? dv_chunk_count version)
                || negb (parents =? dv_parent_chunk_count version))
        (catalog_conflict "候选版本 exact manifest 计数不一致"%py);;
      rowcount ← update_document (doc_id document)
        (fun d => negb (bool_decide (is_Some (doc_deleted_at d)))
                  && bool_decide (doc_pending_version_id d = Some (dv_id version))
                  && (doc_publication_fence d =? publication_fence)
                  && bool_decide (doc_current_version_id d = expected_current_version_id))
        (published_document (dv_id version) now);
      raise_if (negb (rowcount =? 1))
        (catalog_conflict_retry "文档 current_version CAS 冲突"%py);;
      previous ← _version_by_pointer document expected_current_version_id;
      previous ← (match previous with
                  | Some p =>
                      if bool_decide (dv_id p <> dv_id version)
                      then p ← _supersede_version p now (now + replacement_grace) false; mret (Some p)
                      else mret (Some p)
                  | None => mret None
                  end);
      let version := published_version now version in
      let previous := (fun p => if bool_decide (dv_id p = dv_id version) then version else p)
                        <$> previous in
      save_version version;;
      save_job (completed_job now job);;
      _bump_revision knowledge_base now;;
      flush;;
      record ← fresh_record (doc_id document);
      mret (mkPublicationResult record (_version_record version) (_version_record <$> previous) true)).

End Catalog.
