(* ===== verification/CatalogJobs.v ===== *)
(** * Index jobs of the document catalogue

    [backend/documents/catalog.py], second part: how an index job fails, is
    updated by the worker that builds the candidate, is claimed under a lease
    and an execution fence, kept alive, retried and moved to the dead letters. *)

From S2P Require Import Prelude PyBase Errors Session CatalogSchema Catalog.
From Stdlib Require Import QArith.

Open Scope Z_scope.

(** [_JOB_TRANSITIONS] *)
Definition _JOB_TRANSITIONS (s : IndexJobStatus) : list IndexJobStatus :=
  match s with
  | J_PENDING => [J_PENDING; J_RUNNING; J_RETRY_WAIT; J_FAILED; J_CANCELLED]
  | J_RUNNING => [J_RUNNING; J_RETRY_WAIT; J_STAGED; J_FAILED; J_CANCELLED; J_DEAD_LETTER]
  | J_RETRY_WAIT => [J_RETRY_WAIT; J_PENDING; J_RUNNING; J_FAILED; J_CANCELLED; J_DEAD_LETTER]
  | J_STAGED => [J_STAGED; J_COMPLETED; J_FAILED; J_CANCELLED]
  | J_COMPLETED => [J_COMPLETED]
  | J_FAILED => [J_FAILED]
  | J_CANCELLED => [J_CANCELLED]
  | J_DEAD_LETTER => [J_DEAD_LETTER]
  end.

(** A [float] argument: a rational, or one of the values that are not finite. *)
Inductive pyfloat := Finite (q : Q) | NotFinite.

(** [timedelta(seconds=q)] in microseconds: the nearest integer, ties to even. *)
Definition timedelta_seconds (q : Q) : Z :=
  let n := Qnum q * 1000000 in
  let d := Z.pos (Qden q) in
  let f := n / d in
  let r := n mod d in
  if 2 * r <? d then f
  else if d <? 2 * r then f + 1
  else if Z.even f then f else f + 1.

Section Jobs.
Context (env : CatalogEnv).

(** [str(value)] of a JSON value *)
Definition json_str (v : json) : pystr :=
  match v with
  | JStr s => s
  | JNull => "None"%py
  | JBool true => "True"%py
  | JBool false => "False"%py
  | JInt z => py_str_int z
  | v => ce_repr env v
  end.

(** [dict.pop(key, default)] rendered as text, and the rest of the dictionary. *)
Definition obj_delete (k : pystr) (fields : list (pystr * json)) : list (pystr * json) :=
  List.filter (fun kv => negb (bool_decide (kv.1 = k))) fields.
Definition text_field (k : pystr) (fields : list (pystr * json)) (d : pystr) : pystr :=
  match obj_get k fields with Some v => json_str v | None => d end.

(** ** Terminal failures *)

(** The job and version rows of a failed build. *)
Definition failed_job (status : IndexJobStatus) (step : pystr) (code : pystr) (detail : option pystr)
    (patch : list (pystr * json)) (now : datetime) (j : IndexJob) : IndexJob :=
  set_ij_updated_at now (set_ij_finished_at (Some now) (set_ij_lease_expires_at None
    (set_ij_owner_worker_id None
      (set_ij_step_state_json (obj_update (ij_step_state_json j) patch)
        (set_ij_error_detail_redacted detail (set_ij_error_code (Some code)
          (set_ij_current_step step (set_ij_status status j)))))))).

Definition failed_version (code : pystr) (detail : option pystr) (now : datetime)
    (v : DocumentVersion) : DocumentVersion :=
  set_dv_updated_at now (set_dv_cleanup_error_code None (set_dv_index_cleaned_at None
    (set_dv_cleanup_after (Some now) (set_dv_error_detail_redacted detail
      (set_dv_error_code (Some code) (set_dv_status V_FAILED v)))))).

(** The document row that loses its candidate; [current] is the pointer the
    session holds. *)
Definition without_candidate (current : option pystr) (now : datetime) (d : Document) : Document :=
  set_doc_updated_at now
    (set_doc_status (if str_set current then "ready"%py else "failed"%py)
      (set_doc_pending_version_id None d)).

Definition drop_candidate (document : Document) (version : DocumentVersion) (publication_fence : Z)
    (now : datetime) (conflict : pystr) : CM unit :=
  rowcount ← update_document (doc_id document)
    (fun d => bool_decide (doc_pending_version_id d = Some (dv_id version))
              && (doc_publication_fence d =? publication_fence))
    (without_candidate (doc_current_version_id document) now);
  raise_if (negb (rowcount =? 1)) (catalog_conflict_retry conflict).

(** The version row and the pointer of a job that has just failed, shared by
    [_fail_locked] and [_dead_letter_locked]. *)
Definition fail_version (document : Document) (version : DocumentVersion) (publication_fence : Z)
    (code : pystr) (detail : option pystr) (now : datetime) (conflict : pystr) : CM unit :=
  if bool_decide (doc_pending_version_id document = Some (dv_id version))
     && (doc_publication_fence document =? publication_fence)
  then
    save_version (failed_version code detail now version);;
    drop_candidate document version publication_fence now conflict
  else if bool_decide (dv_status version <> V_SUPERSEDED)
  then save_version (failed_version code detail now version)
  else mret tt.

(** [_dead_letter_locked] *)
Definition _dead_letter_locked (job : IndexJob) (version : DocumentVersion) (document : Document)
    (knowledge_base : KnowledgeBase) (publication_fence : Z) (code : pystr) (detail : option pystr)
    (now : datetime) : CM IndexJobRecord :=
  raise_if (negb (publication_fence =? ij_publication_fence job))
    (catalog_conflict "索引任务 publication fence 已失效"%py);;
  if bool_decide (ij_status job = J_DEAD_LETTER) then mret (_job_record job document)
  else
    raise_if (index_terminal (ij_status job))
      (catalog_conflict ("终态任务 "%py +++ index_status_value (ij_status job)
                           +++ " 不能改写为 dead_letter"%py)%py);;
    let dead := set_ij_next_retry_at None
                  (failed_job J_DEAD_LETTER "dead_letter"%py code detail
                     [("last_error_code"%py, JStr code)] now job) in
    save_job dead;;
    fail_version document version publication_fence code detail now
      "dead-letter 清除 pending_version CAS 冲突"%py;;
    _ensure_cleanup_job (dv_id version) now (ij_max_attempts job);;
    _bump_revision knowledge_base now;;
    flush;;
    mret (_job_record dead document).

(** [_fail_locked] *)
Definition _fail_locked (job : IndexJob) (version : DocumentVersion) (document : Document)
    (knowledge_base : KnowledgeBase) (publication_fence : Z) (code : pystr) (detail : option pystr)
    (patch : list (pystr * json)) (execution : option IndexJobExecution) (now : option datetime) :
    CM IndexJobRecord :=
  raise_if (negb (publication_fence =? ij_publication_fence job))
    (catalog_conflict "索引任务 fencing token 已失效"%py);;
  clock ← _lease_clock now;
  if bool_decide (ij_status job = J_FAILED) && bool_decide (execution = None)
  then mret (_job_record job document)
  else
    _assert_index_execution job execution clock;;
    raise_if (bool_decide (ij_status job = J_COMPLETED) || bool_decide (ij_status job = J_CANCELLED)
              || bool_decide (ij_status job = J_DEAD_LETTER))
      (catalog_conflict ("终态任务 "%py +++ index_status_value (ij_status job)
                           +++ " 不能改写为 failed"%py)%py);;
    let failed := failed_job J_FAILED "failed"%py code detail patch clock job in
    save_job failed;;
    fail_version document version publication_fence code detail clock "失败状态 CAS 冲突"%py;;
    _ensure_cleanup_job (dv_id version) clock (ij_max_attempts job);;
    _bump_revision knowledge_base clock;;
    flush;;
    mret (_job_record failed document).

Definition fail (job_id : pystr) (publication_fence : Z) (error_code : pystr)
    (error_detail_redacted : option pystr) (execution : option IndexJobExecution) :
    CM IndexJobRecord :=
  code ← _required_text env error_code "error_code"%py 64;
  let detail := redacted error_detail_redacted in
  transaction (
    '(job, version, document, knowledge_base) ← _job_graph job_id None;
    _fail_locked job version document knowledge_base publication_fence code detail [] execution
      None).

(** ** Progress of a build *)

Record JobUpdate := mkJobUpdate {
  ju_status : option pystr;
  ju_current_step : option pystr;
  ju_progress : option Z;
  ju_step_state_patch : list (pystr * json);
  ju_increment_attempts : bool
}.

Definition updated_job (next : IndexJobStatus) (step : option pystr) (u : JobUpdate)
    (now : datetime) (j : IndexJob) : IndexJob :=
  set_ij_updated_at now
    (set_ij_step_state_json (obj_update (ij_step_state_json j) (ju_step_state_patch u))
      (set_ij_attempts (ij_attempts j + if ju_increment_attempts u then 1 else 0)
        (set_ij_progress (default (ij_progress j) (ju_progress u))
          (set_ij_current_step (default (ij_current_step j) step)
            (set_ij_status next j))))).

(** The status of the version while its job runs. *)
Definition building_status (step : pystr) : DocumentVersionStatus :=
  if bool_decide (step = "parse"%py) || bool_decide (step = "parsing"%py)
  then V_PARSING else V_INDEXING.

Definition finished_job (now : datetime) (j : IndexJob) : IndexJob :=
  set_ij_lease_expires_at None (set_ij_owner_worker_id None (set_ij_finished_at (Some now) j)).

(** What [update_job] does to the version, the document and the job when the job
    runs, is cancelled or is moved to the dead letters; the job row returned. *)
Definition update_job_effects (next : IndexJobStatus) (u : JobUpdate) (job : IndexJob)
    (version : DocumentVersion) (document : Document) (publication_fence : Z) (now : datetime) :
    CM IndexJob :=
  match next with
  | J_RUNNING =>
      save_version (set_dv_updated_at now
        (set_dv_status (building_status (ij_current_step job)) version));;
      mret job
  | J_CANCELLED =>
      _supersede_version version now now false;;
      drop_candidate document version publication_fence now
        "终态任务清除 pending_version CAS 冲突"%py;;
      let job := finished_job now job in save_job job;; mret job
  | J_DEAD_LETTER =>
      code ← _required_text env
               (text_field "error_code"%py (ju_step_state_patch u) "INDEX_DEAD_LETTER"%py)
               "error_code"%py 64;
      let detail := redacted (Some (text_field "error_detail_redacted"%py (ju_step_state_patch u)
                                      (PyStr []))) in
      save_version (failed_version code detail now version);;
      drop_candidate document version publication_fence now
        "终态任务清除 pending_version CAS 冲突"%py;;
      _ensure_cleanup_job (dv_id version) now (ij_max_attempts job);;
      let job := finished_job now job in save_job job;; mret job
  | _ => mret job
  end.

Definition update_job (job_id : pystr) (publication_fence : Z) (u : JobUpdate)
    (execution : option IndexJobExecution) : CM IndexJobRecord :=
  target ← (match ju_status u with
            | Some s => t ← require (parse_index_status s) (invalid_request "未知索引任务状态"%py);
                        mret (Some t)
            | None => mret None
            end);
  raise_if (match ju_progress u with Some p => negb ((0 <=? p) && (p <=? 100)) | None => false end)
    (invalid_request "progress 必须位于 0-100"%py);;
  step ← (match ju_current_step u with
          | Some s => t ← _required_text env s "current_step"%py 64; mret (Some t)
          | None => mret None
          end);
  transaction (
    '(job, version, document, knowledge_base) ← _job_graph job_id None;
    raise_if (negb (publication_fence =? ij_publication_fence job))
      (catalog_conflict "索引任务 fencing token 已失效"%py);;
    clock ← _database_now;
    _assert_index_execution job execution clock;;
    let next := default (ij_status job) target in
    raise_if (negb (bool_decide (next ∈ _JOB_TRANSITIONS (ij_status job))))
      (catalog_conflict ("索引任务不能从 "%py +++ index_status_value (ij_status job)
                           +++ " 转换到 "%py +++ index_status_value next)%py);;
    if bool_decide (next = J_FAILED)
    then
      let patch := ju_step_state_patch u in
      code ← _required_text env (text_field "error_code"%py patch "INDEX_BUILD_FAILED"%py)
               "error_code"%py 64;
      let detail := redacted (Some (text_field "error_detail_redacted"%py patch (PyStr []))) in
      let patch := obj_delete "error_detail_redacted"%py (obj_delete "error_code"%py patch) in
      _fail_locked job version document knowledge_base publication_fence code detail patch
        execution (Some clock)
    else
      raise_if (bool_decide (next = J_COMPLETED)
                && negb (bool_decide (doc_current_version_id document = Some (dv_id version))
                         && bool_decide (dv_status version = V_READY)))
        (catalog_conflict "只有已原子发布的版本才能完成任务"%py);;
      raise_if (bool_decide (next = J_STAGED) && bool_decide (dv_status version <> V_STAGED))
        (catalog_conflict "必须先记录 exact manifest 才能进入 staged"%py);;
      (if bool_decide (next <> J_COMPLETED)
       then _assert_candidate document job version publication_fence else mret tt);;
      raise_if (match ju_progress u with Some p => p <? ij_progress job | None => false end)
        (catalog_conflict "progress 不能倒退"%py);;
      let job := updated_job next step u clock job in
      save_job job;;
      job ← update_job_effects next u job version document publication_fence clock;
      _bump_revision knowledge_base clock;;
      flush;;
      mret (_job_record job document)).

(** ** Reading jobs *)

Definition get_job (job_id : pystr) (tenant_id : option pystr) : CM IndexJobRecord :=
  '(job, _, document, _) ← _job_graph job_id tenant_id;
  mret (_job_record job document).

Definition load_build (job_id : pystr) (tenant_id : option pystr) : CM VersionBuild :=
  '(job, version, document, _) ← _job_graph job_id tenant_id;
  version_build job version document.

(** A page of a query: [offset] rows are skipped, [limit] are kept. *)
Definition page {A} (limit offset : Z) (l : list A) : list A :=
  take (Z.to_nat limit) (drop (Z.to_nat offset) l).
Definition bad_page (limit offset : Z) : bool := (limit <? 1) || (1000 <? limit) || (offset <? 0).

Definition job_rows (db : CatalogDb) : list IndexJob := snd <$> map_to_list (c_jobs db).

Definition list_jobs (tenant_id : pystr) (limit offset : Z) : CM (list IndexJobRecord) :=
  raise_if (bad_page limit offset) (invalid_request "limit 或 offset 无效"%py);;
  db ← get_db;
  let rows := omap (fun j => v ← c_versions db !! ij_document_version_id j;
                             d ← c_docs db !! dv_document_id v;
                             if bool_decide (doc_tenant_id d = tenant_id) then Some (j, d) else None)
                (job_rows db) in
  mret ((fun '(j, d) => _job_record j d) <$>
    page limit offset
      (order_by_keys (fun '(j, _) => - ij_created_at j :: id_key (ij_id j)) rows)).

(** ** Claiming *)

Abbreviation job_graph := (IndexJob * DocumentVersion * Document * KnowledgeBase)%type.

(** The joined rows a worker of the given capability may see; [locked] are the
    jobs whose rows another transaction holds, which the query skips. *)
Definition visible_graphs (db : CatalogDb) (capability : option pystr) (locked : pystr -> bool) :
    list job_graph :=
  List.filter (fun '(j, v, _, _) =>
    negb (locked (ij_id j))
    && match capability with
       | Some c => bool_decide (ij_status j = J_STAGED) || bool_decide (dv_build_fingerprint v = c)
       | None => true
       end) (omap (graph_of db) (job_rows db)).

Definition unowned (j : IndexJob) (clock : datetime) : bool :=
  bool_decide (ij_owner_worker_id j = None) || lease_expired (ij_lease_expires_at j) clock.

(** [owned]: the job the worker already holds. *)
Definition job_owned_by (worker : pystr) (clock : datetime) (j : IndexJob) : bool :=
  bool_decide (ij_owner_worker_id j = Some worker)
  && (bool_decide (ij_status j = J_RUNNING) || bool_decide (ij_status j = J_STAGED))
  && negb (lease_expired (ij_lease_expires_at j) clock).

(** [ready] *)
Definition job_ready (clock : datetime) (j : IndexJob) : bool :=
  match ij_status j with
  | J_PENDING => unowned j clock
  | J_RETRY_WAIT =>
      match ij_next_retry_at j with Some t => t <=? clock | None => false end && unowned j clock
  | J_STAGED =>
      match ij_next_retry_at j with Some t => t <=? clock | None => true end && unowned j clock
  | J_RUNNING => unowned j clock
  | _ => false
  end.

(** [priority], then age, then identifier. *)
Definition job_priority (s : IndexJobStatus) : Z :=
  match s with J_STAGED => 0 | J_PENDING => 1 | J_RETRY_WAIT => 2 | _ => 3 end.
Definition owned_key (g : job_graph) : list Z :=
  let '(j, _, _, _) := g in ij_created_at j :: id_key (ij_id j).
Definition ready_key (g : job_graph) : list Z :=
  let '(j, _, _, _) := g in job_priority (ij_status j) :: ij_created_at j :: id_key (ij_id j).

Definition owned_graph (db : CatalogDb) (capability : option pystr) (locked : pystr -> bool)
    (worker : pystr) (clock : datetime) : option job_graph :=
  head (order_by_keys owned_key
    (List.filter (fun '(j, _, _, _) => job_owned_by worker clock j)
       (visible_graphs db capability locked))).
Definition ready_graph (db : CatalogDb) (capability : option pystr) (locked : pystr -> bool)
    (clock : datetime) : option job_graph :=
  head (order_by_keys ready_key
    (List.filter (fun '(j, _, _, _) => job_ready clock j) (visible_graphs db capability locked))).

Definition extended_lease (clock : datetime) (lease_seconds : Z) (j : IndexJob) : IndexJob :=
  set_ij_updated_at clock (set_ij_lease_expires_at (Some (clock + seconds lease_seconds))
    (set_ij_heartbeat_at (Some clock) j)).

(** The job is still the candidate of its document. *)
Definition candidate_owned (j : IndexJob) (v : DocumentVersion) (d : Document) : bool :=
  bool_decide (doc_deleted_at d = None)
  && bool_decide (doc_pending_version_id d = Some (dv_id v))
  && (doc_publication_fence d =? ij_publication_fence j)
  && version_active (dv_status v).

Definition staged_crash_recovery (j : IndexJob) : bool :=
  bool_decide (ij_status j = J_STAGED) && (ij_attempts j =? ij_max_attempts j)
  && bool_decide (ij_next_retry_at j = None).

Definition attempts_exhausted (j : IndexJob) : bool :=
  (ij_max_attempts j <=? ij_attempts j) && negb (staged_crash_recovery j).

(** The row of a job a worker has claimed. *)
Definition claimed_job (worker : pystr) (clock : datetime) (lease_seconds : Z) (j : IndexJob) :
    IndexJob :=
  set_ij_updated_at clock (set_ij_error_detail_redacted None (set_ij_error_code None
    (set_ij_next_retry_at None
      (set_ij_lease_expires_at (Some (clock + seconds lease_seconds))
        (set_ij_heartbeat_at (Some clock)
          (set_ij_started_at (Some (default clock (ij_started_at j)))
            (set_ij_attempts (ij_attempts j + 1)
              (set_ij_execution_fence (ij_execution_fence j + 1)
                (set_ij_owner_worker_id (Some worker)
                  (set_ij_status (if bool_decide (ij_status j = J_STAGED) then J_STAGED else J_RUNNING)
                    j)))))))))).

Definition claimed_version_status (step : pystr) : DocumentVersionStatus :=
  if existsb (fun s => bool_decide (step = s))
       ["upload"; "uploaded"; "reserve"; "parse"; "parsing"]%py
  then V_PARSING else V_INDEXING.

Definition claimed_version (clock : datetime) (j : IndexJob) (v : DocumentVersion) : DocumentVersion :=
  if bool_decide (ij_status j = J_STAGED) then v
  else set_dv_updated_at clock (set_dv_status (claimed_version_status (ij_current_step j)) v).

(** One turn of the claim loop; [None] when the job found was not claimable and
    the search goes on. *)
Definition claim_step (worker : pystr) (lease_seconds : Z) (clock : datetime) (g : job_graph) :
    CM (option VersionBuild) :=
  let '(job, version, document, knowledge_base) := g in
  if negb (candidate_owned job version document) then
    save_job (cancelled_job clock job);;
    (if bool_decide (doc_current_version_id document <> Some (dv_id version))
        && version_active (dv_status version)
     then _ ← _supersede_version version clock clock false; mret tt else mret tt);;
    flush;; mret None
  else if attempts_exhausted job then
    _dead_letter_locked job version document knowledge_base (ij_publication_fence job)
      "INDEX_ATTEMPTS_EXHAUSTED"%py None clock;;
    flush;; mret None
  else
    let claimed := claimed_job worker clock lease_seconds job in
    save_job claimed;;
    let version := claimed_version clock job version in
    save_version version;;
    flush;;
    b ← version_build claimed version document;
    mret (Some b).

Fixpoint claim_loop (fuel : nat) (capability : option pystr) (locked : pystr -> bool)
    (worker : pystr) (lease_seconds : Z) (clock : datetime) : CM (option VersionBuild) :=
  match fuel with
  | O => raise EFuel
  | S fuel =>
      db ← get_db;
      match ready_graph db capability locked clock with
      | None => mret None
      | Some g =>
          r ← claim_step worker lease_seconds clock g;
          match r with
          | Some b => mret (Some b)
          | None => claim_loop fuel capability locked worker lease_seconds clock
          end
      end
  end.

Definition claim_index_job (locked : pystr -> bool) (worker_id : pystr) (lease_seconds : Z)
    (build_fingerprint : option pystr) (now : option datetime) : CM (option VersionBuild) :=
  worker ← _required_text env worker_id "worker_id"%py 128;
  capability ← (match build_fingerprint with
                | Some f => c ← _content_hash f; mret (Some c)
                | None => mret None
                end);
  raise_if (lease_seconds <? 1) (invalid_request "lease_seconds 必须大于 0"%py);;
  transaction (
    clock ← _lease_clock now;
    db ← get_db;
    match owned_graph db capability locked worker clock with
    | Some (job, version, document, _) =>
        let job := extended_lease clock lease_seconds job in
        save_job job;; flush;;
        b ← version_build job version document;
        mret (Some b)
    | None =>
        claim_loop (S (size (c_jobs db))) capability locked worker lease_seconds clock
    end).

(** ** Keeping and giving up a claim *)

Definition assert_index_lease (job_id : pystr) (execution : IndexJobExecution) (now : option datetime) :
    CM VersionBuild :=
  transaction (
    '(job, version, document, _) ← _job_graph job_id None;
    clock ← _lease_clock now;
    _assert_index_execution job (Some execution) clock;;
    _assert_candidate document job version (ij_publication_fence job);;
    version_build job version document).

Definition heartbeat_index_job (job_id : pystr) (execution : IndexJobExecution) (lease_seconds : Z)
    (now : option datetime) : CM IndexJobRecord :=
  raise_if (lease_seconds <? 1) (invalid_request "lease_seconds 必须大于 0"%py);;
  transaction (
    '(job, version, document, _) ← _job_graph job_id None;
    clock ← _lease_clock now;
    _assert_index_execution job (Some execution) clock;;
    _assert_candidate document job version (ij_publication_fence job);;
    let job := extended_lease clock lease_seconds job in
    save_job job;; flush;;
    mret (_job_record job document)).

(** The duration of a finite, non-negative delay. *)
Definition valid_delay (delay : pyfloat) : option Z :=
  match delay with
  | Finite q => if Qle_bool 0 q then Some (timedelta_seconds q) else None
  | NotFinite => None
  end.

Definition retried_job (code : pystr) (detail : option pystr) (clock : datetime) (delay : Z)
    (j : IndexJob) : IndexJob :=
  let staged := bool_decide (ij_status j = J_STAGED) in
  set_ij_updated_at clock (set_ij_heartbeat_at (Some clock) (set_ij_lease_expires_at None
    (set_ij_owner_worker_id None
      (set_ij_step_state_json (obj_update (ij_step_state_json j)
         [("last_error_code"%py, JStr code);
          ("retry_scheduled_at"%py, JStr (ce_isoformat env (clock + delay)))])
        (set_ij_error_detail_redacted detail (set_ij_error_code (Some code)
          (set_ij_next_retry_at (Some (clock + delay))
            (set_ij_current_step (if staged then "publish"%py else ij_current_step j)
              (set_ij_status (if staged then J_STAGED else J_RETRY_WAIT) j))))))))).

Definition schedule_index_retry (job_id : pystr) (execution : IndexJobExecution)
    (retry_delay_seconds : pyfloat) (error_code : pystr) (error_detail_redacted : option pystr)
    (now : option datetime) : CM IndexJobRecord :=
  delay ← require (valid_delay retry_delay_seconds)
            (invalid_request "retry_delay_seconds 必须是非负有限数"%py);
  code ← _required_text env error_code "error_code"%py 64;
  let detail := redacted error_detail_redacted in
  transaction (
    '(job, version, document, knowledge_base) ← _job_graph job_id None;
    clock ← _lease_clock now;
    _assert_index_execution job (Some execution) clock;;
    _assert_candidate document job version (ij_publication_fence job);;
    if ij_max_attempts job <=? ij_attempts job then
      _dead_letter_locked job version document knowledge_base (ij_publication_fence job) code detail
        clock
    else
      let job := retried_job code detail clock delay job in
      save_job job;; flush;;
      mret (_job_record job document)).

Definition dead_letter_index_job (job_id : pystr) (execution : IndexJobExecution)
    (error_code : pystr) (error_detail_redacted : option pystr) : CM IndexJobRecord :=
  code ← _required_text env error_code "error_code"%py 64;
  let detail := redacted error_detail_redacted in
  transaction (
    '(job, version, document, knowledge_base) ← _job_graph job_id None;
    clock ← _database_now;
    _assert_index_execution job (Some execution) clock;;
    _dead_letter_locked job version document knowledge_base (ij_publication_fence job) code detail
      clock).

(** ** Reading documents *)

Definition list_documents (tenant_id : pystr) (knowledge_base_id : option pystr)
    (include_deleted : bool) (limit offset : Z) : CM (list DocumentRecord) :=
  raise_if (bad_page limit offset) (invalid_request "limit 或 offset 无效"%py);;
  db ← get_db;
  let rows := rows_where (fun d =>
    bool_decide (doc_tenant_id d = tenant_id)
    && match knowledge_base_id with
       | Some k => bool_decide (doc_knowledge_base_id d = k)
       | None => true
       end
    && (include_deleted || bool_decide (doc_deleted_at d = None))) (c_docs db) in
  _document_records (page limit offset
    (order_by_keys (fun d => - doc_updated_at d :: id_key (doc_id d)) rows)).

Definition get_current (tenant_id canonical_name : pystr) (knowledge_base_id : option pystr) :
    CM (option DocumentRecord) :=
  document ← _document tenant_id canonical_name knowledge_base_id;
  match document with
  | Some d =>
      if bool_decide (is_Some (doc_deleted_at d)) || negb (str_set (doc_current_version_id d))
      then mret None
      else
        record ← document_record d;
        raise_if (match dr_current_version record with
                  | Some v => bool_decide (vr_status v <> V_READY)
                  | None => true
                  end)
          (catalog_conflict "current_version 尚未处于 ready 状态"%py);;
        mret (Some record)
  | None => mret None
  end.

End Jobs.
