(* ===== verification/CatalogCleanup.v ===== *)
(** * Retirement and cleanup in the document catalogue

    [backend/documents/catalog.py], third part: deleting a document, the cleanup
    jobs that remove the index data of dead versions, retirement jobs, worker
    heart beats and readiness, and the snapshot retrieval reads. *)

From S2P Require Import Prelude PyBase Errors Session CatalogSchema Catalog CatalogJobs.
From Stdlib Require Import QArith.

Open Scope Z_scope.

Record RetirementResult := mkRetirementResult {
  rr_document_id : option pystr;
  rr_tenant_id : pystr;
  rr_knowledge_base_id : option pystr;
  rr_canonical_name : pystr;
  rr_found : bool;
  rr_already_deleted : bool;
  rr_cleanup_versions : list DocumentVersionRecord;
  rr_retirement_job_id : option pystr
}.

Record CleanupCandidate := mkCleanupCandidate {
  cc_tenant_id : pystr;
  cc_knowledge_base_id : pystr;
  cc_document_id : pystr;
  cc_canonical_name : pystr;
  cc_version : DocumentVersionRecord
}.

Record WorkerReadiness := mkWorkerReadiness {
  wr_worker_kind : pystr;
  wr_ready : bool;
  wr_fresh_workers : Z;
  wr_latest_heartbeat_at : option datetime;
  wr_queue_counts : list (pystr * Z);
  wr_oldest_ready_at : option datetime;
  wr_incompatible_fresh_workers : Z;
  wr_expected_build_fingerprint : option pystr
}.

Record RetrievalCatalogSnapshot := mkRetrievalCatalogSnapshot {
  rs_tenant_id : pystr;
  rs_knowledge_base_id : option pystr;
  rs_documents : list DocumentRecord;
  rs_index_id : pystr
}.

Section Cleanup.
Context (env : CatalogEnv).

(** ** Retirement jobs *)

(** [sorted(set)] of identifiers *)
Definition sorted_ids (ids : list pystr) : list pystr := sorted_str (elements (list_to_set ids : gset pystr)).

Definition new_retirement (job_id : pystr) (document : Document) (cleanup_ids : list pystr)
    (publication_fence : Z) (now : datetime) : DocumentRetirementJob :=
  mkDocumentRetirementJob job_id (doc_id document) (doc_tenant_id document)
    (doc_canonical_name document) publication_fence (sorted_ids cleanup_ids) None now now.

Definition merged_retirement (cleanup_ids : list pystr) (publication_fence : Z) (now : datetime)
    (row : DocumentRetirementJob) : DocumentRetirementJob :=
  set_rj_updated_at now (set_rj_error_code None
    (set_rj_cleanup_version_ids_json (sorted_ids (rj_cleanup_version_ids_json row ++ cleanup_ids))
      (set_rj_publication_fence (Z.max (rj_publication_fence row) publication_fence) row))).

(** [_upsert_retirement_job] *)
Definition _upsert_retirement_job (retirement_job_id : option pystr) (document : Document)
    (cleanup_versions : list DocumentVersion) (publication_fence : Z) (now : datetime) :
    CM (option pystr) :=
  match retirement_job_id with
  | None => mret None
  | Some rid =>
      job_id ← _required_text env rid "retirement_job_id"%py 64;
      let cleanup_ids := dv_id <$> cleanup_versions in
      db ← get_db;
      match c_retirements db !! job_id with
      | None =>
          modify_db (put_retirement (new_retirement job_id document cleanup_ids publication_fence now));;
          mret (Some job_id)
      | Some row =>
          raise_if (bool_decide (rj_document_id row <> doc_id document)
                    || bool_decide (rj_tenant_id row <> doc_tenant_id document)
                    || bool_decide (rj_canonical_name row <> doc_canonical_name document))
            (catalog_conflict "retirement job identity 与文档不一致"%py);;
          modify_db (put_retirement (merged_retirement cleanup_ids publication_fence now row));;
          mret (Some job_id)
      end
  end.

(** ** Retiring a document *)

Definition dead_status (s : DocumentVersionStatus) : bool :=
  bool_decide (s = V_FAILED) || bool_decide (s = V_SUPERSEDED).

(** The dead versions of a document whose index data is still there. *)
Definition uncleaned_versions (db : CatalogDb) (did : pystr) : list DocumentVersion :=
  order_by dv_version_number
    (rows_where (fun v => bool_decide (dv_document_id v = did) && dead_status (dv_status v)
                          && bool_decide (dv_index_cleaned_at v = None)) (c_versions db)).

(** Hastening the cleanup of one version of a document already deleted; the
    version row as the session then holds it. *)
Definition hasten_cleanup (now : datetime) (version : DocumentVersion) : CM DocumentVersion :=
  db ← get_db;
  let cleanup_job := cleanup_for_version db (dv_id version) in
  match cleanup_job with
  | None => _ensure_cleanup_job (dv_id version) now 3
  | Some c =>
      if bool_decide (cj_status c = C_PENDING) && sooner now (cj_next_retry_at c)
      then save_cleanup (set_cj_updated_at now (set_cj_next_retry_at (Some now) c))
      else mret tt
  end;;
  if match cleanup_job with None => true | Some c => bool_decide (cj_status c = C_PENDING) end
     && sooner now (dv_cleanup_after version)
  then
    let version := set_dv_updated_at now (set_dv_cleanup_after (Some now) version) in
    save_version version;; mret version
  else mret version.

Fixpoint hasten_all (now : datetime) (versions : list DocumentVersion) : CM (list DocumentVersion) :=
  match versions with
  | [] => mret []
  | v :: rest => v ← hasten_cleanup now v; vs ← hasten_all now rest; mret (v :: vs)
  end.

Definition retired_document (now : datetime) (old_fence : Z) (d : Document) : Document :=
  set_doc_updated_at now (set_doc_deleted_at (Some now) (set_doc_status "deleted"%py
    (set_doc_publication_fence (old_fence + 1)
      (set_doc_pending_version_id None (set_doc_current_version_id None d))))).

(** The live document loses its versions and its name is free of candidates. *)
Definition retire_live (name : pystr) (retirement_job_id : option pystr) (document : Document)
    (current pending : option DocumentVersion) : CM RetirementResult :=
  knowledge_base ← _knowledge_base (doc_tenant_id document) (doc_knowledge_base_id document);
  now ← _database_now;
  current' ← (match current with
              | Some v => v ← _supersede_version v now now false; mret (Some v)
              | None => mret None
              end);
  pending' ← (match pending with
              | Some v =>
                  if match current with Some c => bool_decide (dv_id v <> dv_id c) | None => true end
                  then v ← _supersede_version v now now true; mret (Some v)
                  else mret current'
              | None => mret None
              end);
  let old_fence := doc_publication_fence document in
  rowcount ← update_document (doc_id document)
    (fun d => (doc_publication_fence d =? old_fence)
              && bool_decide (doc_current_version_id d = doc_current_version_id document)
              && bool_decide (doc_pending_version_id d = doc_pending_version_id document))
    (retired_document now old_fence);
  raise_if (negb (rowcount =? 1)) (catalog_conflict_retry "文档删除 CAS 冲突"%py);;
  _bump_revision knowledge_base now;;
  let cleanup_rows :=
    match current', pending' with
    | Some c, Some p => if bool_decide (dv_id c = dv_id p) then [p] else [c; p]
    | Some v, None | None, Some v => [v]
    | None, None => []
    end in
  operation_id ← _upsert_retirement_job retirement_job_id document cleanup_rows (old_fence + 1) now;
  flush;;
  mret (mkRetirementResult (Some (doc_id document)) (doc_tenant_id document)
          (Some (doc_knowledge_base_id document)) name true false
          (_version_record <$> cleanup_rows) operation_id).

Definition retire (tenant_id canonical_name : pystr) (knowledge_base_id retirement_job_id : option pystr) :
    CM RetirementResult :=
  name ← _required_text env canonical_name "canonical_name"%py 255;
  transaction (
    document ← _document tenant_id name knowledge_base_id;
    match document with
    | None =>
        mret (mkRetirementResult None tenant_id knowledge_base_id name false false [] None)
    | Some d =>
        current ← _version_by_pointer d (doc_current_version_id d);
        pending ← _version_by_pointer d (doc_pending_version_id d);
        if bool_decide (is_Some (doc_deleted_at d)) then
          now ← _database_now;
          db ← get_db;
          cleanup_rows ← hasten_all now (uncleaned_versions db (doc_id d));
          operation_id ← _upsert_retirement_job retirement_job_id d cleanup_rows
                           (doc_publication_fence d) now;
          mret (mkRetirementResult (Some (doc_id d)) (doc_tenant_id d)
                  (Some (doc_knowledge_base_id d)) name true true
                  (_version_record <$> cleanup_rows) operation_id)
        else retire_live name retirement_job_id d current pending
    end).

(** ** Claiming a cleanup job *)

Abbreviation cleanup_graph := (DocumentCleanupJob * DocumentVersion * Document * KnowledgeBase)%type.

Definition cleanup_graph_of (db : CatalogDb) (c : DocumentCleanupJob) : option cleanup_graph :=
  v ← c_versions db !! cj_document_version_id c;
  d ← c_docs db !! dv_document_id v;
  k ← c_kbs db !! doc_knowledge_base_id d;
  Some (c, v, d, k).

(** [_cleanup_graph] *)
Definition _cleanup_graph (job_id : pystr) : CM cleanup_graph :=
  db ← get_db;
  require (c ← c_cleanups db !! job_id; cleanup_graph_of db c)
    (catalog_not_found "文档清理任务不存在"%py).

(** [_cleanup_build] *)
Definition _cleanup_build (job : DocumentCleanupJob) (version : DocumentVersion) (document : Document) :
    CM CleanupBuild :=
  record ← document_record document;
  mret (mkCleanupBuild (_cleanup_job_record job) record (_version_record version)).

Definition cleanup_rows (db : CatalogDb) : list DocumentCleanupJob := snd <$> map_to_list (c_cleanups db).

Definition visible_cleanups (db : CatalogDb) (locked : pystr -> bool) : list cleanup_graph :=
  List.filter (fun '(c, _, _, _) => negb (locked (cj_id c)))
    (omap (cleanup_graph_of db) (cleanup_rows db)).

Definition cleanup_owned_by (worker : pystr) (clock : datetime) (c : DocumentCleanupJob) : bool :=
  bool_decide (cj_owner_worker_id c = Some worker) && bool_decide (cj_status c = C_RUNNING)
  && negb (lease_expired (cj_lease_expires_at c) clock).

(** [ready] *)
Definition due (o : option datetime) (clock : datetime) : bool :=
  match o with Some t => t <=? clock | None => false end.
Definition cleanup_ready (clock : datetime) (c : DocumentCleanupJob) : bool :=
  match cj_status c with
  | C_PENDING =>
      (bool_decide (cj_next_retry_at c = None) || due (cj_next_retry_at c) clock)
      && bool_decide (cj_owner_worker_id c = None)
  | C_RETRY_WAIT => due (cj_next_retry_at c) clock && bool_decide (cj_owner_worker_id c = None)
  | C_RUNNING =>
      bool_decide (cj_owner_worker_id c = None) || lease_expired (cj_lease_expires_at c) clock
  | _ => false
  end.
Definition version_due (clock : datetime) (v : DocumentVersion) : bool :=
  due (dv_cleanup_after v) clock && bool_decide (dv_index_cleaned_at v = None).

Definition cleanup_priority (s : CleanupJobStatus) : Z :=
  match s with C_PENDING => 0 | C_RETRY_WAIT => 1 | _ => 2 end.
Definition cleanup_owned_key (g : cleanup_graph) : list Z :=
  let '(c, _, _, _) := g in cj_created_at c :: id_key (cj_id c).
(** NULL sorts last. *)
Definition nulls_last (o : option Z) : list Z :=
  match o with Some t => [0; t] | None => [1; 0] end.
Definition cleanup_ready_key (g : cleanup_graph) : list Z :=
  let '(c, _, _, _) := g in
  cleanup_priority (cj_status c) :: nulls_last (cj_next_retry_at c)
    ++ cj_created_at c :: id_key (cj_id c).

Definition owned_cleanup (db : CatalogDb) (locked : pystr -> bool) (worker : pystr)
    (clock : datetime) : option cleanup_graph :=
  head (order_by_keys cleanup_owned_key
    (List.filter (fun '(c, _, _, _) => cleanup_owned_by worker clock c) (visible_cleanups db locked))).
Definition ready_cleanup (db : CatalogDb) (locked : pystr -> bool) (clock : datetime) :
    option cleanup_graph :=
  head (order_by_keys cleanup_ready_key
    (List.filter (fun '(c, v, _, _) => cleanup_ready clock c && version_due clock v)
       (visible_cleanups db locked))).

(** The version is dead and no pointer of its document names it. *)
Definition safe_scope (v : DocumentVersion) (d : Document) : bool :=
  dead_status (dv_status v)
  && bool_decide (doc_current_version_id d <> Some (dv_id v))
  && bool_decide (doc_pending_version_id d <> Some (dv_id v)).

Definition extended_cleanup (clock : datetime) (lease_seconds : Z) (c : DocumentCleanupJob) :
    DocumentCleanupJob :=
  set_cj_updated_at clock (set_cj_lease_expires_at (Some (clock + seconds lease_seconds))
    (set_cj_heartbeat_at (Some clock) c)).

Definition claimed_cleanup (worker : pystr) (clock : datetime) (lease_seconds : Z)
    (c : DocumentCleanupJob) : DocumentCleanupJob :=
  set_cj_updated_at clock (set_cj_error_detail_redacted None (set_cj_error_code None
    (set_cj_next_retry_at None
      (set_cj_lease_expires_at (Some (clock + seconds lease_seconds))
        (set_cj_heartbeat_at (Some clock)
          (set_cj_started_at (Some (default clock (cj_started_at c)))
            (set_cj_attempts (cj_attempts c + 1)
              (set_cj_execution_fence (cj_execution_fence c + 1)
                (set_cj_owner_worker_id (Some worker) (set_cj_status C_RUNNING c)))))))))).

(** The job row moved to the dead letters; the detail column is only set by
    [_dead_letter_cleanup_locked]. *)
Definition dead_cleanup (code : pystr) (now : datetime) (c : DocumentCleanupJob) :
    DocumentCleanupJob :=
  set_cj_updated_at now (set_cj_finished_at (Some now)
    (set_cj_step_state_json (obj_update (cj_step_state_json c)
       [("failed_step"%py, JStr (cj_current_step c)); ("last_error_code"%py, JStr code)])
      (set_cj_next_retry_at None (set_cj_lease_expires_at None (set_cj_owner_worker_id None
        (set_cj_error_code (Some code) (set_cj_current_step "dead_letter"%py
          (set_cj_status C_DEAD_LETTER c)))))))).
Definition cleanup_failed_version (code : option pystr) (now : datetime) (v : DocumentVersion) :
    DocumentVersion :=
  set_dv_updated_at now (set_dv_cleanup_error_code code v).

Definition claim_cleanup_step (worker : pystr) (lease_seconds : Z) (clock : datetime)
    (g : cleanup_graph) : CM (option CleanupBuild) :=
  let '(job, version, document, _) := g in
  if negb (safe_scope version document) || (cj_max_attempts job <=? cj_attempts job) then
    let code := if negb (safe_scope version document) then "CLEANUP_SCOPE_REACTIVATED"%py
                else "CLEANUP_ATTEMPTS_EXHAUSTED"%py in
    save_cleanup (dead_cleanup code clock job);;
    save_version (cleanup_failed_version (Some code) clock version);;
    flush;; mret None
  else
    let job := claimed_cleanup worker clock lease_seconds job in
    save_cleanup job;; flush;;
    b ← _cleanup_build job version document;
    mret (Some b).

Fixpoint claim_cleanup_loop (fuel : nat) (locked : pystr -> bool) (worker : pystr)
    (lease_seconds : Z) (clock : datetime) : CM (option CleanupBuild) :=
  match fuel with
  | O => raise EFuel
  | S fuel =>
      db ← get_db;
      match ready_cleanup db locked clock with
      | None => mret None
      | Some g =>
          r ← claim_cleanup_step worker lease_seconds clock g;
          match r with
          | Some b => mret (Some b)
          | None => claim_cleanup_loop fuel locked worker lease_seconds clock
          end
      end
  end.

Definition claim_cleanup_job (locked : pystr -> bool) (worker_id : pystr) (lease_seconds : Z)
    (now : option datetime) : CM (option CleanupBuild) :=
  worker ← _required_text env worker_id "worker_id"%py 128;
  raise_if (lease_seconds <? 1) (invalid_request "lease_seconds 必须大于 0"%py);;
  transaction (
    clock ← _lease_clock now;
    db ← get_db;
    match owned_cleanup db locked worker clock with
    | Some (job, version, document, _) =>
        let job := extended_cleanup clock lease_seconds job in
        save_cleanup job;; flush;;
        b ← _cleanup_build job version document;
        mret (Some b)
    | None => claim_cleanup_loop (S (size (c_cleanups db))) locked worker lease_seconds clock
    end).

(** ** Working on a cleanup job *)

Definition heartbeat_cleanup_job (job_id : pystr) (execution : CleanupJobExecution)
    (lease_seconds : Z) (now : option datetime) : CM CleanupJobRecord :=
  raise_if (lease_seconds <? 1) (invalid_request "lease_seconds 必须大于 0"%py);;
  transaction (
    '(job, _, _, _) ← _cleanup_graph job_id;
    clock ← _lease_clock now;
    _assert_cleanup_execution job execution clock;;
    let job := extended_cleanup clock lease_seconds job in
    save_cleanup job;; flush;;
    mret (_cleanup_job_record job)).

Definition update_cleanup_job (job_id : pystr) (execution : CleanupJobExecution) (current_step : pystr)
    (step_state_patch : list (pystr * json)) : CM CleanupJobRecord :=
  step ← _required_text env current_step "current_step"%py 64;
  transaction (
    '(job, _, _, _) ← _cleanup_graph job_id;
    clock ← _database_now;
    _assert_cleanup_execution job execution clock;;
    let job := set_cj_updated_at clock
                 (set_cj_step_state_json (obj_update (cj_step_state_json job) step_state_patch)
                   (set_cj_current_step step job)) in
    save_cleanup job;; flush;;
    mret (_cleanup_job_record job)).

(** [_dead_letter_cleanup_locked] *)
Definition _dead_letter_cleanup_locked (job : DocumentCleanupJob) (version : DocumentVersion)
    (code : pystr) (detail : option pystr) (now : datetime) : CM CleanupJobRecord :=
  let dead := set_cj_error_detail_redacted detail (dead_cleanup code now job) in
  save_cleanup dead;;
  save_version (cleanup_failed_version (Some code) now version);;
  mret (_cleanup_job_record dead).

Definition retried_cleanup (code : pystr) (detail : option pystr) (clock : datetime) (delay : Z)
    (c : DocumentCleanupJob) : DocumentCleanupJob :=
  set_cj_updated_at clock
    (set_cj_step_state_json (obj_update (cj_step_state_json c)
       [("last_error_code"%py, JStr code);
        ("retry_scheduled_at"%py, JStr (ce_isoformat env (clock + delay)))])
      (set_cj_heartbeat_at (Some clock) (set_cj_lease_expires_at None (set_cj_owner_worker_id None
        (set_cj_next_retry_at (Some (clock + delay)) (set_cj_error_detail_redacted detail
          (set_cj_error_code (Some code) (set_cj_status C_RETRY_WAIT c)))))))).

Definition schedule_cleanup_retry (job_id : pystr) (execution : CleanupJobExecution)
    (retry_delay_seconds : pyfloat) (error_code : pystr) (error_detail_redacted : option pystr)
    (now : option datetime) : CM CleanupJobRecord :=
  delay ← require (valid_delay retry_delay_seconds)
            (invalid_request "retry_delay_seconds 必须是非负有限数"%py);
  code ← _required_text env error_code "error_code"%py 64;
  let detail := redacted error_detail_redacted in
  transaction (
    '(job, version, _, _) ← _cleanup_graph job_id;
    clock ← _lease_clock now;
    _assert_cleanup_execution job execution clock;;
    if cj_max_attempts job <=? cj_attempts job then
      record ← _dead_letter_cleanup_locked job version code detail clock;
      flush;; mret record
    else
      let job := retried_cleanup code detail clock delay job in
      save_cleanup job;;
      save_version (cleanup_failed_version (Some code) clock version);;
      flush;;
      mret (_cleanup_job_record job)).

Definition dead_letter_cleanup_job (job_id : pystr) (execution : CleanupJobExecution)
    (error_code : pystr) (error_detail_redacted : option pystr) : CM CleanupJobRecord :=
  code ← _required_text env error_code "error_code"%py 64;
  let detail := redacted error_detail_redacted in
  transaction (
    '(job, version, _, _) ← _cleanup_graph job_id;
    clock ← _database_now;
    _assert_cleanup_execution job execution clock;;
    record ← _dead_letter_cleanup_locked job version code detail clock;
    flush;; mret record).

Definition completed_cleanup (finished_at : datetime) (now : datetime) (c : DocumentCleanupJob) :
    DocumentCleanupJob :=
  set_cj_updated_at now (set_cj_finished_at (Some finished_at) (set_cj_error_detail_redacted None
    (set_cj_error_code None (set_cj_next_retry_at None (set_cj_lease_expires_at None
      (set_cj_owner_worker_id None (set_cj_current_step "completed"%py
        (set_cj_status C_COMPLETED c)))))))).
Definition cleaned_version (now : datetime) (v : DocumentVersion) : DocumentVersion :=
  set_dv_updated_at now (set_dv_cleanup_error_code None (set_dv_index_cleaned_at (Some now) v)).

Definition complete_cleanup_job (job_id : pystr) (execution : CleanupJobExecution) : CM CleanupBuild :=
  transaction (
    '(job, version, document, knowledge_base) ← _cleanup_graph job_id;
    clock ← _database_now;
    _assert_cleanup_execution job execution clock;;
    raise_if (negb (safe_scope version document))
      (catalog_conflict "当前或候选版本不能确认物理清理完成"%py);;
    let version := cleaned_version clock version in
    save_version version;;
    let job := completed_cleanup clock clock job in
    save_cleanup job;;
    _bump_revision knowledge_base clock;;
    flush;;
    _cleanup_build job version document).

Definition get_cleanup_job (job_id : pystr) : CM CleanupBuild :=
  '(job, version, document, _) ← _cleanup_graph job_id;
  _cleanup_build job version document.

(** [int(state.get("operator_requeues", 0))] *)
Definition requeue_count (state : list (pystr * json)) : CM Z :=
  match obj_get "operator_requeues"%py state with
  | None => mret 0
  | Some (JInt z) => mret z
  | Some (JBool b) => mret (if b then 1 else 0)
  | Some (JFloat q) => mret (Z.quot (Qnum q) (Z.pos (Qden q)))
  | Some (JStr s) => require (ce_int_text env s) (EValue "invalid literal for int()"%py)
  | Some _ => raise (EClass "TypeError"%py "int() argument"%py)
  end.

Definition requeued_cleanup (requeues : Z) (max_attempts : option Z) (clock : datetime)
    (c : DocumentCleanupJob) : DocumentCleanupJob :=
  set_cj_updated_at clock (set_cj_finished_at None (set_cj_started_at None
    (set_cj_step_state_json (obj_update (cj_step_state_json c)
       [("operator_requeues"%py, JInt (requeues + 1));
        ("last_operator_requeue_at"%py, JStr (ce_isoformat env clock))])
      (set_cj_error_detail_redacted None (set_cj_error_code None
        (set_cj_next_retry_at (Some clock) (set_cj_heartbeat_at None (set_cj_lease_expires_at None
          (set_cj_owner_worker_id None
            (set_cj_max_attempts (default (cj_max_attempts c) max_attempts)
              (set_cj_attempts 0 (set_cj_current_step "pending"%py
                (set_cj_status C_PENDING c))))))))))))).

Definition requeue_cleanup_job (job_id : pystr) (max_attempts : option Z) (now : option datetime) :
    CM CleanupBuild :=
  raise_if (match max_attempts with Some m => m <? 1 | None => false end)
    (invalid_request "max_attempts 必须大于 0"%py);;
  transaction (
    '(job, version, document, _) ← _cleanup_graph job_id;
    clock ← _lease_clock now;
    raise_if (bool_decide (cj_status job <> C_DEAD_LETTER))
      (catalog_conflict "仅 dead-letter 清理任务可以由 operator 重新排队"%py);;
    raise_if (negb (safe_scope version document) || bool_decide (is_Some (dv_index_cleaned_at version)))
      (catalog_conflict "清理目标 scope 已不满足重新排队条件"%py);;
    requeues ← requeue_count (cj_step_state_json job);
    let job := requeued_cleanup requeues max_attempts clock job in
    save_cleanup job;;
    let version := cleanup_failed_version None clock version in
    save_version version;;
    flush;;
    _cleanup_build job version document).

(** ** Listing cleanup and retirement jobs *)

(** The rows of a listing: a cleanup job, its version and its document. *)
Definition cleanup_join (db : CatalogDb) (c : DocumentCleanupJob) :
    option (DocumentCleanupJob * DocumentVersion * Document) :=
  v ← c_versions db !! cj_document_version_id c;
  d ← c_docs db !! dv_document_id v;
  Some (c, v, d).
Definition cleanup_listing (db : CatalogDb) : list (DocumentCleanupJob * DocumentVersion * Document) :=
  omap (cleanup_join db) (cleanup_rows db).
Fixpoint cleanup_builds (rows : list (DocumentCleanupJob * DocumentVersion * Document)) :
    CM (list CleanupBuild) :=
  match rows with
  | [] => mret []
  | (c, v, d) :: rest => b ← _cleanup_build c v d; bs ← cleanup_builds rest; mret (b :: bs)
  end.
Definition of_tenant (tenant_id : option pystr) (d : Document) : bool :=
  match tenant_id with Some t => bool_decide (doc_tenant_id d = t) | None => true end.

Definition list_cleanup_jobs_for_document (document_id : pystr) (tenant_id : option pystr) :
    CM (list CleanupBuild) :=
  db ← get_db;
  cleanup_builds (order_by (fun '(c, _, _) => cj_created_at c)
    (List.filter (fun '(_, _, d) => bool_decide (doc_id d = document_id) && of_tenant tenant_id d)
       (cleanup_listing db))).

Definition list_cleanup_jobs (status : pystr) (tenant_id : option pystr) (limit : Z) :
    CM (list CleanupBuild) :=
  raise_if ((limit <? 1) || (1000 <? limit)) (invalid_request "limit 必须位于 1-1000"%py);;
  let normalized := py_strip status in
  raise_if (py_nonempty normalized && bool_decide (parse_cleanup_status normalized = None))
    (invalid_request "未知清理任务状态"%py);;
  db ← get_db;
  cleanup_builds (take (Z.to_nat limit)
    (order_by_keys (fun '(c, _, _) => - cj_updated_at c :: id_key (cj_id c))
      (List.filter (fun '(c, _, d) =>
         match parse_cleanup_status normalized with
         | Some s => bool_decide (cj_status c = s)
         | None => true
         end && of_tenant tenant_id d) (cleanup_listing db)))).

Fixpoint required_ids (ids : list pystr) : CM (list pystr) :=
  match ids with
  | [] => mret []
  | v :: rest =>
      x ← _required_text env v "document_version_id"%py 64; xs ← required_ids rest; mret (x :: xs)
  end.
(** [dict.fromkeys]: the first occurrence of each identifier. *)
Fixpoint first_occurrences (seen ids : list pystr) : list pystr :=
  match ids with
  | [] => []
  | x :: rest =>
      if bool_decide (x ∈ seen) then first_occurrences seen rest
      else x :: first_occurrences (x :: seen) rest
  end.

Definition list_cleanup_jobs_for_versions (document_version_ids : list pystr) (tenant_id : pystr) :
    CM (list CleanupBuild) :=
  ids ← required_ids document_version_ids;
  let version_ids := first_occurrences [] ids in
  db ← get_db;
  let rows := List.filter (fun '(_, _, d) => bool_decide (doc_tenant_id d = tenant_id))
                (cleanup_listing db) in
  cleanup_builds
    (omap (fun vid => List.find (fun '(_, v, _) => bool_decide (dv_id v = vid)) rows) version_ids).

Definition retirement_of (db : CatalogDb) (job_id tenant_id : pystr) : option DocumentRetirementJob :=
  r ← c_retirements db !! job_id;
  if bool_decide (rj_tenant_id r = tenant_id) then Some r else None.

Definition get_retirement_job (job_id tenant_id : pystr) : CM RetirementJobRecord :=
  db ← get_db;
  row ← require (retirement_of db job_id tenant_id) (catalog_not_found "文档删除任务不存在"%py);
  mret (_retirement_job_record row).

Definition list_retirement_jobs (tenant_id : pystr) (limit : Z) : CM (list RetirementJobRecord) :=
  raise_if ((limit <? 1) || (1000 <? limit)) (invalid_request "limit 必须位于 1-1000"%py);;
  db ← get_db;
  mret (_retirement_job_record <$> take (Z.to_nat limit)
    (order_by_keys (fun r => - rj_created_at r :: id_key (rj_id r))
      (rows_where (fun r => bool_decide (rj_tenant_id r = tenant_id)) (c_retirements db)))).

Definition record_retirement_error (job_id tenant_id error_code : pystr) : CM RetirementJobRecord :=
  code ← _required_text env error_code "error_code"%py 64;
  transaction (
    db ← get_db;
    row ← require (retirement_of db job_id tenant_id) (catalog_not_found "文档删除任务不存在"%py);
    now ← _database_now;
    let row := set_rj_updated_at now (set_rj_error_code (Some code) row) in
    modify_db (put_retirement row);; flush;;
    mret (_retirement_job_record row)).

(** ** Workers *)

Definition record_worker_heartbeat (worker_id worker_kind status : pystr)
    (metadata : list (pystr * json)) (now : option datetime) : CM unit :=
  worker ← _required_text env worker_id "worker_id"%py 128;
  kind ← _required_text env worker_kind "worker_kind"%py 64;
  state ← require (parse_worker_status status) (invalid_request "未知 worker 状态"%py);
  transaction (
    clock ← _lease_clock now;
    db ← get_db;
    let stopped_at := if bool_decide (state = W_STOPPED) then Some clock else None in
    match c_workers db !! worker with
    | None =>
        modify_db (put_worker (mkWorkerHeartbeat worker kind state clock clock stopped_at metadata
                                 clock clock))
    | Some row =>
        let restarted := bool_decide (wh_status row = W_STOPPED)
                         && (bool_decide (state = W_STARTING) || bool_decide (state = W_RUNNING)) in
        modify_db (put_worker
          (set_wh_updated_at clock (set_wh_metadata_json metadata (set_wh_stopped_at stopped_at
            (set_wh_heartbeat_at clock (set_wh_status state (set_wh_worker_kind kind
              (set_wh_started_at (if restarted then clock else wh_started_at row) row))))))))
    end).

(** [max] and [min] of the instants of a list *)
Definition latest (l : list datetime) : option datetime :=
  match l with [] => None | t :: l => Some (foldr Z.max t l) end.
Definition earliest (l : list datetime) : option datetime :=
  match l with [] => None | t :: l => Some (foldr Z.min t l) end.

(** The index jobs readiness counts as waiting: like [job_ready], but a running
    job without an owner waits only once its lease is gone. *)
Definition job_waiting (clock : datetime) (j : IndexJob) : bool :=
  match ij_status j with
  | J_PENDING => unowned j clock
  | J_RETRY_WAIT => due (ij_next_retry_at j) clock && unowned j clock
  | J_STAGED =>
      (bool_decide (ij_next_retry_at j = None) || due (ij_next_retry_at j) clock) && unowned j clock
  | J_RUNNING => lease_expired (ij_lease_expires_at j) clock
  | _ => false
  end.

Definition cleanup_waiting (clock : datetime) (c : DocumentCleanupJob) : bool :=
  match cj_status c with
  | C_PENDING => bool_decide (cj_next_retry_at c = None) || due (cj_next_retry_at c) clock
  | C_RETRY_WAIT => due (cj_next_retry_at c) clock
  | C_RUNNING => lease_expired (cj_lease_expires_at c) clock
  | _ => false
  end.

Definition oldest_index_job (db : CatalogDb) (capability : option pystr) (clock : datetime) :
    option datetime :=
  earliest (omap (fun j =>
    v ← c_versions db !! ij_document_version_id j;
    if job_waiting clock j
       && match capability with
          | Some c => bool_decide (ij_status j = J_STAGED) || bool_decide (dv_build_fingerprint v = c)
          | None => true
          end
    then Some (ij_created_at j) else None) (job_rows db)).

Definition oldest_cleanup_job (db : CatalogDb) (clock : datetime) : option datetime :=
  earliest (omap (fun '(c, v, d) =>
    if cleanup_waiting clock c && version_due clock v && safe_scope v d
    then Some (cj_created_at c) else None) (cleanup_listing db)).

Definition queue_counts (db : CatalogDb) : list (pystr * Z) :=
  List.filter (fun p => 0 <? p.2)
    (((fun s => (("index_"%py +++ index_status_value s)%py,
                 Z.of_nat (length (rows_where (fun j => bool_decide (ij_status j = s)) (c_jobs db)))))
       <$> all_index_statuses)
     ++ ((fun s => (("cleanup_"%py +++ cleanup_status_value s)%py,
                    Z.of_nat (length (rows_where (fun c => bool_decide (cj_status c = s))
                                        (c_cleanups db))))) <$> all_cleanup_statuses)).

Definition worker_readiness (worker_kind : pystr) (stale_after_seconds : Z)
    (expected_build_fingerprint : option pystr) (now : option datetime) : CM WorkerReadiness :=
  kind ← _required_text env worker_kind "worker_kind"%py 64;
  capability ← (match expected_build_fingerprint with
                | Some f => c ← _content_hash f; mret (Some c)
                | None => mret None
                end);
  raise_if (stale_after_seconds <? 1) (invalid_request "stale_after_seconds 必须大于 0"%py);;
  clock ← _lease_clock now;
  db ← get_db;
  let cutoff := clock - seconds stale_after_seconds in
  let candidates := rows_where (fun r =>
    bool_decide (wh_worker_kind r = kind) && bool_decide (wh_status r = W_RUNNING)
    && (cutoff <=? wh_heartbeat_at r)) (c_workers db) in
  let fresh := List.filter (fun r =>
    match capability with
    | None => true
    | Some c => match obj_get "build_fingerprint"%py (wh_metadata_json r) with
                | Some (JStr f) => bool_decide (f = c)
                | _ => false
                end
    end) candidates in
  mret {|
    wr_worker_kind := kind;
    wr_ready := match fresh with [] => false | _ => true end;
    wr_fresh_workers := Z.of_nat (length fresh);
    wr_latest_heartbeat_at := latest (wh_heartbeat_at <$> fresh);
    wr_queue_counts := queue_counts db;
    wr_oldest_ready_at :=
      earliest (option_list (oldest_index_job db capability clock)
                ++ option_list (oldest_cleanup_job db clock));
    wr_incompatible_fresh_workers := Z.of_nat (length candidates) - Z.of_nat (length fresh);
    wr_expected_build_fingerprint := capability
  |}.

(** ** Direct cleanup *)

Definition cleanup_candidates (tenant_id : pystr) (now : option datetime) (limit : Z) :
    CM (list CleanupCandidate) :=
  cutoff ← (match now with Some t => mret t | None => utcnow end);
  db ← get_db;
  let rows := omap (fun v => d ← c_docs db !! dv_document_id v;
                             if bool_decide (doc_tenant_id d = tenant_id) && dead_status (dv_status v)
                                && version_due cutoff v then Some (v, d) else None)
                (snd <$> map_to_list (c_versions db)) in
  mret ((fun '(v, d) => mkCleanupCandidate (doc_tenant_id d) (doc_knowledge_base_id d) (doc_id d)
                          (doc_canonical_name d) (_version_record v))
    <$> take (Z.to_nat limit) (order_by (fun '(v, _) => default 0 (dv_cleanup_after v)) rows)).

(** The effect of [record_cleanup] once its guards have passed. *)
Definition record_cleanup_result (error_code : option pystr) (job : option DocumentCleanupJob)
    (version : DocumentVersion) (now : datetime) : CM DocumentVersion :=
  if str_set error_code then
    code ← _required_text env (default (PyStr []) error_code) "error_code"%py 64;
    (match job with
     | Some c => save_cleanup (set_cj_updated_at now (set_cj_error_code (Some code) c))
     | None => mret tt
     end);;
    mret (if bool_decide (dv_index_cleaned_at version = None)
          then set_dv_cleanup_error_code (Some code) version else version)
  else
    (match job with
     | Some c => save_cleanup (completed_cleanup (default now (cj_finished_at c)) now c)
     | None => mret tt
     end);;
    mret (set_dv_cleanup_error_code None (set_dv_index_cleaned_at (Some now) version)).

Definition record_cleanup (document_version_id : pystr) (error_code : option pystr) :
    CM DocumentVersionRecord :=
  transaction (
    db ← get_db;
    '(version, document, knowledge_base) ← require
      (v ← c_versions db !! document_version_id;
       d ← c_docs db !! dv_document_id v;
       k ← c_kbs db !! doc_knowledge_base_id d;
       Some (v, d, k)) (catalog_not_found "文档版本不存在"%py);
    raise_if (negb (dead_status (dv_status version)))
      (catalog_conflict "仅 failed/superseded 版本可以记录清理结果"%py);;
    raise_if (bool_decide (doc_current_version_id document = Some (dv_id version))
              || bool_decide (doc_pending_version_id document = Some (dv_id version)))
      (catalog_conflict "当前或候选版本不能记录物理清理结果"%py);;
    now ← _database_now;
    let job := cleanup_for_version db (dv_id version) in
    raise_if (match job with Some c => bool_decide (cj_status c = C_RUNNING) | None => false end)
      (catalog_conflict "清理任务已由 worker 领取，必须使用 execution finalize"%py);;
    raise_if (match job with Some c => bool_decide (cj_status c = C_DEAD_LETTER) | None => false end)
      (catalog_conflict "dead-letter 清理任务必须先由 operator 重新排队"%py);;
    if match job with Some c => bool_decide (cj_status c = C_COMPLETED) | None => false end then
      raise_if (bool_decide (dv_index_cleaned_at version = None))
        (catalog_conflict "cleanup job 与版本清理状态不一致"%py);;
      mret (_version_record version)
    else
      version ← record_cleanup_result error_code job version now;
      let version := set_dv_updated_at now version in
      save_version version;;
      _bump_revision knowledge_base now;;
      flush;;
      mret (_version_record version)).

(** ** The retrieval snapshot *)

Definition live_record (r : DocumentRecord) : option (DocumentRecord * DocumentVersionRecord) :=
  match dr_deleted_at r, dr_current_version r with
  | None, Some v => if bool_decide (vr_status v = V_READY) then Some (r, v) else None
  | _, _ => None
  end.

Definition manifest_json (m : IndexManifest) : json :=
  JObj [("chunk_id"%py, JStr (mf_chunk_id m)); ("chunk_level"%py, JInt (mf_chunk_level m));
        ("content_hash"%py, JStr (mf_content_hash m)); ("section_id"%py, JStr (mf_section_id m));
        ("store_kind"%py, JStr (mf_store_kind m))].

(** The manifest of one version, by store kind and chunk. *)
Definition version_manifest (db : CatalogDb) (vid : pystr) : list IndexManifest :=
  order_by_keys (fun m => id_key (mf_store_kind m) ++ (-1) :: id_key (mf_chunk_id m))
    (rows_where (fun m => bool_decide (mf_document_version_id m = vid)) (c_manifests db)).

Definition current_document_json (db : CatalogDb) (p : DocumentRecord * DocumentVersionRecord) : json :=
  let '(r, v) := p in
  JObj [("build_fingerprint"%py, JStr (vr_build_fingerprint v));
        ("canonical_name"%py, JStr (dr_canonical_name r));
        ("chunk_count"%py, JInt (vr_chunk_count v));
        ("content_sha256"%py, JStr (vr_content_sha256 v));
        ("document_id"%py, JStr (dr_id r));
        ("index_version"%py, JStr (vr_index_version v));
        ("manifest"%py, JArr (manifest_json <$> version_manifest db (vr_id v)));
        ("parent_chunk_count"%py, JInt (vr_parent_chunk_count v));
        ("vector_collection"%py, JStr (vr_vector_collection v));
        ("version_id"%py, JStr (vr_id v));
        ("version_number"%py, JInt (vr_version_number v))].

Definition active_kb_ids (db : CatalogDb) (tenant_id : pystr) (knowledge_base_id : option pystr) :
    list pystr :=
  kb_id <$> rows_where (fun k =>
    bool_decide (kb_tenant_id k = tenant_id) && bool_decide (kb_status k = "active"%py)
    && match knowledge_base_id with Some i => bool_decide (kb_id k = i) | None => true end)
    (c_kbs db).

Definition load_retrieval_snapshot (tenant_id : pystr) (knowledge_base_id : option pystr) :
    CM RetrievalCatalogSnapshot :=
  transaction (
    db ← get_db;
    let active := active_kb_ids db tenant_id knowledge_base_id in
    let documents := order_by_keys (fun d => id_key (doc_id d))
      (rows_where (fun d =>
         bool_decide (doc_tenant_id d = tenant_id)
         && bool_decide (doc_knowledge_base_id d ∈ active)
         && match knowledge_base_id with
            | Some i => bool_decide (doc_knowledge_base_id d = i) | None => true end) (c_docs db)) in
    records ← _document_records documents;
    let index_id := ce_digest env (JObj [
      ("current_documents"%py, JArr (current_document_json db <$> omap live_record records));
      ("knowledge_base_id"%py, opt_jstr knowledge_base_id);
      ("schema_version"%py, JInt 1);
      ("tenant_id"%py, JStr tenant_id)]) in
    mret (mkRetrievalCatalogSnapshot tenant_id knowledge_base_id records index_id)).

Definition current_index_fingerprint (tenant_id : pystr) (knowledge_base_id : option pystr) : CM pystr :=
  s ← load_retrieval_snapshot tenant_id knowledge_base_id;
  mret (rs_index_id s).

End Cleanup.
