(* ===== verification/CatalogInv.v ===== *)
(** * The invariant of the document catalogue

    What every reachable catalogue satisfies: rows are stored under their keys
    and refer to rows that exist; each version is in exactly one phase of its
    life, which fixes its status, its index job, its cleanup job and the pointer
    of its document that names it. *)

From S2P Require Import Prelude PyBase Errors Session CatalogSchema Catalog CatalogJobs CatalogCleanup.

Open Scope Z_scope.

(** ** Rows that belong to a version

    A table with at most one row per version, read through the version. *)
Section by_ref.
Context {V : Type} (ref : V -> pystr).
Implicit Types m : gmap pystr V.

Definition by_ref m (u : pystr) : option V := first_where (fun x => bool_decide (ref x = u)) m.

Definition ref_unique m : Prop :=
  forall i j x y, m !! i = Some x -> m !! j = Some y -> ref x = ref y -> i = j.

(** A row may be written at [i]: it replaces the row of the same version, or it
    is the first row of its version. *)
Definition fits m (i : pystr) (y : V) : Prop :=
  (exists x, m !! i = Some x /\ ref x = ref y) \/ (m !! i = None /\ by_ref m (ref y) = None).

Lemma by_ref_Some m u x :
  ref_unique m -> by_ref m u = Some x <-> exists i, m !! i = Some x /\ ref x = u.
Proof.
  intros U. unfold by_ref. split.
  - intros (i & Hi & E)%first_where_Some. bool_to_prop. eauto.
  - intros (i & Hi & E). apply (first_where_unique _ m i x Hi).
    + by apply bool_decide_eq_true.
    + intros j y Hj Ey. bool_to_prop. eapply U; [done..|congruence].
Qed.

Lemma by_ref_None m u : by_ref m u = None <-> forall i x, m !! i = Some x -> ref x <> u.
Proof.
  unfold by_ref. rewrite first_where_None. split; intros H i x Hi.
  - specialize (H i x Hi). by bool_to_prop.
  - apply bool_decide_eq_false. eauto.
Qed.

Lemma fits_other m i y j x : ref_unique m -> fits m i y -> m !! j = Some x -> ref x = ref y -> j = i.
Proof.
  intros U [(x0 & Hi & E)|[Hi N]] Hj Ex.
  - eapply U; [done..|congruence].
  - rewrite by_ref_None in N. by destruct (N j x Hj).
Qed.

Lemma ref_unique_insert m i y : ref_unique m -> fits m i y -> ref_unique (<[i:=y]> m).
Proof.
  intros U F j k a b. rewrite !lookup_insert. repeat case_decide; intros; simplify_eq; try done.
  - symmetry. eapply fits_other; eauto.
  - eapply fits_other; eauto.
  - eapply U; eauto.
Qed.

Lemma by_ref_insert m i y u :
  ref_unique m -> fits m i y ->
  by_ref (<[i:=y]> m) u = if decide (u = ref y) then Some y else by_ref m u.
Proof.
  intros U F. assert (ref_unique (<[i:=y]> m)) as U' by by apply ref_unique_insert.
  case_decide as E; subst.
  - apply by_ref_Some; [done|]. exists i. by rewrite lookup_insert_eq.
  - destruct (by_ref m u) as [x|] eqn:B.
    + apply by_ref_Some in B as (j & Hj & Ex); [|done]. apply by_ref_Some; [done|].
      exists j. rewrite lookup_insert_ne; [done|]. intros ->.
      destruct F as [(x0 & Hi & E0)|[Hi _]]; congruence.
    + apply by_ref_None. intros j x. rewrite lookup_insert. case_decide; intros; simplify_eq; [done|].
      rewrite by_ref_None in B. eauto.
Qed.
End by_ref.

Abbreviation job_in := (by_ref ij_document_version_id).
Abbreviation cleanup_in := (by_ref cj_document_version_id).

(** ** Well-formed tables *)
Record tables_ok (db : CatalogDb) : Prop := mkTablesOk {
  tk_kb : map_Forall (fun i k => kb_id k = i) (c_kbs db);
  tk_doc : map_Forall (fun i d => doc_id d = i) (c_docs db);
  tk_version : map_Forall (fun i v => dv_id v = i /\ py_nonempty i = true) (c_versions db);
  tk_job : map_Forall (fun i j => ij_id j = i) (c_jobs db);
  tk_cleanup : map_Forall (fun i c => cj_id c = i) (c_cleanups db);
  tk_doc_kb : map_Forall (fun _ d => is_Some (c_kbs db !! doc_knowledge_base_id d)) (c_docs db);
  tk_version_doc : map_Forall (fun _ v => is_Some (c_docs db !! dv_document_id v)) (c_versions db);
  tk_job_version : map_Forall (fun _ j => is_Some (c_versions db !! ij_document_version_id j)) (c_jobs db);
  tk_cleanup_version :
    map_Forall (fun _ c => is_Some (c_versions db !! cj_document_version_id c)) (c_cleanups db);
  tk_manifest_version :
    map_Forall (fun _ m => is_Some (c_versions db !! mf_document_version_id m)) (c_manifests db);
  tk_retirement : map_Forall (fun i r => rj_id r = i /\ is_Some (c_docs db !! rj_document_id r))
                    (c_retirements db);
  tk_worker : map_Forall (fun i r => wh_worker_id r = i) (c_workers db);
  tk_job_unique : ref_unique ij_document_version_id (c_jobs db);
  tk_cleanup_unique : ref_unique cj_document_version_id (c_cleanups db)
}.

(** ** The phases of a version *)

(** What the catalogue holds of one version. *)
Record Cell := mkCell {
  cell_version : DocumentVersion;
  cell_job : option IndexJob;
  cell_cleanup : option DocumentCleanupJob;
  cell_vectors : Z;
  cell_parents : Z
}.

Definition cell_of (db : CatalogDb) (u : pystr) : option Cell :=
  v ← c_versions db !! u;
  Some (mkCell v (job_in (c_jobs db) u) (cleanup_in (c_cleanups db) u)
          (manifest_count db u "vector"%py) (manifest_count db u "parent"%py)).

(** The manifest holds what the version row promises. *)
Definition exact_manifest (c : Cell) : Prop :=
  cell_vectors c = dv_chunk_count (cell_version c) /\ 1 <= cell_vectors c /\
  cell_parents c = dv_parent_chunk_count (cell_version c).

Definition job_unowned (j : IndexJob) : Prop :=
  ij_owner_worker_id j = None /\ ij_lease_expires_at j = None.

(** A cleanup job is owned exactly while it runs, and waits for an instant. *)
Definition cleanup_row_ok (c : DocumentCleanupJob) : Prop :=
  0 <= cj_attempts c /\ 1 <= cj_max_attempts c /\
  match cj_status c with
  | C_RUNNING => is_Some (cj_owner_worker_id c) /\ is_Some (cj_lease_expires_at c)
  | C_PENDING | C_RETRY_WAIT => cj_owner_worker_id c = None /\ is_Some (cj_next_retry_at c)
  | C_COMPLETED | C_DEAD_LETTER => cj_owner_worker_id c = None
  end.

Definition job_building (s : IndexJobStatus) : bool :=
  match s with J_PENDING | J_RUNNING | J_RETRY_WAIT => true | _ => false end.

(** [live d u j]: the version is the candidate of its document and [j] its job. *)
Definition live (d : Document) (u : pystr) (c : Cell) (p : IndexJobStatus -> bool) : Prop :=
  doc_pending_version_id d = Some u /\ doc_current_version_id d <> Some u /\
  doc_deleted_at d = None /\ cell_cleanup c = None /\
  dv_index_cleaned_at (cell_version c) = None /\
  exists j, cell_job c = Some j /\ p (ij_status j) = true /\
    ij_publication_fence j = doc_publication_fence d.

Definition published (d : Document) (u : pystr) (c : Cell) : Prop :=
  doc_current_version_id d = Some u /\ doc_pending_version_id d <> Some u /\
  doc_deleted_at d = None /\ cell_cleanup c = None /\
  dv_index_cleaned_at (cell_version c) = None /\
  (exists j, cell_job c = Some j /\ ij_status j = J_COMPLETED /\ job_unowned j) /\ exact_manifest c.

Definition dead (d : Document) (u : pystr) (c : Cell) : Prop :=
  doc_current_version_id d <> Some u /\ doc_pending_version_id d <> Some u /\
  (exists j, cell_job c = Some j /\ index_terminal (ij_status j) = true /\ job_unowned j) /\
  is_Some (dv_cleanup_after (cell_version c)) /\
  exists cj, cell_cleanup c = Some cj /\ cleanup_row_ok cj /\
    (is_Some (dv_index_cleaned_at (cell_version c)) <-> cj_status cj = C_COMPLETED).

Definition phase_ok (d : Document) (u : pystr) (c : Cell) : Prop :=
  match dv_status (cell_version c) with
  | V_UPLOADED | V_PARSING | V_INDEXING => live d u c job_building
  | V_STAGED => live d u c (fun s => bool_decide (s = J_STAGED)) /\ exact_manifest c
  | V_READY => published d u c
  | V_FAILED | V_SUPERSEDED => dead d u c
  end.

Definition fence_ok (d : Document) (c : Cell) : Prop :=
  dv_version_number (cell_version c) <= doc_version_counter d /\
  match cell_job c with
  | Some j => ij_publication_fence j <= doc_publication_fence d /\ 0 <= ij_execution_fence j
              /\ 1 <= ij_max_attempts j
  | None => True
  end.

Definition version_ok (db : CatalogDb) (u : pystr) : Prop :=
  forall c, cell_of db u = Some c ->
  exists d, c_docs db !! dv_document_id (cell_version c) = Some d /\
    phase_ok d u c /\ fence_ok d c.

(** A pointer of a document names a version of that document. *)
Definition pointer_ok (db : CatalogDb) (did : pystr) (p : option pystr)
    (ok : DocumentVersionStatus -> bool) : Prop :=
  forall u, p = Some u -> exists v, c_versions db !! u = Some v /\ dv_document_id v = did /\
    ok (dv_status v) = true.

Definition is_candidate (s : DocumentVersionStatus) : bool :=
  match s with V_UPLOADED | V_PARSING | V_INDEXING | V_STAGED => true | _ => false end.
Definition is_ready (s : DocumentVersionStatus) : bool := bool_decide (s = V_READY).

Definition doc_ok (db : CatalogDb) (did : pystr) : Prop :=
  forall d, c_docs db !! did = Some d ->
    pointer_ok db did (doc_current_version_id d) is_ready /\
    pointer_ok db did (doc_pending_version_id d) is_candidate /\
    (is_Some (doc_deleted_at d) -> doc_current_version_id d = None /\ doc_pending_version_id d = None).

Record catalog_inv (db : CatalogDb) : Prop := mkCatalogInv {
  inv_tables : tables_ok db;
  inv_versions : forall u, version_ok db u;
  inv_docs : forall did, doc_ok db did
}.

(** ** Reading the phase of a version *)

Lemma phase_cleanup d u c x :
  phase_ok d u c -> cell_cleanup c = Some x -> dead_status (dv_status (cell_version c)) = true /\ dead d u c.
Proof.
  unfold phase_ok, live, published. destruct (dv_status _); intros H E; try done;
    destruct_and? H; congruence.
Qed.

Lemma phase_dead d u c :
  phase_ok d u c -> dead_status (dv_status (cell_version c)) = true -> dead d u c.
Proof. unfold phase_ok. by destruct (dv_status _). Qed.

Lemma phase_pending d u c :
  phase_ok d u c -> doc_pending_version_id d = Some u ->
  is_candidate (dv_status (cell_version c)) = true /\
  live d u c (fun s => negb (index_terminal s)).
Proof.
  unfold phase_ok, published, dead. destruct (dv_status _); intros H E; try (destruct_and? H; done).
  all: split; [done|].
  1-3: destruct H as (H1 & H2 & H3 & H4 & H5 & j & Hj & Hs & Hf); split_and!; try done;
    exists j; split_and!; try done; by destruct (ij_status j).
  destruct H as [(H1 & H2 & H3 & H4 & H5 & j & Hj & Hs & Hf) _]; split_and!; try done.
  exists j. split_and!; try done. by destruct (ij_status j).
Qed.

Lemma phase_live_job d u c j :
  phase_ok d u c -> cell_job c = Some j -> index_terminal (ij_status j) = false ->
  is_candidate (dv_status (cell_version c)) = true /\
  doc_pending_version_id d = Some u /\ doc_deleted_at d = None /\
  ij_publication_fence j = doc_publication_fence d.
Proof.
  unfold phase_ok, published, dead. intros H E Ht. destruct (dv_status _).
  1-3: destruct H as (H1 & H2 & H3 & H4 & H5 & j' & Hj & Hs & Hf); simplify_eq; by split_and!.
  - destruct H as [(H1 & H2 & H3 & H4 & H5 & j' & Hj & Hs & Hf) _]. simplify_eq. by split_and!.
  - destruct H as (_ & _ & _ & _ & _ & (j' & Hj & Hs & _) & _). simplify_eq. by rewrite Hs in Ht.
  - destruct H as (_ & _ & (j' & Hj & Hs & _) & _). congruence.
  - destruct H as (_ & _ & (j' & Hj & Hs & _) & _). congruence.
Qed.

(** The job of a candidate is staged exactly when the version is. *)
Lemma phase_staged d u c j :
  phase_ok d u c -> cell_job c = Some j -> index_terminal (ij_status j) = false ->
  (dv_status (cell_version c) = V_STAGED <-> ij_status j = J_STAGED).
Proof.
  unfold phase_ok, published, dead. intros H E Ht. destruct (dv_status _).
  1-3: destruct H as (_ & _ & _ & _ & _ & j' & Hj & Hs & Hf); simplify_eq; split; intros E1; try done;
    by rewrite E1 in Hs.
  - destruct H as [(_ & _ & _ & _ & _ & j' & Hj & Hs & Hf) _]. simplify_eq. by bool_to_prop.
  - destruct H as (_ & _ & _ & _ & _ & (j' & Hj & Hs & _) & _). simplify_eq. by rewrite Hs in Ht.
  - destruct H as (_ & _ & (j' & Hj & Hs & _) & _). congruence.
  - destruct H as (_ & _ & (j' & Hj & Hs & _) & _). congruence.
Qed.

(** ** Changing some cells and one document *)

(** A version outside the change keeps its place in the document. *)
Definition keeps_place (d d' : Document) (u : pystr) : Prop :=
  doc_publication_fence d <= doc_publication_fence d' /\
  doc_version_counter d <= doc_version_counter d' /\
  (doc_current_version_id d' = Some u <-> doc_current_version_id d = Some u) /\
  (doc_pending_version_id d' = Some u <-> doc_pending_version_id d = Some u) /\
  (doc_pending_version_id d = Some u ->
     doc_publication_fence d' = doc_publication_fence d /\ doc_deleted_at d' = doc_deleted_at d) /\
  (doc_current_version_id d = Some u -> doc_deleted_at d' = None).

Lemma live_keeps d d' u c p : keeps_place d d' u -> live d u c p -> live d' u c p.
Proof.
  intros (_ & _ & Ec & Ep & Hp & _) (P1 & P2 & P3). destruct (Hp P1) as [Ef Ed].
  unfold live. rewrite Ec, Ep, Ef, Ed. done.
Qed.

Lemma phase_keeps d d' u c : keeps_place d d' u -> phase_ok d u c -> phase_ok d' u c.
Proof.
  intros K. pose proof (live_keeps d d' u c) as L. destruct K as (Hf & Hc & Ec & Ep & Hp & Hd).
  unfold phase_ok, published, dead. destruct (dv_status (cell_version c)).
  1-3: intros; apply L; [by split_and!|done].
  - intros [? ?]. split; [|done]. apply L; [by split_and!|done].
  - rewrite Ec, Ep. intros (P1 & P2 & P3 & P4). split_and!; [done|done|by apply Hd|apply P4..].
  - by rewrite Ec, Ep.
  - by rewrite Ec, Ep.
Qed.

Lemma fence_keeps d d' u c : keeps_place d d' u -> fence_ok d c -> fence_ok d' c.
Proof.
  intros (Hf & Hc & _) [H1 H2]. split; [lia|]. destruct (cell_job c); [|done].
  destruct H2 as [? ?]. split; [lia|done].
Qed.

Lemma inv_change db db' (touched : list pystr) did :
  catalog_inv db -> tables_ok db' ->
  (forall i, i <> did -> c_docs db' !! i = c_docs db !! i) ->
  (forall u, u ∉ touched -> cell_of db' u = cell_of db u) ->
  (forall u, u ∈ touched -> version_ok db' u) ->
  doc_ok db' did ->
  (forall u v d, u ∉ touched -> c_versions db !! u = Some v -> dv_document_id v = did ->
     c_docs db !! did = Some d -> exists d', c_docs db' !! did = Some d' /\ keeps_place d d' u) ->
  (forall u v, u ∈ touched -> c_versions db !! u = Some v -> dv_document_id v = did) ->
  catalog_inv db'.
Proof.
  intros [T V D] T' Hd Hc Ht Hdid Hk Ho. constructor; [done|..].
  - intros u. destruct (decide (u ∈ touched)) as [I|N]; [auto|].
    intros c Ec. rewrite (Hc u N) in Ec. destruct (V u c Ec) as (d & Ed & P & F).
    destruct (decide (dv_document_id (cell_version c) = did)) as [E|E].
    + assert (c_versions db !! u = Some (cell_version c)) as Ev.
      { unfold cell_of in Ec. destruct (c_versions db !! u) eqn:G; simplify_eq/=. done. }
      rewrite E in *. destruct (Hk u _ d N Ev E Ed) as (d' & Ed' & K). exists d'.
      split; [done|]. split; [by eapply phase_keeps|by eapply fence_keeps].
    + exists d. rewrite (Hd _ E). done.
  - intros i. destruct (decide (i = did)) as [->|N]; [done|]. intros d Ed.
    rewrite (Hd i N) in Ed. destruct (D i d Ed) as (P1 & P2 & P3). split_and!; [..|done].
    + intros u Eu. destruct (P1 u Eu) as (v & Hv & R). exists v. split; [|done].
      assert (u ∉ touched) as Nu.
      { intros I. destruct R as [R _]. specialize (Ho u v I Hv). congruence. }
      specialize (Hc u Nu). unfold cell_of in Hc. rewrite Hv in Hc.
      destruct (c_versions db' !! u); simplify_eq/=. done.
    + intros u Eu. destruct (P2 u Eu) as (v & Hv & R). exists v. split; [|done].
      assert (u ∉ touched) as Nu.
      { intros I. destruct R as [R _]. specialize (Ho u v I Hv). congruence. }
      specialize (Hc u Nu). unfold cell_of in Hc. rewrite Hv in Hc.
      destruct (c_versions db' !! u); simplify_eq/=. done.
Qed.

(** Changing one version, its jobs and its manifest under the same pointers. *)
Lemma inv_cell db db' u v v' :
  catalog_inv db -> tables_ok db' -> c_docs db' = c_docs db ->
  (forall x, x <> u -> cell_of db' x = cell_of db x) ->
  c_versions db !! u = Some v -> c_versions db' !! u = Some v' ->
  dv_document_id v' = dv_document_id v ->
  is_ready (dv_status v') = is_ready (dv_status v) ->
  is_candidate (dv_status v') = is_candidate (dv_status v) ->
  version_ok db' u -> catalog_inv db'.
Proof.
  intros I T Ed Ec Hv Hv' E1 E2 E3 Hok.
  apply (inv_change db db' [u] (dv_document_id v) I T).
  - intros i _. by rewrite Ed.
  - intros x Hx. apply Ec. intros ->. apply Hx. constructor.
  - intros x Hx. apply list_elem_of_singleton in Hx. by subst.
  - intros d Hd. rewrite Ed in Hd. destruct (inv_docs _ I _ _ Hd) as (P1 & P2 & P3).
    split_and!; [..|done]; intros x Hx;
      [destruct (P1 x Hx) as (y & Hy & Y1 & Y2)|destruct (P2 x Hx) as (y & Hy & Y1 & Y2)];
      (destruct (decide (x = u)) as [->|N];
       [exists v'; simplify_eq; split_and!; congruence
       |exists y; split; [|done];
        specialize (Ec x N); unfold cell_of in Ec; rewrite Hy in Ec;
        destruct (c_versions db' !! x); simplify_eq/=; done]).
  - intros x y d _ _ _ Hd. exists d. rewrite Ed. split; [done|].
    unfold keeps_place. split_and!; try done; try lia.
    intros Ex. destruct (inv_docs _ I _ _ Hd) as (_ & _ & P3).
    destruct (doc_deleted_at d); [|done]. destruct P3 as [P _]; [eauto|congruence].
  - intros x y Hx Hy. apply list_elem_of_singleton in Hx. subst. congruence.
Qed.
