(* ===== verification/CatalogSteps.v ===== *)
(** * Row writes and the catalogue's helpers

    How each row write moves the tables and the cells of the catalogue, and
    what the helpers shared by the operations leave behind. *)

From S2P Require Import Prelude PyBase Errors Session CatalogSchema Catalog CatalogJobs CatalogCleanup CatalogInv.

Open Scope Z_scope.

Create HintDb catalog discriminated.

(** ** Tables *)

Lemma is_Some_insert {V} (m : gmap pystr V) i x k : is_Some (m !! k) -> is_Some (<[i:=x]> m !! k).
Proof. intros [y Hy]. rewrite lookup_insert. case_decide; eauto. Qed.
#[export] Hint Resolve is_Some_insert : catalog.

Lemma map_Forall_is_Some {K V W} `{Countable K} (m : gmap K V) (f : V -> pystr) (t : gmap pystr W) i x :
  map_Forall (fun _ r => is_Some (t !! f r)) m -> map_Forall (fun _ r => is_Some (<[i:=x]> t !! f r)) m.
Proof. intros F k y Hk. apply is_Some_insert. by eapply F. Qed.

Lemma tables_put_kb k db : tables_ok db -> tables_ok (put_kb k db).
Proof.
  intros []. constructor; simpl; try done.
  - by apply map_Forall_insert_2.
  - by apply map_Forall_is_Some.
Qed.

Lemma tables_put_doc d db :
  tables_ok db -> is_Some (c_kbs db !! doc_knowledge_base_id d) -> tables_ok (put_doc d db).
Proof.
  intros T Hk. pose proof (tk_retirement _ T) as R. destruct T. constructor; simpl; try done.
  - by apply map_Forall_insert_2.
  - by apply map_Forall_insert_2.
  - by apply map_Forall_is_Some.
  - intros i r Hr. destruct (R i r Hr). split; [done|]. by apply is_Some_insert.
Qed.

Lemma tables_put_version v db :
  tables_ok db -> py_nonempty (dv_id v) = true -> is_Some (c_docs db !! dv_document_id v) ->
  tables_ok (put_version v db).
Proof.
  intros [] Hn Hd. constructor; simpl; try done.
  - by apply map_Forall_insert_2.
  - by apply map_Forall_insert_2.
  - by apply map_Forall_is_Some.
  - by apply map_Forall_is_Some.
  - by apply map_Forall_is_Some.
Qed.

Lemma tables_put_job j db :
  tables_ok db -> fits ij_document_version_id (c_jobs db) (ij_id j) j ->
  is_Some (c_versions db !! ij_document_version_id j) -> tables_ok (put_job j db).
Proof.
  intros [] F Hv. constructor; simpl; try done.
  - by apply map_Forall_insert_2.
  - by apply map_Forall_insert_2.
  - by apply ref_unique_insert.
Qed.

Lemma tables_put_cleanup c db :
  tables_ok db -> fits cj_document_version_id (c_cleanups db) (cj_id c) c ->
  is_Some (c_versions db !! cj_document_version_id c) -> tables_ok (put_cleanup c db).
Proof.
  intros [] F Hv. constructor; simpl; try done.
  - by apply map_Forall_insert_2.
  - by apply map_Forall_insert_2.
  - by apply ref_unique_insert.
Qed.

Lemma tables_put_retirement r db :
  tables_ok db -> is_Some (c_docs db !! rj_document_id r) -> tables_ok (put_retirement r db).
Proof. intros [] Hd. constructor; simpl; try done. by apply map_Forall_insert_2. Qed.

Lemma tables_put_worker r db : tables_ok db -> tables_ok (put_worker r db).
Proof. intros []. constructor; simpl; try done. by apply map_Forall_insert_2. Qed.

Lemma add_manifests_version vid now l m :
  forall i x, add_manifests vid now l m !! i = Some x ->
  mf_document_version_id x = vid \/ m !! i = Some x.
Proof.
  revert m. induction l as [|e l IH]; intros m i x Hx; [by right|]. simpl in Hx.
  destruct (IH _ _ _ Hx) as [?|H]; [by left|]. rewrite lookup_insert in H.
  case_decide; simplify_eq; [by left|by right].
Qed.

Lemma tables_replace_manifest vid now l db :
  tables_ok db -> is_Some (c_versions db !! vid) -> tables_ok (replace_manifest vid now l db).
Proof.
  intros [] Hv. constructor; simpl; try done.
  intros i x Hx. apply add_manifests_version in Hx as [->|Hx]; [done|].
  apply map_lookup_filter_Some in Hx as [Hx _]. eauto.
Qed.

#[export] Hint Resolve tables_put_kb tables_put_doc tables_put_version tables_put_job
  tables_put_cleanup tables_put_retirement tables_put_worker tables_replace_manifest : catalog.

(** ** Cells *)

Definition with_job (j : IndexJob) (c : Cell) : Cell :=
  mkCell (cell_version c) (Some j) (cell_cleanup c) (cell_vectors c) (cell_parents c).
Definition with_cleanup (x : DocumentCleanupJob) (c : Cell) : Cell :=
  mkCell (cell_version c) (cell_job c) (Some x) (cell_vectors c) (cell_parents c).

Lemma cell_put_version v db u :
  cell_of (put_version v db) u =
    if decide (u = dv_id v)
    then Some (mkCell v (job_in (c_jobs db) u) (cleanup_in (c_cleanups db) u)
                 (manifest_count db u "vector"%py) (manifest_count db u "parent"%py))
    else cell_of db u.
Proof.
  unfold cell_of. simpl. case_decide as E; subst.
  - by rewrite lookup_insert_eq.
  - by rewrite lookup_insert_ne.
Qed.

Lemma cell_put_job j db u :
  tables_ok db -> fits ij_document_version_id (c_jobs db) (ij_id j) j ->
  cell_of (put_job j db) u =
    if decide (u = ij_document_version_id j) then with_job j <$> cell_of db u else cell_of db u.
Proof.
  intros T F. unfold cell_of. simpl. rewrite by_ref_insert by (done || apply T).
  case_decide; destruct (c_versions db !! u); done.
Qed.

Lemma cell_put_cleanup c db u :
  tables_ok db -> fits cj_document_version_id (c_cleanups db) (cj_id c) c ->
  cell_of (put_cleanup c db) u =
    if decide (u = cj_document_version_id c) then with_cleanup c <$> cell_of db u else cell_of db u.
Proof.
  intros T F. unfold cell_of. simpl. rewrite by_ref_insert by (done || apply T).
  case_decide; destruct (c_versions db !! u); done.
Qed.

Lemma cell_put_doc d db u : cell_of (put_doc d db) u = cell_of db u.
Proof. done. Qed.
Lemma cell_put_kb k db u : cell_of (put_kb k db) u = cell_of db u.
Proof. done. Qed.
Lemma cell_put_retirement r db u : cell_of (put_retirement r db) u = cell_of db u.
Proof. done. Qed.

(** The cell of a version that exists. *)
Lemma cell_of_version db u v :
  c_versions db !! u = Some v ->
  cell_of db u = Some (mkCell v (job_in (c_jobs db) u) (cleanup_in (c_cleanups db) u)
                         (manifest_count db u "vector"%py) (manifest_count db u "parent"%py)).
Proof. intros E. unfold cell_of. by rewrite E. Qed.

Lemma cell_of_None db u : c_versions db !! u = None -> cell_of db u = None.
Proof. intros E. unfold cell_of. by rewrite E. Qed.

(** ** Manifests *)

Lemma add_manifests_count (p : IndexManifest -> bool) (q : ManifestEntry -> bool) vid now l m :
  (forall i e, p (manifest_row i vid now e) = q e) ->
  length (rows_where p (add_manifests vid now l m)) =
    (length (List.filter q l) + length (rows_where p m))%nat.
Proof.
  intros Hq. revert m. induction l as [|e l IH]; intros m; [done|]. simpl.
  rewrite IH, rows_where_insert, Hq by apply next_id_fresh. destruct (q e); simpl; lia.
Qed.

Lemma replace_manifest_count vid now l db u kind :
  manifest_count (replace_manifest vid now l db) u kind =
    if decide (u = vid) then count_kind kind l else manifest_count db u kind.
Proof.
  unfold manifest_count, manifest_rows, count_kind. simpl. f_equal.
  rewrite (add_manifests_count _
    (fun e => bool_decide (vid = u) && bool_decide (me_store_kind e = kind))) by done.
  match goal with |- context [rows_where ?p (filter _ _)] =>
    pose proof (rows_where_filter p (fun x => mf_document_version_id x <> vid) (c_manifests db)) as E
  end.
  rewrite E. clear E.
  case_decide as E; subst.
  - rewrite (bool_decide_eq_true_2 (vid = vid)) by done. simpl.
    rewrite (proj2 (rows_where_nil _ _)); [simpl; lia|].
    intros i x _. rewrite (bool_decide_decide (mf_document_version_id x <> vid)).
    repeat case_decide; repeat case_bool_decide; done.
  - rewrite (bool_decide_eq_false_2 (vid = u)) by congruence. simpl.
    replace (List.filter (fun _ => false) l) with (@nil ManifestEntry) by (induction l; done).
    simpl. do 2 f_equal. apply rows_where_ext. intros x. repeat case_bool_decide; simpl; congruence.
Qed.

(** ** What the helpers leave behind *)

Lemma put_version_id v db : c_versions db !! dv_id v = Some v -> put_version v db = db.
Proof. intros H. unfold put_version. rewrite insert_id by done. by destruct db. Qed.

Lemma put_cleanup_id c db : c_cleanups db !! cj_id c = Some c -> put_cleanup c db = db.
Proof. intros H. unfold put_cleanup. rewrite insert_id by done. by destruct db. Qed.

Lemma fits_old {V} (ref : V -> pystr) m i x y :
  m !! i = Some x -> ref x = ref y -> fits ref m i y.
Proof. intros. left. eauto. Qed.
Lemma fits_new {V} (ref : V -> pystr) m i y :
  m !! i = None -> by_ref ref m (ref y) = None -> fits ref m i y.
Proof. intros. by right. Qed.
#[export] Hint Resolve fits_old fits_new : catalog.

Lemma job_graph_inv jid w j v d k w' :
  _job_graph jid None w = (Ret (j, v, d, k), w') ->
  w' = w /\ c_jobs (w_db w) !! jid = Some j /\
  c_versions (w_db w) !! ij_document_version_id j = Some v /\
  c_docs (w_db w) !! dv_document_id v = Some d /\ c_kbs (w_db w) !! doc_knowledge_base_id d = Some k.
Proof.
  unfold _job_graph. intros H. minv. destruct (c_jobs (w_db w) !! jid) as [j0|] eqn:E; [|done].
  unfold graph_of in Q. simpl in Q.
  destruct (c_versions (w_db w) !! _) as [v0|] eqn:E1; [|done]; simpl in Q.
  destruct (c_docs (w_db w) !! _) as [d0|] eqn:E2; [|done]; simpl in Q.
  destruct (c_kbs (w_db w) !! _) as [k0|] eqn:E3; [|done]; simplify_eq/=. done.
Qed.

Lemma cleanup_graph_inv jid w c v d k w' :
  _cleanup_graph jid w = (Ret (c, v, d, k), w') ->
  w' = w /\ c_cleanups (w_db w) !! jid = Some c /\
  c_versions (w_db w) !! cj_document_version_id c = Some v /\
  c_docs (w_db w) !! dv_document_id v = Some d /\ c_kbs (w_db w) !! doc_knowledge_base_id d = Some k.
Proof.
  unfold _cleanup_graph. intros H. minv. destruct (c_cleanups (w_db w) !! jid) as [j0|] eqn:E; [|done].
  unfold cleanup_graph_of in Q. simpl in Q.
  destruct (c_versions (w_db w) !! _) as [v0|] eqn:E1; [|done]; simpl in Q.
  destruct (c_docs (w_db w) !! _) as [d0|] eqn:E2; [|done]; simpl in Q.
  destruct (c_kbs (w_db w) !! _) as [k0|] eqn:E3; [|done]; simplify_eq/=. done.
Qed.

Lemma update_document_inv did cond f w n w' :
  update_document did cond f w = (Ret n, w') -> n = 1 ->
  exists d, c_docs (w_db w) !! did = Some d /\ cond d = true /\ w_db w' = put_doc (f d) (w_db w).
Proof.
  unfold update_document, save_doc. intros H ->. minv; try done. eexists. split_and!; done.
Qed.

Lemma required_text_inv env s f n w t w' : _required_text env s f n w = (Ret t, w') -> w' = w.
Proof. unfold _required_text. intros H. minv. done. Qed.

Lemma content_hash_inv s w t w' : _content_hash s w = (Ret t, w') -> w' = w.
Proof. unfold _content_hash. intros H. minv. done. Qed.

Lemma lease_clock_inv o w t w' : _lease_clock o w = (Ret t, w') -> w_db w' = w_db w.
Proof. unfold _lease_clock, _database_now. intros H. minv; done. Qed.

Lemma database_now_inv w t w' : _database_now w = (Ret t, w') -> w_db w' = w_db w.
Proof. unfold _database_now. intros H. by minv. Qed.

Lemma new_id_inv p w t w' : _new_id p w = (Ret t, w') -> w_db w' = w_db w.
Proof. unfold _new_id. intros H. by minv. Qed.

Lemma bump_inv k now w u w' :
  _bump_revision k now w = (Ret u, w') -> exists k', kb_id k' = kb_id k /\ w_db w' = put_kb k' (w_db w).
Proof. unfold _bump_revision, save_kb. intros H. minv. eexists. split; [|reflexivity]. done. Qed.

Lemma assert_execution_inv j x t w u w' : _assert_index_execution j x t w = (Ret u, w') ->
  w' = w /\ (x = None /\ ij_owner_worker_id j = None \/
    exists e l, x = Some e /\ ij_owner_worker_id j = Some (ix_worker_id e) /\
      ij_execution_fence j = ix_execution_fence e /\ ij_lease_expires_at j = Some l /\ t < l).
Proof.
  unfold _assert_index_execution. intros H. minv; [split; [done|]|split; [done|by left]].
  right. unfold lease_expired in *. destruct (ij_lease_expires_at j) as [l|];
    bool_to_prop; [|done]. exists i, l. split_and!; try done. by apply dec_stable.
Qed.

Lemma assert_cleanup_inv c x t w u w' : _assert_cleanup_execution c x t w = (Ret u, w') ->
  w' = w /\ cj_owner_worker_id c = Some (cx_worker_id x) /\ cj_execution_fence c = cx_execution_fence x /\
  cj_status c = C_RUNNING /\ exists l, cj_lease_expires_at c = Some l /\ t < l.
Proof.
  unfold _assert_cleanup_execution. intros H. minv. unfold lease_expired in *.
  destruct (cj_lease_expires_at c) as [l|]; bool_to_prop; [|done].
  split_and!; try done; try (by apply dec_stable). eauto.
Qed.

Lemma assert_candidate_inv d j v f w u w' : _assert_candidate d j v f w = (Ret u, w') ->
  w' = w /\ index_terminal (ij_status j) = false /\ f = ij_publication_fence j /\
  f = doc_publication_fence d /\ doc_pending_version_id d = Some (dv_id v) /\ doc_deleted_at d = None.
Proof.
  unfold _assert_candidate. intros H. minv. bool_to_prop. split_and!; try done.
  - by apply dec_stable.
  - destruct (doc_deleted_at d); [|done]. exfalso. eauto.
Qed.

(** The cleanup job of a version that just died: the one it had, possibly due
    sooner, or a new pending one. *)
Definition cleanup_scheduled (old : option DocumentCleanupJob) (c : DocumentCleanupJob) : Prop :=
  match old with
  | Some c0 => cj_status c = cj_status c0 /\ (cleanup_row_ok c0 -> cleanup_row_ok c)
  | None => cj_status c = C_PENDING /\ cleanup_row_ok c
  end.

Lemma ensure_cleanup_inv vid t m w u w' :
  tables_ok (w_db w) -> _ensure_cleanup_job vid t m w = (Ret u, w') ->
  exists c, w_db w' = put_cleanup c (w_db w) /\ cj_document_version_id c = vid /\
    fits cj_document_version_id (c_cleanups (w_db w)) (cj_id c) c /\
    cleanup_scheduled (cleanup_in (c_cleanups (w_db w)) vid) c.
Proof.
  intros T H. unfold _ensure_cleanup_job, cleanup_for_version in H.
  apply bind_inv in H as (db & w1 & [-> ->]%get_db_inv & H).
  change (first_where _ (c_cleanups (w_db w))) with (cleanup_in (c_cleanups (w_db w)) vid) in H.
  destruct (cleanup_in (c_cleanups (w_db w)) vid) as [c0|] eqn:E.
  - apply by_ref_Some in E as (i & Hi & Ev); [|apply T].
    pose proof (tk_cleanup _ T i c0 Hi) as Ei. simpl in Ei. subst i.
    destruct (_ && _) eqn:B in H.
    + unfold save_cleanup in H. minv. eexists. split; [reflexivity|]. split_and!; [done|by eapply fits_old|].
      split; [done|]. intros (A1 & A2 & A3). unfold cleanup_row_ok. simpl. split; [done|]. split; [done|].
      bool_cases; destruct (cj_status c0); try done; destruct A3; split; eauto.
    + minv. exists c0. rewrite put_cleanup_id by done. split_and!; [done|done|by eapply fits_old|done].
  - minv. apply new_id_inv in R0. simpl in R0. unfold add_cleanup, save_cleanup in H. minv.
    rewrite R0 in *. eexists. split; [reflexivity|]. split_and!; [done|..].
    + apply fits_new; [|done]. simpl. rewrite bool_decide_eq_false in G. by apply eq_None_not_Some.
    + split; [done|]. unfold cleanup_row_ok. simpl. split_and!; [lia|lia|done|eauto].
Qed.

(** The tables after a version is superseded, before its cleanup is scheduled. *)
Definition job_cancelled (cancel : bool) (now : datetime) (vid : pystr) (db : CatalogDb) : CatalogDb :=
  if cancel then
    match job_in (c_jobs db) vid with
    | Some j => if index_terminal (ij_status j) then db else put_job (cancelled_job now j) db
    | None => db
    end
  else db.

Lemma job_in_fits db u j now :
  tables_ok db -> job_in (c_jobs db) u = Some j ->
  c_jobs db !! ij_id j = Some j /\ ij_document_version_id j = u /\
  fits ij_document_version_id (c_jobs db) (ij_id j) (cancelled_job now j).
Proof.
  intros T E. apply by_ref_Some in E as (i & Hi & Ev); [|apply T].
  pose proof (tk_job _ T i j Hi) as Ei. simpl in Ei. subst i. split_and!; [done..|]. by eapply fits_old.
Qed.

Lemma tables_job_cancelled cancel now u db : tables_ok db -> tables_ok (job_cancelled cancel now u db).
Proof.
  intros T. unfold job_cancelled. destruct cancel; [|done].
  destruct (job_in _ u) as [j|] eqn:E; [|done]. destruct (index_terminal _); [done|].
  destruct (job_in_fits db u j now T E) as (Hj & Ev & F). apply tables_put_job; [done..|].
  apply (tk_job_version _ T _ _ Hj).
Qed.

Lemma supersede_inv v now ca cancel w v' w' :
  tables_ok (w_db w) -> py_nonempty (dv_id v) = true -> is_Some (c_docs (w_db w) !! dv_document_id v) ->
  _supersede_version v now ca cancel w = (Ret v', w') ->
  let db1 := put_version v' (w_db w) in
  v' = superseded_version now ca v /\
  exists c, w_db w' = put_cleanup c (job_cancelled cancel now (dv_id v) db1) /\
    cj_document_version_id c = dv_id v /\
    fits cj_document_version_id (c_cleanups (w_db w)) (cj_id c) c /\
    cleanup_scheduled (cleanup_in (c_cleanups (w_db w)) (dv_id v)) c.
Proof.
  intros T Hn Hd H db1. unfold _supersede_version, save_version in H.
  apply bind_inv in H as (u & w1 & ->%modify_db_inv & H).
  apply bind_inv in H as (db & w2 & [-> ->]%get_db_inv & H).
  apply bind_inv in H as (n & w3 & Hj & H). apply bind_inv in H as (u2 & w4 & He & H).
  apply ret_inv in H as [<- <-]. simpl w_db in *. simpl dv_id in *.
  assert (tables_ok db1) as T1 by by apply tables_put_version.
  assert (w_db w3 = job_cancelled cancel now (dv_id v) db1) as E3.
  { unfold job_cancelled. destruct cancel; [|by minv].
    unfold _job_for_version, save_job in Hj.
    change (first_where _ (c_jobs _)) with (job_in (c_jobs (w_db w)) (dv_id v)) in Hj.
    change (c_jobs db1) with (c_jobs (w_db w)).
    destruct (job_in _ _) as [j|]; [|by minv]. destruct (index_terminal _); by minv. }
  apply ensure_cleanup_inv in He as (c & Ew & Ec & F & S); [|rewrite E3; by apply tables_job_cancelled].
  split; [done|]. exists c. rewrite Ew, E3. split; [done|].
  assert (c_cleanups (w_db w3) = c_cleanups (w_db w)) as Ecl.
  { rewrite E3. unfold job_cancelled. destruct cancel; [|done]. destruct (job_in _ _); [|done].
    by destruct (index_terminal _). }
  rewrite Ecl in *. done.
Qed.

Ltac cinv_step :=
  match goal with
  | H : _job_graph _ None _ = (Ret (_, _, _, _), _) |- _ =>
      let Hj := fresh "Hj" in let Hv := fresh "Hv" in let Hd := fresh "Hd" in let Hk := fresh "Hk" in
      let E := fresh "E" in
      apply job_graph_inv in H as (E & Hj & Hv & Hd & Hk); subst
  | H : _cleanup_graph _ _ = (Ret (_, _, _, _), _) |- _ =>
      let Hj := fresh "Hc" in let Hv := fresh "Hv" in let Hd := fresh "Hd" in let Hk := fresh "Hk" in
      let E := fresh "E" in
      apply cleanup_graph_inv in H as (E & Hj & Hv & Hd & Hk); subst
  | H : _required_text _ _ _ _ _ = (Ret _, _) |- _ => apply required_text_inv in H; subst
  | H : _content_hash _ _ = (Ret _, _) |- _ => apply content_hash_inv in H; subst
  | H : _lease_clock _ _ = (Ret _, _) |- _ =>
      let E := fresh "Edb" in apply lease_clock_inv in H as E; clear H
  | H : _database_now _ = (Ret _, _) |- _ =>
      let E := fresh "Edb" in apply database_now_inv in H as E; clear H
  | H : _assert_index_execution _ _ _ _ = (Ret _, _) |- _ =>
      let E := fresh "E" in let Hx := fresh "Hx" in
      apply assert_execution_inv in H as (E & Hx); subst
  | H : _assert_cleanup_execution _ _ _ _ = (Ret _, _) |- _ =>
      let E := fresh "E" in let Hx := fresh "Hx" in
      apply assert_cleanup_inv in H as (E & Hx); subst
  | H : _assert_candidate _ _ _ _ _ = (Ret _, _) |- _ =>
      let E := fresh "E" in let Ht := fresh "Ht" in let Hf := fresh "Hf" in let Hg := fresh "Hg" in
      let Hp := fresh "Hp" in let Hl := fresh "Hl" in
      apply assert_candidate_inv in H as (E & Ht & Hf & Hg & Hp & Hl); subst
  | H : _bump_revision _ _ _ = (Ret _, _) |- _ =>
      let k := fresh "k" in let Ek := fresh "Ek" in let E := fresh "Edb" in
      apply bump_inv in H as (k & Ek & E)
  end.
Ltac cinv := repeat (first [cinv_step | minv_step];
  cbn [w_db w_clock w_tick w_uuid w_uuid_next set_w_db set_w_tick set_w_uuid_next] in *).
