(* ===== verification/CatalogSafety.v ===== *)
(** * Changes that keep the catalogue's invariant

    The shapes of change the operations of [backend/documents/catalog.py] are made
    of: new columns in the rows of one version, a candidate that dies, goes live
    or is added, a document that is touched, a cleanup job that moves. *)

From S2P Require Import Prelude PyBase Errors Session CatalogSchema Catalog CatalogJobs CatalogCleanup CatalogInv CatalogSteps.

Open Scope Z_scope.

(** ** Shapes of change *)

Lemma inv_put_kb k db : catalog_inv db -> catalog_inv (put_kb k db).
Proof. intros [T V D]. constructor; [by apply tables_put_kb|exact V|exact D]. Qed.

Lemma inv_put_retirement r db :
  catalog_inv db -> is_Some (c_docs db !! rj_document_id r) -> catalog_inv (put_retirement r db).
Proof. intros [T V D] H. constructor; [by apply tables_put_retirement|exact V|exact D]. Qed.

Lemma inv_put_worker r db : catalog_inv db -> catalog_inv (put_worker r db).
Proof. intros [T V D]. constructor; [by apply tables_put_worker|exact V|exact D]. Qed.

(** The rows of a job and its version, and what the invariant says of them. *)
Record graph_at (db : CatalogDb) (j : IndexJob) (v : DocumentVersion) (d : Document) : Prop := {
  ga_job : c_jobs db !! ij_id j = Some j;
  ga_version : c_versions db !! dv_id v = Some v;
  ga_ref : ij_document_version_id j = dv_id v;
  ga_doc : c_docs db !! doc_id d = Some d;
  ga_doc_ref : dv_document_id v = doc_id d;
  ga_nonempty : py_nonempty (dv_id v) = true;
  ga_kb : is_Some (c_kbs db !! doc_knowledge_base_id d)
}.

Definition cell_at (db : CatalogDb) (v : DocumentVersion) (oj : option IndexJob) : Cell :=
  mkCell v oj (cleanup_in (c_cleanups db) (dv_id v))
    (manifest_count db (dv_id v) "vector"%py) (manifest_count db (dv_id v) "parent"%py).

Lemma graph_at_intro db jid j v d :
  catalog_inv db -> c_jobs db !! jid = Some j -> c_versions db !! ij_document_version_id j = Some v ->
  c_docs db !! dv_document_id v = Some d -> graph_at db j v d /\ ij_id j = jid.
Proof.
  intros [T _ _] Hj Hv Hd. pose proof (tk_job _ T _ _ Hj) as E1. simpl in E1.
  destruct (tk_version _ T _ _ Hv) as [E2 E3]. simpl in E2, E3.
  pose proof (tk_doc _ T _ _ Hd) as E4. simpl in E4.
  pose proof (tk_doc_kb _ T _ _ Hd) as E5. simpl in E5.
  split; [|done]. constructor; congruence.
Qed.

Lemma graph_job_in db j v d : tables_ok db -> graph_at db j v d -> job_in (c_jobs db) (dv_id v) = Some j.
Proof. intros T []. apply by_ref_Some; [apply T|]. eauto. Qed.

Lemma graph_cell db j v d :
  catalog_inv db -> graph_at db j v d ->
  phase_ok d (dv_id v) (cell_at db v (Some j)) /\ fence_ok d (cell_at db v (Some j)).
Proof.
  intros I G. pose proof (graph_job_in db j v d (inv_tables _ I) G) as Ej.
  assert (cell_of db (dv_id v) = Some (cell_at db v (Some j))) as Ec.
  { rewrite (cell_of_version _ _ v) by apply G. by rewrite Ej. }
  destruct (inv_versions _ I _ _ Ec) as (d' & Hd' & P & F). simpl in Hd'.
  rewrite (ga_doc_ref _ _ _ _ G), (ga_doc _ _ _ _ G) in Hd'. by simplify_eq.
Qed.

(** New columns in the rows of one version: its pointers and its place stay. *)
Lemma inv_update db j v d j' v' :
  catalog_inv db -> graph_at db j v d ->
  dv_id v' = dv_id v -> dv_document_id v' = dv_document_id v ->
  ij_id j' = ij_id j -> ij_document_version_id j' = ij_document_version_id j ->
  is_ready (dv_status v') = is_ready (dv_status v) ->
  is_candidate (dv_status v') = is_candidate (dv_status v) ->
  phase_ok d (dv_id v) (cell_at db v' (Some j')) -> fence_ok d (cell_at db v' (Some j')) ->
  catalog_inv (put_job j' (put_version v' db)).
Proof.
  intros I G Ei Ed Ej Er R1 R2 P F. pose proof (inv_tables _ I) as T.
  assert (tables_ok (put_version v' db)) as T1.
  { apply tables_put_version; [done|rewrite Ei; apply G|]. rewrite Ed, (ga_doc_ref _ _ _ _ G).
    rewrite (ga_doc _ _ _ _ G). eauto. }
  assert (fits ij_document_version_id (c_jobs (put_version v' db)) (ij_id j') j') as Fj.
  { eapply fits_old; [rewrite Ej; apply G|done]. }
  assert (ij_document_version_id j' = dv_id v') as Er' by (rewrite Er, Ei; apply G).
  apply (inv_cell db _ (dv_id v) v v' I); try done.
  - apply tables_put_job; [done..|]. simpl. rewrite Er', lookup_insert_eq. eauto.
  - intros x Hx. rewrite cell_put_job by done. rewrite decide_False by congruence.
    rewrite cell_put_version. by rewrite decide_False by congruence.
  - apply G.
  - simpl. rewrite <- Ei. apply lookup_insert_eq.
  - intros c Ec. rewrite cell_put_job in Ec by done. rewrite decide_True in Ec by congruence.
    rewrite cell_put_version, decide_True in Ec by done. simplify_eq/=.
    exists d. split; [rewrite Ed, (ga_doc_ref _ _ _ _ G); apply G|].
    unfold cell_at, with_job in *. rewrite Ei in *. simpl in *. done.
Qed.

Lemma inv_update_job db j v d j' :
  catalog_inv db -> graph_at db j v d ->
  ij_id j' = ij_id j -> ij_document_version_id j' = ij_document_version_id j ->
  phase_ok d (dv_id v) (cell_at db v (Some j')) -> fence_ok d (cell_at db v (Some j')) ->
  catalog_inv (put_job j' db).
Proof.
  intros I G Ei Er P F. rewrite <- (put_version_id v db) by apply G.
  by apply (inv_update db j v d j' v).
Qed.

(** A cleanup job and its dead version move together. *)
Lemma inv_update_cleanup db c v d c' v' :
  catalog_inv db -> c_cleanups db !! cj_id c = Some c -> cj_document_version_id c = dv_id v ->
  c_versions db !! dv_id v = Some v -> c_docs db !! dv_document_id v = Some d ->
  dv_id v' = dv_id v -> dv_document_id v' = dv_document_id v ->
  dv_status v' = dv_status v -> dv_version_number v' = dv_version_number v ->
  cj_id c' = cj_id c -> cj_document_version_id c' = cj_document_version_id c ->
  is_Some (dv_cleanup_after v') ->
  (cleanup_row_ok c -> (is_Some (dv_index_cleaned_at v) <-> cj_status c = C_COMPLETED) ->
     cleanup_row_ok c' /\ (is_Some (dv_index_cleaned_at v') <-> cj_status c' = C_COMPLETED)) ->
  catalog_inv (put_cleanup c' (put_version v' db)).
Proof.
  intros I Hc Er Hv Hd E1 E2 E3 E4 E5 E6 Ha Hok. pose proof (inv_tables _ I) as T.
  destruct (tk_version _ T _ _ Hv) as [_ Hn]. simpl in Hn.
  assert (tables_ok (put_version v' db)) as T1.
  { apply tables_put_version; [done|congruence|]. rewrite E2. eauto. }
  assert (fits cj_document_version_id (c_cleanups (put_version v' db)) (cj_id c') c') as Fc.
  { eapply fits_old; [simpl; rewrite E5; apply Hc|done]. }
  assert (cj_document_version_id c' = dv_id v') as Er' by congruence.
  assert (cleanup_in (c_cleanups db) (dv_id v) = Some c) as Ecl.
  { apply by_ref_Some; [apply T|]. eauto. }
  apply (inv_cell db _ (dv_id v) v v' I); try done; try by rewrite E3.
  - apply tables_put_cleanup; [done..|]. simpl. rewrite Er', lookup_insert_eq. eauto.
  - intros x Hx. rewrite cell_put_cleanup by done. rewrite decide_False by congruence.
    rewrite cell_put_version. by rewrite decide_False by congruence.
  - simpl. rewrite <- E1. apply lookup_insert_eq.
  - intros x Ec. rewrite cell_put_cleanup in Ec by done. rewrite decide_True in Ec by congruence.
    rewrite cell_put_version, decide_True in Ec by done. simplify_eq/=.
    exists d. split; [by rewrite E2|].
    destruct (inv_versions _ I _ _ (cell_of_version _ _ _ Hv)) as (d0 & Hd0 & P & F). simpl in Hd0.
    simplify_eq. rewrite Ecl in P. split.
    + destruct (phase_cleanup _ _ _ c P eq_refl) as [S (P1 & P2 & P3 & P4 & x & Ex & P5 & P6)].
      simplify_eq/=. assert (dead d (dv_id v') (with_cleanup c'
        (mkCell v' (job_in (c_jobs db) (dv_id v')) (cleanup_in (c_cleanups db) (dv_id v'))
           (manifest_count db (dv_id v') "vector"%py) (manifest_count db (dv_id v') "parent"%py)))) as Dd.
      { rewrite E1. split_and!; try done. exists c'. split; [done|]. by apply Hok. }
      unfold phase_ok, dead_status in *. simpl in *. rewrite E3. rewrite <- E1. by destruct (dv_status v).
    + unfold fence_ok in *. simpl in *. by rewrite E4.
Qed.

(** ** Moving the pointers of one document *)

Lemma version_frame db db' u x v :
  (forall y, y <> u -> cell_of db' y = cell_of db y) -> x <> u ->
  c_versions db !! x = Some v -> c_versions db' !! x = Some v.
Proof.
  intros Ec N Hv. specialize (Ec x N). unfold cell_of in Ec. rewrite Hv in Ec.
  destruct (c_versions db' !! x); simplify_eq/=; done.
Qed.

Lemma pointer_frame db db' u did p ok :
  (forall y, y <> u -> cell_of db' y = cell_of db y) -> p <> Some u ->
  pointer_ok db did p ok -> pointer_ok db' did p ok.
Proof.
  intros Ec N P x Hx. destruct (P x Hx) as (v & Hv & R). exists v. split; [|done].
  eapply version_frame; [done| |done]. congruence.
Qed.

Lemma pointer_None db did ok : pointer_ok db did None ok.
Proof. done. Qed.

Lemma pointer_to db did u v ok :
  c_versions db !! u = Some v -> dv_document_id v = did -> ok (dv_status v) = true ->
  pointer_ok db did (Some u) ok.
Proof. intros Hv Hd Ho x Hx. simplify_eq. eauto. Qed.
#[export] Hint Resolve pointer_None pointer_to : catalog.

Lemma inv_one db db' u d d' :
  catalog_inv db -> tables_ok db' -> c_docs db !! doc_id d = Some d ->
  c_docs db' = <[doc_id d := d']> (c_docs db) ->
  (forall x, x <> u -> cell_of db' x = cell_of db x) ->
  (forall v, c_versions db !! u = Some v -> dv_document_id v = doc_id d) ->
  version_ok db' u ->
  pointer_ok db' (doc_id d) (doc_current_version_id d') is_ready ->
  pointer_ok db' (doc_id d) (doc_pending_version_id d') is_candidate ->
  (is_Some (doc_deleted_at d') -> doc_current_version_id d' = None /\ doc_pending_version_id d' = None) ->
  (forall x, x <> u -> keeps_place d d' x) ->
  catalog_inv db'.
Proof.
  intros I T Hd Ed Ec Hu Hok P1 P2 P3 K. apply (inv_change db db' [u] (doc_id d) I T).
  - intros i Hi. by rewrite Ed, lookup_insert_ne.
  - intros x Hx. apply Ec. intros ->. apply Hx. constructor.
  - intros x ->%list_elem_of_singleton. done.
  - intros y Hy. rewrite Ed, lookup_insert_eq in Hy. by simplify_eq.
  - intros x v y Hx Hv Ev Hy. exists d'. rewrite Ed, lookup_insert_eq. split; [done|].
    simplify_eq. apply K. intros ->. apply Hx. constructor.
  - intros x v ->%list_elem_of_singleton. apply Hu.
Qed.

(** What a document keeps when its pointers move. *)
Definition same_document (d d' : Document) : Prop :=
  doc_id d' = doc_id d /\ doc_knowledge_base_id d' = doc_knowledge_base_id d /\
  doc_publication_fence d <= doc_publication_fence d' /\
  doc_version_counter d <= doc_version_counter d'.

(** The rows of a version that has just died. *)
Definition died (v v' : DocumentVersion) : Prop :=
  dv_id v' = dv_id v /\ dv_document_id v' = dv_document_id v /\
  dv_version_number v' = dv_version_number v /\
  dead_status (dv_status v') = true /\ is_Some (dv_cleanup_after v') /\
  dv_index_cleaned_at v' = dv_index_cleaned_at v.

Definition job_ended (j j' : IndexJob) : Prop :=
  ij_id j' = ij_id j /\ ij_document_version_id j' = ij_document_version_id j /\
  ij_publication_fence j' = ij_publication_fence j /\ ij_execution_fence j' = ij_execution_fence j /\
  ij_max_attempts j' = ij_max_attempts j /\
  index_terminal (ij_status j') = true /\ job_unowned j'.

Lemma phase_of_dead d u c : dead_status (dv_status (cell_version c)) = true -> dead d u c -> phase_ok d u c.
Proof. unfold phase_ok. by destruct (dv_status _). Qed.

(** A version leaves the pointer that named it and dies. *)
Lemma inv_die db j v d j' v' d' c :
  catalog_inv db -> graph_at db j v d ->
  died v v' -> job_ended j j' -> same_document d d' -> doc_publication_fence d' = doc_publication_fence d ->
  doc_deleted_at d' = doc_deleted_at d ->
  dead_status (dv_status v) = false ->
  (doc_pending_version_id d = Some (dv_id v) /\ doc_pending_version_id d' = None /\
     doc_current_version_id d' = doc_current_version_id d \/
   doc_current_version_id d = Some (dv_id v) /\ doc_current_version_id d' = None /\
     doc_pending_version_id d' = doc_pending_version_id d) ->
  cj_document_version_id c = dv_id v -> fits cj_document_version_id (c_cleanups db) (cj_id c) c ->
  cleanup_scheduled (cleanup_in (c_cleanups db) (dv_id v)) c ->
  catalog_inv (put_cleanup c (put_doc d' (put_job j' (put_version v' db)))).
Proof.
  intros I G (V1 & V2 & V3 & V4 & V5 & V6) (J1 & J2 & J3 & J4 & J5 & J6 & J7) (D1 & D2 & D3 & D4) Df Dd Nd
    Hp C1 C2 C3.
  pose proof (inv_tables _ I) as T. destruct (graph_cell db j v d I G) as [P F].
  destruct G as [Gj Gv Gr Gd Ge Gn Gk].
  assert (cleanup_in (c_cleanups db) (dv_id v) = None /\ dv_index_cleaned_at v = None /\
    doc_deleted_at d = None /\ (doc_pending_version_id d = Some (dv_id v) -> doc_current_version_id d <> Some (dv_id v))
    /\ (doc_current_version_id d = Some (dv_id v) -> doc_pending_version_id d <> Some (dv_id v))) as (N1 & N2 & N3 & N4 & N5).
  { unfold phase_ok, live, published in P. simpl in P. destruct (dv_status v); try done;
      destruct_and? P; split_and!; try done; congruence. }
  rewrite N1 in C3. destruct C3 as [C3 C4].
  assert (tables_ok (put_version v' db)) as T1.
  { apply tables_put_version; [done|congruence|]. rewrite V2, Ge, Gd. eauto. }
  assert (tables_ok (put_job j' (put_version v' db))) as T2.
  { apply tables_put_job; [done|eapply fits_old; [by rewrite J1|done]|]. simpl.
    rewrite J2, Gr, <- V1, lookup_insert_eq. eauto. }
  assert (tables_ok (put_doc d' (put_job j' (put_version v' db)))) as T3.
  { apply tables_put_doc; [done|]. simpl. by rewrite D2. }
  assert (fits ij_document_version_id (c_jobs (put_version v' db)) (ij_id j') j') as Fj.
  { eapply fits_old; [by rewrite J1|done]. }
  set (db' := put_cleanup c (put_doc d' (put_job j' (put_version v' db)))).
  assert (forall x, cell_of db' x = if decide (x = dv_id v)
    then with_cleanup c <$> (with_job j' <$> cell_of (put_version v' db) x) else cell_of db x) as Cx.
  { intros x. unfold db'. rewrite cell_put_cleanup, cell_put_doc, cell_put_job, cell_put_version by done.
    rewrite C1, J2, Gr, V1. by case_decide. }
  assert (forall x, x <> dv_id v -> cell_of db' x = cell_of db x) as Fr.
  { intros x Hx. by rewrite Cx, decide_False. }
  eapply (inv_one db db' (dv_id v) d d' I); try done.
  - apply tables_put_cleanup; [done|done|]. simpl. rewrite C1, <- V1, lookup_insert_eq. eauto.
  - simpl. by rewrite D1.
  - intros x Hx. congruence.
  - intros x Ec. rewrite Cx, decide_True in Ec by done.
    rewrite cell_put_version, decide_True in Ec by congruence. simplify_eq/=.
    exists d'. split; [rewrite V2, Ge, <- D1; apply lookup_insert_eq|]. split.
    + apply phase_of_dead; [done|]. unfold dead. simpl.
      split_and!; [destruct Hp as [(?&?&->)|(?&->&?)]; auto|destruct Hp as [(?&->&?)|(?&?&->)]; auto|..].
      * eauto.
      * done.
      * exists c. split_and!; try done. rewrite V6, N2, C3. split; [by intros []|done].
    + destruct F as [F1 F2]. simpl in F1, F2. split; simpl; [lia|].
      rewrite J3, J4, J5. destruct F2 as (? & ? & ?). split_and!; [lia|done..].
  - destruct (inv_docs _ I _ _ Gd) as (P1 & _ & _).
    destruct Hp as [(E1 & E2 & ->)|(E1 & -> & E2)]; [|done].
    eapply (pointer_frame db _ (dv_id v)); [done|auto|done].
  - destruct (inv_docs _ I _ _ Gd) as (_ & P2 & _).
    destruct Hp as [(E1 & -> & E2)|(E1 & E2 & ->)]; [done|].
    eapply (pointer_frame db _ (dv_id v)); [done|auto|done].
  - rewrite Dd, N3. by intros [].
  - intros x Hx. unfold keeps_place. rewrite Dd, Df.
    destruct Hp as [(E1 & E2 & E3)|(E1 & E2 & E3)]; rewrite E2, E3; split_and!; try done; try lia;
      split; congruence.
Qed.

(** The candidate of a document without a current version becomes current. *)
Lemma inv_go_live db j v d j' v' d' :
  catalog_inv db -> graph_at db j v d ->
  dv_id v' = dv_id v -> dv_document_id v' = dv_document_id v ->
  dv_version_number v' = dv_version_number v -> dv_status v' = V_READY ->
  dv_index_cleaned_at v' = None -> exact_manifest (cell_at db v' (Some j')) ->
  job_ended j j' -> ij_status j' = J_COMPLETED -> same_document d d' ->
  doc_pending_version_id d = Some (dv_id v) -> doc_current_version_id d = None ->
  doc_current_version_id d' = Some (dv_id v) -> doc_pending_version_id d' = None ->
  doc_deleted_at d' = doc_deleted_at d ->
  catalog_inv (put_doc d' (put_job j' (put_version v' db))).
Proof.
  intros I G V1 V2 V3 V4 V5 V6 (J1 & J2 & J3 & J4 & J5 & J6 & J7) Js (D1 & D2 & D3 & D4) Hp Hc Hc' Hp' Hd'.
  pose proof (inv_tables _ I) as T. destruct (graph_cell db j v d I G) as [P F].
  pose proof (graph_job_in db j v d T G) as Ejob. destruct G as [Gj Gv Gr Gd Ge Gn Gk].
  destruct (phase_pending _ _ _ P Hp) as [_ (_ & _ & N1 & N2 & _)]. simpl in N2.
  assert (tables_ok (put_version v' db)) as T1.
  { apply tables_put_version; [done|congruence|]. rewrite V2, Ge, Gd. eauto. }
  assert (fits ij_document_version_id (c_jobs (put_version v' db)) (ij_id j') j') as Fj.
  { eapply fits_old; [by rewrite J1|done]. }
  assert (tables_ok (put_job j' (put_version v' db))) as T2.
  { apply tables_put_job; [done|done|]. simpl. rewrite J2, Gr, <- V1, lookup_insert_eq. eauto. }
  set (db' := put_doc d' (put_job j' (put_version v' db))).
  assert (forall x, cell_of db' x = if decide (x = dv_id v)
    then with_job j' <$> cell_of (put_version v' db) x else cell_of db x) as Cx.
  { intros x. unfold db'. rewrite cell_put_doc, cell_put_job, cell_put_version by done.
    rewrite J2, Gr, V1. by case_decide. }
  eapply (inv_one db db' (dv_id v) d d' I); try done.
  - apply tables_put_doc; [done|]. simpl. by rewrite D2.
  - simpl. by rewrite D1.
  - intros x Hx. by rewrite Cx, decide_False.
  - intros x Hx. congruence.
  - intros x Ec. rewrite Cx, decide_True in Ec by done.
    rewrite cell_put_version, decide_True in Ec by congruence. simplify_eq/=.
    exists d'. split; [rewrite V2, Ge, <- D1; apply lookup_insert_eq|]. split.
    + unfold phase_ok, published. simpl. rewrite V4. unfold exact_manifest, cell_at in *. simpl in *.
      rewrite V1 in V6. split_and!; try done; try congruence; [|apply V6..]. exists j'. done.
    + destruct F as [F1 F2]. simpl in F1, F2. split; simpl; [lia|].
      rewrite J3, J4, J5. destruct F2 as (? & ? & ?). split_and!; [lia|done..].
  - rewrite Hc'. eapply pointer_to; [simpl; rewrite <- V1; apply lookup_insert_eq|congruence|].
    rewrite V4. by apply bool_decide_eq_true.
  - rewrite Hp'. apply pointer_None.
  - rewrite Hd', N1. by intros [].
  - intros x Hx. unfold keeps_place. rewrite Hc', Hp', Hc, Hp, Hd'.
    split_and!; try done; split; congruence.
Qed.

(** A new candidate of a document that has none. *)
Lemma inv_add_candidate db d d' v j :
  catalog_inv db -> c_docs db !! doc_id d = Some d -> same_document d d' ->
  c_versions db !! dv_id v = None -> c_jobs db !! ij_id j = None ->
  py_nonempty (dv_id v) = true -> dv_document_id v = doc_id d -> dv_status v = V_UPLOADED ->
  dv_index_cleaned_at v = None -> dv_version_number v <= doc_version_counter d' ->
  ij_document_version_id j = dv_id v -> ij_status j = J_PENDING -> 0 <= ij_execution_fence j ->
  1 <= ij_max_attempts j -> ij_publication_fence j = doc_publication_fence d' ->
  doc_pending_version_id d = None -> doc_pending_version_id d' = Some (dv_id v) ->
  doc_current_version_id d' = doc_current_version_id d -> doc_deleted_at d' = None ->
  catalog_inv (put_job j (put_doc d' (put_version v db))).
Proof.
  intros I Gd (D1 & D2 & D3 & D4) Nv Nj Hn Vd Vs Vc Vn Jv Js Jx Jm Jf Hp Hp' Hc Hd.
  pose proof (inv_tables _ I) as T.
  assert (by_ref ij_document_version_id (c_jobs db) (dv_id v) = None) as Njob.
  { apply by_ref_None. intros i x Hi E. destruct (tk_job_version _ T _ _ Hi) as [y Hy].
    simpl in Hy. congruence. }
  assert (cleanup_in (c_cleanups db) (dv_id v) = None) as Ncl.
  { apply by_ref_None. intros i x Hi E. destruct (tk_cleanup_version _ T _ _ Hi) as [y Hy].
    simpl in Hy. congruence. }
  assert (tables_ok (put_version v db)) as T1.
  { apply tables_put_version; [done|done|]. rewrite Vd, Gd. eauto. }
  assert (tables_ok (put_doc d' (put_version v db))) as T2.
  { apply tables_put_doc; [done|]. simpl. rewrite D2. apply (tk_doc_kb _ T _ _ Gd). }
  assert (fits ij_document_version_id (c_jobs (put_doc d' (put_version v db))) (ij_id j) j) as Fj.
  { apply fits_new; [done|]. by rewrite Jv. }
  set (db' := put_job j (put_doc d' (put_version v db))).
  assert (forall x, cell_of db' x = if decide (x = dv_id v)
    then with_job j <$> cell_of (put_version v db) x else cell_of db x) as Cx.
  { intros x. unfold db'. rewrite cell_put_job, cell_put_doc, cell_put_version by done.
    rewrite Jv. by case_decide. }
  assert (forall x, x <> dv_id v -> cell_of db' x = cell_of db x) as Fr.
  { intros x Hx. by rewrite Cx, decide_False. }
  destruct (inv_docs _ I _ _ Gd) as (P1 & P2 & P3).
  assert (doc_current_version_id d <> Some (dv_id v)) as Nc.
  { intros E. destruct (P1 _ E) as (y & Hy & _). congruence. }
  eapply (inv_one db db' (dv_id v) d d' I); try done.
  - apply tables_put_job; [done|done|]. simpl. rewrite Jv, lookup_insert_eq. eauto.
  - simpl. by rewrite D1.
  - intros x Hx. congruence.
  - intros x Ec. rewrite Cx, decide_True in Ec by done.
    rewrite cell_put_version, decide_True in Ec by done. simplify_eq/=.
    exists d'. split; [rewrite Vd, <- D1; apply lookup_insert_eq|]. split.
    + unfold phase_ok, live. simpl. rewrite Vs, Hc. split_and!; try done.
      exists j. by rewrite Js.
    + split; simpl; [done|]. rewrite Jf. split_and!; [lia|done..].
  - rewrite Hc. by eapply (pointer_frame db _ (dv_id v)).
  - rewrite Hp'. eapply pointer_to; [simpl; apply lookup_insert_eq|done|by rewrite Vs].
  - rewrite Hd. by intros [].
  - intros x Hx. unfold keeps_place. rewrite Hc, Hp', Hp, Hd.
    split_and!; try done; split; congruence.
Qed.

(** New columns in the row of a document that keeps its pointers. *)
Lemma inv_touch_doc db d d' :
  catalog_inv db -> c_docs db !! doc_id d = Some d -> same_document d d' ->
  doc_pending_version_id d = None -> doc_pending_version_id d' = None ->
  doc_current_version_id d' = doc_current_version_id d ->
  (doc_deleted_at d' = None \/ doc_current_version_id d' = None) ->
  catalog_inv (put_doc d' db).
Proof.
  intros I Gd (D1 & D2 & D3 & D4) Hp Hp' Hc Hd. pose proof (inv_tables _ I) as T.
  destruct (inv_docs _ I _ _ Gd) as (P1 & P2 & P3).
  apply (inv_change db _ [] (doc_id d) I).
  - apply tables_put_doc; [done|]. rewrite D2. apply (tk_doc_kb _ T _ _ Gd).
  - intros i Hi. simpl. rewrite D1. by rewrite lookup_insert_ne.
  - done.
  - intros x Hx. by apply not_elem_of_nil in Hx.
  - intros y Hy. simpl in Hy. rewrite D1, lookup_insert_eq in Hy. simplify_eq. rewrite Hc, Hp'.
    split_and!; [done|done|]. intros [t Ht]. split; [|done]. destruct Hd; congruence.
  - intros x v y _ _ _ Hy. simplify_eq. exists d'. simpl. rewrite D1, lookup_insert_eq. split; [done|].
    unfold keeps_place. rewrite Hc, Hp, Hp'. split_and!; try done. intros E. destruct Hd; [done|congruence].
  - intros x v Hx. by apply not_elem_of_nil in Hx.
Qed.

(** The manifest of a candidate is replaced and its rows are staged. *)
Lemma inv_restage db j v d j' v' now l :
  catalog_inv db -> graph_at db j v d -> is_candidate (dv_status v) = true ->
  dv_id v' = dv_id v -> dv_document_id v' = dv_document_id v -> is_candidate (dv_status v') = true ->
  ij_id j' = ij_id j -> ij_document_version_id j' = ij_document_version_id j ->
  let c' := mkCell v' (Some j') (cleanup_in (c_cleanups db) (dv_id v))
              (count_kind "vector"%py l) (count_kind "parent"%py l) in
  phase_ok d (dv_id v) c' -> fence_ok d c' ->
  catalog_inv (put_job j' (put_version v' (replace_manifest (dv_id v) now l db))).
Proof.
  intros I G Hs Ei Ed Hs' Ej Er c' P F. pose proof (inv_tables _ I) as T.
  destruct G as [Gj Gv Gr Gd Ge Gn Gk]. set (db0 := replace_manifest (dv_id v) now l db).
  assert (tables_ok db0) as T0 by (apply tables_replace_manifest; [done|rewrite Gv; eauto]).
  assert (tables_ok (put_version v' db0)) as T1.
  { apply tables_put_version; [done|congruence|]. simpl. rewrite Ed, Ge, Gd. eauto. }
  assert (fits ij_document_version_id (c_jobs (put_version v' db0)) (ij_id j') j') as Fj.
  { eapply fits_old; [simpl; by rewrite Ej|done]. }
  assert (forall x, x <> dv_id v -> cell_of db0 x = cell_of db x) as C0.
  { intros x Hx. unfold cell_of, db0. rewrite !replace_manifest_count, !decide_False by done. done. }
  apply (inv_cell db _ (dv_id v) v v' I); try done.
  - apply tables_put_job; [done..|]. simpl. rewrite Er, Gr, <- Ei, lookup_insert_eq. eauto.
  - intros x Hx. rewrite cell_put_job by done. rewrite decide_False by congruence.
    rewrite cell_put_version, decide_False by congruence. by apply C0.
  - simpl. rewrite <- Ei. apply lookup_insert_eq.
  - unfold is_candidate, is_ready in *. by destruct (dv_status v), (dv_status v').
  - congruence.
  - intros c Ec. rewrite cell_put_job in Ec by done. rewrite decide_True in Ec by congruence.
    rewrite cell_put_version, decide_True in Ec by done. simplify_eq/=.
    exists d. split; [by rewrite Ed, Ge|]. unfold db0.
    rewrite !replace_manifest_count, !decide_True by done. unfold with_job. simpl. done.
Qed.

(** A new document, and a new knowledge base. *)
Lemma inv_add_doc d db :
  catalog_inv db -> c_docs db !! doc_id d = None -> is_Some (c_kbs db !! doc_knowledge_base_id d) ->
  doc_current_version_id d = None -> doc_pending_version_id d = None -> catalog_inv (put_doc d db).
Proof.
  intros I N Hk Hc Hp. pose proof (inv_tables _ I) as T. apply (inv_change db _ [] (doc_id d) I).
  - by apply tables_put_doc.
  - intros i Hi. simpl. by rewrite lookup_insert_ne.
  - done.
  - intros x Hx. by apply not_elem_of_nil in Hx.
  - intros y Hy. simpl in Hy. rewrite lookup_insert_eq in Hy. simplify_eq. by rewrite Hc, Hp.
  - intros x v y _ Hv Ev Hy. congruence.
  - intros x v Hx. by apply not_elem_of_nil in Hx.
Qed.

(** ** Writes that meet *)

Lemma put_job_twice j1 j2 db : ij_id j1 = ij_id j2 -> put_job j2 (put_job j1 db) = put_job j2 db.
Proof. intros E. unfold put_job. simpl. rewrite E, insert_insert_eq. by destruct db. Qed.

Lemma put_doc_twice d1 d2 db : doc_id d1 = doc_id d2 -> put_doc d2 (put_doc d1 db) = put_doc d2 db.
Proof. intros E. unfold put_doc. simpl. rewrite E, insert_insert_eq. by destruct db. Qed.

Lemma put_version_twice v1 v2 db : dv_id v1 = dv_id v2 -> put_version v2 (put_version v1 db) = put_version v2 db.
Proof. intros E. unfold put_version. simpl. rewrite E, insert_insert_eq. by destruct db. Qed.

Lemma put_job_id j db : c_jobs db !! ij_id j = Some j -> put_job j db = db.
Proof. intros H. unfold put_job. rewrite insert_id by done. by destruct db. Qed.

(** A job that has ended holds no lease. *)
Lemma phase_unowned d u c j :
  phase_ok d u c -> cell_job c = Some j -> index_terminal (ij_status j) = true -> job_unowned j.
Proof.
  unfold phase_ok, published, dead. intros H E Ht. destruct (dv_status _).
  1-3: destruct H as (_ & _ & _ & _ & _ & j' & Hj & Hs & Hf); assert (j' = j) as -> by congruence; by destruct (ij_status j).
  - destruct H as [(_ & _ & _ & _ & _ & j' & Hj & Hs & Hf) _]. assert (j' = j) as -> by congruence. by destruct (ij_status j).
  - destruct H as (_ & _ & _ & _ & _ & (j' & Hj & Hs & U) & _). by assert (j' = j) as <- by congruence.
  - destruct H as (_ & _ & (j' & Hj & Hs & U) & _). by assert (j' = j) as <- by congruence.
  - destruct H as (_ & _ & (j' & Hj & Hs & U) & _). by assert (j' = j) as <- by congruence.
Qed.
