(* ===== verification/CatalogPreserve.v ===== *)
(** * Preservation

    One lemma per state-changing operation of [backend/documents/catalog.py]:
    a call that returns takes a catalogue that satisfies the invariant to one
    that does. *)

From S2P Require Import Prelude PyBase Errors Session CatalogSchema Catalog CatalogJobs CatalogCleanup CatalogInv CatalogSteps CatalogSafety.

Open Scope Z_scope.

(** Reads after the writes of an operation. *)
Lemma document_record_inv d w r w' : document_record d w = (Ret r, w') -> w' = w.
Proof. unfold document_record. intros H. minv. done. Qed.
Lemma version_build_inv j v d w r w' : version_build j v d w = (Ret r, w') -> w' = w.
Proof. unfold version_build. intros H. minv. by apply document_record_inv in R. Qed.
Lemma cleanup_build_inv c v d w r w' : _cleanup_build c v d w = (Ret r, w') -> w' = w.
Proof. unfold _cleanup_build. intros H. minv. by apply document_record_inv in R. Qed.
Lemma fresh_record_inv i w r w' : fresh_record i w = (Ret r, w') -> w' = w.
Proof. unfold fresh_record. intros H. minv. by apply document_record_inv in H. Qed.
Lemma manifest_entry_inv env e w r w' : _manifest_entry env e w = (Ret r, w') -> w' = w.
Proof. unfold _manifest_entry. intros H. cinv. done. Qed.
Lemma normalized_manifest_inv env acc l w r w' : normalized_manifest env acc l w = (Ret r, w') -> w' = w.
Proof.
  revert acc w. induction l as [|e l IH]; intros acc w H; simpl in H; minv; [done|].
  apply IH in H. apply manifest_entry_inv in R. congruence.
Qed.

Ltac reads :=
  repeat match goal with
  | H : document_record _ _ = (Ret _, _) |- _ => apply document_record_inv in H; subst
  | H : version_build _ _ _ _ = (Ret _, _) |- _ => apply version_build_inv in H; subst
  | H : _cleanup_build _ _ _ _ = (Ret _, _) |- _ => apply cleanup_build_inv in H; subst
  | H : fresh_record _ _ = (Ret _, _) |- _ => apply fresh_record_inv in H; subst
  | H : normalized_manifest _ _ _ _ = (Ret _, _) |- _ => apply normalized_manifest_inv in H; subst
  end.
Ltac ops := unfold save_job, save_version, save_doc, save_kb, save_cleanup in *; cinv; reads.

(** What a running candidate's rows satisfy, in one statement. *)
Record candidate_at (db : CatalogDb) (j : IndexJob) (v : DocumentVersion) (d : Document) : Prop := {
  cd_candidate : is_candidate (dv_status v) = true;
  cd_pending : doc_pending_version_id d = Some (dv_id v);
  cd_current : doc_current_version_id d <> Some (dv_id v);
  cd_deleted : doc_deleted_at d = None;
  cd_cleanup : cleanup_in (c_cleanups db) (dv_id v) = None;
  cd_cleaned : dv_index_cleaned_at v = None;
  cd_fence : ij_publication_fence j = doc_publication_fence d;
  cd_number : dv_version_number v <= doc_version_counter d;
  cd_execution : 0 <= ij_execution_fence j;
  cd_attempts : 1 <= ij_max_attempts j;
  cd_staged : dv_status v = V_STAGED <-> ij_status j = J_STAGED;
  cd_manifest : dv_status v = V_STAGED -> exact_manifest (cell_at db v (Some j))
}.

Lemma live_candidate db j v d :
  catalog_inv db -> graph_at db j v d -> index_terminal (ij_status j) = false -> candidate_at db j v d.
Proof.
  intros I G Ht. destruct (graph_cell _ _ _ _ I G) as [P [F1 F2]].
  destruct (phase_live_job _ _ _ _ P eq_refl Ht) as (Cs & Lp & Ld & Lf).
  destruct (phase_pending _ _ _ P Lp) as [_ (_ & L2 & _ & L4 & L5 & _)].
  pose proof (phase_staged _ _ _ _ P eq_refl Ht) as Hs. simpl in *. destruct F2 as (F2 & F3 & F4).
  constructor; try done. intros E. unfold phase_ok in P. simpl in P. rewrite E in P. apply P.
Qed.

(** Rows that keep a candidate a candidate. *)
Lemma candidate_phase db j v d v' j' c' :
  candidate_at db j v d ->
  cell_version c' = v' -> cell_job c' = Some j' -> cell_cleanup c' = cleanup_in (c_cleanups db) (dv_id v) ->
  dv_index_cleaned_at v' = dv_index_cleaned_at v ->
  ij_publication_fence j' = ij_publication_fence j ->
  (is_candidate (dv_status v') = true /\ dv_status v' <> V_STAGED /\ job_building (ij_status j') = true \/
   dv_status v' = V_STAGED /\ ij_status j' = J_STAGED /\ exact_manifest c') ->
  phase_ok d (dv_id v) c'.
Proof.
  intros [] Ev Ej Ec E1 E2 H.
  assert (forall p, p (ij_status j') = true -> live d (dv_id v) c' p) as L.
  { intros p Hp. unfold live. rewrite Ev, Ec. split_and!; try done; [congruence|].
    exists j'. split_and!; try done. congruence. }
  unfold phase_ok. rewrite Ev. destruct H as [(H1 & H2 & H3)|(H1 & H2 & H3)].
  - destruct (dv_status v'); try done; by apply L.
  - rewrite H1. split; [|done]. apply L. by apply bool_decide_eq_true.
Qed.

Lemma candidate_fence db j v d v' j' c' :
  candidate_at db j v d -> cell_version c' = v' -> cell_job c' = Some j' ->
  dv_version_number v' = dv_version_number v -> ij_publication_fence j' = ij_publication_fence j ->
  ij_execution_fence j <= ij_execution_fence j' -> ij_max_attempts j' = ij_max_attempts j ->
  fence_ok d c'.
Proof.
  intros [] Ev Ej E1 E2 E3 E4. unfold fence_ok. rewrite Ev, Ej. split_and!; lia.
Qed.

Section preserve.
Context (env : CatalogEnv).

Lemma record_manifest_safe jid fence entries nv np x w b w' :
  catalog_inv (w_db w) -> record_manifest env jid fence entries nv np x w = (Ret b, w') ->
  catalog_inv (w_db w').
Proof.
  intros I H. unfold record_manifest in H. ops.
  rewrite Edb0. apply inv_put_kb. rewrite Edb in *. clear Edb Edb0.
  destruct (graph_at_intro _ _ _ _ _ I Hj Hv Hd) as [Ga Ei].
  pose proof (live_candidate _ _ _ _ I Ga Ht) as L. bool_to_prop.
  eapply inv_restage; try done; try apply L.
  - eapply candidate_phase; try done. right. split_and!; try done.
    unfold exact_manifest. simpl. lia.
  - eapply candidate_fence; done.
Qed.

(** *** Failures *)

Lemma drop_candidate_inv d v fence now msg w u w' :
  drop_candidate d v fence now msg w = (Ret u, w') ->
  exists d0, c_docs (w_db w) !! doc_id d = Some d0 /\
    w_db w' = put_doc (without_candidate (doc_current_version_id d) now d0) (w_db w).
Proof.
  unfold drop_candidate. intros H. minv. bool_to_prop.
  apply update_document_inv in R as (d0 & Hd & _ & E); [|done]. eauto.
Qed.

(** The rows of a candidate whose job has just ended, then its cleanup. *)
Lemma fail_candidate_safe db j v d j' v' w1 now0 max u w2 w3 now msg fence u3 :
  catalog_inv db -> graph_at db j v d -> candidate_at db j v d ->
  died v v' -> job_ended j j' ->
  w_db w1 = put_version v' (put_job j' db) ->
  drop_candidate d v fence now msg w1 = (Ret u, w2) ->
  _ensure_cleanup_job (dv_id v) now0 max w2 = (Ret u3, w3) ->
  catalog_inv (w_db w3).
Proof.
  intros I G L Dv Dj E1 Hd He. pose proof Dv as (V1 & V2 & V3 & V4 & V5 & V6).
  pose proof Dj as (J1 & J2 & _). pose proof (inv_tables _ I) as T.
  apply drop_candidate_inv in Hd as (d0 & Hd & E2). rewrite E1 in Hd, E2. simpl in Hd.
  rewrite (ga_doc _ _ _ _ G) in Hd. simplify_eq.
  assert (tables_ok (put_job j' db)) as T1.
  { apply tables_put_job; [done|eapply fits_old; [rewrite J1; apply G|done]|].
    rewrite J2, (ga_ref _ _ _ _ G), (ga_version _ _ _ _ G). eauto. }
  apply ensure_cleanup_inv in He as (c & E3 & Hc & Hf & Hs).
  - rewrite E3, E2. rewrite E2 in Hf, Hs.
    eapply (inv_die db j v d0 j' v'); try done.
    + destruct (graph_cell _ _ _ _ I G) as [P _]. destruct L as [Lc _ _ _ _ _ _ _ _ _ _].
      by destruct (dv_status v).
    + left. split_and!; try done. apply L.
  - rewrite E2. apply tables_put_doc; [|apply G]. apply tables_put_version; [done|rewrite V1; apply G|].
    simpl. rewrite V2, (ga_doc_ref _ _ _ _ G), (ga_doc _ _ _ _ G). eauto.
Qed.

Lemma died_failed code detail now v :
  dv_index_cleaned_at v = None -> died v (failed_version code detail now v).
Proof. intros E. split_and!; try done; simpl; eauto. Qed.

Lemma died_superseded now ca v : died v (superseded_version now ca v).
Proof. split_and!; try done; simpl; eauto. Qed.

Lemma fail_version_candidate d v fence code detail now msg w u w' :
  doc_pending_version_id d = Some (dv_id v) -> doc_publication_fence d = fence ->
  fail_version d v fence code detail now msg w = (Ret u, w') ->
  exists w1 u1, w_db w1 = put_version (failed_version code detail now v) (w_db w) /\
    drop_candidate d v fence now msg w1 = (Ret u1, w').
Proof.
  intros Hp Hf H. unfold fail_version in H. rewrite bool_decide_eq_true_2 in H by done.
  rewrite Hf, Z.eqb_refl in H. cbn [andb] in H. unfold save_version in H.
  apply bind_inv in H as (u1 & w1 & R & H). apply modify_db_inv in R. subst w1.
  eexists _, u. split; [|exact H]. done.
Qed.

Lemma dead_letter_locked_safe j v d k fence code detail now w r w' :
  catalog_inv (w_db w) -> graph_at (w_db w) j v d ->
  _dead_letter_locked j v d k fence code detail now w = (Ret r, w') -> catalog_inv (w_db w').
Proof.
  intros I G H. unfold _dead_letter_locked in H. ops; [done|]. bool_to_prop. subst fence.
  pose proof (live_candidate _ _ _ _ I G G1) as L.
  rewrite Edb. apply inv_put_kb.
  match goal with Hf : fail_version _ _ _ _ _ _ _ _ = _ |- _ =>
    apply fail_version_candidate in Hf as (wf & uf & Ef & Hd); [|apply L|symmetry; apply L]
  end.
  simpl in Ef. eapply fail_candidate_safe; try done.
  - apply died_failed. apply L.
  - by split_and!.
Qed.

(** A job that passes the guards of [_fail_locked] has not ended. *)
Lemma fail_open db j v d x t :
  catalog_inv db -> graph_at db j v d ->
  (x = None /\ ij_owner_worker_id j = None \/
   exists e l, x = Some e /\ ij_owner_worker_id j = Some (ix_worker_id e) /\
     ij_execution_fence j = ix_execution_fence e /\ ij_lease_expires_at j = Some l /\ t < l) ->
  bool_decide (ij_status j = J_FAILED) && bool_decide (x = None) = false ->
  ij_status j <> J_COMPLETED -> ij_status j <> J_CANCELLED -> ij_status j <> J_DEAD_LETTER ->
  index_terminal (ij_status j) = false.
Proof.
  intros I G Hx B N1 N2 N3. destruct (ij_status j) eqn:Es; try done; exfalso.
  destruct (graph_cell _ _ _ _ I G) as [P _].
  destruct (phase_unowned _ _ _ j P eq_refl) as [U _]; [by rewrite Es|].
  destruct Hx as [[-> _]|(e & l & -> & Ho & _)]; [|congruence].
  by rewrite !bool_decide_eq_true_2 in B by done.
Qed.

Lemma fail_locked_safe j v d k fence code detail patch x now w r w' :
  catalog_inv (w_db w) -> graph_at (w_db w) j v d ->
  _fail_locked j v d k fence code detail patch x now w = (Ret r, w') -> catalog_inv (w_db w').
Proof.
  intros I G H. unfold _fail_locked in H. ops; [by rewrite Edb|]. bool_to_prop. subst fence.
  rewrite Edb0. apply inv_put_kb. rewrite <- Edb in I, G.
  assert (index_terminal (ij_status j) = false) as Ht by by eapply fail_open.
  pose proof (live_candidate _ _ _ _ I G Ht) as L.
  match goal with Hf : fail_version _ _ _ _ _ _ _ _ = _ |- _ =>
    apply fail_version_candidate in Hf as (wf & uf & Ef & Hd); [|apply L|symmetry; apply L]
  end.
  simpl in Ef. eapply fail_candidate_safe; try done.
  - apply died_failed. apply L.
  - by split_and!.
Qed.

Lemma fail_safe jid fence code detail x w r w' :
  catalog_inv (w_db w) -> fail env jid fence code detail x w = (Ret r, w') -> catalog_inv (w_db w').
Proof.
  intros I H. unfold fail in H. ops. destruct (graph_at_intro _ _ _ _ _ I Hj Hv Hd) as [Ga _].
  by eapply fail_locked_safe.
Qed.

Lemma dead_letter_index_job_safe jid x code detail w r w' :
  catalog_inv (w_db w) -> dead_letter_index_job env jid x code detail w = (Ret r, w') ->
  catalog_inv (w_db w').
Proof.
  intros I H. unfold dead_letter_index_job in H. ops. rewrite <- Edb in *.
  destruct (graph_at_intro _ _ _ _ _ I Hj Hv Hd) as [Ga _]. by eapply dead_letter_locked_safe.
Qed.
(** *** Claims *)

Lemma graph_of_inv db j0 j v d k :
  graph_of db j0 = Some (j, v, d, k) ->
  j0 = j /\ c_versions db !! ij_document_version_id j = Some v /\
  c_docs db !! dv_document_id v = Some d /\ c_kbs db !! doc_knowledge_base_id d = Some k.
Proof.
  unfold graph_of. intros H.
  destruct (c_versions db !! _) as [v0|] eqn:E1; [|done]; simpl in H.
  destruct (c_docs db !! _) as [d0|] eqn:E2; [|done]; simpl in H.
  destruct (c_kbs db !! _) as [k0|] eqn:E3; [|done]; by simplify_eq/=.
Qed.

Lemma visible_inv db cap locked j v d k :
  catalog_inv db -> (j, v, d, k) ∈ visible_graphs db cap locked -> graph_at db j v d /\ locked (ij_id j) = false.
Proof.
  intros I H. unfold visible_graphs in H. apply list_elem_of_In, filter_In in H as [H Hf].
  apply andb_true_iff in Hf as [Hl _]. apply negb_true_iff in Hl. split; [|done].
  apply list_elem_of_In, list_elem_of_omap in H as (j0 & Hj & Hg).
  apply graph_of_inv in Hg as (-> & Hv & Hd & Hk).
  apply list_elem_of_fmap in Hj as ([i j1] & -> & Hj). apply elem_of_map_to_list in Hj.
  by destruct (graph_at_intro _ _ _ _ _ I Hj Hv Hd).
Qed.

Lemma head_filter_inv {A} key (p : A -> bool) l x :
  head (order_by_keys key (List.filter p l)) = Some x -> x ∈ l /\ p x = true.
Proof.
  intros [H _]%order_by_keys_head. apply list_elem_of_In, filter_In in H as [H ?].
  split; [|done]. by apply list_elem_of_In.
Qed.

Lemma ready_not_terminal clock j : job_ready clock j = true -> index_terminal (ij_status j) = false.
Proof. unfold job_ready. by destruct (ij_status j). Qed.

Lemma owned_not_terminal wk clock j : job_owned_by wk clock j = true -> index_terminal (ij_status j) = false.
Proof. unfold job_owned_by. intros H. bool_cases; by destruct (ij_status j). Qed.

(** A lease or a retry leaves the rows of a candidate in their phase. *)
Lemma candidate_job_safe db j v d j' :
  catalog_inv db -> graph_at db j v d -> candidate_at db j v d ->
  ij_id j' = ij_id j -> ij_document_version_id j' = ij_document_version_id j ->
  ij_publication_fence j' = ij_publication_fence j -> ij_execution_fence j <= ij_execution_fence j' ->
  ij_max_attempts j' = ij_max_attempts j ->
  (ij_status j = J_STAGED <-> ij_status j' = J_STAGED) -> index_terminal (ij_status j') = false ->
  catalog_inv (put_job j' db).
Proof.
  intros I G L E1 E2 E3 E4 E5 E6 E7. eapply inv_update_job; try done.
  - eapply candidate_phase; try done. destruct (decide (dv_status v = V_STAGED)) as [S|S].
    + right. split_and!; [done|apply E6, L, S|]. by apply (cd_manifest _ _ _ _ L).
    + left. split_and!; [apply L|done|]. assert (ij_status j' <> J_STAGED).
      { intros F. apply S, L, E6, F. }
      by destruct (ij_status j').
  - by eapply candidate_fence.
Qed.

Lemma live_candidate_owned db j v d : candidate_at db j v d -> candidate_owned j v d = true.
Proof.
  intros []. unfold candidate_owned. rewrite !andb_true_iff, !bool_decide_eq_true, Z.eqb_eq.
  split_and!; try done. by destruct (dv_status v).
Qed.

(** The rows a claim writes. *)
Lemma inv_claimed db wk ls clock j v d :
  catalog_inv db -> graph_at db j v d -> candidate_at db j v d -> index_terminal (ij_status j) = false ->
  catalog_inv (put_version (claimed_version clock j v) (put_job (claimed_job wk clock ls j) db)).
Proof.
  intros I G L Ht. change (catalog_inv (put_job (claimed_job wk clock ls j)
    (put_version (claimed_version clock j v) db))).
  unfold claimed_version. case_bool_decide as S.
  - rewrite put_version_id by apply G. eapply candidate_job_safe; try done; simpl; [lia|..].
    + by rewrite bool_decide_eq_true_2.
    + by rewrite bool_decide_eq_true_2.
  - assert (dv_status v <> V_STAGED) as S' by (intros F; by apply S, L).
    assert (forall st, st = claimed_version_status (ij_current_step j) ->
      is_candidate st = true /\ st <> V_STAGED /\ is_ready st = false) as Hst.
    { intros st ->. unfold claimed_version_status. by destruct (existsb _ _). }
    destruct (Hst _ eq_refl) as (S1 & S2 & S3). destruct L as [Lc].
    eapply inv_update; try done.
    + simpl. rewrite S3. by destruct (dv_status v).
    + simpl. by rewrite S1, Lc.
    + eapply candidate_phase; [by constructor|done..|]. left. simpl.
      rewrite bool_decide_eq_false_2 by done. done.
    + eapply candidate_fence; [by constructor|done..|simpl; lia|done].
Qed.

Lemma claim_step_safe wk ls clock j v d k w r w' :
  catalog_inv (w_db w) -> graph_at (w_db w) j v d -> job_ready clock j = true ->
  claim_step wk ls clock (j, v, d, k) w = (Ret r, w') -> catalog_inv (w_db w').
Proof.
  intros I G Hr H. pose proof (ready_not_terminal _ _ Hr) as Ht.
  pose proof (live_candidate _ _ _ _ I G Ht) as L. unfold claim_step in H.
  rewrite (live_candidate_owned _ _ _ _ L) in H. cbn [negb] in H. destruct (attempts_exhausted j).
  - apply bind_inv in H as (b & w1 & Hd & H). ops.
    by apply (dead_letter_locked_safe _ _ _ _ _ _ _ _ _ _ _ I G) in Hd.
  - ops. by apply (inv_claimed (w_db w) wk ls clock j v d).
Qed.

Lemma claim_loop_safe fuel cap locked wk ls clock w r w' :
  catalog_inv (w_db w) -> claim_loop fuel cap locked wk ls clock w = (Ret r, w') -> catalog_inv (w_db w').
Proof.
  revert w. induction fuel as [|fuel IH]; intros w I H; simpl in H; [done|].
  apply bind_inv in H as (db & w1 & [-> ->]%get_db_inv & H).
  destruct (ready_graph _ _ _ _) as [[[[j v] d] k]|] eqn:Eg; [|by minv].
  apply head_filter_inv in Eg as [Hin Hr]. apply (visible_inv _ _ _ _ _ _ _ I) in Hin as [G _].
  apply bind_inv in H as (b & w2 & Hs & H). apply (claim_step_safe _ _ _ _ _ _ _ _ _ _ I G Hr) in Hs.
  destruct b; [by minv|]. eauto.
Qed.

Lemma claim_index_job_safe locked wid ls fp now w r w' :
  catalog_inv (w_db w) -> claim_index_job env locked wid ls fp now w = (Ret r, w') -> catalog_inv (w_db w').
Proof.
  intros I H. unfold claim_index_job in H. ops.
  all: try (rewrite <- Edb in I).
  all: try (by eapply claim_loop_safe).
  all: apply head_filter_inv in B as [Hin Ho]; apply (visible_inv _ _ _ _ _ _ _ I) in Hin as [G1 _];
    pose proof (owned_not_terminal _ _ _ Ho) as Ht; pose proof (live_candidate _ _ _ _ I G1 Ht) as L;
    by eapply candidate_job_safe.
Qed.

Lemma heartbeat_index_job_safe jid x ls now w r w' :
  catalog_inv (w_db w) -> heartbeat_index_job jid x ls now w = (Ret r, w') -> catalog_inv (w_db w').
Proof.
  intros I H. unfold heartbeat_index_job in H. ops. rewrite Edb in *.
  destruct (graph_at_intro _ _ _ _ _ I Hj Hv Hd) as [Ga _].
  pose proof (live_candidate _ _ _ _ I Ga Ht) as L. by eapply candidate_job_safe.
Qed.

Lemma schedule_index_retry_safe jid x delay code detail now w r w' :
  catalog_inv (w_db w) -> schedule_index_retry env jid x delay code detail now w = (Ret r, w') ->
  catalog_inv (w_db w').
Proof.
  intros I H. unfold schedule_index_retry in H. ops; rewrite <- Edb in *;
    destruct (graph_at_intro _ _ _ _ _ I Hj Hv Hd) as [Ga _].
  - by eapply dead_letter_locked_safe.
  - pose proof (live_candidate _ _ _ _ I Ga Ht) as L. eapply candidate_job_safe; try done; simpl;
      case_bool_decide; done.
Qed.

(** *** Progress *)

Lemma transitions_staged next s : next ∈ _JOB_TRANSITIONS s -> index_terminal next = false ->
  next <> J_STAGED -> s <> J_STAGED.
Proof. intros H Ht N ->. simpl in H. by set_unfold in H; destruct_or? H; subst. Qed.

Lemma candidate_alive db j v d : candidate_at db j v d -> dead_status (dv_status v) = false.
Proof. intros [Lc]. by destruct (dv_status v). Qed.

Section effects.
Context (db : CatalogDb) (j : IndexJob) (v : DocumentVersion) (d : Document) (j1 : IndexJob).
Context (I : catalog_inv db) (G : graph_at db j v d) (L : candidate_at db j v d).
Context (E1 : ij_id j1 = ij_id j) (E2 : ij_document_version_id j1 = ij_document_version_id j).
Context (E3 : ij_publication_fence j1 = ij_publication_fence j).
Context (E4 : ij_execution_fence j1 = ij_execution_fence j).
Context (E5 : ij_max_attempts j1 = ij_max_attempts j).

Lemma tables_put_updated : tables_ok (put_job j1 db).
Proof using I G E1 E2.
  apply tables_put_job; [apply I|eapply fits_old; [rewrite E1; apply G|done]|].
  rewrite E2, (ga_ref _ _ _ _ G), (ga_version _ _ _ _ G). eauto.
Qed.

(** The version dies, then the pointer is cleared and the job row is closed. *)
Lemma inv_closed v' d0 c now :
  died v v' -> index_terminal (ij_status j1) = true ->
  c_docs db !! doc_id d = Some d0 ->
  cj_document_version_id c = dv_id v -> fits cj_document_version_id (c_cleanups db) (cj_id c) c ->
  cleanup_scheduled (cleanup_in (c_cleanups db) (dv_id v)) c ->
  catalog_inv (put_job (finished_job now j1)
    (put_doc (without_candidate (doc_current_version_id d) now d0)
      (put_cleanup c (put_version v' (put_job j1 db))))).
Proof using I G L E1 E2 E3 E4 E5.
  intros Dv Ht Hd C1 C2 C3. rewrite (ga_doc _ _ _ _ G) in Hd. simplify_eq.
  change (catalog_inv (put_cleanup c (put_doc (without_candidate (doc_current_version_id d0) now d0)
    (put_version v' (put_job (finished_job now j1) (put_job j1 db)))))).
  rewrite put_job_twice by done.
  apply (inv_die db j v d0 (finished_job now j1) v'); try done.
  - by eapply candidate_alive.
  - left. split_and!; try done. apply L.
Qed.

Lemma update_effects_safe next u fence now w r w' :
  w_db w = put_job j1 db -> ij_status j1 = next ->
  next ∈ _JOB_TRANSITIONS (ij_status j) -> next <> J_FAILED -> next <> J_COMPLETED ->
  (next = J_STAGED -> dv_status v = V_STAGED) ->
  update_job_effects env next u j1 v d fence now w = (Ret r, w') -> catalog_inv (w_db w').
Proof using I G L E1 E2 E3 E4 E5.
  intros Ew Es Htr N1 N2 Hst H. pose proof tables_put_updated as T1. pose proof (candidate_alive _ _ _ _ L) as Al.
  assert (index_terminal next = false -> next <> J_RUNNING -> w_db w' = put_job j1 db ->
    catalog_inv (w_db w')) as Simple.
  { intros Ht N ->. eapply candidate_job_safe; try done; [lia| |congruence]. rewrite Es.
    destruct (decide (next = J_STAGED)) as [->|Ns].
    - split; [done|]. intros _. by apply L, Hst.
    - split; [|done]. intros F. by destruct (transitions_staged _ _ Htr Ht Ns F). }
  unfold update_job_effects in H. destruct next; try done; ops; try (by apply Simple).
  - rewrite Ew. change (catalog_inv (put_job r (put_version
      (set_dv_updated_at now (set_dv_status (building_status (ij_current_step r)) v)) db))).
    assert (ij_status j <> J_STAGED) as S by by eapply transitions_staged.
    assert (dv_status v <> V_STAGED) as S' by (intros F; by apply S, L).
    assert (is_candidate (building_status (ij_current_step r)) = true /\
      building_status (ij_current_step r) <> V_STAGED /\
      is_ready (building_status (ij_current_step r)) = false) as (B1 & B2 & B3).
    { unfold building_status. by destruct (_ || _). }
    pose proof (cd_candidate _ _ _ _ L) as Lc.
    eapply (inv_update db j v d); try done.
    + simpl. rewrite B3. by destruct (dv_status v).
    + simpl. by rewrite B1, Lc.
    + eapply candidate_phase; try done. left. simpl. by rewrite Es.
    + eapply candidate_fence; try done. lia.
  - apply supersede_inv in R as (-> & c & Ed & C1 & C2 & C3);
      [|by rewrite Ew|apply G|rewrite Ew; simpl; rewrite (ga_doc_ref _ _ _ _ G), (ga_doc _ _ _ _ G); eauto].
    apply drop_candidate_inv in R0 as (d0 & Hd0 & Ed0). rewrite Ed0, Ed, Ew in *. simpl in Hd0.
    eapply inv_closed; try done; by rewrite Es.
  - apply drop_candidate_inv in R0 as (d0 & Hd0 & Ed0). simpl in Ed0, Hd0. rewrite Ew in Ed0, Hd0.
    apply ensure_cleanup_inv in R1 as (c & Ed1 & C1 & C2 & C3).
    + rewrite Ed1, Ed0 in *. simpl in C2, C3.
      eapply (inv_closed _ d0 c); try done; [apply died_failed; apply L|by rewrite Es].
    + rewrite Ed0. simpl in Hd0. rewrite (ga_doc _ _ _ _ G) in Hd0. simplify_eq.
      apply tables_put_doc; [|apply G]. apply tables_put_version; [done|apply G|].
      simpl. rewrite (ga_doc_ref _ _ _ _ G), (ga_doc _ _ _ _ G). eauto.
Qed.
End effects.

Lemma update_job_safe jid fence u x w r w' :
  catalog_inv (w_db w) -> update_job env jid fence u x w = (Ret r, w') -> catalog_inv (w_db w').
Proof.
  intros I H. unfold update_job in H.
  apply bind_inv in H as (target & w1 & Ht & H). assert (w1 = w) as -> by by minv. clear Ht.
  apply bind_inv in H as (a & w1 & [G1 ->]%raise_if_inv & H).
  apply bind_inv in H as (step & w1 & Hs & H). assert (w1 = w) as -> by by ops. clear Hs.
  apply transaction_inv in H as [H _]. ops; rewrite <- Edb in *;
    destruct (graph_at_intro _ _ _ _ _ I Hj Hv Hd) as [Ga _].
  - by eapply fail_locked_safe.
  - rewrite Edb0. apply inv_put_kb. bool_to_prop.
    pose proof (live_candidate _ _ _ _ I Ga Ht) as L.
    match goal with R : update_job_effects _ _ _ _ _ _ _ _ _ = _ |- _ =>
      eapply (update_effects_safe _ _ _ _ _ I Ga L) in R; try done end.
    intros E. rewrite bool_decide_eq_true_2 in G3 by done. simpl in G3. bool_to_prop. by apply dec_stable.
  - rewrite Edb0. apply inv_put_kb. bool_to_prop. apply dec_stable in B0. rewrite B0 in *.
    rewrite bool_decide_eq_true_2 in G4 by done. simpl in G4. bool_to_prop. unfold update_job_effects in *.
    minv. destruct (graph_cell _ _ _ _ I Ga) as [P F].
    unfold phase_ok in P. simpl in P. rewrite H0 in P.
    destruct P as (P1 & P2 & P3 & P4 & P5 & (y & Ey & Sy & U) & P7).
    simplify_eq/=. eapply inv_update_job; try done.
    unfold phase_ok. simpl. rewrite H0. unfold published. simpl. split_and!; try done; [|apply P7..].
    eexists. split_and!; [done|done|apply U..].
Qed.
End preserve.
