(* ===== verification/CatalogPreserve2.v ===== *)
(** * Preservation, publication and retirement

    The operations that move the pointers of a document - publication, upload
    reservation and retirement - and those on cleanup jobs, retirement jobs and
    worker heart beats. *)

From S2P Require Import Prelude PyBase Errors Session CatalogSchema Catalog CatalogJobs CatalogCleanup CatalogInv CatalogSteps CatalogSafety CatalogPreserve.

Open Scope Z_scope.

(** What reading a pointer of a document yields. *)
Definition pointed (db : CatalogDb) (d : Document) (p : option pystr) (o : option DocumentVersion) : Prop :=
  o = None /\ str_set p = false \/
  exists u v, p = Some u /\ o = Some v /\ c_versions db !! u = Some v /\ dv_document_id v = doc_id d.

Lemma version_by_pointer_inv d p w o w' :
  _version_by_pointer d p w = (Ret o, w') -> w' = w /\ pointed (w_db w) d p o.
Proof.
  unfold _version_by_pointer, pointed. intros H. minv.
  - split; [done|]. left. by bool_to_prop.
  - split; [done|]. right. destruct p as [u|]; [|done]. simpl in *. bool_to_prop. apply dec_stable in G. eauto 6.
Qed.

(** A pointer that names a version is not blank. *)
Lemma pointer_set db did d p ok :
  catalog_inv db -> c_docs db !! did = Some d -> pointer_ok db did p ok -> str_set p = false -> p = None.
Proof.
  intros I Hd P Hs. destruct p as [u|]; [|done]. destruct (P u eq_refl) as (v & Hv & _).
  destruct (tk_version _ (inv_tables _ I) _ _ Hv) as [_ Hn]. simpl in Hs, Hn. congruence.
Qed.

(** The graph of a version that a document names. *)
Lemma version_graph db u v :
  catalog_inv db -> c_versions db !! u = Some v ->
  exists j d, graph_at db j v d /\ dv_id v = u.
Proof.
  intros I Hv. pose proof (inv_tables _ I) as T.
  destruct (tk_version _ T _ _ Hv) as [Ei _]. simpl in Ei. subst u.
  destruct (inv_versions _ I _ _ (cell_of_version _ _ _ Hv)) as (d & Hd & P & _). simpl in Hd.
  assert (exists j, job_in (c_jobs db) (dv_id v) = Some j) as [j Ej].
  { unfold phase_ok, live, published, dead in P. simpl in P. destruct (dv_status v).
    1-3: destruct P as (_ & _ & _ & _ & _ & j & -> & _); eauto.
    - destruct P as [(_ & _ & _ & _ & _ & j & -> & _) _]. eauto.
    - destruct P as (_ & _ & _ & _ & _ & (j & -> & _) & _). eauto.
    - destruct P as (_ & _ & (j & -> & _) & _). eauto.
    - destruct P as (_ & _ & (j & -> & _) & _). eauto. }
  exists j, d. split; [|done]. apply by_ref_Some in Ej as (i & Hi & Er); [|apply T].
  destruct (graph_at_intro db i j v d I Hi) as [G _]; [by rewrite Er|done|done].
Qed.

Lemma put_doc_id d db : c_docs db !! doc_id d = Some d -> put_doc d db = db.
Proof. intros H. unfold put_doc. rewrite insert_id by done. by destruct db. Qed.

Lemma set_current_id d : doc_current_version_id d = None -> set_doc_current_version_id None d = d.
Proof. destruct d. simpl. by intros ->. Qed.

Lemma set_pending_id d : doc_pending_version_id d = None -> set_doc_pending_version_id None d = d.
Proof. destruct d. simpl. by intros ->. Qed.

(** ** A version is superseded *)
Lemma supersede_safe db d dx d1 v j now ca cancel w v' w' :
  catalog_inv db -> graph_at db j v d -> w_db w = put_doc dx db ->
  doc_id dx = doc_id d -> doc_knowledge_base_id dx = doc_knowledge_base_id d ->
  index_terminal (ij_status j) = negb cancel -> dead_status (dv_status v) = false ->
  _supersede_version v now ca cancel w = (Ret v', w') ->
  same_document d d1 -> doc_publication_fence d1 = doc_publication_fence d ->
  doc_deleted_at d1 = doc_deleted_at d ->
  (doc_pending_version_id d = Some (dv_id v) /\ doc_pending_version_id d1 = None /\
     doc_current_version_id d1 = doc_current_version_id d \/
   doc_current_version_id d = Some (dv_id v) /\ doc_current_version_id d1 = None /\
     doc_pending_version_id d1 = doc_pending_version_id d) ->
  catalog_inv (put_doc d1 (w_db w')) /\ v' = superseded_version now ca v /\
  exists c j', w_db w' = put_cleanup c (put_job j' (put_version v' (w_db w))) /\ ij_id j' = ij_id j.
Proof.
  intros I G Ew Ei Ek Ht Nd H S1 S2 S3 Hp. pose proof (inv_tables _ I) as T.
  assert (tables_ok (put_doc dx db)) as Tx by (apply tables_put_doc; [done|rewrite Ek; apply G]).
  apply supersede_inv in H as (-> & c & Ed & C1 & C2 & C3);
    [|by rewrite Ew|apply G|rewrite Ew; simpl; rewrite (ga_doc_ref _ _ _ _ G), Ei, lookup_insert_eq; eauto].
  rewrite Ew in Ed, C2, C3 |- *.
  set (v' := superseded_version now ca v) in *.
  set (j' := if cancel then cancelled_job now j else j).
  assert (job_cancelled cancel now (dv_id v) (put_version v' (put_doc dx db)) =
    put_job j' (put_version v' (put_doc dx db))) as Ej.
  { unfold job_cancelled, j'. destruct cancel.
    - change (c_jobs (put_version v' (put_doc dx db))) with (c_jobs db).
      rewrite (graph_job_in _ _ _ _ T G), Ht. done.
    - rewrite put_job_id; [done|]. apply G. }
  rewrite Ej in Ed. split; [|split; [done|]].
  - rewrite Ed. change (catalog_inv (put_cleanup c (put_job j' (put_version v' (put_doc d1 (put_doc dx db)))))).
    destruct S1 as (D1 & D2). rewrite put_doc_twice by congruence.
    change (catalog_inv (put_cleanup c (put_doc d1 (put_job j' (put_version v' db))))).
    eapply (inv_die db j v d); try done.
    destruct (graph_cell _ _ _ _ I G) as [P _].
    unfold j'. destruct cancel; [by split_and!|].
    destruct (phase_unowned _ _ _ j P eq_refl Ht) as [U1 U2]. by split_and!.
  - exists c, j'. split; [done|]. unfold j'. by destruct cancel.
Qed.

(** The rows of another version of the document after one is superseded. *)
Lemma graph_frame db j v d d1 c jp vp :
  graph_at db j v d -> dv_id vp <> dv_id v -> ij_id jp <> ij_id j ->
  doc_id d1 = doc_id d -> doc_knowledge_base_id d1 = doc_knowledge_base_id d ->
  graph_at (put_doc d1 (put_cleanup c (put_job jp (put_version vp db)))) j v d1.
Proof.
  intros [] N1 N2 E1 E2. constructor; simpl; try done.
  - by rewrite lookup_insert_ne.
  - by rewrite lookup_insert_ne.
  - by rewrite lookup_insert_eq.
  - congruence.
  - by rewrite E2.
Qed.

Lemma graphs_apart db j v d jp vp dp :
  graph_at db j v d -> graph_at db jp vp dp -> dv_id vp <> dv_id v -> ij_id jp <> ij_id j.
Proof. intros [] [] N E. rewrite E in *. simplify_eq. congruence. Qed.

Section preserve2.
Context (env : CatalogEnv).

(** *** Publication *)

Lemma publish_first_safe db j v d now :
  catalog_inv db -> graph_at db j v d -> index_terminal (ij_status j) = false ->
  dv_status v = V_STAGED -> doc_current_version_id d = None ->
  catalog_inv (put_job (completed_job now j) (put_version (published_version now v)
    (put_doc (published_document (dv_id v) now d) db))).
Proof.
  intros I G Ht Hs Hc. pose proof (live_candidate _ _ _ _ I G Ht) as L.
  change (catalog_inv (put_doc (published_document (dv_id v) now d)
    (put_job (completed_job now j) (put_version (published_version now v) db)))).
  eapply (inv_go_live db j v d); try done; [|apply L].
  pose proof (cd_manifest _ _ _ _ L Hs) as M. apply M.
Qed.

Lemma publish_replace_safe db j v d u vp now ca dx w vp' w' :
  catalog_inv db -> graph_at db j v d -> index_terminal (ij_status j) = false ->
  dv_status v = V_STAGED -> doc_current_version_id d = Some u -> c_versions db !! u = Some vp ->
  dx = published_document (dv_id v) now d -> w_db w = put_doc dx db ->
  _supersede_version vp now ca false w = (Ret vp', w') ->
  catalog_inv (put_job (completed_job now j) (put_version (published_version now v) (w_db w'))).
Proof.
  intros I G Ht Hs Hc Hv -> Ew H. pose proof (live_candidate _ _ _ _ I G Ht) as L.
  destruct (inv_docs _ I _ _ (ga_doc _ _ _ _ G)) as (P1 & _ & _).
  destruct (P1 u Hc) as (y & Hy & Ey & Sy). simplify_eq. unfold is_ready in Sy. bool_to_prop.
  destruct (version_graph _ _ _ I Hv) as (jp & dp & Gp & <-).
  assert (dp = d) as ->.
  { pose proof (ga_doc _ _ _ _ Gp) as E1. pose proof (ga_doc _ _ _ _ G) as E2.
    rewrite <- (ga_doc_ref _ _ _ _ Gp), Ey in E1. congruence. }
  assert (dv_id vp <> dv_id v) as N by (intros E; by apply (cd_current _ _ _ _ L); rewrite Hc, E).
  pose proof (graphs_apart _ _ _ _ _ _ _ G Gp N) as Nj.
  destruct (graph_cell _ _ _ _ I Gp) as [Pp _]. unfold phase_ok in Pp. simpl in Pp. rewrite Sy in Pp.
  destruct Pp as (_ & _ & _ & _ & _ & (y & Ej & Es & _) & _). simpl in Ej. injection Ej as <-.
  set (d1 := set_doc_current_version_id None d).
  eapply (supersede_safe db d _ d1) in H as (I1 & -> & c & j' & E1 & E2); try done;
    [|by rewrite Es|by rewrite Sy|right; done].
  rewrite E1, Ew in I1 |- *.
  set (vp' := superseded_version now ca vp) in *.
  assert (graph_at (put_doc d1 (put_cleanup c (put_job j' (put_version vp' db)))) j v d1) as G1.
  { apply (graph_frame db j v d); try done. congruence. }
  change (catalog_inv (put_cleanup c (put_job j' (put_version vp' (put_doc d1 (put_doc
    (published_document (dv_id v) now d) db)))))) in I1.
  rewrite put_doc_twice in I1 by done.
  pose proof (publish_first_safe _ j v d1 now I1 G1 Ht Hs eq_refl) as F.
  change (catalog_inv (put_job (completed_job now j) (put_version (published_version now v)
    (put_cleanup c (put_job j' (put_version vp'
      (put_doc (published_document (dv_id v) now d) (put_doc d1 db)))))))) in F.
  by rewrite put_doc_twice in F.
Qed.

Lemma publish_safe jid fence expected x w r w' :
  catalog_inv (w_db w) -> publish jid fence expected x w = (Ret r, w') -> catalog_inv (w_db w').
Proof.
  intros I H. unfold publish in H. ops; [done|..]; rewrite Edb0; apply inv_put_kb; rewrite <- Edb in *;
    destruct (graph_at_intro _ _ _ _ _ I Hj Hv Hd) as [Ga _]; bool_to_prop; apply dec_stable in G1;
    match goal with U : update_document _ _ _ _ = _ |- _ =>
      apply update_document_inv in U as (dx & Hdx & Hcond & Edx); [|done] end;
    rewrite (ga_doc _ _ _ _ Ga) in Hdx; injection Hdx as <-; bool_to_prop;
    match goal with V : _version_by_pointer _ _ _ = _ |- _ =>
      apply version_by_pointer_inv in V as [-> Hptr] end;
    pose proof (live_candidate _ _ _ _ I Ga Ht) as L.
  - destruct Hptr as [[? _]|(u & vp & -> & Evp & Hvp & _)]; [done|]. simplify_eq.
    rewrite Edx in Hvp. by eapply publish_replace_safe.
  - destruct Hptr as [[? _]|(u & vp & -> & Evp & Hvp & _)]; [done|]. simplify_eq. exfalso.
    rewrite Edx in Hvp. destruct (tk_version _ (inv_tables _ I) _ _ Hvp) as [E _]. simpl in E.
    apply (cd_current _ _ _ _ L). apply dec_stable in B1. congruence.
  - destruct Hptr as [[_ Hs]|(u & vp & -> & Evp & _)]; [|done].
    destruct (inv_docs _ I _ _ (ga_doc _ _ _ _ Ga)) as (P1 & _ & _).
    assert (expected = None) as ->.
    { eapply (pointer_set _ _ _ _ is_ready I); [apply Ga| |done]. by subst. }
    rewrite Edx. by apply publish_first_safe.
Qed.

(** *** Retirement *)

Lemma upsert_retirement_inv rid d vs fence now w o w' :
  _upsert_retirement_job env rid d vs fence now w = (Ret o, w') ->
  w_db w' = w_db w \/ exists r, w_db w' = put_retirement r (w_db w) /\ rj_document_id r = doc_id d.
Proof.
  unfold _upsert_retirement_job. intros H. cinv; try (by left); right;
    eexists; (split; [done|]); simpl; try done. bool_to_prop. by apply dec_stable.
Qed.

(** The current version of a live document dies with its document. *)
Lemma retire_current_safe d o now w o' w' :
  catalog_inv (w_db w) -> c_docs (w_db w) !! doc_id d = Some d ->
  pointed (w_db w) d (doc_current_version_id d) o ->
  (match o with
   | Some v => v ← _supersede_version v now now false; mret (Some v)
   | None => mret None
   end : CM (option DocumentVersion)) w = (Ret o', w') ->
  catalog_inv (put_doc (set_doc_current_version_id None d) (w_db w')) /\
  c_docs (w_db w') = c_docs (w_db w) /\
  forall u, doc_current_version_id d <> Some u -> c_versions (w_db w') !! u = c_versions (w_db w) !! u.
Proof.
  intros I Hd Ho H. destruct (inv_docs _ I _ _ Hd) as (P1 & _ & _).
  destruct Ho as [[-> Hs]|(u & v & Hc & -> & Hv & Hr)].
  - minv. split_and!; try done. assert (doc_current_version_id d = None) as E by by eapply pointer_set.
    by rewrite set_current_id, put_doc_id.
  - minv. destruct (version_graph _ _ _ I Hv) as (j & d' & G & <-).
    assert (d' = d) as -> by (pose proof (ga_doc _ _ _ _ G) as E; rewrite <- (ga_doc_ref _ _ _ _ G), Hr in E; congruence).
    destruct (P1 _ Hc) as (y & Hy & _ & Sy). simplify_eq. unfold is_ready in Sy. bool_to_prop.
    destruct (graph_cell _ _ _ _ I G) as [P _]. unfold phase_ok in P. simpl in P. rewrite Sy in P.
    destruct P as (_ & _ & _ & _ & _ & (y & Ej & Es & _) & _). simpl in Ej. injection Ej as <-.
    eapply (supersede_safe (w_db w) d d (set_doc_current_version_id None d)) in R as (I1 & -> & c & j' & E1 & E2);
      try done; [|by rewrite put_doc_id|by rewrite Es|by rewrite Sy|by right].
    rewrite E1 in *. split_and!; try done. intros x Hx. simpl. rewrite lookup_insert_ne by congruence. done.
Qed.

(** The candidate of a document dies; the row [dx] is what the session holds. *)
Lemma drop_pending_safe db d dx u v now ca w v' w' :
  catalog_inv db -> c_docs db !! doc_id d = Some d -> w_db w = put_doc dx db ->
  doc_id dx = doc_id d -> doc_knowledge_base_id dx = doc_knowledge_base_id d ->
  doc_pending_version_id d = Some u -> c_versions db !! u = Some v ->
  _supersede_version v now ca true w = (Ret v', w') ->
  catalog_inv (put_doc (set_doc_pending_version_id None d) (w_db w')) /\
  c_docs (w_db w') = c_docs (w_db w).
Proof.
  intros I Hd Ew E1 E2 Hp Hv H. destruct (inv_docs _ I _ _ Hd) as (_ & P2 & _).
  destruct (P2 _ Hp) as (y & Hy & Hr & Sy). simplify_eq.
  destruct (version_graph _ _ _ I Hv) as (j & d' & G & <-).
  assert (d' = d) as -> by (pose proof (ga_doc _ _ _ _ G) as E; rewrite <- (ga_doc_ref _ _ _ _ G), Hr in E; congruence).
  destruct (graph_cell _ _ _ _ I G) as [P _]. destruct (phase_pending _ _ _ P Hp) as [_ L].
  destruct L as (_ & _ & _ & _ & _ & y' & Ej & Es & _). simpl in Ej. injection Ej as <-. bool_to_prop.
  eapply (supersede_safe db d dx (set_doc_pending_version_id None d)) in H as (I1 & _ & c & j' & E3 & E4);
    try done; [|by destruct (dv_status v)|by left].
  split; [done|]. by rewrite E3.
Qed.

Lemma retire_pending_safe d cur now w o o' c' w' :
  let d1 := set_doc_current_version_id None d in
  catalog_inv (put_doc d1 (w_db w)) -> c_docs (w_db w) !! doc_id d = Some d ->
  pointed (w_db w) d (doc_pending_version_id d) o ->
  (forall v c, o = Some v -> cur = Some c -> dv_id v <> dv_id c) ->
  (match o with
   | Some v =>
       if match cur with Some c => bool_decide (dv_id v <> dv_id c) | None => true end
       then v ← _supersede_version v now now true; mret (Some v)
       else mret c'
   | None => mret None
   end : CM (option DocumentVersion)) w = (Ret o', w') ->
  catalog_inv (put_doc (set_doc_pending_version_id None d1) (w_db w')) /\
  c_docs (w_db w') = c_docs (w_db w).
Proof.
  intros d1 I Hd Ho Nc H.
  assert (c_docs (put_doc d1 (w_db w)) !! doc_id d1 = Some d1) as Hd1 by (simpl; by rewrite lookup_insert_eq).
  destruct Ho as [[-> Hs]|(u & v & Hp & -> & Hv & _)].
  - minv. split; [|done]. destruct (inv_docs _ I _ _ Hd1) as (_ & P2 & _).
    assert (doc_pending_version_id d1 = None) as E by by eapply pointer_set.
    by rewrite set_pending_id.
  - destruct (match cur with Some c => _ | None => _ end) eqn:B.
    + minv. eapply (drop_pending_safe _ d1 d) in R; try done.
      by rewrite put_doc_twice, put_doc_id.
    + destruct cur as [c|]; [|done]. bool_to_prop. destruct B. by apply Nc.
Qed.

Lemma knowledge_base_inv t i w k w' : _knowledge_base t i w = (Ret k, w') ->
  w' = w /\ c_kbs (w_db w) !! i = Some k.
Proof.
  unfold _knowledge_base. intros H. minv. split; [done|]. apply bind_Some in Q as (x & Hx & Q).
  by destruct (_ && _); simplify_eq.
Qed.

(** The two pointers of a document never name the same version. *)
Lemma retire_pointers_apart db d cur pend :
  catalog_inv db -> c_docs db !! doc_id d = Some d ->
  pointed db d (doc_current_version_id d) cur ->
  pointed db d (doc_pending_version_id d) pend ->
  (forall v c, pend = Some v -> cur = Some c -> dv_id v <> dv_id c) /\
  (forall u, doc_pending_version_id d = Some u -> doc_current_version_id d <> Some u).
Proof.
  intros I Hd Hc Hp. destruct (inv_docs _ I _ _ Hd) as (P1 & P2 & _).
  assert (forall u, doc_pending_version_id d = Some u -> doc_current_version_id d <> Some u) as N.
  { intros u E1 E2. destruct (P1 _ E2) as (x & Hx & _ & S1), (P2 _ E1) as (y & Hy & _ & S2). simplify_eq.
    unfold is_ready in S1. by destruct (dv_status x). }
  split; [|done]. intros v c -> ->. destruct Hc as [[? _]|(u1 & v1 & C1 & ? & C3 & _)]; [done|].
  destruct Hp as [[? _]|(u2 & v2 & Q1 & ? & Q3 & _)]; [done|]. simplify_eq.
  destruct (tk_version _ (inv_tables _ I) _ _ C3) as [V1 _], (tk_version _ (inv_tables _ I) _ _ Q3) as [V2 _].
  simpl in *. intros E. apply (N u2 Q1). congruence.
Qed.

Lemma retire_live_safe name rid d cur pend w r w' :
  catalog_inv (w_db w) -> c_docs (w_db w) !! doc_id d = Some d ->
  pointed (w_db w) d (doc_current_version_id d) cur ->
  pointed (w_db w) d (doc_pending_version_id d) pend ->
  retire_live env name rid d cur pend w = (Ret r, w') -> catalog_inv (w_db w').
Proof.
  intros I Hd Hc Hp H. unfold retire_live in H.
  apply bind_inv in H as (k & w0 & Rk & H). apply knowledge_base_inv in Rk as [-> _].
  apply bind_inv in H as (now & w1 & Rn & H). apply database_now_inv in Rn as Edb. rewrite <- Edb in *.
  apply bind_inv in H as (cur' & w2 & Rc & H).
  destruct (retire_current_safe _ _ _ _ _ _ I Hd Hc Rc) as (I2 & E2 & F2).
  apply bind_inv in H as (pend' & w3 & Rp & H).
  destruct (retire_pointers_apart _ _ _ _ I Hd Hc Hp) as [Na Np].
  apply retire_pending_safe with (d := d) in Rp as (I3 & E3);
    [|done|by rewrite E2|destruct Hp as [?|(u & v & Ep & -> & Hv & Hr)];
       [by left|right; exists u, v; split_and!; try done; rewrite F2; auto]|done].
  clear Rc. ops. bool_to_prop.
  apply update_document_inv in R as (d0 & Hd0 & _ & E4); [|done].
  rewrite E3, E2, Hd in Hd0. injection Hd0 as <-.
  assert (catalog_inv (w_db w5)) as I5.
  { rewrite Edb1, E4. apply inv_put_kb.
    rewrite <- (put_doc_twice (set_doc_pending_version_id None (set_doc_current_version_id None d))) by done.
    eapply inv_touch_doc; [done|simpl; apply lookup_insert_eq|..]; try done; [|by right].
    unfold same_document. simpl. split_and!; try done; lia. }
  apply upsert_retirement_inv in R1 as [->|(r & -> & Er)]; [done|].
  apply inv_put_retirement; [done|]. rewrite Er, Edb1, E4. simpl. rewrite lookup_insert_eq. eauto.
Qed.

(** The cleanup row of a dead version, and what the invariant says of it. *)
Lemma dead_cleanup_row db u v :
  catalog_inv db -> c_versions db !! u = Some v -> dead_status (dv_status v) = true ->
  exists c d, cleanup_for_version db u = Some c /\ c_cleanups db !! cj_id c = Some c /\
    cj_document_version_id c = dv_id v /\ dv_id v = u /\ c_docs db !! dv_document_id v = Some d /\
    is_Some (dv_cleanup_after v) /\ cleanup_row_ok c.
Proof.
  intros I Hv Hs. pose proof (inv_tables _ I) as T.
  destruct (tk_version _ T _ _ Hv) as [E _]. simpl in E. subst u.
  destruct (inv_versions _ I _ _ (cell_of_version _ _ _ Hv)) as (d & Hd & P & _). simpl in Hd.
  destruct (phase_dead _ _ _ P Hs) as (_ & _ & _ & Ha & c & Hc & Rc & _). simpl in Ha, Hc.
  exists c, d. assert (Hc' := Hc). apply by_ref_Some in Hc' as (i & Hi & Er); [|apply T].
  pose proof (tk_cleanup _ T _ _ Hi) as Ei. simpl in Ei. subst i. split_and!; done.
Qed.

Lemma hasten_cleanup_safe now v w v' w' :
  catalog_inv (w_db w) -> c_versions (w_db w) !! dv_id v = Some v -> dead_status (dv_status v) = true ->
  hasten_cleanup now v w = (Ret v', w') ->
  catalog_inv (w_db w') /\ c_docs (w_db w') = c_docs (w_db w) /\
  forall u, u <> dv_id v -> c_versions (w_db w') !! u = c_versions (w_db w) !! u.
Proof.
  intros I Hv Hs H. destruct (dead_cleanup_row _ _ _ I Hv Hs) as (c & d & Ec & Hc & Er & _ & Hd & Ha & Ok).
  unfold hasten_cleanup in H. unfold save_cleanup, save_version in H.
  apply bind_inv in H as (db & w1 & R & H). apply get_db_inv in R as [-> ->]. cbn beta zeta in H.
  rewrite Ec in H. cbn beta iota in H.
  assert (exists cx vx, w_db w' = put_cleanup cx (put_version vx (w_db w)) /\
    (cx = c \/ cj_status c = C_PENDING /\ cx = set_cj_updated_at now (set_cj_next_retry_at (Some now) c)) /\
    (vx = v \/ vx = set_dv_updated_at now (set_dv_cleanup_after (Some now) v))) as (cx & vx & -> & Kc & Kv).
  { minv; bool_to_prop; try done.
    - exists (set_cj_updated_at now (set_cj_next_retry_at (Some now) c)),
        (set_dv_updated_at now (set_dv_cleanup_after (Some now) v)). auto.
    - exists c, (set_dv_updated_at now (set_dv_cleanup_after (Some now) v)). rewrite put_cleanup_id by done. auto.
    - exists (set_cj_updated_at now (set_cj_next_retry_at (Some now) c)), v'.
      rewrite put_version_id by done. auto.
    - exists c, v'. rewrite put_version_id, put_cleanup_id by done. auto. }
  split_and!; [|done|].
  - eapply (inv_update_cleanup _ c v d); try done; try by destruct Kc as [->|[_ ->]], Kv as [->| ->].
    intros Rc St. destruct Kc as [->|[Ep ->]]; [by destruct Kv as [->| ->]|].
    split; [|by destruct Kv as [->| ->]].
    unfold cleanup_row_ok in *. simpl. rewrite Ep in *. destruct Rc as (? & ? & ? & ?). split_and!; eauto.
  - intros u Hu. simpl. rewrite lookup_insert_ne; [done|]. by destruct Kv as [->| ->].
Qed.

Lemma hasten_all_safe now vs : forall w r w',
  catalog_inv (w_db w) -> NoDup (dv_id <$> vs) ->
  (forall v, v ∈ vs -> c_versions (w_db w) !! dv_id v = Some v /\ dead_status (dv_status v) = true) ->
  hasten_all now vs w = (Ret r, w') -> catalog_inv (w_db w') /\ c_docs (w_db w') = c_docs (w_db w).
Proof.
  induction vs as [|v vs IH]; intros w r w' I N Hvs H; simpl in H; minv; [done|].
  change (NoDup (dv_id v :: (dv_id <$> vs))) in N. apply NoDup_cons in N as [N1 N2]. destruct (Hvs v) as [Hv Hs]; [constructor|].
  destruct (hasten_cleanup_safe _ _ _ _ _ I Hv Hs R) as (I1 & E1 & F1).
  apply IH in R0 as [I2 E2]; [split; congruence|done|done|].
  intros x Hx. destruct (Hvs x) as [Hv' Hs']; [by constructor|]. split; [|done].
  rewrite F1; [done|]. intros E. apply N1. rewrite <- E. by apply list_elem_of_fmap_2.
Qed.

(** The listing of the dead versions of a document names each once. *)
Lemma uncleaned_versions_ok db did :
  catalog_inv db -> NoDup (dv_id <$> uncleaned_versions db did) /\
  forall v, v ∈ uncleaned_versions db did -> c_versions db !! dv_id v = Some v /\ dead_status (dv_status v) = true.
Proof.
  intros I. pose proof (inv_tables _ I) as T. unfold uncleaned_versions. split.
  - rewrite order_by_perm. apply rows_where_NoDup. intros i j x y Hx Hy E.
    destruct (tk_version _ T _ _ Hx) as [E1 _], (tk_version _ T _ _ Hy) as [E2 _]. simpl in *. congruence.
  - intros v (i & Hi & Hp)%elem_of_order_by%elem_of_rows_where. bool_to_prop.
    destruct (tk_version _ T _ _ Hi) as [E1 _]. simpl in E1. by subst i.
Qed.

Lemma document_inv t n k w o w' :
  _document t n k w = (Ret o, w') -> w' = w /\
  forall d, o = Some d -> exists i, c_docs (w_db w) !! i = Some d /\ doc_tenant_id d = t /\ doc_canonical_name d = n
    /\ (forall i, k = Some i -> doc_knowledge_base_id d = i).
Proof.
  unfold _document. intros H. minv; (split; [done|]); intros d' E; simplify_eq.
  assert (d' ∈ take 2 (order_by_keys (fun d => id_key (doc_id d)) (_document_query (w_db w') t n k))) as Hd
    by (rewrite B; constructor).
  apply elem_of_take in Hd as (j & Hd & _). apply list_elem_of_lookup_2 in Hd.
  rewrite order_by_keys_perm in Hd. apply elem_of_rows_where in Hd as (i & Hi & Hp). bool_to_prop.
  exists i. split_and!; try done. intros x ->. by bool_to_prop.
Qed.

Lemma retire_safe t n k rid w r w' :
  catalog_inv (w_db w) -> retire env t n k rid w = (Ret r, w') -> catalog_inv (w_db w').
Proof.
  intros I H. unfold retire in H.
  apply bind_inv in H as (name & w0 & R & H). apply required_text_inv in R as ->.
  apply transaction_inv in H as [H _]. apply bind_inv in H as (o & w1 & R & H).
  apply document_inv in R as [-> Ho]. destruct o as [d|]; [|by minv].
  destruct (Ho d eq_refl) as (i & Hd & _).
  assert (doc_id d = i) as <- by apply (tk_doc _ (inv_tables _ I) _ _ Hd).
  apply bind_inv in H as (cur & w1 & R & H). apply version_by_pointer_inv in R as [-> Pc].
  apply bind_inv in H as (pend & w1 & R & H). apply version_by_pointer_inv in R as [-> Pp].
  case_bool_decide; [|by eapply retire_live_safe].
  ops. destruct (uncleaned_versions_ok _ (doc_id d) I) as [N1 N2].
  match goal with R : hasten_all _ _ _ = _ |- _ =>
    apply hasten_all_safe in R as [I1 E1]; rewrite ?Edb; try done end.
  match goal with R : _upsert_retirement_job _ _ _ _ _ _ _ = _ |- _ =>
    apply upsert_retirement_inv in R as [->|(r & -> & Er)]; [done|] end.
  apply inv_put_retirement; [done|]. rewrite Er, E1, Edb. eauto.
Qed.

(** *** Knowledge bases and uploads *)

Lemma add_doc_inv d w u w' : add_doc d w = (Ret u, w') ->
  w_db w' = put_doc d (w_db w) /\ c_docs (w_db w) !! doc_id d = None.
Proof. unfold add_doc, save_doc. intros H. cinv. bool_to_prop. by rewrite <- eq_None_not_Some in G. Qed.
Lemma add_version_inv v w u w' : add_version v w = (Ret u, w') ->
  w_db w' = put_version v (w_db w) /\ c_versions (w_db w) !! dv_id v = None.
Proof. unfold add_version, save_version. intros H. cinv. bool_to_prop. by rewrite <- eq_None_not_Some in G. Qed.
Lemma add_job_inv j w u w' : add_job j w = (Ret u, w') ->
  w_db w' = put_job j (w_db w) /\ c_jobs (w_db w) !! ij_id j = None.
Proof. unfold add_job, save_job. intros H. cinv. bool_to_prop. by rewrite <- eq_None_not_Some in G. Qed.

Lemma new_id_nonempty p w t w' :
  _new_id p w = (Ret t, w') -> py_nonempty p = true -> py_nonempty t = true.
Proof. unfold _new_id. intros H. minv. by destruct p as [[|]]. Qed.

(** The candidate of an upload takes the place of the pending version. *)
Lemma drop_old_safe d o now w u w' :
  catalog_inv (w_db w) -> c_docs (w_db w) !! doc_id d = Some d ->
  pointed (w_db w) d (doc_pending_version_id d) o ->
  (match o with
   | Some v => _supersede_version v now now true;; flush
   | None => mret tt
   end : CM unit) w = (Ret u, w') ->
  catalog_inv (put_doc (set_doc_pending_version_id None d) (w_db w')) /\ c_docs (w_db w') = c_docs (w_db w).
Proof.
  intros I Hd [[-> Hs]|(x & v & Hp & -> & Hv & _)] H.
  - minv. destruct (inv_docs _ I _ _ Hd) as (_ & P2 & _). split; [|done].
    assert (doc_pending_version_id d = None) as E by by eapply pointer_set.
    by rewrite set_pending_id, put_doc_id.
  - minv. eapply (drop_pending_safe _ d d) in R; try done. by rewrite put_doc_id.
Qed.

Lemma reserve_candidate_safe q i k d now rq w r w' :
  catalog_inv (w_db w) -> c_docs (w_db w) !! doc_id d = Some d -> 1 <= up_max_attempts q ->
  reserve_candidate env q i k d now rq w = (Ret r, w') -> catalog_inv (w_db w').
Proof.
  intros I Hd Hm H. unfold reserve_candidate in H.
  apply bind_inv in H as (o & w1 & R & H). apply version_by_pointer_inv in R as [-> Po].
  apply bind_inv in H as (u & w1 & R & H). eapply (drop_old_safe d) in R as [I1 E1]; try done.
  ops. pose proof (new_id_nonempty _ _ _ _ R0 eq_refl) as Hn.
  apply new_id_inv in R0 as F0. apply new_id_inv in R6 as F6.
  apply add_version_inv in R3 as [F3 N3]. apply add_job_inv in R8 as [F8 N8].
  cbn [w_db set_w_tick set_w_db] in F0, F3, N3, F6, F8, N8.
  rewrite F0 in F3, N3. rewrite F3 in F6. rewrite F6 in F8, N8. rewrite Edb, F8.
  match goal with |- context [put_job ?j (put_doc ?e (put_version ?v _))] =>
    set (jn := j) in *; set (vn := v) in *; set (d2 := e) in * end.
  apply inv_put_kb.
  change (put_doc d2 (put_version vn (put_doc (counted d) (w_db w1)))) with
    (put_version vn (put_doc d2 (put_doc (counted d) (w_db w1)))).
  rewrite put_doc_twice by done.
  rewrite <- (put_doc_twice (set_doc_pending_version_id None d) d2) by done.
  change (catalog_inv (put_job jn (put_doc d2 (put_version vn
    (put_doc (set_doc_pending_version_id None d) (w_db w1)))))).
  eapply (inv_add_candidate _ (set_doc_pending_version_id None d)); try done.
  - simpl. apply lookup_insert_eq.
  - unfold same_document. simpl. split_and!; try done; lia.
Qed.

Lemma document_for_upload_safe q i w d w' k :
  catalog_inv (w_db w) -> c_kbs (w_db w) !! ui_knowledge_base_key i = Some k ->
  document_for_upload q i w = (Ret d, w') ->
  catalog_inv (w_db w') /\ c_docs (w_db w') !! doc_id d = Some d.
Proof.
  intros I Hk H. unfold document_for_upload in H.
  apply bind_inv in H as (o & w1 & R & H). apply document_inv in R as [-> Ho]. destruct o as [d0|].
  - minv. destruct (Ho d eq_refl) as (x & Hd & _). split; [done|].
    by rewrite (tk_doc _ (inv_tables _ I) _ _ Hd).
  - ops. apply add_doc_inv in R2 as [F2 N2]. apply new_id_inv in R as F0.
    cbn [w_db set_w_tick] in F2, N2. rewrite F0 in F2, N2. rewrite F2. split.
    + by apply inv_add_doc.
    + simpl. apply lookup_insert_eq.
Qed.

Lemma reserve_current_safe q d v now w r w' :
  catalog_inv (w_db w) -> c_versions (w_db w) !! dv_id v = Some v ->
  reserve_current q d v now w = (Ret r, w') -> w_db w' = w_db w.
Proof.
  intros I Hv H. destruct (version_graph _ _ _ I Hv) as (j & d' & G & _).
  pose proof (graph_job_in _ _ _ _ (inv_tables _ I) G) as Ej.
  unfold reserve_current in H. ops; [done|]. unfold _job_for_version in *. unfold by_ref in Ej. congruence.
Qed.

Lemma matching_by_id_inv db did digest fp p v :
  tables_ok db -> matching_by_id (matching_versions db did digest fp) p = Some v ->
  c_versions db !! dv_id v = Some v /\ p = Some (dv_id v) /\ same_identity did digest fp v = true.
Proof.
  intros T H. unfold matching_by_id in H. destruct p as [x|]; [|done]. simpl in H.
  apply find_some in H as [Hv E]. bool_to_prop. subst x.
  apply list_elem_of_In, elem_of_order_by, elem_of_rows_where in Hv as (i & Hi & Hs).
  destruct (tk_version _ T _ _ Hi) as [E _]. simpl in E. subst i. done.
Qed.

Lemma reserve_body_safe q i w r w' :
  catalog_inv (w_db w) -> 1 <= up_max_attempts q ->
  reserve_upload_body env q i w = (Ret r, w') -> catalog_inv (w_db w').
Proof.
  intros I Hm H. unfold reserve_upload_body in H.
  apply bind_inv in H as (k & w0 & R & H). apply knowledge_base_inv in R as [-> Hk].
  apply bind_inv in H as (now & w1 & [-> ->]%utcnow_inv & H).
  apply bind_inv in H as (d & w2 & R & H).
  eapply document_for_upload_safe in R as [I1 Hd]; [|done|done].
  minv_step. minv_step. cbv zeta in H.
  destruct (matching_by_id _ (doc_current_version_id d)) as [v|] eqn:Ec.
  { destruct (matching_by_id_inv _ _ _ _ _ _ (inv_tables _ I1) Ec) as [Hv _].
    apply reserve_current_safe in H as ->; done. }
  destruct (matching_by_id _ (doc_pending_version_id d)) as [v|];
    [cbn [mbind option_bind] in H; destruct (_job_for_version _ _) as [j|]; [destruct (joinable d v j)|]|].
  - by ops.
  - minv_step. minv_step. by apply reserve_candidate_safe in H.
  - minv_step. minv_step. by apply reserve_candidate_safe in H.
  - minv_step. minv_step. by apply reserve_candidate_safe in H.
Qed.

Lemma retried_inv {A} (body : CM A) e w r w' :
  retried body e w = (Ret r, w') -> exists w0, w_db w0 = w_db w /\ body w0 = (Ret r, w') /\ store_ok (w_db w') = true.
Proof.
  unfold retried, catch. destruct (transaction body w) as [[a|x] w1] eqn:R.
  - intros ?. simplify_eq. apply transaction_inv in R as [R C]. eauto.
  - destruct x; try done. destruct (transaction body w1) as [[a|y] w2] eqn:R1; [|by destruct y].
    intros ?. simplify_eq. apply transaction_inv in R1 as [R1 C]. exists w1.
    split_and!; [|done|done]. by eapply transaction_raise.
Qed.

Lemma reserve_upload_safe q w r w' :
  catalog_inv (w_db w) -> reserve_upload env q w = (Ret r, w') -> catalog_inv (w_db w').
Proof.
  intros I H. unfold reserve_upload in H. apply bind_inv in H as (i & w1 & R & H).
  unfold upload_inputs in R. cinv. apply retried_inv in H as (w0 & E & H & _). bool_to_prop.
  rewrite <- E in I. eapply reserve_body_safe; [done| |done]. lia.
Qed.

Lemma ensure_knowledge_base_safe t o n k w r w' :
  catalog_inv (w_db w) -> ensure_knowledge_base env t o n k w = (Ret r, w') -> catalog_inv (w_db w').
Proof.
  intros I H. unfold ensure_knowledge_base in H. cinv. apply retried_inv in H as (w0 & E & H & _).
  rewrite <- E in I. unfold add_kb in H. ops; try done.
  all: try (match goal with R : _new_id _ _ = _ |- _ => apply new_id_inv in R; rewrite R end).
  all: by apply inv_put_kb.
Qed.
End preserve2.

(** ** Preservation: cleanup jobs, retirement jobs and worker heart beats *)

(** The rows of a cleanup job. *)
Record cleanup_at (db : CatalogDb) (c : DocumentCleanupJob) (v : DocumentVersion) (d : Document) : Prop := {
  ca_cleanup : c_cleanups db !! cj_id c = Some c;
  ca_ref : cj_document_version_id c = dv_id v;
  ca_version : c_versions db !! dv_id v = Some v;
  ca_doc : c_docs db !! dv_document_id v = Some d;
  ca_dead : dead_status (dv_status v) = true;
  ca_after : is_Some (dv_cleanup_after v);
  ca_current : doc_current_version_id d <> Some (dv_id v);
  ca_pending : doc_pending_version_id d <> Some (dv_id v);
  ca_row : cleanup_row_ok c;
  ca_cleaned : is_Some (dv_index_cleaned_at v) <-> cj_status c = C_COMPLETED
}.

Lemma cleanup_at_intro db i c v d :
  catalog_inv db -> c_cleanups db !! i = Some c -> c_versions db !! cj_document_version_id c = Some v ->
  c_docs db !! dv_document_id v = Some d -> cleanup_at db c v d /\ cj_id c = i.
Proof.
  intros I Hc Hv Hd. pose proof (inv_tables _ I) as T.
  pose proof (tk_cleanup _ T _ _ Hc) as Ei. simpl in Ei.
  destruct (tk_version _ T _ _ Hv) as [Ev _]. simpl in Ev.
  assert (cleanup_in (c_cleanups db) (dv_id v) = Some c) as Ec.
  { apply by_ref_Some; [apply T|]. exists i. by rewrite Ev. }
  rewrite <- Ev in Hv.
  destruct (inv_versions _ I _ _ (cell_of_version _ _ _ Hv)) as (d' & Hd' & P & _). simpl in Hd'.
  simplify_eq. rewrite Ec in P.
  destruct (phase_cleanup _ _ _ c P eq_refl) as [S (P1 & P2 & _ & P4 & x & Ex & P5 & P6)].
  simplify_eq/=. split; [|done]. by constructor.
Qed.

Lemma cleanup_safe_scope db c v d : cleanup_at db c v d -> safe_scope v d = true.
Proof.
  intros []. unfold safe_scope. rewrite ca_dead0. by rewrite !bool_decide_eq_true_2.
Qed.

(** The dead version of a cleanup job, found from the version. *)
Lemma cleanup_of_version db v d :
  catalog_inv db -> c_versions db !! dv_id v = Some v -> dead_status (dv_status v) = true ->
  c_docs db !! dv_document_id v = Some d ->
  exists c, cleanup_for_version db (dv_id v) = Some c /\ cleanup_at db c v d.
Proof.
  intros I Hv Hs Hd. destruct (dead_cleanup_row _ _ _ I Hv Hs) as (c & d' & Ec & Hc & Er & _ & Hd' & _).
  exists c. split; [done|]. eapply cleanup_at_intro; try done. by rewrite Er.
Qed.

(** New columns in the rows of a cleanup job and its version. *)
Lemma cleanup_move db c v d c' v' :
  catalog_inv db -> cleanup_at db c v d ->
  dv_id v' = dv_id v -> dv_document_id v' = dv_document_id v ->
  dv_status v' = dv_status v -> dv_version_number v' = dv_version_number v ->
  dv_cleanup_after v' = dv_cleanup_after v ->
  cj_id c' = cj_id c -> cj_document_version_id c' = cj_document_version_id c ->
  cleanup_row_ok c' -> (is_Some (dv_index_cleaned_at v') <-> cj_status c' = C_COMPLETED) ->
  catalog_inv (put_cleanup c' (put_version v' db)).
Proof.
  intros I [] E1 E2 E3 E4 E5 E6 E7 R S. by eapply inv_update_cleanup; rewrite ?E5.
Qed.

Lemma cleanup_move_job db c v d c' :
  catalog_inv db -> cleanup_at db c v d ->
  cj_id c' = cj_id c -> cj_document_version_id c' = cj_document_version_id c ->
  cleanup_row_ok c' -> (cj_status c' = C_COMPLETED <-> cj_status c = C_COMPLETED) ->
  catalog_inv (put_cleanup c' db).
Proof.
  intros I A E6 E7 R S. rewrite <- (put_version_id v db) by apply A.
  eapply cleanup_move; try done. rewrite S. apply A.
Qed.

(** Writes to the two tables commute. *)
Ltac swap_rows :=
  match goal with |- context [put_version ?v (put_cleanup ?c ?db)] =>
    change (catalog_inv (put_cleanup c (put_version v db))) end.

(** The rows of a cleanup job that runs. *)
Ltac row_ok A :=
  let R := fresh in pose proof (ca_row _ _ _ _ A) as R; unfold cleanup_row_ok in *; cbn;
  repeat match goal with H : cj_status _ = _ |- _ => rewrite H in R end;
  destruct R as (? & ? & ?); split_and!; try done; try lia; eauto.

Section cleanup.
Context (env : CatalogEnv).

Lemma heartbeat_cleanup_job_safe cid x ls now w r w' :
  catalog_inv (w_db w) -> heartbeat_cleanup_job cid x ls now w = (Ret r, w') -> catalog_inv (w_db w').
Proof.
  intros I H. unfold heartbeat_cleanup_job in H. ops. rewrite <- Edb in *.
  destruct (cleanup_at_intro _ _ _ _ _ I Hc Hv Hd) as [A _]. destruct Hx as (X1 & X2 & X3 & _).
  eapply cleanup_move_job; try done. row_ok A. rewrite X3. split_and!; [|by eauto]. rewrite X1. eauto.
Qed.

Lemma update_cleanup_job_safe cid x step patch w r w' :
  catalog_inv (w_db w) -> update_cleanup_job env cid x step patch w = (Ret r, w') -> catalog_inv (w_db w').
Proof.
  intros I H. unfold update_cleanup_job in H. ops. rewrite <- Edb in *.
  destruct (cleanup_at_intro _ _ _ _ _ I Hc Hv Hd) as [A _]. by eapply cleanup_move_job; [..|apply A|].
Qed.

Lemma dead_cleanup_safe db c v d code detail now :
  catalog_inv db -> cleanup_at db c v d -> cj_status c <> C_COMPLETED ->
  catalog_inv (put_version (cleanup_failed_version (Some code) now v)
    (put_cleanup (set_cj_error_detail_redacted detail (dead_cleanup code now c)) db)).
Proof.
  intros I A N. change (catalog_inv (put_cleanup (set_cj_error_detail_redacted detail (dead_cleanup code now c))
    (put_version (cleanup_failed_version (Some code) now v) db))).
  eapply cleanup_move; try done.
  - row_ok A.
  - cbn. rewrite (ca_cleaned _ _ _ _ A). split; [intros; done|done].
Qed.

Lemma dead_letter_cleanup_job_safe cid x code detail w r w' :
  catalog_inv (w_db w) -> dead_letter_cleanup_job env cid x code detail w = (Ret r, w') -> catalog_inv (w_db w').
Proof.
  intros I H. unfold dead_letter_cleanup_job, _dead_letter_cleanup_locked in H. ops. rewrite <- Edb in *.
  destruct (cleanup_at_intro _ _ _ _ _ I Hc Hv Hd) as [A _]. destruct Hx as (X1 & X2 & X3 & _).
  eapply dead_cleanup_safe; try done. by rewrite X3.
Qed.

Lemma schedule_cleanup_retry_safe cid x delay code detail now w r w' :
  catalog_inv (w_db w) -> schedule_cleanup_retry env cid x delay code detail now w = (Ret r, w') ->
  catalog_inv (w_db w').
Proof.
  intros I H. unfold schedule_cleanup_retry, _dead_letter_cleanup_locked in H. ops; rewrite <- Edb in *;
    destruct (cleanup_at_intro _ _ _ _ _ I Hc Hv Hd) as [A _]; destruct Hx as (X1 & X2 & X3 & _).
  - eapply dead_cleanup_safe; try done. by rewrite X3.
  - swap_rows.
    eapply cleanup_move; try done; [row_ok A|]. cbn. rewrite (ca_cleaned _ _ _ _ A), X3. done.
Qed.

Lemma complete_cleanup_job_safe cid x w r w' :
  catalog_inv (w_db w) -> complete_cleanup_job cid x w = (Ret r, w') -> catalog_inv (w_db w').
Proof.
  intros I H. unfold complete_cleanup_job in H. ops. rewrite Edb0. apply inv_put_kb. rewrite <- Edb in *.
  destruct (cleanup_at_intro _ _ _ _ _ I Hc Hv Hd) as [A _]. destruct Hx as (X1 & X2 & X3 & _).
  eapply cleanup_move; try done. row_ok A.
Qed.

Lemma requeue_count_inv st w z w' : requeue_count env st w = (Ret z, w') -> w' = w.
Proof. unfold requeue_count. intros H. destruct (obj_get _ _) as [[]|]; minv; done. Qed.

Lemma requeue_cleanup_job_safe cid m now w r w' :
  catalog_inv (w_db w) -> requeue_cleanup_job env cid m now w = (Ret r, w') -> catalog_inv (w_db w').
Proof.
  intros I H. unfold requeue_cleanup_job in H. ops. rewrite <- Edb in *.
  match goal with R : requeue_count _ _ _ = _ |- _ => apply requeue_count_inv in R; subst end.
  destruct (cleanup_at_intro _ _ _ _ _ I Hc Hv Hd) as [A _]. bool_to_prop. apply dec_stable in G1. cbn [w_db set_w_db].
  swap_rows.
  eapply cleanup_move; try done. row_ok A. destruct m; bool_to_prop; simpl; lia.
Qed.

Lemma visible_cleanup_inv db locked c v d k :
  catalog_inv db -> (c, v, d, k) ∈ visible_cleanups db locked -> cleanup_at db c v d /\ locked (cj_id c) = false.
Proof.
  intros I H. unfold visible_cleanups in H. apply list_elem_of_In, filter_In in H as [H Hl].
  apply negb_true_iff in Hl. split; [|done].
  apply list_elem_of_In, list_elem_of_omap in H as (c0 & Hc & Hg). unfold cleanup_graph_of in Hg.
  destruct (c_versions db !! _) as [v0|] eqn:E1; [|done]; simpl in Hg.
  destruct (c_docs db !! _) as [d0|] eqn:E2; [|done]; simpl in Hg.
  destruct (c_kbs db !! _) as [k0|] eqn:E3; [|done]; simplify_eq/=.
  apply list_elem_of_fmap in Hc as ([i c1] & -> & Hc). apply elem_of_map_to_list in Hc.
  by destruct (cleanup_at_intro _ _ _ _ _ I Hc E1 E2).
Qed.

Lemma cleanup_ready_open clock c : cleanup_ready clock c = true -> cj_status c <> C_COMPLETED.
Proof. unfold cleanup_ready. by destruct (cj_status c). Qed.

Lemma claim_cleanup_step_safe wk ls clock c v d k w r w' :
  catalog_inv (w_db w) -> cleanup_at (w_db w) c v d -> cleanup_ready clock c = true ->
  claim_cleanup_step wk ls clock (c, v, d, k) w = (Ret r, w') -> catalog_inv (w_db w').
Proof.
  intros I A Hr H. apply cleanup_ready_open in Hr. unfold claim_cleanup_step in H.
  rewrite (cleanup_safe_scope _ _ _ _ A) in H. cbn [negb orb] in H.
  destruct (_ <=? _).
  - ops. change (dead_cleanup ?x ?y ?z) with
      (set_cj_error_detail_redacted (cj_error_detail_redacted z) (dead_cleanup x y z)).
    by eapply dead_cleanup_safe.
  - ops. eapply cleanup_move_job; try done; row_ok A.
Qed.

Lemma claim_cleanup_loop_safe fuel locked wk ls clock w r w' :
  catalog_inv (w_db w) -> claim_cleanup_loop fuel locked wk ls clock w = (Ret r, w') -> catalog_inv (w_db w').
Proof.
  revert w. induction fuel as [|fuel IH]; intros w I H; simpl in H; [done|].
  apply bind_inv in H as (db & w1 & [-> ->]%get_db_inv & H).
  destruct (ready_cleanup _ _ _) as [[[[c v] d] k]|] eqn:Eg; [|by minv].
  apply head_filter_inv in Eg as [Hin Hr]. apply (visible_cleanup_inv _ _ _ _ _ _ I) in Hin as [A _].
  apply andb_true_iff in Hr as [Hr _].
  apply bind_inv in H as (b & w2 & Hs & H). apply (claim_cleanup_step_safe _ _ _ _ _ _ _ _ _ _ I A Hr) in Hs.
  destruct b; [by minv|]. eauto.
Qed.

Lemma claim_cleanup_job_safe locked wid ls now w r w' :
  catalog_inv (w_db w) -> claim_cleanup_job env locked wid ls now w = (Ret r, w') -> catalog_inv (w_db w').
Proof.
  intros I H. unfold claim_cleanup_job in H. ops.
  all: try (rewrite <- Edb in I).
  all: try (by eapply claim_cleanup_loop_safe).
  all: apply head_filter_inv in B as [Hin Ho]; apply (visible_cleanup_inv _ _ _ _ _ _ I) in Hin as [A _];
    unfold cleanup_owned_by in Ho; bool_cases; eapply cleanup_move_job; try done; row_ok A;
    match goal with E : cj_status _ = _ |- _ => rewrite E end; naive_solver.
Qed.

Lemma record_cleanup_safe vid code w r w' :
  catalog_inv (w_db w) -> record_cleanup env vid code w = (Ret r, w') -> catalog_inv (w_db w').
Proof.
  intros I H. unfold record_cleanup in H. apply transaction_inv in H as [H _].
  apply bind_inv in H as (db & w1 & [-> ->]%get_db_inv & H).
  apply bind_inv in H as ([[v d] k] & w1 & [Q ->]%require_inv & H). cbn beta iota in H.
  apply bind_Some in Q as (v0 & Hv & Q). apply bind_Some in Q as (d0 & Hd & Q).
  apply bind_Some in Q as (k0 & Hk & Q). injection Q as -> -> ->.
  destruct (tk_version _ (inv_tables _ I) _ _ Hv) as [Ev _]. simpl in Ev. subst vid.
  apply bind_inv in H as (u1 & w1 & [G ->]%raise_if_inv & H).
  apply bind_inv in H as (u2 & w1 & [_ ->]%raise_if_inv & H). apply negb_false_iff in G.
  apply bind_inv in H as (now & w1 & R%database_now_inv & H).
  destruct (cleanup_of_version _ _ _ I Hv G Hd) as (c & Ec & A). rewrite Ec in H. cbv zeta in H.
  rewrite <- R in *. pose proof (ca_cleaned _ _ _ _ A) as Hcl. pose proof (ca_row _ _ _ _ A) as Hrow.
  unfold record_cleanup_result in H. ops; [done|..]; rewrite Edb; apply inv_put_kb; bool_to_prop; swap_rows.
  - eapply cleanup_move; try done; case_bool_decide; done.
  - eapply cleanup_move; try done.
    unfold cleanup_row_ok in *. cbn. destruct Hrow as (? & ? & Ho). split_and!; done.
Qed.

Lemma record_retirement_error_safe rid t code w r w' :
  catalog_inv (w_db w) -> record_retirement_error env rid t code w = (Ret r, w') -> catalog_inv (w_db w').
Proof.
  intros I H. unfold record_retirement_error, retirement_of in H. ops. rewrite <- Edb in *.
  apply bind_Some in Q as (x & Hx & Q). case_bool_decide; [|done]. simplify_eq.
  apply inv_put_retirement; [done|]. cbn. by destruct (tk_retirement _ (inv_tables _ I) _ _ Hx).
Qed.

Lemma record_worker_heartbeat_safe wid kind st md now w r w' :
  catalog_inv (w_db w) -> record_worker_heartbeat env wid kind st md now w = (Ret r, w') ->
  catalog_inv (w_db w').
Proof.
  intros I H. unfold record_worker_heartbeat in H. ops; rewrite <- Edb in *; by apply inv_put_worker.
Qed.
End cleanup.
