(* ===== verification/CatalogSystem.v ===== *)
(** * The catalogue as a system

    The public operations of [DocumentCatalog] as one type of calls, the steps
    they make on the database - whatever the clock, the identifiers drawn and
    the outcome, a raised exception included - and the catalogues reachable from
    the empty one. *)

From S2P Require Import Prelude PyBase Errors Session CatalogSchema Catalog CatalogJobs CatalogCleanup CatalogInv CatalogSteps CatalogSafety CatalogPreserve CatalogPreserve2.

Open Scope Z_scope.

(** The calls that may change the catalogue. *)
Inductive CatalogCall :=
  | CEnsureKb (tenant_id : pystr) (owner_id : Z) (name : pystr) (knowledge_base_id : option pystr)
  | CReserveUpload (q : UploadRequest)
  | CRecordManifest (job_id : pystr) (fence : Z) (entries : list ManifestEntry)
      (vectors parents : option Z) (x : option IndexJobExecution)
  | CPublish (job_id : pystr) (fence : Z) (expected : option pystr) (x : option IndexJobExecution)
  | CFail (job_id : pystr) (fence : Z) (code : pystr) (detail : option pystr)
      (x : option IndexJobExecution)
  | CUpdateJob (job_id : pystr) (fence : Z) (u : JobUpdate) (x : option IndexJobExecution)
  | CClaimIndex (locked : pystr -> bool) (worker_id : pystr) (lease_seconds : Z)
      (fingerprint : option pystr) (now : option datetime)
  | CHeartbeatIndex (job_id : pystr) (x : IndexJobExecution) (lease_seconds : Z) (now : option datetime)
  | CRetryIndex (job_id : pystr) (x : IndexJobExecution) (delay : pyfloat) (code : pystr)
      (detail : option pystr) (now : option datetime)
  | CDeadLetterIndex (job_id : pystr) (x : IndexJobExecution) (code : pystr) (detail : option pystr)
  | CRetire (tenant_id name : pystr) (knowledge_base_id retirement_job_id : option pystr)
  | CClaimCleanup (locked : pystr -> bool) (worker_id : pystr) (lease_seconds : Z) (now : option datetime)
  | CHeartbeatCleanup (job_id : pystr) (x : CleanupJobExecution) (lease_seconds : Z)
      (now : option datetime)
  | CUpdateCleanup (job_id : pystr) (x : CleanupJobExecution) (step : pystr) (patch : list (pystr * json))
  | CRetryCleanup (job_id : pystr) (x : CleanupJobExecution) (delay : pyfloat) (code : pystr)
      (detail : option pystr) (now : option datetime)
  | CDeadLetterCleanup (job_id : pystr) (x : CleanupJobExecution) (code : pystr) (detail : option pystr)
  | CCompleteCleanup (job_id : pystr) (x : CleanupJobExecution)
  | CRequeueCleanup (job_id : pystr) (max_attempts : option Z) (now : option datetime)
  | CRecordCleanup (version_id : pystr) (error_code : option pystr)
  | CRetirementError (job_id tenant_id error_code : pystr)
  | CWorkerHeartbeat (worker_id kind status : pystr) (metadata : list (pystr * json))
      (now : option datetime).

(** The bodies of the operations, down to their transactions. *)
Ltac open_calls :=
  unfold ensure_knowledge_base, reserve_upload, upload_inputs, record_manifest, publish, fail, update_job,
    claim_index_job, heartbeat_index_job, schedule_index_retry, dead_letter_index_job, retire,
    claim_cleanup_job, heartbeat_cleanup_job, update_cleanup_job, schedule_cleanup_retry,
    dead_letter_cleanup_job, complete_cleanup_job, requeue_cleanup_job, record_cleanup,
    record_retirement_error, record_worker_heartbeat; effects.

Section system.
Context (env : CatalogEnv).

Definition ignored {A} (m : CM A) : CM unit := m;; mret tt.

Definition call (c : CatalogCall) : CM unit :=
  match c with
  | CEnsureKb t o n k => ignored (ensure_knowledge_base env t o n k)
  | CReserveUpload q => ignored (reserve_upload env q)
  | CRecordManifest j f es nv np x => ignored (record_manifest env j f es nv np x)
  | CPublish j f e x => ignored (publish j f e x)
  | CFail j f code detail x => ignored (fail env j f code detail x)
  | CUpdateJob j f u x => ignored (update_job env j f u x)
  | CClaimIndex l wk s fp now => ignored (claim_index_job env l wk s fp now)
  | CHeartbeatIndex j x s now => ignored (heartbeat_index_job j x s now)
  | CRetryIndex j x dl code detail now => ignored (schedule_index_retry env j x dl code detail now)
  | CDeadLetterIndex j x code detail => ignored (dead_letter_index_job env j x code detail)
  | CRetire t n k r => ignored (retire env t n k r)
  | CClaimCleanup l wk s now => ignored (claim_cleanup_job env l wk s now)
  | CHeartbeatCleanup j x s now => ignored (heartbeat_cleanup_job j x s now)
  | CUpdateCleanup j x s p => ignored (update_cleanup_job env j x s p)
  | CRetryCleanup j x dl code detail now => ignored (schedule_cleanup_retry env j x dl code detail now)
  | CDeadLetterCleanup j x code detail => ignored (dead_letter_cleanup_job env j x code detail)
  | CCompleteCleanup j x => ignored (complete_cleanup_job j x)
  | CRequeueCleanup j m now => ignored (requeue_cleanup_job env j m now)
  | CRecordCleanup v code => ignored (record_cleanup env v code)
  | CRetirementError j t code => ignored (record_retirement_error env j t code)
  | CWorkerHeartbeat wk k s md now => ignored (record_worker_heartbeat env wk k s md now)
  end.

(** A call is made in any world that holds the catalogue. *)
Inductive catalog_step : CatalogDb -> CatalogDb -> Prop :=
  | catalog_step_call c w r w' : call c w = (r, w') -> catalog_step (w_db w) (w_db w').

Inductive catalog_reachable : CatalogDb -> Prop :=
  | reachable_empty : catalog_reachable empty_catalog
  | reachable_step db db' : catalog_reachable db -> catalog_step db db' -> catalog_reachable db'.

(** *** A call that raises leaves the catalogue as it was *)

Lemma atomic_then {A} (m : CM A) (h : exn -> CM A) :
  Atomic m -> (forall e, Atomic (h e)) -> Atomic (catch m h).
Proof.
  intros Hm Hh w e w'. unfold catch. destruct (m w) as [[a|e1] w1] eqn:E; [done|].
  intros H. rewrite (Hh _ _ _ _ H). by eapply Hm.
Qed.

#[export] Instance retried_atomic {A} (body : CM A) e : Atomic (retried body e).
Proof.
  apply atomic_then; [apply _|]. intros []; try apply _.
  apply atomic_then; [apply _|]. intros []; apply _.
Qed.

#[export] Instance required_text_reads s f n : ReadOnly (_required_text env s f n).
Proof. unfold _required_text. effects. Qed.
#[export] Instance content_hash_reads s : ReadOnly (_content_hash s).
Proof. unfold _content_hash. effects. Qed.

Lemma ignored_atomic {A} (m : CM A) : Atomic m -> Atomic (ignored m).
Proof.
  intros Hm w e w' H. unfold ignored, mbind, M_bind in H.
  destruct (m w) as [[a|e1] w1] eqn:E; [done|]. simplify_eq. by eapply Hm.
Qed.

#[export] Instance normalized_manifest_reads acc es : ReadOnly (normalized_manifest env acc es).
Proof. revert acc. induction es; intros acc; simpl; unfold _manifest_entry; effects. Qed.

Lemma call_atomic c : Atomic (call c).
Proof.
  destruct c; apply ignored_atomic; open_calls.
Qed.

(** *** Every call keeps the invariant and the constraints of the schema *)

Lemma ignored_inv {A} (m : CM A) w u w' : ignored m w = (Ret u, w') -> exists a, m w = (Ret a, w').
Proof. unfold ignored. intros H. minv. eauto. Qed.

Lemma call_safe c w u w' : catalog_inv (w_db w) -> call c w = (Ret u, w') -> catalog_inv (w_db w').
Proof.
  intros I H. destruct c; apply ignored_inv in H as (a & H); revert H;
    [ apply ensure_knowledge_base_safe | apply reserve_upload_safe | apply record_manifest_safe
    | apply publish_safe | apply fail_safe | apply update_job_safe | apply claim_index_job_safe
    | apply heartbeat_index_job_safe | apply schedule_index_retry_safe | apply dead_letter_index_job_safe
    | apply retire_safe | apply claim_cleanup_job_safe | apply heartbeat_cleanup_job_safe
    | apply update_cleanup_job_safe | apply schedule_cleanup_retry_safe | apply dead_letter_cleanup_job_safe
    | apply complete_cleanup_job_safe | apply requeue_cleanup_job_safe | apply record_cleanup_safe
    | apply record_retirement_error_safe | apply record_worker_heartbeat_safe ]; done.
Qed.

Lemma step_safe db db' : catalog_inv db -> catalog_step db db' -> catalog_inv db'.
Proof.
  intros I S. revert I. destruct S as [c w [u|e] w' H]; intros I; [by apply (call_safe c w u w')|].
  by rewrite (call_atomic c w e w' H).
Qed.

Lemma empty_inv : catalog_inv empty_catalog.
Proof.
  constructor;
    [|intros u c Hc; unfold cell_of in Hc; simpl in Hc; by rewrite lookup_empty in Hc
     |intros i d Hd; simpl in Hd; by rewrite lookup_empty in Hd].
  constructor; try apply map_Forall_empty; intros i j x y Hx; simpl in Hx; by rewrite lookup_empty in Hx.
Qed.

Lemma catalog_reachable_inv db : catalog_reachable db -> catalog_inv db.
Proof. induction 1; [apply empty_inv|]. by eapply step_safe. Qed.

(** Each call is one or more transactions, so it also keeps the constraints. *)
#[export] Instance retried_consistent {A} (body : CM A) e : Consistent (retried body e).
Proof. intros w a w' (w0 & _ & _ & C)%retried_inv _. done. Qed.

Lemma call_consistent c : Consistent (call c).
Proof. unfold call, ignored. open_calls. Qed.

Lemma step_consistent db db' : catalog_step db db' -> catalog_schema_ok db -> catalog_schema_ok db'.
Proof.
  intros [c w [u|e] w' H]; [|by rewrite (call_atomic c w e w' H)].
  rewrite <- !catalog_constraints_spec. apply (call_consistent c w u w' H).
Qed.

Lemma reachable_schema db : catalog_reachable db -> catalog_schema_ok db.
Proof. induction 1; [|by eapply step_consistent]. apply catalog_constraints_spec. by vm_compute. Qed.
End system.

(** ** A concrete catalogue: a knowledge base, two uploads of a document, a worker *)

Definition cat_hex (c : N) : pystr := PyStr (replicate 64 c).
Definition cat_env : CatalogEnv :=
  mkCatalogEnv (fun _ => cat_hex 97) (fun s => s) (fun t => py_str_int t) (fun _ => "{}"%py) (fun _ => None).
Definition cat_w0 : WorldOf CatalogDb :=
  mkWorld empty_catalog (fun n => 1000000 * Z.of_nat n) 0 (fun n => py_str_int (Z.of_nat n)) 0.

(** The world after a list of calls, whatever their outcome. *)
Definition cat_run (cs : list CatalogCall) : WorldOf CatalogDb :=
  foldl (fun w c => (call cat_env c w).2) cat_w0 cs.

Lemma cat_run_reachable cs : catalog_reachable cat_env (w_db (cat_run cs)).
Proof.
  unfold cat_run. induction cs as [|c cs IH] using rev_ind; [apply reachable_empty|].
  rewrite foldl_app. simpl. eapply reachable_step; [exact IH|].
  destruct (call cat_env c _) as [r w'] eqn:E. by apply (catalog_step_call _ c _ r w').
Qed.

Definition cat_profile : BuildProfile := mkBuildProfile "p1"%py "c1"%py "e1"%py "i1"%py.
Definition cat_upload (c : N) : UploadRequest :=
  mkUploadRequest "t"%py "kb1"%py "a.pdf"%py 7 (cat_hex c) "obj/a"%py "application/pdf"%py 10
    cat_profile "col"%py 3.
Definition cat_entry : ManifestEntry := mkManifestEntry "ch1"%py (cat_hex 98) "vector"%py "s"%py 0.

Definition cs_reserved : list CatalogCall :=
  [CEnsureKb "t"%py 7 "docs"%py (Some "kb1"%py); CReserveUpload (cat_upload 97)].
Definition job_1 : pystr := "idxjob_2"%py.
Definition version_1 : pystr := "docver_1"%py.
Definition doc_1 : pystr := "doc_0"%py.
Definition cat_claim : CatalogCall := CClaimIndex (fun _ => false) "w1"%py 60 None None.
Definition cs_claimed : list CatalogCall := cs_reserved ++ [cat_claim].
Definition exec_1 : IndexJobExecution := mkIndexJobExecution "w1"%py 1.
Definition cs_staged : list CatalogCall :=
  cs_claimed ++ [CRecordManifest job_1 1 [cat_entry] None None (Some exec_1)].
Definition cs_published : list CatalogCall := cs_staged ++ [CPublish job_1 1 None (Some exec_1)].
(** A second upload replaces the first. *)
Definition cs_second : list CatalogCall :=
  cs_published ++ [CReserveUpload (cat_upload 98); cat_claim].
