(* ===== verification/CatalogClaim.v ===== *)
(** * Claims of the catalogue

    The loops of [claim_index_job] and [claim_cleanup_job] end, and what a claim
    hands out. *)

From S2P Require Import Prelude PyBase Errors Session CatalogSchema Catalog CatalogJobs CatalogCleanup CatalogInv CatalogSteps CatalogSafety CatalogPreserve CatalogPreserve2 CatalogSystem.

Open Scope Z_scope.

(** ** Code that never gives up for lack of fuel *)

Class Fuelled {D A} (m : Sess D A) : Prop := fuelled : forall w w', m w <> (Raise EFuel, w').

#[export] Instance fuelled_ret {D A} (a : A) : Fuelled (mret a : Sess D A).
Proof. done. Qed.
#[export] Instance fuelled_get_db {D} : Fuelled (get_db : Sess D _).
Proof. done. Qed.
#[export] Instance fuelled_modify_db {D} f : Fuelled (modify_db f : Sess D unit).
Proof. done. Qed.
#[export] Instance fuelled_utcnow {D} : Fuelled (utcnow : Sess D _).
Proof. done. Qed.
#[export] Instance fuelled_uuid {D} : Fuelled (uuid4_hex : Sess D _).
Proof. done. Qed.
#[export] Instance fuelled_flush {D} `{!Store D} : Fuelled (flush : Sess D unit).
Proof. intros w w'. unfold flush. by destruct (store_ok _). Qed.
#[export] Instance fuelled_bind {D A B} (m : Sess D A) (k : A -> Sess D B) :
  Fuelled m -> (forall a, Fuelled (k a)) -> Fuelled (mbind k m).
Proof.
  intros Hm Hk w w' H. unfold mbind, M_bind in H. specialize (Hm w).
  destruct (m w) as [[a|e] w1]; [by eapply Hk|]. simplify_eq. by eapply Hm.
Qed.
#[export] Instance fuelled_transaction {D} `{!Store D} {A} (m : Sess D A) :
  Fuelled m -> Fuelled (transaction m).
Proof.
  intros Hm w w' [(w1 & H)|[? _]]%transaction_raise_inv; [by eapply Hm|done].
Qed.
Lemma fuelled_raise {D A} e : e <> EFuel -> Fuelled (raise e : Sess D A).
Proof. intros N w w' H. unfold raise in H. by simplify_eq. Qed.
Lemma fuelled_raise_if {D} b e : e <> EFuel -> Fuelled (raise_if b e : Sess D unit).
Proof. intros N. destruct b; [by apply fuelled_raise|apply _]. Qed.
Lemma fuelled_require {D A} (o : option A) e : e <> EFuel -> Fuelled (require o e : Sess D A).
Proof. intros N. destruct o; [apply _|by apply fuelled_raise]. Qed.

Ltac fuel :=
  repeat first
    [ progress intros | apply _
    | apply fuelled_raise; done | apply fuelled_raise_if; done | apply fuelled_require; done
    | match goal with
      | |- Fuelled (match ?x with _ => _ end) => destruct x
      | |- Fuelled (mbind _ _) => apply fuelled_bind
      end ].

(** ** Code that leaves a table alone *)

Class Keeps {D A B} (f : D -> B) (m : Sess D A) : Prop := keeps : forall w, f (w_db (m w).2) = f (w_db w).

#[export] Instance keeps_read_only {D A B} (f : D -> B) (m : Sess D A) : ReadOnly m -> Keeps f m | 10.
Proof. intros R w. by rewrite R. Qed.
#[export] Instance keeps_flush {D} `{!Store D} {B} (f : D -> B) : Keeps f (flush : Sess D unit).
Proof. intros w. unfold flush. by destruct (store_ok _). Qed.
#[export] Instance keeps_bind {D A B C} (f : D -> C) (m : Sess D A) (k : A -> Sess D B) :
  Keeps f m -> (forall a, Keeps f (k a)) -> Keeps f (mbind k m) | 5.
Proof.
  intros Hm Hk w. unfold mbind, M_bind. specialize (Hm w).
  destruct (m w) as [[a|e] w1]; simpl in *; [|done]. by rewrite (Hk a w1).
Qed.
Lemma keeps_modify {D B} (f : D -> B) g : (forall db, f (g db) = f db) -> Keeps f (modify_db g : Sess D unit).
Proof. intros E w. unfold modify_db. simpl. apply E. Qed.
Lemma keeps_run {D A B} (f : D -> B) (m : Sess D A) w r w' :
  Keeps f m -> m w = (r, w') -> f (w_db w') = f (w_db w).
Proof. intros K E. specialize (K w). by rewrite E in K. Qed.

Ltac frame :=
  repeat first
    [ progress intros | apply _ | apply keeps_modify; done
    | match goal with
      | |- Keeps _ (match ?x with _ => _ end) => destruct x
      | |- Keeps _ (mbind _ _) => apply keeps_bind
      end ].

(** Closing one entry shrinks a filtered map. *)
Lemma filter_closed {K V} `{Countable K} (P : K * V -> Prop) `{!forall x, Decision (P x)} (m : gmap K V) i x y :
  m !! i = Some x -> P (i, x) -> ~ P (i, y) -> S (size (filter P (<[i:=y]> m))) = size (filter P m).
Proof.
  intros Hx Px Py. rewrite map_filter_insert_False by done. rewrite map_filter_delete.
  assert (filter P m !! i = Some x) as Hf by by apply map_lookup_filter_Some_2.
  rewrite map_size_delete_Some by eauto. assert (size (filter P m) <> 0%nat); [|lia].
  intros E%map_size_empty_iff. by rewrite E, lookup_empty in Hf.
Qed.

Lemma filter_size_le {K V} `{Countable K} (P : K * V -> Prop) `{!forall x, Decision (P x)} (m : gmap K V) :
  (size (filter P m) <= size m)%nat.
Proof. apply map_subseteq_size, map_filter_subseteq. Qed.

(** The part of a run that runs out of fuel. *)
Lemma fuel_bind {D A B} (k : A -> Sess D B) (m : Sess D A) w w' :
  Fuelled m -> (mbind k m : Sess D B) w = (Raise EFuel, w') ->
  exists a w1, m w = (Ret a, w1) /\ k a w1 = (Raise EFuel, w').
Proof.
  intros F H. unfold mbind, M_bind in H. destruct (m w) as [[a|e] w1] eqn:E; [eauto|].
  simplify_eq. by destruct (F w w').
Qed.

Lemma fuel_transaction {D} `{!Store D} {A} (m : Sess D A) w w' :
  transaction m w = (Raise EFuel, w') -> exists w1, m w = (Raise EFuel, w1).
Proof. by intros [H|[? _]]%transaction_raise_inv. Qed.

Section claims.
Context (env : CatalogEnv).

#[export] Instance fuelled_text s f n : Fuelled (_required_text env s f n).
Proof. unfold _required_text. fuel. Qed.
#[export] Instance fuelled_hash s : Fuelled (_content_hash s).
Proof. unfold _content_hash. fuel. Qed.
#[export] Instance fuelled_clock o : Fuelled (_lease_clock o).
Proof. unfold _lease_clock, _database_now. fuel. Qed.
#[export] Instance fuelled_record d : Fuelled (document_record d).
Proof. unfold document_record. fuel. Qed.
#[export] Instance fuelled_ensure v t m : Fuelled (_ensure_cleanup_job v t m).
Proof. unfold _ensure_cleanup_job, add_cleanup, save_cleanup, _new_id. fuel. Qed.
#[export] Instance fuelled_supersede v now ca c : Fuelled (_supersede_version v now ca c).
Proof. unfold _supersede_version, save_version, save_job. fuel. Qed.
#[export] Instance fuelled_drop d v f now m : Fuelled (drop_candidate d v f now m).
Proof. unfold drop_candidate, update_document, save_doc. fuel. Qed.
#[export] Instance fuelled_dead_letter j v d k f code detail now :
  Fuelled (_dead_letter_locked j v d k f code detail now).
Proof. unfold _dead_letter_locked, fail_version, save_job, save_version, _bump_revision, save_kb. fuel. Qed.
#[export] Instance fuelled_claim_step wk ls clock g : Fuelled (claim_step wk ls clock g).
Proof. unfold claim_step, version_build, save_job, save_version. fuel. Qed.
#[export] Instance fuelled_cleanup_step wk ls clock g : Fuelled (claim_cleanup_step wk ls clock g).
Proof. unfold claim_cleanup_step, _cleanup_build, save_cleanup, save_version. fuel. Qed.

(** ** The index loop *)

(** The jobs a turn of the loop may still pick. *)
Definition open_jobs (db : CatalogDb) : gmap pystr IndexJob :=
  filter (fun kv => index_terminal kv.2.(ij_status) = false) (c_jobs db).

#[export] Instance keeps_jobs_ensure v t m : Keeps c_jobs (_ensure_cleanup_job v t m).
Proof. unfold _ensure_cleanup_job, add_cleanup, save_cleanup, _new_id. frame. Qed.
#[export] Instance keeps_jobs_fail_version d v f code detail now msg :
  Keeps c_jobs (fail_version d v f code detail now msg).
Proof. unfold fail_version, drop_candidate, update_document, save_version, save_doc. frame. Qed.
#[export] Instance keeps_jobs_bump k now : Keeps c_jobs (_bump_revision k now).
Proof. unfold _bump_revision, save_kb. frame. Qed.

Lemma close_job j j' db :
  c_jobs db !! ij_id j = Some j -> index_terminal (ij_status j) = false ->
  ij_id j' = ij_id j -> index_terminal (ij_status j') = true ->
  forall db', c_jobs db' = c_jobs (put_job j' db) -> S (size (open_jobs db')) = size (open_jobs db).
Proof.
  intros Hj Ht E Ht' db' Ed. unfold open_jobs. rewrite Ed. simpl. rewrite E.
  apply (filter_closed _ _ _ j); simpl; congruence.
Qed.

Lemma dead_letter_closes j v d k f code detail now w r w' :
  index_terminal (ij_status j) = false ->
  _dead_letter_locked j v d k f code detail now w = (Ret r, w') ->
  exists j', ij_id j' = ij_id j /\ index_terminal (ij_status j') = true /\
    c_jobs (w_db w') = c_jobs (put_job j' (w_db w)).
Proof.
  intros Ht H. unfold _dead_letter_locked, save_job in H. minv; [by bool_to_prop; rewrite B in Ht|].
  repeat match goal with
  | R : fail_version _ _ _ _ _ _ _ _ = _ |- _ => apply (keeps_run c_jobs) in R; [|apply _]
  | R : _ensure_cleanup_job _ _ _ _ = _ |- _ => apply (keeps_run c_jobs) in R; [|apply _]
  | R : _bump_revision _ _ _ = _ |- _ => apply (keeps_run c_jobs) in R; [|apply _]
  end.
  cbn [w_db set_w_db] in *. eexists. split_and!; [..|do 2 (etrans; [eassumption|]); eassumption]; done.
Qed.

Lemma claim_step_closes wk ls clock j v d k w w' :
  catalog_inv (w_db w) -> graph_at (w_db w) j v d -> job_ready clock j = true ->
  claim_step wk ls clock (j, v, d, k) w = (Ret None, w') ->
  exists j', ij_id j' = ij_id j /\ index_terminal (ij_status j') = true /\
    c_jobs (w_db w') = c_jobs (put_job j' (w_db w)).
Proof.
  intros I G Hr H. pose proof (ready_not_terminal _ _ Hr) as Ht. unfold claim_step in H.
  rewrite (live_candidate_owned _ _ _ _ (live_candidate _ _ _ _ I G Ht)) in H. cbn [negb] in H.
  destruct (attempts_exhausted j); minv; [|done].
  eapply dead_letter_closes; done.
Qed.

Lemma claim_loop_ends fuel cap locked wk ls clock w w' :
  catalog_inv (w_db w) -> (size (open_jobs (w_db w)) < fuel)%nat ->
  claim_loop fuel cap locked wk ls clock w <> (Raise EFuel, w').
Proof.
  revert w. induction fuel as [|fuel IH]; intros w I Hf H; [lia|]. simpl in H.
  rewrite (bind_run _ _ _ _ _ (eq_refl : get_db w = (Ret (w_db w), w))) in H.
  destruct (ready_graph _ _ _ _) as [[[[j v] d] k]|] eqn:Eg; [|done].
  apply head_filter_inv in Eg as [Hin Hr]. apply (visible_inv _ _ _ _ _ _ _ I) in Hin as [G _].
  destruct (claim_step wk ls clock (j, v, d, k) w) as [[r|e] w1] eqn:Es.
  - rewrite (bind_run _ _ _ _ _ Es) in H. destruct r as [b|]; [done|].
    eapply IH; [by eapply claim_step_safe| |done].
    destruct (claim_step_closes _ _ _ _ _ _ _ _ _ I G Hr Es) as (j' & E1 & E2 & E3).
    pose proof (close_job j j' (w_db w) (ga_job _ _ _ _ G) (ready_not_terminal _ _ Hr) E1 E2 _ E3). lia.
  - rewrite (bind_raise _ _ _ _ _ Es) in H. simplify_eq. by eapply fuelled_claim_step.
Qed.

Lemma claim_index_job_ends locked wid ls fp now w w' :
  catalog_inv (w_db w) -> claim_index_job env locked wid ls fp now w <> (Raise EFuel, w').
Proof.
  intros I H. unfold claim_index_job in H.
  apply fuel_bind in H as (wk & w1 & ->%required_text_inv & H); [|apply _].
  apply fuel_bind in H as (cap & w1 & R & H); [|destruct fp; fuel].
  assert (w_db w1 = w_db w) as E1 by (destruct fp; cinv; done). clear R.
  apply fuel_bind in H as (u & w2 & [_ ->]%raise_if_inv & H); [|by apply fuelled_raise_if].
  apply fuel_transaction in H as (w2 & H).
  apply fuel_bind in H as (clock & w3 & R%lease_clock_inv & H); [|apply _]. rewrite <- R in E1.
  apply fuel_bind in H as (db & w4 & [-> ->]%get_db_inv & H); [|apply _].
  destruct (owned_graph _ _ _ _ _) as [[[[j v] d] k]|].
  - revert H. cbv zeta. unfold save_job, version_build. apply (_ : Fuelled _).
  - eapply claim_loop_ends; [by rewrite E1| |done]. rewrite E1. unfold open_jobs.
    pose proof (filter_size_le (fun kv => index_terminal (ij_status kv.2) = false) (c_jobs (w_db w))). lia.
Qed.
(** ** The cleanup loop *)

Definition cleanup_open (s : CleanupJobStatus) : bool :=
  match s with C_COMPLETED | C_DEAD_LETTER => false | _ => true end.
Definition open_cleanups (db : CatalogDb) : gmap pystr DocumentCleanupJob :=
  filter (fun kv => cleanup_open (cj_status kv.2) = true) (c_cleanups db).

Lemma cleanup_step_closes wk ls clock c v d k w w' :
  cleanup_at (w_db w) c v d -> cleanup_ready clock c = true ->
  claim_cleanup_step wk ls clock (c, v, d, k) w = (Ret None, w') ->
  S (size (open_cleanups (w_db w'))) = size (open_cleanups (w_db w)).
Proof.
  intros A Hr H. unfold claim_cleanup_step, save_cleanup, save_version in H.
  rewrite (cleanup_safe_scope _ _ _ _ A) in H. cbn [negb orb] in H.
  destruct (_ <=? _); minv; [|done].
  unfold open_cleanups. cbn [c_cleanups put_version put_cleanup].
  apply (filter_closed _ _ _ c); [apply A| |done].
  unfold cleanup_ready in Hr. simpl. by destruct (cj_status c).
Qed.

Lemma claim_cleanup_loop_ends fuel locked wk ls clock w w' :
  catalog_inv (w_db w) -> (size (open_cleanups (w_db w)) < fuel)%nat ->
  claim_cleanup_loop fuel locked wk ls clock w <> (Raise EFuel, w').
Proof.
  revert w. induction fuel as [|fuel IH]; intros w I Hf H; [lia|]. simpl in H.
  rewrite (bind_run _ _ _ _ _ (eq_refl : get_db w = (Ret (w_db w), w))) in H.
  destruct (ready_cleanup _ _ _) as [[[[c v] d] k]|] eqn:Eg; [|done].
  apply head_filter_inv in Eg as [Hin Hr]. apply (visible_cleanup_inv _ _ _ _ _ _ I) in Hin as [A _].
  apply andb_true_iff in Hr as [Hr _].
  destruct (claim_cleanup_step wk ls clock (c, v, d, k) w) as [[r|e] w1] eqn:Es.
  - rewrite (bind_run _ _ _ _ _ Es) in H. destruct r as [b|]; [done|].
    eapply IH; [by eapply claim_cleanup_step_safe| |done].
    pose proof (cleanup_step_closes _ _ _ _ _ _ _ _ _ A Hr Es). lia.
  - rewrite (bind_raise _ _ _ _ _ Es) in H. simplify_eq. by eapply fuelled_cleanup_step.
Qed.

Lemma claim_cleanup_job_ends locked wid ls now w w' :
  catalog_inv (w_db w) -> claim_cleanup_job env locked wid ls now w <> (Raise EFuel, w').
Proof.
  intros I H. unfold claim_cleanup_job in H.
  apply fuel_bind in H as (wk & w1 & ->%required_text_inv & H); [|apply _].
  apply fuel_bind in H as (u & w2 & [_ ->]%raise_if_inv & H); [|by apply fuelled_raise_if].
  apply fuel_transaction in H as (w2 & H).
  apply fuel_bind in H as (clock & w3 & R%lease_clock_inv & H); [|apply _].
  apply fuel_bind in H as (db & w4 & [-> ->]%get_db_inv & H); [|apply _].
  destruct (owned_cleanup _ _ _ _) as [[[[c v] d] k]|].
  - revert H. cbv zeta. unfold save_cleanup, _cleanup_build. apply (_ : Fuelled _).
  - eapply claim_cleanup_loop_ends; [by rewrite R| |done]. rewrite R. unfold open_cleanups.
    pose proof (filter_size_le (fun kv => cleanup_open (cj_status kv.2) = true) (c_cleanups (w_db w))). lia.
Qed.

(** ** What a claim hands out *)

(** The row of the job handed out, before and after. *)
Definition handed_out (wk : pystr) (ls : Z) (clock : datetime) (j j' : IndexJob) : Prop :=
  job_owned_by wk clock j = true /\ j' = extended_lease clock ls j \/
  job_ready clock j = true /\ attempts_exhausted j = false /\ j' = claimed_job wk clock ls j.

Lemma claim_step_result wk ls clock j v d k w b w' :
  catalog_inv (w_db w) -> graph_at (w_db w) j v d -> job_ready clock j = true ->
  claim_step wk ls clock (j, v, d, k) w = (Ret (Some b), w') ->
  attempts_exhausted j = false /\ vb_job b = _job_record (claimed_job wk clock ls j) d /\
  c_jobs (w_db w') = c_jobs (put_job (claimed_job wk clock ls j) (w_db w)).
Proof.
  intros I G Hr H. pose proof (ready_not_terminal _ _ Hr) as Ht. unfold claim_step in H.
  rewrite (live_candidate_owned _ _ _ _ (live_candidate _ _ _ _ I G Ht)) in H. cbn [negb] in H.
  unfold save_job, save_version, version_build in H.
  destruct (attempts_exhausted j); minv; [done|].
  match goal with R : document_record _ _ = _ |- _ => apply document_record_inv in R; subst end. injection E as <-. by split_and!.
Qed.

Lemma claim_loop_result fuel cap locked wk ls clock w b w' :
  catalog_inv (w_db w) -> claim_loop fuel cap locked wk ls clock w = (Ret (Some b), w') ->
  exists j d, c_jobs (w_db w) !! ij_id j = Some j /\ locked (ij_id j) = false /\
    job_ready clock j = true /\ attempts_exhausted j = false /\
    vb_job b = _job_record (claimed_job wk clock ls j) d /\
    c_jobs (w_db w') !! ij_id j = Some (claimed_job wk clock ls j).
Proof.
  revert w. induction fuel as [|fuel IH]; intros w I H; simpl in H; [done|].
  apply bind_inv in H as (db & w1 & [-> ->]%get_db_inv & H).
  destruct (ready_graph _ _ _ _) as [[[[j v] d] k]|] eqn:Eg; [|done].
  apply head_filter_inv in Eg as [Hin Hr]. apply (visible_inv _ _ _ _ _ _ _ I) in Hin as [G Hl].
  apply bind_inv in H as (o & w2 & Hs & H). destruct o as [b'|]; minv; simplify_eq.
  - destruct (claim_step_result _ _ _ _ _ _ _ _ _ _ I G Hr Hs) as (Ha & Eb & Ej).
    exists j, d. split_and!; try done; [apply G|]. rewrite Ej. simpl. apply lookup_insert_eq.
  - apply IH in H as (j1 & d1 & Hj1 & Hl1 & Hr1 & R); [|by eapply claim_step_safe].
    destruct (claim_step_closes _ _ _ _ _ _ _ _ _ I G Hr Hs) as (j' & E1 & E2 & E3).
    exists j1, d1. split_and!; try done; try apply R. rewrite E3 in Hj1. simpl in Hj1.
    rewrite E1, lookup_insert in Hj1. case_decide; [|done]. simplify_eq.
    apply ready_not_terminal in Hr1. congruence.
Qed.

(** The clock a claim reads. *)
Definition claim_clock (w : WorldOf CatalogDb) (now : option datetime) : datetime :=
  default (w_clock w (w_tick w)) now.

Lemma lease_clock_run now w : exists w1, _lease_clock now w = (Ret (claim_clock w now), w1) /\ w_db w1 = w_db w.
Proof. unfold _lease_clock, claim_clock. destruct now; simpl; eauto. Qed.

Lemma claim_index_job_result locked wid ls fp now w b w' :
  catalog_inv (w_db w) -> claim_index_job env locked wid ls fp now w = (Ret (Some b), w') ->
  exists wk j j' d, _required_text env wid "worker_id"%py 128 w = (Ret wk, w) /\
    c_jobs (w_db w) !! ij_id j = Some j /\ locked (ij_id j) = false /\
    handed_out wk ls (claim_clock w now) j j' /\ vb_job b = _job_record j' d /\
    c_jobs (w_db w') !! ij_id j = Some j'.
Proof.
  intros I H. unfold claim_index_job in H.
  apply bind_inv in H as (wk & w1 & R & H). assert (w1 = w) as -> by by eapply required_text_inv.
  exists wk.
  apply bind_inv in H as (cap & w1 & Rc & H).
  assert (w1 = w) as -> by (destruct fp; cinv; done). clear Rc.
  apply bind_inv in H as (u & w2 & [_ ->]%raise_if_inv & H).
  apply transaction_inv in H as [H _]. apply bind_inv in H as (clock & w2 & Rl & H).
  destruct (lease_clock_run now w) as (w3 & El & E3). rewrite El in Rl. simplify_eq. rewrite <- E3 in I |- *.
  apply bind_inv in H as (db & w4 & [-> ->]%get_db_inv & H).
  destruct (owned_graph _ _ _ _ _) as [[[[j v] d] k]|] eqn:Eg.
  - apply head_filter_inv in Eg as [Hin Ho]. apply (visible_inv _ _ _ _ _ _ _ I) in Hin as [G Hl].
    cbv zeta in H. unfold save_job, version_build in H. minv. simplify_eq.
    match goal with R : document_record _ _ = _ |- _ => apply document_record_inv in R; subst end.
    exists j, (extended_lease (claim_clock w now) ls j), d.
    split_and!; try done; [apply G|by left|simpl; apply lookup_insert_eq].
  - apply claim_loop_result in H as (j & d & R1 & R2 & R3 & R4 & R5 & R6); [|done].
    exists j, (claimed_job wk (claim_clock w now) ls j), d. split_and!; try done. by right.
Qed.
End claims.
