(* ===== verification/CatalogEvolve.v ===== *)
(** * How rows of the catalogue may change

    No call removes a document, a version or an index job, none changes what
    identifies it, fences only grow, and a version that has died or a job that
    has ended keeps its status for ever. *)

From S2P Require Import Prelude PyBase Errors Session CatalogSchema Catalog CatalogJobs CatalogCleanup CatalogInv CatalogSteps CatalogSafety CatalogPreserve CatalogPreserve2 CatalogSystem CatalogClaim.

Open Scope Z_scope.

(** ** Orders on rows *)

Definition doc_le (d d' : Document) : Prop :=
  doc_id d' = doc_id d /\ doc_tenant_id d' = doc_tenant_id d /\
  doc_knowledge_base_id d' = doc_knowledge_base_id d /\ doc_canonical_name d' = doc_canonical_name d /\
  doc_owner_id d' = doc_owner_id d /\
  doc_publication_fence d <= doc_publication_fence d' /\ doc_version_counter d <= doc_version_counter d'.

Definition version_le (v v' : DocumentVersion) : Prop :=
  dv_id v' = dv_id v /\ dv_document_id v' = dv_document_id v /\
  dv_content_sha256 v' = dv_content_sha256 v /\ dv_build_fingerprint v' = dv_build_fingerprint v /\
  dv_version_number v' = dv_version_number v /\ dv_source_object_key v' = dv_source_object_key v /\
  (dead_status (dv_status v) = true -> dv_status v' = dv_status v) /\
  (dv_status v = V_READY -> dv_status v' = V_READY \/ dv_status v' = V_SUPERSEDED).

Definition job_le (j j' : IndexJob) : Prop :=
  ij_id j' = ij_id j /\ ij_document_version_id j' = ij_document_version_id j /\
  ij_publication_fence j' = ij_publication_fence j /\ ij_max_attempts j' = ij_max_attempts j /\
  ij_expected_current_version_id j' = ij_expected_current_version_id j /\
  ij_execution_fence j <= ij_execution_fence j' /\
  (index_terminal (ij_status j) = true -> ij_status j' = ij_status j).

#[export] Instance doc_le_pre : PreOrder doc_le.
Proof.
  split; [by intros d; split_and!|]. intros a b c (?&?&?&?&?&?&?) (?&?&?&?&?&?&?).
  split_and!; try congruence; lia.
Qed.
#[export] Instance version_le_pre : PreOrder version_le.
Proof.
  split; [intros d; split_and!; auto|]. intros a b c (?&?&?&?&?&?&D1&R1) (?&?&?&?&?&?&D2&R2).
  split_and!; try congruence.
  - intros D. rewrite <- (D1 D). apply D2. by rewrite (D1 D).
  - intros R. destruct (R1 R) as [E|E]; [by apply R2|]. right. rewrite <- E. apply D2. by rewrite E.
Qed.
#[export] Instance job_le_pre : PreOrder job_le.
Proof.
  split; [intros d; by split_and!|]. intros a b c (?&?&?&?&?&?&D1) (?&?&?&?&?&?&D2).
  split_and!; try congruence; [lia|]. intros D. rewrite <- (D1 D). apply D2. by rewrite (D1 D).
Qed.

(** ** Orders on tables *)

Definition grows {V} (R : relation V) (m m' : gmap pystr V) : Prop :=
  forall i x, m !! i = Some x -> exists x', m' !! i = Some x' /\ R x x'.

#[export] Instance grows_pre {V} (R : relation V) `{!PreOrder R} : PreOrder (grows R).
Proof.
  split; [intros m i x Hx; by exists x|]. intros a b c A B i x Hx.
  destruct (A i x Hx) as (y & Hy & Ry). destruct (B i y Hy) as (z & Hz & Rz). exists z. split; [done|]. by etrans.
Qed.

Lemma grows_put {V} (R : relation V) `{!PreOrder R} m i x y :
  m !! i = Some x -> R x y -> grows R m (<[i:=y]> m).
Proof.
  intros Hx Ry k z Hz. rewrite lookup_insert. case_decide; [|by exists z]. subst. simplify_eq. eauto.
Qed.
Lemma grows_new {V} (R : relation V) `{!PreOrder R} m i y : m !! i = None -> grows R m (<[i:=y]> m).
Proof. intros Hx k z Hz. rewrite lookup_insert. case_decide; [|by exists z]. congruence. Qed.

Record evolves (db db' : CatalogDb) : Prop := mkEvolves {
  ev_docs : grows doc_le (c_docs db) (c_docs db');
  ev_versions : grows version_le (c_versions db) (c_versions db');
  ev_jobs : grows job_le (c_jobs db) (c_jobs db')
}.

#[export] Instance evolves_pre : PreOrder evolves.
Proof. split; [by intros db|]. intros a b c [] []. split; by etrans. Qed.

(** The tables the order looks at. *)
Definition core (db : CatalogDb) := (c_docs db, c_versions db, c_jobs db).

Lemma evolves_core db x y : core x = core y -> evolves db y -> evolves db x.
Proof. unfold core. intros E []. injection E as E1 E2 E3. split; by rewrite ?E1, ?E2, ?E3. Qed.

Lemma evolves_job db x j0 j :
  evolves db x -> c_jobs x !! ij_id j = Some j0 -> job_le j0 j -> evolves db (put_job j x).
Proof. intros [] H L. split; [done..|]. etrans; [done|]. by eapply grows_put; [apply _|..]. Qed.
Lemma evolves_version db x v0 v :
  evolves db x -> c_versions x !! dv_id v = Some v0 -> version_le v0 v -> evolves db (put_version v x).
Proof. intros [] H L. split; [done| |done]. etrans; [done|]. by eapply grows_put; [apply _|..]. Qed.
Lemma evolves_doc db x d0 d :
  evolves db x -> c_docs x !! doc_id d = Some d0 -> doc_le d0 d -> evolves db (put_doc d x).
Proof. intros [] H L. split; [|done..]. etrans; [done|]. by eapply grows_put; [apply _|..]. Qed.
Lemma evolves_job_new db x j : evolves db x -> c_jobs x !! ij_id j = None -> evolves db (put_job j x).
Proof. intros [] H. split; [done..|]. etrans; [done|]. by apply grows_new; [apply _|..]. Qed.
Lemma evolves_version_new db x v : evolves db x -> c_versions x !! dv_id v = None -> evolves db (put_version v x).
Proof. intros [] H. split; [done| |done]. etrans; [done|]. by apply grows_new; [apply _|..]. Qed.
Lemma evolves_doc_new db x d : evolves db x -> c_docs x !! doc_id d = None -> evolves db (put_doc d x).
Proof. intros [] H. split; [|done..]. etrans; [done|]. by apply grows_new; [apply _|..]. Qed.
Lemma evolves_kb db x k : evolves db x -> evolves db (put_kb k x).
Proof. by apply evolves_core. Qed.
Lemma evolves_cleanup db x c : evolves db x -> evolves db (put_cleanup c x).
Proof. by apply evolves_core. Qed.
Lemma evolves_retirement db x r : evolves db x -> evolves db (put_retirement r x).
Proof. by apply evolves_core. Qed.
Lemma evolves_worker db x r : evolves db x -> evolves db (put_worker r x).
Proof. by apply evolves_core. Qed.

(** ** The parts of the operations *)

#[export] Instance keeps_core_ensure v t m : Keeps core (_ensure_cleanup_job v t m).
Proof. unfold _ensure_cleanup_job, add_cleanup, save_cleanup, _new_id. frame. Qed.
#[export] Instance keeps_core_upsert env rid d vs f now : Keeps core (_upsert_retirement_job env rid d vs f now).
Proof. unfold _upsert_retirement_job. frame. Qed.

Ltac le := split_and!; simpl; auto; try done; try lia; try congruence.

Lemma drop_candidate_evolves db d v fence now msg w u w' :
  evolves db (w_db w) -> map_Forall (fun i d => doc_id d = i) (c_docs (w_db w)) ->
  drop_candidate d v fence now msg w = (Ret u, w') -> evolves db (w_db w').
Proof.
  intros E T H. apply drop_candidate_inv in H as (d0 & Hd & ->).
  eapply evolves_doc; [done| |by le]. simpl. by rewrite (T _ _ Hd).
Qed.

#[export] Instance keeps_jobs_drop d v f now m : Keeps c_jobs (drop_candidate d v f now m).
Proof. unfold drop_candidate, update_document, save_doc. frame. Qed.
#[export] Instance keeps_jobs_supersede v now ca : Keeps c_jobs (_supersede_version v now ca false).
Proof. unfold _supersede_version, save_version. frame. Qed.
#[export] Instance keeps_docs_ensure v t m : Keeps c_docs (_ensure_cleanup_job v t m).
Proof. unfold _ensure_cleanup_job, add_cleanup, save_cleanup, _new_id. frame. Qed.
#[export] Instance keeps_docs_supersede v now ca b : Keeps c_docs (_supersede_version v now ca b).
Proof. unfold _supersede_version, save_version, save_job. frame. Qed.

Lemma supersede_evolves db v now ca cancel w v' w' :
  evolves db (w_db w) -> tables_ok (w_db w) -> c_versions (w_db w) !! dv_id v = Some v ->
  dead_status (dv_status v) = false -> _supersede_version v now ca cancel w = (Ret v', w') ->
  evolves db (w_db w').
Proof.
  intros E T Hv Hs H. destruct (tk_version _ T _ _ Hv) as [_ Hn]. simpl in Hn.
  pose proof (tk_version_doc _ T _ _ Hv) as Hd. simpl in Hd.
  apply supersede_inv in H as (-> & c & Ew & _); try done. rewrite Ew.
  apply evolves_cleanup.
  assert (evolves db (put_version (superseded_version now ca v) (w_db w))) as E1.
  { eapply evolves_version; [done|done|by le]. }
  unfold job_cancelled. destruct cancel; [|done]. destruct (job_in _ _) as [j|] eqn:Ej; [|done].
  destruct (index_terminal _) eqn:Ht; [done|]. change (c_jobs _) with (c_jobs (w_db w)) in Ej.
  destruct (job_in_fits (w_db w) (dv_id v) j now T Ej) as (Hj & _).
  by eapply evolves_job; [done|done|le].
Qed.

(** A candidate's job has ended: its version, its job and its document. *)
Lemma failed_evolves db j v d j' v' w1 now0 max u w2 w3 now msg fence u3 :
  catalog_inv db -> graph_at db j v d -> candidate_at db j v d ->
  version_le v v' -> job_le j j' ->
  w_db w1 = put_version v' (put_job j' db) ->
  drop_candidate d v fence now msg w1 = (Ret u, w2) ->
  _ensure_cleanup_job (dv_id v) now0 max w2 = (Ret u3, w3) ->
  evolves db (w_db w3).
Proof.
  intros I G L Lv Lj E1 Hd He. apply (keeps_run core) in He; [|apply _].
  eapply evolves_core; [exact He|]. apply drop_candidate_inv in Hd as (d0 & Hd & E2).
  rewrite E1 in Hd, E2. simpl in Hd. rewrite (ga_doc _ _ _ _ G) in Hd. simplify_eq. rewrite E2.
  eapply evolves_doc; [|simpl; apply G|by le].
  eapply evolves_version; [|simpl; rewrite (proj1 Lv); apply G|done].
  by eapply evolves_job; [|rewrite (proj1 Lj); apply G|].
Qed.

Lemma version_le_candidate v v' :
  dv_id v' = dv_id v -> dv_document_id v' = dv_document_id v -> dv_content_sha256 v' = dv_content_sha256 v ->
  dv_build_fingerprint v' = dv_build_fingerprint v -> dv_version_number v' = dv_version_number v ->
  dv_source_object_key v' = dv_source_object_key v -> is_candidate (dv_status v) = true -> version_le v v'.
Proof. intros. split_and!; try done; by destruct (dv_status v). Qed.

Lemma job_le_open j j' :
  ij_id j' = ij_id j -> ij_document_version_id j' = ij_document_version_id j ->
  ij_publication_fence j' = ij_publication_fence j -> ij_max_attempts j' = ij_max_attempts j ->
  ij_expected_current_version_id j' = ij_expected_current_version_id j ->
  ij_execution_fence j <= ij_execution_fence j' -> index_terminal (ij_status j) = false -> job_le j j'.
Proof. intros ?????? Ht. split_and!; try done. by rewrite Ht. Qed.

Section evolve.
Context (env : CatalogEnv).

Lemma dead_letter_locked_evolves j v d k fence code detail now w r w' :
  catalog_inv (w_db w) -> graph_at (w_db w) j v d ->
  _dead_letter_locked j v d k fence code detail now w = (Ret r, w') -> evolves (w_db w) (w_db w').
Proof.
  intros I G H. unfold _dead_letter_locked in H. ops; [done|]. bool_to_prop. subst fence.
  pose proof (live_candidate _ _ _ _ I G G1) as L. rewrite Edb. apply evolves_kb.
  match goal with Hf : fail_version _ _ _ _ _ _ _ _ = _ |- _ =>
    apply fail_version_candidate in Hf as (wf & uf & Ef & Hd); [|apply L|symmetry; apply L]
  end.
  simpl in Ef. eapply (failed_evolves _ j v d _ _ wf); [done|done|done| | |exact Ef|exact Hd|eassumption].
  - apply version_le_candidate; try done. apply L.
  - by apply job_le_open.
Qed.

Lemma fail_locked_evolves j v d k fence code detail patch x now w r w' :
  catalog_inv (w_db w) -> graph_at (w_db w) j v d ->
  _fail_locked j v d k fence code detail patch x now w = (Ret r, w') -> evolves (w_db w) (w_db w').
Proof.
  intros I G H. unfold _fail_locked in H. ops; [by rewrite Edb|]. bool_to_prop. subst fence.
  rewrite Edb0. apply evolves_kb. rewrite <- Edb in *.
  assert (index_terminal (ij_status j) = false) as Ht by by eapply fail_open.
  pose proof (live_candidate _ _ _ _ I G Ht) as L.
  match goal with Hf : fail_version _ _ _ _ _ _ _ _ = _ |- _ =>
    apply fail_version_candidate in Hf as (wf & uf & Ef & Hd); [|apply L|symmetry; apply L]
  end.
  simpl in Ef. eapply (failed_evolves _ j v d _ _ wf); [done|done|done| | |exact Ef|exact Hd|eassumption].
  - apply version_le_candidate; try done. apply L.
  - by apply job_le_open.
Qed.
Lemma fail_evolves jid fence code detail x w r w' :
  catalog_inv (w_db w) -> fail env jid fence code detail x w = (Ret r, w') -> evolves (w_db w) (w_db w').
Proof.
  intros I H. unfold fail in H. ops. destruct (graph_at_intro _ _ _ _ _ I Hj Hv Hd) as [Ga _].
  by eapply fail_locked_evolves.
Qed.

Lemma dead_letter_index_job_evolves jid x code detail w r w' :
  catalog_inv (w_db w) -> dead_letter_index_job env jid x code detail w = (Ret r, w') ->
  evolves (w_db w) (w_db w').
Proof.
  intros I H. unfold dead_letter_index_job in H. ops. rewrite <- Edb in *.
  destruct (graph_at_intro _ _ _ _ _ I Hj Hv Hd) as [Ga _]. by eapply dead_letter_locked_evolves.
Qed.

Lemma record_manifest_evolves jid fence entries nv np x w b w' :
  catalog_inv (w_db w) -> record_manifest env jid fence entries nv np x w = (Ret b, w') ->
  evolves (w_db w) (w_db w').
Proof.
  intros I H. unfold record_manifest in H. ops. rewrite Edb0. apply evolves_kb. rewrite <- Edb in *.
  destruct (graph_at_intro _ _ _ _ _ I Hj Hv Hd) as [Ga Ei].
  pose proof (live_candidate _ _ _ _ I Ga Ht) as L. bool_to_prop.
  eapply evolves_job; [eapply evolves_version; [by eapply (evolves_core _ _ (w_db _)); [|done]|apply Ga|]|apply Ga|].
  - apply version_le_candidate; try done. apply L.
  - by apply job_le_open.
Qed.

Lemma claim_step_evolves wk ls clock j v d k w r w' :
  catalog_inv (w_db w) -> graph_at (w_db w) j v d -> job_ready clock j = true ->
  claim_step wk ls clock (j, v, d, k) w = (Ret r, w') -> evolves (w_db w) (w_db w').
Proof.
  intros I G Hr H. pose proof (ready_not_terminal _ _ Hr) as Ht.
  pose proof (live_candidate _ _ _ _ I G Ht) as L. unfold claim_step in H.
  rewrite (live_candidate_owned _ _ _ _ L) in H. cbn [negb] in H. destruct (attempts_exhausted j).
  - apply bind_inv in H as (b & w1 & Hd & H). ops.
    by apply (dead_letter_locked_evolves _ _ _ _ _ _ _ _ _ _ _ I G) in Hd.
  - ops. eapply evolves_version; [eapply evolves_job; [done|apply G|apply job_le_open; simpl; try done; lia]| |].
    + unfold claimed_version. case_bool_decide; apply G.
    + unfold claimed_version. case_bool_decide; [done|]. apply version_le_candidate; try done. apply L.
Qed.

Lemma claim_loop_evolves fuel cap locked wk ls clock w r w' :
  catalog_inv (w_db w) -> claim_loop fuel cap locked wk ls clock w = (Ret r, w') -> evolves (w_db w) (w_db w').
Proof.
  revert w. induction fuel as [|fuel IH]; intros w I H; simpl in H; [done|].
  apply bind_inv in H as (db & w1 & [-> ->]%get_db_inv & H).
  destruct (ready_graph _ _ _ _) as [[[[j v] d] k]|] eqn:Eg; [|by minv].
  apply head_filter_inv in Eg as [Hin Hr]. apply (visible_inv _ _ _ _ _ _ _ I) in Hin as [G _].
  apply bind_inv in H as (b & w2 & Hs & H).
  pose proof (claim_step_evolves _ _ _ _ _ _ _ _ _ _ I G Hr Hs) as E1.
  apply (claim_step_safe _ _ _ _ _ _ _ _ _ _ I G Hr) in Hs.
  destruct b; [by minv|]. etrans; [done|]. eauto.
Qed.

Lemma claim_index_job_evolves locked wid ls fp now w r w' :
  catalog_inv (w_db w) -> claim_index_job env locked wid ls fp now w = (Ret r, w') ->
  evolves (w_db w) (w_db w').
Proof.
  intros I H. unfold claim_index_job in H. ops.
  all: try (rewrite <- Edb in I |- *).
  all: try (by eapply claim_loop_evolves).
  all: apply head_filter_inv in B as [Hin Ho]; apply (visible_inv _ _ _ _ _ _ _ I) in Hin as [G1 _];
    eapply evolves_job; [done|apply G1|by le].
Qed.

Lemma heartbeat_index_job_evolves jid x ls now w r w' :
  catalog_inv (w_db w) -> heartbeat_index_job jid x ls now w = (Ret r, w') -> evolves (w_db w) (w_db w').
Proof.
  intros I H. unfold heartbeat_index_job in H. ops. rewrite <- Edb in *.
  destruct (graph_at_intro _ _ _ _ _ I Hj Hv Hd) as [Ga _].
  eapply evolves_job; [done|apply Ga|by le].
Qed.

Lemma schedule_index_retry_evolves jid x delay code detail now w r w' :
  catalog_inv (w_db w) -> schedule_index_retry env jid x delay code detail now w = (Ret r, w') ->
  evolves (w_db w) (w_db w').
Proof.
  intros I H. unfold schedule_index_retry in H. ops; rewrite <- Edb in *;
    destruct (graph_at_intro _ _ _ _ _ I Hj Hv Hd) as [Ga _].
  - by eapply dead_letter_locked_evolves.
  - eapply evolves_job; [done|apply Ga|by apply job_le_open].
Qed.
Lemma update_effects_evolves db j v d j1 next u fence now w r w' :
  catalog_inv db -> graph_at db j v d -> candidate_at db j v d -> job_le j j1 ->
  w_db w = put_job j1 db -> index_terminal (ij_status j) = false ->
  update_job_effects env next u j1 v d fence now w = (Ret r, w') -> evolves db (w_db w').
Proof.
  intros I G L Lj Ew Ht H. pose proof (inv_tables _ I) as T.
  assert (ij_id j1 = ij_id j) as Ei by apply Lj.
  assert (evolves db (w_db w)) as E1.
  { rewrite Ew. eapply evolves_job; [done|rewrite Ei; apply G|done]. }
  assert (c_versions (w_db w) !! dv_id v = Some v) as Hv by (rewrite Ew; apply G).
  assert (tables_ok (w_db w)) as T1.
  { rewrite Ew. apply (tables_put_updated db j v d j1); try done. apply Lj. }
  assert (forall w1, evolves db (w_db w1) -> c_jobs (w_db w1) = c_jobs (w_db w) ->
    evolves db (put_job (finished_job now j1) (w_db w1))) as Fin.
  { intros w1 Ev Ej. eapply evolves_job; [done| |].
    - simpl. rewrite Ej, Ew. simpl. apply lookup_insert_eq.
    - by le. }
  unfold update_job_effects in H. destruct next; ops; try done.
  - eapply evolves_version; [done|done|]. apply version_le_candidate; try done. apply L.
  - pose proof (keeps_run c_docs _ _ _ _ _ R) as Kd. pose proof (keeps_run c_jobs _ _ _ _ _ R) as Kj.
    apply (supersede_evolves db) in R; try done; [|by eapply candidate_alive].
    apply Fin; [eapply drop_candidate_evolves; [exact R| |exact R0]; rewrite Kd; apply T1|].
    by rewrite (keeps_run c_jobs _ _ _ _ _ R0).
  - apply Fin; [|by rewrite (keeps_run c_jobs _ _ _ _ _ R1), (keeps_run c_jobs _ _ _ _ _ R0)].
    eapply evolves_core; [apply (keeps_run core _ _ _ _ _ R1)|].
    revert R0. apply drop_candidate_evolves; [|exact (tk_doc _ T1)].
    eapply evolves_version; [done|done|]. apply version_le_candidate; try done. apply L.
Qed.

Lemma update_job_evolves jid fence u x w r w' :
  catalog_inv (w_db w) -> update_job env jid fence u x w = (Ret r, w') -> evolves (w_db w) (w_db w').
Proof.
  intros I H. unfold update_job in H.
  apply bind_inv in H as (target & w1 & Ht & H). assert (w1 = w) as -> by by minv. clear Ht.
  apply bind_inv in H as (a & w1 & [G1 ->]%raise_if_inv & H).
  apply bind_inv in H as (step & w1 & Hs & H). assert (w1 = w) as -> by by ops. clear Hs.
  apply transaction_inv in H as [H _]. ops; rewrite <- Edb in *;
    destruct (graph_at_intro _ _ _ _ _ I Hj Hv Hd) as [Ga _].
  - by eapply fail_locked_evolves.
  - rewrite Edb0. apply evolves_kb. pose proof (live_candidate _ _ _ _ I Ga Ht) as L.
    match goal with R : update_job_effects _ _ _ _ _ _ _ _ _ = _ |- _ =>
      eapply (update_effects_evolves _ _ _ _ _ _ _ _ _ _ _ _ I Ga L) in R; try done end.
    by apply job_le_open.
  - rewrite Edb0. apply evolves_kb. bool_to_prop. apply dec_stable in B0. rewrite B0 in *.
    unfold update_job_effects in *. minv.
    eapply evolves_job; [done|apply Ga|]. le.
    intros Ht. destruct (ij_status i); try done; simpl in G; by apply list_elem_of_singleton in G.
Qed.

Lemma published_evolves db x j v d now :
  evolves db x -> graph_at db j v d -> c_jobs x = c_jobs db -> c_versions x !! dv_id v = Some v ->
  is_candidate (dv_status v) = true -> index_terminal (ij_status j) = false ->
  evolves db (put_job (completed_job now j) (put_version (published_version now v) x)).
Proof.
  intros E G Ej Hv Hc Ht. eapply evolves_job; [eapply evolves_version; [done|done|]| |].
  - by apply version_le_candidate.
  - simpl. rewrite Ej. apply G.
  - by apply job_le_open.
Qed.

Lemma publish_evolves jid fence expected x w r w' :
  catalog_inv (w_db w) -> publish jid fence expected x w = (Ret r, w') -> evolves (w_db w) (w_db w').
Proof.
  intros I H. unfold publish in H. ops; [done|..]; rewrite Edb0; apply evolves_kb; rewrite <- Edb in *;
    destruct (graph_at_intro _ _ _ _ _ I Hj Hv Hd) as [Ga _];
    match goal with U : update_document _ _ _ _ = _ |- _ =>
      apply update_document_inv in U as (dx & Hdx & Hcond & Edx); [|by bool_to_prop] end;
    rewrite (ga_doc _ _ _ _ Ga) in Hdx; injection Hdx as <-;
    match goal with V : _version_by_pointer _ _ _ = _ |- _ =>
      apply version_by_pointer_inv in V as [-> Hptr] end;
    pose proof (live_candidate _ _ _ _ I Ga Ht) as L; pose proof (inv_tables _ I) as T.
  all: assert (evolves (w_db w0) (w_db w5)) as E5 by (rewrite Edx; eapply evolves_doc; [done|apply Ga|by le]).
  - destruct Hptr as [[? _]|(u & vp & -> & Evp & Hvp & _)]; [done|]. injection Evp as <-.
    assert (tables_ok (w_db w5)) as T5 by (rewrite Edx; apply tables_put_doc; [done|apply Ga]).
    destruct (tk_version _ T5 _ _ Hvp) as [Eu Hn]. simpl in Eu, Hn. subst u. bool_to_prop.
    destruct (inv_docs _ I _ _ (ga_doc _ _ _ _ Ga)) as (P1 & _ & _).
    destruct (P1 _ ltac:(eassumption)) as (y & Hy & _ & Sy). rewrite Edx in Hvp. simpl in Hvp.
    rewrite Hvp in Hy. injection Hy as <-. unfold is_ready in Sy. bool_to_prop.
    assert (c_versions (w_db w5) !! dv_id d1 = Some d1) as Hv5 by by rewrite Edx.
    pose proof (keeps_run c_jobs _ _ _ _ _ R) as Kj. rewrite Edx in Kj.
    assert (c_versions (w_db w8) !! dv_id d0 = Some d0) as Hv8.
    { apply supersede_inv in R as (-> & c & -> & _); try done; [|apply (tk_version_doc _ T5 _ _ Hv5)].
      simpl. rewrite lookup_insert_ne by done. rewrite Edx. apply Ga. }
    eapply published_evolves; try done; [|apply L].
    by apply (supersede_evolves (w_db w0)) in R; try done; rewrite Sy.
  - eapply published_evolves; try done; [by rewrite Edx|rewrite Edx; apply Ga|apply L].
  - eapply published_evolves; try done; [by rewrite Edx|rewrite Edx; apply Ga|apply L].
Qed.
Lemma supersede_frame v now ca cancel w v' w' :
  tables_ok (w_db w) -> c_versions (w_db w) !! dv_id v = Some v ->
  _supersede_version v now ca cancel w = (Ret v', w') ->
  tables_ok (w_db w') /\ forall u, u <> dv_id v -> c_versions (w_db w') !! u = c_versions (w_db w) !! u.
Proof.
  intros T Hv H. destruct (tk_version _ T _ _ Hv) as [_ Hn]. simpl in Hn.
  pose proof (tk_version_doc _ T _ _ Hv) as Hd. simpl in Hd.
  apply supersede_inv in H as (-> & c & Ew & C1 & C2 & _); try done. rewrite Ew.
  assert (tables_ok (put_version (superseded_version now ca v) (w_db w))) as T1 by by apply tables_put_version.
  set (x := job_cancelled cancel now (dv_id v) (put_version (superseded_version now ca v) (w_db w))) in *.
  assert (c_versions x = <[dv_id v := superseded_version now ca v]> (c_versions (w_db w))) as Kv.
  { unfold x, job_cancelled. destruct cancel; [|done]. destruct (job_in _ _); [|done].
    by destruct (index_terminal _). }
  split.
  - apply tables_put_cleanup; [by apply tables_job_cancelled| |].
    + unfold x, job_cancelled. destruct cancel; [|done]. destruct (job_in _ _); [|done].
      by destruct (index_terminal _).
    + rewrite C1, Kv, lookup_insert_eq. eauto.
  - intros u Hu. change (c_versions x !! u = c_versions (w_db w) !! u). by rewrite Kv, lookup_insert_ne.
Qed.

(** A version that a pointer of a document names has not died. *)
Lemma pointed_alive db d v :
  catalog_inv db -> c_docs db !! doc_id d = Some d ->
  (pointed db d (doc_current_version_id d) (Some v) \/ pointed db d (doc_pending_version_id d) (Some v)) ->
  c_versions db !! dv_id v = Some v /\ dead_status (dv_status v) = false.
Proof.
  intros I Hd Hp. destruct (inv_docs _ I _ _ Hd) as (P1 & P2 & _).
  destruct Hp as [[[? _]|(u & y & Hc & E & Hv & _)]|[[? _]|(u & y & Hc & E & Hv & _)]]; try done; simplify_eq;
    destruct (tk_version _ (inv_tables _ I) _ _ Hv) as [Eu _]; simpl in Eu; subst u; (split; [done|]).
  - destruct (P1 _ Hc) as (z & Hz & _ & Sz). simplify_eq. unfold is_ready in Sz. bool_to_prop. by rewrite Sz.
  - destruct (P2 _ Hc) as (z & Hz & _ & Sz). simplify_eq. by destruct (dv_status y).
Qed.

Lemma reserve_candidate_evolves q i k d now rq w r w' :
  catalog_inv (w_db w) -> c_docs (w_db w) !! doc_id d = Some d ->
  reserve_candidate env q i k d now rq w = (Ret r, w') -> evolves (w_db w) (w_db w').
Proof.
  intros I Hd H. unfold reserve_candidate in H.
  apply bind_inv in H as (o & w1 & R & H). apply version_by_pointer_inv in R as [-> Po].
  apply bind_inv in H as (u & w1 & R & H).
  assert (evolves (w_db w) (w_db w1) /\ c_docs (w_db w1) = c_docs (w_db w)) as [E1 K1].
  { clear H. destruct o as [v|]; [|by minv]. minv.
    destruct (pointed_alive _ _ _ I Hd (or_intror Po)) as [Hv Hs]. split.
    - eapply supersede_evolves; try done. apply I.
    - by apply (keeps_run c_docs) in R0; [|apply _]. }
  clear R. ops.
  apply new_id_inv in R0 as F0. apply new_id_inv in R6 as F6.
  apply add_version_inv in R3 as [F3 N3]. apply add_job_inv in R8 as [F8 N8].
  cbn [w_db set_w_tick set_w_db] in F0, F3, N3, F6, F8, N8.
  rewrite F0 in F3, N3. rewrite F3 in F6. rewrite F6 in F8, N8. rewrite Edb, F8.
  apply evolves_kb, evolves_job_new; [|done].
  eapply evolves_doc; [apply evolves_version_new; [eapply evolves_doc; [done|simpl; by rewrite K1|by le]|done]| |].
  - simpl. apply lookup_insert_eq.
  - by le.
Qed.

Lemma reserve_upload_evolves q w r w' :
  catalog_inv (w_db w) -> reserve_upload env q w = (Ret r, w') -> evolves (w_db w) (w_db w').
Proof.
  intros I H. unfold reserve_upload in H. apply bind_inv in H as (i & w1 & R & H).
  unfold upload_inputs in R. cinv. apply retried_inv in H as (w0 & E & H & _). rewrite <- E in *. clear E.
  unfold reserve_upload_body in H.
  apply bind_inv in H as (k & w2 & R & H). apply knowledge_base_inv in R as [-> Hk].
  apply bind_inv in H as (now & w2 & [-> ->]%utcnow_inv & H).
  apply bind_inv in H as (d & w2 & R & H).
  assert (evolves (w_db w0) (w_db w2)) as E0.
  { revert R. clear H. unfold document_for_upload. intros R. apply bind_inv in R as (o & w3 & R1 & R).
    apply document_inv in R1 as [-> _]. destruct o as [d0|]; [by minv|]. ops.
    repeat match goal with
    | R : add_doc _ _ = _ |- _ => apply add_doc_inv in R as [F2 N2]
    | R : _new_id _ _ = _ |- _ => apply new_id_inv in R as F0; clear R
    end.
    cbn [w_db set_w_tick] in *. rewrite F0 in F2, N2. rewrite F2. by apply evolves_doc_new. }
  eapply document_for_upload_safe in R as [I1 Hd]; [|done|done]. etrans; [exact E0|].
  minv_step. minv_step. cbv zeta in H.
  destruct (matching_by_id _ (doc_current_version_id d)) as [v|] eqn:Ec.
  { destruct (matching_by_id_inv _ _ _ _ _ _ (inv_tables _ I1) Ec) as [Hv _].
    apply reserve_current_safe in H as ->; done. }
  destruct (matching_by_id _ (doc_pending_version_id d)) as [v|];
    [cbn [mbind option_bind] in H; destruct (_job_for_version _ _) as [j|]; [destruct (joinable d v j)|]|].
  - by ops.
  - minv_step. minv_step. by apply reserve_candidate_evolves in H.
  - minv_step. minv_step. by apply reserve_candidate_evolves in H.
  - minv_step. minv_step. by apply reserve_candidate_evolves in H.
Qed.
Lemma retire_live_evolves name rid d cur pend w r w' :
  catalog_inv (w_db w) -> c_docs (w_db w) !! doc_id d = Some d ->
  pointed (w_db w) d (doc_current_version_id d) cur -> pointed (w_db w) d (doc_pending_version_id d) pend ->
  retire_live env name rid d cur pend w = (Ret r, w') -> evolves (w_db w) (w_db w').
Proof.
  intros I Hd Hc Hp H. unfold retire_live in H.
  apply bind_inv in H as (k & w0 & Rk & H). apply knowledge_base_inv in Rk as [-> _].
  apply bind_inv in H as (now & w1 & Rn & H). apply database_now_inv in Rn as Edb. rewrite <- Edb in *.
  destruct (retire_pointers_apart _ _ _ _ I Hd Hc Hp) as [Na _].
  apply bind_inv in H as (cur' & w2 & Rc & H).
  assert (evolves (w_db w1) (w_db w2) /\ c_docs (w_db w2) = c_docs (w_db w1) /\ tables_ok (w_db w2) /\
    forall v, pend = Some v -> c_versions (w_db w2) !! dv_id v = c_versions (w_db w1) !! dv_id v)
    as (E2 & K2 & T2 & F2).
  { clear H. destruct cur as [v|]; minv; [|split_and!; try done; apply I].
    destruct (pointed_alive _ _ _ I Hd (or_introl Hc)) as [Hv Hs].
    destruct (supersede_frame _ _ _ _ _ _ _ (inv_tables _ I) Hv R) as [T F]. split_and!; try done.
    - eapply supersede_evolves; try done. apply I.
    - by apply (keeps_run c_docs _ _ _ _ _ R).
    - intros x Hx. apply F. by apply Na. }
  apply bind_inv in H as (pend' & w3 & Rp & H).
  assert (evolves (w_db w1) (w_db w3) /\ c_docs (w_db w3) = c_docs (w_db w1)) as [E3 K3].
  { clear H Rc. destruct pend as [v|]; [|by minv].
    destruct (pointed_alive _ _ _ I Hd (or_intror Hp)) as [Hv Hs].
    destruct (match cur with Some c => _ | None => _ end) in Rp; minv; [|done]. split.
    - eapply supersede_evolves; try done. by rewrite F2.
    - by rewrite (keeps_run c_docs _ _ _ _ _ R). }
  clear Rc Rp. ops. bool_to_prop.
  apply update_document_inv in R as (d0 & Hd0 & _ & E4); [|done].
  rewrite K3, Hd in Hd0. injection Hd0 as <-.
  match goal with R : _upsert_retirement_job _ _ _ _ _ _ _ = _ |- _ =>
    eapply evolves_core; [exact (keeps_run core _ _ _ _ _ R)|] end.
  rewrite Edb1, E4. apply evolves_kb. eapply evolves_doc; [done|simpl; by rewrite K3|by le].
Qed.

Lemma hasten_cleanup_evolves now v w v' w' :
  c_versions (w_db w) !! dv_id v = Some v -> hasten_cleanup now v w = (Ret v', w') ->
  evolves (w_db w) (w_db w') /\
  forall u, u <> dv_id v -> c_versions (w_db w') !! u = c_versions (w_db w) !! u.
Proof.
  intros Hv H. unfold hasten_cleanup, save_version, save_cleanup in H.
  apply bind_inv in H as (db & w1 & [-> ->]%get_db_inv & H). cbv zeta in H.
  apply bind_inv in H as (u & w1 & R & H).
  assert (core (w_db w1) = core (w_db w)) as K.
  { clear H. destruct (cleanup_for_version _ _); minv; try done. by apply (keeps_run core _ _ _ _ _ R). }
  assert (c_versions (w_db w1) = c_versions (w_db w)) as Kv by (unfold core in K; congruence).
  assert (evolves (w_db w) (w_db w1)) as E1 by by eapply evolves_core.
  clear R. destruct (_ && _); minv.
  - split; [eapply evolves_version; [done|simpl; by rewrite Kv|by le]|].
    intros x Hx. simpl. by rewrite lookup_insert_ne, Kv.
  - split; [done|]. intros x Hx. by rewrite Kv.
Qed.

Lemma hasten_all_evolves now vs : forall w r w',
  NoDup (dv_id <$> vs) -> (forall v, v ∈ vs -> c_versions (w_db w) !! dv_id v = Some v) ->
  hasten_all now vs w = (Ret r, w') -> evolves (w_db w) (w_db w').
Proof.
  induction vs as [|v vs IH]; intros w r w' N Hvs H; simpl in H; minv; [done|].
  change (NoDup (dv_id v :: (dv_id <$> vs))) in N. apply NoDup_cons in N as [N1 N2].
  apply hasten_cleanup_evolves in R as [E1 F1]; [|apply Hvs; constructor].
  etrans; [exact E1|]. eapply IH; [done| |done]. intros x Hx.
  rewrite F1; [apply Hvs; by constructor|]. intros E. apply N1. rewrite <- E. by apply list_elem_of_fmap_2.
Qed.

Lemma retire_evolves t n k rid w r w' :
  catalog_inv (w_db w) -> retire env t n k rid w = (Ret r, w') -> evolves (w_db w) (w_db w').
Proof.
  intros I H. unfold retire in H.
  apply bind_inv in H as (name & w0 & R & H). apply required_text_inv in R as ->.
  apply transaction_inv in H as [H _]. apply bind_inv in H as (o & w1 & R & H).
  apply document_inv in R as [-> Ho]. destruct o as [d|]; [|by minv].
  destruct (Ho d eq_refl) as (i & Hd & _).
  assert (doc_id d = i) as <- by apply (tk_doc _ (inv_tables _ I) _ _ Hd).
  apply bind_inv in H as (cur & w1 & R & H). apply version_by_pointer_inv in R as [-> Pc].
  apply bind_inv in H as (pend & w1 & R & H). apply version_by_pointer_inv in R as [-> Pp].
  case_bool_decide; [|by eapply retire_live_evolves].
  ops. destruct (uncleaned_versions_ok _ (doc_id d) I) as [N1 N2].
  match goal with R : _upsert_retirement_job _ _ _ _ _ _ _ = _ |- _ =>
    eapply evolves_core; [exact (keeps_run core _ _ _ _ _ R)|] end.
  rewrite <- Edb in *.
  match goal with R : hasten_all _ _ _ = _ |- _ => apply hasten_all_evolves in R; try done end.
  intros v Hv. by apply N2.
Qed.
(** *** Cleanup *)

Lemma cleanup_rows_evolve db c v d c' v' :
  cleanup_at db c v d -> version_le v v' -> evolves db (put_version v' (put_cleanup c' db)).
Proof.
  intros A L. eapply evolves_version; [by apply evolves_cleanup| |done].
  rewrite (proj1 L). apply A.
Qed.

Lemma claim_cleanup_loop_evolves fuel locked wk ls clock w r w' :
  catalog_inv (w_db w) -> claim_cleanup_loop fuel locked wk ls clock w = (Ret r, w') ->
  evolves (w_db w) (w_db w').
Proof.
  revert w. induction fuel as [|fuel IH]; intros w I H; simpl in H; [done|].
  apply bind_inv in H as (db & w1 & [-> ->]%get_db_inv & H).
  destruct (ready_cleanup _ _ _) as [[[[c v] d] k]|] eqn:Eg; [|by minv].
  apply head_filter_inv in Eg as [Hin Hr]. apply (visible_cleanup_inv _ _ _ _ _ _ I) in Hin as [A _].
  apply andb_true_iff in Hr as [Hr _]. apply bind_inv in H as (b & w2 & Hs & H).
  assert (evolves (w_db w) (w_db w2)) as E1.
  { clear H. unfold claim_cleanup_step in Hs. ops; [by eapply cleanup_rows_evolve; [|le]|].
    by apply evolves_cleanup. }
  apply (claim_cleanup_step_safe _ _ _ _ _ _ _ _ _ _ I A Hr) in Hs.
  destruct b; [by minv|]. etrans; [done|]. eauto.
Qed.

Lemma record_cleanup_evolves vid code w r w' :
  catalog_inv (w_db w) -> record_cleanup env vid code w = (Ret r, w') -> evolves (w_db w) (w_db w').
Proof.
  intros I H. unfold record_cleanup in H. apply transaction_inv in H as [H _].
  apply bind_inv in H as (db & w1 & [-> ->]%get_db_inv & H).
  apply bind_inv in H as ([[v d] k] & w1 & [Q ->]%require_inv & H). cbn beta iota in H.
  apply bind_Some in Q as (v0 & Hv & Q). apply bind_Some in Q as (d0 & Hd & Q).
  apply bind_Some in Q as (k0 & Hk & Q). injection Q as -> -> ->.
  destruct (tk_version _ (inv_tables _ I) _ _ Hv) as [Ev _]. simpl in Ev. subst vid.
  apply bind_inv in H as (u1 & w1 & [G ->]%raise_if_inv & H).
  apply bind_inv in H as (u2 & w1 & [_ ->]%raise_if_inv & H). apply negb_false_iff in G.
  apply bind_inv in H as (now & w1 & R%database_now_inv & H).
  destruct (cleanup_of_version _ _ _ I Hv G Hd) as (c & Ec & A). rewrite Ec in H. cbv zeta in H.
  rewrite <- R in *. unfold record_cleanup_result in H.
  ops; [done|..]; rewrite Edb; apply evolves_kb; eapply cleanup_rows_evolve; try done;
    [case_bool_decide|]; by le.
Qed.

Lemma call_evolves c w u w' :
  catalog_inv (w_db w) -> call env c w = (Ret u, w') -> evolves (w_db w) (w_db w').
Proof.
  intros I H. destruct c; apply ignored_inv in H as (a & H); revert H;
    [ | apply reserve_upload_evolves | apply record_manifest_evolves
    | apply publish_evolves | apply fail_evolves | apply update_job_evolves | apply claim_index_job_evolves
    | apply heartbeat_index_job_evolves | apply schedule_index_retry_evolves
    | apply dead_letter_index_job_evolves | apply retire_evolves |..]; try done; intros H.
  - unfold ensure_knowledge_base in H. cinv. apply retried_inv in H as (w0 & E & H & _).
    rewrite <- E. clear E I. unfold add_kb in H. ops; try done.
    all: try (match goal with R : _new_id _ _ = _ |- _ => apply new_id_inv in R; rewrite R end).
    all: by apply evolves_kb.
  - unfold claim_cleanup_job in H. ops. all: try (rewrite <- Edb in *).
    all: try (by eapply claim_cleanup_loop_evolves). all: by apply evolves_cleanup.
  - unfold heartbeat_cleanup_job in H. ops. rewrite <- Edb. by apply evolves_cleanup.
  - unfold update_cleanup_job in H. ops. rewrite <- Edb. by apply evolves_cleanup.
  - unfold schedule_cleanup_retry, _dead_letter_cleanup_locked in H. ops; rewrite <- Edb in *;
      destruct (cleanup_at_intro _ _ _ _ _ I Hc Hv Hd) as [A _]; by eapply cleanup_rows_evolve; [|le].
  - unfold dead_letter_cleanup_job, _dead_letter_cleanup_locked in H. ops. rewrite <- Edb in *.
    destruct (cleanup_at_intro _ _ _ _ _ I Hc Hv Hd) as [A _]. by eapply cleanup_rows_evolve; [|le].
  - unfold complete_cleanup_job in H. ops. rewrite Edb0. apply evolves_kb. rewrite <- Edb in *.
    destruct (cleanup_at_intro _ _ _ _ _ I Hc Hv Hd) as [A _].
    apply evolves_cleanup. eapply evolves_version; [done|apply A|by le].
  - unfold requeue_cleanup_job in H. ops. rewrite <- Edb in *.
    match goal with R : requeue_count _ _ _ = _ |- _ => apply requeue_count_inv in R; subst end.
    destruct (cleanup_at_intro _ _ _ _ _ I Hc Hv Hd) as [A _].
    cbn [w_db set_w_db]. by eapply cleanup_rows_evolve; [|le].
  - by eapply record_cleanup_evolves.
  - unfold record_retirement_error in H. ops. rewrite <- Edb. by apply evolves_retirement.
  - unfold record_worker_heartbeat in H. ops; rewrite <- Edb; by apply evolves_worker.
Qed.

Lemma step_evolves db db' : catalog_inv db -> catalog_step env db db' -> evolves db db'.
Proof.
  intros I S. revert I. destruct S as [c w [u|e] w' H]; intros I; [by eapply call_evolves|].
  by rewrite (call_atomic env c w e w' H).
Qed.

Lemma steps_forward db db' :
  catalog_inv db -> rtc (catalog_step env) db db' -> catalog_inv db' /\ evolves db db'.
Proof.
  intros I S. induction S as [db|x y z Hxy _ IH]; [done|].
  assert (evolves x y) as E1 by by eapply step_evolves.
  destruct IH as [Iz E2]; [by eapply step_safe|]. split; [done|]. by etrans.
Qed.
End evolve.
