(* ===== verification/CatalogProps.v ===== *)
(** * Properties of the document catalogue

    What the catalogue promises to its workers, to uploaders and to retrieval, in
    every reachable state. *)

From S2P Require Import Prelude PyBase Errors Session CatalogSchema Catalog CatalogJobs CatalogCleanup CatalogInv CatalogSteps CatalogSafety CatalogPreserve CatalogPreserve2 CatalogSystem CatalogClaim CatalogEvolve.

Open Scope Z_scope.

Section props.
Context (env : CatalogEnv).

(** ** Shape of the tables and life of a version *)

(** C10. In every reachable catalogue each row is stored under its primary key and
    every unique index holds; each reference from one catalogue table to another names a
    row that exists: of documents to their knowledge base, of versions and retirements to
    their document, of index jobs, cleanup jobs and manifests to their version, and the
    current and pending pointers of a document name versions of that document. Every
    version has exactly one index job and at most one cleanup job. The owner columns
    refer to the user table, which is not part of the catalogue. *)
Theorem catalogue_references_resolve db :
  catalog_reachable env db -> tables_ok db /\ catalog_schema_ok db /\
  (forall did d u, c_docs db !! did = Some d ->
     doc_current_version_id d = Some u \/ doc_pending_version_id d = Some u ->
     exists v, c_versions db !! u = Some v /\ dv_document_id v = did) /\
  (forall u v, c_versions db !! u = Some v ->
     exists i j, c_jobs db !! i = Some j /\ ij_document_version_id j = u /\
       forall i' j', c_jobs db !! i' = Some j' -> ij_document_version_id j' = u -> i' = i).
Proof.
  intros R. pose proof (catalog_reachable_inv env db R) as I.
  split_and!; [apply I|by eapply reachable_schema| |].
  - intros did d u Hd Hu. destruct (inv_docs _ I _ _ Hd) as (P1 & P2 & _).
    destruct Hu as [Hu|Hu]; [destruct (P1 _ Hu) as (v & ? & ? & _)|destruct (P2 _ Hu) as (v & ? & ? & _)]; by exists v.
  - intros u v Hv. destruct (version_graph _ _ _ I Hv) as (j & d & G & <-).
    exists (ij_id j), j. split_and!; [apply G..|]. intros i' j' Hj' Ej'.
    apply (tk_job_unique _ (inv_tables _ I) _ _ j' j Hj'); [apply G|]. rewrite Ej'. symmetry. apply G.
Qed.

(** C6. In every reachable catalogue each version is in one phase of its life:
    the candidate its document is building, with a live job under the fence of the
    document; the published version its document shows, with a completed job and
    exactly the manifest it counted; or dead, named by no pointer, its job ended
    and a cleanup job waiting for it. The pointers of each document name versions
    of that document in the right phase. *)
Theorem versions_live_in_phases db u v :
  catalog_reachable env db -> c_versions db !! u = Some v ->
  exists d j, c_docs db !! dv_document_id v = Some d /\ job_in (c_jobs db) u = Some j /\
    phase_ok d u (cell_at db v (Some j)) /\ fence_ok d (cell_at db v (Some j)) /\
    doc_ok db (dv_document_id v).
Proof.
  intros R Hv. pose proof (catalog_reachable_inv env db R) as I.
  destruct (version_graph _ _ _ I Hv) as (j & d & G & <-).
  destruct (graph_cell _ _ _ _ I G) as [P F]. exists d, j.
  split_and!; [rewrite (ga_doc_ref _ _ _ _ G); apply G|by apply (graph_job_in _ _ _ _ (inv_tables _ I) G)|done..|].
  apply I.
Qed.

(** C7. Cleanup never threatens data in use: the version of any cleanup job of a
    reachable catalogue is failed or superseded and no pointer of its document
    names it; and no dead version is forgotten, it has a cleanup job, completed
    exactly when the version is marked as cleaned. *)
Theorem cleanup_targets_dead_versions db :
  catalog_reachable env db ->
  (forall i c, c_cleanups db !! i = Some c -> exists v d,
     c_versions db !! cj_document_version_id c = Some v /\ c_docs db !! dv_document_id v = Some d /\
     safe_scope v d = true) /\
  (forall u v, c_versions db !! u = Some v -> dead_status (dv_status v) = true -> exists c,
     cleanup_for_version db u = Some c /\ (is_Some (dv_index_cleaned_at v) <-> cj_status c = C_COMPLETED)).
Proof.
  intros R. pose proof (catalog_reachable_inv env db R) as I. pose proof (inv_tables _ I) as T. split.
  - intros i c Hc. destruct (tk_cleanup_version _ T _ _ Hc) as [v Hv]. simpl in Hv.
    destruct (tk_version_doc _ T _ _ Hv) as [d Hd]. simpl in Hd. exists v, d. split_and!; try done.
    destruct (cleanup_at_intro _ _ _ _ _ I Hc Hv Hd) as [A _]. by eapply cleanup_safe_scope.
  - intros u v Hv Hs. destruct (tk_version_doc _ T _ _ Hv) as [d Hd]. simpl in Hd.
    destruct (tk_version _ T _ _ Hv) as [E _]. simpl in E. subst u.
    destruct (cleanup_of_version _ _ _ I Hv Hs Hd) as (c & Ec & A). exists c. split; [done|]. apply A.
Qed.

(** Along any history of calls no document, version or index job disappears
    or changes its identity, the fences of documents and jobs only grow, a version
    that has failed or was superseded and a job that has ended keep that status,
    and a published version can only be superseded. *)
Theorem history_moves_forward db db' :
  catalog_reachable env db -> rtc (catalog_step env) db db' -> evolves db db'.
Proof.
  intros R S. by destruct (steps_forward env db db' (catalog_reachable_inv env db R) S).
Qed.

(** ** Claims *)

(** The loops of [claim_index_job] and [claim_cleanup_job], which drop exhausted
    jobs until they find one to hand out, end in every reachable catalogue: with
    one turn per job neither runs out of turns. *)
Theorem claim_loops_terminate locked wid ls fp now w w' :
  catalog_reachable env (w_db w) ->
  claim_index_job env locked wid ls fp now w <> (Raise EFuel, w') /\
  claim_cleanup_job env locked wid ls now w <> (Raise EFuel, w').
Proof.
  intros R. pose proof (catalog_reachable_inv env _ R) as I.
  split; [by apply claim_index_job_ends|by apply claim_cleanup_job_ends].
Qed.

(** A claim takes a job from nobody: the job handed out was free - without an
    owner, or with an expired lease - and gets the next execution fence, or was
    already the claiming worker's own under a live lease; either way the worker
    owns it afterwards under a lease that starts at the clock of the claim. *)
Theorem index_claim_is_exclusive locked wid ls fp now w b w' :
  catalog_reachable env (w_db w) -> claim_index_job env locked wid ls fp now w = (Ret (Some b), w') ->
  exists wk j j', _required_text env wid "worker_id"%py 128 w = (Ret wk, w) /\
    c_jobs (w_db w) !! ij_id j = Some j /\ c_jobs (w_db w') !! ij_id j = Some j' /\
    (unowned j (claim_clock w now) = true /\ ij_execution_fence j' = ij_execution_fence j + 1 \/
     ij_owner_worker_id j = Some wk /\ unowned j (claim_clock w now) = false /\
       ij_execution_fence j' = ij_execution_fence j) /\
    jr_id (vb_job b) = ij_id j /\ jr_execution_fence (vb_job b) = ij_execution_fence j' /\
    ij_owner_worker_id j' = Some wk /\
    ij_lease_expires_at j' = Some (claim_clock w now + seconds ls).
Proof.
  intros R H. apply claim_index_job_result in H as (wk & j & j' & d & Hw & Hj & _ & Ho & Eb & Hj');
    [|by eapply catalog_reachable_inv].
  exists wk, j, j'. split_and!; try done; rewrite ?Eb.
  - destruct Ho as [[Ho ->]|(Hr & _ & ->)]; [right|left].
    + unfold job_owned_by, unowned in *. bool_cases; split_and!; try done;
        rewrite bool_decide_eq_false_2 by congruence; done.
    + split; [|done]. unfold job_ready in Hr. destruct (ij_status j); bool_to_prop; done.
  - by destruct Ho as [[_ ->]|(_ & _ & ->)].
  - done.
  - destruct Ho as [[Ho ->]|(_ & _ & ->)]; [|done]. unfold job_owned_by in Ho. by bool_cases.
  - by destruct Ho as [[_ ->]|(_ & _ & ->)].
Qed.
End props.
