(* ===== verification/CatalogPublish.v ===== *)
(** * Fencing and publication in the document catalogue

    A worker that lost its job cannot act on it, a publication switches the
    current version at once and can be repeated, and what was being built for a
    document that is deleted is never published. *)

From S2P Require Import Prelude PyBase Errors Session CatalogSchema Catalog CatalogJobs CatalogCleanup CatalogInv CatalogSteps CatalogSafety CatalogPreserve CatalogPreserve2 CatalogSystem CatalogClaim CatalogEvolve.

Open Scope Z_scope.

(** ** Calls of a worker *)

(** The calls a worker makes on a job under an execution token. *)
Inductive worker_call (jid : pystr) (e : IndexJobExecution) : CatalogCall -> Prop :=
  | wc_manifest f es nv np : worker_call jid e (CRecordManifest jid f es nv np (Some e))
  | wc_publish f x : worker_call jid e (CPublish jid f x (Some e))
  | wc_fail f code detail : worker_call jid e (CFail jid f code detail (Some e))
  | wc_update f u : worker_call jid e (CUpdateJob jid f u (Some e))
  | wc_heartbeat ls : worker_call jid e (CHeartbeatIndex jid e ls None)
  | wc_retry delay code detail : worker_call jid e (CRetryIndex jid e delay code detail None)
  | wc_dead_letter code detail : worker_call jid e (CDeadLetterIndex jid e code detail).

(** The token no longer matches the row at an instant. *)
Definition stale (j : IndexJob) (e : IndexJobExecution) (t : datetime) : bool :=
  negb (bool_decide (ij_owner_worker_id j = Some (ix_worker_id e)))
  || negb (ij_execution_fence j =? ix_execution_fence e)
  || lease_expired (ij_lease_expires_at j) t.

Lemma stale_absurd j e t :
  stale j e t = true ->
  (Some e = None /\ ij_owner_worker_id j = None \/
   exists x l, Some e = Some x /\ ij_owner_worker_id j = Some (ix_worker_id x) /\
     ij_execution_fence j = ix_execution_fence x /\ ij_lease_expires_at j = Some l /\ t < l) -> False.
Proof.
  intros S [[? _]|(x & l & Ex & O & F & L & Hl)]; [done|].
  injection Ex as <-. unfold stale, lease_expired in S. rewrite O, F, L, Z.eqb_refl in S.
  rewrite bool_decide_eq_true_2 in S by done. simpl in S. bool_to_prop. lia.
Qed.

Lemma database_now_run w t w' : _database_now w = (Ret t, w') -> t = w_clock w (w_tick w).
Proof. unfold _database_now. by intros [-> _]%utcnow_inv. Qed.
Lemma lease_clock_now w t w' : _lease_clock None w = (Ret t, w') -> t = w_clock w (w_tick w).
Proof. apply database_now_run. Qed.

(** Follow a run to the check of the token. *)
Ltac to_check S Hj Nc :=
  repeat (first
    [ match goal with
      | R : Some _ = None /\ _ \/ _ |- _ => exfalso; exact (stale_absurd _ _ _ S R)
      | R : _job_graph _ None _ = (Ret (_, _, _, _), _) |- _ =>
          let H := fresh in apply job_graph_inv in R as (? & H & _); subst; rewrite Hj in H;
          injection H as <-
      | R : _database_now _ = (Ret _, _) |- _ =>
          pose proof (database_now_run _ _ _ R); apply database_now_inv in R; subst
      | R : _lease_clock None _ = (Ret _, _) |- _ =>
          pose proof (lease_clock_now _ _ _ R); apply lease_clock_inv in R; subst
      end
    | cinv_step | minv_step ];
    cbn [w_db w_clock w_tick w_uuid w_uuid_next set_w_db set_w_tick set_w_uuid_next] in *); reads.

Section publish.
Context (env : CatalogEnv).

Lemma stale_call_fails c jid e j w u w' :
  worker_call jid e c -> c_jobs (w_db w) !! jid = Some j -> ij_status j <> J_COMPLETED ->
  stale j e (w_clock w (w_tick w)) = true -> call env c w = (Ret u, w') -> False.
Proof.
  intros Hc Hj Nc S H. destruct Hc; apply ignored_inv in H as (a & H).
  - unfold record_manifest in H. apply bind_inv in H as (l & w1 & ->%normalized_manifest_inv & H).
    to_check S Hj Nc.
  - unfold publish in H. to_check S Hj Nc. bool_to_prop. done.
  - unfold fail, _fail_locked in H. to_check S Hj Nc. bool_to_prop. done.
  - unfold update_job in H.
    apply bind_inv in H as (target & w1 & R & H). assert (w1 = w) as -> by by minv. clear R.
    apply bind_inv in H as (u1 & w1 & [_ ->]%raise_if_inv & H).
    apply bind_inv in H as (step & w1 & R & H). assert (w1 = w) as -> by by ops. clear R.
    to_check S Hj Nc.
  - unfold heartbeat_index_job in H. to_check S Hj Nc.
  - unfold schedule_index_retry in H. to_check S Hj Nc.
  - unfold dead_letter_index_job in H. to_check S Hj Nc.
Qed.

(** A worker that lost a job - another worker owns it, it was claimed again
    under a newer fence, or the lease has run out - cannot act on it: recording
    the manifest, publishing, failing, reporting progress, extending the lease,
    scheduling a retry and giving up all raise, and the catalogue stays as it
    was. (A job already published is complete and publishing it again is a no-op.) *)
Theorem stale_worker_is_rejected c jid e j w :
  worker_call jid e c -> c_jobs (w_db w) !! jid = Some j -> ij_status j <> J_COMPLETED ->
  stale j e (w_clock w (w_tick w)) = true ->
  exists x w', call env c w = (Raise x, w') /\ w_db w' = w_db w.
Proof.
  intros Hc Hj Nc S. destruct (call env c w) as [[u|x] w'] eqn:E.
  - by destruct (stale_call_fails c jid e j w u w').
  - exists x, w'. split; [done|]. exact (call_atomic env c w x w' E).
Qed.
(** ** Reading a document cannot fail *)

Lemma pointed_version_own db d p ok v :
  pointer_ok db (doc_id d) p ok -> pointed_version db p = Some v -> dv_document_id v = doc_id d.
Proof.
  intros P H. unfold pointed_version in H. destruct p as [u|]; [|done]. simpl in H.
  destruct (P u eq_refl) as (y & Hy & E & _). destruct (py_nonempty u); [|done]. congruence.
Qed.

Lemma document_record_run d w :
  catalog_inv (w_db w) -> c_docs (w_db w) !! doc_id d = Some d ->
  exists r, document_record d w = (Ret r, w) /\
    (dr_id r = doc_id d /\ dr_tenant_id r = doc_tenant_id d /\ dr_deleted_at r = doc_deleted_at d) /\
    dr_current_version r = _version_record <$> pointed_version (w_db w) (doc_current_version_id d).
Proof.
  intros I Hd. destruct (inv_docs _ I _ _ Hd) as (P1 & P2 & _). unfold document_record.
  rewrite (bind_run _ _ _ _ _ (eq_refl : get_db w = (Ret (w_db w), w))). cbv zeta.
  rewrite (bind_run _ _ w tt w), (bind_run _ _ w tt w); [eexists; split_and!; reflexivity|..].
  - destruct (pointed_version _ (doc_pending_version_id d)) as [v|] eqn:E; [|done].
    by rewrite bool_decide_eq_false_2 by (by rewrite (pointed_version_own _ _ _ _ _ P2 E); tauto).
  - destruct (pointed_version _ (doc_current_version_id d)) as [v|] eqn:E; [|done].
    by rewrite bool_decide_eq_false_2 by (by rewrite (pointed_version_own _ _ _ _ _ P1 E); tauto).
Qed.
(** ** Publication *)

(** The rows of a published job. *)
Definition published_at (db : CatalogDb) (jid : pystr) (j : IndexJob) (v : DocumentVersion) (d : Document) : Prop :=
  c_jobs db !! jid = Some j /\ ij_status j = J_COMPLETED /\
  c_versions db !! ij_document_version_id j = Some v /\ dv_status v = V_READY /\
  c_docs db !! dv_document_id v = Some d /\ doc_current_version_id d = Some (dv_id v).

Lemma published_rows db x j v d now :
  graph_at db j v d -> c_docs x = c_docs (put_doc (published_document (dv_id v) now d) db) ->
  published_at (put_job (completed_job now j) (put_version (published_version now v) x)) (ij_id j)
    (completed_job now j) (published_version now v) (published_document (dv_id v) now d).
Proof.
  intros G Ed. unfold published_at. cbn [c_jobs c_versions c_docs put_job put_version].
  split_and!; try done.
  - apply lookup_insert_eq.
  - cbn. rewrite (ga_ref _ _ _ _ G). apply lookup_insert_eq.
  - cbn. rewrite Ed. cbn. rewrite (ga_doc_ref _ _ _ _ G). apply lookup_insert_eq.
Qed.

Lemma publish_result jid f e x w r w' :
  catalog_inv (w_db w) -> publish jid f e x w = (Ret r, w') ->
  exists j v d, published_at (w_db w') jid j v d /\
    (pr_published r = false /\ w' = w \/
     pr_published r = true /\ exists d0, c_docs (w_db w) !! doc_id d = Some d0 /\
       doc_current_version_id d0 = e /\ doc_pending_version_id d0 = Some (dv_id v) /\
       doc_publication_fence d0 = f /\
       forall u, e = Some u -> exists vp, c_versions (w_db w') !! u = Some vp /\ dv_status vp = V_SUPERSEDED /\
         dv_cleanup_after vp = Some (w_clock w (w_tick w) + replacement_grace)).
Proof.
  intros I H. unfold publish in H. apply transaction_inv in H as [H _].
  apply bind_inv in H as ([[[j v] d] k] & w0 & R & H). apply job_graph_inv in R as (-> & Hj & Hv & Hd & Hk).
  cbn beta iota in H. destruct (graph_at_intro _ _ _ _ _ I Hj Hv Hd) as [Ga <-].
  destruct (_ && _ && _) eqn:B.
  { ops. exists j, v, d. split; [|by left]. bool_to_prop. split_and!; done. }
  apply bind_inv in H as (now & w0 & R & H). pose proof (database_now_run _ _ _ R) as ->.
  apply database_now_inv in R as Ew. clear R. set (now := w_clock w (w_tick w)) in *.
  ops; rewrite Edb;
    match goal with U : update_document _ _ _ _ = _ |- _ =>
      apply update_document_inv in U as (dx & Hdx & Hcond & Edx); [|by bool_to_prop] end;
    rewrite Ew in Hdx, Edx; rewrite (ga_doc _ _ _ _ Ga) in Hdx; injection Hdx as <-;
    match goal with V : _version_by_pointer _ _ _ = _ |- _ =>
      apply version_by_pointer_inv in V as [-> Hptr] end;
    pose proof (live_candidate _ _ _ _ I Ga Ht) as L.
  all: assert (doc_current_version_id d = e) as He by (by bool_to_prop).
  all: assert (forall y, c_docs y = c_docs (put_doc (published_document (dv_id v) now d) (w_db w)) ->
    (forall u, e = Some u -> exists vp, c_versions y !! u = Some vp /\ u <> dv_id v /\
       dv_status vp = V_SUPERSEDED /\ dv_cleanup_after vp = Some (now + replacement_grace)) ->
    exists j1 v1 d1, let y' := put_kb k0 (put_job (completed_job now j) (put_version (published_version now v) y)) in
      published_at y' (ij_id j) j1 v1 d1 /\ exists d0, c_docs (w_db w) !! doc_id d1 = Some d0 /\
        doc_current_version_id d0 = e /\ doc_pending_version_id d0 = Some (dv_id v1) /\
        doc_publication_fence d0 = ij_publication_fence j /\
        forall u, e = Some u -> exists vp, c_versions y' !! u = Some vp /\ dv_status vp = V_SUPERSEDED /\
         dv_cleanup_after vp = Some (now + replacement_grace)) as K.
  1,3,5: intros y Ed Hold; exists (completed_job now j), (published_version now v),
    (published_document (dv_id v) now d); split; [exact (published_rows _ y j v d now Ga Ed)|];
    exists d; split_and!; try done; [apply Ga|];
    intros u Hu; destruct (Hold u Hu) as (vp & Hvp & N & R1 & R2); exists vp; split_and!; try done;
    cbn; by rewrite lookup_insert_ne.
  - destruct Hptr as [[? _]|(u & vp & -> & Evp & Hvp & _)]; [done|]. injection Evp as <-.
    assert (tables_ok (w_db w5)) as T5 by (rewrite Edx; apply tables_put_doc; [apply I|apply Ga]).
    destruct (tk_version _ T5 _ _ Hvp) as [Eu Hn]. simpl in Eu, Hn. subst u. bool_to_prop.
    pose proof (keeps_run c_docs _ _ _ _ _ R) as Kd.
    apply supersede_inv in R as (-> & c & E8 & _); try done; [|apply (tk_version_doc _ T5 _ _ Hvp)].
    destruct (K (w_db w8)) as (j1 & v1 & d1 & Pa & Rest).
    + by rewrite Kd, Edx.
    + intros u [= <-]. exists (superseded_version now (now + replacement_grace) d0). split_and!; try done.
      rewrite E8. cbn. apply lookup_insert_eq.
    + exists j1, v1, d1. split; [exact Pa|]. right. split; [done|exact Rest].
  - exfalso. destruct Hptr as [[? _]|(u & vp & -> & Evp & Hvp & _)]; [done|]. injection Evp as <-.
    rewrite Edx in Hvp. destruct (tk_version _ (inv_tables _ I) _ _ Hvp) as [E _]. simpl in E.
    bool_to_prop. apply dec_stable in B1. apply (cd_current _ _ _ _ L). congruence.
  - destruct Hptr as [[_ Hs]|(u & vp & -> & Evp & _)]; [|done].
    destruct (inv_docs _ I _ _ (ga_doc _ _ _ _ Ga)) as (P1 & _ & _).
    assert (e = None) as ->.
    { eapply (pointer_set _ _ _ _ is_ready I); [apply Ga| |done]. by rewrite <- He. }
    destruct (K (w_db w5)) as (j1 & v1 & d1 & Pa & Rest); [by rewrite Edx|done|].
    exists j1, v1, d1. split; [exact Pa|]. right. split; [done|exact Rest].
Qed.

(** C8. A publication that succeeds leaves its job completed, its version ready
    and current in its document. When it made the switch, the document's current
    version was the one the caller expected, the candidate was its pending version
    under the caller's fence, and the version it replaced is superseded with its
    index data kept for the grace period. *)
Theorem publish_switches_current jid f e x w r w' :
  catalog_reachable env (w_db w) -> publish jid f e x w = (Ret r, w') ->
  exists j v d, published_at (w_db w') jid j v d /\
    (pr_published r = false /\ w' = w \/
     pr_published r = true /\ exists d0, c_docs (w_db w) !! doc_id d = Some d0 /\
       doc_current_version_id d0 = e /\ doc_pending_version_id d0 = Some (dv_id v) /\
       doc_publication_fence d0 = f /\
       forall u, e = Some u -> exists vp, c_versions (w_db w') !! u = Some vp /\ dv_status vp = V_SUPERSEDED /\
         dv_cleanup_after vp = Some (w_clock w (w_tick w) + replacement_grace)).
Proof. intros R. apply publish_result, (catalog_reachable_inv env _ R). Qed.

Lemma job_graph_run jid j w :
  catalog_inv (w_db w) -> c_jobs (w_db w) !! jid = Some j ->
  exists v d k, graph_at (w_db w) j v d /\ _job_graph jid None w = (Ret (j, v, d, k), w).
Proof.
  intros I Hj. pose proof (inv_tables _ I) as T.
  destruct (tk_job_version _ T _ _ Hj) as [v Hv]. destruct (tk_version_doc _ T _ _ Hv) as [d Hd].
  destruct (tk_doc_kb _ T _ _ Hd) as [k Hk]. simpl in *. exists v, d, k.
  split; [by apply (graph_at_intro _ jid)|]. unfold _job_graph.
  rewrite (bind_run _ _ _ _ _ (eq_refl : get_db w = (Ret (w_db w), w))). unfold graph_of.
  rewrite Hj. simpl. rewrite Hv. simpl. rewrite Hd. simpl. rewrite Hk. done.
Qed.

(** Publishing is idempotent: once a job is published, publishing it again in
    that catalogue - with any fence, any expected version and any token, as a
    worker that repeats the call after a lost reply does - succeeds, reports that
    nothing was published and leaves the catalogue unchanged. *)
Theorem publish_is_idempotent jid f e x w r w' f2 e2 x2 w2 :
  catalog_reachable env (w_db w) -> publish jid f e x w = (Ret r, w') -> w_db w2 = w_db w' ->
  exists r2 v, publish jid f2 e2 x2 w2 = (Ret r2, w2) /\ pr_published r2 = false /\
    pr_version r2 = _version_record v /\ c_versions (w_db w') !! dv_id v = Some v /\ dv_status v = V_READY.
Proof.
  intros R H E2. pose proof (catalog_reachable_inv env _ R) as I.
  assert (catalog_reachable env (w_db w')) as R'.
  { eapply reachable_step; [exact R|]. apply (catalog_step_call env (CPublish jid f e x) w (Ret tt) w').
    unfold call, ignored. by rewrite (bind_run _ _ _ _ _ H). }
  pose proof (catalog_reachable_inv env _ R') as I'. pose proof (reachable_schema env _ R') as S'.
  apply publish_result in H as (j & v & d & (Hj & Sj & Hv & Sv & Hd & Hc) & _); [|done].
  rewrite <- E2 in *. destruct (job_graph_run jid j w2 I' Hj) as (v' & d' & k & G & Eg).
  assert (v' = v) as -> by (pose proof (ga_version _ _ _ _ G) as X; rewrite <- (ga_ref _ _ _ _ G) in X; congruence).
  assert (d' = d) as -> by (pose proof (ga_doc _ _ _ _ G) as X; rewrite <- (ga_doc_ref _ _ _ _ G) in X; congruence).
  destruct (document_record_run d w2 I' (ga_doc _ _ _ _ G)) as (rec & Er & _).
  exists (mkPublicationResult rec (_version_record v) None false), v. split_and!; [|done|done|apply G|done].
  unfold publish. apply transaction_run; [|by apply catalog_constraints_spec].
  rewrite (bind_run _ _ _ _ _ Eg). cbn beta iota. rewrite !bool_decide_eq_true_2 by done. cbn [andb].
  rewrite (bind_run _ _ _ _ _ Er). reflexivity.
Qed.
(** ** Deletion *)

#[export] Instance keeps_docs_upsert rid d vs f now : Keeps c_docs (_upsert_retirement_job env rid d vs f now).
Proof. unfold _upsert_retirement_job. frame. Qed.
#[export] Instance keeps_docs_pointer d p : Keeps c_docs (_version_by_pointer d p).
Proof. unfold _version_by_pointer. frame. Qed.

Lemma retire_result t n k rid w r w' did :
  catalog_inv (w_db w) -> retire env t n k rid w = (Ret r, w') -> rr_document_id r = Some did ->
  exists d, c_docs (w_db w') !! did = Some d /\ is_Some (doc_deleted_at d).
Proof.
  intros I H Hr. unfold retire in H.
  apply bind_inv in H as (name & w0 & R & H). apply required_text_inv in R as ->.
  apply transaction_inv in H as [H _]. apply bind_inv in H as (o & w1 & R & H).
  apply document_inv in R as [-> Ho]. destruct o as [d|]; [|by minv].
  destruct (Ho d eq_refl) as (i & Hd & _).
  assert (doc_id d = i) as <- by apply (tk_doc _ (inv_tables _ I) _ _ Hd).
  apply bind_inv in H as (cur & w1 & R & H). apply version_by_pointer_inv in R as [-> Pc].
  apply bind_inv in H as (pend & w1 & R & H). apply version_by_pointer_inv in R as [-> Pp].
  case_bool_decide as Hdel.
  - ops. simpl in Hr. injection Hr as <-. exists d. split; [|done].
    match goal with R : _upsert_retirement_job _ _ _ _ _ _ _ = _ |- _ =>
      pose proof (keeps_run c_docs _ _ _ _ _ R) as -> end.
    destruct (uncleaned_versions_ok _ (doc_id d) I) as [N1 N2].
    match goal with R : hasten_all _ _ _ = _ |- _ => apply hasten_all_safe in R as [_ ->]; rewrite ?Edb; done end.
  - unfold retire_live in H. apply bind_inv in H as (kb & w0 & R & H).
    apply bind_inv in H as (now & w1 & R1 & H). apply bind_inv in H as (c' & w2 & R2 & H).
    apply bind_inv in H as (p' & w3 & R3 & H).
    assert (c_docs (w_db w3) = c_docs (w_db w)) as Kd.
    { apply (keeps_run c_docs) in R3; [|frame]. apply (keeps_run c_docs) in R2; [|frame].
      apply database_now_inv in R1. apply knowledge_base_inv in R as [-> _]. congruence. }
    clear R R1 R2 R3. ops. simpl in Hr. injection Hr as <-.
    match goal with R : _upsert_retirement_job _ _ _ _ _ _ _ = _ |- _ =>
      pose proof (keeps_run c_docs _ _ _ _ _ R) as -> end.
    apply update_document_inv in R as (d0 & Hd0 & _ & E4); [|by bool_to_prop].
    rewrite Kd, Hd in Hd0. injection Hd0 as <-.
    rewrite Edb, E4. exists (retired_document now (doc_publication_fence d) d). split; [|by eauto].
    cbn. apply lookup_insert_eq.
Qed.

(** The versions of a deleted document are all dead. *)
Lemma deleted_versions_dead db u v d :
  catalog_inv db -> c_versions db !! u = Some v -> c_docs db !! dv_document_id v = Some d ->
  is_Some (doc_deleted_at d) -> dead_status (dv_status v) = true.
Proof.
  intros I Hv Hd Hdel. destruct (inv_versions _ I _ _ (cell_of_version _ _ _ Hv)) as (d' & Hd' & P & _).
  simpl in Hd'. simplify_eq. destruct Hdel as [t Ht]. unfold phase_ok, live, published in P. simpl in P.
  destruct (dv_status v); try done; destruct_and? P; congruence.
Qed.

(** A job whose version has died cannot be published. *)
Lemma dead_publish_fails jid f e x j v w r w' :
  catalog_inv (w_db w) -> c_jobs (w_db w) !! jid = Some j ->
  c_versions (w_db w) !! ij_document_version_id j = Some v -> dead_status (dv_status v) = true ->
  publish jid f e x w = (Ret r, w') -> False.
Proof.
  intros I Hj Hv Hs H.
  assert (evolves (w_db w) (w_db w')) as E by by eapply publish_evolves.
  apply publish_result in H as (j' & v' & d & (Hj' & _ & Hv' & Sv' & _) & _); [|done].
  destruct (ev_jobs _ _ E _ _ Hj) as (j2 & Hj2 & Lj). rewrite Hj' in Hj2. injection Hj2 as <-.
  rewrite (proj1 (proj2 Lj)) in Hv'.
  destruct (ev_versions _ _ E _ _ Hv) as (v2 & Hv2 & Lv). rewrite Hv' in Hv2. injection Hv2 as <-.
  destruct Lv as (_ & _ & _ & _ & _ & _ & D & _). specialize (D Hs). rewrite <- D, Sv' in Hs. done.
Qed.

(** C9. What was being built for a document when it was deleted is never published,
    however late the worker comes back: after [retire], through any later calls -
    new uploads of the same name included - publishing any job the document had
    then raises, and the catalogue stays as it was. *)
Theorem deleted_document_build_never_published t n k rid w r w' did jid j v f e x w2 :
  catalog_reachable env (w_db w) -> retire env t n k rid w = (Ret r, w') -> rr_document_id r = Some did ->
  c_jobs (w_db w') !! jid = Some j -> c_versions (w_db w') !! ij_document_version_id j = Some v ->
  dv_document_id v = did -> rtc (catalog_step env) (w_db w') (w_db w2) ->
  exists ex w3, publish jid f e x w2 = (Raise ex, w3) /\ w_db w3 = w_db w2.
Proof.
  intros R H Hr Hj Hv Hd S. pose proof (catalog_reachable_inv env _ R) as I.
  assert (catalog_inv (w_db w')) as I' by by eapply retire_safe.
  destruct (retire_result _ _ _ _ _ _ _ _ I H Hr) as (d & Hdoc & Hdel). subst did.
  pose proof (deleted_versions_dead _ _ _ _ I' Hv Hdoc Hdel) as Hs. clear I H Hr R Hdoc Hdel.
  destruct (steps_forward env _ _ I' S) as [I2 E].
  destruct (ev_jobs _ _ E _ _ Hj) as (j2 & Hj2 & Lj). destruct (ev_versions _ _ E _ _ Hv) as (v2 & Hv2 & Lv).
  destruct (publish jid f e x w2) as [[q|ex] w3] eqn:Ep.
  - exfalso. eapply (dead_publish_fails jid f e x j2 v2); try done.
    + by rewrite (proj1 (proj2 Lj)).
    + destruct Lv as (_ & _ & _ & _ & _ & _ & D & _). by rewrite (D Hs).
  - exists ex, w3. split; [done|]. unfold publish in Ep. by eapply transaction_raise.
Qed.
End publish.
