(* ===== verification/CatalogServe.v ===== *)
(** * What the catalogue serves

    Retrieval and workers are served in every reachable catalogue: the current
    version of a document is readable and ready, and the first job that waits is
    handed out. *)

From S2P Require Import Prelude PyBase Errors Session CatalogSchema Catalog CatalogJobs CatalogCleanup CatalogInv CatalogSteps CatalogSafety CatalogPreserve CatalogPreserve2 CatalogSystem CatalogClaim CatalogEvolve CatalogPublish.

Open Scope Z_scope.

Section serve.
Context (env : CatalogEnv).

(** The version a current pointer names. *)
Lemma current_version db d u :
  catalog_inv db -> c_docs db !! doc_id d = Some d -> doc_current_version_id d = Some u ->
  exists v, c_versions db !! u = Some v /\ dv_id v = u /\ dv_status v = V_READY /\ doc_deleted_at d = None /\
    pointed_version db (Some u) = Some v /\
    manifest_count db u "vector"%py = dv_chunk_count v /\ 1 <= dv_chunk_count v /\
    manifest_count db u "parent"%py = dv_parent_chunk_count v.
Proof.
  intros I Hd Hc. pose proof (inv_tables _ I) as T. destruct (inv_docs _ I _ _ Hd) as (P1 & _ & P3).
  destruct (P1 _ Hc) as (v & Hv & Ev & Sv). unfold is_ready in Sv. bool_to_prop. exists v.
  destruct (tk_version _ T _ _ Hv) as [Ei Hn]. simpl in Ei, Hn. subst u.
  destruct (inv_versions _ I _ _ (cell_of_version _ _ _ Hv)) as (d' & Hd' & P & _). simpl in Hd'.
  rewrite Ev, Hd in Hd'. injection Hd' as <-. unfold phase_ok in P. simpl in P. rewrite Sv in P.
  destruct P as (_ & _ & Hdel & _ & _ & _ & M1 & M2 & M3). simpl in M1, M2, M3.
  unfold pointed_version. simpl. rewrite Hn. split_and!; try done. lia.
Qed.

(** The current version of a document is always served: when the name is
    found, [get_current] returns - nothing only if the document is deleted or has
    never been published, and otherwise the record of the document with its
    current version, which is ready and whose manifest rows are exactly those it
    counted. *)
Theorem current_version_is_served t n k w d :
  catalog_reachable env (w_db w) -> _document t n k w = (Ret (Some d), w) ->
  exists o, get_current t n k w = (Ret o, w) /\
    match o with
    | None => is_Some (doc_deleted_at d) \/ doc_current_version_id d = None
    | Some r => doc_deleted_at d = None /\ exists v, dr_current_version r = Some (_version_record v) /\
        doc_current_version_id d = Some (dv_id v) /\ c_versions (w_db w) !! dv_id v = Some v /\
        dv_status v = V_READY /\ manifest_count (w_db w) (dv_id v) "vector"%py = dv_chunk_count v
    end.
Proof.
  intros R E. pose proof (catalog_reachable_inv env _ R) as I.
  pose proof (document_inv _ _ _ _ _ _ E) as [_ Ho]. destruct (Ho d eq_refl) as (i & Hd & _). clear Ho.
  assert (doc_id d = i) as <- by apply (tk_doc _ (inv_tables _ I) _ _ Hd).
  unfold get_current. rewrite (bind_run _ _ _ _ _ E). cbn beta iota.
  destruct (doc_deleted_at d) as [t0|] eqn:Edel.
  { rewrite bool_decide_eq_true_2 by eauto. exists None. split; [done|]. eauto. }
  rewrite bool_decide_eq_false_2 by (by intros []). simpl.
  destruct (doc_current_version_id d) as [u|] eqn:Ec; [|exists None; split; [done|auto]].
  destruct (current_version _ _ _ I Hd Ec) as (v & Hv & <- & Sv & _ & Pv & M1 & _).
  simpl. destruct (tk_version _ (inv_tables _ I) _ _ Hv) as [_ Hn]. simpl in Hn. rewrite Hn. cbn [negb].
  destruct (document_record_run d w I Hd) as (r & Er & _ & Cr). rewrite Ec, Pv in Cr. simpl in Cr.
  exists (Some r). rewrite (bind_run _ _ _ _ _ Er), Cr. split.
  - rewrite bool_decide_eq_false_2; [done|]. intros N. by apply N.
  - split; [done|]. exists v. split_and!; done.
Qed.

Lemma document_records_run ds w :
  catalog_inv (w_db w) -> (forall d, d ∈ ds -> c_docs (w_db w) !! doc_id d = Some d) ->
  exists rs, _document_records ds w = (Ret rs, w) /\
    Forall2 (fun d r => document_record d w = (Ret r, w)) ds rs.
Proof.
  intros I. induction ds as [|d ds IH]; intros H; simpl; [by exists []; split; [|constructor]|].
  destruct (document_record_run d w I) as (r & Er & _); [apply H; constructor|].
  destruct IH as (rs & Ers & F); [intros; apply H; by constructor|].
  exists (r :: rs). rewrite (bind_run _ _ _ _ _ Er), (bind_run _ _ _ _ _ Ers). split; [done|]. by constructor.
Qed.

(** The documents a tenant retrieves from: those of its active knowledge bases. *)
Definition retrieved (db : CatalogDb) (t : pystr) (kb : option pystr) (d : Document) : Prop :=
  c_docs db !! doc_id d = Some d /\ doc_tenant_id d = t /\ doc_knowledge_base_id d ∈ active_kb_ids db t kb.

Lemma active_kb_selected db t i k : k ∈ active_kb_ids db t (Some i) -> k = i.
Proof.
  unfold active_kb_ids. intros (x & -> & (j & _ & H)%elem_of_rows_where)%list_elem_of_fmap.
  rewrite !andb_true_iff, !bool_decide_eq_true in H. tauto.
Qed.

Lemma snapshot_run t kb w :
  catalog_reachable env (w_db w) ->
  exists s ds, load_retrieval_snapshot env t kb w = (Ret s, w) /\
    (forall d, d ∈ ds <-> retrieved (w_db w) t kb d) /\
    Forall2 (fun d r => document_record d w = (Ret r, w)) ds (rs_documents s).
Proof.
  intros R. pose proof (catalog_reachable_inv env _ R) as I. pose proof (reachable_schema env _ R) as S.
  pose (p := fun d => bool_decide (doc_tenant_id d = t)
    && bool_decide (doc_knowledge_base_id d ∈ active_kb_ids (w_db w) t kb)
    && match kb with Some i => bool_decide (doc_knowledge_base_id d = i) | None => true end).
  pose (ds := order_by_keys (fun d => id_key (doc_id d)) (rows_where p (c_docs (w_db w)))).
  assert (forall d, d ∈ ds <-> retrieved (w_db w) t kb d) as Hds.
  { intros d. unfold ds, retrieved. rewrite order_by_keys_perm, elem_of_rows_where. unfold p.
    setoid_rewrite andb_true_iff. setoid_rewrite andb_true_iff. setoid_rewrite bool_decide_eq_true. split.
    - intros (i & Hi & [Ht Hk] & _). by rewrite (tk_doc _ (inv_tables _ I) _ _ Hi).
    - intros (Hd & Ht & Hk). exists (doc_id d). split_and!; try done. destruct kb as [i|]; [|done].
      apply bool_decide_eq_true. by eapply active_kb_selected. }
  destruct (document_records_run ds w I) as (rs & Ers & F); [intros; by apply Hds|].
  eexists _, ds. split_and!; [|done|].
  - unfold load_retrieval_snapshot. apply transaction_run; [|by apply catalog_constraints_spec].
    rewrite (bind_run _ _ _ _ _ (eq_refl : get_db w = (Ret (w_db w), w))). cbv zeta.
    rewrite (bind_run _ _ _ _ _ Ers). reflexivity.
  - exact F.
Qed.

(** The retrieval snapshot can always be taken, without touching the
    catalogue: it holds the documents of the tenant, and the current version of a
    document in it, where there is one, is ready and its document not deleted - so
    it is one of the versions the snapshot's fingerprint is computed from. *)
Theorem retrieval_snapshot_is_ready t kb w :
  catalog_reachable env (w_db w) ->
  exists s, load_retrieval_snapshot env t kb w = (Ret s, w) /\
    forall r, r ∈ rs_documents s -> dr_tenant_id r = t /\
      forall v, dr_current_version r = Some v -> live_record r = Some (r, v).
Proof.
  intros R. pose proof (catalog_reachable_inv env _ R) as I. destruct (snapshot_run t kb w R) as (s & ds & E & Hds & F).
  exists s. split; [done|]. intros r Hr. apply list_elem_of_lookup in Hr as (i & Hi).
  destruct (Forall2_lookup_r _ _ _ _ _ F Hi) as (d & Hd & Er). apply list_elem_of_lookup_2, Hds in Hd as (Hdoc & Ht & _).
  destruct (document_record_run d w I Hdoc) as (r' & Er' & (_ & Tr & Dr) & Cr).
  rewrite Er in Er'. injection Er' as <-. split; [congruence|]. intros v Hv.
  rewrite Hv in Cr. destruct (doc_current_version_id d) as [u|] eqn:Ec; [|done].
  destruct (current_version _ _ _ I Hdoc Ec) as (y & _ & _ & Sy & Hdel & Py & _). rewrite Py in Cr.
  injection Cr as ->. unfold live_record. rewrite Dr, Hdel, Hv. by rewrite bool_decide_eq_true_2.
Qed.
(** ** The constraints allow what a claim writes *)

Lemma schema_put_job db j j' :
  catalog_schema_ok db -> c_jobs db !! ij_id j' = Some j ->
  ij_document_version_id j' = ij_document_version_id j -> catalog_schema_ok (put_job j' db).
Proof.
  intros [] Hj E. constructor; simpl; try done. eapply unique_prop_update; [done..|left].
  unfold idx_job_version. by rewrite E.
Qed.

Lemma schema_put_version db v v' :
  catalog_schema_ok db -> c_versions db !! dv_id v' = Some v -> version_le v v' ->
  version_active (dv_status v') = version_active (dv_status v) -> catalog_schema_ok (put_version v' db).
Proof.
  intros [] Hv (_ & E1 & E2 & E3 & E4 & _) Ha. constructor; simpl; try done;
    eapply unique_prop_update; try done; left.
  - unfold idx_version_active. by rewrite E1, E2, E3, Ha.
  - unfold idx_version_number. by rewrite E1, E4.
Qed.

Lemma claim_step_run wk ls clock j v d k w :
  catalog_inv (w_db w) -> catalog_schema_ok (w_db w) -> graph_at (w_db w) j v d ->
  job_ready clock j = true -> attempts_exhausted j = false ->
  exists b w', claim_step wk ls clock (j, v, d, k) w = (Ret (Some b), w') /\
    vb_job b = _job_record (claimed_job wk clock ls j) d /\ store_ok (w_db w') = true.
Proof.
  intros I S G Hr Ha. pose proof (ready_not_terminal _ _ Hr) as Ht.
  pose proof (live_candidate _ _ _ _ I G Ht) as L. unfold claim_step.
  rewrite (live_candidate_owned _ _ _ _ L), Ha. cbn [negb]. cbv zeta. unfold save_job, save_version.
  set (j' := claimed_job wk clock ls j). set (v' := claimed_version clock j v).
  assert (version_le v v') as Lv.
  { unfold v', claimed_version. case_bool_decide; [done|]. apply version_le_candidate; try done. apply L. }
  set (w' := set_w_db (put_version v' (put_job j' (w_db w))) w).
  assert (store_ok (w_db w') = true) as C.
  { apply catalog_constraints_spec. eapply schema_put_version; [|simpl; rewrite (proj1 Lv); apply G|done|].
    - eapply schema_put_job; [done|apply G|done].
    - unfold v', claimed_version. case_bool_decide; [done|]. simpl.
      pose proof (cd_candidate _ _ _ _ L). unfold claimed_version_status.
      destruct (existsb _ _), (dv_status v); done. }
  assert (catalog_inv (w_db w')) as I' by by apply (inv_claimed (w_db w) wk ls clock j v d).
  destruct (document_record_run d w' I') as (r & Er & _); [apply G|].
  exists (mkVersionBuild (_job_record j' d) r (_version_record v')), w'. split; [|split; [done|exact C]].
  rewrite (bind_run _ _ w tt (set_w_db (put_job j' (w_db w)) w)) by done.
  rewrite (bind_run _ _ _ tt w') by done.
  rewrite (bind_run _ _ w' tt w') by (unfold flush; by rewrite C).
  unfold version_build. rewrite (bind_run _ _ w' (mkVersionBuild (_job_record j' d) r (_version_record v')) w');
    [done|]. by rewrite (bind_run _ _ _ _ _ Er).
Qed.

(** No waiting job is overlooked: when a worker that holds no job asks for one
    and the first job in line - staged before pending before waiting for a retry,
    then by age - has attempts left, the claim succeeds and hands out that job. *)
Theorem first_waiting_job_is_claimed locked wid ls now w wk j v d k :
  catalog_reachable env (w_db w) -> 1 <= ls ->
  _required_text env wid "worker_id"%py 128 w = (Ret wk, w) ->
  owned_graph (w_db w) None locked wk (claim_clock w now) = None ->
  ready_graph (w_db w) None locked (claim_clock w now) = Some (j, v, d, k) -> attempts_exhausted j = false ->
  exists b w', claim_index_job env locked wid ls None now w = (Ret (Some b), w') /\
    vb_job b = _job_record (claimed_job wk (claim_clock w now) ls j) d.
Proof.
  intros R Hl Hw Ho Hr Ha. pose proof (catalog_reachable_inv env _ R) as I. pose proof (reachable_schema env _ R) as S.
  destruct (lease_clock_run now w) as (w1 & El & E1).
  pose proof Hr as Hg. apply head_filter_inv in Hg as [Hin Hj].
  apply (visible_inv _ _ _ _ _ _ _ I) in Hin as [G _]. rewrite <- E1 in *.
  destruct (claim_step_run wk ls _ _ _ _ k w1 I S G Hj Ha) as (b & w' & Es & Eb & C).
  exists b, w'. split; [|done]. unfold claim_index_job.
  rewrite (bind_run _ _ _ _ _ Hw). cbn beta. rewrite (bind_run _ _ w None w) by done.
  rewrite (bind_run _ _ w tt w) by (unfold raise_if; by rewrite (proj2 (Z.ltb_ge ls 1)) by lia).
  apply transaction_run; [|done]. rewrite (bind_run _ _ _ _ _ El).
  rewrite (bind_run _ _ _ _ _ (eq_refl : get_db w1 = (Ret (w_db w1), w1))). rewrite Ho. cbn [claim_loop].
  rewrite (bind_run _ _ _ _ _ (eq_refl : get_db w1 = (Ret (w_db w1), w1))). rewrite Hr.
  by rewrite (bind_run _ _ _ _ _ Es).
Qed.
End serve.
