(* ===== verification/CatalogWitness.v ===== *)
(** * The theorems on the catalogue at a concrete catalogue *)

From S2P Require Import Prelude PyBase Errors Session CatalogSchema Catalog CatalogJobs CatalogCleanup CatalogInv CatalogSteps CatalogSafety CatalogPreserve CatalogPreserve2 CatalogSystem CatalogClaim CatalogEvolve CatalogProps CatalogPublish CatalogServe.

Open Scope Z_scope.

(** The row under a key, in a world the fixture evaluates. *)
Definition cat_job (w : WorldOf CatalogDb) (i : pystr) : option IndexJob := c_jobs (w_db w) !! i.
Definition cat_version (w : WorldOf CatalogDb) (i : pystr) : option DocumentVersion := c_versions (w_db w) !! i.
Definition cat_doc (w : WorldOf CatalogDb) (i : pystr) : option Document := c_docs (w_db w) !! i.

(** The row of an option that evaluates to one. *)
Definition the {A} (o : option A) (H : bool_decide (is_Some o) = true) : { x | o = Some x }.
Proof. destruct o as [x|]; [by exists x|done]. Defined.

Lemma catalogue_references_resolve_witness :
  let db := w_db (cat_run cs_second) in
  tables_ok db /\ catalog_schema_ok db /\
  exists v i j, c_versions db !! version_1 = Some v /\ c_jobs db !! i = Some j /\
    ij_document_version_id j = version_1 /\
    forall i' j', c_jobs db !! i' = Some j' -> ij_document_version_id j' = version_1 -> i' = i.
Proof.
  intros db. destruct (the (cat_version (cat_run cs_second) version_1) ltac:(by vm_compute)) as [v Hv].
  destruct (catalogue_references_resolve cat_env db (cat_run_reachable cs_second)) as (T & S & _ & J).
  destruct (J version_1 v Hv) as (i & j & Hj & E & U).
  exact (conj T (conj S (ex_intro _ v (ex_intro _ i (ex_intro _ j (conj Hv (conj Hj (conj E U)))))))).
Defined.

Lemma versions_live_in_phases_witness :
  exists v d j, cat_version (cat_run cs_second) version_1 = Some v /\
    phase_ok d version_1 (cell_at (w_db (cat_run cs_second)) v (Some j)).
Proof.
  destruct (the (cat_version (cat_run cs_second) version_1) ltac:(by vm_compute)) as [v Hv].
  destruct (versions_live_in_phases cat_env _ version_1 v (cat_run_reachable cs_second) Hv)
    as (d & j & _ & _ & P & _).
  exists v, d, j. exact (conj Hv P).
Defined.

(** The first document deleted while its first version is current. *)
Definition cs_retired : list CatalogCall := cs_published ++ [CRetire "t"%py "a.pdf"%py None None].

Lemma cleanup_targets_dead_versions_witness :
  exists v c, cat_version (cat_run cs_retired) version_1 = Some v /\
    cleanup_for_version (w_db (cat_run cs_retired)) version_1 = Some c.
Proof.
  destruct (the (cat_version (cat_run cs_retired) version_1) ltac:(by vm_compute)) as [v Hv].
  destruct (proj2 (cleanup_targets_dead_versions cat_env _ (cat_run_reachable cs_retired)) version_1 v Hv)
    as (c & Hc & _); [|exists v, c; exact (conj Hv Hc)].
  revert Hv. unfold cat_version. vm_compute. by intros [= <-].
Defined.

(** One more call. *)
Lemma cat_run_step cs c :
  catalog_step cat_env (w_db (cat_run cs)) (w_db (cat_run (cs ++ [c]))).
Proof.
  unfold cat_run. rewrite foldl_app. simpl. destruct (call cat_env c _) as [r w'] eqn:E.
  by apply (catalog_step_call _ c _ r w').
Qed.

Lemma history_moves_forward_witness :
  evolves (w_db (cat_run cs_published)) (w_db (cat_run cs_retired)).
Proof.
  apply (history_moves_forward cat_env); [apply cat_run_reachable|]. apply rtc_once. apply cat_run_step.
Defined.

Definition cat_idle_claim : outcome (option VersionBuild) * WorldOf CatalogDb :=
  claim_index_job cat_env (fun _ => false) "w1"%py 60 None None (cat_run cs_retired).
Definition cat_idle_cleanup : outcome (option CleanupBuild) * WorldOf CatalogDb :=
  claim_cleanup_job cat_env (fun _ => false) "w1"%py 60 None (cat_run cs_retired).

Lemma claim_loops_terminate_witness :
  cat_idle_claim <> (Raise EFuel, cat_idle_claim.2) /\ cat_idle_cleanup <> (Raise EFuel, cat_idle_cleanup.2).
Proof.
  pose proof (fun w' => claim_loops_terminate cat_env (fun _ => false) "w1"%py 60 None None (cat_run cs_retired) w'
    (cat_run_reachable cs_retired)) as H.
  split; apply H.
Defined.

(** The result of a run that succeeds. *)
Definition ran {A} (p : outcome A * WorldOf CatalogDb)
    (H : match p.1 with Ret _ => true | Raise _ => false end = true) : { a & { w | p = (Ret a, w) } }.
Proof. destruct p as [[a|e] w]; [by exists a, w|done]. Defined.

Definition cat_claim_run : outcome (option VersionBuild) * WorldOf CatalogDb :=
  claim_index_job cat_env (fun _ => false) "w1"%py 60 None None (cat_run cs_reserved).

Lemma index_claim_is_exclusive_witness :
  exists b w' wk j j', cat_claim_run = (Ret (Some b), w') /\ c_jobs (w_db w') !! ij_id j = Some j' /\
    ij_owner_worker_id j' = Some wk.
Proof.
  destruct (ran cat_claim_run ltac:(by vm_compute)) as (o & w' & E).
  destruct o as [b|]; [|exfalso; revert E; vm_compute; congruence].
  destruct (index_claim_is_exclusive cat_env (fun _ => false) "w1"%py 60 None None (cat_run cs_reserved) b w'
    (cat_run_reachable cs_reserved) E) as (wk & j & j' & _ & _ & H1 & _ & _ & _ & H2 & _).
  exists b, w', wk, j, j'. exact (conj E (conj H1 H2)).
Defined.

(** A second worker takes the job over once the lease is gone. *)
Definition cs_taken : list CatalogCall :=
  cs_claimed ++ [CClaimIndex (fun _ => false) "w2"%py 60 None (Some 900000000)].

Lemma stale_worker_is_rejected_witness :
  exists x w', call cat_env (CPublish job_1 1 None (Some exec_1)) (cat_run cs_taken) = (Raise x, w') /\
    w_db w' = w_db (cat_run cs_taken).
Proof.
  assert (match cat_job (cat_run cs_taken) job_1 with
          | Some j => stale j exec_1 (w_clock (cat_run cs_taken) (w_tick (cat_run cs_taken)))
                      && negb (bool_decide (ij_status j = J_COMPLETED))
          | None => false
          end = true) as H by (by vm_compute).
  destruct (the (cat_job (cat_run cs_taken) job_1) ltac:(by vm_compute)) as [j Hj].
  rewrite Hj in H. apply andb_true_iff in H as [H1 H2]. apply negb_true_iff, bool_decide_eq_false in H2.
  exact (stale_worker_is_rejected cat_env _ job_1 exec_1 j (cat_run cs_taken)
    (wc_publish job_1 exec_1 1 None) Hj H2 H1).
Defined.

Definition cat_publish_run : outcome PublicationResult * WorldOf CatalogDb :=
  publish job_1 1 None (Some exec_1) (cat_run cs_staged).

Lemma publish_switches_current_witness :
  exists r w' j v d, cat_publish_run = (Ret r, w') /\ published_at (w_db w') job_1 j v d.
Proof.
  destruct (ran cat_publish_run ltac:(by vm_compute)) as (r & w' & E).
  destruct (publish_switches_current cat_env job_1 1 None (Some exec_1) (cat_run cs_staged) r w'
    (cat_run_reachable cs_staged) E) as (j & v & d & P & _).
  exists r, w', j, v, d. exact (conj E P).
Defined.

Lemma publish_is_idempotent_witness :
  exists r w' r2, cat_publish_run = (Ret r, w') /\ publish job_1 5 None None w' = (Ret r2, w') /\
    pr_published r2 = false.
Proof.
  destruct (ran cat_publish_run ltac:(by vm_compute)) as (r & w' & E).
  destruct (publish_is_idempotent cat_env job_1 1 None (Some exec_1) (cat_run cs_staged) r w' 5 None None w'
    (cat_run_reachable cs_staged) E eq_refl) as (r2 & v & E2 & P & _).
  exists r, w', r2. exact (conj E (conj E2 P)).
Defined.

(** Deletion while the first version is being built. *)
Definition cat_retire_run : outcome RetirementResult * WorldOf CatalogDb :=
  retire cat_env "t"%py "a.pdf"%py None None (cat_run cs_staged).

Lemma deleted_document_build_never_published_witness :
  exists r w' ex w3, cat_retire_run = (Ret r, w') /\ publish job_1 1 None (Some exec_1) w' = (Raise ex, w3).
Proof.
  assert (match cat_retire_run with
          | (Ret r, w') => bool_decide (rr_document_id r = Some doc_1)
              && match cat_job w' job_1 with
                 | Some j => match cat_version w' (ij_document_version_id j) with
                             | Some v => bool_decide (dv_document_id v = doc_1)
                             | None => false end
                 | None => false end
          | _ => false end = true) as H by (by vm_compute).
  destruct cat_retire_run as [[r|e] w'] eqn:E; [|done]. apply andb_true_iff in H as [H1 H2].
  apply bool_decide_eq_true in H1. destruct (cat_job w' job_1) as [j|] eqn:Hj; [|done].
  destruct (cat_version w' _) as [v|] eqn:Hv; [|done]. apply bool_decide_eq_true in H2.
  destruct (deleted_document_build_never_published cat_env "t"%py "a.pdf"%py None None (cat_run cs_staged) r w'
    doc_1 job_1 j v 1 None (Some exec_1) w' (cat_run_reachable cs_staged) E H1 Hj Hv H2 (rtc_refl _ _))
    as (ex & w3 & H3 & _).
  exists r, w', ex, w3. exact (conj eq_refl H3).
Defined.

Lemma current_version_is_served_witness :
  exists o, get_current "t"%py "a.pdf"%py None (cat_run cs_published) = (Ret o, cat_run cs_published).
Proof.
  assert (match (_document "t"%py "a.pdf"%py None (cat_run cs_published)).1 with
          | Ret (Some _) => true | _ => false end = true) as H by (by vm_compute).
  destruct (_document "t"%py "a.pdf"%py None (cat_run cs_published)) as [[o|e] w'] eqn:E; [|done].
  destruct o as [d|]; [|done]. destruct (document_inv _ _ _ _ _ _ E) as [Ew _]. subst w'.
  destruct (current_version_is_served cat_env "t"%py "a.pdf"%py None (cat_run cs_published) d
    (cat_run_reachable cs_published) E) as (r & Hr & _).
  exists r. exact Hr.
Defined.

Lemma retrieval_snapshot_is_ready_witness :
  exists s, load_retrieval_snapshot cat_env "t"%py None (cat_run cs_second) = (Ret s, cat_run cs_second).
Proof.
  destruct (retrieval_snapshot_is_ready cat_env "t"%py None (cat_run cs_second) (cat_run_reachable cs_second))
    as (s & Hs & _).
  exists s. exact Hs.
Defined.

Lemma first_waiting_job_is_claimed_witness :
  exists b w', claim_index_job cat_env (fun _ => false) "w1"%py 60 None None (cat_run cs_reserved) = (Ret (Some b), w').
Proof.
  assert (match ready_graph (w_db (cat_run cs_reserved)) None (fun _ => false) (claim_clock (cat_run cs_reserved) None) with
          | Some (j, _, _, _) => negb (attempts_exhausted j) | None => false end = true) as H by (by vm_compute).
  destruct (ready_graph _ _ _ _) as [[[[j v] d] k]|] eqn:E in H; [|done]. apply negb_true_iff in H.
  assert (owned_graph (w_db (cat_run cs_reserved)) None (fun _ => false) "w1"%py
    (claim_clock (cat_run cs_reserved) None) = None) as Ho by (by vm_compute).
  destruct (first_waiting_job_is_claimed cat_env (fun _ => false) "w1"%py 60 None (cat_run cs_reserved) "w1"%py
    j v d k (cat_run_reachable cs_reserved) ltac:(lia) eq_refl Ho E H) as (b & w' & Hb & _).
  exists b, w'. exact Hb.
Defined.
