(* ===== verification/Auth.v ===== *)
(** * Refresh and access tokens

    [backend/auth/service.py], [backend/auth/access.py] and
    [backend/auth/cleanup.py]: the ledger of refresh tokens with issue, rotation,
    replay detection, logout and retention cleanup, and the access tokens handed
    out with them. SHA-256 and the JWT codec are parameters; the random token
    [secrets.token_urlsafe] returns is an argument of the operation that draws it.
    The lock of the token's stripe and the row lock of the user make each
    operation one step. *)

From S2P Require Import Prelude PyBase Errors RunState Session Schema.

Open Scope Z_scope.

(** ** Tables *)

Record RefreshToken := mkRefreshToken {
  rt_id : pystr;
  rt_user_id : Z;
  rt_token_hash : pystr;
  rt_expires_at : datetime;
  rt_revoked_at : option datetime;
  rt_created_at : datetime
}.

Definition set_rt_revoked_at (o : option datetime) (t : RefreshToken) : RefreshToken :=
  mkRefreshToken (rt_id t) (rt_user_id t) (rt_token_hash t) (rt_expires_at t) o (rt_created_at t).

Record AuthDb := mkAuthDb {
  a_users : gmap Z User;
  a_tokens : gmap pystr RefreshToken
}.

Definition set_a_tokens (m : gmap pystr RefreshToken) (db : AuthDb) : AuthDb :=
  mkAuthDb (a_users db) m.
Definition put_token (t : RefreshToken) (db : AuthDb) : AuthDb :=
  set_a_tokens (<[rt_id t := t]> (a_tokens db)) db.

(** Unique columns: [users.username] and [refresh_tokens.token_hash]. *)
Definition idx_token_hash (t : RefreshToken) : option pystr := Some (rt_token_hash t).

#[export] Instance auth_store : Store AuthDb := fun db =>
  unique_index idx_username (a_users db) && unique_index idx_token_hash (a_tokens db).

Abbreviation AM := (Sess AuthDb).

(** ** Parameters *)

(** The claims [create_access_token] signs. *)
Record AccessPayload := mkAccessPayload {
  ap_sub : pystr;
  ap_role : pystr;
  ap_iat : datetime;
  ap_exp : datetime;
  ap_jti : pystr
}.

Record SecuritySettings := mkSecuritySettings {
  se_refresh_token_expire_days : Z;
  se_refresh_token_retention_days : Z;
  se_access_token_expire_minutes : Z;
  se_jwt_secret_key : pystr;
  se_jwt_algorithm : pystr
}.

(** [ae_sha256] is [hashlib.sha256(b).hexdigest()]. [ae_jwt_encode] is
    [jwt.encode(payload, key, algorithm)]; [ae_jwt_decode] is [jwt.decode] with the
    four required claims, at an instant: [None] stands for [InvalidTokenError]. *)
Record AuthEnv := mkAuthEnv {
  ae_settings : SecuritySettings;
  ae_sha256 : list N -> pystr;
  ae_jwt_encode : AccessPayload -> pystr -> pystr -> pystr;
  ae_jwt_decode : pystr -> pystr -> pystr -> datetime -> option (list (pystr * json))
}.

Inductive RefreshTokenRejection := MISSING | INVALID | EXPIRED | REPLAY.

Definition rejection_value (r : RefreshTokenRejection) : pystr :=
  match r with
  | MISSING => "missing" | INVALID => "invalid" | EXPIRED => "expired" | REPLAY => "replay"
  end%py.

(** [RefreshTokenRejected(reason)] *)
Definition RefreshTokenRejected (r : RefreshTokenRejection) : exn :=
  EClass "RefreshTokenRejected"%py ("refresh token rejected: "%py +++ rejection_value r)%py.

Record TokenGrant := mkTokenGrant {
  tg_access_token : pystr;
  tg_refresh_token : pystr;
  tg_username : pystr;
  tg_role : pystr
}.

Record AccessTokenClaims := mkAccessTokenClaims {
  ac_username : pystr;
  ac_role : pystr
}.

Definition days (n : Z) : Z := seconds (n * 86400).
Definition minutes (n : Z) : Z := seconds (n * 60).

(** [[A-Za-z0-9_-]{64,256}\Z] *)
Definition token_char (c : N) : bool := is_AZ c || is_az c || is_09 c || is_one_of "_-"%py c.
Definition _OPAQUE_REFRESH_TOKEN (s : pystr) : bool :=
  forallb token_char (cps_of s) && (64 <=? py_len s) && (py_len s <=? 256).

(** [access_[0-9a-f]{32}\Z] *)
Definition hex_char (c : N) : bool := is_09 c || in_range 97 102 c.
Definition _ACCESS_JTI (s : pystr) : bool :=
  bool_decide (py_take 7 s = "access_"%py) && forallb hex_char (drop 7 (cps_of s)) && (py_len s =? 39).

Section auth.
Context (env : AuthEnv).

Definition settings : SecuritySettings := ae_settings env.

(** ** Access tokens *)

Definition create_access_token (username role : pystr) (now : datetime) : AM pystr :=
  jti ← uuid4_hex;
  mret (ae_jwt_encode env
    (mkAccessPayload username role now (now + minutes (se_access_token_expire_minutes settings))
       ("access_"%py +++ jti)%py)
    (se_jwt_secret_key settings) (se_jwt_algorithm settings)).

(** [None] stands for [jwt.InvalidTokenError]. *)
Definition decode_access_token (token : pystr) (now : datetime) : option AccessTokenClaims :=
  payload ← ae_jwt_decode env token (se_jwt_secret_key settings) (se_jwt_algorithm settings) now;
  username ← match obj_get "sub"%py payload with
             | Some (JStr s) => if py_nonempty s then Some s else None
             | _ => None
             end;
  match obj_get "jti"%py payload with
  | Some (JStr j) =>
      if _ACCESS_JTI j
      then Some (mkAccessTokenClaims username
                   match obj_get "role"%py payload with Some (JStr r) => r | _ => ""%py end)
      else None
  | _ => None
  end.

Definition resolve_access_token_subject (token : pystr) (now : datetime) : option pystr :=
  ac_username <$> decode_access_token token now.

(** ** The token service *)

(** [raw_token.encode("utf-8")] raises on lone surrogates. *)
Definition hash_refresh_token (raw_token : pystr) : AM pystr :=
  bytes ← require (utf8_encode raw_token) (EValue "surrogates not allowed"%py);
  mret (ae_sha256 env bytes).

(** [value] is what the token factory returned. *)
Definition _new_refresh_token (value : pystr) : AM pystr :=
  raise_if (negb (_OPAQUE_REFRESH_TOKEN value))
    (ERuntime "refresh token factory returned an unsafe token"%py);;
  mret value.

Definition _validated_hash (raw_token : option pystr) : AM pystr :=
  match raw_token with
  | None => raise (RefreshTokenRejected MISSING)
  | Some raw =>
      raise_if (negb (_OPAQUE_REFRESH_TOKEN raw)) (RefreshTokenRejected INVALID);;
      hash_refresh_token raw
  end.

Definition _token_user_id (db : AuthDb) (token_hash : pystr) : option Z :=
  rt_user_id <$> first_where (fun t => bool_decide (rt_token_hash t = token_hash)) (a_tokens db).

Definition _lock_user (db : AuthDb) (user_id : Z) : option User := a_users db !! user_id.

Definition _lock_token (db : AuthDb) (token_hash : pystr) (user_id : Z) : option RefreshToken :=
  first_where (fun t => bool_decide (rt_token_hash t = token_hash)
                        && bool_decide (rt_user_id t = user_id)) (a_tokens db).

(** A row the user can still rotate at an instant. *)
Definition token_active (now : datetime) (t : RefreshToken) : bool :=
  bool_decide (rt_revoked_at t = None) && (now <? rt_expires_at t).

Definition revokes (user_id : Z) (now : datetime) (t : RefreshToken) : bool :=
  bool_decide (rt_user_id t = user_id) && token_active now t.

(** The bulk update and the number of rows it matched. *)
Definition _revoke_active_for_user (user_id : Z) (now : datetime) : AM Z :=
  db ← get_db;
  let matched := rows_where (revokes user_id now) (a_tokens db) in
  modify_db (set_a_tokens
    ((fun t => if revokes user_id now t then set_rt_revoked_at (Some now) t else t) <$> a_tokens db));;
  mret (Z.of_nat (length matched)).

(** [db.add(RefreshToken(...))]: the row of a new token; its id is fresh or the
    insert fails. *)
Definition add_token (user_id : Z) (raw_token : pystr) (now : datetime) : AM unit :=
  hex ← uuid4_hex;
  token_hash ← hash_refresh_token raw_token;
  let t := {| rt_id := ("refresh_"%py +++ hex)%py;
              rt_user_id := user_id;
              rt_token_hash := token_hash;
              rt_expires_at := now + days (se_refresh_token_expire_days settings);
              rt_revoked_at := None;
              rt_created_at := now |} in
  db ← get_db;
  raise_if (bool_decide (is_Some (a_tokens db !! rt_id t))) EIntegrity;;
  modify_db (put_token t).

(** [issue(db, user)]; [value] is the token the factory draws. *)
Definition issue (user_id : Z) (value : pystr) : AM TokenGrant :=
  now ← utcnow;
  raw_token ← _new_refresh_token value;
  transaction (
    flush;;
    db ← get_db;
    locked_user ← require (_lock_user db user_id)
      (ERuntime "cannot issue a refresh token for a missing user"%py);
    add_token (u_id locked_user) raw_token now;;
    access_token ← create_access_token (u_username locked_user) (u_role locked_user) now;
    mret (mkTokenGrant access_token raw_token (u_username locked_user) (u_role locked_user))).

(** What the transaction of a rotation commits: the revocations of a replay, or
    the new token. *)
Definition rotate_transaction (token_hash value : pystr) : AM (option TokenGrant) :=
  transaction (
    db ← get_db;
    user_id ← require (_token_user_id db token_hash) (RefreshTokenRejected INVALID);
    match _lock_user db user_id, _lock_token db token_hash user_id with
    | Some user, Some stored =>
        now ← utcnow;
        raise_if (rt_expires_at stored <=? now) (RefreshTokenRejected EXPIRED);;
        if bool_decide (is_Some (rt_revoked_at stored)) then
          _revoke_active_for_user (u_id user) now;;
          mret None
        else
          replacement ← _new_refresh_token value;
          modify_db (put_token (set_rt_revoked_at (Some now) stored));;
          add_token (u_id user) replacement now;;
          access_token ← create_access_token (u_username user) (u_role user) now;
          mret (Some (mkTokenGrant access_token replacement (u_username user) (u_role user)))
    | _, _ => raise (RefreshTokenRejected INVALID)
    end).

(** [rotate(db, raw_token)]; a replay is committed before it is rejected. *)
Definition rotate (raw_token : option pystr) (value : pystr) : AM TokenGrant :=
  token_hash ← _validated_hash raw_token;
  granted ← rotate_transaction token_hash value;
  require granted (RefreshTokenRejected REPLAY).

(** [logout(db, raw_token)] *)
Definition logout_stored (token_hash : pystr) : AM Z :=
  transaction (
    db ← get_db;
    match _token_user_id db token_hash with
    | None => mret 0
    | Some user_id =>
        match _lock_user db user_id, _lock_token db token_hash user_id with
        | Some _, Some stored =>
            if bool_decide (is_Some (rt_revoked_at stored)) then mret 0
            else
              now ← utcnow;
              if rt_expires_at stored <=? now then mret 0
              else modify_db (put_token (set_rt_revoked_at (Some now) stored));; mret 1
        | _, _ => mret 0
        end
    end).

Definition logout (raw_token : option pystr) : AM Z :=
  validated ← catch (h ← _validated_hash raw_token; mret (Some h))
    (fun e => match e with
              | EClass c _ => if bool_decide (c = "RefreshTokenRejected"%py) then mret None else raise e
              | _ => raise e
              end);
  match validated with
  | None => mret 0
  | Some token_hash => logout_stored token_hash
  end.

(** [logout_all(db, user_id)] *)
Definition logout_all (user_id : Z) : AM Z :=
  transaction (
    db ← get_db;
    match _lock_user db user_id with
    | None => mret 0
    | Some _ => now ← utcnow; _revoke_active_for_user user_id now
    end).

(** ** Retention *)

(** The rows of one batch: expired for the retention period, oldest first. *)
Definition purge_key (t : RefreshToken) : list Z := rt_expires_at t :: (Z.of_N <$> cps_of (rt_id t)).
Definition purge_candidates (db : AuthDb) (cutoff : datetime) (batch_size : Z) : list RefreshToken :=
  take (Z.to_nat batch_size)
    (order_by_keys purge_key (rows_where (fun t => rt_expires_at t <=? cutoff) (a_tokens db))).

Definition purge_refresh_token_batch (now : option datetime) (batch_size : Z) : AM Z :=
  raise_if (batch_size <=? 0) (EValue "batch_size must be positive"%py);;
  current ← match now with Some t => mret t | None => utcnow end;
  let cutoff := current - days (se_refresh_token_retention_days settings) in
  db ← get_db;
  let candidates := purge_candidates db cutoff batch_size in
  match candidates with
  | [] => mret 0
  | _ =>
      transaction (
        modify_db (fun db => set_a_tokens
          (foldr (fun t m => delete (rt_id t) m) (a_tokens db) candidates) db);;
        mret (Z.of_nat (length candidates)))
  end.

(** The loop of [main]: at most [max_batches] batches, until one is not full. *)
Fixpoint purge_batches (max_batches : nat) (batch_size total : Z) : AM Z :=
  match max_batches with
  | O => mret total
  | S n =>
      deleted ← purge_refresh_token_batch None batch_size;
      if deleted <? batch_size then mret (total + deleted)
      else purge_batches n batch_size (total + deleted)
  end.

Definition purge_main (batch_size max_batches : Z) : AM Z :=
  raise_if ((batch_size <=? 0) || (max_batches <=? 0))
    (EClass "SystemExit"%py "--batch-size and --max-batches must be positive"%py);;
  purge_batches (Z.to_nat max_batches) batch_size 0.
End auth.
