(* ===== verification/AuthProps.v ===== *)
(** * Properties of the token ledger

    A refresh token works once, its reuse ends every session of its user, a
    rotation replaces exactly one session, and only rows past their retention are
    forgotten. *)

From S2P Require Import Prelude PyBase Errors RunState Session Schema Auth.

Open Scope Z_scope.

Section auth_props.
Context (env : AuthEnv).

(** The stored digest of a token. *)
Definition token_digest (raw : pystr) : pystr := ae_sha256 env (default [] (utf8_encode raw)).

(** ** The ledger as a system *)

Inductive AuthCall :=
| AIssue (user_id : Z) (value : pystr)
| ARotate (raw : option pystr) (value : pystr)
| ALogout (raw : option pystr)
| ALogoutAll (user_id : Z)
| APurge (now : option datetime) (batch_size : Z).

Definition auth_call (c : AuthCall) : AM unit :=
  match c with
  | AIssue u v => issue env u v;; mret tt
  | ARotate r v => rotate env r v;; mret tt
  | ALogout r => logout env r;; mret tt
  | ALogoutAll u => logout_all u;; mret tt
  | APurge now b => purge_refresh_token_batch env now b;; mret tt
  end.

(** One call, whatever it returns or raises; or a user is registered. *)
Inductive auth_step : AuthDb -> AuthDb -> Prop :=
| auth_step_call c w r w' : auth_call c w = (r, w') -> auth_step (w_db w) (w_db w')
| auth_step_user db u :
    a_users db !! u_id u = None -> store_ok (mkAuthDb (<[u_id u := u]> (a_users db)) (a_tokens db)) = true ->
    auth_step db (mkAuthDb (<[u_id u := u]> (a_users db)) (a_tokens db)).

Definition auth_reachable (db : AuthDb) : Prop := rtc auth_step (mkAuthDb ∅ ∅) db.

(** Rows are stored under their keys, tokens belong to users, digests are unique. *)
Record auth_inv (db : AuthDb) : Prop := mkAuthInv {
  ai_user : forall i u, a_users db !! i = Some u -> u_id u = i;
  ai_token : forall i t, a_tokens db !! i = Some t -> rt_id t = i /\ is_Some (a_users db !! rt_user_id t);
  ai_names : unique_prop idx_username (a_users db);
  ai_digests : unique_prop idx_token_hash (a_tokens db)
}.

Lemma auth_store_spec (db : AuthDb) :
  store_ok db = true <-> unique_prop idx_username (a_users db) /\ unique_prop idx_token_hash (a_tokens db).
Proof.
  unfold store_ok, auth_store. by rewrite andb_true_iff, !unique_index_spec.
Qed.

Lemma digest_unique db i j t t' :
  auth_inv db -> a_tokens db !! i = Some t -> a_tokens db !! j = Some t' ->
  rt_token_hash t = rt_token_hash t' -> i = j.
Proof.
  intros I Ht Ht' E. apply (ai_digests _ I i j t t' (rt_token_hash t)); try done.
  unfold idx_token_hash. by rewrite E.
Qed.

(** ** Digests of well-formed tokens *)

Lemma token_char_ascii c : token_char c = true -> (c < 128)%N.
Proof.
  unfold token_char, is_one_of. simpl. rewrite !orb_true_iff.
  unfold is_AZ, is_az, is_09. rewrite !in_range_spec, !N.eqb_eq. intuition (try lia; done).
Qed.

Lemma opaque_encodes s : _OPAQUE_REFRESH_TOKEN s = true -> is_Some (utf8_encode s).
Proof.
  unfold _OPAQUE_REFRESH_TOKEN. intros [[H _]%andb_true_iff _]%andb_true_iff. unfold utf8_encode.
  induction (cps_of s) as [|c l IH]; simpl in *; [eauto|]. apply andb_true_iff in H as [Hc H].
  apply token_char_ascii in Hc.
  assert (utf8_encode_cp c = Some [c]) as E by (unfold utf8_encode_cp; by rewrite (proj2 (N.ltb_lt c 128) Hc)).
  rewrite E. destruct (IH H) as [x Hx]. simpl in *. destruct (mapM utf8_encode_cp l) as [y|]; [simpl; eauto|done].
Qed.

Lemma hash_run raw w :
  _OPAQUE_REFRESH_TOKEN raw = true -> hash_refresh_token env raw w = (Ret (token_digest raw), w).
Proof.
  intros [b E]%opaque_encodes. unfold hash_refresh_token, token_digest. by rewrite E.
Qed.

Lemma new_token_run v w : _OPAQUE_REFRESH_TOKEN v = true -> _new_refresh_token v w = (Ret v, w).
Proof. intros E. unfold _new_refresh_token, raise_if. by rewrite E. Qed.

Lemma validated_hash_inv raw h w w' :
  _validated_hash env raw w = (Ret h, w') ->
  exists r, raw = Some r /\ _OPAQUE_REFRESH_TOKEN r = true /\ h = token_digest r /\ w' = w.
Proof.
  unfold _validated_hash. destruct raw as [r|]; [|done]. intros H.
  apply bind_inv in H as (u & w1 & [G ->]%raise_if_inv & H). apply negb_false_iff in G.
  rewrite (hash_run r w G) in H. simplify_eq. eauto.
Qed.

Lemma new_token_inv v r w w' :
  _new_refresh_token v w = (Ret r, w') -> r = v /\ w' = w /\ _OPAQUE_REFRESH_TOKEN v = true.
Proof. unfold _new_refresh_token. intros H. minv. by bool_to_prop. Qed.

(** ** Row changes *)

(** A row keeps its identity and stays revoked. *)
Definition token_le (t t' : RefreshToken) : Prop :=
  rt_id t' = rt_id t /\ rt_user_id t' = rt_user_id t /\ rt_token_hash t' = rt_token_hash t /\
  rt_expires_at t' = rt_expires_at t /\ (is_Some (rt_revoked_at t) -> rt_revoked_at t' = rt_revoked_at t).

#[local] Instance token_le_preorder : PreOrder token_le.
Proof.
  split; [intros t; unfold token_le; tauto|].
  intros t1 t2 t3 (? & ? & ? & ? & X1) (? & ? & ? & ? & X2). unfold token_le.
  split_and!; try congruence. intros HS. rewrite <- (X1 HS). apply X2. by rewrite (X1 HS).
Qed.

Record ledger_kept (db db' : AuthDb) : Prop := mkLedgerKept {
  lk_users : a_users db' = a_users db;
  lk_rows : forall i t, a_tokens db !! i = Some t -> exists t', a_tokens db' !! i = Some t' /\ token_le t t';
  lk_new : forall i t, a_tokens db' !! i = Some t -> a_tokens db !! i = None ->
    rt_id t = i /\ is_Some (a_users db !! rt_user_id t)
}.

Lemma ledger_kept_refl db : ledger_kept db db.
Proof. split; [done|intros i t Ht; exists t; unfold token_le; tauto|congruence]. Qed.

Lemma ledger_kept_trans db1 db2 db3 : ledger_kept db1 db2 -> ledger_kept db2 db3 -> ledger_kept db1 db3.
Proof.
  intros [U1 R1 N1] [U2 R2 N2]. split; [congruence|..].
  - intros i t (t1 & H1 & L1)%R1. destruct (R2 _ _ H1) as (t2 & H2 & L2). exists t2.
    split; [done|by etrans].
  - intros i t Ht Hn. destruct (a_tokens db2 !! i) as [t2|] eqn:E2.
    + destruct (R2 _ _ E2) as (t3 & H3 & L). assert (t3 = t) as -> by congruence.
      destruct (N1 _ _ E2 Hn) as [<- ?]. destruct L as (-> & -> & _). done.
    + rewrite <- U1. by apply N2.
Qed.

Lemma ledger_kept_inv db db' : auth_inv db -> ledger_kept db db' -> store_ok db' = true -> auth_inv db'.
Proof.
  intros I [U R N] [Un Ut]%auth_store_spec. split; try done.
  - rewrite U. apply I.
  - intros i t Ht. rewrite U. destruct (a_tokens db !! i) as [t0|] eqn:E; [|by apply N].
    destruct (R _ _ E) as (t1 & H1 & L). assert (t1 = t) as -> by congruence.
    destruct (ai_token _ I _ _ E) as [<- ?]. destruct L as (-> & -> & _). done.
Qed.

Lemma kept_revoke db i t now :
  a_tokens db !! i = Some t -> rt_id t = i -> rt_revoked_at t = None ->
  ledger_kept db (put_token (set_rt_revoked_at (Some now) t) db).
Proof.
  intros Ht Hi Hr. unfold put_token. simpl. rewrite Hi. split; simpl; [done|..].
  - intros j x Hx. destruct (decide (j = i)) as [->|Hn].
    + rewrite lookup_insert_eq. assert (x = t) as -> by congruence. eexists; split; [done|].
      unfold token_le. simpl. rewrite Hr. split_and!; try done.
    + rewrite lookup_insert_ne by done. exists x. unfold token_le. tauto.
  - intros j x. destruct (decide (j = i)) as [->|Hn]; [congruence|]. rewrite lookup_insert_ne by done. congruence.
Qed.

Lemma kept_revoke_all db u now :
  ledger_kept db (set_a_tokens
    ((fun t => if revokes u now t then set_rt_revoked_at (Some now) t else t) <$> a_tokens db) db).
Proof.
  split; simpl; [done|..].
  - intros i t Ht. rewrite lookup_fmap, Ht. simpl. eexists; split; [done|]. unfold token_le.
    destruct (revokes u now t) eqn:E; [|tauto]. simpl. split_and!; try done.
    intros HS. unfold revokes, token_active in E. bool_to_prop. destruct HS; congruence.
  - intros i t. rewrite lookup_fmap. intros H Hn. by rewrite Hn in H.
Qed.

Lemma kept_add db t :
  a_tokens db !! rt_id t = None -> is_Some (a_users db !! rt_user_id t) -> ledger_kept db (put_token t db).
Proof.
  intros Hn Hu. split; simpl; [done|..].
  - intros i x Hx. rewrite lookup_insert_ne by congruence. exists x. unfold token_le. tauto.
  - intros i x Hx Hi. destruct (decide (i = rt_id t)) as [->|N].
    + rewrite lookup_insert_eq in Hx. by simplify_eq.
    + rewrite lookup_insert_ne in Hx by done. congruence.
Qed.

(** ** What the calls do *)

Lemma create_access_inv u r now w tok w' :
  create_access_token env u r now w = (Ret tok, w') -> w_db w' = w_db w.
Proof. unfold create_access_token. intros H. by minv. Qed.

(** The row of a new token. *)
Definition new_token (id : pystr) (user_id : Z) (raw : pystr) (now : datetime) : RefreshToken :=
  mkRefreshToken ("refresh_"%py +++ id)%py user_id (token_digest raw)
    (now + days (se_refresh_token_expire_days (settings env))) None now.

Lemma add_token_inv u raw now w x w' :
  _OPAQUE_REFRESH_TOKEN raw = true -> add_token env u raw now w = (Ret x, w') ->
  exists id, a_tokens (w_db w) !! rt_id (new_token id u raw now) = None /\
    w_db w' = put_token (new_token id u raw now) (w_db w).
Proof.
  intros Ho H. unfold add_token in H.
  apply bind_inv in H as (hex & w1 & [-> ->]%uuid4_hex_inv & H).
  rewrite (bind_run _ _ _ _ _ (hash_run raw _ Ho)) in H. minv. bool_to_prop.
  eexists. split; [|reflexivity].
  destruct (a_tokens _ !! _) eqn:E; [|done]. exfalso. eauto.
Qed.

Lemma lock_token_inv db h u t :
  _lock_token db h u = Some t -> exists i, a_tokens db !! i = Some t /\ rt_token_hash t = h /\ rt_user_id t = u.
Proof.
  intros (i & Hi & Hp)%first_where_Some. bool_to_prop. eauto.
Qed.

(** What a rotation that reaches the ledger finds and commits. *)
Lemma rotate_transaction_inv h v w o w' :
  auth_inv (w_db w) -> rotate_transaction env h v w = (Ret o, w') ->
  exists t u, a_tokens (w_db w) !! rt_id t = Some t /\ a_users (w_db w) !! u_id u = Some u /\
    rt_user_id t = u_id u /\ rt_token_hash t = h /\ w_clock w (w_tick w) < rt_expires_at t /\
    store_ok (w_db w') = true /\
    match o with
    | None => is_Some (rt_revoked_at t) /\ w_db w' = set_a_tokens
        ((fun t => if revokes (u_id u) (w_clock w (w_tick w)) t
                   then set_rt_revoked_at (Some (w_clock w (w_tick w))) t else t) <$> a_tokens (w_db w)) (w_db w)
    | Some g => rt_revoked_at t = None /\ _OPAQUE_REFRESH_TOKEN v = true /\
        tg_refresh_token g = v /\ tg_username g = u_username u /\ tg_role g = u_role u /\
        exists id, let n := new_token id (u_id u) v (w_clock w (w_tick w)) in
          a_tokens (w_db w) !! rt_id n = None /\
          w_db w' = put_token n (put_token (set_rt_revoked_at (Some (w_clock w (w_tick w))) t) (w_db w))
    end.
Proof.
  intros I H. unfold rotate_transaction in H. apply transaction_inv in H as [H C].
  apply bind_inv in H as (db & w1 & [-> ->]%get_db_inv & H).
  apply bind_inv in H as (uid & w1 & [_ ->]%require_inv & H).
  destruct (_lock_user (w_db w) uid) as [u|] eqn:Eu; [|done].
  destruct (_lock_token (w_db w) h uid) as [t|] eqn:Et; [|done].
  apply lock_token_inv in Et as (i & Ht & Hh & Hu). unfold _lock_user in Eu.
  destruct (ai_token _ I _ _ Ht) as [Ei _]. pose proof (ai_user _ I _ _ Eu) as Ej. subst i uid.
  apply bind_inv in H as (now & w1 & [-> ->]%utcnow_inv & H).
  apply bind_inv in H as ([] & w1 & [G ->]%raise_if_inv & H). apply Z.leb_gt in G.
  exists t, u. rewrite Ej. split_and!; try done.
  destruct (bool_decide _) eqn:B.
  - unfold _revoke_active_for_user in H. minv. bool_to_prop. simpl in *. by rewrite Ej.
  - bool_to_prop.
    apply bind_inv in H as (r & w1 & (-> & -> & Ho)%new_token_inv & H).
    apply bind_inv in H as ([] & w1 & ->%modify_db_inv & H).
    apply bind_inv in H as (x & w2 & (id & Hn & Ew)%(add_token_inv _ _ _ _ _ _ Ho) & H).
    apply bind_inv in H as (tok & w3 & Ea%create_access_inv & H).
    minv. simpl in *. split; [by destruct (rt_revoked_at t); [exfalso; eauto|]|]. split_and!; try done.
    exists id. rewrite Ej in *. split; [|by rewrite Ea]. unfold put_token in Hn. simpl in Hn.
    by apply lookup_insert_None in Hn as [].
Qed.

Lemma rotate_kept h v w o w' :
  auth_inv (w_db w) -> rotate_transaction env h v w = (Ret o, w') ->
  ledger_kept (w_db w) (w_db w') /\ store_ok (w_db w') = true.
Proof.
  intros I H. apply rotate_transaction_inv in H as (t & u & Ht & Hu & Etu & _ & _ & C & H); [|done].
  split; [|done]. destruct o as [g|].
  - destruct H as (Hr & _ & _ & _ & _ & id & Hn & ->).
    eapply ledger_kept_trans; [by eapply kept_revoke|].
    apply kept_add; [|simpl; by rewrite Hu].
    unfold put_token. simpl in *. rewrite lookup_insert_ne; [done|congruence].
  - destruct H as [_ ->]. apply kept_revoke_all.
Qed.

Lemma issue_inv u v w g w' :
  auth_inv (w_db w) -> issue env u v w = (Ret g, w') ->
  let now := w_clock w (w_tick w) in
  exists us id, a_users (w_db w) !! u = Some us /\ u_id us = u /\ _OPAQUE_REFRESH_TOKEN v = true /\
    a_tokens (w_db w) !! rt_id (new_token id u v now) = None /\
    w_db w' = put_token (new_token id u v now) (w_db w) /\ store_ok (w_db w') = true /\
    tg_refresh_token g = v /\ tg_username g = u_username us /\ tg_role g = u_role us.
Proof.
  intros I H now. unfold issue in H.
  apply bind_inv in H as (x & w1 & [-> ->]%utcnow_inv & H).
  apply bind_inv in H as (r & w1 & (-> & -> & Ho)%new_token_inv & H).
  apply transaction_inv in H as [H C].
  apply bind_inv in H as (x & w1 & [-> _]%flush_inv & H).
  apply bind_inv in H as (db & w1 & [-> ->]%get_db_inv & H).
  apply bind_inv in H as (us & w1 & [Eu ->]%require_inv & H). unfold _lock_user in Eu.
  pose proof (ai_user _ I _ _ Eu) as Ei. rewrite Ei in H.
  apply bind_inv in H as (y & w1 & (id & Hn & Ew)%(add_token_inv _ _ _ _ _ _ Ho) & H).
  apply bind_inv in H as (tok & w3 & Ea%create_access_inv & H). minv. rewrite <- Ea in Ew.
  exists us, id. split_and!; done.
Qed.

Lemma issue_kept u v w g w' :
  auth_inv (w_db w) -> issue env u v w = (Ret g, w') ->
  ledger_kept (w_db w) (w_db w') /\ store_ok (w_db w') = true.
Proof.
  intros I H. apply issue_inv in H as (us & id & Hu & _ & _ & Hn & -> & C & _); [|done].
  split; [|done]. apply kept_add; [done|]. simpl. by rewrite Hu.
Qed.

Lemma logout_stored_kept h w n w' :
  auth_inv (w_db w) -> logout_stored h w = (Ret n, w') ->
  ledger_kept (w_db w) (w_db w') /\ store_ok (w_db w') = true.
Proof.
  intros I H. unfold logout_stored in H. apply transaction_inv in H as [H C]. split; [|done].
  apply bind_inv in H as (db & w1 & [-> ->]%get_db_inv & H).
  destruct (_token_user_id _ _) as [uid|]; [|minv; apply ledger_kept_refl].
  destruct (_lock_user _ _); [|minv; apply ledger_kept_refl].
  destruct (_lock_token _ _ _) as [t|] eqn:Et; [|minv; apply ledger_kept_refl].
  apply lock_token_inv in Et as (i & Ht & _). destruct (ai_token _ I _ _ Ht) as [<- _].
  minv; bool_to_prop; simpl; try apply ledger_kept_refl.
  eapply kept_revoke; try done. destruct (rt_revoked_at t); [exfalso; eauto|done].
Qed.

Lemma logout_all_kept u w n w' :
  logout_all u w = (Ret n, w') -> ledger_kept (w_db w) (w_db w') /\ store_ok (w_db w') = true.
Proof.
  intros H. unfold logout_all in H. apply transaction_inv in H as [H C]. split; [|done].
  apply bind_inv in H as (db & w1 & [-> ->]%get_db_inv & H).
  destruct (_lock_user _ _); [|minv; apply ledger_kept_refl].
  unfold _revoke_active_for_user in H. minv. apply kept_revoke_all.
Qed.

Lemma lookup_deleted (l : list RefreshToken) (m : gmap pystr RefreshToken) i t :
  foldr (fun t m => delete (rt_id t) m) m l !! i = Some t <-> m !! i = Some t /\ i ∉ rt_id <$> l.
Proof.
  induction l as [|x l IH]; simpl; [rewrite elem_of_nil; tauto|].
  rewrite lookup_delete_Some, IH, not_elem_of_cons. intuition congruence.
Qed.

(** A batch deletes its candidates, in one transaction, and counts them. *)
Lemma purge_batch_inv now b w n w' :
  purge_refresh_token_batch env now b w = (Ret n, w') ->
  let at_ := default (w_clock w (w_tick w)) now in
  let l := purge_candidates (w_db w) (at_ - days (se_refresh_token_retention_days (settings env))) b in
  0 < b /\ n = Z.of_nat (length l) /\
  w_db w' = set_a_tokens (foldr (fun t m => delete (rt_id t) m) (a_tokens (w_db w)) l) (w_db w).
Proof.
  intros H. unfold purge_refresh_token_batch in H.
  apply bind_inv in H as (x & w1 & [G ->]%raise_if_inv & H). apply Z.leb_gt in G.
  apply bind_inv in H as (cur & w1 & Hc & H). cbv zeta.
  assert (cur = default (w_clock w (w_tick w)) now /\ w_db w1 = w_db w) as [-> E] by (destruct now; by minv).
  apply bind_inv in H as (db & w2 & [-> ->]%get_db_inv & H). rewrite E in H. clear Hc. split; [done|].
  destruct (purge_candidates _ _ _) eqn:El.
  - minv. split; [done|]. simpl. rewrite E. by destruct (w_db w).
  - minv. split; [done|]. simpl in *. by rewrite E.
Qed.

#[local] Instance validated_read_only raw : ReadOnly (_validated_hash env raw).
Proof. destruct raw; simpl; unfold hash_refresh_token; effects. Qed.
#[local] Instance new_token_read_only v : ReadOnly (_new_refresh_token v).
Proof. unfold _new_refresh_token. effects. Qed.
#[local] Instance ignored_atomic_auth {A} (m : AM A) : Atomic m -> Atomic (m;; mret tt).
Proof.
  intros Hm w e w'. unfold mbind, M_bind. destruct (m w) as [[a|x] w1] eqn:E; [done|].
  intros ?; simplify_eq. by eapply Hm.
Qed.

Lemma atomic_auth_call c :
  match c with ARotate _ _ => True | _ => Atomic (auth_call c) end.
Proof.
  destruct c; simpl; [|done|..]; apply _ || apply ignored_atomic_auth;
    unfold issue, logout, logout_all, logout_stored, purge_refresh_token_batch; effects.
Qed.

Lemma inv_pruned db m : auth_inv db -> m ⊆ a_tokens db -> auth_inv (set_a_tokens m db).
Proof.
  intros I Sub. split; simpl; try apply I.
  - intros i t Ht. eapply I, lookup_weaken; done.
  - eapply unique_prop_subseteq; [exact Sub|apply I].
Qed.

Lemma deleted_subseteq l (m : gmap pystr RefreshToken) : foldr (fun t m => delete (rt_id t) m) m l ⊆ m.
Proof. apply map_subseteq_spec. by intros i t [? _]%lookup_deleted. Qed.

(** Every call keeps the invariant; it changes rows forward, or it is a purge and
    only removes rows. *)
Lemma auth_call_effect c w r w' :
  auth_inv (w_db w) -> auth_call c w = (r, w') ->
  auth_inv (w_db w') /\
  (ledger_kept (w_db w) (w_db w') \/
   a_users (w_db w') = a_users (w_db w) /\ a_tokens (w_db w') ⊆ a_tokens (w_db w)).
Proof.
  intros I H.
  assert (forall db', ledger_kept (w_db w) db' /\ store_ok db' = true -> auth_inv db' /\
    (ledger_kept (w_db w) db' \/ a_users db' = a_users (w_db w) /\ a_tokens db' ⊆ a_tokens (w_db w))) as K
    by (intros db' [L C]; split; [by eapply ledger_kept_inv|by left]).
  assert (w_db w' = w_db w -> auth_inv (w_db w') /\ (ledger_kept (w_db w) (w_db w') \/
    a_users (w_db w') = a_users (w_db w) /\ a_tokens (w_db w') ⊆ a_tokens (w_db w))) as Same
    by (intros ->; split; [done|left; apply ledger_kept_refl]).
  pose proof (atomic_auth_call c) as A. destruct c as [u v|raw v|raw|u|now b]; simpl in H, A.
  - destruct r as [x|e]; [|by apply Same, (A _ _ _ H)].
    apply bind_inv in H as (g & w1 & H & E). minv. by eapply K, issue_kept.
  - unfold rotate in H. unfold mbind, M_bind in H.
    destruct (_validated_hash env raw w) as [[h|e] w1] eqn:Eh.
    + apply validated_hash_inv in Eh as (q & _ & _ & _ & ->).
      destruct (rotate_transaction env h v w) as [[o|e] w2] eqn:Er.
      * assert (w_db w' = w_db w2) as -> by (destruct o; cbn in H; by injection H as _ <-). by eapply K, rotate_kept.
      * simplify_eq. unfold rotate_transaction in Er. apply transaction_raise in Er. by apply Same.
    + simplify_eq. apply Same. pose proof (validated_read_only raw w) as R. by rewrite Eh in R.
  - destruct r as [x|e]; [|by apply Same, (A _ _ _ H)].
    apply bind_inv in H as (n & w1 & H & E). minv. unfold logout in H.
    apply bind_inv in H as (o & w1 & Ho & H).
    assert (w_db w1 = w_db w) as Ew.
    { match type of Ho with ?m w = _ => assert (ReadOnly m) as R by effects; specialize (R w); by rewrite Ho in R end. }
    destruct o as [h|]; [|minv; by apply Same]. rewrite <- Ew in *. by eapply K, logout_stored_kept.
  - destruct r as [x|e]; [|by apply Same, (A _ _ _ H)].
    apply bind_inv in H as (n & w1 & H & E). minv. by eapply K, logout_all_kept.
  - destruct r as [x|e]; [|by apply Same, (A _ _ _ H)].
    apply bind_inv in H as (n & w1 & H & E). minv. apply purge_batch_inv in H as (_ & _ & ->).
    simpl. split; [apply inv_pruned; [done|]|right; split; [done|]]; apply deleted_subseteq.
Qed.

Lemma auth_step_inv db db' : auth_inv db -> auth_step db db' -> auth_inv db'.
Proof.
  intros I H. destruct H as [c w r w' H|db u Hn C]; [by eapply auth_call_effect|].
  apply auth_store_spec in C as [Cu Ct]. split; simpl; try done.
  - intros i x. rewrite lookup_insert_Some. intros [[<- <-]|[_ H]]; [done|by apply I].
  - intros i t Ht. destruct (ai_token _ I _ _ Ht) as [<- Hu]. split; [done|].
    destruct (decide (rt_user_id t = u_id u)) as [->|N]; [by rewrite lookup_insert_eq|].
    by rewrite lookup_insert_ne by done.
Qed.

Lemma auth_steps_inv db db' : auth_inv db -> rtc auth_step db db' -> auth_inv db'.
Proof. intros I H. induction H as [|x y z S _ IH]; [done|]. apply IH. by eapply auth_step_inv. Qed.

Lemma auth_reachable_inv db : auth_reachable db -> auth_inv db.
Proof.
  intros H. eapply auth_steps_inv; [|exact H].
  split; simpl; try (intros ? ? X; by rewrite lookup_empty in X); apply unique_prop_empty.
Qed.

(** No row of the ledger has this digest. *)
Definition forgotten (db : AuthDb) (h : pystr) : Prop :=
  forall i t, a_tokens db !! i = Some t -> rt_token_hash t <> h.

Lemma auth_step_row db db' i t :
  auth_inv db -> auth_step db db' -> a_tokens db !! i = Some t ->
  (exists t', a_tokens db' !! i = Some t' /\ token_le t t') \/ forgotten db' (rt_token_hash t).
Proof.
  intros I S Ht. assert (token_le t t) as Refl by (unfold token_le; tauto).
  destruct S as [c w r w' H|db u Hn C]; [|left; eauto].
  destruct (auth_call_effect _ _ _ _ I H) as [_ [K|[_ Sub]]]; [left; by apply K|].
  destruct (a_tokens (w_db w') !! i) as [t'|] eqn:E.
  - left. exists t'. pose proof (lookup_weaken _ _ _ _ E Sub). split; [done|]. by assert (t' = t) as -> by congruence.
  - right. intros j x Hx Eh. pose proof (lookup_weaken _ _ _ _ Hx Sub) as Hx'.
    assert (j = i) as -> by (by eapply digest_unique). congruence.
Qed.

(** A row moves forward until it is forgotten. *)
Lemma auth_steps_row db db' i t :
  auth_inv db -> rtc auth_step db db' -> a_tokens db !! i = Some t ->
  (exists t', a_tokens db' !! i = Some t' /\ token_le t t') \/
  exists db1, rtc auth_step db db1 /\ rtc auth_step db1 db' /\ forgotten db1 (rt_token_hash t).
Proof.
  intros I H. revert t. induction H as [db|db db1 db2 S H IH]; intros t Ht.
  - left. exists t. unfold token_le. tauto.
  - destruct (auth_step_row _ _ _ _ I S Ht) as [(t1 & H1 & L1)|F].
    + destruct (IH (auth_step_inv _ _ I S) t1 H1) as [(t2 & H2 & L2)|(d & S1 & S2 & F)].
      * left. exists t2. split; [done|by etrans].
      * right. exists d. destruct L1 as (_ & _ & E & _). rewrite E in F.
        split_and!; try done. by eapply rtc_l.
    + right. exists db1. split_and!; try done. by apply rtc_once.
Qed.

(** ** Single use *)

(** The queries find the row with a digest. *)
Lemma digest_found db t :
  auth_inv db -> a_tokens db !! rt_id t = Some t ->
  exists u, a_users db !! rt_user_id t = Some u /\ u_id u = rt_user_id t /\
    _token_user_id db (rt_token_hash t) = Some (rt_user_id t) /\
    _lock_token db (rt_token_hash t) (rt_user_id t) = Some t.
Proof.
  intros I Ht. destruct (ai_token _ I _ _ Ht) as [_ [u Hu]]. exists u. split_and!; [done|by apply I|..].
  - unfold _token_user_id. rewrite (first_where_unique _ _ (rt_id t) t); [done|done|by apply bool_decide_eq_true|].
    intros j y Hy P. bool_to_prop. by eapply digest_unique.
  - apply (first_where_unique _ _ (rt_id t) t); [done|by rewrite !bool_decide_eq_true_2 by done|].
    intros j y Hy P. bool_to_prop. by eapply digest_unique.
Qed.

(** The table after every active token of a user is revoked. *)
Definition revoked_all (user_id : Z) (now : datetime) (db : AuthDb) : AuthDb :=
  set_a_tokens ((fun t => if revokes user_id now t then set_rt_revoked_at (Some now) t else t) <$> a_tokens db) db.

Lemma revoked_all_ok u now db : auth_inv db -> store_ok (revoked_all u now db) = true.
Proof.
  intros I. apply auth_store_spec. split; simpl; [apply I|]. apply unique_prop_fmap; [|apply I].
  intros t. left. by destruct (revokes u now t).
Qed.

Lemma revoked_all_inactive u now db i t :
  a_tokens (revoked_all u now db) !! i = Some t -> rt_user_id t = u -> token_active now t = false.
Proof.
  simpl. rewrite lookup_fmap. intros (t0 & H0 & ->)%fmap_Some Eu.
  destruct (revokes u now t0) eqn:E; [done|]. unfold revokes in E. by rewrite bool_decide_eq_true_2 in E.
Qed.

(** What [rotate] does with a token whose row is revoked. *)
Lemma revoked_rotation raw v w t :
  auth_inv (w_db w) -> a_tokens (w_db w) !! rt_id t = Some t -> is_Some (rt_revoked_at t) ->
  _OPAQUE_REFRESH_TOKEN raw = true -> rt_token_hash t = token_digest raw ->
  exists x w', rotate env (Some raw) v w = (Raise x, w') /\
    if rt_expires_at t <=? w_clock w (w_tick w)
    then x = RefreshTokenRejected EXPIRED /\ w_db w' = w_db w
    else x = RefreshTokenRejected REPLAY /\
         w_db w' = revoked_all (rt_user_id t) (w_clock w (w_tick w)) (w_db w).
Proof.
  intros I Ht Hr Ho Hh. destruct (digest_found _ _ I Ht) as (u & Hu & Eu & F1 & F2). rewrite Hh in F1, F2.
  unfold rotate. rewrite (bind_run _ _ w (token_digest raw) w);
    [|simpl; unfold raise_if; rewrite Ho; simpl; by apply hash_run].
  destruct (rt_expires_at t <=? w_clock w (w_tick w)) eqn:E.
  - eexists _, _. split; [apply bind_raise, transaction_fail|split; reflexivity].
    rewrite (bind_run _ _ w (w_db w) w) by done. rewrite F1. simpl.
    rewrite (bind_run _ _ w (rt_user_id t) w) by done. unfold _lock_user. rewrite Hu, F2.
    rewrite (bind_run _ utcnow w _ _ eq_refl). unfold raise_if. rewrite E. reflexivity.
  - assert (rotate_transaction env (token_digest raw) v w =
      (Ret None, set_w_db (revoked_all (rt_user_id t) (w_clock w (w_tick w)) (w_db w)) (set_w_tick (S (w_tick w)) w))) as Er.
    { apply transaction_run; [|by apply revoked_all_ok].
      rewrite (bind_run _ _ w (w_db w) w) by done. rewrite F1. simpl.
      rewrite (bind_run _ _ w (rt_user_id t) w) by done. unfold _lock_user. rewrite Hu, F2.
      rewrite (bind_run _ utcnow w _ _ eq_refl). unfold raise_if. rewrite E.
      rewrite bool_decide_eq_true_2 by done. by rewrite Eu. }
    rewrite (bind_run _ _ _ _ _ Er). eexists _, _. split; [reflexivity|done].
Qed.

Lemma rotate_inv raw v w g w' :
  rotate env raw v w = (Ret g, w') ->
  exists r, raw = Some r /\ _OPAQUE_REFRESH_TOKEN r = true /\
    rotate_transaction env (token_digest r) v w = (Ret (Some g), w').
Proof.
  unfold rotate. intros H.
  apply bind_inv in H as (h & w1 & (r & -> & Ho & -> & ->)%validated_hash_inv & H).
  apply bind_inv in H as (o & w1 & Hr & H). minv. eauto.
Qed.

(** C31. A refresh token works once: after a rotation that succeeded, whatever calls
    follow, rotating the same token again is rejected - as a replay that revokes
    every active token of its user, or as expired - unless a purge has meanwhile
    removed its row. *)
Theorem refresh_token_is_single_use raw v w g w' v2 w2 :
  auth_reachable (w_db w) -> rotate env (Some raw) v w = (Ret g, w') ->
  rtc auth_step (w_db w') (w_db w2) ->
  (exists x w3, rotate env (Some raw) v2 w2 = (Raise x, w3) /\
     (x = RefreshTokenRejected EXPIRED /\ w_db w3 = w_db w2 \/
      x = RefreshTokenRejected REPLAY /\ exists user_id,
        w_db w3 = revoked_all user_id (w_clock w2 (w_tick w2)) (w_db w2) /\
        exists t, a_tokens (w_db w) !! rt_id t = Some t /\ rt_token_hash t = token_digest raw /\
          rt_user_id t = user_id)) \/
  exists db, rtc auth_step (w_db w') db /\ rtc auth_step db (w_db w2) /\ forgotten db (token_digest raw).
Proof.
  intros R H S. pose proof (auth_reachable_inv _ R) as I.
  apply rotate_inv in H as (r & [= <-] & Ho & H).
  pose proof (rotate_kept _ _ _ _ _ I H) as [K C]. pose proof (ledger_kept_inv _ _ I K C) as I'.
  apply rotate_transaction_inv in H as (t & u & Ht & _ & _ & Hh & _ & _ & _ & _ & _ & _ & _ & id & Hn & Ew); [|done].
  assert (a_tokens (w_db w') !! rt_id t = Some (set_rt_revoked_at (Some (w_clock w (w_tick w))) t)) as Ht'.
  { rewrite Ew. simpl. rewrite lookup_insert_ne by (intros E; simpl in *; congruence). apply lookup_insert_eq. }
  destruct (auth_steps_row _ _ _ _ I' S Ht') as [(t2 & H2 & (Ei & Eu & Eh & _ & X))|F]; [left|right; by rewrite <- Hh].
  simpl in *. rewrite <- Ei in H2.
  destruct (revoked_rotation raw v2 w2 t2) as (x & w3 & Er & P);
    [by eapply auth_steps_inv|done|rewrite X by eauto; eauto|done|congruence|].
  exists x, w3. split; [done|]. destruct (_ <=? _); [by left|right].
  destruct P as [-> ->]. split; [done|]. exists (rt_user_id t2). split; [done|]. exists t. by rewrite Eu.
Qed.

(** A rotation replaces exactly one session: it revokes the row of the token it
    was given, which was active, and adds one row for the token it returns - of the
    same user, with the digest of that token and the full lifetime - and the grant
    names that user; every other row is as it was. *)
Theorem rotation_replaces_one_session raw v w g w' :
  auth_reachable (w_db w) -> rotate env raw v w = (Ret g, w') ->
  let now := w_clock w (w_tick w) in
  exists r t u n, raw = Some r /\ a_tokens (w_db w) !! rt_id t = Some t /\
    rt_token_hash t = token_digest r /\ token_active now t = true /\
    a_users (w_db w) !! rt_user_id t = Some u /\ a_tokens (w_db w) !! rt_id n = None /\
    w_db w' = put_token n (put_token (set_rt_revoked_at (Some now) t) (w_db w)) /\
    rt_user_id n = rt_user_id t /\ rt_token_hash n = token_digest (tg_refresh_token g) /\
    rt_revoked_at n = None /\ rt_expires_at n = now + days (se_refresh_token_expire_days (settings env)) /\
    tg_username g = u_username u /\ tg_role g = u_role u.
Proof.
  intros R H now. pose proof (auth_reachable_inv _ R) as I. apply rotate_inv in H as (r & -> & Ho & H).
  apply rotate_transaction_inv in H as (t & u & Ht & Hu & Etu & Hh & He & _ & Hr & _ & Eg & Eun & Ero & id & Hn & Ew); [|done].
  exists r, t, u, (new_token id (u_id u) v now). rewrite Etu, Eg. split_and!; try done.
  unfold token_active. rewrite bool_decide_eq_true_2 by done. by apply Z.ltb_lt.
Qed.

(** ** A token that is active can be rotated *)

Lemma add_token_run u raw now w :
  _OPAQUE_REFRESH_TOKEN raw = true ->
  a_tokens (w_db w) !! rt_id (new_token (w_uuid w (w_uuid_next w)) u raw now) = None ->
  add_token env u raw now w = (Ret tt, set_w_db (put_token (new_token (w_uuid w (w_uuid_next w)) u raw now) (w_db w))
    (set_w_uuid_next (S (w_uuid_next w)) w)).
Proof.
  intros Ho Hn. unfold add_token. rewrite (bind_run _ uuid4_hex w _ _ eq_refl).
  rewrite (bind_run _ _ _ _ _ (hash_run raw _ Ho)). cbv zeta.
  rewrite (bind_run _ get_db _ _ _ eq_refl). simpl in *. rewrite Hn.
  rewrite bool_decide_eq_false_2 by (by intros []). reflexivity.
Qed.

Lemma rotated_ok db t n now :
  auth_inv db -> a_tokens db !! rt_id t = Some t -> a_tokens db !! rt_id n = None ->
  forgotten db (rt_token_hash n) ->
  store_ok (put_token n (put_token (set_rt_revoked_at (Some now) t) db)) = true.
Proof.
  intros I Ht Hn F. apply auth_store_spec. split; [apply I|]. unfold put_token. simpl.
  apply unique_prop_insert.
  - eapply unique_prop_update; [apply I|exact Ht|by left].
  - intros j y k _ Hy Hk Ek. injection Hk as <-. injection Ek as Ek.
    apply lookup_insert_Some in Hy as [[_ <-]|[_ Hy]]; [by eapply F|by eapply F].
Qed.

(** The rotation of an active token succeeds when the token drawn to replace it is
    well formed and new. *)
Lemma active_rotation raw v w t u :
  let n := new_token (w_uuid w (w_uuid_next w)) (rt_user_id t) v (w_clock w (w_tick w)) in
  auth_inv (w_db w) -> a_tokens (w_db w) !! rt_id t = Some t -> token_active (w_clock w (w_tick w)) t = true ->
  a_users (w_db w) !! rt_user_id t = Some u ->
  _OPAQUE_REFRESH_TOKEN raw = true -> rt_token_hash t = token_digest raw ->
  _OPAQUE_REFRESH_TOKEN v = true -> forgotten (w_db w) (token_digest v) -> a_tokens (w_db w) !! rt_id n = None ->
  exists tok w', rotate env (Some raw) v w = (Ret (mkTokenGrant tok v (u_username u) (u_role u)), w') /\
    w_db w' = put_token n (put_token (set_rt_revoked_at (Some (w_clock w (w_tick w))) t) (w_db w)).
Proof.
  intros n I Ht Ha Hu Ho Hh Hv F Hn. unfold token_active in Ha. bool_to_prop.
  destruct (digest_found _ _ I Ht) as (u' & Hu' & Eu & F1 & F2). assert (u' = u) as -> by congruence.
  rewrite Hh in F1, F2. unfold rotate. rewrite (bind_run _ _ w (token_digest raw) w);
    [|simpl; unfold raise_if; rewrite Ho; simpl; by apply hash_run].
  assert (exists tok w', rotate_transaction env (token_digest raw) v w =
    (Ret (Some (mkTokenGrant tok v (u_username u) (u_role u))), w') /\
    w_db w' = put_token n (put_token (set_rt_revoked_at (Some (w_clock w (w_tick w))) t) (w_db w)))
    as (tok & w' & Er & Ew); [|exists tok, w'; by rewrite (bind_run _ _ _ _ _ Er)].
  eexists _, _. split; [apply transaction_run|].
  - rewrite (bind_run _ _ w (w_db w) w) by done. rewrite F1. simpl.
    rewrite (bind_run _ _ w (rt_user_id t) w) by done. unfold _lock_user. rewrite Hu, F2.
    rewrite (bind_run _ utcnow w _ _ eq_refl). unfold raise_if at 1. rewrite (proj2 (Z.leb_gt _ _)) by done.
    match goal with E : rt_revoked_at t = None |- _ => rewrite E end.
    rewrite bool_decide_eq_false_2 by (by intros []).
    rewrite (bind_run _ (mret tt) _ tt _ eq_refl). rewrite (bind_run _ _ _ _ _ (new_token_run v _ Hv)).
    rewrite (bind_run _ (modify_db _) _ _ _ eq_refl). rewrite Eu.
    erewrite bind_run; [|apply add_token_run; [done|]].
    + rewrite (bind_run _ (create_access_token _ _ _ _) _ _ _ eq_refl). reflexivity.
    + simpl. rewrite lookup_insert_ne; [exact Hn|]. intros E. simpl in *. rewrite <- E in Hn. congruence.
  - by apply rotated_ok.
  - done.
Qed.

(** The refresh token of a grant is honoured: presented before it expires, with
    a well-formed and new token drawn to replace it, it is rotated, and the new
    grant names the same user. *)
Theorem issued_token_can_be_rotated u v w g w' v2 w2 :
  auth_reachable (w_db w) -> issue env u v w = (Ret g, w') -> w_db w2 = w_db w' ->
  w_clock w2 (w_tick w2) < w_clock w (w_tick w) + days (se_refresh_token_expire_days (settings env)) ->
  _OPAQUE_REFRESH_TOKEN v2 = true -> forgotten (w_db w2) (token_digest v2) ->
  a_tokens (w_db w2) !! ("refresh_"%py +++ w_uuid w2 (w_uuid_next w2))%py = None ->
  exists g2 w3, rotate env (Some (tg_refresh_token g)) v2 w2 = (Ret g2, w3) /\
    tg_username g2 = tg_username g /\ tg_role g2 = tg_role g /\ tg_refresh_token g2 = v2.
Proof.
  intros R H E Hc Ho F Hn. pose proof (auth_reachable_inv _ R) as I.
  pose proof (issue_kept _ _ _ _ _ I H) as [K C]. pose proof (ledger_kept_inv _ _ I K C) as I'.
  apply issue_inv in H as (us & id & Hu & _ & Hv & _ & Ew & _ & -> & -> & ->); [|done].
  rewrite <- E in *. rewrite E in Ew.
  destruct (active_rotation v v2 w2 (new_token id u v (w_clock w (w_tick w))) us) as (tok & w3 & Er & _); try done.
  - rewrite E, Ew. apply lookup_insert_eq.
  - unfold token_active. rewrite bool_decide_eq_true_2 by done. by apply Z.ltb_lt.
  - by rewrite E, Ew.
  - eexists _, _. split; [exact Er|done].
Qed.

(** ** Retention *)

Lemma deleted_size (l : list RefreshToken) (m : gmap pystr RefreshToken) :
  NoDup (rt_id <$> l) -> (forall t, t ∈ l -> is_Some (m !! rt_id t)) ->
  (size (foldr (fun t m => delete (rt_id t) m) m l) + length l = size m)%nat.
Proof.
  induction l as [|x l IH]; simpl; intros N P; [lia|]. apply NoDup_cons in N as [Nx N].
  destruct (P x ltac:(left)) as [y Hy].
  assert (foldr (fun t m => delete (rt_id t) m) m l !! rt_id x = Some y) as Hx by by apply lookup_deleted.
  rewrite map_size_delete_Some by eauto. specialize (IH N ltac:(intros; apply P; by right)).
  enough (0 < size (foldr (fun t m => delete (rt_id t) m) m l))%nat by lia.
  apply Nat.neq_0_lt_0. rewrite map_size_ne_0_lookup. by exists (rt_id x), y.
Qed.

Lemma candidates_spec db cutoff b :
  auth_inv db ->
  let l := purge_candidates db cutoff b in
  NoDup (rt_id <$> l) /\
  (forall t, t ∈ l -> a_tokens db !! rt_id t = Some t /\ rt_expires_at t <= cutoff) /\
  (Z.of_nat (length l) <= Z.max 0 b) /\
  (Z.of_nat (length l) < b -> forall i t, a_tokens db !! i = Some t -> rt_expires_at t <= cutoff -> t ∈ l).
Proof.
  intros I l. unfold l, purge_candidates. clear l.
  set (p := fun t => rt_expires_at t <=? cutoff). set (o := order_by_keys purge_key (rows_where p (a_tokens db))).
  assert (o ≡ₚ rows_where p (a_tokens db)) as Po by apply order_by_keys_perm.
  assert (forall t, t ∈ o <-> exists i, a_tokens db !! i = Some t /\ p t = true) as Eo
    by (intros t; rewrite Po; apply elem_of_rows_where).
  assert (NoDup (rt_id <$> o)) as N.
  { rewrite Po. apply rows_where_NoDup. intros i j x y Hx Hy _ _ E.
    by rewrite <- (proj1 (ai_token _ I _ _ Hx)), <- (proj1 (ai_token _ I _ _ Hy)). }
  split_and!.
  - rewrite fmap_take. eapply sublist_NoDup; [exact N|]. apply sublist_take.
  - intros t Ht. eapply elem_of_take in Ht as (k & Ht & _). apply list_elem_of_lookup_2 in Ht.
    apply Eo in Ht as (i & Hi & Hp). split; [by rewrite (proj1 (ai_token _ I _ _ Hi))|by apply Z.leb_le].
  - rewrite length_take. lia.
  - rewrite length_take. intros Hl i t Hi Hp. rewrite take_ge by lia. apply Eo. exists i.
    split; [done|by apply Z.leb_le].
Qed.

Lemma purge_batch_run b w :
  auth_inv (w_db w) -> 0 < b -> let now := w_clock w (w_tick w) in
  exists n w', purge_refresh_token_batch env None b w = (Ret n, w') /\ auth_inv (w_db w') /\
    w_clock w' = w_clock w /\ w_tick w' = S (w_tick w).
Proof.
  intros I Hb now. unfold purge_refresh_token_batch. unfold raise_if. rewrite (proj2 (Z.leb_gt _ _)) by done.
  rewrite (bind_run _ (mret tt) w _ _ eq_refl). rewrite (bind_run _ utcnow w _ _ eq_refl). cbv zeta.
  rewrite (bind_run _ get_db _ _ _ eq_refl). simpl.
  destruct (purge_candidates _ _ _) as [|x l] eqn:El; [eexists _, _; by split_and!|].
  set (db' := set_a_tokens (foldr (fun t m => delete (rt_id t) m) (a_tokens (w_db w)) (x :: l)) (w_db w)).
  assert (auth_inv db') as I' by apply (inv_pruned _ _ I), deleted_subseteq.
  eexists _, (set_w_db db' (set_w_tick (S (w_tick w)) w)). split; [apply transaction_run; [reflexivity|]|done].
  apply auth_store_spec. split; apply I'.
Qed.

(** Rows removed between two worlds: [n] of them, each past its retention at a clock
    reading in between. *)
Definition purged (w w' : WorldOf AuthDb) (n : Z) : Prop :=
  a_users (w_db w') = a_users (w_db w) /\ a_tokens (w_db w') ⊆ a_tokens (w_db w) /\
  Z.of_nat (size (a_tokens (w_db w))) = Z.of_nat (size (a_tokens (w_db w'))) + n /\
  forall i t, a_tokens (w_db w) !! i = Some t -> a_tokens (w_db w') !! i = None ->
    exists k, (w_tick w <= k < w_tick w')%nat /\
      rt_expires_at t + days (se_refresh_token_retention_days (settings env)) <= w_clock w k.

(** No row is past its retention at an instant. *)
Definition none_due (db : AuthDb) (now : datetime) : Prop :=
  forall i t, a_tokens db !! i = Some t -> now < rt_expires_at t + days (se_refresh_token_retention_days (settings env)).

Lemma purge_batch_spec b w :
  auth_inv (w_db w) -> 0 < b ->
  exists n w', purge_refresh_token_batch env None b w = (Ret n, w') /\ auth_inv (w_db w') /\
    w_clock w' = w_clock w /\ w_tick w' = S (w_tick w) /\ 0 <= n <= b /\ purged w w' n /\
    (n < b -> none_due (w_db w') (w_clock w (w_tick w))).
Proof.
  intros I Hb. destruct (purge_batch_run b w I Hb) as (n & w' & E & I' & Ec & Et). exists n, w'.
  apply purge_batch_inv in E as Hi. destruct Hi as (_ & En & Ew). simpl in En, Ew.
  destruct (candidates_spec (w_db w) (w_clock w (w_tick w) - days (se_refresh_token_retention_days (settings env))) b I)
    as (N & P & L & F).
  set (l := purge_candidates _ _ _) in *.
  assert (a_tokens (w_db w') = foldr (fun t m => delete (rt_id t) m) (a_tokens (w_db w)) l) as Em by by rewrite Ew.
  split_and!; try done; try lia.
  - unfold purged. rewrite Em. split_and!; [by rewrite Ew|apply deleted_subseteq| |].
    + rewrite <- (deleted_size l (a_tokens (w_db w)) N) by (intros t Ht; rewrite (proj1 (P t Ht)); eauto). lia.
    + intros i t Ht Hn. exists (w_tick w). split; [lia|].
      destruct (decide (i ∈ rt_id <$> l)) as [Hi|Hi].
      * apply list_elem_of_fmap in Hi as (t' & -> & Hl). destruct (P _ Hl) as [Ht' ?].
        assert (t' = t) as -> by congruence. lia.
      * rewrite (proj2 (lookup_deleted l (a_tokens (w_db w)) i t) (conj Ht Hi)) in Hn. done.
  - intros Hn i t. rewrite Em, lookup_deleted. intros [Ht Hi]. apply Z.nle_gt. intros Hle. apply Hi.
    apply list_elem_of_fmap. exists t. split; [symmetry; apply (ai_token _ I _ _ Ht)|]. eapply F; [lia|exact Ht|lia].
Qed.

Lemma purged_trans w1 w2 w3 n m :
  w_clock w2 = w_clock w1 -> (w_tick w1 <= w_tick w2 <= w_tick w3)%nat ->
  purged w1 w2 n -> purged w2 w3 m -> purged w1 w3 (n + m).
Proof.
  intros Ec Ht (U1 & S1 & Z1 & P1) (U2 & S2 & Z2 & P2). unfold purged.
  split_and!; [congruence|by etrans|lia|]. intros i t H1 H3.
  destruct (a_tokens (w_db w2) !! i) as [t2|] eqn:E.
  - pose proof (lookup_weaken _ _ _ _ E S1). assert (t2 = t) as -> by congruence.
    destruct (P2 _ _ E H3) as (k & Hk & Hl). rewrite Ec in Hl. exists k. split; [lia|done].
  - destruct (P1 _ _ H1 E) as (k & Hk & Hl). exists k. split; [lia|done].
Qed.

Lemma purge_batches_spec k b total w :
  auth_inv (w_db w) -> 0 < b ->
  exists n w', purge_batches env k b total w = (Ret (total + n), w') /\ w_clock w' = w_clock w /\
    (w_tick w <= w_tick w')%nat /\ 0 <= n <= b * Z.of_nat k /\ purged w w' n /\
    (n < b * Z.of_nat k -> none_due (w_db w') (w_clock w (pred (w_tick w')))).
Proof.
  intros I Hb. revert w total I. induction k as [|k IH]; intros w total I.
  - exists 0, w. rewrite Z.add_0_r. split_and!; try done; try lia. unfold purged.
    split_and!; try done; [lia|congruence].
  - destruct (purge_batch_spec b w I Hb) as (n & w1 & E1 & I1 & Ec & Et & Hn & P1 & D1).
    cbn [purge_batches]. rewrite (bind_run _ _ _ _ _ E1). destruct (n <? b) eqn:B; bool_to_prop.
    + exists n, w1. split_and!; try done; try nia. intros _. rewrite Et. by apply D1.
    + destruct (IH w1 (total + n) I1) as (m & w2 & E2 & Ec2 & Et2 & Hm & P2 & D2).
      exists (n + m), w2. split_and!; try lia; [by rewrite E2, Z.add_assoc|congruence|..].
      * apply (purged_trans w w1 w2); try done. lia.
      * intros Hlt. rewrite <- Ec. apply D2. lia.
Qed.

(** The scheduled cleanup of the ledger always returns; it removes as many rows
    as it reports, at most the batches allow, and only rows whose token had expired
    a full retention period before - so the evidence that detects a replay outlives
    the token; when it reports fewer than the batches allow, no row that is due is
    left. *)
Theorem cleanup_keeps_replay_evidence b m w :
  auth_reachable (w_db w) -> 0 < b -> 0 < m ->
  exists n w', purge_main env b m w = (Ret n, w') /\ 0 <= n <= b * m /\ purged w w' n /\
    (n < b * m -> none_due (w_db w') (w_clock w (pred (w_tick w')))).
Proof.
  intros R Hb Hm. destruct (purge_batches_spec (Z.to_nat m) b 0 w (auth_reachable_inv _ R) Hb)
    as (n & w' & E & _ & _ & Hn & P & D).
  rewrite Z2Nat.id in Hn, D by lia. exists n, w'. split_and!; try done; try lia.
  unfold purge_main, raise_if. rewrite (proj2 (Z.leb_gt b 0)), (proj2 (Z.leb_gt m 0)) by done. exact E.
Qed.

(** ** Logging out everywhere *)

(** Logging out everywhere ends every session of the user and of nobody else: it
    returns the number of tokens of the user that were active, afterwards none is,
    and the rows of other users and rows that were not active are as they were. *)
Theorem logout_all_ends_sessions u w us :
  auth_reachable (w_db w) -> a_users (w_db w) !! u = Some us ->
  let now := w_clock w (w_tick w) in
  exists w', logout_all u w = (Ret (Z.of_nat (length (rows_where (revokes u now) (a_tokens (w_db w))))), w') /\
    (forall i t, a_tokens (w_db w') !! i = Some t -> rt_user_id t = u -> token_active now t = false) /\
    (forall i t, a_tokens (w_db w) !! i = Some t -> revokes u now t = false -> a_tokens (w_db w') !! i = Some t).
Proof.
  intros R Hu now. pose proof (auth_reachable_inv _ R) as I.
  exists (set_w_db (revoked_all u now (w_db w)) (set_w_tick (S (w_tick w)) w)). split_and!.
  - unfold logout_all. apply transaction_run; [|by apply revoked_all_ok].
    rewrite (bind_run _ get_db w _ _ eq_refl). unfold _lock_user. by rewrite Hu.
  - intros i t. apply revoked_all_inactive.
  - intros i t Ht Hr. simpl. rewrite lookup_fmap, Ht. simpl. by rewrite Hr.
Qed.

(** ** Access tokens *)

(** What [jwt] documents: decoding a token encoded under the same key and algorithm,
    before it expires, returns the claims that were encoded. *)
Definition jwt_law : Prop :=
  forall p key alg now, now < ap_exp p -> exists fields,
    ae_jwt_decode env (ae_jwt_encode env p key alg) key alg now = Some fields /\
    obj_get "sub"%py fields = Some (JStr (ap_sub p)) /\ obj_get "role"%py fields = Some (JStr (ap_role p)) /\
    obj_get "jti"%py fields = Some (JStr (ap_jti p)).

(** The hexadecimal form of a UUID. *)
Definition uuid_hex (s : pystr) : bool := forallb hex_char (cps_of s) && (py_len s =? 32).

(** An access token opens what it was issued for: until it expires, decoding it
    gives back the user name and role it was created with, given the codec's
    documented round trip and UUIDs of 32 hexadecimal digits. *)
Theorem access_token_roundtrip name role now w now' :
  jwt_law -> uuid_hex (w_uuid w (w_uuid_next w)) = true -> py_nonempty name = true ->
  now' < now + minutes (se_access_token_expire_minutes (settings env)) ->
  exists tok w', create_access_token env name role now w = (Ret tok, w') /\ w_db w' = w_db w /\
    decode_access_token env tok now' = Some (mkAccessTokenClaims name role) /\
    resolve_access_token_subject env tok now' = Some name.
Proof.
  intros L U Nn Ht. eexists _, _. split; [reflexivity|]. split; [done|].
  unfold resolve_access_token_subject, decode_access_token.
  destruct (L (mkAccessPayload name role now (now + minutes (se_access_token_expire_minutes (settings env)))
    ("access_"%py +++ w_uuid w (w_uuid_next w))%py) (se_jwt_secret_key (settings env))
    (se_jwt_algorithm (settings env)) now') as (fields & -> & E1 & E2 & E3); [done|].
  simpl in *. rewrite E1, E2, E3, Nn. simpl.
  assert (_ACCESS_JTI ("access_"%py +++ w_uuid w (w_uuid_next w))%py = true) as ->; [|done].
  unfold _ACCESS_JTI, uuid_hex, py_len, py_take in *. destruct (w_uuid w (w_uuid_next w)) as [l].
  apply andb_true_iff in U as [U1 U2]. bool_to_prop.
  assert (cps_of ("access_"%py +++ PyStr l)%py = cps_of "access_"%py ++ l) as -> by done.
  rewrite take_app_length', drop_app_length' by done. rewrite bool_decide_eq_true_2 by done.
  simpl in U1. rewrite U1. apply Z.eqb_eq. rewrite length_app. simpl in U2. rewrite Nat2Z.inj_add, U2. done.
Qed.
End auth_props.

(** ** Concrete ledgers *)

Definition ax_encode (p : AccessPayload) (key alg : pystr) : pystr :=
  PyStr (N.of_nat (length (cps_of (ap_sub p))) :: N.of_nat (length (cps_of (ap_role p))) ::
         cps_of (ap_sub p) ++ cps_of (ap_role p) ++ cps_of (ap_jti p)).

Definition ax_decode (token key alg : pystr) (now : datetime) : option (list (pystr * json)) :=
  match cps_of token with
  | a :: b :: l =>
      let m := drop (N.to_nat a) l in
      Some [("sub"%py, JStr (PyStr (take (N.to_nat a) l)));
            ("role"%py, JStr (PyStr (take (N.to_nat b) m)));
            ("jti"%py, JStr (PyStr (drop (N.to_nat b) m)))]
  | _ => None
  end.

Definition ax_env : AuthEnv :=
  mkAuthEnv (mkSecuritySettings 30 7 15 "secret"%py "HS256"%py) PyStr ax_encode ax_decode.

Definition ax_user : User := mkUser 1 "ann"%py "hash"%py "user"%py 0.
Definition ax_db : AuthDb := mkAuthDb {[1 := ax_user]} ∅.
Definition ax_world : WorldOf AuthDb :=
  mkWorld ax_db (fun n => seconds (Z.of_nat n)) 0 (fun n => PyStr (replicate 31 48%N ++ [48 + N.of_nat n]%N)) 0.

(** The [n]-th token the factory draws. *)
Definition ax_token (n : N) : pystr := PyStr (replicate 64 (65 + n)%N).

Lemma ax_reachable : auth_reachable ax_env ax_db.
Proof.
  apply rtc_once. assert (ax_db = mkAuthDb (<[u_id ax_user := ax_user]> ∅) ∅) as -> by reflexivity.
  apply (auth_step_user ax_env (mkAuthDb ∅ ∅) ax_user); by vm_compute.
Qed.

Lemma ax_jwt_law : jwt_law ax_env.
Proof.
  intros p key alg now _. eexists. split; [reflexivity|]. destruct p as [[s] [r] i e [j]]. simpl.
  rewrite !Nat2N.id, !drop_app_length, !take_app_length. done.
Qed.

(** The result of a run that succeeds. *)
Definition granted {A} (p : outcome A * WorldOf AuthDb)
    (H : match p.1 with Ret _ => true | Raise _ => false end = true) : { a & { w | p = (Ret a, w) } }.
Proof. destruct p as [[a|e] w]; [by exists a, w|done]. Defined.

Definition ax_issue : outcome TokenGrant * WorldOf AuthDb := issue ax_env 1 (ax_token 0) ax_world.
Definition ax_rotate : outcome TokenGrant * WorldOf AuthDb :=
  rotate ax_env (Some (ax_token 0)) (ax_token 1) ax_issue.2.

Lemma ax_issue_reachable : auth_reachable ax_env (w_db ax_issue.2).
Proof.
  apply (rtc_r _ ax_db); [apply ax_reachable|].
  apply (auth_step_call ax_env (AIssue 1 (ax_token 0)) ax_world (Ret tt)). by vm_compute.
Qed.

Lemma refresh_token_is_single_use_witness :
  exists g w' x w3, ax_rotate = (Ret g, w') /\ rotate ax_env (Some (ax_token 0)) (ax_token 2) w' = (Raise x, w3).
Proof.
  destruct (granted ax_rotate ltac:(by vm_compute)) as (g & w' & E).
  destruct (refresh_token_is_single_use ax_env (ax_token 0) (ax_token 1) ax_issue.2 g w' (ax_token 2) w'
    ax_issue_reachable E (rtc_refl _ _)) as [(x & w3 & Hx & _)|(db & S1 & S2 & F)].
  - exists g, w', x, w3. exact (conj E Hx).
  - assert (match (rotate ax_env (Some (ax_token 0)) (ax_token 2) ax_rotate.2).1 with Raise _ => true | _ => false end
      = true) as H by (by vm_compute).
    rewrite E in H. simpl in H.
    destruct (rotate ax_env (Some (ax_token 0)) (ax_token 2) w') as [[g2|x] w3] eqn:E2; [done|].
    exists g, w', x, w3. exact (conj E E2).
Defined.

Lemma rotation_replaces_one_session_witness :
  exists g w' t n, ax_rotate = (Ret g, w') /\ rt_user_id n = rt_user_id t /\
    rt_token_hash n = token_digest ax_env (tg_refresh_token g).
Proof.
  destruct (granted ax_rotate ltac:(by vm_compute)) as (g & w' & E).
  destruct (rotation_replaces_one_session ax_env (Some (ax_token 0)) (ax_token 1) ax_issue.2 g w'
    ax_issue_reachable E) as (r & t & u & n & _ & _ & _ & _ & _ & _ & _ & H1 & H2 & _).
  exists g, w', t, n. exact (conj E (conj H1 H2)).
Defined.

Lemma issued_token_can_be_rotated_witness :
  exists g w' g2 w3, ax_issue = (Ret g, w') /\ rotate ax_env (Some (tg_refresh_token g)) (ax_token 1) w' = (Ret g2, w3) /\
    tg_username g2 = tg_username g.
Proof.
  assert (forallb (fun kv => negb (bool_decide (rt_token_hash kv.2 = token_digest ax_env (ax_token 1))))
    (map_to_list (a_tokens (w_db ax_issue.2))) = true) as F by (by vm_compute).
  assert (a_tokens (w_db ax_issue.2) !! ("refresh_"%py +++ w_uuid ax_issue.2 (w_uuid_next ax_issue.2))%py = None) as N
    by (by vm_compute).
  assert (w_clock ax_issue.2 (w_tick ax_issue.2) < w_clock ax_world (w_tick ax_world) +
    days (se_refresh_token_expire_days (settings ax_env))) as T by (by vm_compute).
  destruct (granted ax_issue ltac:(by vm_compute)) as (g & w' & E). rewrite E in F, N, T. simpl in F, N, T.
  destruct (issued_token_can_be_rotated ax_env 1 (ax_token 0) ax_world g w' (ax_token 1) w' ax_reachable E eq_refl T
    ltac:(by vm_compute)) as (g2 & w3 & H & Hu & _).
  - intros i t Ht. rewrite forallb_forall in F. specialize (F (i, t)). simpl in F. intros Eh.
    rewrite bool_decide_eq_true_2 in F by done. discriminate F. by apply list_elem_of_In, elem_of_map_to_list.
  - exact N.
  - exists g, w', g2, w3. exact (conj E (conj H Hu)).
Defined.

Lemma cleanup_keeps_replay_evidence_witness :
  exists n w', purge_main ax_env 10 2 ax_issue.2 = (Ret n, w') /\ 0 <= n <= 10 * 2.
Proof.
  destruct (cleanup_keeps_replay_evidence ax_env 10 2 ax_issue.2 ax_issue_reachable ltac:(lia) ltac:(lia))
    as (n & w' & H & Hn & _).
  exists n, w'. exact (conj H Hn).
Defined.

Lemma logout_all_ends_sessions_witness :
  exists n w', logout_all 1 ax_issue.2 = (Ret n, w').
Proof.
  destruct (logout_all_ends_sessions ax_env 1 ax_issue.2 ax_user ax_issue_reachable ltac:(by vm_compute))
    as (w' & H & _).
  eexists _, w'. exact H.
Defined.

Lemma access_token_roundtrip_witness :
  exists tok w', create_access_token ax_env "ann"%py "user"%py 0 ax_world = (Ret tok, w') /\
    decode_access_token ax_env tok 5 = Some (mkAccessTokenClaims "ann"%py "user"%py).
Proof.
  destruct (access_token_roundtrip ax_env "ann"%py "user"%py 0 ax_world 5 ax_jwt_law ltac:(by vm_compute)
    ltac:(by vm_compute) ltac:(by vm_compute)) as (tok & w' & H1 & _ & H2 & _).
  exists tok, w'. exact (conj H1 H2).
Defined.
