(* ===== verification/Execution.v ===== *)
(** * Cancellation and execution of a run

    [backend/runs/cancellation.py]: the cancellation token of a run with the
    priorities of its reasons, the registry of the tokens of a process, and
    [RunExecutionManager.execute], which turns what the runner did into the end of
    the run. Tokens are shared objects: the registry maps a run to the address of
    its token. Other tasks act on the database and on the token while the runner
    works, so [execute] is given the state of the token when the runner ends.

    The writes of [execute] run in threads ([asyncio.to_thread]). Cancelling the task
    that awaits one raises at once, while the thread is dropped if it has not started
    and otherwise goes on by itself: its transaction commits before, during or after
    the exception handler. [Interruption] says when a cancellation meets the
    completion of the run, and what becomes of the thread; [again] says the same of
    the write of the handler itself. *)

From S2P Require Import Prelude PyBase Errors RunState Schema Session Effects Journal RunRepo RunService.

Open Scope Z_scope.

(** ** Tokens *)

Inductive CancellationReason := SHUTDOWN | USER | OWNERSHIP_LOST.

#[export] Instance CancellationReason_eq_dec : EqDecision CancellationReason.
Proof. solve_decision. Defined.

Definition _CANCELLATION_REASON_PRIORITY (r : CancellationReason) : Z :=
  match r with SHUTDOWN => 0 | USER => 1 | OWNERSHIP_LOST => 2 end.

Record CancellationToken := mkCancellationToken {
  ct_run_id : pystr;
  ct_event : bool;
  ct_partial_chunks : list pystr;
  ct_reason : option CancellationReason
}.

Definition cancelled (t : CancellationToken) : bool := ct_event t.

(** ["".join(chunks)] *)
Definition partial_content (t : CancellationToken) : pystr := py_join ""%py (ct_partial_chunks t).

Definition append_partial (content : pystr) (t : CancellationToken) : CancellationToken :=
  if py_nonempty content
  then mkCancellationToken (ct_run_id t) (ct_event t) (ct_partial_chunks t ++ [content]) (ct_reason t)
  else t.

(** [CancellationToken.request] *)
Definition token_request (reason : CancellationReason) (t : CancellationToken) : CancellationToken :=
  let current_priority :=
    match ct_reason t with Some r => _CANCELLATION_REASON_PRIORITY r | None => -1 end in
  let r := if current_priority <? _CANCELLATION_REASON_PRIORITY reason then Some reason else ct_reason t in
  mkCancellationToken (ct_run_id t) true (ct_partial_chunks t) r.

(** [CancellationToken.checkpoint] *)
Definition checkpoint (t : CancellationToken) : M unit := raise_if (ct_event t) ECancelled.

(** ** The registry *)

(** A task is named by a number. *)
Record Registration := mkRegistration {
  rg_token : nat;
  rg_task : option nat
}.

Record CancellationRegistry := mkCancellationRegistry {
  cr_tokens : gmap nat CancellationToken;
  cr_registrations : gmap pystr Registration;
  cr_next : nat
}.

Definition set_token (a : nat) (f : CancellationToken -> CancellationToken) (g : CancellationRegistry) :
    CancellationRegistry :=
  mkCancellationRegistry (alter f a (cr_tokens g)) (cr_registrations g) (cr_next g).
Definition set_registrations (m : gmap pystr Registration) (g : CancellationRegistry) : CancellationRegistry :=
  mkCancellationRegistry (cr_tokens g) m (cr_next g).

(** [register(run_id, task)]: the address of the run's token. [requested] is the
    answer of the transport, false as well when there is none or it fails. *)
Definition register (run_id : pystr) (task : option nat) (requested : bool) (g : CancellationRegistry) :
    nat * CancellationRegistry :=
  let '(a, g) :=
    match cr_registrations g !! run_id with
    | None =>
        let a := cr_next g in
        (a, mkCancellationRegistry (<[a := mkCancellationToken run_id false [] None]> (cr_tokens g))
              (<[run_id := mkRegistration a task]> (cr_registrations g)) (S a))
    | Some reg =>
        (rg_token reg,
         match task with
         | Some _ => set_registrations (<[run_id := mkRegistration (rg_token reg) task]> (cr_registrations g)) g
         | None => g
         end)
    end in
  (a, if requested then set_token a (token_request USER) g else g).

Definition unregister (run_id : pystr) (g : CancellationRegistry) : CancellationRegistry :=
  set_registrations (delete run_id (cr_registrations g)) g.

(** [cancel_local]: whether the run is registered, and the task that is cancelled. *)
Definition cancel_local (run_id : pystr) (reason : CancellationReason) (g : CancellationRegistry) :
    bool * option nat * CancellationRegistry :=
  match cr_registrations g !! run_id with
  | None => (false, None, g)
  | Some reg => (true, rg_task reg, set_token (rg_token reg) (token_request reason) g)
  end.

(** [request_cancel]: locally, then [propagated] to the transport. *)
Definition registry_request_cancel (run_id : pystr) (propagate has_transport : bool) (g : CancellationRegistry) :
    bool * option nat * CancellationRegistry * bool :=
  let '(local, task, g) := cancel_local run_id USER g in
  (local, task, g, propagate && has_transport).

(** ** Execution *)

Inductive OutcomeKind := OCompleted | OWaitingInput.

Record RunExecutionOutcome := mkRunExecutionOutcome {
  eo_kind : OutcomeKind;
  eo_content : pystr;
  eo_rag_trace : option json;
  eo_fencing_token : option Z
}.

(** What a runner returns: text, or an outcome. *)
Inductive RunnerValue :=
| VText (content : pystr)
| VOutcome (o : RunExecutionOutcome).

Record RunLease := mkRunLease {
  rl_id : pystr;
  rl_fencing_token : Z
}.

Definition outcome_of (v : RunnerValue) : RunExecutionOutcome :=
  match v with
  | VText s => mkRunExecutionOutcome OCompleted s None None
  | VOutcome o => o
  end.

Section Execution.
(** The public error of an exception of a provider, of the model budget or of the
    HTTP framework; [None] for any other. *)
Context (foreign_error : exn -> option PublicError).

(** [public_error_from_exception(exc, fallback=...)] *)
Definition exception_public_error (e : exn) (fallback : PublicError) : PublicError :=
  match foreign_error e with
  | Some p => p
  | None => match e with EApp a => public_error_from_exception a | _ => fallback end
  end.

Definition user_cancelled_error : PublicError :=
  public_error (error_code_value RUN_CANCELLED) "运行已由用户取消。"%py 409 false
    (Some "run"%py) (Some "cancellation"%py) None None [].
Definition interrupted_error : PublicError :=
  public_error (error_code_value RUN_INTERRUPTED) "运行因服务重启而中断。"%py 503 true
    (Some "run"%py) (Some "shutdown"%py) None None [].
Definition execution_failed_error : PublicError :=
  public_error (error_code_value RUN_EXECUTION_FAILED) "运行失败，请稍后重试。"%py 500 true
    (Some "run"%py) (Some "execution"%py) None None [].

(** [_ignore_conflict_if_terminal] *)
Definition _ignore_conflict_if_terminal (rid : pystr) (a : AppError) : M unit :=
  raise_if (negb (bool_decide (ae_code a = RUN_STATE_CONFLICT))) (EApp a);;
  current ← get_internal rid;
  raise_if (negb (is_terminal (rr_status current))) (EApp a).

(** A waiting outcome needs the pause the runner committed. *)
Definition accept_waiting (rid : pystr) : M unit :=
  current ← get_internal rid;
  durable_pause ← has_durable_checkpoint rid;
  raise_if (negb (bool_decide (rr_status current = WAITING_INPUT) || bool_decide (rr_status current = PENDING)
                  || bool_decide (rr_status current = RUNNING)) || negb durable_pause)
    (ERuntime "waiting_input outcome requires a durable checkpoint transition"%py).

(** The thread whose awaiting task is cancelled has not started and never will, or its
    transaction commits before that of the handler, between the handler's transaction
    and its check of a conflict, or after the handler. *)
Inductive Race := NotStarted | BeforeHandler | WithinHandler | AfterHandler.

(** A cancellation that arrives while the end of the runner is being stored, with the
    token as the handler finds it. *)
Record Interruption := mkInterruption { it_token : CancellationToken; it_race : Race }.

(** How the body of the [try] ends: it returns, it raises, or it is interrupted and
    leaves a thread behind. *)
Inductive BodyEnd :=
| Returned
| Raised (e : exn)
| Interrupted (i : Interruption) (thread : M unit).

(** A thread nobody awaits: its outcome is dropped. *)
Definition unawaited (m : M unit) : M unit := catch m (fun _ => mret tt).

(** The write of the handler: [again] is [None] when the task is not cancelled again
    while it awaits the thread, otherwise it tells whether the thread still runs. *)
Definition in_thread (again : option bool) (m : M unit) : M unit :=
  match again with
  | None => m
  | Some runs => (if (runs : bool) then unawaited m else mret tt);; raise ECancelled
  end.

Definition completion (run : RunLease) (o : RunExecutionOutcome) : M unit :=
  complete_run (rl_id run) (eo_content o)
    (Some (or_int (eo_fencing_token o) (rl_fencing_token run))) 0 0 decimal_zero (eo_rag_trace o);;
  mret tt.

(** The body of the [try]. *)
Definition run_body (run : RunLease) (before after : CancellationToken) (runner : M RunnerValue)
    (interruption : option Interruption) : M BodyEnd :=
  checkpoint before;;
  value ← runner;
  checkpoint after;;
  let o := outcome_of value in
  match interruption, eo_kind o with
  | None, OWaitingInput => accept_waiting (rl_id run);; mret Returned
  | None, OCompleted => completion run o;; mret Returned
  | Some i, OWaitingInput => mret (Interrupted i (mret tt))
  | Some i, OCompleted => mret (Interrupted i (unawaited (completion run o)))
  end.

(** [except asyncio.CancelledError] *)
Definition user_cancel_args (run : RunLease) (t : CancellationToken) : FinalizeArgs :=
  mkFinalizeArgs (rl_id run) CANCELLED
    (if py_nonempty (partial_content t) then partial_content t else pe_message user_cancelled_error)
    (Some (rl_fencing_token run)) (Some (pe_code user_cancelled_error))
    (Some (serialize_public_error user_cancelled_error)) 0 0 decimal_zero None true None.

Definition partial_or (t : CancellationToken) (e : PublicError) : pystr :=
  if py_nonempty (partial_content t) then partial_content t else pe_message e.

(** [between] is a thread that commits while the handler works. *)
Definition handle_cancelled (run : RunLease) (t : CancellationToken) (again : option bool) (between : M unit) : M unit :=
  match ct_reason t with
  | Some OWNERSHIP_LOST => between
  | reason =>
      raised ← catch
        (in_thread again
           (match reason with
            | Some USER => finalize (user_cancel_args run t);; mret tt
            | _ => fail_run (rl_id run) None (Some (partial_or t interrupted_error)) (CausePublic interrupted_error)
                     (Some (rl_fencing_token run)) (py_nonempty (partial_content t));; mret tt
            end);;
         mret None)
        (fun e => mret (Some e));
      between;;
      match raised with
      | None => mret tt
      | Some (EApp a) => _ignore_conflict_if_terminal (rl_id run) a
      | Some e => raise e
      end
  end.

(** [except Exception] *)
Definition handle_failed (run : RunLease) (t : CancellationToken) (again : option bool) (e : exn) : M unit :=
  let p := exception_public_error e execution_failed_error in
  in_thread again
    (fail_run (rl_id run) None (Some (partial_or t p)) (CausePublic p)
       (Some (rl_fencing_token run)) (py_nonempty (partial_content t));;
     mret tt).

(** What follows an interruption: the handler and the thread, in the order of the race. *)
Definition handle_interrupted (run : RunLease) (i : Interruption) (again : option bool) (thread : M unit) : M unit :=
  match it_race i with
  | NotStarted => handle_cancelled run (it_token i) again (mret tt)
  | BeforeHandler => thread;; handle_cancelled run (it_token i) again (mret tt)
  | WithinHandler => handle_cancelled run (it_token i) again thread
  | AfterHandler => fun w =>
      let '(r, w) := handle_cancelled run (it_token i) again (mret tt) w in
      (r, (thread w).2)
  end.

(** [execute], after the run is registered. The token is read again when an
    exception arrives: it is [before] at the first checkpoint, [after] from the
    end of the runner on, and that of the interruption if there is one. *)
Definition execute (run : RunLease) (before after : CancellationToken) (runner : M RunnerValue)
    (interruption : option Interruption) (again : option bool) : M unit :=
  let token := if ct_event before then before else after in
  ending ← catch (run_body run before after runner interruption) (fun e => mret (Raised e));
  match ending with
  | Returned => mret tt
  | Raised ECancelled => handle_cancelled run token again (mret tt)
  | Raised e => handle_failed run token again e
  | Interrupted i thread => handle_interrupted run i again thread
  end.
End Execution.
