(* ===== verification/ExecutionProps.v ===== *)
(** * Properties of cancellation and execution

    The strongest reason of a cancellation wins whatever the order of the requests,
    a cancellation reaches the token the execution holds and no other, the end of
    an execution settles the run it still owns and writes nothing to one it lost. *)

From S2P Require Import Prelude PyBase Errors RunState Schema Session Effects Journal RunRepo RunService Hitl Threads Changes RunMachine RunSpec HitlSpec System Progress Fixtures RunProps Execution.

Open Scope Z_scope.

(** ** Reasons *)

(** The strongest of the reasons requested. *)
Definition strongest (rs : list CancellationReason) : option CancellationReason :=
  if bool_decide (OWNERSHIP_LOST ∈ rs) then Some OWNERSHIP_LOST
  else if bool_decide (USER ∈ rs) then Some USER
  else if bool_decide (SHUTDOWN ∈ rs) then Some SHUTDOWN else None.

Definition requested (rs : list CancellationReason) (t : CancellationToken) : CancellationToken :=
  foldl (fun t r => token_request r t) t rs.

Lemma elem_of_snoc_bool {A} `{EqDecision A} (x y : A) l :
  bool_decide (x ∈ l ++ [y]) = bool_decide (x ∈ l) || bool_decide (x = y).
Proof.
  apply eq_bool_prop_intro. rewrite !Is_true_true, orb_true_iff, !bool_decide_eq_true, elem_of_app, list_elem_of_singleton. done.
Qed.

Lemma strongest_snoc rs r t :
  ct_reason t = strongest rs -> ct_reason (token_request r t) = strongest (rs ++ [r]).
Proof.
  intros E. unfold token_request. simpl. rewrite E. unfold strongest. rewrite !elem_of_snoc_bool.
  destruct r; destruct (bool_decide (OWNERSHIP_LOST ∈ rs)), (bool_decide (USER ∈ rs)), (bool_decide (SHUTDOWN ∈ rs));
    reflexivity.
Qed.

(** The strongest reason wins, whatever the order and the number of the requests:
    after any requests the reason of a token is the strongest of them, the token is
    cancelled exactly when there was one, and the partial text is kept. *)
Theorem strongest_reason_wins rid rs chunks :
  requested rs (mkCancellationToken rid false chunks None) =
    mkCancellationToken rid (negb (bool_decide (rs = []))) chunks (strongest rs).
Proof.
  induction rs as [|r rs IH] using rev_ind; [done|].
  unfold requested in *. rewrite foldl_app. simpl. rewrite IH.
  assert (negb (bool_decide (rs ++ [r] = [])) = true) as -> by (by destruct rs).
  rewrite <- (strongest_snoc rs r (mkCancellationToken rid (negb (bool_decide (rs = []))) chunks (strongest rs))) by done.
  done.
Qed.

(** ** The registry *)

Inductive RegistryOp :=
| GRegister (run_id : pystr) (task : option nat) (requested : bool)
| GUnregister (run_id : pystr)
| GCancel (run_id : pystr) (reason : CancellationReason)
| GAppend (address : nat) (content : pystr).

Definition registry_op (o : RegistryOp) (g : CancellationRegistry) : CancellationRegistry :=
  match o with
  | GRegister rid task q => (register rid task q g).2
  | GUnregister rid => unregister rid g
  | GCancel rid reason => (cancel_local rid reason g).2
  | GAppend a content => set_token a (append_partial content) g
  end.

Definition registry_after (os : list RegistryOp) : CancellationRegistry :=
  foldl (fun g o => registry_op o g) (mkCancellationRegistry ∅ ∅ 0) os.

(** Every registration names the allocated token of its run. *)
Record registry_inv (g : CancellationRegistry) : Prop := mkRegistryInv {
  ri_bound : forall a t, cr_tokens g !! a = Some t -> (a < cr_next g)%nat;
  ri_token : forall rid reg, cr_registrations g !! rid = Some reg ->
    exists t, cr_tokens g !! rg_token reg = Some t /\ ct_run_id t = rid
}.

Lemma set_token_inv a f g :
  (forall t, ct_run_id (f t) = ct_run_id t) -> registry_inv g -> registry_inv (set_token a f g).
Proof.
  intros Hf [B T]. split; simpl.
  - intros b t. rewrite lookup_alter_Some. intros [(<- & t0 & H0 & _)|[_ H]]; eauto.
  - intros rid reg (t & Ht & <-)%T. destruct (decide (rg_token reg = a)) as [<-|N].
    + exists (f t). by rewrite lookup_alter_eq, Ht, Hf.
    + exists t. by rewrite lookup_alter_ne.
Qed.

Lemma request_run_id r t : ct_run_id (token_request r t) = ct_run_id t.
Proof. done. Qed.
Lemma append_run_id s t : ct_run_id (append_partial s t) = ct_run_id t.
Proof. unfold append_partial. by destruct (py_nonempty s). Qed.

Lemma registry_op_inv o g : registry_inv g -> registry_inv (registry_op o g).
Proof.
  intros I. destruct o as [rid task q|rid|rid r|a s]; simpl.
  - assert (forall a g', registry_inv g' -> registry_inv (if q then set_token a (token_request USER) g' else g')) as Q
      by (intros a g' I'; destruct q; [by apply set_token_inv|done]).
    unfold register. destruct (cr_registrations g !! rid) as [reg|] eqn:E; simpl; apply Q; clear Q.
    + destruct task; [|done]. destruct I as [B T]. split; simpl; [done|].
      intros x y. rewrite lookup_insert_Some. intros [[<- <-]|[_ H]]; [exact (T _ _ E)|by apply T].
    + destruct I as [B T]. split; simpl.
      * intros b t. rewrite lookup_insert_Some. intros [[<- _]|[_ H%B]]; lia.
      * intros x y. rewrite lookup_insert_Some. intros [[<- <-]|[_ H]].
        -- eexists. simpl. by rewrite lookup_insert_eq.
        -- destruct (T _ _ H) as (t & Ht & Er). exists t. rewrite lookup_insert_ne; [done|].
           pose proof (B _ _ Ht). lia.
  - destruct I as [B T]. split; simpl; [done|]. intros x y [_ H]%lookup_delete_Some. by apply T.
  - unfold cancel_local. destruct (cr_registrations g !! rid); simpl; [by apply set_token_inv|done].
  - apply set_token_inv; [apply append_run_id|done].
Qed.

Lemma registry_after_inv os : registry_inv (registry_after os).
Proof.
  unfold registry_after. induction os as [|o os IH] using rev_ind.
  - split; simpl; intros ? ? H; by rewrite lookup_empty in H.
  - rewrite foldl_app. by apply registry_op_inv.
Qed.

(** A cancellation reaches the execution it is meant for and no other: after any
    use of the registry, registering a run that is registered returns the token it
    has, and cancelling a registered run cancels that token with a reason at least
    as strong, and leaves every token of another run as it was. *)
Theorem cancellation_is_targeted os rid reg reason task :
  let g := registry_after os in
  cr_registrations g !! rid = Some reg ->
  (register rid task false g).1 = rg_token reg /\
  let '(found, cancelled_task, g') := cancel_local rid reason g in
  found = true /\ cancelled_task = rg_task reg /\ cr_registrations g' = cr_registrations g /\
  (exists t t', cr_tokens g !! rg_token reg = Some t /\ cr_tokens g' !! rg_token reg = Some t' /\
     ct_run_id t = rid /\ t' = token_request reason t /\ cancelled t' = true) /\
  forall a t, cr_tokens g !! a = Some t -> ct_run_id t <> rid -> cr_tokens g' !! a = Some t.
Proof.
  intros g Hr. pose proof (registry_after_inv os) as I. fold g in I.
  split; [unfold register; by rewrite Hr|]. unfold cancel_local. rewrite Hr. split_and!; try done.
  - destruct (ri_token _ I _ _ Hr) as (t & Ht & Et). exists t, (token_request reason t). simpl.
    by rewrite lookup_alter_eq, Ht.
  - intros a t Ht Hn. simpl. rewrite lookup_alter_ne; [done|]. intros <-.
    destruct (ri_token _ I _ _ Hr) as (t0 & Ht0 & Et). congruence.
Qed.

(** ** The end of an execution *)

Section Execution_props.
Context (env : Env) (preflight : ResumeAccessState -> option exn).
Context (normalize : option json -> option json) (foreign_error : exn -> option PublicError).

#[local] Abbreviation reachable := (reachable env preflight normalize).

(** The execution still owns its run. *)
Definition holds (w : World) (run : RunLease) (r : Run) : Prop :=
  db_runs (w_db w) !! rl_id run = Some r /\ (run_status r = RUNNING \/ run_status r = CANCELLING) /\
  run_fencing_token r = rl_fencing_token run.

(** The status a run ends with when its worker reports one. *)
Definition ends_as (r : Run) (target : RunStatus) : RunStatus :=
  if bool_decide (run_status r = CANCELLING) then CANCELLED else target.

Lemma finalize_reachable a w rec w' : reachable (w_db w) -> finalize a w = (Ret rec, w') -> reachable (w_db w').
Proof.
  intros R H. eapply reachable_step; [exact R|]. exists (OFinalize a), w, (Ret tt), w'.
  split_and!; try done. by apply run_op_ret in H.
Qed.

Lemma held_finalize a w run r :
  reachable (w_db w) -> fresh_ids 3 w -> holds w run r -> fz_run_id a = rl_id run ->
  (fz_target_status a = SUCCEEDED \/ fz_target_status a = FAILED \/ fz_target_status a = CANCELLED) ->
  fz_fencing_token a = Some (rl_fencing_token run) -> fz_lease_expired_before a = None ->
  exists rec w' r', finalize a w = (Ret rec, w') /\ reachable (w_db w') /\
    db_runs (w_db w') !! rl_id run = Some r' /\ run_status r' = ends_as r (fz_target_status a).
Proof.
  intros R F (Hr & Hs & Ht) Ei Es Et El. rewrite <- Ei in Hr. pose proof (reachable_inv _ _ _ _ R) as SI.
  assert (final_target r a = ends_as r (fz_target_status a)) as Ef.
  { unfold ends_as. case_bool_decide as Hc; [by apply final_target_cancelling|].
    unfold final_target, resolve_cancelling. by rewrite bool_decide_eq_false_2. }
  assert (is_terminal (fz_target_status a) = true) as Tt by (by destruct Es as [->|[->| ->]]).
  destruct (finalize_succeeds a w r SI F Hr) as (rec & w' & E).
  - by destruct Hs as [-> | ->].
  - done.
  - rewrite Ef. unfold ends_as. by destruct Hs as [-> | ->]; destruct Es as [->|[->| ->]].
  - intros t. rewrite Et. congruence.
  - by rewrite El.
  - destruct (finalize_row _ _ _ _ _ E (si_wf _ SI) Hr) as (r' & Hr' & _ & Hst).
    exists rec, w', r'. rewrite <- Ei. split_and!; [done|by eapply finalize_reachable|done|].
    rewrite Hst, Ef; [done|]. by destruct Hs as [-> | ->].
Qed.

(** Ending a run that has ended already changes nothing; another target or a stale
    token conflicts. *)
Definition settled {A} (oc : outcome A) : Prop :=
  match oc with Ret _ => True | Raise e => exists x, e = EApp x /\ ae_code x = RUN_STATE_CONFLICT end.

Lemma finalize_ended a w r :
  reachable (w_db w) -> db_runs (w_db w) !! fz_run_id a = Some r -> is_terminal (run_status r) = true ->
  is_terminal (fz_target_status a) = true -> fz_lease_expired_before a = None ->
  exists oc w', finalize a w = (oc, w') /\ w_db w' = w_db w /\ settled oc.
Proof.
  intros R Hr Ht Hs Hl. pose proof (reachable_inv _ _ _ _ R) as SI.
  destruct (run_thread_found _ _ _ (si_wf _ SI) Hr) as (t & Hth & _).
  unfold finalize. rewrite Hs. erewrite bind_run by reflexivity. erewrite bind_run by reflexivity.
  match goal with |- context [transaction ?b _] =>
    assert (exists oc, b (set_w_tick (S (w_tick w)) w) = (oc, set_w_tick (S (w_tick w)) w) /\ settled oc) as (oc & E & Hoc) end.
  - erewrite bind_run by reflexivity. erewrite bind_run by (simpl; by rewrite Hr). rewrite Ht, Hl. simpl negb.
    destruct (match fz_fencing_token a with Some f => run_fencing_token r =? f | None => true end) eqn:Ef.
    + erewrite bind_run.
      2:{ unfold assert_fencing. destruct (fz_fencing_token a); [rewrite Ef|]; reflexivity. }
      erewrite bind_run by reflexivity. cbn [w_db set_w_tick]. rewrite Hth.
      destruct (bool_decide (run_status r = fz_target_status a)).
      * eexists. split; [reflexivity|done].
      * eexists. split; [reflexivity|simpl; eauto].
    + eexists. split; [apply bind_raise|].
      { unfold assert_fencing. destruct (fz_fencing_token a); [|done]. rewrite Ef. reflexivity. }
      simpl. eauto.
  - destruct oc as [x|e].
    + exists (Ret x). eexists. split; [apply transaction_run; [exact E|apply SI]|done].
    + exists (Raise e). eexists. split; [apply transaction_fail; exact E|done].
Qed.

(** A computation that does nothing to a run that has ended. *)
Definition idle_at_end (run : RunLease) (m : M unit) : Prop := forall w r,
  reachable (w_db w) -> db_runs (w_db w) !! rl_id run = Some r -> is_terminal (run_status r) = true ->
  exists w', m w = (Ret tt, w') /\ w_db w' = w_db w.

Lemma idle_ret run : idle_at_end run (mret tt).
Proof. intros w r _ _ _. by exists w. Qed.

Lemma idle_completion run o : idle_at_end run (unawaited (completion run o)).
Proof.
  intros w r R Hr Ht. unfold unawaited, completion, complete_run, catch.
  match goal with |- context [finalize ?a] => destruct (finalize_ended a w r) as (oc & w' & E & Ew & Hoc); [done..|] end.
  exists w'. destruct oc as [x|e]; [by rewrite (bind_run _ _ _ _ _ E)|by rewrite (bind_raise _ _ _ _ _ E)].
Qed.

(** The handler on a run that has ended. *)
Lemma handle_ended run t w r :
  reachable (w_db w) -> db_runs (w_db w) !! rl_id run = Some r -> is_terminal (run_status r) = true ->
  exists w', handle_cancelled run t None (mret tt) w = (Ret tt, w') /\ w_db w' = w_db w.
Proof.
  intros R Hr Ht. pose proof (reachable_inv _ _ _ _ R) as SI.
  destruct (run_thread_found _ _ _ (si_wf _ SI) Hr) as (th & Hth & _).
  unfold handle_cancelled. destruct (ct_reason t) as [[| |]|]; [| |by exists w|]; cbn [in_thread]; unfold fail_run.
  all: match goal with |- context [finalize ?a] =>
      destruct (finalize_ended a w r) as (oc & w' & E & Ew & Hoc); [done..|] end; exists w'; split; [|exact Ew].
  all: destruct oc as [x|e];
    [erewrite bind_run by (unfold catch; erewrite bind_run by (by rewrite (bind_run _ _ _ _ _ E)); reflexivity); reflexivity|].
  all: erewrite bind_run by (unfold catch; erewrite bind_raise by (by rewrite (bind_raise _ _ _ _ _ E)); reflexivity);
    erewrite bind_run by reflexivity; destruct Hoc as (x & -> & Hx);
    unfold _ignore_conflict_if_terminal; rewrite Hx; erewrite bind_run by reflexivity;
    assert (get_internal (rl_id run) w' = (Ret (_record r (th_thread_id th)), w')) as Eg
      by (unfold get_internal; rewrite (bind_run _ get_db w' _ _ eq_refl), Ew; unfold run_row; rewrite Hr; simpl; by rewrite Hth);
    rewrite (bind_run _ _ _ _ _ Eg); simpl; by rewrite Ht.
Qed.

(** What the reason of a cancellation makes of the run; [None] leaves it to its new owner. *)
Definition by_reason (t : CancellationToken) : option RunStatus :=
  match ct_reason t with Some OWNERSHIP_LOST => None | Some USER => Some CANCELLED | _ => Some FAILED end.

Lemma ends_as_terminal r s : is_terminal s = true -> is_terminal (ends_as r s) = true.
Proof. intros H. unfold ends_as. by case_bool_decide. Qed.

(** The run has ended in a status. *)
Definition ended_in (w : World) (run : RunLease) (s : RunStatus) : Prop :=
  reachable (w_db w) /\ exists r', db_runs (w_db w) !! rl_id run = Some r' /\ run_status r' = s.

(** The handler on a run that the execution owns, another thread acting meanwhile. *)
Lemma handle_held run t between w r :
  reachable (w_db w) -> fresh_ids 3 w -> holds w run r -> idle_at_end run between ->
  match by_reason t with
  | None => handle_cancelled run t None between w = between w
  | Some s => is_terminal s = true /\
      exists w', handle_cancelled run t None between w = (Ret tt, w') /\ ended_in w' run (ends_as r s)
  end.
Proof.
  intros R F H Hb. unfold handle_cancelled, by_reason.
  assert (forall a, fz_run_id a = rl_id run ->
    (fz_target_status a = SUCCEEDED \/ fz_target_status a = FAILED \/ fz_target_status a = CANCELLED) ->
    fz_fencing_token a = Some (rl_fencing_token run) -> fz_lease_expired_before a = None ->
    exists w' , (raised ← catch ((finalize a;; mret tt);; mret None) (fun e => mret (Some e));
                 between;;
                 match raised with None => mret tt | Some (EApp a) => _ignore_conflict_if_terminal (rl_id run) a
                                 | Some e => raise e end) w = (Ret tt, w') /\
      ended_in w' run (ends_as r (fz_target_status a))) as K.
  { intros a E1 E2 E3 E4. destruct (held_finalize a w run r) as (rec & w' & r' & E & R' & Hr & Hs); try done.
    destruct (Hb w' r' R' Hr) as (w2 & Eb & Ew).
    { rewrite Hs. apply ends_as_terminal. by destruct E2 as [->|[->| ->]]. }
    exists w2. split.
    - erewrite bind_run by (unfold catch; erewrite bind_run by (by rewrite (bind_run _ _ _ _ _ E)); reflexivity).
      by erewrite bind_run by exact Eb.
    - unfold ended_in. rewrite Ew. eauto. }
  destruct (ct_reason t) as [[| |]|]; cbn [in_thread]; unfold fail_run; try done; (split; [done|]);
    match goal with |- context [finalize ?a] => apply (K a) end; auto.
Qed.

(** The completion of a run that the execution owns. *)
Lemma completion_held run o w r :
  reachable (w_db w) -> fresh_ids 3 w -> holds w run r ->
  or_int (eo_fencing_token o) (rl_fencing_token run) = rl_fencing_token run ->
  exists w', completion run o w = (Ret tt, w') /\ unawaited (completion run o) w = (Ret tt, w') /\
    ended_in w' run (ends_as r SUCCEEDED).
Proof.
  intros R F H Ht. unfold unawaited, completion, complete_run, catch. rewrite Ht.
  destruct (held_finalize (complete_args (rl_id run) (eo_content o) (Some (rl_fencing_token run))
    0 0 decimal_zero (eo_rag_trace o)) w run r) as (rec & w2 & r' & E & R2 & Hr & Hs); auto.
  exists w2. rewrite (bind_run _ _ _ _ _ E). split_and!; [done..|]. unfold ended_in. eauto.
Qed.

(** The status that an interrupted completion leaves. *)
Definition race_target (i : Interruption) : option RunStatus :=
  match it_race i with
  | NotStarted => by_reason (it_token i)
  | BeforeHandler => Some SUCCEEDED
  | WithinHandler | AfterHandler => Some (default SUCCEEDED (by_reason (it_token i)))
  end.

Lemma interrupted_held run i o w r :
  reachable (w_db w) -> fresh_ids 3 w -> holds w run r ->
  or_int (eo_fencing_token o) (rl_fencing_token run) = rl_fencing_token run ->
  exists w', handle_interrupted run i None (unawaited (completion run o)) w = (Ret tt, w') /\
    match race_target i with None => w' = w | Some s => ended_in w' run (ends_as r s) end.
Proof.
  intros R F H Ht. destruct (completion_held run o w r R F H Ht) as (wc & _ & Ec & Pc).
  pose proof (idle_completion run o) as Ic. unfold handle_interrupted, race_target. destruct (it_race i).
  - pose proof (handle_held run (it_token i) (mret tt) w r R F H (idle_ret run)) as K.
    destruct (by_reason (it_token i)); [destruct K as (_ & w' & E & P)|]; eauto.
  - rewrite (bind_run _ _ _ _ _ Ec). destruct Pc as (Rc & rc & Hc & Sc).
    destruct (handle_ended run (it_token i) wc rc Rc Hc) as (w' & E & Ew); [rewrite Sc; by apply ends_as_terminal|].
    exists w'. split; [done|]. unfold ended_in. rewrite Ew. eauto.
  - pose proof (handle_held run (it_token i) _ w r R F H Ic) as K.
    destruct (by_reason (it_token i)); [destruct K as (_ & w' & E & P); eauto|]. exists wc. by rewrite K.
  - pose proof (handle_held run (it_token i) (mret tt) w r R F H (idle_ret run)) as K.
    destruct (by_reason (it_token i)) as [s|].
    + destruct K as (Ts & w' & E & R' & r' & Hr & Hs). destruct (Ic w' r' R' Hr) as (w2 & E2 & Ew);
        [rewrite Hs; by apply ends_as_terminal|].
      exists w2. rewrite E, E2. split; [done|]. unfold ended_in. rewrite Ew. eauto.
    + exists wc. rewrite K. unfold mret at 1, M_ret at 1. by rewrite Ec.
Qed.

(** What the end of the runner, and the cancellation that meets it, mean for the run;
    [None] leaves it to its new owner. *)
Definition execution_target (after : CancellationToken) (interruption : option Interruption)
    (result : outcome RunnerValue) : option RunStatus :=
  match result with
  | Ret _ => if ct_event after then by_reason after
             else match interruption with None => Some SUCCEEDED | Some i => race_target i end
  | Raise ECancelled => by_reason after
  | Raise _ => Some FAILED
  end.


(** The execution lost its run: another worker holds it under a newer token. *)
Definition lost (db : Database) (run : RunLease) : Prop :=
  forall r, db_runs db !! rl_id run = Some r -> run_fencing_token r <> rl_fencing_token run.

Lemma lost_finalize a w run oc w' :
  reachable (w_db w) -> lost (w_db w) run -> fz_run_id a = rl_id run ->
  fz_fencing_token a = Some (rl_fencing_token run) -> finalize a w = (oc, w') -> w_db w' = w_db w.
Proof.
  intros R L Ei Et H. destruct oc as [rec|e].
  - apply finalize_spec in H as (r & Hr & _ & Hf & _); [|apply (reachable_inv _ _ _ _ R)].
    rewrite Et in Hf. rewrite Ei in Hr. exfalso. by apply (L r Hr), Hf.
  - eapply (exec_raise env preflight normalize (OFinalize a)). by apply run_op_raise.
Qed.

(** A computation that leaves the tables as they were when it starts from some. *)
Definition still (db : Database) {A} (m : M A) : Prop :=
  forall w oc w', w_db w = db -> m w = (oc, w') -> w_db w' = db.

Lemma still_bind {A B} db (m : M A) (k : A -> M B) :
  still db m -> (forall a, still db (k a)) -> still db (mbind k m).
Proof.
  intros Hm Hk w oc w' E. unfold mbind, M_bind. destruct (m w) as [[a|e] w1] eqn:Em.
  - intros H. eapply Hk; [|exact H]. by eapply Hm.
  - intros ?; simplify_eq. by eapply Hm.
Qed.

Lemma still_catch {A} db (m : M A) h : still db m -> (forall e, still db (h e)) -> still db (catch m h).
Proof.
  intros Hm Hh w oc w' E. unfold catch. destruct (m w) as [[a|e] w1] eqn:Em.
  - intros ?; simplify_eq. by eapply Hm.
  - intros H. eapply Hh; [|exact H]. by eapply Hm.
Qed.

Lemma still_read_only {A} db (m : M A) : ReadOnly m -> still db m.
Proof. intros R w oc w' <- H. specialize (R w). by rewrite H in R. Qed.

Lemma still_finalize a db run :
  reachable db -> lost db run -> fz_run_id a = rl_id run -> fz_fencing_token a = Some (rl_fencing_token run) ->
  still db (finalize a).
Proof. intros R L E1 E2 w oc w' <- H. by eapply lost_finalize. Qed.

Lemma still_in_thread db again m : still db m -> still db (in_thread again m).
Proof.
  intros S. unfold in_thread. destruct again as [runs|]; [|done].
  apply still_bind; [|intros; apply still_read_only, _]. destruct runs; [|apply still_read_only, _].
  apply still_catch; [done|]. intros; apply still_read_only, _.
Qed.

Lemma still_handle_cancelled db run t again between :
  reachable db -> lost db run -> still db between -> still db (handle_cancelled run t again between).
Proof.
  intros R L B. assert (forall a, fz_run_id a = rl_id run -> fz_fencing_token a = Some (rl_fencing_token run) ->
    still db (raised ← catch (in_thread again (finalize a;; mret tt);; mret None) (fun e => mret (Some e));
              between;;
              match raised with None => mret tt | Some (EApp a) => _ignore_conflict_if_terminal (rl_id run) a
                              | Some e => raise e end)) as K.
  { intros a E1 E2. apply still_bind; [apply still_catch|].
    - apply still_bind; [|intros; apply still_read_only, _]. apply still_in_thread, still_bind; [by eapply still_finalize|].
      intros; apply still_read_only, _.
    - intros; apply still_read_only, _.
    - intros raised. apply still_bind; [done|]. intros _. apply still_read_only.
      unfold _ignore_conflict_if_terminal, get_internal. effects. }
  unfold handle_cancelled. destruct (ct_reason t) as [[| |]|]; by apply K || exact B.
Qed.

Lemma still_handle_interrupted db run i again thread :
  reachable db -> lost db run -> still db thread -> still db (handle_interrupted run i again thread).
Proof.
  intros R L S. assert (still db (mret tt : M unit)) as I by (apply still_read_only, _). unfold handle_interrupted.
  destruct (it_race i).
  - by apply still_handle_cancelled.
  - apply still_bind; [done|]. intros _. by apply still_handle_cancelled.
  - by apply still_handle_cancelled.
  - intros w oc w' E. destruct (handle_cancelled run (it_token i) again (mret tt) w) as [r1 w1] eqn:H.
    pose proof (still_handle_cancelled db run (it_token i) again _ R L I w r1 w1 E H) as E1. intros [= <- <-]. destruct (thread w1) as [r2 w2] eqn:T. by eapply S.
Qed.

(** An execution that lost its run writes nothing to it: when the runner ends
    after another worker has taken the run over, whatever the runner returned or
    raised, whatever the token says and whenever cancellations arrive, [execute]
    leaves the database as it was. *)
Theorem lost_execution_writes_nothing run before after runner interruption again w result w1 oc w2 :
  ct_event before = false -> runner w = (result, w1) -> reachable (w_db w1) -> lost (w_db w1) run ->
  match result with
  | Ret v => or_int (eo_fencing_token (outcome_of v)) (rl_fencing_token run) = rl_fencing_token run
  | Raise _ => True
  end ->
  execute foreign_error run before after runner interruption again w = (oc, w2) -> w_db w2 = w_db w1.
Proof.
  intros Hb Hrun R L Hv. unfold execute. rewrite Hb. set (db := w_db w1) in *.
  assert (still db (mret tt : M unit)) as I by (apply still_read_only, _).
  assert (forall b, match b with Interrupted _ thread => still db thread | _ => True end ->
    still db (match b with
              | Returned => mret tt
              | Raised ECancelled => handle_cancelled run after again (mret tt)
              | Raised e => handle_failed foreign_error run after again e
              | Interrupted i thread => handle_interrupted run i again thread
              end)) as K.
  { assert (forall e, still db (handle_failed foreign_error run after again e)) as Sf
      by (intros e; apply still_in_thread, still_bind; [by eapply still_finalize|intros; apply still_read_only, _]).
    intros [|e|i thread] T; [done| |by apply still_handle_interrupted].
    destruct e; try apply Sf. by apply still_handle_cancelled. }
  assert (exists b w3, catch (run_body run before after runner interruption) (fun e => mret (Raised e)) w = (Ret b, w3) /\
    w_db w3 = db /\ match b with Interrupted _ thread => still db thread | _ => True end) as (b & w3 & E & D & T).
  { unfold catch, run_body, checkpoint. rewrite Hb, (bind_run _ (raise_if false ECancelled) w tt w) by done.
    destruct result as [v|e]; [|rewrite (bind_raise _ _ _ _ _ Hrun); by exists (Raised e), w1].
    rewrite (bind_run _ _ _ _ _ Hrun).
    assert (still db (completion run (outcome_of v))) as Sd.
    { unfold completion, complete_run. rewrite Hv. apply still_bind; [by eapply still_finalize|intros; apply still_read_only, _]. }
    destruct (ct_event after); [by exists (Raised ECancelled), w1|].
    rewrite (bind_run _ (raise_if false ECancelled) w1 tt w1) by done. cbv zeta.
    destruct interruption as [i|], (eo_kind (outcome_of v)).
    - do 2 eexists. split_and!; [done..|]. apply still_catch; [done|intros; apply still_read_only, _].
    - by do 2 eexists.
    - destruct (completion run (outcome_of v) w1) as [[u|e] w3] eqn:E;
        [rewrite (bind_run _ _ _ _ _ E); exists Returned, w3|rewrite (bind_raise _ _ _ _ _ E); exists (Raised e), w3];
        (split_and!; [done|by eapply Sd|done]).
    - assert (still db (accept_waiting (rl_id run))) as Sw
        by (apply still_read_only; unfold accept_waiting, get_internal, has_durable_checkpoint; effects).
      destruct (accept_waiting (rl_id run) w1) as [[u|e] w3] eqn:E;
        [rewrite (bind_run _ _ _ _ _ E); exists Returned, w3|rewrite (bind_raise _ _ _ _ _ E); exists (Raised e), w3];
        (split_and!; [done|by eapply Sw|done]). }
  rewrite (bind_run _ _ _ _ _ E). intros H. by eapply (K b T).
Qed.
End Execution_props.

(** ** The theorems at a concrete system *)

Definition ex_ops : list RegistryOp := [GRegister run_a (Some 1%nat) false; GRegister run_b (Some 2%nat) false].

Lemma cancellation_is_targeted_witness :
  let g := registry_after ex_ops in
  exists reg, cr_registrations g !! run_a = Some reg /\ (register run_a None false g).1 = rg_token reg.
Proof.
  intros g. exists (mkRegistration 0 (Some 1%nat)).
  assert (cr_registrations g !! run_a = Some (mkRegistration 0 (Some 1%nat))) as H by (by vm_compute).
  exact (conj H (proj1 (cancellation_is_targeted ex_ops run_a _ USER None H))).
Defined.

(** The worker of the claimed run, and a runner that streams a text. *)
Definition ex_lease : RunLease := mkRunLease run_a 3.
Definition ex_token : CancellationToken := mkCancellationToken run_a false ["par"%py] None.
Definition ex_runner : M RunnerValue := mret (VText "answer"%py).
Definition no_foreign (e : exn) : option PublicError := None.

(** A user cancels while the completion is under way, and the handler comes first: the
    run ends cancelled and the completion changes nothing. *)
Definition ex_interruption : Interruption :=
  mkInterruption (mkCancellationToken run_a true ["par"%py] (Some USER)) WithinHandler.


(** The lease before the last: the run has been claimed again since. *)
Definition ex_old_lease : RunLease := mkRunLease run_a 2.

Lemma lost_execution_writes_nothing_witness :
  let w := after ops_claimed in
  w_db (execute no_foreign ex_old_lease ex_token ex_token ex_runner None None w).2 = w_db w.
Proof.
  intros w. destruct (execute no_foreign ex_old_lease ex_token ex_token ex_runner None None w) as [oc w2] eqn:E.
  assert (lost (w_db w) ex_old_lease) as L.
  { intros r Hr. assert (bool_decide (run_fencing_token (row w run_a) = 2) = false) as Hn by (by vm_compute).
    rewrite bool_decide_eq_false in Hn. unfold row in Hn. cbn [rl_id ex_old_lease] in Hr. by rewrite Hr in Hn. }
  exact (lost_execution_writes_nothing ex_env ex_preflight ex_normalize no_foreign ex_old_lease ex_token ex_token
    ex_runner None None w (Ret (VText "answer"%py)) w oc w2 eq_refl eq_refl (after_reachable ops_claimed) L eq_refl E).
Defined.
