(* ===== verification/Guardrail.v ===== *)
(** * The tool guardrail

    [backend/guardrails/contracts.py], [policy.py] and [approvals.py]: before a tool
    runs, its call is summarised without its contents and judged by a deterministic
    policy, which an optional provider may only tighten. Arguments are a graph of
    Python objects, so mappings and lists are cells of a heap and may be shared or
    cyclic. The fingerprint of a JSON document is a parameter, and so is the order
    in which Python iterates over a set of strings. *)

From S2P Require Import Prelude PyBase Errors Session.
From Stdlib Require Import QArith.

Open Scope Z_scope.

(** ** Identifiers *)

(** [[a-z][a-z0-9_.:-]{0,127}] *)
Definition _STABLE_ID_RE (s : pystr) : bool :=
  fullmatch_id is_az (fun c => is_az c || is_09 c || is_one_of "_.:-"%py c) (Some 127%nat) s.

(** [[A-Za-z0-9][A-Za-z0-9_.+-]{0,63}] *)
Definition is_alnum_cp (c : N) : bool := is_AZ c || is_az c || is_09 c.
Definition _POLICY_VERSION_RE (s : pystr) : bool :=
  fullmatch_id is_alnum_cp (fun c => is_alnum_cp c || is_one_of "_.+-"%py c) (Some 63%nat) s.

(** [[a-z][a-z0-9_.-]{0,127}] *)
Definition _TOOL_NAME_RE (s : pystr) : bool :=
  fullmatch_id is_az (fun c => is_az c || is_09 c || is_one_of "_.-"%py c) (Some 127%nat) s.

(** [len(value.encode("utf-8", errors="replace"))]: a lone surrogate becomes [?]. *)
Definition utf8_length (s : pystr) : Z :=
  foldr (fun c n => match utf8_encode_cp c with Some b => Z.of_nat (length b) | None => 1 end + n) 0 (cps_of s).

Definition control_cp (c : N) : bool := (c <? 32)%N || (c =? 127)%N.

(** Text without surrounding space, at most 512 bytes, no control character. *)
Definition complete_text (s : pystr) : bool :=
  py_nonempty s && bool_decide (py_strip s = s) && (utf8_length s <=? 512)
  && negb (existsb control_cp (cps_of s)).

Definition _context_text_is_complete (value : option pystr) : bool :=
  match value with Some s => complete_text s | None => false end.

Definition _stable_context_identifier (value : option pystr) : bool :=
  match value with Some s => _STABLE_ID_RE s | None => false end.

(** ** Approval grants *)

Record RunToolApprovalGrant := mkRunToolApprovalGrant {
  ga_user_id : pystr;
  ga_tenant_id : pystr;
  ga_thread_id : pystr;
  ga_run_id : pystr;
  ga_tool_names : gset pystr
}.

Definition _complete (value field_name : pystr) : outcome pystr :=
  check (complete_text value) (EValue (field_name +++ " must be complete"%py)%py);;
  mret value.

(** [RunToolApprovalGrant.__post_init__] *)
Definition make_grant (user_id tenant_id thread_id run_id : pystr) (tool_names : gset pystr) :
    outcome RunToolApprovalGrant :=
  u ← _complete user_id "user_id"%py;
  t ← _complete tenant_id "tenant_id"%py;
  h ← _complete thread_id "thread_id"%py;
  r ← _complete run_id "run_id"%py;
  check (forallb _TOOL_NAME_RE (elements tool_names)) (EValue "tool_names contains an invalid tool identifier"%py);;
  mret (mkRunToolApprovalGrant u t h r tool_names).

Definition is_bound_to (g : RunToolApprovalGrant) (user_id tenant_id thread_id run_id : pystr) : bool :=
  bool_decide (ga_user_id g = user_id) && bool_decide (ga_tenant_id g = tenant_id)
  && bool_decide (ga_thread_id g = thread_id) && bool_decide (ga_run_id g = run_id).

Definition grant_allows (g : RunToolApprovalGrant) (tool_name user_id tenant_id thread_id run_id : pystr) : bool :=
  is_bound_to g user_id tenant_id thread_id run_id && bool_decide (tool_name ∈ ga_tool_names g).

(** ** Decisions *)

Inductive GuardrailDecision := ALLOW | DENY | REQUIRE_APPROVAL.

Inductive GuardrailReasonCode :=
| ALLOWED | CONTEXT_INCOMPLETE | CONTEXT_UNKNOWN | CHANNEL_UNKNOWN | NETWORK_POLICY_UNKNOWN
| RESOURCE_SCOPE_UNKNOWN | TOOL_GROUP_UNKNOWN | REGISTRY_POLICY_DENIED | ACTIVE_SKILL_REQUIRED
| ACTIVE_SKILL_UNKNOWN | TOOL_OUTSIDE_ACTIVE_SKILL | DESCRIPTOR_APPROVAL_REQUIRED | HIGH_RISK_TOOL_DENIED
| HIGH_RISK_TOOL_APPROVAL_REQUIRED | PRIVATE_NETWORK_DENIED | SQL_CONTEXT_REQUIRED
| SQL_PRIVATE_NETWORK_REQUIRED | SQL_ADMIN_REQUIRED | SQL_READ_ONLY_TOOL_REQUIRED
| SQL_RESOURCE_SCOPE_DENIED | POLICY_PROVIDER_DENIED | POLICY_PROVIDER_APPROVAL_REQUIRED
| POLICY_PROVIDER_FAILED.

#[export] Instance GuardrailDecision_eq_dec : EqDecision GuardrailDecision.
Proof. solve_decision. Defined.
#[export] Instance GuardrailReasonCode_eq_dec : EqDecision GuardrailReasonCode.
Proof. solve_decision. Defined.

Definition approval_reason (r : GuardrailReasonCode) : bool :=
  match r with
  | DESCRIPTOR_APPROVAL_REQUIRED | HIGH_RISK_TOOL_APPROVAL_REQUIRED | POLICY_PROVIDER_APPROVAL_REQUIRED => true
  | _ => false
  end.

Record GuardrailDirective := mkGuardrailDirective {
  gd_decision : GuardrailDecision;
  gd_reason_code : GuardrailReasonCode
}.

(** The pairs [GuardrailDirective.__post_init__] accepts. *)
Definition directive_ok (d : GuardrailDecision) (r : GuardrailReasonCode) : bool :=
  match d with
  | ALLOW => bool_decide (r = ALLOWED)
  | REQUIRE_APPROVAL => approval_reason r
  | DENY => negb (bool_decide (r = ALLOWED) || approval_reason r)
  end.

Definition make_directive (d : GuardrailDecision) (r : GuardrailReasonCode) : outcome GuardrailDirective :=
  match d with
  | ALLOW => check (bool_decide (r = ALLOWED)) (EValue "ALLOW directives must use ALLOWED"%py)
  | REQUIRE_APPROVAL =>
      check (approval_reason r) (EValue "REQUIRE_APPROVAL uses an approval reason code"%py)
  | DENY =>
      check (negb (bool_decide (r = ALLOWED) || approval_reason r))
        (EValue "DENY directives must use a denial reason code"%py)
  end;;
  mret (mkGuardrailDirective d r).

(** ** Summaries of tool arguments *)

(** A Python value: containers are references. *)
Inductive pyval :=
| ANone
| ABool (b : bool)
| AInt (z : Z)
| AFloat (finite : option Q)  (** [None]: an infinity or not a number *)
| AStr (s : pystr)
| ABytes (b : list N)
| ARef (a : nat)
| AOther.  (** any other class *)

(** The entries of a mapping in their order, a key that is not a string as [None];
    the items of a list or tuple. *)
Inductive pyobj :=
| AMapping (entries : list (option pystr * pyval))
| ASequence (items : list pyval).

Definition heap := gmap nat pyobj.

(** What [visit] returns for a value. *)
Inductive shape :=
| SAtom (name : pystr)
| SObject (entries : list (pystr * shape))
| SArray (items : list shape).

(** [repr] of a shape: its strings are plain ASCII words. *)
Definition quoted (s : pystr) : pystr := ("'"%py +++ s +++ "'"%py)%py.
Fixpoint repr_shape (s : shape) : pystr :=
  match s with
  | SAtom a => quoted a
  | SObject entries =>
      "['object', ["%py +++ py_join ", "%py (List.map (fun '(k, v) => "("%py +++ quoted k +++ ", "%py +++ repr_shape v +++ ")"%py) entries)
        +++ "]]"%py
  | SArray items =>
      "['array', ["%py +++ py_join ", "%py (List.map repr_shape items) +++ "]]"%py
  end%py.
Definition repr_entry (e : pystr * shape) : pystr :=
  ("("%py +++ quoted e.1 +++ ", "%py +++ repr_shape e.2 +++ ")"%py)%py.

(** [sorted(entries, key=lambda item: repr(item))], stable. *)
Fixpoint insert_entry (x : pystr * shape) (l : list (pystr * shape)) : list (pystr * shape) :=
  match l with
  | [] => [x]
  | y :: l' => if cps_le (cps_of (repr_entry x)) (cps_of (repr_entry y)) then x :: l else y :: insert_entry x l'
  end.
Definition sorted_entries (l : list (pystr * shape)) : list (pystr * shape) := foldr insert_entry [] l.

(** The JSON document of a shape. *)
Fixpoint shape_json (s : shape) : json :=
  match s with
  | SAtom a => JStr a
  | SObject entries =>
      JArr [JStr "object"%py; JArr (List.map (fun '(k, v) => JArr [JStr k; shape_json v]) entries)]
  | SArray items => JArr [JStr "array"%py; JArr (List.map shape_json items)]
  end.

Record Counters := mkCounters {
  cn_complete : bool;
  cn_scalar : Z;
  cn_collection : Z;
  cn_secret : Z;
  cn_body : Z;
  cn_unknown : Z;
  cn_max_depth : Z;
  cn_node : Z
}.

Definition count_scalar (c : Counters) : Counters :=
  mkCounters (cn_complete c) (cn_scalar c + 1) (cn_collection c) (cn_secret c) (cn_body c) (cn_unknown c)
    (cn_max_depth c) (cn_node c).
Definition count_collection (c : Counters) : Counters :=
  mkCounters (cn_complete c) (cn_scalar c) (cn_collection c + 1) (cn_secret c) (cn_body c) (cn_unknown c)
    (cn_max_depth c) (cn_node c).
Definition count_secret (c : Counters) : Counters :=
  mkCounters (cn_complete c) (cn_scalar c) (cn_collection c) (cn_secret c + 1) (cn_body c) (cn_unknown c)
    (cn_max_depth c) (cn_node c).
Definition count_body (c : Counters) : Counters :=
  mkCounters (cn_complete c) (cn_scalar c) (cn_collection c) (cn_secret c) (cn_body c + 1) (cn_unknown c)
    (cn_max_depth c) (cn_node c).
(** [complete = False; counters["unknown_value_count"] += 1] *)
Definition count_unknown (c : Counters) : Counters :=
  mkCounters false (cn_scalar c) (cn_collection c) (cn_secret c) (cn_body c) (cn_unknown c + 1)
    (cn_max_depth c) (cn_node c).
Definition count_node (depth : Z) (c : Counters) : Counters :=
  mkCounters (cn_complete c) (cn_scalar c) (cn_collection c) (cn_secret c) (cn_body c) (cn_unknown c)
    (Z.max (cn_max_depth c) depth) (cn_node c + 1).

Definition _MAX_ARGUMENT_NODES : Z := 4096.
Definition _MAX_ARGUMENT_DEPTH : Z := 16.

Definition _SECRET_KEY_PARTS : gset pystr :=
  list_to_set ["api"; "apikey"; "authorization"; "cookie"; "credential"; "key"; "password"; "secret"; "session";
               "token"]%py.
Definition _BODY_KEY_PARTS : gset pystr :=
  list_to_set ["body"; "content"; "data"; "document"; "payload"; "query"; "sql"; "text"]%py.

(** [_KEY_PART_RE.findall(key)]: the maximal runs of letters and digits. *)
Fixpoint key_runs (cur : list N) (l : list N) : list pystr :=
  match l with
  | [] => if decide (cur = []) then [] else [PyStr (rev cur)]
  | c :: l =>
      if is_alnum_cp c then key_runs (c :: cur) l
      else (if decide (cur = []) then [] else [PyStr (rev cur)]) ++ key_runs [] l
  end.
(** [part.casefold()] of ASCII letters and digits. *)
Definition key_parts (key : pystr) : gset pystr := list_to_set (py_lower <$> key_runs [] (cps_of key)).

(** [marker in compact] *)
Fixpoint contains (needle l : list N) : bool :=
  bool_decide (take (length needle) l = needle)
  || match l with [] => false | _ :: l => contains needle l end.

Record ToolArgsSummary := mkToolArgsSummary {
  ts_complete : bool;
  ts_argument_count : Z;
  ts_scalar_count : Z;
  ts_collection_count : Z;
  ts_secret_field_count : Z;
  ts_body_field_count : Z;
  ts_unknown_value_count : Z;
  ts_max_depth : Z;
  ts_shape_hash : pystr
}.

Section summary.
Context (canonical_fingerprint : json -> pystr) (set_order : gset pystr -> list pystr).

(** [classify_key] *)
Definition classify_key (key : option pystr) (c : Counters) : pystr * Counters :=
  match key with
  | None => ("invalid-key"%py, count_unknown c)
  | Some k =>
      let parts := key_parts k in
      let compact := py_join ""%py (set_order parts) in
      if bool_decide (parts ∩ _SECRET_KEY_PARTS ≠ ∅)
         || existsb (fun m => contains (cps_of m) (cps_of compact)) ["apikey"; "accesstoken"; "refreshtoken"]%py
      then ("secret-field"%py, count_secret c)
      else if bool_decide (parts ∩ _BODY_KEY_PARTS ≠ ∅) then ("body-field"%py, count_body c)
      else ("ordinary-field"%py, c)
  end.

(** The comprehensions over the entries of a mapping and the items of a sequence,
    with the recursive call [go]. *)
Fixpoint visit_entries (go : pyval -> Z -> Counters -> shape * Counters)
    (entries : list (option pystr * pyval)) (depth : Z) (c : Counters) : list (pystr * shape) * Counters :=
  match entries with
  | [] => ([], c)
  | (key, item) :: rest =>
      let '(k, c) := classify_key key c in
      let '(s, c) := go item depth c in
      let '(es, c) := visit_entries go rest depth c in
      ((k, s) :: es, c)
  end.

Fixpoint visit_items (go : pyval -> Z -> Counters -> shape * Counters) (items : list pyval) (depth : Z)
    (c : Counters) : list shape * Counters :=
  match items with
  | [] => ([], c)
  | item :: rest =>
      let '(s, c) := go item depth c in
      let '(ss, c) := visit_items go rest depth c in
      (s :: ss, c)
  end.

(** [visit(value, depth)] below the containers [active]. The depth is bounded, so
    two units of fuel more than the limit are never used up. *)
Fixpoint visit (fuel : nat) (h : heap) (active : gset nat) (value : pyval) (depth : Z) (c : Counters) :
    shape * Counters :=
  match fuel with
  | O => (SAtom "out-of-fuel"%py, c)
  | S fuel =>
      let c := count_node depth c in
      if (_MAX_ARGUMENT_NODES <? cn_node c) || (_MAX_ARGUMENT_DEPTH <? depth)
      then (SAtom "limit-exceeded"%py, count_unknown c)
      else
        match value with
        | ANone => (SAtom "null"%py, count_scalar c)
        | ABool _ => (SAtom "boolean"%py, count_scalar c)
        | AInt _ => (SAtom "number"%py, count_scalar c)
        | AFloat (Some _) => (SAtom "number"%py, count_scalar c)
        | AFloat None => (SAtom "invalid-number"%py, count_unknown (count_scalar c))
        | AStr _ => (SAtom "string"%py, count_scalar c)
        | ABytes _ => (SAtom "binary"%py, count_scalar c)
        | AOther => (SAtom "unknown"%py, count_unknown c)
        | ARef a =>
            match h !! a with
            | None => (SAtom "unknown"%py, count_unknown c)
            | Some o =>
                if decide (a ∈ active) then (SAtom "cycle"%py, count_unknown c)
                else
                  let c := count_collection c in
                  let active := {[a]} ∪ active in
                  match o with
                  | AMapping entries =>
                      let '(es, c) := visit_entries (visit fuel h active) entries (depth + 1) c in
                      (SObject (sorted_entries es), c)
                  | ASequence items =>
                      let '(ss, c) := visit_items (visit fuel h active) items (depth + 1) c in
                      (SArray ss, c)
                  end
            end
        end
  end.

Definition no_counters : Counters := mkCounters true 0 0 0 0 0 0 0.

(** [ToolArgsSummary.unavailable()] *)
Definition unavailable_summary : ToolArgsSummary :=
  mkToolArgsSummary false 0 0 0 0 0 1 0
    (canonical_fingerprint (JObj [("schema_version"%py, JInt 1); ("state"%py, JStr "unavailable"%py)])).

(** [ToolArgsSummary.from_mapping(arguments)] *)
Definition visit_fuel : nat := 18.
Definition from_mapping (h : heap) (arguments : pyval) : ToolArgsSummary :=
  match arguments with
  | ARef a =>
      match h !! a with
      | Some (AMapping entries) =>
          let '(s, c) := visit visit_fuel h ∅ arguments 0 no_counters in
          {| ts_complete := cn_complete c;
             ts_argument_count := Z.of_nat (length entries);
             ts_scalar_count := cn_scalar c;
             ts_collection_count := cn_collection c;
             ts_secret_field_count := cn_secret c;
             ts_body_field_count := cn_body c;
             ts_unknown_value_count := cn_unknown c;
             ts_max_depth := cn_max_depth c;
             ts_shape_hash := canonical_fingerprint
               (JObj [("schema_version"%py, JInt 1); ("shape"%py, shape_json s)]) |}
      | _ => unavailable_summary
      end
  | _ => unavailable_summary
  end.
End summary.

(** ** Requests *)

Record ToolGuardrailRequest := mkToolGuardrailRequest {
  gq_user_id : option pystr;
  gq_roles : option (gset pystr);
  gq_tenant_id : option pystr;
  gq_thread_id : option pystr;
  gq_run_id : option pystr;
  gq_tool_name : option pystr;
  gq_tool_group : option pystr;
  gq_tool_args_summary : option ToolArgsSummary;
  gq_active_skill : option pystr;
  gq_active_skill_registered : option bool;
  gq_active_skill_scope_allows : option bool;
  gq_channel : option pystr;
  gq_network_policy : option pystr;
  gq_resource_scope : option pystr;
  gq_descriptor_requires_approval : option bool;
  gq_approval_granted : option bool
}.

Definition missing_if (b : bool) (name : pystr) : list pystr := if b then [name] else [].
Definition unset {A} (o : option A) : bool := match o with Some _ => false | None => true end.

(** [missing_context_fields] *)
Definition missing_context_fields (q : ToolGuardrailRequest) : list pystr :=
  missing_if (negb (_context_text_is_complete (gq_user_id q))) "user_id"%py
  ++ missing_if (negb (_context_text_is_complete (gq_tenant_id q))) "tenant_id"%py
  ++ missing_if (negb (_context_text_is_complete (gq_thread_id q))) "thread_id"%py
  ++ missing_if (negb (_context_text_is_complete (gq_run_id q))) "run_id"%py
  ++ missing_if (negb (_context_text_is_complete (gq_tool_name q))) "tool_name"%py
  ++ missing_if (negb (_context_text_is_complete (gq_tool_group q))) "tool_group"%py
  ++ missing_if (negb (_context_text_is_complete (gq_channel q))) "channel"%py
  ++ missing_if (negb (_context_text_is_complete (gq_network_policy q))) "network_policy"%py
  ++ missing_if (negb (_context_text_is_complete (gq_resource_scope q))) "resource_scope"%py
  ++ missing_if (unset (gq_roles q)) "roles"%py
  ++ missing_if (match gq_tool_args_summary q with Some s => negb (ts_complete s) | None => true end)
       "tool_args_summary"%py
  ++ missing_if (unset (gq_descriptor_requires_approval q)) "descriptor_requires_approval"%py
  ++ missing_if (unset (gq_approval_granted q)) "approval_granted"%py
  ++ missing_if (unset (gq_active_skill_registered q)) "active_skill_registered"%py
  ++ missing_if (unset (gq_active_skill_scope_allows q)) "active_skill_scope_allows"%py
  ++ missing_if (negb (unset (gq_active_skill q)) && negb (_context_text_is_complete (gq_active_skill q)))
       "active_skill"%py.

(** [has_unknown_context_values] *)
Definition has_unknown_context_values (q : ToolGuardrailRequest) : bool :=
  existsb (fun v => negb (_stable_context_identifier v))
    [gq_tool_name q; gq_tool_group q; gq_channel q; gq_network_policy q; gq_resource_scope q]
  || negb (unset (gq_active_skill q)) && negb (_stable_context_identifier (gq_active_skill q))
  || match gq_roles q with
     | Some roles => (1024 <? Z.of_nat (size roles)) || existsb (fun r => negb (_STABLE_ID_RE r)) (elements roles)
     | None => false
     end.

Definition context_complete (q : ToolGuardrailRequest) : bool :=
  bool_decide (missing_context_fields q = []) && negb (has_unknown_context_values q).

(** ** The policy *)

Record SkillToolScope := mkSkillToolScope {
  sc_skill_name : pystr;
  sc_allowed_tools : gset pystr;
  sc_allowed_groups : gset pystr
}.

Definition _stable_identifier (value field_name : pystr) : outcome unit :=
  check (_STABLE_ID_RE value) (EValue (field_name +++ " must be a stable identifier"%py)%py).
Definition _stable_set (values : gset pystr) (field_name : pystr) : outcome unit :=
  check (forallb _STABLE_ID_RE (elements values)) (EValue (field_name +++ " must be a stable identifier"%py)%py).

(** [SkillToolScope.__post_init__] *)
Definition make_scope (skill_name : pystr) (allowed_tools allowed_groups : gset pystr) : outcome SkillToolScope :=
  _stable_identifier skill_name "skill_name"%py;;
  _stable_set allowed_tools "allowed_tools"%py;;
  _stable_set allowed_groups "allowed_groups"%py;;
  check (negb (bool_decide (allowed_tools = ∅) && bool_decide (allowed_groups = ∅)))
    (EValue "a Skill scope must allow at least one tool or group"%py);;
  mret (mkSkillToolScope skill_name allowed_tools allowed_groups).

Definition scope_allows (s : SkillToolScope) (tool_name tool_group : pystr) : bool :=
  bool_decide (tool_name ∈ sc_allowed_tools s) || bool_decide (tool_group ∈ sc_allowed_groups s).

Record GuardrailPolicy := mkGuardrailPolicy {
  gp_version : pystr;
  gp_known_channels : gset pystr;
  gp_known_network_policies : gset pystr;
  gp_known_resource_scopes : gset pystr;
  gp_known_tool_groups : gset pystr;
  gp_skill_scopes : list SkillToolScope;
  gp_resident_tools : gset pystr;
  gp_control_tools : gset pystr;
  gp_control_groups : gset pystr;
  gp_hard_deny_groups : gset pystr;
  gp_approval_groups : gset pystr;
  gp_restricted_web_tools : gset pystr;
  gp_restricted_network_policy : pystr;
  gp_private_network_policy : pystr;
  gp_public_web_scope : pystr;
  gp_web_group : pystr;
  gp_web_skill : pystr;
  gp_sql_group : pystr;
  gp_sql_skill : pystr;
  gp_sql_admin_role : pystr;
  gp_sql_read_scope : pystr;
  gp_sql_read_only_tools : gset pystr
}.

(** [scope_for] *)
Definition scope_for (p : GuardrailPolicy) (skill_name : pystr) : option SkillToolScope :=
  head (List.filter (fun s => bool_decide (sc_skill_name s = skill_name)) (gp_skill_scopes p)).

(** [sorted(skill_scopes, key=lambda item: item.skill_name)] *)
Fixpoint insert_scope (x : SkillToolScope) (l : list SkillToolScope) : list SkillToolScope :=
  match l with
  | [] => [x]
  | y :: l' => if cps_le (cps_of (sc_skill_name x)) (cps_of (sc_skill_name y)) then x :: l else y :: insert_scope x l'
  end.
Definition sorted_scopes (l : list SkillToolScope) : list SkillToolScope := foldr insert_scope [] l.

Definition set_scopes (l : list SkillToolScope) (p : GuardrailPolicy) : GuardrailPolicy :=
  mkGuardrailPolicy (gp_version p) (gp_known_channels p) (gp_known_network_policies p) (gp_known_resource_scopes p)
    (gp_known_tool_groups p) l (gp_resident_tools p) (gp_control_tools p) (gp_control_groups p)
    (gp_hard_deny_groups p) (gp_approval_groups p) (gp_restricted_web_tools p) (gp_restricted_network_policy p)
    (gp_private_network_policy p) (gp_public_web_scope p) (gp_web_group p) (gp_web_skill p) (gp_sql_group p)
    (gp_sql_skill p) (gp_sql_admin_role p) (gp_sql_read_scope p) (gp_sql_read_only_tools p).

(** [GuardrailPolicy.__post_init__]: the validated policy, its scopes in order. *)
Definition make_policy (p : GuardrailPolicy) : outcome GuardrailPolicy :=
  check (_POLICY_VERSION_RE (gp_version p)) (EValue "version must be a stable policy version"%py);;
  _stable_set (gp_known_channels p) "known_channels"%py;;
  _stable_set (gp_known_network_policies p) "known_network_policies"%py;;
  _stable_set (gp_known_resource_scopes p) "known_resource_scopes"%py;;
  _stable_set (gp_known_tool_groups p) "known_tool_groups"%py;;
  _stable_set (gp_resident_tools p) "resident_tools"%py;;
  _stable_set (gp_control_tools p) "control_tools"%py;;
  _stable_set (gp_control_groups p) "control_groups"%py;;
  _stable_set (gp_hard_deny_groups p) "hard_deny_groups"%py;;
  _stable_set (gp_approval_groups p) "approval_groups"%py;;
  _stable_set (gp_restricted_web_tools p) "restricted_web_tools"%py;;
  _stable_set (gp_sql_read_only_tools p) "sql_read_only_tools"%py;;
  _stable_identifier (gp_restricted_network_policy p) "restricted_network_policy"%py;;
  _stable_identifier (gp_private_network_policy p) "private_network_policy"%py;;
  _stable_identifier (gp_public_web_scope p) "public_web_scope"%py;;
  _stable_identifier (gp_web_group p) "web_group"%py;;
  _stable_identifier (gp_web_skill p) "web_skill"%py;;
  _stable_identifier (gp_sql_group p) "sql_group"%py;;
  _stable_identifier (gp_sql_skill p) "sql_skill"%py;;
  _stable_identifier (gp_sql_admin_role p) "sql_admin_role"%py;;
  _stable_identifier (gp_sql_read_scope p) "sql_read_scope"%py;;
  let p := set_scopes (sorted_scopes (gp_skill_scopes p)) p in
  check (bool_decide (NoDup (sc_skill_name <$> gp_skill_scopes p)))
    (EValue "skill_scopes must use unique Skill names"%py);;
  check (bool_decide (gp_hard_deny_groups p ∩ gp_approval_groups p = ∅))
    (EValue "hard_deny_groups and approval_groups cannot overlap"%py);;
  check (forallb (fun s => bool_decide (s ⊆ gp_known_tool_groups p))
           [gp_control_groups p; gp_hard_deny_groups p; gp_approval_groups p; {[gp_web_group p]}; {[gp_sql_group p]}])
    (EValue "configured policy groups must be known"%py);;
  check (bool_decide (gp_restricted_network_policy p ∈ gp_known_network_policies p))
    (EValue "restricted_network_policy must be known"%py);;
  check (bool_decide (gp_private_network_policy p ∈ gp_known_network_policies p))
    (EValue "private_network_policy must be known"%py);;
  check (bool_decide (gp_public_web_scope p ∈ gp_known_resource_scopes p))
    (EValue "public_web_scope must be known"%py);;
  check (bool_decide (gp_sql_read_scope p ∈ gp_known_resource_scopes p))
    (EValue "sql_read_scope must be known"%py);;
  check (match scope_for p (gp_web_skill p) with
         | Some s => bool_decide (gp_restricted_web_tools p ⊆ sc_allowed_tools s)
         | None => false
         end) (EValue "restricted_web_tools must be inside the Web Research Skill scope"%py);;
  check (match scope_for p (gp_sql_skill p) with
         | Some s => bool_decide (gp_sql_read_only_tools p ⊆ sc_allowed_tools s)
         | None => false
         end) (EValue "sql_read_only_tools must be inside the SQL Skill scope"%py);;
  check (forallb (fun s => bool_decide (sc_allowed_groups s ⊆ gp_known_tool_groups p)) (gp_skill_scopes p))
    (EValue "Skill allowed_groups must be known"%py);;
  mret p.

Definition strs (l : list pystr) : gset pystr := list_to_set l.

(** [DEFAULT_GUARDRAIL_POLICY], as configured and before validation. *)
Definition default_policy_values : GuardrailPolicy := {|
  gp_version := "1.2.0"%py;
  gp_known_channels := strs ["api"; "run"; "web"; "worker"]%py;
  gp_known_network_policies := strs ["none"; "restricted"; "private-data"]%py;
  gp_known_resource_scopes := strs ["none"; "knowledge-read"; "public-web"; "private-data-read"; "thread-read";
    "thread-write"; "process"; "code-execution"]%py;
  gp_known_tool_groups := strs ["knowledge"; "weather"; "registry-control"; "sql"; "web-research"; "shell"; "code";
    "file-write"; "sandbox-execution"; "process"; "network-private"; "high-risk"]%py;
  gp_skill_scopes := [
    mkSkillToolScope "knowledge-base"%py (strs ["search_knowledge_base"]%py) ∅;
    mkSkillToolScope "sql-assistant"%py (strs ["sql_query"; "sql_schema"]%py) ∅;
    mkSkillToolScope "web-research"%py (strs ["web_fetch"; "web_search"]%py) ∅;
    mkSkillToolScope "sandbox"%py (strs ["sandbox_execute"]%py) ∅;
    mkSkillToolScope "file-manager"%py ∅ (strs ["file-write"]%py)];
  gp_resident_tools := strs ["get_current_weather"; "search_knowledge_base"]%py;
  gp_control_tools := strs ["describe_skill"; "tool_search"]%py;
  gp_control_groups := strs ["registry-control"]%py;
  gp_hard_deny_groups := strs ["shell"; "code"; "process"; "network-private"; "high-risk"]%py;
  gp_approval_groups := strs ["file-write"; "sandbox-execution"]%py;
  gp_restricted_web_tools := strs ["web_fetch"; "web_search"]%py;
  gp_restricted_network_policy := "restricted"%py;
  gp_private_network_policy := "private-data"%py;
  gp_public_web_scope := "public-web"%py;
  gp_web_group := "web-research"%py;
  gp_web_skill := "web-research"%py;
  gp_sql_group := "sql"%py;
  gp_sql_skill := "sql-assistant"%py;
  gp_sql_admin_role := "admin"%py;
  gp_sql_read_scope := "private-data-read"%py;
  gp_sql_read_only_tools := strs ["sql_query"; "sql_schema"]%py
|}.

(** ** The deterministic provider *)

Definition deny (r : GuardrailReasonCode) : GuardrailDirective := mkGuardrailDirective DENY r.

(** [_check_sql], on a request whose context is complete. *)
Definition _check_sql (p : GuardrailPolicy) (q : ToolGuardrailRequest) : option GuardrailDirective :=
  let is_sql_group := bool_decide (gq_tool_group q = Some (gp_sql_group p)) in
  let is_sql_tool :=
    match gq_tool_name q with Some n => bool_decide (n ∈ gp_sql_read_only_tools p) | None => false end in
  if negb is_sql_group && negb is_sql_tool then
    if bool_decide (gq_network_policy q = Some (gp_private_network_policy p))
    then Some (deny PRIVATE_NETWORK_DENIED)
    else None
  else if negb is_sql_group || bool_decide (gq_active_skill q ≠ Some (gp_sql_skill p))
  then Some (deny SQL_CONTEXT_REQUIRED)
  else if bool_decide (gq_network_policy q ≠ Some (gp_private_network_policy p))
  then Some (deny SQL_PRIVATE_NETWORK_REQUIRED)
  else if negb (match gq_roles q with Some rs => bool_decide (gp_sql_admin_role p ∈ rs) | None => false end)
  then Some (deny SQL_ADMIN_REQUIRED)
  else if negb is_sql_tool then Some (deny SQL_READ_ONLY_TOOL_REQUIRED)
  else if bool_decide (gq_resource_scope q ≠ Some (gp_sql_read_scope p))
  then Some (deny SQL_RESOURCE_SCOPE_DENIED)
  else None.

(** [value in known] for a field the context check has found set. *)
Definition known (o : option pystr) (s : gset pystr) : bool :=
  match o with Some x => bool_decide (x ∈ s) | None => false end.
Definition is_true (o : option bool) : bool := match o with Some b => b | None => false end.

(** [DeterministicToolGuardrailProvider.decide] *)
Definition base_decide (p : GuardrailPolicy) (q : ToolGuardrailRequest) : GuardrailDirective :=
  if negb (bool_decide (missing_context_fields q = [])) then deny CONTEXT_INCOMPLETE
  else if has_unknown_context_values q then deny CONTEXT_UNKNOWN
  else if negb (known (gq_channel q) (gp_known_channels p)) then deny CHANNEL_UNKNOWN
  else if negb (known (gq_network_policy q) (gp_known_network_policies p)) then deny NETWORK_POLICY_UNKNOWN
  else if negb (known (gq_resource_scope q) (gp_known_resource_scopes p)) then deny RESOURCE_SCOPE_UNKNOWN
  else if negb (known (gq_tool_group q) (gp_known_tool_groups p)) then deny TOOL_GROUP_UNKNOWN
  else if known (gq_tool_group q) (gp_hard_deny_groups p) then deny HIGH_RISK_TOOL_DENIED
  else
    match _check_sql p q with
    | Some sql_rule => sql_rule
    | None =>
        if is_true (gq_descriptor_requires_approval q) && negb (is_true (gq_approval_granted q))
        then mkGuardrailDirective REQUIRE_APPROVAL DESCRIPTOR_APPROVAL_REQUIRED
        else if known (gq_tool_group q) (gp_approval_groups p) then
          if is_true (gq_approval_granted q) then mkGuardrailDirective ALLOW ALLOWED
          else mkGuardrailDirective REQUIRE_APPROVAL HIGH_RISK_TOOL_APPROVAL_REQUIRED
        else mkGuardrailDirective ALLOW ALLOWED
    end.

(** ** Results *)

Record ToolGuardrailResult := mkToolGuardrailResult {
  gr_decision : GuardrailDecision;
  gr_reason_code : GuardrailReasonCode;
  gr_policy_version : pystr;
  gr_policy_hash : pystr;
  gr_safe_metadata : list (pystr * json)
}.

Definition _SAFE_METADATA_IDENTIFIER_KEYS : list pystr :=
  ["active_skill"; "channel"; "network_policy"; "resource_scope"; "tool_group"; "tool_name"]%py.
Definition _SAFE_METADATA_BOOLEAN_KEYS : list pystr :=
  ["active_skill_registered"; "active_skill_scope_allows"; "approval_granted"; "context_complete"]%py.
Definition _SAFE_METADATA_KEYS : list pystr :=
  _SAFE_METADATA_IDENTIFIER_KEYS ++ _SAFE_METADATA_BOOLEAN_KEYS ++ ["descriptor_requires_approval"; "role_count"]%py.

Definition str_in (k : pystr) (l : list pystr) : bool := bool_decide (k ∈ l).

(** The checks of one entry. *)
Definition metadata_entry (e : pystr * json) : outcome unit :=
  let '(key, value) := e in
  check (match value with JStr _ | JInt _ | JBool _ | JNull => true | _ => false end)
    (EClass "TypeError"%py "safe_metadata contains an unsafe value"%py);;
  check (negb (str_in key _SAFE_METADATA_IDENTIFIER_KEYS)
         || match value with JStr s => _STABLE_ID_RE s | _ => false end)
    (EValue "safe_metadata contains an unsafe identifier"%py);;
  check (negb (str_in key _SAFE_METADATA_BOOLEAN_KEYS)
         || match value with JNull | JBool _ => true | _ => false end)
    (EClass "TypeError"%py "safe_metadata contains an unsafe boolean"%py);;
  check (negb (bool_decide (key = "descriptor_requires_approval"%py))
         || match value with JNull | JBool _ => true | _ => false end)
    (EClass "TypeError"%py "safe_metadata contains an unsafe approval flag"%py);;
  check (negb (bool_decide (key = "role_count"%py))
         || match value with JInt n => (0 <=? n) && (n <=? 1024) | _ => false end)
    (EValue "safe_metadata contains an unsafe role count"%py).

Fixpoint metadata_entries (l : list (pystr * json)) : outcome unit :=
  match l with [] => mret tt | e :: l => metadata_entry e;; metadata_entries l end.

(** [ToolGuardrailResult.__post_init__] *)
Definition make_result (d : GuardrailDecision) (r : GuardrailReasonCode) (version hash : pystr)
    (metadata : list (pystr * json)) : outcome ToolGuardrailResult :=
  make_directive d r;;
  check (_POLICY_VERSION_RE version) (EValue "policy_version must be a stable version"%py);;
  check (is_hex_digest hash) (EValue "policy_hash must be a lowercase SHA-256 digest"%py);;
  check (forallb (fun e => str_in e.1 _SAFE_METADATA_KEYS) metadata)
    (EValue "safe_metadata contains an unknown key"%py);;
  metadata_entries metadata;;
  mret (mkToolGuardrailResult d r version hash metadata).

Definition _safe_identifier (value : option pystr) : json :=
  JStr match value with Some s => if _STABLE_ID_RE s then s else "unknown"%py | None => "unknown"%py end.

Definition opt_bool (o : option bool) : json := match o with Some b => JBool b | None => JNull end.

(** [_safe_metadata]; an object that is not a request is [None]. *)
Definition _safe_metadata (request : option ToolGuardrailRequest) : list (pystr * json) :=
  match request with
  | None =>
      [("active_skill", JStr "unknown"); ("active_skill_registered", JNull); ("active_skill_scope_allows", JNull);
       ("approval_granted", JNull); ("channel", JStr "unknown"); ("context_complete", JBool false);
       ("descriptor_requires_approval", JNull); ("network_policy", JStr "unknown");
       ("resource_scope", JStr "unknown"); ("role_count", JInt 0); ("tool_group", JStr "unknown");
       ("tool_name", JStr "unknown")]%py
  | Some q =>
      [("active_skill"%py, match gq_active_skill q with None => JStr "inactive"%py | o => _safe_identifier o end);
       ("active_skill_registered"%py, opt_bool (gq_active_skill_registered q));
       ("active_skill_scope_allows"%py, opt_bool (gq_active_skill_scope_allows q));
       ("approval_granted"%py, opt_bool (gq_approval_granted q));
       ("channel"%py, _safe_identifier (gq_channel q));
       ("context_complete"%py, JBool (context_complete q));
       ("descriptor_requires_approval"%py, opt_bool (gq_descriptor_requires_approval q));
       ("network_policy"%py, _safe_identifier (gq_network_policy q));
       ("resource_scope"%py, _safe_identifier (gq_resource_scope q));
       ("role_count"%py, JInt (Z.min (match gq_roles q with Some rs => Z.of_nat (size rs) | None => 0 end) 1024));
       ("tool_group"%py, _safe_identifier (gq_tool_group q));
       ("tool_name"%py, _safe_identifier (gq_tool_name q))]
  end.

(** ** The guardrail *)

(** What a provider does with a request: it raises, returns something that is not a
    directive ([None]), or returns a directive. *)
Definition GuardrailProvider := ToolGuardrailRequest -> outcome (option GuardrailDirective).

Definition sorted_set (s : gset pystr) : json := JArr (JStr <$> sorted_str (elements s)).

(** [canonical_record] *)
Definition canonical_record (s : SkillToolScope) : json :=
  JObj [("skill_name"%py, JStr (sc_skill_name s)); ("allowed_tools"%py, sorted_set (sc_allowed_tools s));
        ("allowed_groups"%py, sorted_set (sc_allowed_groups s))].

Section guardrail.
Context (canonical_fingerprint : json -> pystr).

(** [policy_hash] *)
Definition policy_record (p : GuardrailPolicy) : json :=
  JObj [("schema_version"%py, JInt 1); ("version"%py, JStr (gp_version p));
        ("known_channels"%py, sorted_set (gp_known_channels p));
        ("known_network_policies"%py, sorted_set (gp_known_network_policies p));
        ("known_resource_scopes"%py, sorted_set (gp_known_resource_scopes p));
        ("known_tool_groups"%py, sorted_set (gp_known_tool_groups p));
        ("skill_scopes"%py, JArr (canonical_record <$> gp_skill_scopes p));
        ("resident_tools"%py, sorted_set (gp_resident_tools p));
        ("control_tools"%py, sorted_set (gp_control_tools p));
        ("control_groups"%py, sorted_set (gp_control_groups p));
        ("hard_deny_groups"%py, sorted_set (gp_hard_deny_groups p));
        ("approval_groups"%py, sorted_set (gp_approval_groups p));
        ("restricted_web_tools"%py, sorted_set (gp_restricted_web_tools p));
        ("restricted_network_policy"%py, JStr (gp_restricted_network_policy p));
        ("private_network_policy"%py, JStr (gp_private_network_policy p));
        ("public_web_scope"%py, JStr (gp_public_web_scope p));
        ("web_group"%py, JStr (gp_web_group p)); ("web_skill"%py, JStr (gp_web_skill p));
        ("sql_group"%py, JStr (gp_sql_group p)); ("sql_skill"%py, JStr (gp_sql_skill p));
        ("sql_admin_role"%py, JStr (gp_sql_admin_role p)); ("sql_read_scope"%py, JStr (gp_sql_read_scope p));
        ("sql_read_only_tools"%py, sorted_set (gp_sql_read_only_tools p))].
Definition policy_hash (p : GuardrailPolicy) : pystr := canonical_fingerprint (policy_record p).

(** The directive [evaluate] settles on. *)
Definition combined_directive (p : GuardrailPolicy) (provider : option GuardrailProvider) (q : ToolGuardrailRequest) :
    GuardrailDirective :=
  let base := base_decide p q in
  match provider with
  | Some decide_ =>
      if bool_decide (gd_decision base = DENY) then base
      else
        match decide_ q with
        | Ret (Some d) =>
            if bool_decide (gd_decision base = ALLOW) || bool_decide (gd_decision d = DENY) then d else base
        | Ret None | Raise _ => deny POLICY_PROVIDER_FAILED
        end
  | None => base
  end.

(** [ToolGuardrail.evaluate] *)
Definition evaluate (p : GuardrailPolicy) (provider : option GuardrailProvider)
    (request : option ToolGuardrailRequest) : outcome ToolGuardrailResult :=
  let directive :=
    match request with
    | None => deny CONTEXT_INCOMPLETE
    | Some q => combined_directive p provider q
    end in
  make_result (gd_decision directive) (gd_reason_code directive) (gp_version p) (policy_hash p)
    (_safe_metadata request).
End guardrail.
