(* ===== verification/GuardrailProps.v ===== *)
(** * Properties of the tool guardrail

    The guardrail always answers, allows exactly what the policy admits, and a
    provider can only tighten its decision; the summary of the arguments is bounded
    on any object graph and independent of what the arguments contain. *)

From S2P Require Import Prelude PyBase Errors Session Guardrail.

Open Scope Z_scope.

(** ** Decisions *)

(** What the policy admits, said without the order of the checks. *)
Record admissible (p : GuardrailPolicy) (q : ToolGuardrailRequest) : Prop := mkAdmissible {
  ad_complete : context_complete q = true;
  ad_channel : known (gq_channel q) (gp_known_channels p) = true;
  ad_network : known (gq_network_policy q) (gp_known_network_policies p) = true;
  ad_scope : known (gq_resource_scope q) (gp_known_resource_scopes p) = true;
  ad_group : known (gq_tool_group q) (gp_known_tool_groups p) = true;
  ad_not_denied : known (gq_tool_group q) (gp_hard_deny_groups p) = false;
  ad_sql :
    (** SQL tools run in the SQL skill, for administrators, on private read-only data *)
    (gq_tool_group q = Some (gp_sql_group p) /\ known (gq_tool_name q) (gp_sql_read_only_tools p) = true /\
     gq_active_skill q = Some (gp_sql_skill p) /\ gq_network_policy q = Some (gp_private_network_policy p) /\
     (exists rs, gq_roles q = Some rs /\ gp_sql_admin_role p ∈ rs) /\
     gq_resource_scope q = Some (gp_sql_read_scope p)) \/
    (** and no other tool touches them or the private network *)
    (gq_tool_group q <> Some (gp_sql_group p) /\ known (gq_tool_name q) (gp_sql_read_only_tools p) = false /\
     gq_network_policy q <> Some (gp_private_network_policy p));
  ad_approval :
    is_true (gq_descriptor_requires_approval q) || known (gq_tool_group q) (gp_approval_groups p) = true ->
    is_true (gq_approval_granted q) = true
}.

Lemma check_sql_passes p q :
  _check_sql p q = None <->
  (gq_tool_group q = Some (gp_sql_group p) /\ known (gq_tool_name q) (gp_sql_read_only_tools p) = true /\
   gq_active_skill q = Some (gp_sql_skill p) /\ gq_network_policy q = Some (gp_private_network_policy p) /\
   (exists rs, gq_roles q = Some rs /\ gp_sql_admin_role p ∈ rs) /\
   gq_resource_scope q = Some (gp_sql_read_scope p)) \/
  (gq_tool_group q <> Some (gp_sql_group p) /\ known (gq_tool_name q) (gp_sql_read_only_tools p) = false /\
   gq_network_policy q <> Some (gp_private_network_policy p)).
Proof.
  unfold _check_sql, known. cbv zeta.
  set (tool := match gq_tool_name q with Some n => _ | None => false end).
  destruct (decide (gq_tool_group q = Some (gp_sql_group p))) as [G|G];
    [rewrite (bool_decide_eq_true_2 _ G)|rewrite (bool_decide_eq_false_2 _ G)]; simpl.
  - case_bool_decide; simpl; [split; [done|naive_solver]|]. case_bool_decide; [split; [done|naive_solver]|].
    destruct (gq_roles q) as [rs|]; simpl; [|split; [done|naive_solver]].
    case_bool_decide; simpl; [|split; [done|naive_solver]].
    destruct tool; simpl; [|split; [done|naive_solver]].
    case_bool_decide; [split; [done|naive_solver]|]. split; [intros _; left|done].
    split_and!; try done; try (by apply dec_stable). eauto.
  - destruct tool; simpl; [split; [done|naive_solver]|].
    case_bool_decide; [split; [done|naive_solver]|]. split; [|done]. intros _. by right.
Qed.

Lemma check_sql_denies p q d : _check_sql p q = Some d -> gd_decision d = DENY /\ directive_ok DENY (gd_reason_code d) = true.
Proof. unfold _check_sql, deny. cbv zeta. intros H. break_match_in H; done. Qed.

Lemma base_decide_allow p q : gd_decision (base_decide p q) = ALLOW <-> admissible p q.
Proof.
  unfold base_decide. split.
  - intros H.
    destruct (bool_decide (missing_context_fields q = [])) eqn:E1; [|done].
    destruct (has_unknown_context_values q) eqn:E2; [done|].
    destruct (known (gq_channel q) _) eqn:E3; [|done]. destruct (known (gq_network_policy q) _) eqn:E4; [|done].
    destruct (known (gq_resource_scope q) _) eqn:E5; [|done].
    destruct (known (gq_tool_group q) (gp_known_tool_groups p)) eqn:E6; [|done].
    destruct (known (gq_tool_group q) (gp_hard_deny_groups p)) eqn:E7; [done|]. simpl in H.
    destruct (_check_sql p q) as [d|] eqn:E8; [apply check_sql_denies in E8 as [E8 _]; congruence|].
    split; try done; [unfold context_complete; by rewrite E1, E2|by apply check_sql_passes|].
    intros A. destruct (is_true (gq_approval_granted q)); [done|].
    destruct (is_true (gq_descriptor_requires_approval q)); simpl in *; [done|]. by rewrite A in H.
  - intros [C H3 H4 H5 H6 H7 H8 H9]. unfold context_complete in C. apply andb_true_iff in C as [C1 C2%negb_true_iff].
    rewrite C1, C2, H3, H4, H5, H6, H7. simpl. rewrite (proj2 (check_sql_passes p q) H8).
    destruct (is_true (gq_descriptor_requires_approval q)) eqn:Ed; simpl in *.
    + rewrite (H9 eq_refl). simpl. by destruct (known (gq_tool_group q) (gp_approval_groups p)).
    + destruct (known (gq_tool_group q) (gp_approval_groups p)); [|done]. by rewrite H9.
Qed.

Lemma base_decide_ok p q :
  directive_ok (gd_decision (base_decide p q)) (gd_reason_code (base_decide p q)) = true.
Proof.
  unfold base_decide. pose proof (check_sql_denies p q) as D.
  do 7 (match goal with |- context [if ?b then deny _ else _] => destruct b; [reflexivity|] end).
  destruct (_check_sql p q) as [d|]; [by destruct (D d eq_refl) as [-> ?]|clear D].
  by repeat (match goal with |- context [if ?b then _ else _] => destruct b end).
Qed.

(** The strictness of a decision. *)
Definition rank (d : GuardrailDecision) : Z := match d with DENY => 0 | REQUIRE_APPROVAL => 1 | ALLOW => 2 end.

(** What a provider answers, a failure counting as a denial. *)
Definition provider_decision (provider : option GuardrailProvider) (q : ToolGuardrailRequest) : GuardrailDecision :=
  match provider with
  | None => ALLOW
  | Some f => match f q with Ret (Some d) => gd_decision d | _ => DENY end
  end.

Lemma combined_rank p provider q :
  rank (gd_decision (combined_directive p provider q)) =
    Z.min (rank (gd_decision (base_decide p q))) (rank (provider_decision provider q)).
Proof.
  unfold combined_directive, provider_decision. destruct provider as [f|]; [|by destruct (gd_decision _)].
  destruct (gd_decision (base_decide p q)) eqn:E; simpl.
  - by destruct (f q) as [[d|]|e]; simpl; [destruct (gd_decision d)|..].
  - rewrite E. by destruct (f q) as [[d|]|e]; simpl; [destruct (gd_decision d)|..].
  - destruct (f q) as [[d|]|e]; simpl; try done.
    destruct (gd_decision d) eqn:Ed; simpl; by rewrite ?E, ?Ed.
Qed.

(** Directives are only built by their constructor. *)
Definition provider_ok (provider : option GuardrailProvider) : Prop :=
  forall f q d, provider = Some f -> f q = Ret (Some d) -> directive_ok (gd_decision d) (gd_reason_code d) = true.

Lemma combined_ok p provider q :
  provider_ok provider ->
  directive_ok (gd_decision (combined_directive p provider q)) (gd_reason_code (combined_directive p provider q)) = true.
Proof.
  intros P. unfold combined_directive. pose proof (base_decide_ok p q) as B.
  destruct provider as [f|]; [|done]. case_bool_decide; [done|].
  destruct (f q) as [[d|]|e] eqn:E; [|by vm_compute..].
  destruct (_ || _); [|done]. by eapply P.
Qed.

Lemma make_directive_run d r : directive_ok d r = true -> make_directive d r = Ret (mkGuardrailDirective d r).
Proof. unfold make_directive, check. destruct d; simpl; by intros ->. Qed.

Lemma make_policy_version p0 p : make_policy p0 = Ret p -> _POLICY_VERSION_RE (gp_version p) = true.
Proof.
  unfold make_policy. intros (x & V%check_inv & H)%outcome_bind_inv.
  repeat (apply outcome_bind_inv in H as (? & _ & H)). by injection H as <-.
Qed.

Lemma safe_identifier_ok o : match _safe_identifier o with JStr s => _STABLE_ID_RE s | _ => false end = true.
Proof. unfold _safe_identifier. destruct o as [s|]; [|by vm_compute]. by destruct (_STABLE_ID_RE s) eqn:E. Qed.

Lemma identifier_entry key o :
  str_in key _SAFE_METADATA_IDENTIFIER_KEYS = true -> metadata_entry (key, _safe_identifier o) = Ret tt.
Proof.
  intros Hk. pose proof (safe_identifier_ok o) as S. unfold str_in in Hk. apply bool_decide_eq_true in Hk.
  unfold metadata_entry. unfold _safe_identifier in *. rewrite S. unfold _SAFE_METADATA_IDENTIFIER_KEYS in Hk.
  repeat (apply elem_of_cons in Hk as [->|Hk]; [reflexivity|]). by apply elem_of_nil in Hk.
Qed.

Lemma flag_entry key o :
  str_in key (_SAFE_METADATA_BOOLEAN_KEYS ++ ["descriptor_requires_approval"%py]) = true ->
  metadata_entry (key, opt_bool o) = Ret tt.
Proof.
  intros Hk. unfold str_in in Hk. apply bool_decide_eq_true in Hk.
  unfold _SAFE_METADATA_BOOLEAN_KEYS in Hk. cbn [app] in Hk.
  repeat (apply elem_of_cons in Hk as [->|Hk]; [by destruct o|]). by apply elem_of_nil in Hk.
Qed.

Lemma safe_metadata_ok request : metadata_entries (_safe_metadata request) = Ret tt.
Proof.
  destruct request as [q|]; [|by vm_compute]. unfold _safe_metadata.
  cbn [metadata_entries].
  assert (metadata_entry ("active_skill"%py, match gq_active_skill q with None => JStr "inactive"%py | o => _safe_identifier o end)
    = Ret tt) as -> by (destruct (gq_active_skill q); [by apply identifier_entry|by vm_compute]).
  rewrite !flag_entry, !identifier_entry by (by vm_compute).
  assert (metadata_entry ("context_complete"%py, JBool (context_complete q)) = Ret tt) as ->
    by apply (flag_entry "context_complete"%py (Some (context_complete q)) ltac:(by vm_compute)).
  set (n := match gq_roles q with Some rs => Z.of_nat (size rs) | None => 0 end).
  assert (0 <= n) by (unfold n; destruct (gq_roles q); lia).
  assert (metadata_entry ("role_count"%py, JInt (Z.min n 1024)) = Ret tt) as ->; [|done].
  unfold metadata_entry. simpl. rewrite (proj2 (Z.leb_le 0 _)), (proj2 (Z.leb_le _ 1024)) by lia. done.
Qed.

(** A request with another state of its active skill. *)
Definition with_skill_state (registered allows : bool) (q : ToolGuardrailRequest) : ToolGuardrailRequest :=
  mkToolGuardrailRequest (gq_user_id q) (gq_roles q) (gq_tenant_id q) (gq_thread_id q) (gq_run_id q) (gq_tool_name q)
    (gq_tool_group q) (gq_tool_args_summary q) (gq_active_skill q) (Some registered) (Some allows) (gq_channel q)
    (gq_network_policy q) (gq_resource_scope q) (gq_descriptor_requires_approval q) (gq_approval_granted q).

(** The policy does not look at whether the active skill is registered or admits the
    tool, only that both are known. *)
Lemma skill_scope_not_consulted p q b1 b2 c1 c2 :
  base_decide p (with_skill_state b1 b2 q) = base_decide p (with_skill_state c1 c2 q).
Proof. reflexivity. Qed.

Section guardrail_props.
Context (canonical_fingerprint : json -> pystr).

(** A SHA-256 digest in hexadecimal. *)
Definition fingerprint_ok : Prop := forall j, is_hex_digest (canonical_fingerprint j) = true.

Lemma evaluate_run p0 p provider request :
  fingerprint_ok -> make_policy p0 = Ret p -> provider_ok provider ->
  let d := match request with Some q => combined_directive p provider q | None => deny CONTEXT_INCOMPLETE end in
  evaluate canonical_fingerprint p provider request =
    Ret (mkToolGuardrailResult (gd_decision d) (gd_reason_code d) (gp_version p) (policy_hash canonical_fingerprint p)
           (_safe_metadata request)).
Proof.
  intros F V P d.
  assert (directive_ok (gd_decision d) (gd_reason_code d) = true) as D.
  { unfold d. destruct request; [by apply combined_ok|by vm_compute]. }
  unfold evaluate. cbv zeta. fold d. unfold make_result. rewrite (make_directive_run _ _ D).
  unfold mbind, outcome_bind. unfold check at 1. rewrite (make_policy_version _ _ V).
  unfold check at 1. unfold policy_hash at 1. rewrite F.
  assert (forallb (fun e => str_in e.1 _SAFE_METADATA_KEYS) (_safe_metadata request) = true) as K
    by (destruct request; by vm_compute).
  unfold check at 1. rewrite K, safe_metadata_ok. done.
Qed.

(** C28. The guardrail always answers and fails closed: under a validated policy
    every evaluation returns a result, whatever the request and the provider do; it
    is a denial when the request is no request, when its context is incomplete or
    unknown, and when the provider raises or returns no directive to a request the
    policy alone would not deny. *)
Theorem guardrail_fails_closed p0 p provider request :
  fingerprint_ok -> make_policy p0 = Ret p -> provider_ok provider ->
  exists r, evaluate canonical_fingerprint p provider request = Ret r /\
    gr_policy_version r = gp_version p /\ gr_policy_hash r = policy_hash canonical_fingerprint p /\
    directive_ok (gr_decision r) (gr_reason_code r) = true /\
    match request with
    | None => gr_decision r = DENY
    | Some q =>
        (context_complete q = false -> gr_decision r = DENY) /\
        (forall f, provider = Some f -> match f q with Ret (Some _) => False | _ => True end -> gr_decision r = DENY)
    end.
Proof.
  intros F V P. rewrite (evaluate_run _ _ _ _ F V P). cbv zeta. eexists. split; [reflexivity|]. simpl.
  split_and!; try done.
  - destruct request; [by apply combined_ok|by vm_compute].
  - destruct request as [q|]; [|done]. pose proof (combined_rank p provider q) as R. split.
    + intros C. destruct (gd_decision (base_decide p q)) eqn:E.
      * apply base_decide_allow in E as [C' _]. congruence.
      * destruct (gd_decision (combined_directive p provider q)); simpl in R; [|done|]; destruct (provider_decision _ _); done.
      * exfalso. revert E C. unfold base_decide, context_complete.
        destruct (bool_decide (missing_context_fields q = [])); [|done].
        destruct (has_unknown_context_values q); [done|]. done.
    + intros f -> Hf. unfold provider_decision in R. destruct (f q) as [[d|]|e]; try done;
        destruct (gd_decision (combined_directive _ _ _)), (gd_decision (base_decide p q)); done.
Qed.

(** C29. The guardrail allows exactly what the policy admits and the provider does not
    restrict: a complete request for a known, not forbidden tool group from a known
    channel, with the SQL and private-network rules kept and every approval the
    tool needs granted. Whether the active skill is registered and admits the tool is
    not part of it: the two flags must be known for the context to be complete, but
    their values do not change the decision of the policy. This is how the code is
    written (its module comment leaves the check to the tool session) and differs from
    step 3 of the decision order in ADR 0020, by which the default policy checks
    both. *)
Theorem guardrail_allows_exactly p0 p provider q :
  fingerprint_ok -> make_policy p0 = Ret p -> provider_ok provider ->
  (exists r, evaluate canonical_fingerprint p provider (Some q) = Ret r /\
     (gr_decision r = ALLOW <-> admissible p q /\ provider_decision provider q = ALLOW)) /\
  forall registered allows registered' allows', exists r r',
    evaluate canonical_fingerprint p None (Some (with_skill_state registered allows q)) = Ret r /\
    evaluate canonical_fingerprint p None (Some (with_skill_state registered' allows' q)) = Ret r' /\
    gr_decision r = gr_decision r'.
Proof.
  intros F V P. split.
  - rewrite (evaluate_run _ _ _ _ F V P). cbv zeta. eexists. split; [reflexivity|]. simpl.
    rewrite <- base_decide_allow. pose proof (combined_rank p provider q) as R.
    destruct (gd_decision (combined_directive p provider q)), (gd_decision (base_decide p q)), (provider_decision provider q);
      naive_solver.
  - intros b1 b2 c1 c2. rewrite !(evaluate_run _ _ None _ F V) by done. cbv zeta.
    eexists _, _. split_and!; [reflexivity..|]. unfold combined_directive. simpl.
    by rewrite (skill_scope_not_consulted p q b1 b2 c1 c2).
Qed.

(** A provider can only tighten: the decision with a provider is the stricter of
    the policy's own decision and the provider's, a failing provider counting as a
    denial. *)
Theorem provider_only_tightens p0 p provider q :
  fingerprint_ok -> make_policy p0 = Ret p -> provider_ok provider ->
  exists r r0, evaluate canonical_fingerprint p provider (Some q) = Ret r /\
    evaluate canonical_fingerprint p None (Some q) = Ret r0 /\
    rank (gr_decision r) = Z.min (rank (gr_decision r0)) (rank (provider_decision provider q)).
Proof.
  intros F V P. rewrite (evaluate_run _ _ _ _ F V P), (evaluate_run _ _ None _ F V) by done. cbv zeta.
  eexists _, _. split_and!; [reflexivity..|]. simpl. apply combined_rank.
Qed.
End guardrail_props.

(** ** A concrete guardrail: the default policy and an administrator's SQL query *)

Definition hex64 : json -> pystr := fun _ => PyStr (repeat 48%N 64).
Definition default_policy : GuardrailPolicy :=
  match make_policy default_policy_values with Ret p => p | Raise _ => default_policy_values end.
Definition sql_request (approved : bool) : ToolGuardrailRequest := {|
  gq_user_id := Some "u1"%py; gq_roles := Some {["admin"%py]}; gq_tenant_id := Some "t1"%py;
  gq_thread_id := Some "thread"%py; gq_run_id := Some "run"%py; gq_tool_name := Some "sql_query"%py;
  gq_tool_group := Some "sql"%py; gq_tool_args_summary := Some (mkToolArgsSummary true 1 1 1 0 1 0 1 (hex64 JNull));
  gq_active_skill := Some "sql-assistant"%py; gq_active_skill_registered := Some true;
  gq_active_skill_scope_allows := Some true; gq_channel := Some "run"%py;
  gq_network_policy := Some "private-data"%py; gq_resource_scope := Some "private-data-read"%py;
  gq_descriptor_requires_approval := Some true; gq_approval_granted := Some approved |}.
Definition failing : GuardrailProvider := fun _ => Raise (EValue "unreachable"%py).

Lemma hex64_ok : fingerprint_ok hex64.
Proof. intros j. vm_compute. reflexivity. Defined.
Lemma failing_ok : provider_ok (Some failing).
Proof. intros f q d H. injection H as <-. discriminate. Defined.
Lemma no_provider_ok : provider_ok None.
Proof. intros f q d H. discriminate. Defined.
Lemma default_policy_valid : make_policy default_policy_values = Ret default_policy.
Proof. vm_compute. reflexivity. Defined.

Definition decision_of (o : outcome ToolGuardrailResult) : option GuardrailDecision :=
  match o with Ret r => Some (gr_decision r) | Raise _ => None end.

Lemma guardrail_fails_closed_witness :
  decision_of (evaluate hex64 default_policy (Some failing) (Some (sql_request true))) = Some DENY.
Proof.
  destruct (guardrail_fails_closed hex64 default_policy_values default_policy (Some failing) (Some (sql_request true))
              hex64_ok default_policy_valid failing_ok) as (r & -> & _ & _ & _ & _ & F).
  simpl. f_equal. exact (F failing eq_refl I).
Defined.

(** An approved query is admitted, even for a skill that is not registered and does
    not admit the tool. *)
Lemma guardrail_allows_exactly_witness :
  admissible default_policy (sql_request true) /\
  decision_of (evaluate hex64 default_policy None (Some (with_skill_state false false (sql_request true)))) = Some ALLOW.
Proof.
  destruct (guardrail_allows_exactly hex64 default_policy_values default_policy None (sql_request true)
              hex64_ok default_policy_valid no_provider_ok) as [(r & E & A) S].
  assert (decision_of (evaluate hex64 default_policy None (Some (sql_request true))) = Some ALLOW) as D
    by (vm_compute; reflexivity).
  split.
  - rewrite E in D. simpl in D. injection D as D. apply A in D. exact (proj1 D).
  - destruct (S false false true true) as (r1 & r2 & E1 & E2 & Q). rewrite E1. simpl. rewrite Q.
    change (with_skill_state true true (sql_request true)) with (sql_request true) in E2.
    rewrite E2 in D. exact D.
Defined.

Lemma provider_only_tightens_witness :
  decision_of (evaluate hex64 default_policy None (Some (sql_request false))) = Some REQUIRE_APPROVAL /\
  exists r, evaluate hex64 default_policy (Some failing) (Some (sql_request false)) = Ret r /\ rank (gr_decision r) = 0.
Proof.
  destruct (provider_only_tightens hex64 default_policy_values default_policy (Some failing) (sql_request false)
              hex64_ok default_policy_valid failing_ok) as (r & r0 & E & E0 & R).
  assert (decision_of (evaluate hex64 default_policy None (Some (sql_request false))) = Some REQUIRE_APPROVAL) as D
    by (vm_compute; reflexivity).
  split; [exact D|]. exists r. split; [exact E|]. rewrite E0 in D. simpl in D. injection D as D.
  rewrite R, D. reflexivity.
Defined.
