(* ===== verification/GuardrailSummary.v ===== *)
(** * The summary of tool arguments

    The visit of an argument graph ends on every heap, shared and cyclic ones
    included, and its counters are bounded; what it returns does not depend on the
    contents of the arguments, only on their shape and on the classes of the keys. *)

From S2P Require Import Prelude PyBase Errors Session Guardrail.

Open Scope Z_scope.

Section summary_props.
Context (canonical_fingerprint : json -> pystr) (set_order : gset pystr -> list pystr).

Abbreviation visit := (visit set_order).
Abbreviation visit_entries := (visit_entries set_order).
Abbreviation classify_key := (classify_key set_order).

(** ** Fuel *)

Lemma visit_entries_ext (go1 go2 : pyval -> Z -> Counters -> shape * Counters) entries depth :
  (forall v c, go1 v depth c = go2 v depth c) ->
  forall c, visit_entries go1 entries depth c = visit_entries go2 entries depth c.
Proof.
  intros E. induction entries as [|[k v] l IH]; intros c; simpl; [done|].
  destruct (classify_key k c) as [kc c1]. rewrite E. destruct (go2 v depth c1). by rewrite IH.
Qed.

Lemma visit_items_ext (go1 go2 : pyval -> Z -> Counters -> shape * Counters) items depth :
  (forall v c, go1 v depth c = go2 v depth c) ->
  forall c, visit_items go1 items depth c = visit_items go2 items depth c.
Proof.
  intros E. induction items as [|v l IH]; intros c; simpl; [done|].
  rewrite E. destruct (go2 v depth c). by rewrite IH.
Qed.

Lemma visit_more_fuel fuel fuel' h active v depth c :
  (1 <= fuel)%nat -> (1 <= fuel')%nat -> 18 <= Z.of_nat fuel + depth -> 18 <= Z.of_nat fuel' + depth ->
  visit fuel h active v depth c = visit fuel' h active v depth c.
Proof.
  revert fuel' active v depth c.
  induction fuel as [|fuel IH]; intros fuel' active v depth c F F' D D'; [lia|]. destruct fuel' as [|fuel']; [lia|].
  simpl. destruct (_MAX_ARGUMENT_NODES <? _); [done|]. simpl.
  destruct (_MAX_ARGUMENT_DEPTH <? depth) eqn:L; [done|]. unfold _MAX_ARGUMENT_DEPTH in L. apply Z.ltb_ge in L.
  destruct v as [| | |[]| | |a|]; try done. destruct (h !! a) as [o|]; [|done]. destruct (decide _); [done|].
  assert (forall v c, visit fuel h ({[a]} ∪ active) v (depth + 1) c = visit fuel' h ({[a]} ∪ active) v (depth + 1) c) as E
    by (intros; apply IH; lia).
  destruct o as [entries|items].
  - by rewrite (visit_entries_ext _ _ entries _ E).
  - by rewrite (visit_items_ext _ _ items _ E).
Qed.

(** ** Counters *)

Record counters_ok (c : Counters) : Prop := mkCountersOk {
  ct_complete : cn_complete c = true <-> cn_unknown c = 0;
  ct_unknown : 0 <= cn_unknown c;
  ct_counts : 0 <= cn_scalar c /\ 0 <= cn_collection c /\ 0 <= cn_secret c /\ 0 <= cn_body c /\ 0 <= cn_node c;
  ct_depth : 0 <= cn_max_depth c <= _MAX_ARGUMENT_DEPTH + 1;
  ct_limits : cn_complete c = true ->
    cn_scalar c + cn_collection c = cn_node c /\ cn_node c <= _MAX_ARGUMENT_NODES /\ cn_max_depth c <= _MAX_ARGUMENT_DEPTH
}.

Definition keeps_counted (go : pyval -> Z -> Counters -> shape * Counters) (depth : Z) : Prop :=
  forall v c, counters_ok c -> counters_ok (go v depth c).2.

Lemma count_unknown_counted c : counters_ok c -> counters_ok (count_unknown c).
Proof. intros [H1 H2 H3 H4 H5]. split; simpl; try lia; done. Qed.

Lemma classify_key_counted k c : counters_ok c -> counters_ok (classify_key k c).2.
Proof.
  intros C. unfold classify_key. destruct k as [k|]; [|by apply count_unknown_counted].
  destruct C as [H1 H2 H3 H4 H5]. cbv zeta. destruct (_ || _); [|destruct (bool_decide _)]; split; simpl; try done; lia.
Qed.

Lemma visit_entries_counted go entries depth c :
  keeps_counted go depth -> counters_ok c -> counters_ok (visit_entries go entries depth c).2.
Proof.
  intros G. revert c. induction entries as [|[k v] l IH]; intros c C; simpl; [done|].
  apply (classify_key_counted k) in C. destruct (classify_key k c) as [kc c1]. simpl in C.
  apply (G v) in C. destruct (go v depth c1) as [s c2]. simpl in C.
  specialize (IH _ C). by destruct (visit_entries go l depth c2).
Qed.

Lemma visit_items_counted go items depth c :
  keeps_counted go depth -> counters_ok c -> counters_ok (visit_items go items depth c).2.
Proof.
  intros G. revert c. induction items as [|v l IH]; intros c C; simpl; [done|].
  apply (G v) in C. destruct (go v depth c) as [s c2]. simpl in C.
  specialize (IH _ C). by destruct (visit_items go l depth c2).
Qed.

Lemma visit_counted fuel h active v depth c :
  0 <= depth <= _MAX_ARGUMENT_DEPTH + 1 -> counters_ok c -> counters_ok (visit fuel h active v depth c).2.
Proof.
  revert active v depth c. induction fuel as [|fuel IH]; intros active v depth c D C; [done|].
  destruct C as [H1 H2 H3 H4 H5]. cbn [Guardrail.visit].
  destruct ((_MAX_ARGUMENT_NODES <? _) || (_MAX_ARGUMENT_DEPTH <? depth)) eqn:L.
  { split; simpl; try lia; done. }
  apply orb_false_iff in L as [L1%Z.ltb_ge L2%Z.ltb_ge]. simpl in L1.
  assert (counters_ok (count_scalar (count_node depth c))) as S.
  { split; simpl; [done|lia..|]. intros E. specialize (H5 E). lia. }
  assert (counters_ok (count_collection (count_node depth c))) as K.
  { split; simpl; [done|lia..|]. intros E. specialize (H5 E). lia. }
  assert (counters_ok (count_unknown (count_node depth c))) as U.
  { split; simpl; try lia; done. }
  assert (forall active, keeps_counted (visit fuel h active) (depth + 1)) as G.
  { intros act w c' C'. apply IH; [|done]. unfold _MAX_ARGUMENT_DEPTH in *. lia. }
  destruct v as [| | |[]| | |a|]; simpl; try done; [by apply count_unknown_counted|].
  destruct (h !! a) as [o|]; [|done]. destruct (decide _); [done|]. destruct o as [entries|items].
  - pose proof (visit_entries_counted _ entries _ _ (G ({[a]} ∪ active)) K). by destruct (visit_entries _ _ _ _).
  - pose proof (visit_items_counted _ items _ _ (G ({[a]} ∪ active)) K). by destruct (visit_items _ _ _ _).
Qed.

Lemma no_counters_counted : counters_ok no_counters.
Proof. by split; vm_compute. Qed.

Lemma unavailable_bounded :
  let s := unavailable_summary canonical_fingerprint in
  (ts_complete s = true <-> ts_unknown_value_count s = 0) /\
  0 <= ts_max_depth s <= _MAX_ARGUMENT_DEPTH + 1 /\
  (ts_complete s = true ->
    ts_max_depth s <= _MAX_ARGUMENT_DEPTH /\
    0 <= ts_scalar_count s /\ 0 <= ts_collection_count s /\
    ts_scalar_count s + ts_collection_count s <= _MAX_ARGUMENT_NODES).
Proof. simpl. unfold _MAX_ARGUMENT_DEPTH. split_and!; done || lia. Qed.

(** C30. The summary of the arguments ends on every object graph, shared and cyclic
    ones included: more fuel never changes the visit. Its depth is at most one past
    the limit; it is complete exactly when nothing unknown was met, and then at
    most [_MAX_ARGUMENT_NODES] values were visited, each counted once as a scalar or
    a collection, down to [_MAX_ARGUMENT_DEPTH]. *)
Theorem summary_is_bounded h arguments more :
  let s := from_mapping canonical_fingerprint set_order h arguments in
  visit (visit_fuel + more) h ∅ arguments 0 no_counters = visit visit_fuel h ∅ arguments 0 no_counters /\
  (ts_complete s = true <-> ts_unknown_value_count s = 0) /\
  0 <= ts_max_depth s <= _MAX_ARGUMENT_DEPTH + 1 /\
  (ts_complete s = true ->
    ts_max_depth s <= _MAX_ARGUMENT_DEPTH /\
    0 <= ts_scalar_count s /\ 0 <= ts_collection_count s /\
    ts_scalar_count s + ts_collection_count s <= _MAX_ARGUMENT_NODES).
Proof.
  intros s. split; [apply visit_more_fuel; unfold visit_fuel; lia|]. subst s.
  unfold from_mapping. destruct arguments as [| | | | | |a|]; try exact unavailable_bounded.
  destruct (h !! a) as [[entries|items]|] eqn:E; try exact unavailable_bounded.
  pose proof (visit_counted visit_fuel h ∅ (ARef a) 0 _ ltac:(by vm_compute) no_counters_counted) as [H1 H2 H3 H4 H5].
  destruct (visit _ _ _ _ _ _) as [s c]. simpl in *. split_and!; try lia; try done.
  intros C. specialize (H5 C). lia.
Qed.

(** ** Non-interference *)

(** The class of a key, with what it adds to the counters. *)
Definition key_class (k : option pystr) : pystr := (classify_key k no_counters).1.

(** Two values of the same kind; containers at the same address. *)
Definition alike (v1 v2 : pyval) : bool :=
  match v1, v2 with
  | ANone, ANone | ABool _, ABool _ | AStr _, AStr _ | ABytes _, ABytes _ | AOther, AOther => true
  | AInt _, AInt _ | AInt _, AFloat (Some _) | AFloat (Some _), AInt _ | AFloat (Some _), AFloat (Some _) => true
  | AFloat None, AFloat None => true
  | ARef a, ARef b => bool_decide (a = b)
  | _, _ => false
  end.

Definition entry_alike (e1 e2 : option pystr * pyval) : Prop :=
  key_class e1.1 = key_class e2.1 /\ alike e1.2 e2.2 = true.

Definition object_alike (o1 o2 : pyobj) : Prop :=
  match o1, o2 with
  | AMapping es1, AMapping es2 => Forall2 entry_alike es1 es2
  | ASequence l1, ASequence l2 => Forall2 (fun v1 v2 => alike v1 v2 = true) l1 l2
  | _, _ => False
  end.

(** Two heaps that differ in scalars and in keys of the same class. *)
Definition heap_alike (h1 h2 : heap) : Prop :=
  forall a, option_Forall2 object_alike (h1 !! a) (h2 !! a).

Lemma classify_key_class k1 k2 c : key_class k1 = key_class k2 -> classify_key k1 c = classify_key k2 c.
Proof.
  unfold key_class, classify_key. cbv zeta. destruct k1 as [k1|], k2 as [k2|]; try done.
  all: repeat (case_bool_decide || match goal with |- context [existsb ?f ?l] => destruct (existsb f l) end); simpl; done.
Qed.

Lemma visit_entries_alike (go1 go2 : pyval -> Z -> Counters -> shape * Counters) es1 es2 depth :
  (forall v1 v2 c, alike v1 v2 = true -> go1 v1 depth c = go2 v2 depth c) -> Forall2 entry_alike es1 es2 ->
  forall c, visit_entries go1 es1 depth c = visit_entries go2 es2 depth c.
Proof.
  intros G. induction 1 as [|[k1 v1] [k2 v2] l1 l2 [K V] _ IH]; intros c; simpl; [done|]. simpl in K, V.
  rewrite (classify_key_class _ _ c K). destruct (classify_key k2 c) as [kc c1]. rewrite (G _ _ c1 V).
  destruct (go2 v2 depth c1) as [s c2]. by rewrite IH.
Qed.

Lemma visit_items_alike (go1 go2 : pyval -> Z -> Counters -> shape * Counters) l1 l2 depth :
  (forall v1 v2 c, alike v1 v2 = true -> go1 v1 depth c = go2 v2 depth c) ->
  Forall2 (fun v1 v2 => alike v1 v2 = true) l1 l2 ->
  forall c, visit_items go1 l1 depth c = visit_items go2 l2 depth c.
Proof.
  intros G. induction 1 as [|v1 v2 l1 l2 V _ IH]; intros c; simpl; [done|].
  rewrite (G _ _ c V). destruct (go2 v2 depth c) as [s c2]. by rewrite IH.
Qed.

Lemma visit_alike fuel h1 h2 active v1 v2 depth c :
  heap_alike h1 h2 -> alike v1 v2 = true -> visit fuel h1 active v1 depth c = visit fuel h2 active v2 depth c.
Proof.
  intros H. revert active v1 v2 depth c. induction fuel as [|fuel IH]; intros active v1 v2 depth c V; [done|].
  simpl. destruct (_ || _); [done|].
  destruct v1 as [| | |[]| | |a|], v2 as [| | |[]| | |a2|]; try done. simpl in V. apply bool_decide_eq_true in V as <-.
  destruct (H a) as [o1 o2 O|]; [|done]. destruct (decide _); [done|].
  destruct o1 as [es1|l1], o2 as [es2|l2]; try done; simpl in O.
  - erewrite visit_entries_alike; [reflexivity| |exact O]. intros; by apply IH.
  - erewrite visit_items_alike; [reflexivity| |exact O]. intros; by apply IH.
Qed.

(** The summary does not reveal what the arguments contain: two calls whose
    arguments have the same structure, with any other text, bytes, numbers and
    truth values in them and with other keys of the same class, have the same
    summary, its shape hash included. *)
Theorem summary_hides_contents h1 h2 a :
  heap_alike h1 h2 ->
  from_mapping canonical_fingerprint set_order h1 (ARef a) = from_mapping canonical_fingerprint set_order h2 (ARef a).
Proof.
  intros H. unfold from_mapping. rewrite (visit_alike visit_fuel h1 h2 ∅ (ARef a) (ARef a)) by
    (done || by apply bool_decide_eq_true).
  destruct (H a) as [o1 o2 O|]; [|done]. destruct o1 as [es1|l1], o2 as [es2|l2]; try done.
  simpl in O. by rewrite (Forall2_length _ _ _ O).
Qed.
End summary_props.

(** Two heaps of a call [f(query=..., limit=..., options={"api_key": ..., "self": options})]. *)
Definition call_heap (query key : pystr) (limit : Z) : heap :=
  <[0%nat := AMapping [(Some "query"%py, AStr query); (Some "limit"%py, AInt limit); (Some "options"%py, ARef 1)]]>
    (<[1%nat := AMapping [(Some key, AStr query); (Some "self"%py, ARef 1)]]> ∅).
Definition digest_text : pystr := PyStr (repeat 48%N 64).

Lemma call_heap_outside query key limit a : call_heap query key limit !! S (S a) = None.
Proof.
  unfold call_heap, heap. by rewrite !lookup_insert_ne by done.
Qed.

Lemma summary_hides_contents_witness :
  from_mapping (fun _ => digest_text) elements (call_heap "salaries"%py "api_key"%py 10) (ARef 0) =
  from_mapping (fun _ => digest_text) elements (call_heap "weather"%py "password"%py 3) (ARef 0) /\
  ts_secret_field_count (from_mapping (fun _ => digest_text) elements (call_heap "weather"%py "password"%py 3) (ARef 0)) = 1.
Proof.
  split; [|vm_compute; reflexivity].
  apply (summary_hides_contents (fun _ => digest_text) elements (call_heap "salaries"%py "api_key"%py 10)
           (call_heap "weather"%py "password"%py 3) 0).
  intros [|[|a]].
  - apply (Some_Forall2 _ (AMapping _) (AMapping _)). repeat constructor; vm_compute; reflexivity.
  - apply (Some_Forall2 _ (AMapping _) (AMapping _)). repeat constructor; vm_compute; reflexivity.
  - rewrite !call_heap_outside. apply None_Forall2.
Defined.

(** The class of a key depends on the order in which the process iterates over a
    set of strings: the call [f(refresh_tokens="x")] has one secret field in one
    order and none in the other. *)
Theorem key_class_depends_on_set_order :
  let h : heap := <[0%nat := AMapping [(Some "refresh_tokens"%py, AStr "x"%py)]]> ∅ in
  exists o1 o2 : gset pystr -> list pystr,
    (forall s, o1 s ≡ₚ elements s) /\ (forall s, o2 s ≡ₚ elements s) /\
    ts_secret_field_count (from_mapping (fun _ => digest_text) o1 h (ARef 0)) = 1 /\
    ts_secret_field_count (from_mapping (fun _ => digest_text) o2 h (ARef 0)) = 0.
Proof.
  exists (fun s => rev (elements s)), elements. split_and!; [|done|vm_compute; reflexivity..].
  intros s. by rewrite <- Permutation_rev.
Qed.
