(* ===== verification/Decimals.v ===== *)
(** * Decimal texts

    [str(n)] of an integer is read back, so it is injective; its characters are
    digits and a sign, so a text made of numbers and a separator splits in one way. *)

From S2P Require Import Prelude PyBase.

Open Scope Z_scope.

Lemma pystr_ext s t : cps_of s = cps_of t -> s = t.
Proof. destruct s, t. simpl. by intros ->. Qed.

(** The value of decimal digits, most significant first. *)
Definition read_digits (acc : N) (l : list N) : N := foldl (fun a c => 10 * a + (c - 48))%N acc l.

Definition decimal_cp (c : N) : bool := is_09 c || (c =? 45)%N.

Lemma read_digits_app a l k : read_digits a (l ++ k) = read_digits (read_digits a l) k.
Proof. apply foldl_app. Qed.

Lemma digits_aux_app fuel n acc : digits_aux fuel n acc = digits_aux fuel n [] ++ acc.
Proof.
  revert n acc. induction fuel as [|fuel IH]; intros n acc; simpl; [done|].
  destruct (n <? 10)%N; [done|]. rewrite IH, (IH _ [_]), <- app_assoc. done.
Qed.

Lemma digits_read fuel n : (n < 2 ^ N.of_nat fuel)%N -> (0 < fuel)%nat -> read_digits 0 (digits_aux fuel n []) = n.
Proof.
  revert n. induction fuel as [|fuel IH]; intros n H F; [lia|]. cbn [digits_aux]. cbv zeta.
  destruct (N.ltb_spec n 10) as [L|L].
  - rewrite N.mod_small by done. unfold read_digits. simpl. lia.
  - rewrite digits_aux_app, read_digits_app.
    assert (n / 10 < 2 ^ N.of_nat fuel)%N as D.
    { apply N.Div0.div_lt_upper_bound. rewrite Nat2N.inj_succ, N.pow_succ_r' in H. lia. }
    destruct fuel as [|fuel].
    + simpl in D. assert (n / 10 = 0)%N as Z0 by lia. apply N.div_small_iff in Z0; lia.
    + rewrite IH by (done || lia). unfold read_digits. cbn [foldl].
      rewrite (N.add_comm 48), N.add_sub. symmetry. apply N.div_mod. done.
Qed.

Lemma digits_aux_digits fuel n : Forall (fun c => is_09 c = true) (digits_aux fuel n []).
Proof.
  revert n. induction fuel as [|fuel IH]; intros n; simpl; [constructor|].
  assert (is_09 (48 + n mod 10)%N = true) as D.
  { pose proof (N.mod_lt n 10 ltac:(done)) as M. revert M. generalize (n mod 10)%N. intros m M. unfold is_09, in_range. apply andb_true_iff.
    split; apply N.leb_le; lia. }
  destruct (n <? 10)%N; [by repeat constructor|]. rewrite digits_aux_app. apply Forall_app. split; [done|].
  by repeat constructor.
Qed.

Lemma digits_read_int z : read_digits 0 (digits_aux (S (N.to_nat (N.log2 (Z.abs_N z)))) (Z.abs_N z) []) = Z.abs_N z.
Proof.
  apply digits_read; [|lia]. rewrite Nat2N.inj_succ, N2Nat.id.
  destruct (decide (Z.abs_N z = 0%N)) as [->|]; [done|]. apply N.log2_spec. lia.
Qed.

Lemma py_str_int_decimal z : Forall (fun c => decimal_cp c = true) (cps_of (py_str_int z)).
Proof.
  unfold py_str_int. cbv zeta.
  assert (forall l, Forall (fun c => is_09 c = true) l -> Forall (fun c => decimal_cp c = true) l) as W.
  { intros l F. eapply Forall_impl; [exact F|]. intros c H. unfold decimal_cp. by rewrite H. }
  pose proof (W _ (digits_aux_digits (S (N.to_nat (N.log2 (Z.abs_N z)))) (Z.abs_N z))).
  destruct (z <? 0); simpl; [by constructor|done].
Qed.

Lemma py_str_int_inj z1 z2 : py_str_int z1 = py_str_int z2 -> z1 = z2.
Proof.
  unfold py_str_int. cbv zeta. intros H. apply (f_equal cps_of) in H. cbn [cps_of] in H.
  pose proof (digits_read_int z1) as R1. pose proof (digits_read_int z2) as R2.
  pose proof (digits_aux_digits (S (N.to_nat (N.log2 (Z.abs_N z1)))) (Z.abs_N z1)) as D1.
  pose proof (digits_aux_digits (S (N.to_nat (N.log2 (Z.abs_N z2)))) (Z.abs_N z2)) as D2.
  set (d1 := digits_aux _ (Z.abs_N z1) []) in *. set (d2 := digits_aux _ (Z.abs_N z2) []) in *. clearbody d1 d2.
  destruct (Z.ltb_spec z1 0), (Z.ltb_spec z2 0).
  - injection H as ->. lia.
  - subst d2. by inversion D2.
  - subst d1. by inversion D1.
  - subst d1. lia.
Qed.

(** A separator that is no decimal character ends the number before it. *)
Lemma decimal_split (a b x y : list N) c :
  decimal_cp c = false -> Forall (fun c => decimal_cp c = true) a -> Forall (fun c => decimal_cp c = true) b ->
  a ++ c :: x = b ++ c :: y -> a = b /\ x = y.
Proof.
  intros C A. revert b. induction A as [|d a Hd _ IH]; intros b B H.
  - destruct b as [|e b]; simpl in H; [by injection H as <-|]. injection H as <- H. inversion B. congruence.
  - destruct b as [|e b]; simpl in H; [injection H as -> H; congruence|].
    injection H as <- H. inversion B; subst. destruct (IH b) as [-> ->]; done.
Qed.

Lemma digits_aux_cons fuel n : exists c l, digits_aux (S fuel) n [] = c :: l.
Proof.
  pose proof (digits_aux_app fuel (n / 10) [(48 + n mod 10)%N]) as E. cbn [digits_aux]. destruct (n <? 10)%N; [eauto|].
  rewrite E. destruct (digits_aux fuel (n / 10) []); simpl; eauto.
Qed.

Lemma decimal_no_space c : decimal_cp c = true -> is_space c = false.
Proof.
  intros H. destruct (is_space c) eqn:S; [|done]. exfalso. unfold decimal_cp, is_09, in_range in H. unfold is_space in S.
  repeat rewrite ?orb_true_iff, ?andb_true_iff, ?N.leb_le, ?N.eqb_eq in *. lia.
Qed.

(** A decimal text ends with a character that is no space. *)
Lemma py_str_int_end z : exists l d, cps_of (py_str_int z) = l ++ [d] /\ is_space d = false.
Proof.
  pose proof (py_str_int_decimal z) as D. destruct (cps_of (py_str_int z)) as [|c l _] eqn:E using rev_ind.
  - exfalso. unfold py_str_int in E. destruct (digits_aux_cons (N.to_nat (N.log2 (Z.abs_N z))) (Z.abs_N z)) as (c & l & E2).
    rewrite E2 in E. by destruct (z <? 0).
  - exists l, c. split; [done|]. apply Forall_app in D as [_ D]. inversion D. by apply decimal_no_space.
Qed.
