(* ===== verification/Ipaddr.v ===== *)
(** * IP addresses

    What the program uses of Python's [ipaddress]: the texts of IPv4 and IPv6
    addresses, read and printed, and the blocks of the IANA special-purpose
    registries. Texts are lists of code points, addresses unsigned integers of 32 and
    128 bits. *)

From S2P Require Import Prelude PyBase Decimals.

Open Scope N_scope.

Abbreviation text := (list N).
Abbreviation lit s := (cps_of s%py).

(** ** Splitting and joining *)

(** [s.split(sep)] for a single character. *)
Fixpoint split_on (sep : N) (s : text) : list text :=
  match s with
  | [] => [[]]
  | c :: s =>
      if c =? sep then [] :: split_on sep s
      else match split_on sep s with w :: ws => (c :: w) :: ws | [] => [[c]] end
  end.

(** [sep.join(parts)] for a single character. *)
Fixpoint join_with (sep : N) (parts : list text) : text :=
  match parts with
  | [] => []
  | [p] => p
  | p :: parts => p ++ sep :: join_with sep parts
  end.

Definition free_of (c : N) (s : text) : bool := negb (existsb (N.eqb c) s).

(** ** IPv4 *)

Definition read_octet (o : text) : option N :=
  match o with
  | [] => None
  | c :: rest =>
      if negb (forallb is_09 o) then None
      else if (3 <? length o)%nat then None
      else if (c =? 48) && negb (bool_decide (rest = [])) then None
      else let n := read_digits 0 o in if 255 <? n then None else Some n
  end.

Definition read_v4 (s : text) : option N :=
  match split_on 46 s with
  | [a; b; c; d] =>
      a ← read_octet a; b ← read_octet b; c ← read_octet c; d ← read_octet d;
      Some (((a * 256 + b) * 256 + c) * 256 + d)
  | _ => None
  end.

Definition octets (n : N) : list N := [n / 16777216; n / 65536 mod 256; n / 256 mod 256; n mod 256].
Definition print_v4 (n : N) : text := join_with 46 ((fun o => cps_of (py_str_int (Z.of_N o))) <$> octets n).

(** ** IPv6 *)

Definition hex_value (c : N) : option N :=
  if is_09 c then Some (c - 48)
  else if in_range 97 102 c then Some (c - 87)
  else if in_range 65 70 c then Some (c - 55)
  else None.

Definition read_hex (acc : N) (s : text) : option N :=
  foldl (fun a c => a ← a; v ← hex_value c; Some (16 * a + v)) (Some acc) s.

Definition read_hextet (h : text) : option N :=
  if (4 <? length h)%nat || bool_decide (h = []) then None else read_hex 0 h.

Definition hex_digit (v : N) : N := if v <? 10 then 48 + v else 87 + v.

(** ['%x' % n] for 16 bits. *)
Definition print_hextet (n : N) : text :=
  hex_digit <$>
    (if n <? 16 then [n]
     else if n <? 256 then [n / 16; n mod 16]
     else if n <? 4096 then [n / 256; n / 16 mod 16; n mod 16]
     else [n / 4096; n / 256 mod 16; n / 16 mod 16; n mod 16]).

Definition is_empty {A} (l : list A) : bool := match l with [] => true | _ => false end.

(** The places of an empty part between the first and the last. *)
Definition skips (parts : list text) : list nat :=
  List.filter (fun i => match parts !! i with Some p => is_empty p | None => false end) (seq 1 (length parts - 2)).

Definition combine_hextets (hs : list N) : N := foldl (fun a h => a * 65536 + h) 0 hs.

(** The hextets of the parts: [::] stands for the missing zeros. *)
Definition expand (parts : list text) : option (list N) :=
  let len := length parts in
  let leading := match parts with p :: _ => is_empty p | [] => true end in
  let trailing := match last parts with Some p => is_empty p | None => true end in
  match skips parts with
  | [] =>
      if negb (bool_decide (len = 8%nat)) || leading || trailing then None
      else mapM read_hextet parts
  | [i] =>
      let hi := if leading then (i - 1)%nat else i in
      let lo := if trailing then (len - i - 2)%nat else (len - i - 1)%nat in
      if leading && negb (Nat.eqb hi 0) || trailing && negb (Nat.eqb lo 0) then None
      else if (8 <=? hi + lo)%nat then None
      else
        high ← mapM read_hextet (take hi parts);
        low ← mapM read_hextet (drop (len - lo) parts);
        Some (high ++ replicate (8 - (hi + lo)) 0 ++ low)
  | _ => None
  end.

Definition read_v6 (s : text) : option N :=
  let parts := split_on 58 s in
  if (length parts <? 3)%nat then None
  else
    parts ← (match last parts with
             | Some p =>
                 if free_of 46 p then Some parts
                 else
                   z ← read_v4 p;
                   Some (removelast parts ++ [print_hextet (z / 65536); print_hextet (z mod 65536)])
             | None => Some parts
             end);
    if (9 <? length parts)%nat then None
    else hs ← expand parts; Some (combine_hextets hs).

Definition hextets (n : N) : list N :=
  (fun k => n / 65536 ^ k mod 65536) <$> [7; 6; 5; 4; 3; 2; 1; 0].

(** The longest run of zeros, the first of its length: start and length. *)
Fixpoint zero_run (index start len best_start best_len : nat) (hs : list N) : nat * nat :=
  match hs with
  | [] => (best_start, best_len)
  | h :: hs =>
      if h =? 0 then
        let start := if Nat.eqb len 0 then index else start in
        let len := S len in
        if (best_len <? len)%nat then zero_run (S index) start len start len hs
        else zero_run (S index) start len best_start best_len hs
      else zero_run (S index) 0 0 best_start best_len hs
  end.

Definition compress_hextets (hs : list N) : list text :=
  let parts := print_hextet <$> hs in
  let '(start, len) := zero_run 0 0 0 0 0 hs in
  if (1 <? len)%nat then
    (if Nat.eqb start 0 then [[]] else []) ++ take start parts ++ [[]] ++ drop (start + len) parts
    ++ (if Nat.eqb (start + len) (length hs) then [[]] else [])
  else parts.

Definition print_v6 (n : N) : text := join_with 58 (compress_hextets (hextets n)).

(** ** Addresses *)

Inductive ip := V4 (n : N) | V6 (n : N).
#[export] Instance ip_eq_dec : EqDecision ip.
Proof. solve_decision. Defined.

(** [ipaddress.ip_address(s)], without a scope identifier. *)
Definition ip_address (s : text) : option ip :=
  match read_v4 s with
  | Some n => Some (V4 n)
  | None => V6 <$> read_v6 s
  end.

Definition print_ip (a : ip) : text := match a with V4 n => print_v4 n | V6 n => print_v6 n end.

(** [IPv4Network] and [IPv6Network]: the first address and the length of the prefix. *)
Definition in_v4 (a : N) (net : N * N) : bool := N.shiftr a (32 - net.2) =? N.shiftr net.1 (32 - net.2).
Definition in_v6 (a : N) (net : N * N) : bool := N.shiftr a (128 - net.2) =? N.shiftr net.1 (128 - net.2).

Definition v4 (a b c d : N) : N := ((a * 256 + b) * 256 + c) * 256 + d.
(** The address whose first hextets are given. *)
Definition v6 (hs : list N) : N := combine_hextets (hs ++ replicate (8 - length hs) 0).

Definition v4_private : list (N * N) :=
  [ (v4 0 0 0 0, 8); (v4 10 0 0 0, 8); (v4 127 0 0 0, 8); (v4 169 254 0 0, 16); (v4 172 16 0 0, 12);
    (v4 192 0 0 0, 24); (v4 192 0 0 170, 31); (v4 192 0 2 0, 24); (v4 192 168 0 0, 16); (v4 198 18 0 0, 15);
    (v4 198 51 100 0, 24); (v4 203 0 113 0, 24); (v4 240 0 0 0, 4); (v4 255 255 255 255, 32) ].
Definition v4_private_exceptions : list (N * N) := [ (v4 192 0 0 9, 32); (v4 192 0 0 10, 32) ].

Definition v4_is_private (a : N) : bool :=
  existsb (in_v4 a) v4_private && forallb (fun n => negb (in_v4 a n)) v4_private_exceptions.
Definition v4_is_global (a : N) : bool := negb (in_v4 a (v4 100 64 0 0, 10)) && negb (v4_is_private a).
Definition v4_is_loopback (a : N) : bool := in_v4 a (v4 127 0 0 0, 8).
Definition v4_is_link_local (a : N) : bool := in_v4 a (v4 169 254 0 0, 16).
Definition v4_is_multicast (a : N) : bool := in_v4 a (v4 224 0 0 0, 4).
Definition v4_is_reserved (a : N) : bool := in_v4 a (v4 240 0 0 0, 4).
Definition v4_is_unspecified (a : N) : bool := a =? 0.

Definition v6_private : list (N * N) :=
  [ (1, 128); (0, 128); (v6 [0; 0; 0; 0; 0; 65535], 96); (v6 [0x64; 0xff9b; 1], 48); (v6 [0x100], 64);
    (v6 [0x2001], 23); (v6 [0x2001; 0xdb8], 32); (v6 [0x2002], 16); (v6 [0xfc00], 7); (v6 [0xfe80], 10) ].
Definition v6_private_exceptions : list (N * N) :=
  [ (v6 [0x2001; 1; 0; 0; 0; 0; 0; 1], 128); (v6 [0x2001; 1; 0; 0; 0; 0; 0; 2], 128); (v6 [0x2001; 3], 32);
    (v6 [0x2001; 4; 0x112], 48); (v6 [0x2001; 0x20], 28); (v6 [0x2001; 0x30], 28) ].
Definition v6_reserved : list (N * N) :=
  [ (0, 8); (v6 [0x100], 8); (v6 [0x200], 7); (v6 [0x400], 6); (v6 [0x800], 5); (v6 [0x1000], 4); (v6 [0x4000], 3);
    (v6 [0x6000], 3); (v6 [0x8000], 3); (v6 [0xa000], 3); (v6 [0xc000], 3); (v6 [0xe000], 4); (v6 [0xf000], 5);
    (v6 [0xf800], 6); (v6 [0xfe00], 9) ].

(** [ipv4_mapped] *)
Definition v6_mapped (a : N) : option N := if a / 2 ^ 32 =? 65535 then Some (a mod 2 ^ 32) else None.
(** [sixtofour is not None], [teredo is not None] *)
Definition v6_is_6to4 (a : N) : bool := a / 2 ^ 112 =? 0x2002.
Definition v6_is_teredo (a : N) : bool := a / 2 ^ 96 =? 0x20010000.

Definition v6_is_private (a : N) : bool :=
  match v6_mapped a with
  | Some m => v4_is_private m
  | None => existsb (in_v6 a) v6_private && forallb (fun n => negb (in_v6 a n)) v6_private_exceptions
  end.
Definition v6_is_global (a : N) : bool := negb (v6_is_private a).
Definition v6_is_loopback (a : N) : bool := a =? 1.
Definition v6_is_link_local (a : N) : bool := in_v6 a (v6 [0xfe80], 10).
Definition v6_is_multicast (a : N) : bool := in_v6 a (v6 [0xff00], 8).
Definition v6_is_reserved (a : N) : bool := existsb (in_v6 a) v6_reserved.
Definition v6_is_unspecified (a : N) : bool := a =? 0.
Definition v6_is_site_local (a : N) : bool := in_v6 a (v6 [0xfec0], 10).

(** ** Examples *)

Example read_mapped : ip_address (lit "::ffff:10.0.0.1") = Some (V6 (0xffff * 2 ^ 32 + v4 10 0 0 1)).
Proof. vm_compute. done. Qed.
Example print_compressed : print_v6 (v6 [0x2606; 0x4700; 0; 0; 0; 0; 0; 0x1111]) = lit "2606:4700::1111".
Proof. vm_compute. done. Qed.
Example read_rejects : (ip_address <$> [lit "1.2.3"; lit "01.2.3.4"; lit "1::2::3"; lit ":1:2:3:4:5:6:7"; lit "256.0.0.1"])
  = replicate 5 None.
Proof. vm_compute. done. Qed.
