(* ===== verification/IpaddrProps.v ===== *)
(** * Reading back printed addresses *)

From S2P Require Import Prelude PyBase Decimals Ipaddr.

Open Scope N_scope.

(** ** Splitting and joining *)

Lemma free_of_cons c d s : free_of c (d :: s) = negb (c =? d) && free_of c s.
Proof. unfold free_of. simpl. by rewrite negb_orb. Qed.
Lemma free_of_app c s t : free_of c (s ++ t) = free_of c s && free_of c t.
Proof. unfold free_of. by rewrite existsb_app, negb_orb. Qed.

Lemma free_of_Forall (P : N -> bool) c s : Forall (fun d => P d = true) s -> P c = false -> free_of c s = true.
Proof.
  intros F E. induction F as [|d s Hd _ IH]; [done|]. rewrite free_of_cons, IH, andb_true_r.
  apply negb_true_iff, N.eqb_neq. congruence.
Qed.

Lemma split_on_ne sep s : split_on sep s <> [].
Proof. destruct s as [|d s]; simpl; [done|]. destruct (d =? sep); [done|]. by destruct (split_on sep s). Qed.

Lemma split_on_free sep w s : free_of sep w = true -> split_on sep (w ++ s) =
  match split_on sep s with p :: ps => (w ++ p) :: ps | [] => [w] end.
Proof.
  pose proof (split_on_ne sep s) as NE.
  induction w as [|c w IH]; simpl; [by destruct (split_on sep s)|].
  rewrite free_of_cons. intros [E F]%andb_true_iff. apply negb_true_iff in E. rewrite N.eqb_sym, E, IH by done.
  by destruct (split_on sep s).
Qed.

Lemma split_on_sep sep w s : free_of sep w = true -> split_on sep (w ++ sep :: s) = w :: split_on sep s.
Proof. intros F. rewrite split_on_free by done. simpl. by rewrite N.eqb_refl, app_nil_r. Qed.

Lemma split_join sep parts :
  parts <> [] -> Forall (fun p => free_of sep p = true) parts -> split_on sep (join_with sep parts) = parts.
Proof.
  intros NE F. induction F as [|p parts Hp F IH]; [done|]. destruct parts as [|q parts].
  - cbn [join_with]. rewrite <- (app_nil_r p), split_on_free by done. simpl. by rewrite app_nil_r.
  - change (join_with sep (p :: q :: parts)) with (p ++ sep :: join_with sep (q :: parts)).
    rewrite split_on_sep, IH by done. done.
Qed.

Lemma join_split sep s : join_with sep (split_on sep s) = s.
Proof.
  induction s as [|c s IH]; simpl; [done|]. pose proof (split_on_ne sep s) as NE. destruct (c =? sep) eqn:E.
  - apply N.eqb_eq in E as ->. rewrite <- IH at 2. by destruct (split_on sep s).
  - destruct (split_on sep s) as [|w ws]; [simpl in *; by subst|]. rewrite <- IH. by destruct ws.
Qed.

Lemma split_on_parts sep s : Forall (fun p => free_of sep p = true) (split_on sep s).
Proof.
  induction s as [|c s IH]; simpl; [by constructor|]. destruct (c =? sep) eqn:E; [by constructor|].
  destruct (split_on sep s) as [|w ws]; [constructor; [|done]|apply Forall_cons in IH as [H1 H2]; constructor; [|done]];
    rewrite free_of_cons, N.eqb_sym, E; simpl; done.
Qed.

(** ** IPv4 *)

Lemma below (k : nat) (P : N -> bool) : forallb P (N.of_nat <$> seq 0 k) = true -> forall n, n < N.of_nat k -> P n = true.
Proof.
  intros F n Hn. rewrite forallb_forall in F. apply F. apply list_elem_of_In, list_elem_of_fmap.
  exists (N.to_nat n). split; [lia|]. apply elem_of_seq. lia.
Qed.

Lemma octet_reads o : o < 256 ->
  let s := cps_of (py_str_int (Z.of_N o)) in read_octet s = Some o /\ free_of 46 s = true /\ free_of 58 s = true.
Proof.
  intros H s. assert (bool_decide (read_octet s = Some o) && (free_of 46 s && free_of 58 s) = true) as K.
  { revert o H s. apply (below 256). vm_compute. done. }
  by apply andb_true_iff in K as [K1%bool_decide_eq_true [K2 K3]%andb_true_iff].
Qed.

Ltac digits := zify; Z.to_euclidean_division_equations; lia.

Lemma octets_bound n : n < 2 ^ 32 -> Forall (fun o => o < 256) (octets n).
Proof. intros H. unfold octets. repeat constructor; digits. Qed.

Lemma octets_sum n : ((n / 16777216 * 256 + n / 65536 mod 256) * 256 + n / 256 mod 256) * 256 + n mod 256 = n.
Proof. digits. Qed.

Lemma print_v4_free n c : n < 2 ^ 32 -> c = 58 -> free_of c (print_v4 n) = true.
Proof.
  intros H ->. unfold print_v4, octets. apply octets_bound in H. unfold octets in H. rewrite !Forall_cons in H.
  destruct H as (H1 & H2 & H3 & H4 & _). cbn [fmap list_fmap join_with].
  rewrite !free_of_app, !free_of_cons, !free_of_app, !free_of_cons, !free_of_app, !free_of_cons.
  by rewrite (proj2 (proj2 (octet_reads _ H1))), (proj2 (proj2 (octet_reads _ H2))), (proj2 (proj2 (octet_reads _ H3))),
    (proj2 (proj2 (octet_reads _ H4))).
Qed.

Lemma v4_roundtrip n : n < 2 ^ 32 -> read_v4 (print_v4 n) = Some n.
Proof.
  intros H. pose proof (octets_bound n H) as F. unfold read_v4, print_v4.
  rewrite split_join; [|done|by apply Forall_fmap; eapply Forall_impl; [exact F|]; intros o Ho; apply octet_reads].
  unfold octets in *. rewrite !Forall_cons in F. destruct F as (H1 & H2 & H3 & H4 & _). cbn [fmap list_fmap].
  rewrite (proj1 (octet_reads _ H1)), (proj1 (octet_reads _ H2)), (proj1 (octet_reads _ H3)), (proj1 (octet_reads _ H4)). simpl.
  f_equal. apply octets_sum.
Qed.

Lemma read_octet_bound o n : read_octet o = Some n -> n < 256.
Proof.
  unfold read_octet. destruct o; [done|]. destruct (negb _); [done|]. destruct (_ <? _)%nat; [done|]. destruct (_ && _); [done|].
  cbv zeta. generalize (read_digits 0 (n0 :: o)). intros r. destruct (255 <? r) eqn:E; [done|]. intros [= <-]. apply N.ltb_ge in E. lia.
Qed.

Lemma read_v4_bound s n : read_v4 s = Some n -> n < 2 ^ 32.
Proof.
  unfold read_v4. destruct (split_on 46 s) as [|a [|b [|c [|d [|]]]]]; try done.
  destruct (read_octet a) eqn:A; [|done]. destruct (read_octet b) eqn:B; [|done]. destruct (read_octet c) eqn:C; [|done].
  destruct (read_octet d) eqn:D; [|done]. simpl. intros [= <-].
  apply read_octet_bound in A, B, C, D. lia.
Qed.

(** ** IPv6 *)

Lemma hex_digit_reads v : v < 16 ->
  hex_value (hex_digit v) = Some v /\ (hex_digit v =? 46) = false /\ (hex_digit v =? 58) = false.
Proof.
  intros H. assert (bool_decide (hex_value (hex_digit v) = Some v) && (negb (hex_digit v =? 46) && negb (hex_digit v =? 58))
    = true) as K.
  { revert v H. apply (below 16). vm_compute. done. }
  apply andb_true_iff in K as [K1%bool_decide_eq_true [K2%negb_true_iff K3%negb_true_iff]%andb_true_iff]. done.
Qed.

Lemma hex_digits_read ds a : Forall (fun v => v < 16) ds ->
  read_hex a (hex_digit <$> ds) = Some (foldl (fun a v => 16 * a + v) a ds).
Proof.
  intros F. revert a. induction F as [|v ds Hv _ IH]; intros a; [done|]. unfold read_hex in *. cbn [fmap list_fmap foldl].
  rewrite (proj1 (hex_digit_reads v Hv)). simpl. apply IH.
Qed.

Lemma hex_digits_free ds c : Forall (fun v => v < 16) ds -> c = 46 \/ c = 58 -> free_of c (hex_digit <$> ds) = true.
Proof.
  intros F Hc. induction F as [|v ds Hv _ IH]; [done|]. rewrite fmap_cons, free_of_cons, IH.
  destruct (hex_digit_reads v Hv) as (_ & E1 & E2). rewrite N.eqb_sym. by destruct Hc as [-> | ->]; rewrite ?E1, ?E2.
Qed.

Definition hextet_digits (n : N) : list N :=
  if n <? 16 then [n]
  else if n <? 256 then [n / 16; n mod 16]
  else if n <? 4096 then [n / 256; n / 16 mod 16; n mod 16]
  else [n / 4096; n / 256 mod 16; n / 16 mod 16; n mod 16].

Lemma hextet_digits_ok n : n < 65536 ->
  Forall (fun v => v < 16) (hextet_digits n) /\ foldl (fun a v => 16 * a + v) 0 (hextet_digits n) = n /\
  (1 <= length (hextet_digits n) <= 4)%nat.
Proof.
  intros H. unfold hextet_digits. destruct (n <? 16) eqn:E1; [|destruct (n <? 256) eqn:E2; [|destruct (n <? 4096) eqn:E3]];
    repeat match goal with E : (_ <? _) = true |- _ => apply N.ltb_lt in E | E : (_ <? _) = false |- _ => apply N.ltb_ge in E end;
    (split; [repeat constructor; digits|split; [cbn [foldl]; digits|simpl; lia]]).
Qed.

Lemma hextet_reads n : n < 65536 ->
  read_hextet (print_hextet n) = Some n /\ is_empty (print_hextet n) = false /\
  free_of 46 (print_hextet n) = true /\ free_of 58 (print_hextet n) = true.
Proof.
  intros H. destruct (hextet_digits_ok n H) as (F & E & L). change (print_hextet n) with (hex_digit <$> hextet_digits n).
  split_and!; [| |apply hex_digits_free; auto..].
  - unfold read_hextet. rewrite length_fmap. destruct (4 <? length _)%nat eqn:B; [apply Nat.ltb_lt in B; lia|].
    destruct (hextet_digits n) as [|d ds]; [simpl in L; lia|]. rewrite bool_decide_eq_false_2 by done. simpl orb. cbv iota.
    rewrite hex_digits_read by done. by rewrite E.
  - by destruct (hextet_digits n); [simpl in L; lia|].
Qed.

Lemma hextets_bound n : Forall (fun h => h < 65536) (hextets n).
Proof. unfold hextets. repeat constructor; by apply N.mod_lt. Qed.

Lemma combine_snoc hs h : combine_hextets (hs ++ [h]) = combine_hextets hs * 65536 + h.
Proof. unfold combine_hextets. by rewrite foldl_app. Qed.

Lemma combine_bound hs : Forall (fun h => h < 65536) hs -> combine_hextets hs < 65536 ^ N.of_nat (length hs).
Proof.
  induction hs as [|h hs IH] using rev_ind; [intros _; vm_compute; done|]. intros [F Hh]%Forall_app.
  apply IH in F. apply Forall_cons in Hh as [Hh _]. rewrite combine_snoc, length_app. simpl length.
  rewrite Nat.add_1_r, Nat2N.inj_succ, N.pow_succ_r'. revert F. generalize (65536 ^ N.of_nat (length hs)) (combine_hextets hs). intros p q F. lia.
Qed.

Lemma combine_hextets_of n : n < 2 ^ 128 -> combine_hextets (hextets n) = n.
Proof.
  intros H. unfold hextets. cbn [fmap list_fmap].
  assert (forall k, n / 65536 ^ k = n / 65536 ^ (N.succ k) * 65536 + n / 65536 ^ k mod 65536) as D.
  { intros k. rewrite N.pow_succ_r', (N.mul_comm 65536), <- N.Div0.div_div. rewrite N.mul_comm. by apply N.div_mod. }
  assert (n / 65536 ^ 8 = 0) as Z8 by (apply N.div_small; exact H).
  pose proof (D 0) as D0. pose proof (D 1) as D1. pose proof (D 2) as D2. pose proof (D 3) as D3. pose proof (D 4) as D4.
  pose proof (D 5) as D5. pose proof (D 6) as D6. pose proof (D 7) as D7. rewrite (N.div_1_r n : n / 65536 ^ 0 = n) in *.
  change (N.succ 0) with 1 in *. change (N.succ 1) with 2 in *. change (N.succ 2) with 3 in *. change (N.succ 3) with 4 in *.
  change (N.succ 4) with 5 in *. change (N.succ 5) with 6 in *. change (N.succ 6) with 7 in *. change (N.succ 7) with 8 in *.
  unfold combine_hextets. cbn [foldl]. rewrite Z8 in D7. clear D H Z8.
  change (0 * 65536) with 0 in *. rewrite N.add_0_l in *. congruence.
Qed.

(** *** The run of zeros *)

Definition zeros_at (all : list N) (start len : nat) : Prop :=
  (start + len <= length all)%nat /\ forall i, (start <= i < start + len)%nat -> all !! i = Some 0.

Lemma zero_run_ok all pre hs start len bs bl :
  all = pre ++ hs -> (len = 0 \/ start + len = length pre)%nat -> zeros_at all start len -> zeros_at all bs bl ->
  let r := zero_run (length pre) start len bs bl hs in zeros_at all r.1 r.2.
Proof.
  revert pre start len bs bl. induction hs as [|h hs IH]; intros pre start len bs bl E C Z B; [done|]. cbn [zero_run].
  assert (all = (pre ++ [h]) ++ hs) as E' by (rewrite <- app_assoc; exact E).
  assert (length (pre ++ [h]) = S (length pre)) as L by (rewrite length_app; simpl; lia).
  assert (zeros_at all 0 0) as Z0 by (split; [lia|intros i; lia]).
  destruct (h =? 0) eqn:Eh; [|rewrite <- L; apply IH; auto].
  apply N.eqb_eq in Eh as ->. set (start' := if Nat.eqb len 0 then length pre else start).
  assert (start' + S len = length (pre ++ [0%N]))%nat as C' by (unfold start'; destruct (Nat.eqb_spec len 0); lia).
  assert (zeros_at all start' (S len)) as Z'.
  { split; [rewrite E', length_app; lia|]. intros i Hi. destruct (decide (i = length pre)) as [->|N].
    - rewrite E, lookup_app_r, Nat.sub_diag; [done|lia].
    - apply Z. unfold start' in *. destruct (Nat.eqb_spec len 0); lia. }
  cbv zeta. destruct (bl <? S len)%nat; rewrite <- L; apply IH; auto.
Qed.

Lemma zeros_split all s l : zeros_at all s l -> all = take s all ++ replicate l 0 ++ drop (s + l) all.
Proof.
  intros [L Z]. rewrite <- (take_drop s all) at 1. f_equal. rewrite <- (take_drop l (drop s all)), drop_drop. f_equal.
  apply list_eq. intros i. destruct (decide (i < l)%nat) as [Hi|Hi].
  - rewrite lookup_take, decide_True by done. rewrite lookup_drop, Z by lia. symmetry. apply lookup_replicate. split; [done|lia].
  - rewrite lookup_take, decide_False by done. symmetry. apply lookup_replicate_None. lia.
Qed.

(** *** Expanding a compressed list *)

Lemma filter_seq_none (p : nat -> bool) a n :
  (forall i, (a <= i < a + n)%nat -> p i = false) -> List.filter p (seq a n) = [].
Proof.
  revert a. induction n as [|n IH]; intros a H; [done|]. simpl. rewrite H by lia. apply IH. intros i Hi. apply H. lia.
Qed.

Definition full (ps : list text) : Prop := Forall (fun p => is_empty p = false) ps.

Lemma full_lookup ps i p : full ps -> ps !! i = Some p -> is_empty p = false.
Proof. unfold full. intros F H. rewrite Forall_lookup in F. eauto. Qed.

(** One gap, with ends that may be empty. *)
Lemma skips_one (a b : text) A B :
  full A -> full B -> skips ((a :: A) ++ [] :: B ++ [b]) = [S (length A)].
Proof.
  intros FA FB. unfold skips. set (parts := (a :: A) ++ [] :: B ++ [b]).
  assert (length parts - 2 = length A + (1 + length B))%nat as -> by (unfold parts; simpl; rewrite length_app; simpl; rewrite length_app; simpl; lia).
  rewrite seq_app, List.filter_app. rewrite filter_seq_none.
  - cbn [seq app Nat.add]. cbn [List.filter].
    assert (parts !! S (length A) = Some []) as -> by (unfold parts; rewrite lookup_app_r, Nat.sub_diag; [done|simpl; lia]).
    simpl. f_equal. apply filter_seq_none. intros i Hi. unfold parts. rewrite lookup_app_r by (simpl; lia).
    cbn [length]. destruct (i - S (length A))%nat as [|k] eqn:K; [lia|].
    change (([] :: B ++ [b]) !! S k) with ((B ++ [b]) !! k). rewrite lookup_app_l by lia. destruct (B !! k) as [p|] eqn:E; [|done]. exact (full_lookup _ _ _ FB E).
  - intros i Hi. unfold parts. rewrite lookup_app_l by (simpl; lia). destruct i as [|k]; [lia|].
    change ((a :: A) !! S k) with (A !! k). destruct (A !! k) as [p|] eqn:E; [|done]. exact (full_lookup _ _ _ FA E).
Qed.

Lemma skips_none (a b : text) A : full A -> skips (a :: A ++ [b]) = [].
Proof.
  intros F. apply filter_seq_none. intros i Hi. destruct i as [|k]; [lia|]. simpl length in Hi.
  change ((a :: A ++ [b]) !! S k) with ((A ++ [b]) !! k).
  rewrite length_app in Hi. simpl in Hi. rewrite lookup_app_l by lia. destruct (A !! k) as [p|] eqn:E; [|done]. exact (full_lookup _ _ _ F E).
Qed.

Lemma read_printed hs : Forall (fun h => h < 65536) hs -> mapM read_hextet (print_hextet <$> hs) = Some hs.
Proof.
  intros F. induction F as [|h hs Hh _ IH]; [done|]. rewrite fmap_cons. cbn [mapM]. rewrite (proj1 (hextet_reads h Hh)). simpl.
  unfold mapM in IH |- *. by rewrite IH.
Qed.

Lemma printed_full hs : Forall (fun h => h < 65536) hs -> full (print_hextet <$> hs).
Proof. intros F. apply Forall_fmap. eapply Forall_impl; [exact F|]. intros h Hh. apply hextet_reads, Hh. Qed.

(** The two sides of a gap. *)
Definition side (hs : list N) : list text := match hs with [] => [[]] | _ => print_hextet <$> hs end.

Lemma expand_gap H L :
  Forall (fun h => h < 65536) H -> Forall (fun h => h < 65536) L -> (length H + length L < 8)%nat ->
  expand (side H ++ [] :: side L) = Some (H ++ replicate (8 - (length H + length L)) 0 ++ L).
Proof.
  intros FH FL LT.
  assert (exists a A, side H = a :: A /\ full A /\ is_empty a = bool_decide (H = []) /\ (H = [] -> A = [])) as (a & A & EA & FA & Ea & NA).
  { destruct H as [|h H]; [by exists [], []; repeat constructor|]. exists (print_hextet h), (print_hextet <$> H).
    apply Forall_cons in FH as [Hh FH]. split_and!; [done|by apply printed_full|apply (hextet_reads h Hh)|done]. }
  assert (exists B b, side L = B ++ [b] /\ full B /\ is_empty b = bool_decide (L = []) /\ (L = [] -> B = [])) as (B & b & EB & FB & Eb & NB).
  { destruct L as [|h L _] using rev_ind; [by exists [], []; repeat constructor|]. exists (print_hextet <$> L), (print_hextet h).
    apply Forall_app in FL as [FL Hh]. apply Forall_cons in Hh as [Hh _].
    split_and!; [unfold side; destruct (L ++ [h]) eqn:E; [by destruct L|]; by rewrite <- E, fmap_app|by apply printed_full| |by destruct L].
    rewrite bool_decide_eq_false_2 by (by destruct L). apply (hextet_reads h Hh). }
  assert (length (side H) = if bool_decide (H = []) then 1%nat else length H) as LA
    by (destruct H; [done|]; rewrite bool_decide_eq_false_2 by done; apply length_fmap).
  assert (length (side L) = if bool_decide (L = []) then 1%nat else length L) as LB
    by (destruct L; [done|]; rewrite bool_decide_eq_false_2 by done; apply length_fmap).
  assert (last (side H ++ [] :: side L) = Some b) as LS by (rewrite EB, app_comm_cons, app_assoc; apply last_snoc).
  assert (skips (side H ++ [] :: side L) = [length (side H)]) as SK by (rewrite EA, EB; by apply skips_one).
  assert (match side H ++ [] :: side L with [] => true | p :: _ => is_empty p end = bool_decide (H = [])) as LD by by rewrite EA.
  assert (length (side H ++ [] :: side L) = length (side H) + 1 + length (side L))%nat as LP by (rewrite length_app; simpl; lia).
  assert ((if bool_decide (H = []) then length (side H) - 1 else length (side H))%nat = length H) as HI
    by (rewrite LA; destruct H; [done|]; by rewrite !bool_decide_eq_false_2 by done).
  assert ((if bool_decide (L = []) then length (side H ++ [] :: side L) - length (side H) - 2
    else length (side H ++ [] :: side L) - length (side H) - 1)%nat = length L) as LO
    by (rewrite LP, LB; destruct L; [simpl; lia|]; rewrite !bool_decide_eq_false_2 by done; simpl; lia).
  unfold expand. cbv zeta. rewrite SK, LS, Eb, LD, HI, LO. clear SK LS Eb LD HI LO.
  assert (bool_decide (H = []) && negb (Nat.eqb (length H) 0) || bool_decide (L = []) && negb (Nat.eqb (length L) 0) = false) as ->.
  { by destruct H, L. }
  destruct (8 <=? length H + length L)%nat eqn:E8; [apply Nat.leb_le in E8; lia|].
  assert (take (length H) (side H ++ [] :: side L) = print_hextet <$> H) as ->.
  { destruct H as [|h H]; [done|]. rewrite take_app_le by (rewrite LA, bool_decide_eq_false_2 by done; lia).
    apply take_ge. unfold side. rewrite length_fmap. lia. }
  assert (drop (length (side H ++ [] :: side L) - length L) (side H ++ [] :: side L) = print_hextet <$> L) as ->.
  { rewrite LP. destruct L as [|h L]; [apply drop_ge; rewrite LP; simpl; lia|]. rewrite bool_decide_eq_false_2 in LB by done.
    rewrite cons_middle, app_assoc, LB. apply drop_app_length'. rewrite length_app. simpl. lia. }
  rewrite !read_printed by done. done.
Qed.

Lemma compress_cases hs : length hs = 8%nat ->
  compress_hextets hs = print_hextet <$> hs \/
  exists s l, (s + l <= 8 /\ 1 < l)%nat /\ zeros_at hs s l /\ compress_hextets hs = side (take s hs) ++ [] :: side (drop (s + l) hs).
Proof.
  intros L. unfold compress_hextets. pose proof (zero_run_ok hs [] hs 0 0 0 0 eq_refl) as Z. cbv zeta in Z. simpl length in Z.
  destruct (zero_run 0 0 0 0 0 hs) as [s l]. destruct Z as [B Z]; [by left|split; simpl; [lia|intros; lia]..|]. simpl in B, Z.
  destruct (1 <? l)%nat eqn:E1; [|by left]. apply Nat.ltb_lt in E1. right. exists s, l. split_and!; [lia|done|by split|].
  rewrite <- fmap_take, <- fmap_drop. rewrite app_assoc. f_equal; [|simpl; f_equal].
  - destruct s as [|s]; [done|]. simpl. by destruct hs.
  - unfold side. destruct (Nat.eqb_spec (s + l) (length hs)) as [E|N].
    + by rewrite drop_ge by lia.
    + rewrite app_nil_r. destruct (drop (s + l) hs) eqn:D; [|done]. apply (f_equal length) in D. rewrite length_drop in D. simpl in D. lia.
Qed.

Lemma compress_reads hs : length hs = 8%nat -> Forall (fun h => h < 65536) hs -> expand (compress_hextets hs) = Some hs.
Proof.
  intros L F. destruct (compress_cases hs L) as [E|(s & l & [B L1] & Z & E)]; rewrite E.
  - destruct hs as [|a hs]; [done|]. destruct hs as [|b hs _] using rev_ind; [done|].
    pose proof F as [Ha [FM Hb]%Forall_app]%Forall_cons. apply Forall_cons in Hb as [Hb _].
    assert (print_hextet <$> a :: hs ++ [b] = print_hextet a :: (print_hextet <$> hs) ++ [print_hextet b]) as EP
      by (rewrite fmap_cons, fmap_app; done).
    pose proof (read_printed _ F) as R. rewrite EP in *. unfold expand. cbv zeta. rewrite skips_none by by apply printed_full.
    rewrite (app_comm_cons (print_hextet <$> hs) [print_hextet b] (print_hextet a)) at 3. rewrite last_snoc.
    rewrite (proj1 (proj2 (hextet_reads a Ha))), (proj1 (proj2 (hextet_reads b Hb))).
    assert (length (print_hextet a :: (print_hextet <$> hs) ++ [print_hextet b]) = 8%nat) as -> by (rewrite <- EP, length_fmap; done).
    by rewrite bool_decide_eq_true_2.
  - pose proof (zeros_split hs s l Z) as S.
    assert (8 - (length (take s hs) + length (drop (s + l) hs)) = l)%nat as GL by (rewrite length_take, length_drop; lia).
    rewrite expand_gap, GL; [by rewrite <- S|by apply Forall_take|by apply Forall_drop|rewrite length_take, length_drop; lia].
Qed.

Lemma compress_parts hs : length hs = 8%nat -> Forall (fun h => h < 65536) hs ->
  (3 <= length (compress_hextets hs) <= 9)%nat /\
  Forall (fun p => free_of 46 p = true /\ free_of 58 p = true) (compress_hextets hs).
Proof.
  intros L F. assert (forall k, Forall (fun h => h < 65536) k -> Forall (fun p => free_of 46 p = true /\ free_of 58 p = true) (print_hextet <$> k)) as K.
  { intros k Fk. apply Forall_fmap. eapply Forall_impl; [exact Fk|]. intros h Hh. by apply hextet_reads. }
  assert (forall k, Forall (fun h => h < 65536) k -> Forall (fun p => free_of 46 p = true /\ free_of 58 p = true) (side k)) as KS.
  { intros [|h k] Fk; [by repeat constructor|]. by apply K. }
  assert (forall k, length (side k) = Nat.max 1 (length k)) as LS by (intros [|h k]; [done|]; unfold side; rewrite length_fmap; simpl; lia).
  destruct (compress_cases hs L) as [E|(s & l & [B L1] & Z & E)]; rewrite E.
  - split; [rewrite length_fmap; lia|by apply K].
  - split; [rewrite length_app; cbn [length]; rewrite !LS, length_take, length_drop; lia|].
    apply Forall_app. split; [by apply KS, Forall_take|]. constructor; [done|by apply KS, Forall_drop].
Qed.

Lemma v6_roundtrip n : n < 2 ^ 128 -> read_v6 (print_v6 n) = Some n.
Proof.
  intros H. unfold read_v6, print_v6. destruct (compress_parts (hextets n) eq_refl (hextets_bound n)) as [B F].
  rewrite split_join; [|intros E; rewrite E in B; simpl in B; lia|eapply Forall_impl; [exact F|]; by intros p []].
  cbv zeta. destruct (_ <? 3)%nat eqn:E3; [apply Nat.ltb_lt in E3; lia|].
  assert (match last (compress_hextets (hextets n)) with
          | Some p => if free_of 46 p then Some (compress_hextets (hextets n)) else
              z ← read_v4 p; Some (removelast (compress_hextets (hextets n)) ++ [print_hextet (z / 65536); print_hextet (z mod 65536)])
          | None => Some (compress_hextets (hextets n)) end = Some (compress_hextets (hextets n))) as ->.
  { destruct (last _) as [p|] eqn:EL; [|done]. rewrite Forall_forall in F. destruct (F p) as [-> _]; [|done]. by apply last_Some_elem_of. }
  simpl. destruct (9 <? _)%nat eqn:E9; [apply Nat.ltb_lt in E9; lia|].
  rewrite compress_reads by (done || apply hextets_bound). simpl. f_equal. by apply combine_hextets_of.
Qed.

(** *** Bounds *)

Lemma read_hex_bound s a n : read_hex a s = Some n -> n < (a + 1) * 16 ^ N.of_nat (length s).
Proof.
  revert a. induction s as [|c s IH]; intros a; unfold read_hex; simpl.
  - intros [= <-]. lia.
  - destruct (hex_value c) as [v|] eqn:E; simpl.
    + intros H%IH. change (N.pos (Pos.of_succ_nat (length s))) with (N.of_nat (S (length s))). rewrite Nat2N.inj_succ, N.pow_succ_r'.
      assert (v < 16) as Hv.
      { unfold hex_value, is_09, in_range in E. repeat case_match; simplify_eq; repeat match goal with
          H : (_ && _) = true |- _ => apply andb_true_iff in H as [?%N.leb_le ?%N.leb_le] end; lia. }
      eapply N.lt_le_trans; [exact H|]. nia.
    + assert (forall s, foldl (fun a c => a ← a; v ← hex_value c; Some (16 * a + v)) None s = None) as -> by (by induction s0).
      done.
Qed.

Lemma read_hextet_bound h n : read_hextet h = Some n -> n < 65536.
Proof.
  unfold read_hextet. destruct (_ || _) eqn:E; [done|]. apply orb_false_iff in E as [E _]. apply Nat.ltb_ge in E.
  intros H%read_hex_bound. eapply N.lt_le_trans; [exact H|]. change 65536 with ((0 + 1) * 16 ^ 4).
  apply N.mul_le_mono_l, N.pow_le_mono_r; lia.
Qed.

Lemma mapM_hextets ps hs : mapM read_hextet ps = Some hs -> length hs = length ps /\ Forall (fun h => h < 65536) hs.
Proof.
  intros H. split; [symmetry; by eapply length_mapM|]. apply mapM_Some in H. induction H as [|p h ps hs Hh _ IH]; constructor; [|done].
  by eapply read_hextet_bound.
Qed.

Lemma expand_bound parts hs : expand parts = Some hs -> length hs = 8%nat /\ Forall (fun h => h < 65536) hs.
Proof.
  unfold expand. cbv zeta. destruct (skips parts) as [|i [|]] eqn:ES; [| |done].
  - destruct (_ || _) eqn:B; [done|]. apply orb_false_iff in B as [[B _]%orb_false_iff _].
    apply negb_false_iff, bool_decide_eq_true in B. intros [H1 H2]%mapM_hextets. by rewrite H1.
  - assert (i < length parts)%nat as Li.
    { assert (i ∈ skips parts) as Hi by (rewrite ES; by left). apply list_elem_of_In, filter_In in Hi as [Hi _].
      apply in_seq in Hi. lia. }
    match goal with |- context [take ?h parts] => set (hi := h) end.
    match goal with |- context [drop (length parts - ?l) parts] => set (lo := l) end.
    destruct (_ || _); [done|]. destruct (8 <=? _)%nat eqn:B; [done|]. apply Nat.leb_gt in B.
    destruct (mapM read_hextet (take hi parts)) as [high|] eqn:M1; [|done]. simpl.
    destruct (mapM read_hextet (drop _ parts)) as [low|] eqn:M2; [|done]. simpl. intros [= <-].
    apply mapM_hextets in M1 as [L1 F1], M2 as [L2 F2]. rewrite length_take in L1. rewrite length_drop in L2.
    assert (hi <= i)%nat by (unfold hi; repeat case_match; lia).
    assert (lo <= length parts)%nat by (unfold lo; repeat case_match; lia).
    rewrite !length_app, length_replicate. split; [lia|]. apply Forall_app. split; [done|]. apply Forall_app. split; [|done].
    apply Forall_replicate. lia.
Qed.

Lemma read_v6_bound s n : read_v6 s = Some n -> n < 2 ^ 128.
Proof.
  unfold read_v6. cbv zeta. destruct (_ <? 3)%nat; [done|]. intros (parts & _ & H)%bind_Some.
  destruct (9 <? length parts)%nat; [done|]. apply bind_Some in H as (hs & E & [= <-]).
  apply expand_bound in E as [L F]. apply combine_bound in F. rewrite L in F. exact F.
Qed.

(** ** Addresses *)

Definition ip_ok (a : ip) : Prop := match a with V4 n => n < 2 ^ 32 | V6 n => n < 2 ^ 128 end.

Lemma ip_address_ok s a : ip_address s = Some a -> ip_ok a.
Proof.
  unfold ip_address. destruct (read_v4 s) as [n|] eqn:E; [intros [= <-]; by eapply read_v4_bound|].
  destruct (read_v6 s) as [n|] eqn:E6; [|done]. intros [= <-]. by eapply read_v6_bound.
Qed.

Lemma print_v6_free n : free_of 46 (print_v6 n) = true.
Proof.
  destruct (compress_parts (hextets n) eq_refl (hextets_bound n)) as [_ F]. unfold print_v6.
  induction F as [|p ps [Hp _] _ IH]; [done|]. destruct ps as [|q ps]; [done|].
  change (join_with 58 (p :: q :: ps)) with (p ++ 58 :: join_with 58 (q :: ps)).
  by rewrite free_of_app, free_of_cons, Hp, IH.
Qed.

Lemma ip_roundtrip a : ip_ok a -> ip_address (print_ip a) = Some a.
Proof.
  destruct a as [n|n]; simpl; intros H; unfold ip_address; [by rewrite v4_roundtrip|].
  assert (read_v4 (print_v6 n) = None) as ->; [|by rewrite v6_roundtrip].
  pose proof (print_v6_free n) as F.
  unfold read_v4. rewrite <- (app_nil_r (print_v6 n)), split_on_free by done. done.
Qed.
