(* ===== verification/Urls.v ===== *)
(** * URLs as texts

    What the program uses of Python's [urllib.parse]: [urlsplit] with its host, port
    and bracket checks, [urlunsplit] and [urljoin]. Unicode lower case and NFKC are
    parameters; both matter only for texts that are not ASCII. *)

From S2P Require Import Prelude PyBase Decimals Ipaddr.

Open Scope N_scope.

(** ** Partitions *)

(** [s.partition(c)]: what comes before, and after when there is one. *)
Fixpoint partition (c : N) (s : text) : text * option text :=
  match s with
  | [] => ([], None)
  | d :: s => if d =? c then ([], Some s) else let '(a, b) := partition c s in (d :: a, b)
  end.

(** [s.rpartition(c)]: what comes before the last one, if any, and after it. *)
Definition rpartition (c : N) (s : text) : option text * text :=
  let '(a, b) := partition c (rev s) in ((fun t => rev t) <$> b, rev a).

Definition starts_with (p s : text) : bool := bool_decide (take (length p) s = p).
Definition ends_with (p s : text) : bool := bool_decide (drop (length s - length p) s = p).
Definition contains (c : N) (s : text) : bool := existsb (N.eqb c) s.

Definition is_ascii (s : text) : bool := forallb (fun c => c <? 128) s.
Definition lower_ascii (s : text) : text := (fun c => if is_AZ c then c + 32 else c) <$> s.

(** ** Splitting *)

Record SplitResult := mkSplitResult {
  sr_scheme : text;
  sr_netloc : text;
  sr_path : text;
  sr_query : text;
  sr_fragment : text
}.

Definition scheme_char (c : N) : bool := is_az c || is_AZ c || is_09 c || is_one_of "+-."%py c.

(** The scheme and the rest. *)
Definition split_scheme (default url : text) : text * text :=
  match partition 58 url with
  | (c :: s, Some rest) =>
      if (is_az c || is_AZ c) && forallb scheme_char (c :: s) then (lower_ascii (c :: s), rest) else (default, url)
  | _ => (default, url)
  end.

(** [_splitnetloc] after the slashes *)
Fixpoint split_netloc (url : text) : text * text :=
  match url with
  | [] => ([], [])
  | c :: rest =>
      if (c =? 47) || (c =? 63) || (c =? 35) then ([], url) else let '(a, b) := split_netloc rest in (c :: a, b)
  end.

Definition after_at (netloc : text) : text := (rpartition 64 netloc).2.

(** [_hostinfo]: host and port. *)
Definition hostinfo (netloc : text) : text * option text :=
  let info := after_at netloc in
  let '(host, port) :=
    match partition 91 info with
    | (_, Some bracketed) =>
        let '(host, rest) := partition 93 bracketed in
        (host, match rest with Some r => default [] (partition 58 r).2 | None => [] end)
    | (_, None) => let '(host, port) := partition 58 info in (host, default [] port)
    end in
  (host, match port with [] => None | _ => Some port end).

(** [_check_bracketed_host] *)
Definition future_host (s : text) : bool :=
  match s with
  | 118 :: rest =>
      match partition 46 rest with
      | (h :: hs, Some (_ :: _)) => forallb (fun c => is_09 c || in_range 97 102 c || in_range 65 70 c) (h :: hs)
      | _ => false
      end
  | _ => false
  end.
Definition bracketed_host_ok (host : text) : bool :=
  if starts_with [118] host then future_host host
  else match read_v4 host with
       | Some _ => false
       | None =>
           let '(addr, scope) := partition 37 host in
           match scope with
           | Some s => negb (is_empty s) && negb (contains 37 s) && bool_decide (is_Some (read_v6 addr))
           | None => bool_decide (is_Some (read_v6 addr))
           end
       end.

(** [_check_bracketed_netloc] *)
Definition bracketed_netloc_ok (netloc : text) : bool :=
  let info := after_at netloc in
  match partition 91 info with
  | (before, Some bracketed) =>
      let '(host, port) := partition 93 bracketed in
      is_empty before && match port with Some (c :: _) => c =? 58 | _ => true end && bracketed_host_ok host
  | (_, None) => bracketed_host_ok (partition 58 info).1
  end.

Section unicode.
(** [str.lower] on texts that are not ASCII, and NFKC. *)
Context (lower_wide nfkc : text -> text).

Definition lower (s : text) : text := if is_ascii s then lower_ascii s else lower_wide s.

(** [_checknetloc] *)
Definition netloc_ok (netloc : text) : bool :=
  is_ascii netloc ||
  let n := List.filter (fun c => negb (is_one_of "@:#?"%py c)) netloc in
  bool_decide (nfkc n = n) || forallb (fun c => negb (is_one_of "/?#@:"%py c)) (nfkc n).

Fixpoint drop_controls (s : text) : text :=
  match s with c :: rest => if c <=? 32 then drop_controls rest else s | [] => [] end.

(** [urlsplit(url, scheme)]; [None] is its [ValueError]. *)
Definition urlsplit (url scheme : text) : option SplitResult :=
  let url := List.filter (fun c => negb ((c =? 9) || (c =? 13) || (c =? 10))) (drop_controls url) in
  let '(scheme, url) := split_scheme scheme url in
  let '(netloc, url) := if starts_with (lit "//") url then split_netloc (drop 2 url) else ([], url) in
  if negb (eqb (contains 91 netloc) (contains 93 netloc)) then None
  else if contains 91 netloc && negb (bracketed_netloc_ok netloc) then None
  else
    let '(url, fragment) := partition 35 url in
    let '(path, query) := partition 63 url in
    if netloc_ok netloc then Some (mkSplitResult scheme netloc path (default [] query) (default [] fragment)) else None.

(** The attributes [hostname] and [port]; the inner [None] of a port is [None], the
    outer one its [ValueError]. *)
Definition hostname (r : SplitResult) : option text :=
  match (hostinfo (sr_netloc r)).1 with
  | [] => None
  | host => let '(h, zone) := partition 37 host in
            Some (lower h ++ match zone with Some z => 37 :: z | None => [] end)
  end.
Definition port (r : SplitResult) : option (option Z) :=
  match (hostinfo (sr_netloc r)).2 with
  | None => Some None
  | Some p =>
      if forallb is_09 p then
        let n := Z.of_N (read_digits 0 p) in if (n <=? 65535)%Z then Some (Some n) else None
      else None
  end.

(** ** Joining *)

Definition uses_relative : list text := cps_of <$>
  [""; "ftp"; "http"; "gopher"; "nntp"; "imap"; "wais"; "file"; "https"; "shttp"; "mms"; "prospero"; "rtsp"; "rtspu";
   "sftp"; "svn"; "svn+ssh"; "ws"; "wss"]%py.
Definition uses_netloc : list text := cps_of <$>
  [""; "ftp"; "http"; "gopher"; "nntp"; "telnet"; "imap"; "wais"; "file"; "mms"; "https"; "shttp"; "snews"; "prospero";
   "rtsp"; "rtspu"; "rsync"; "svn"; "svn+ssh"; "sftp"; "nfs"; "git"; "git+ssh"; "ws"; "wss"]%py.
Definition uses_params : list text := cps_of <$>
  [""; "ftp"; "hdl"; "prospero"; "http"; "imap"; "https"; "shttp"; "rtsp"; "rtspu"; "sip"; "sips"; "mms"; "sftp"; "tel"]%py.

Definition among (s : text) (l : list text) : bool := bool_decide (s ∈ l).

Definition urlunsplit (r : SplitResult) : text :=
  let url := sr_path r in
  let url :=
    if negb (is_empty (sr_netloc r))
       || negb (is_empty (sr_scheme r)) && among (sr_scheme r) uses_netloc && negb (starts_with (lit "//") url)
    then lit "//" ++ sr_netloc r ++ (if negb (is_empty url) && negb (starts_with [47] url) then 47 :: url else url)
    else url in
  (if is_empty (sr_scheme r) then url else sr_scheme r ++ 58 :: url)
  ++ (if is_empty (sr_query r) then [] else 63 :: sr_query r)
  ++ (if is_empty (sr_fragment r) then [] else 35 :: sr_fragment r).

(** [_splitparams] *)
Definition split_params (scheme path : text) : text * text :=
  if among scheme uses_params then
    match rpartition 47 path with
    | (Some dir, name) => let '(n, params) := partition 59 name in (dir ++ 47 :: n, default [] params)
    | (None, _) => let '(n, params) := partition 59 path in (n, default [] params)
    end
  else (path, []).

Definition urlunparse (r : SplitResult) (params : text) : text :=
  urlunsplit (mkSplitResult (sr_scheme r) (sr_netloc r)
    (if is_empty params then sr_path r else sr_path r ++ 59 :: params) (sr_query r) (sr_fragment r)).

(** The segments of a path, [.] and [..] resolved. *)
Definition resolve_segments (segments : list text) : list text :=
  let resolved := foldl (fun acc seg =>
    if bool_decide (seg = lit "..") then removelast acc
    else if bool_decide (seg = lit ".") then acc
    else acc ++ [seg]) [] segments in
  match last segments with
  | Some seg => if bool_decide (seg = lit ".") || bool_decide (seg = lit "..") then resolved ++ [[]] else resolved
  | None => resolved
  end.

(** [segments[1:-1] = filter(None, segments[1:-1])] *)
Definition squeeze (segments : list text) : list text :=
  match segments with
  | first :: (_ :: _) as rest =>
      match last segments with
      | Some l => first :: List.filter (fun s => negb (is_empty s)) (removelast (tail segments)) ++ [l]
      | None => segments
      end
  | _ => segments
  end.

Definition urljoin (base url : text) : option text :=
  if is_empty base then Some url
  else if is_empty url then Some base
  else
    b ← urlsplit base [];
    r ← urlsplit url (sr_scheme b);
    let '(bpath, bparams) := split_params (sr_scheme b) (sr_path b) in
    let '(path, params) := split_params (sr_scheme r) (sr_path r) in
    if negb (bool_decide (sr_scheme r = sr_scheme b)) || negb (among (sr_scheme r) uses_relative) then Some url
    else if among (sr_scheme r) uses_netloc && negb (is_empty (sr_netloc r)) then
      Some (urlunparse (mkSplitResult (sr_scheme r) (sr_netloc r) path (sr_query r) (sr_fragment r)) params)
    else
      let netloc := if among (sr_scheme r) uses_netloc then sr_netloc b else sr_netloc r in
      if is_empty path && is_empty params then
        Some (urlunparse (mkSplitResult (sr_scheme r) netloc bpath
                (if is_empty (sr_query r) then sr_query b else sr_query r) (sr_fragment r)) bparams)
      else
        let parts := split_on 47 bpath in
        let parts := match last parts with Some [] => parts | _ => removelast parts end in
        let segments := if starts_with [47] path then split_on 47 path else squeeze (parts ++ split_on 47 path) in
        let joined := join_with 47 (resolve_segments segments) in
        Some (urlunparse (mkSplitResult (sr_scheme r) netloc (if is_empty joined then [47] else joined) (sr_query r)
                (sr_fragment r)) params).
End unicode.
