(* ===== verification/UrlPolicy.v ===== *)
(** * The URL policy of web research

    [backend/web_research/url_policy.py]: a URL is put into a canonical form, its host
    resolved, every address checked to be globally routable, and the addresses pinned
    for the connection; redirects go through the same gate, and the peer a socket
    reached is compared with the pin. The DNS resolver, the probe that reports a
    cancellation, the Unicode tables of IDNA, NFKC and lower case are parameters. *)

From S2P Require Import Prelude PyBase Decimals Ipaddr Urls.

Open Scope N_scope.

(** ** Errors *)

Inductive WebUrlPolicyCode :=
  | URL_TOO_LONG | INVALID_URL | SCHEME_DENIED | USERINFO_DENIED | HOST_DENIED | PORT_DENIED | DNS_RESOLUTION_FAILED
  | ADDRESS_DENIED | DNS_PIN_MISMATCH | REDIRECT_DENIED.
#[export] Instance WebUrlPolicyCode_eq_dec : EqDecision WebUrlPolicyCode.
Proof. solve_decision. Defined.

Inductive web_exn :=
  | WebUrlPolicyError (code : WebUrlPolicyCode) (message : pystr) (safe_details : list (pystr * Z))
  | WValueError (message : pystr)
  | WTypeError (message : pystr)
  | WCancelled (message : pystr)
  | _InvalidAddress
  | _UnsafeAddress.

Inductive res (A : Type) := Ok (a : A) | Err (e : web_exn).
Arguments Ok {A} a.
Arguments Err {A} e.

#[export] Instance res_ret : MRet res := @Ok.
#[export] Instance res_bind : MBind res := fun A B k m => match m with Ok a => k a | Err e => Err e end.

Definition denied {A} (code : WebUrlPolicyCode) (message : pystr) : res A := Err (WebUrlPolicyError code message []).
Definition deny_if (b : bool) (code : WebUrlPolicyCode) (message : pystr) : res unit := if b then denied code message else Ok tt.
Definition reject_if (b : bool) (message : pystr) : res unit := if b then Err (WValueError message) else Ok tt.

(** ** Texts *)

Definition _DEFAULT_PORTS (scheme : text) : option Z :=
  if bool_decide (scheme = lit "http") then Some 80%Z else if bool_decide (scheme = lit "https") then Some 443%Z else None.

Definition _MAX_RESOLVED_ADDRESSES : Z := 32.
Definition _MAX_URL_BYTES : Z := 16 * 1024.
Definition default_max_url_bytes : Z := 4 * 1024.

Definition _UNRESERVED (c : N) : bool := is_AZ c || is_az c || is_09 c || is_one_of "-._~"%py c.
Definition _PATH_SAFE (c : N) : bool := _UNRESERVED c || is_one_of "/!$&'()*+,;=:@"%py c.
Definition _QUERY_SAFE (c : N) : bool := _PATH_SAFE c || (c =? 63).

Definition _integer_port (field : pystr) (value : Z) : res Z :=
  if (1 <=? value)%Z && (value <=? 65535)%Z then Ok value else Err (WValueError (field +++ " must be between 1 and 65535"%py)%py).

Definition _utf8_size (value : text) (field : pystr) : res Z :=
  match utf8_encode (PyStr value) with
  | Some bytes => Ok (Z.of_nat (length bytes))
  | None => denied INVALID_URL (field +++ " contains invalid Unicode"%py)%py
  end.

Definition _validate_raw_url_text (value : text) (field : pystr) (max_bytes : Z) : res unit :=
  size ← _utf8_size value field;
  (if (max_bytes <? size)%Z
   then Err (WebUrlPolicyError URL_TOO_LONG (field +++ " exceeds its size limit"%py)%py [("max_url_bytes"%py, max_bytes)]) else Ok tt);;
  deny_if (is_empty value || negb (bool_decide (py_strip (PyStr value) = PyStr value))) INVALID_URL
    (field +++ " must be a non-empty canonical string"%py)%py;;
  deny_if (contains 92 value || contains 0 value) INVALID_URL (field +++ " contains a forbidden character"%py)%py;;
  deny_if (existsb (fun c => (c <? 32) || (c =? 127)) value) INVALID_URL (field +++ " contains a control character"%py)%py.

Definition is_hex (c : N) : bool := is_09 c || in_range 65 70 c || in_range 97 102 c.
Definition upper_hex (c : N) : N := if in_range 97 102 c then c - 32 else c.
Definition hex_byte (b : N) : text := [37; upper_hex (hex_digit (b / 16)); upper_hex (hex_digit (b mod 16))].
Definition byte_of (h l : N) : N := 16 * default 0 (hex_value h) + default 0 (hex_value l).

(** [_canonicalize_url_component] *)
Fixpoint _canonicalize_url_component (safe : N -> bool) (value : text) : res text :=
  match value with
  | [] => Ok []
  | 37 :: h :: l :: rest =>
      if is_hex h && is_hex l then
        out ← _canonicalize_url_component safe rest;
        let b := byte_of h l in
        Ok ((if _UNRESERVED b then [b] else [37; upper_hex h; upper_hex l]) ++ out)
      else denied INVALID_URL "URL contains an invalid percent escape"%py
  | 37 :: _ => denied INVALID_URL "URL contains an invalid percent escape"%py
  | c :: rest =>
      if safe c then out ← _canonicalize_url_component safe rest; Ok (c :: out)
      else match utf8_encode_cp c with
           | Some bytes => out ← _canonicalize_url_component safe rest; Ok (concat (hex_byte <$> bytes) ++ out)
           | None => denied INVALID_URL "URL contains invalid Unicode"%py
           end
  end.

(** One round of [_remove_dot_segments]: what remains and the output so far. *)
Definition parent_path (output : text) : text := default [] (rpartition 47 output).1.
Definition dot_step (remaining output : text) : text * text :=
  if starts_with (lit "../") remaining then (drop 3 remaining, output)
  else if starts_with (lit "./") remaining then (drop 2 remaining, output)
  else if starts_with (lit "/./") remaining then (47 :: drop 3 remaining, output)
  else if bool_decide (remaining = lit "/.") then (lit "/", output)
  else if starts_with (lit "/../") remaining then (47 :: drop 4 remaining, parent_path output)
  else if bool_decide (remaining = lit "/..") then (lit "/", parent_path output)
  else if bool_decide (remaining = lit ".") || bool_decide (remaining = lit "..") then ([], output)
  else
    let '(first, rest) := if starts_with [47] remaining then (take 1 remaining, drop 1 remaining) else ([], remaining) in
    match partition 47 rest with
    | (segment, Some after) => (47 :: after, output ++ first ++ segment)
    | (segment, None) => ([], output ++ first ++ segment)
    end.

(** The loop; every round shortens what remains, so its length is fuel enough. *)
Fixpoint dot_loop (fuel : nat) (remaining output : text) : text :=
  match fuel, remaining with
  | _, [] => output
  | O, _ => output
  | S fuel, _ => let '(remaining, output) := dot_step remaining output in dot_loop fuel remaining output
  end.
Definition _remove_dot_segments (path : text) : text :=
  let output := dot_loop (length path) path [] in if is_empty output then [47] else output.

(** ** Hosts *)

Definition _SPECIAL_USE_SUFFIXES : list text := cps_of <$>
  ["alt"; "arpa"; "corp"; "home"; "internal"; "invalid"; "lan"; "local"; "localdomain"; "localhost"; "onion"; "private";
   "test"; "example"; "example.com"; "example.net"; "example.org"]%py.
Definition _is_special_domain (host : text) : bool :=
  existsb (fun suffix => bool_decide (host = suffix) || ends_with (46 :: suffix) host) _SPECIAL_USE_SUFFIXES.

Definition label_cp (c : N) : bool := is_az c || is_09 c.
(** [[a-z0-9](?:[a-z0-9-]{0,61}[a-z0-9])?] *)
Definition _ASCII_HOST_LABEL_RE (label : text) : bool :=
  match label, last label with
  | c :: _, Some d => label_cp c && label_cp d && forallb (fun c => label_cp c || (c =? 45)) label && (length label <=? 63)%nat
  | _, _ => false
  end.

Definition without_dot (host : text) : text := if ends_with [46] host then removelast host else host.

Definition _NAT64_WELL_KNOWN : N * N := (v6 [0x64; 0xff9b], 96).
Definition _NAT64_LOCAL_USE : N * N := (v6 [0x64; 0xff9b; 1], 48).
Definition _reject_transition_address (a : N) : bool :=
  v6_is_6to4 a || v6_is_teredo a || in_v6 a _NAT64_WELL_KNOWN || in_v6 a _NAT64_LOCAL_USE.

(** The conditions of [_canonical_global_ip] under which an address is denied. *)
Definition denied_address (a : ip) : bool :=
  match a with
  | V4 n => v4_is_private n || v4_is_loopback n || v4_is_link_local n || v4_is_multicast n || v4_is_reserved n
            || v4_is_unspecified n || negb (v4_is_global n)
  | V6 n => v6_is_private n || v6_is_loopback n || v6_is_link_local n || v6_is_multicast n || v6_is_reserved n
            || v6_is_unspecified n || v6_is_site_local n || negb (v6_is_global n)
  end.

Definition global_ip (value : text) : res ip :=
  if is_empty value || contains 37 value then Err _InvalidAddress
  else match ip_address value with
       | None => Err _InvalidAddress
       | Some a =>
           a ← (match a with
                | V6 n => match v6_mapped n with
                          | Some m => Ok (V4 m)
                          | None => if _reject_transition_address n then Err _UnsafeAddress else Ok a
                          end
                | V4 _ => Ok a
                end);
           if denied_address a then Err _UnsafeAddress else Ok a
       end.
Definition _canonical_global_ip (value : text) : res text := a ← global_ip value; Ok (print_ip a).

Section policy.
Context (lower_wide nfkc : text -> text).
(** IDNA of texts that are not ASCII, and of an ASCII label with the ACE prefix;
    [None] is a [UnicodeError]. *)
Context (idna_encode_wide idna_decode : text -> option text).

(** [s.encode("idna").decode("ascii")] *)
Definition idna_encode (s : text) : option text :=
  if is_ascii s then
    let labels := split_on 46 s in
    if is_empty s then Some []
    else if forallb (fun l => (0 <? length l)%nat && (length l <? 64)%nat) (removelast labels)
            && match last labels with Some l => (length l <? 64)%nat | None => true end
    then Some s else None
  else idna_encode_wide s.

Definition check_label (label : text) : res unit :=
  deny_if (negb (_ASCII_HOST_LABEL_RE label)) HOST_DENIED "URL host contains a non-standard DNS label"%py;;
  if starts_with (lit "xn--") label then
    match (decoded ← idna_decode label; idna_encode decoded) with
    | None => denied HOST_DENIED "URL host contains invalid IDNA"%py
    | Some round_trip =>
        deny_if (negb (bool_decide (lower lower_wide round_trip = label))) HOST_DENIED "URL host contains non-canonical IDNA"%py
    end
  else Ok tt.

Fixpoint check_labels (labels : list text) : res unit :=
  match labels with
  | [] => Ok tt
  | label :: labels => check_label label;; check_labels labels
  end.

Definition _canonical_domain (host : text) : res text :=
  let candidate := without_dot host in
  deny_if (is_empty candidate || contains 37 candidate || contains 58 candidate) HOST_DENIED
    "URL host is not a standard domain name"%py;;
  match idna_encode candidate with
  | None => denied HOST_DENIED "URL host cannot be canonicalized with IDNA"%py
  | Some encoded =>
      let ascii_host := lower lower_wide encoded in
      let labels := split_on 46 ascii_host in
      deny_if ((length labels <? 2)%nat || existsb is_empty labels) HOST_DENIED
        "Single-label and malformed hosts are not allowed"%py;;
      deny_if (253 <? length ascii_host)%nat HOST_DENIED "URL host exceeds the DNS name limit"%py;;
      deny_if (forallb (fun l => negb (is_empty l) && forallb is_09 l) labels) HOST_DENIED
        "Non-standard numeric hosts are not allowed"%py;;
      check_labels labels;;
      deny_if (_is_special_domain ascii_host) HOST_DENIED "Special-use domains are not allowed"%py;;
      Ok ascii_host
  end.

(** [_canonical_host]: the host, and whether it is an address. *)
Definition _canonical_host (host : text) : res (text * bool) :=
  deny_if (is_empty host) HOST_DENIED "URL host is missing"%py;;
  match _canonical_global_ip (without_dot host) with
  | Ok a => Ok (a, true)
  | Err _UnsafeAddress => denied ADDRESS_DENIED "URL address is not globally routable"%py
  | Err _InvalidAddress => h ← _canonical_domain host; Ok (h, false)
  | Err e => Err e
  end.

(** ** The pin *)

(** [_address_sort_key]: packed addresses of a version compare like their numbers. *)
Definition _address_sort_key (value : text) : option (N * N) :=
  match ip_address value with
  | Some (V4 n) => Some (4, n)
  | Some (V6 n) => Some (6, n)
  | None => None
  end.
Definition address_key_le (a b : N * N) : bool := (a.1 <? b.1) || (a.1 =? b.1) && (a.2 <=? b.2).

Fixpoint insert_key (x : (N * N) * text) (l : list ((N * N) * text)) : list ((N * N) * text) :=
  match l with
  | [] => [x]
  | y :: l' => if address_key_le x.1 y.1 then x :: l else y :: insert_key x l'
  end.

(** [sorted(set, key=_address_sort_key)] *)
Definition sorted_addresses (values : list text) : res (list text) :=
  match mapM (fun v => k ← _address_sort_key v; Some (k, v)) (remove_dups values) with
  | Some keyed => Ok ((foldr insert_key [] keyed).*2)
  | None => Err (WValueError "does not appear to be an IPv4 or IPv6 address"%py)
  end.

Record DnsPinSnapshot := mkDnsPinSnapshot {
  pin_host : text;
  pin_port : Z;
  pin_addresses : list text
}.

Fixpoint map_res {A B} (f : A -> res B) (l : list A) : res (list B) :=
  match l with
  | [] => Ok []
  | a :: l => b ← f a; bs ← map_res f l; Ok (b :: bs)
  end.

Definition unsafe_as_value {A} (m : res A) (message : pystr) : res A :=
  match m with
  | Err _InvalidAddress | Err _UnsafeAddress => Err (WValueError message)
  | r => r
  end.

Definition make_pin (host : text) (port : Z) (addresses : list text) : res DnsPinSnapshot :=
  reject_if (is_empty host || negb (is_ascii host)) "DNS pin host must be a canonical ASCII host"%py;;
  reject_if (negb (bool_decide (host = lower_ascii host)) || ends_with [46] host) "DNS pin host is not canonical"%py;;
  '(canonical, _) ← (match _canonical_host host with
                     | Err (WebUrlPolicyError _ _ _) => Err (WValueError "DNS pin host is invalid"%py)
                     | r => r
                     end);
  reject_if (negb (bool_decide (canonical = host))) "DNS pin host is not canonical"%py;;
  _integer_port "DNS pin port"%py port;;
  reject_if (is_empty addresses || (_MAX_RESOLVED_ADDRESSES <? Z.of_nat (length addresses))%Z)
    "DNS pin must contain a bounded non-empty address set"%py;;
  sorted ← unsafe_as_value (values ← map_res _canonical_global_ip addresses; sorted_addresses values)
             "DNS pin contains an invalid or unsafe address"%py;
  Ok (mkDnsPinSnapshot host port sorted).

(** [DnsPinSnapshot.contains] *)
Definition pin_contains (p : DnsPinSnapshot) (peer_ip : text) : bool :=
  match _canonical_global_ip peer_ip with
  | Ok candidate => bool_decide (candidate ∈ pin_addresses p)
  | Err _ => false
  end.

(** ** Resolved URLs *)

Record ResolvedWebUrl := mkResolvedWebUrl {
  ru_canonical_url : text;
  ru_scheme : text;
  ru_host : text;
  ru_port : Z;
  ru_authority : text;
  ru_request_target : text;
  ru_pin : DnsPinSnapshot
}.

Definition authority_of (scheme host : text) (port : Z) : text :=
  let bracketed := if contains 58 host then 91 :: host ++ [93] else host in
  if bool_decide (_DEFAULT_PORTS scheme = Some port) then bracketed
  else bracketed ++ 58 :: cps_of (py_str_int port).

Definition make_resolved (r : ResolvedWebUrl) : res ResolvedWebUrl :=
  reject_if (negb (bool_decide (is_Some (_DEFAULT_PORTS (ru_scheme r))))) "ResolvedWebUrl scheme is invalid"%py;;
  _integer_port "ResolvedWebUrl port"%py (ru_port r);;
  reject_if (negb (bool_decide (pin_host (ru_pin r) = ru_host r)) || negb (pin_port (ru_pin r) =? ru_port r)%Z)
    "ResolvedWebUrl DNS pin does not match its authority"%py;;
  reject_if (negb (starts_with [47] (ru_request_target r)) || contains 35 (ru_request_target r))
    "ResolvedWebUrl request_target is invalid"%py;;
  reject_if (negb (bool_decide (ru_authority r = authority_of (ru_scheme r) (ru_host r) (ru_port r))))
    "ResolvedWebUrl authority is inconsistent"%py;;
  reject_if (negb (bool_decide (ru_canonical_url r = ru_scheme r ++ lit "://" ++ ru_authority r ++ ru_request_target r)))
    "ResolvedWebUrl canonical_url is inconsistent"%py;;
  Ok r.

(** ** The policy *)

Record WebUrlPolicy := mkWebUrlPolicy {
  wp_allowed_scheme_ports : list (text * list Z);
  wp_max_url_bytes : Z;
  wp_max_resolved_addresses : Z;
  wp_closed : bool
}.

Fixpoint normalized_ports (configured : list (text * list Z)) : res (list (text * list Z)) :=
  match configured with
  | [] => Ok []
  | (raw_scheme, raw_ports) :: rest =>
      let scheme := lower lower_wide (cps_of (py_strip (PyStr raw_scheme))) in
      reject_if (negb (bool_decide (is_Some (_DEFAULT_PORTS scheme))) || negb (bool_decide (scheme = raw_scheme)))
        "allowed schemes must be canonical http or https"%py;;
      ports ← map_res (_integer_port "allowed port"%py) raw_ports;
      reject_if (is_empty ports) "allowed scheme port sets cannot be empty"%py;;
      others ← normalized_ports rest;
      Ok ((scheme, ports) :: others)
  end.

(** [WebUrlPolicy.__init__] *)
Definition make_url_policy (allowed_scheme_ports : option (list (text * list Z))) (max_url_bytes max_resolved_addresses : Z) :
    res WebUrlPolicy :=
  let configured := default [(lit "http", [80%Z]); (lit "https", [443%Z])] allowed_scheme_ports in
  (if is_empty configured then Err (WTypeError "allowed_scheme_ports must be a non-empty mapping"%py) else Ok tt);;
  ports ← normalized_ports configured;
  reject_if (negb ((1 <=? max_url_bytes)%Z && (max_url_bytes <=? _MAX_URL_BYTES)%Z)) "max_url_bytes must be between 1 and 16384"%py;;
  reject_if (negb ((1 <=? max_resolved_addresses)%Z && (max_resolved_addresses <=? _MAX_RESOLVED_ADDRESSES)%Z))
    "max_resolved_addresses must be between 1 and 32"%py;;
  Ok (mkWebUrlPolicy ports max_url_bytes max_resolved_addresses false).

Definition close (p : WebUrlPolicy) : WebUrlPolicy :=
  mkWebUrlPolicy (wp_allowed_scheme_ports p) (wp_max_url_bytes p) (wp_max_resolved_addresses p) true.

(** What the resolver does: it raises, is cancelled, returns something that is no
    sequence of addresses, or values, of which some may be no text. *)
Inductive DnsAnswer := DnsRaises | DnsCancelled | DnsNoSequence | DnsValues (values : list (option text)).
Context (resolver : text -> Z -> DnsAnswer).

(** The answers of the probe, if there is one, by the number of the call; [None] when
    it raises. *)
Context (probe : option (nat -> option bool)).

Definition _raise_if_cancelled (k : nat) : res unit :=
  match probe with
  | None => Ok tt
  | Some f =>
      match f k with
      | None => Err (WCancelled "DNS cancellation probe failed"%py)
      | Some true => Err (WCancelled "DNS resolution cancelled"%py)
      | Some false => Ok tt
      end
  end.

Definition checked_answer (value : option text) : res text :=
  match value with
  | None => denied DNS_RESOLUTION_FAILED "DNS resolver returned an invalid address"%py
  | Some v =>
      match _canonical_global_ip v with
      | Err _InvalidAddress => denied DNS_RESOLUTION_FAILED "DNS resolver returned an invalid address"%py
      | Err _UnsafeAddress => denied ADDRESS_DENIED "DNS resolver returned a non-global address"%py
      | r => r
      end
  end.

Definition _resolve_all (p : WebUrlPolicy) (host : text) (port : Z) : res (list text) :=
  match resolver host port with
  | DnsCancelled => Err (WCancelled "DNS resolution cancelled"%py)
  | DnsRaises => denied DNS_RESOLUTION_FAILED "DNS resolution failed"%py
  | DnsNoSequence => denied DNS_RESOLUTION_FAILED "DNS resolver returned an invalid address set"%py
  | DnsValues values =>
      (if is_empty values || (wp_max_resolved_addresses p <? Z.of_nat (length values))%Z
       then Err (WebUrlPolicyError DNS_RESOLUTION_FAILED "DNS resolver returned an empty or oversized address set"%py
                   [("max_addresses"%py, wp_max_resolved_addresses p)]) else Ok tt);;
      canonical ← map_res checked_answer values;
      sorted_addresses canonical
  end.

Definition allowed_ports (p : WebUrlPolicy) (scheme : text) : list Z :=
  default [] (snd <$> head (List.filter (fun e => bool_decide (e.1 = scheme)) (wp_allowed_scheme_ports p))).

(** The parts of a URL the policy admits: scheme, host, whether it is an address,
    port, path and query. *)
Definition admitted_parts (p : WebUrlPolicy) (url : text) : res (text * text * bool * Z * text * text) :=
  match urlsplit nfkc url [] with
  | None => denied INVALID_URL "URL cannot be parsed"%py
  | Some parsed =>
      let scheme := lower lower_wide (sr_scheme parsed) in
      match _DEFAULT_PORTS scheme with
      | None => denied SCHEME_DENIED "Only http and https URLs are allowed"%py
      | Some default_port =>
          deny_if (is_empty (sr_netloc parsed)) HOST_DENIED "URL host is missing"%py;;
          deny_if (contains 64 (sr_netloc parsed)) USERINFO_DENIED "URL user information is not allowed"%py;;
          match Urls.port parsed with
          | None => denied INVALID_URL "URL authority is invalid"%py
          | Some parsed_port =>
              '(host, is_ip_literal) ← _canonical_host (default [] (hostname lower_wide parsed));
              let port := default default_port parsed_port in
              (if bool_decide (port ∈ allowed_ports p scheme) then Ok tt
               else Err (WebUrlPolicyError PORT_DENIED "URL port is outside the allowlist"%py [("port"%py, port)]));;
              path ← _canonicalize_url_component _PATH_SAFE (if is_empty (sr_path parsed) then [47] else sr_path parsed);
              query ← _canonicalize_url_component _QUERY_SAFE (sr_query parsed);
              Ok (scheme, host, is_ip_literal, port, _remove_dot_segments path, query)
          end
      end
  end.

(** [WebUrlPolicy.resolve]; [k] numbers the calls of the probe. *)
Definition resolve_url (p : WebUrlPolicy) (k : nat) (url : text) : res ResolvedWebUrl :=
  deny_if (wp_closed p) DNS_RESOLUTION_FAILED "URL policy is closed"%py;;
  _raise_if_cancelled k;;
  _validate_raw_url_text url "URL"%py (wp_max_url_bytes p);;
  '(scheme, host, is_ip_literal, port, path, query) ← admitted_parts p url;
  let authority := authority_of scheme host port in
  let canonical_url := urlunsplit (mkSplitResult scheme authority path query []) in
  size ← _utf8_size canonical_url "canonical URL"%py;
  (if (wp_max_url_bytes p <? size)%Z
   then Err (WebUrlPolicyError URL_TOO_LONG "Canonical URL exceeds its size limit"%py [("max_url_bytes"%py, wp_max_url_bytes p)])
   else Ok tt);;
  addresses ← (if (is_ip_literal : bool) then Ok [host] else _resolve_all p host port);
  _raise_if_cancelled (S k);;
  pin ← make_pin host port addresses;
  make_resolved (mkResolvedWebUrl canonical_url scheme host port authority
    (if is_empty query then path else path ++ 63 :: query) pin).

(** [validate_redirect] *)
Definition validate_redirect (p : WebUrlPolicy) (k : nat) (base : ResolvedWebUrl + text) (location : text) :
    res ResolvedWebUrl :=
  _raise_if_cancelled k;;
  base_url ← (match base with
              | inl r => Ok (ru_canonical_url r)
              | inr url => r ← resolve_url p (S k) url; Ok (ru_canonical_url r)
              end);
  redirect_url ← (match _validate_raw_url_text location "redirect location"%py (wp_max_url_bytes p) with
                  | Ok _ =>
                      match urljoin nfkc base_url location with
                      | Some url => Ok url
                      | None => denied REDIRECT_DENIED "Redirect location is invalid"%py
                      end
                  | Err (WebUrlPolicyError URL_TOO_LONG m d) => Err (WebUrlPolicyError URL_TOO_LONG m d)
                  | Err (WebUrlPolicyError _ _ _) | Err (WValueError _) | Err (WTypeError _) =>
                      denied REDIRECT_DENIED "Redirect location is invalid"%py
                  | Err e => Err e
                  end);
  resolve_url p (3 + k) redirect_url.

(** [verify_peer] *)
Definition verify_peer (resolved : ResolvedWebUrl) (peer_ip : text) : res unit :=
  match _canonical_global_ip peer_ip with
  | Ok candidate =>
      deny_if (negb (bool_decide (candidate ∈ pin_addresses (ru_pin resolved)))) DNS_PIN_MISMATCH
        "Connected peer does not match the DNS pin snapshot"%py
  | Err _ => denied ADDRESS_DENIED "Connected peer address is not globally routable"%py
  end.
End policy.
