(* ===== verification/UrlPolicyProps.v ===== *)
(** * The URL policy keeps requests on the public internet *)

From S2P Require Import Prelude PyBase Decimals Ipaddr IpaddrProps Urls UrlPolicy.

Open Scope N_scope.

(** ** Results *)

Lemma res_bind_inv {A B} (m : res A) (k : A -> res B) b : (m ≫= k) = Ok b -> exists a, m = Ok a /\ k a = Ok b.
Proof. destruct m as [a|e]; [eauto|done]. Qed.
Lemma deny_if_inv b c m u : deny_if b c m = Ok u -> b = false.
Proof. by destruct b. Qed.
Lemma reject_if_inv b m u : reject_if b m = Ok u -> b = false.
Proof. by destruct b. Qed.

Ltac rinv := repeat match goal with
  | H : (_ ≫= _) = Ok _ |- _ => let E := fresh "E" in apply res_bind_inv in H as (? & E & H)
  | H : deny_if _ _ _ = Ok _ |- _ => apply deny_if_inv in H
  | H : reject_if _ _ = Ok _ |- _ => apply reject_if_inv in H
  end.

(** ** Characters *)

Definition chars (P : N -> bool) (s : text) : Prop := Forall (fun c => P c = true) s.

Lemma chars_impl (P Q : N -> bool) s : (forall c, P c = true -> Q c = true) -> chars P s -> chars Q s.
Proof. intros H F. eapply Forall_impl; [exact F|]. exact H. Qed.

Lemma chars_free P c s : chars P s -> P c = false -> contains c s = false.
Proof.
  intros F E. unfold contains. induction F as [|d s Hd _ IH]; [done|]. simpl. rewrite IH, orb_false_r. apply N.eqb_neq. congruence.
Qed.

Lemma chars_app P s t : chars P (s ++ t) <-> chars P s /\ chars P t.
Proof. apply Forall_app. Qed.

Lemma chars_join P sep parts : P sep = true -> Forall (chars P) parts -> chars P (join_with sep parts).
Proof.
  intros S F. induction F as [|p parts Hp _ IH]; [constructor|]. destruct parts as [|q parts]; [done|].
  apply chars_app. split; [done|]. constructor; done.
Qed.

Lemma chars_split P sep s : chars P s -> Forall (chars P) (split_on sep s).
Proof.
  intros F. induction F as [|c s Hc F IH]; simpl; [repeat constructor|]. destruct (c =? sep); [by constructor; [constructor|]|].
  destruct (split_on sep s); [by repeat constructor|]. apply Forall_cons in IH as [H1 H2]. constructor; [by constructor|done].
Qed.

Lemma chars_ascii P s : chars P s -> (forall c, P c = true -> c < 128) -> is_ascii s = true.
Proof. intros F H. apply forallb_forall. intros c Hc%list_elem_of_In. unfold chars in F. rewrite Forall_forall in F. by apply N.ltb_lt, H, F. Qed.

Lemma chars_lower P s : chars P s -> (forall c, P c = true -> is_AZ c = false) -> lower_ascii s = s.
Proof. intros F H. unfold lower_ascii. induction F as [|c s Hc _ IH]; [done|]. rewrite fmap_cons, IH, H by done. done. Qed.

(** ** Canonical addresses *)

Definition host_char (c : N) : bool := label_cp c || (c =? 45) || (c =? 46).
Definition ip_char (c : N) : bool := is_09 c || in_range 97 102 c || (c =? 46) || (c =? 58).

Ltac by_chars := intros c; unfold ip_char, host_char, label_cp, is_09, is_az, is_AZ, in_range, _UNRESERVED, _PATH_SAFE, _QUERY_SAFE;
  repeat rewrite ?orb_true_iff, ?andb_true_iff, ?N.leb_le, ?N.eqb_eq, ?andb_false_iff, ?N.leb_gt; intros; lia.

Lemma print_ip_chars a : ip_ok a -> chars ip_char (print_ip a).
Proof.
  destruct a as [n|n]; simpl; intros H.
  - apply chars_join; [done|]. apply Forall_fmap. apply octets_bound in H. eapply Forall_impl; [exact H|]. intros o Ho.
    unfold compose, py_str_int. destruct (Z.of_N o <? 0)%Z eqn:E; [apply Z.ltb_lt in E; lia|].
    eapply Forall_impl; [apply digits_aux_digits|]. intros c Hc. unfold ip_char. by rewrite Hc.
  - apply chars_join; [done|].
    assert (forall k, Forall (fun h => h < 65536) k -> Forall (chars ip_char) (print_hextet <$> k)) as K.
    { intros k F. apply Forall_fmap. eapply Forall_impl; [exact F|]. intros h Hh. destruct (hextet_digits_ok h Hh) as (D & _).
      change (chars ip_char (hex_digit <$> hextet_digits h)). apply Forall_fmap. eapply Forall_impl; [exact D|].
      intros v Hv. apply (below 16 (fun v => ip_char (hex_digit v))); [vm_compute; done|exact Hv]. }
    assert (forall k, Forall (fun h => h < 65536) k -> Forall (chars ip_char) (side k)) as KS.
    { intros [|h k] F; [by repeat constructor|]. by apply K. }
    pose proof (hextets_bound n) as F.
    destruct (compress_cases (hextets n) eq_refl) as [E|(s & l & _ & _ & E)]; rewrite E; [by apply K|].
    apply Forall_app. split; [by apply KS, Forall_take|]. constructor; [constructor|by apply KS, Forall_drop].
Qed.

Definition is_v6_plain (a : ip) : bool :=
  match a with V4 _ => true | V6 n => negb (bool_decide (is_Some (v6_mapped n))) && negb (_reject_transition_address n) end.

Lemma global_ip_inv s a : global_ip s = Ok a -> ip_ok a /\ denied_address a = false /\ is_v6_plain a = true.
Proof.
  unfold global_ip. destruct (_ || _); [done|]. destruct (ip_address s) as [[n|n]|] eqn:E; [| |done].
  - cbn [mbind res_bind]. destruct (denied_address (V4 n)) eqn:D; [done|]. intros [= <-].
    split_and!; [by apply (ip_address_ok s (V4 n))|exact D|done].
  - apply ip_address_ok in E. destruct (v6_mapped n) as [m|] eqn:M; cbn [mbind res_bind].
    + destruct (denied_address (V4 m)) eqn:D; [done|]. intros [= <-]. split_and!; [|done..].
      unfold v6_mapped in M. destruct (_ =? _); [|done]. injection M as <-. by apply N.mod_lt.
    + destruct (_reject_transition_address n) eqn:T; [done|]. cbn [mbind res_bind]. destruct (denied_address (V6 n)) eqn:D; [done|].
      intros [= <-]. split_and!; [done..|]. unfold is_v6_plain. rewrite M, T. by rewrite bool_decide_eq_false_2 by (by intros [? ?]).
Qed.

Lemma global_ip_print a : ip_ok a -> denied_address a = false -> is_v6_plain a = true -> global_ip (print_ip a) = Ok a.
Proof.
  intros O D P. unfold global_ip. pose proof (ip_roundtrip a O) as R. pose proof (print_ip_chars a O) as C.
  rewrite (chars_free _ 37 _ C eq_refl), orb_false_r. destruct (print_ip a) as [|c s] eqn:E; [discriminate R|].
  cbn [is_empty]. rewrite R. destruct a as [n|n]; cbn [mbind res_bind].
  - by rewrite D.
  - unfold is_v6_plain in P. apply andb_true_iff in P as [P1 P2]. destruct (v6_mapped n) as [m|]; [by rewrite bool_decide_eq_true_2 in P1 by eauto|].
    apply negb_true_iff in P2. rewrite P2. cbn [mbind res_bind]. by rewrite D.
Qed.

Lemma canonical_ip_inv s t : _canonical_global_ip s = Ok t ->
  exists a, global_ip s = Ok a /\ t = print_ip a /\ ip_ok a /\ denied_address a = false /\ is_v6_plain a = true.
Proof.
  intros (a & E & [= <-])%res_bind_inv. exists a. destruct (global_ip_inv _ _ E) as (O & D & P). done.
Qed.

Lemma canonical_ip_stable s t : _canonical_global_ip s = Ok t -> _canonical_global_ip t = Ok t.
Proof.
  intros (a & _ & -> & O & D & P)%canonical_ip_inv. unfold _canonical_global_ip. by rewrite global_ip_print.
Qed.

(** ** Canonical hosts *)

Lemma ends_with_dot s : ends_with [46] s = bool_decide (last s = Some 46).
Proof.
  destruct s as [|c s _] using rev_ind; [done|]. unfold ends_with. rewrite length_app, last_snoc. simpl length.
  replace (length s + 1 - 1)%nat with (length s) by lia. rewrite drop_app_length. apply bool_decide_ext. split; congruence.
Qed.

Lemma without_dot_id s : ends_with [46] s = false -> without_dot s = s.
Proof. unfold without_dot. by intros ->. Qed.

Section hosts.
Context (lower_wide : text -> text) (idna_encode_wide idna_decode : text -> option text).
Abbreviation check_labels := (check_labels lower_wide idna_encode_wide idna_decode).
Abbreviation canonical_domain := (_canonical_domain lower_wide idna_encode_wide idna_decode).
Abbreviation canonical_host := (_canonical_host lower_wide idna_encode_wide idna_decode).

Lemma check_labels_inv labels u : check_labels labels = Ok u -> Forall (fun l => _ASCII_HOST_LABEL_RE l = true) labels.
Proof.
  revert u. induction labels as [|l labels IH]; intros u H; [constructor|]. cbn [UrlPolicy.check_labels] in H. rinv.
  unfold check_label in E. rinv. apply negb_false_iff in E0. constructor; [done|by eapply IH].
Qed.

Lemma label_inv l : _ASCII_HOST_LABEL_RE l = true ->
  chars (fun c => label_cp c || (c =? 45)) l /\ (1 <= length l <= 63)%nat /\ (exists d, last l = Some d /\ label_cp d = true).
Proof.
  unfold _ASCII_HOST_LABEL_RE. destruct l as [|c l]; [done|]. destruct (last (c :: l)) as [d|]; [|done].
  rewrite !andb_true_iff, Nat.leb_le. intros [[[H1 H2] H3] H4]. split_and!; [|simpl; lia|simpl in *; lia|by exists d].
  rewrite forallb_forall in H3. apply Forall_forall. intros x Hx%list_elem_of_In. by apply H3.
Qed.

(** What a canonical domain looks like. *)
Record domain_ok (t : text) : Prop := mkDomainOk {
  do_labels : Forall (fun l => _ASCII_HOST_LABEL_RE l = true) (split_on 46 t);
  do_two : (2 <= length (split_on 46 t))%nat;
  do_length : (length t <= 253)%nat;
  do_numeric : forallb (fun l => negb (is_empty l) && forallb is_09 l) (split_on 46 t) = false;
  do_idna : check_labels (split_on 46 t) = Ok tt;
  do_special : _is_special_domain t = false
}.

Lemma canonical_domain_inv h t : canonical_domain h = Ok t -> domain_ok t.
Proof.
  unfold _canonical_domain. cbv zeta. intros H. rinv. destruct (UrlPolicy.idna_encode _ _) as [encoded|]; [|done].
  rinv. injection H as <-. destruct x3. apply orb_false_iff in E0 as [E0%Nat.ltb_ge _]. apply Nat.ltb_ge in E1.
  constructor; try done. by eapply check_labels_inv.
Qed.

Lemma domain_chars t : domain_ok t -> chars host_char t.
Proof.
  intros D. rewrite <- (join_split 46 t). apply chars_join; [done|]. eapply Forall_impl; [apply (do_labels _ D)|].
  intros l (F & _)%label_inv. eapply chars_impl; [|exact F]. intros c Hc. unfold host_char. rewrite Hc. done.
Qed.

Lemma last_join sep parts p : last parts = Some p -> p <> [] -> last (join_with sep parts) = last p.
Proof.
  revert p. induction parts as [|q parts IH]; intros p L N; [done|]. destruct parts as [|r parts]; [by injection L as ->|].
  rewrite last_cons_cons in L. change (join_with sep (q :: r :: parts)) with (q ++ sep :: join_with sep (r :: parts)).
  rewrite last_app. destruct (last (sep :: join_with sep (r :: parts))) eqn:E.
  - rewrite <- (IH p L N). destruct (join_with sep (r :: parts)) eqn:J; [|by rewrite last_cons_cons in E].
    pose proof (IH p L N) as K. destruct p as [|x p _] using rev_ind; [done|]. by rewrite last_snoc in K.
  - by apply last_None in E.
Qed.

Lemma domain_end t : domain_ok t -> ends_with [46] t = false /\ is_empty t = false.
Proof.
  intros D. pose proof (split_on_ne 46 t) as NE. pose proof (do_labels _ D) as F.
  destruct (last (split_on 46 t)) as [p|] eqn:L; [|by apply last_None in L].
  assert (_ASCII_HOST_LABEL_RE p = true) as R by (rewrite Forall_forall in F; apply F; by apply last_Some_elem_of).
  destruct (label_inv p R) as (_ & Lp & d & Ld & Hd).
  assert (last t = Some d) as Lt.
  { rewrite <- (join_split 46 t), <- Ld. apply last_join; [done|]. intros ->. simpl in Lp. lia. }
  split; [|by destruct t]. rewrite ends_with_dot, Lt. apply bool_decide_eq_false_2. intros [= ->]. done.
Qed.

Lemma domain_no_ip t : domain_ok t -> ip_address t = None.
Proof.
  intros D. pose proof (domain_chars t D) as C. unfold ip_address.
  assert (read_v6 t = None) as ->.
  { unfold read_v6. rewrite <- (app_nil_r t), split_on_free; [done|]. unfold free_of.
    pose proof (chars_free _ 58 _ C eq_refl) as F. unfold contains in F. by rewrite F. }
  destruct (read_v4 t) as [n|] eqn:R; [|done]. exfalso. pose proof (do_numeric _ D) as N. unfold read_v4 in R.
  assert (forall o v, read_octet o = Some v -> negb (is_empty o) && forallb is_09 o = true) as K.
  { intros o v. unfold read_octet. destruct o as [|c o]; [done|]. cbn [is_empty negb andb]. destruct (forallb is_09 (c :: o)); [done|].
    done. }
  destruct (split_on 46 t) as [|a [|b [|c [|d [|]]]]]; try done.
  destruct (read_octet a) eqn:A; [|done]. destruct (read_octet b) eqn:B; [|done]. destruct (read_octet c) eqn:Q; [|done].
  destruct (read_octet d) eqn:E; [|done]. cbn [forallb] in N. by rewrite (K _ _ A), (K _ _ B), (K _ _ Q), (K _ _ E) in N.
Qed.

Lemma idna_encode_domain t : domain_ok t -> UrlPolicy.idna_encode idna_encode_wide t = Some t.
Proof.
  intros D. pose proof (domain_chars t D) as C. unfold UrlPolicy.idna_encode. rewrite (chars_ascii _ _ C) by by_chars.
  cbv zeta. rewrite (proj2 (domain_end t D)). pose proof (do_labels _ D) as F.
  assert (Forall (fun l => (0 <? length l)%nat && (length l <? 64)%nat = true) (split_on 46 t)) as K.
  { eapply Forall_impl; [exact F|]. intros l (_ & L & _)%label_inv. rewrite andb_true_iff, !Nat.ltb_lt. lia. }
  assert (forallb (fun l => (0 <? length l)%nat && (length l <? 64)%nat) (removelast (split_on 46 t)) = true) as ->.
  { apply forallb_forall. intros l Hl. rewrite Forall_forall in K. apply K, list_elem_of_In.
    rewrite (app_removelast_last [] (split_on_ne 46 t)). apply in_or_app. by left. }
  destruct (last (split_on 46 t)) as [l|] eqn:L; [|done]. rewrite Forall_forall in K. specialize (K l (last_Some_elem_of _ _ L)).
  apply andb_true_iff in K as [_ ->]. done.
Qed.

Lemma canonical_domain_stable t : domain_ok t -> canonical_domain t = Ok t.
Proof.
  intros D. pose proof (domain_chars t D) as C. destruct (domain_end t D) as [D1 D2]. unfold _canonical_domain. cbv zeta.
  rewrite (without_dot_id t D1), D2, (chars_free _ 37 _ C eq_refl), (chars_free _ 58 _ C eq_refl). cbn [orb deny_if mbind res_bind].
  rewrite (idna_encode_domain t D). unfold lower. rewrite (chars_ascii _ _ C), (chars_lower _ _ C) by by_chars.
  assert ((length (split_on 46 t) <? 2)%nat || existsb is_empty (split_on 46 t) = false) as ->.
  { apply orb_false_iff. split; [apply Nat.ltb_ge, (do_two _ D)|]. apply not_true_iff_false. intros (l & Hl & El)%existsb_exists.
    pose proof (do_labels _ D) as F. rewrite Forall_forall in F. apply list_elem_of_In, F in Hl. apply label_inv in Hl as (_ & L & _).
    destruct l; [simpl in L; lia|done]. }
  assert ((253 <? length t)%nat = false) as -> by apply Nat.ltb_ge, (do_length _ D).
  rewrite (do_numeric _ D), (do_idna _ D), (do_special _ D). done.
Qed.

(** A canonical host is a printed global address or a canonical domain. *)
Inductive host_ok : text -> bool -> Prop :=
  | host_address a : ip_ok a -> denied_address a = false -> is_v6_plain a = true -> host_ok (print_ip a) true
  | host_domain t : domain_ok t -> host_ok t false.

Lemma canonical_host_inv h t b : canonical_host h = Ok (t, b) -> host_ok t b.
Proof.
  unfold _canonical_host. intros H. rinv. destruct (_canonical_global_ip (without_dot h)) as [a|[]] eqn:A; try done.
  - injection H as <- <-. apply canonical_ip_inv in A as (a0 & _ & -> & O & D & P). by constructor.
  - rinv. injection H as <- <-. constructor. by eapply canonical_domain_inv.
Qed.

Lemma print_ip_end a : ip_ok a -> ends_with [46] (print_ip a) = false /\ is_empty (print_ip a) = false.
Proof.
  intros O. pose proof (ip_roundtrip a O) as R. split; [|destruct (print_ip a); [discriminate R|done]].
  rewrite ends_with_dot. apply bool_decide_eq_false_2. intros [s E]%last_Some. destruct a as [n|n]; simpl in E, O.
  - unfold print_v4 in E. apply (f_equal last) in E. rewrite last_snoc in E.
    rewrite (last_join 46 _ (cps_of (py_str_int (Z.of_N (n mod 256))))) in E; [|done|].
    + destruct (py_str_int_end (Z.of_N (n mod 256))) as (l & d & El & _). rewrite El, last_snoc in E.
      pose proof (py_str_int_decimal (Z.of_N (n mod 256))) as F. rewrite El in F. apply Forall_app in F as [_ F].
      apply Forall_cons in F as [F _]. by injection E as ->.
    + destruct (py_str_int_end (Z.of_N (n mod 256))) as (l & d & El & _). rewrite El. by destruct l.
  - assert (free_of 46 (print_v6 n) = true) as F by by apply print_v6_free. rewrite E, free_of_app in F. by apply andb_true_iff in F as [_ F].
Qed.

(** Characters of a canonical host. *)
Definition net_char (c : N) : bool := ip_char c || host_char c.

Lemma host_facts t b : host_ok t b ->
  chars net_char t /\ ends_with [46] t = false /\ is_empty t = false /\ is_ascii t = true /\ lower_ascii t = t.
Proof.
  intros H. assert (chars net_char t) as C.
  { destruct H as [a O _ _|t D]; [eapply chars_impl; [|by apply print_ip_chars]|eapply chars_impl; [|by apply domain_chars]];
      intros c Hc; unfold net_char; rewrite Hc; by rewrite ?orb_true_r. }
  assert (forall c, net_char c = true -> c < 128 /\ is_AZ c = false) as K by (unfold net_char; by_chars).
  split_and!; [done|destruct H; [by apply print_ip_end|by apply domain_end]..| |].
  - eapply chars_ascii; [exact C|]. intros c Hc. by apply K.
  - eapply chars_lower; [exact C|]. intros c Hc. by apply K.
Qed.

Lemma host_stable t b : host_ok t b -> canonical_host t = Ok (t, b).
Proof.
  intros H. destruct (host_facts t b H) as (_ & E & N & _). unfold _canonical_host. rewrite N, (without_dot_id t E).
  cbn [deny_if mbind res_bind]. destruct H as [a O D P|t D].
  - unfold _canonical_global_ip. by rewrite global_ip_print.
  - unfold _canonical_global_ip, global_ip. rewrite N, (chars_free _ 37 _ (domain_chars t D) eq_refl), (domain_no_ip t D).
    cbn [orb mbind res_bind]. by rewrite canonical_domain_stable.
Qed.
End hosts.

(** ** Canonical components *)

(** Safe characters, and escapes in upper case of bytes that need one. *)
Inductive canonical (safe : N -> bool) : text -> Prop :=
  | canonical_nil : canonical safe []
  | canonical_safe c s : safe c = true -> canonical safe s -> canonical safe (c :: s)
  | canonical_escape h l s : is_hex h = true -> is_hex l = true -> upper_hex h = h -> upper_hex l = l ->
      _UNRESERVED (byte_of h l) = false -> canonical safe s -> canonical safe (37 :: h :: l :: s).

Section component.
Context (safe : N -> bool) (safe_unreserved : forall c, _UNRESERVED c = true -> safe c = true) (percent : safe 37 = false).

Lemma canonical_app s t : canonical safe s -> canonical safe t -> canonical safe (s ++ t).
Proof. intros H T. induction H; simpl; [done|by constructor..]. Qed.

Lemma upper_hex_facts h : is_hex h = true ->
  is_hex (upper_hex h) = true /\ upper_hex (upper_hex h) = upper_hex h /\ hex_value (upper_hex h) = hex_value h.
Proof.
  intros H. assert (h < 128) as L by (revert H; unfold is_hex, is_09, in_range; rewrite !orb_true_iff, !andb_true_iff, !N.leb_le; lia).
  assert (negb (is_hex h) || is_hex (upper_hex h) && (upper_hex (upper_hex h) =? upper_hex h)
    && bool_decide (hex_value (upper_hex h) = hex_value h) = true) as K.
  { revert h L H. intros h L _. revert h L. apply (below 128). vm_compute. done. }
  rewrite H in K. apply andb_true_iff in K as [[K1 K2%N.eqb_eq]%andb_true_iff K3%bool_decide_eq_true]. done.
Qed.

Lemma hex_byte_canonical b : b < 256 -> _UNRESERVED b = false -> canonical safe (hex_byte b).
Proof.
  intros L U. unfold hex_byte. set (h := upper_hex _). set (l := upper_hex _).
  assert (is_hex h = true /\ is_hex l = true /\ upper_hex h = h /\ upper_hex l = l /\ byte_of h l = b) as (H1 & H2 & H3 & H4 & H5).
  { assert (is_hex h && is_hex l && (upper_hex h =? h) && (upper_hex l =? l) && (byte_of h l =? b) = true) as K.
    { revert b L U h l. intros b L _. revert b L. apply (below 256). vm_compute. done. }
    repeat (apply andb_true_iff in K as [K ?]). repeat match goal with E : (_ =? _) = true |- _ => apply N.eqb_eq in E end. done. }
  apply canonical_escape; [done..|by rewrite H5|constructor].
Qed.

Lemma utf8_bytes c bytes : utf8_encode_cp c = Some bytes -> Forall (fun b => b < 256 /\ (_UNRESERVED b = true -> b = c /\ c < 128)) bytes.
Proof.
  unfold utf8_encode_cp. assert (forall b, 128 <= b -> _UNRESERVED b = false) as U.
  { intros b Hb. unfold _UNRESERVED, is_AZ, is_az, is_09, in_range, is_one_of. simpl.
    rewrite !orb_false_iff, !andb_false_iff, !N.leb_gt, !N.eqb_neq. lia. }
  assert (forall b, 128 <= b < 256 -> b < 256 /\ (_UNRESERVED b = true -> b = c /\ c < 128)) as K.
  { intros b Hb. split; [lia|]. rewrite U by lia. done. }
  destruct (c <? 128) eqn:E1; [apply N.ltb_lt in E1; intros [= <-]; repeat constructor; [lia|done]|].
  apply N.ltb_ge in E1. destruct (c <? 2048) eqn:E2; [apply N.ltb_lt in E2|apply N.ltb_ge in E2; destruct (is_surrogate c); [done|]].
  - intros [= <-]. repeat (apply Forall_cons; split; [apply K; digits|]); constructor.
  - destruct (c <? 65536) eqn:E3; [apply N.ltb_lt in E3; intros [= <-]; repeat (apply Forall_cons; split; [apply K; digits|]); constructor|].
    apply N.ltb_ge in E3. destruct (c <? 1114112) eqn:E4; [|done]. apply N.ltb_lt in E4. intros [= <-]. repeat (apply Forall_cons; split; [apply K; digits|]); constructor.
Qed.

Lemma escaped_canonical c bytes : utf8_encode_cp c = Some bytes -> safe c = false -> canonical safe (concat (hex_byte <$> bytes)).
Proof using safe_unreserved.
  intros H S. apply utf8_bytes in H. induction H as [|b bytes [L U] _ IH]; [constructor|]. rewrite fmap_cons. cbn [concat].
  apply canonical_app; [|done]. apply hex_byte_canonical; [done|]. destruct (_UNRESERVED b) eqn:E; [|done].
  destruct (U eq_refl) as [-> _]. by rewrite safe_unreserved in S.
Qed.

Lemma canonicalized v t : _canonicalize_url_component safe v = Ok t -> canonical safe t.
Proof using safe_unreserved.
  revert t. induction v as [v IH] using (induction_ltof1 _ (@length N)). unfold ltof in IH. intros t.
  destruct v as [|c rest]; cbn [_canonicalize_url_component]; [intros [= <-]; constructor|].
  destruct (decide (c = 37)) as [->|N].
  - destruct rest as [|h [|l rest]]; [done..|]. destruct (is_hex h && is_hex l) eqn:E; [|done].
    apply andb_true_iff in E as [Hh Hl]. intros H. rinv. injection H as <-. apply canonical_app; [|apply (IH rest); [simpl; lia|done]].
    cbv zeta. destruct (_UNRESERVED (byte_of h l)) eqn:U; [constructor; [by apply safe_unreserved|constructor]|].
    destruct (upper_hex_facts h Hh) as (A1 & A2 & A3), (upper_hex_facts l Hl) as (B1 & B2 & B3). apply canonical_escape; [done..| |constructor].
    unfold byte_of in *. by rewrite A3, B3.
  - assert (_canonicalize_url_component safe (c :: rest) =
      if safe c then out ← _canonicalize_url_component safe rest; Ok (c :: out)
      else match utf8_encode_cp c with
           | Some bytes => out ← _canonicalize_url_component safe rest; Ok (concat (hex_byte <$> bytes) ++ out)
           | None => denied INVALID_URL "URL contains invalid Unicode"%py
           end) as E.
    { destruct c as [|p]; [done|]. repeat (destruct p as [p|p|]; try done). }
    intros H. change (_canonicalize_url_component safe (c :: rest) = Ok t) in H. rewrite E in H. destruct (safe c) eqn:S.
    + rinv. injection H as <-. constructor; [done|]. apply (IH rest); [simpl; lia|done].
    + destruct (utf8_encode_cp c) as [bytes|] eqn:U; [|done]. rinv. injection H as <-.
      apply canonical_app; [by eapply escaped_canonical|]. apply (IH rest); [simpl; lia|done].
Qed.

Lemma canonical_fixed t : canonical safe t -> _canonicalize_url_component safe t = Ok t.
Proof using percent.
  intros H. induction H as [|c s S H IH|h l s Hh Hl Uh Ul U H IH]; [done| |].
  - assert (c <> 37) as N by congruence.
    assert (_canonicalize_url_component safe (c :: s) = (out ← _canonicalize_url_component safe s; Ok (c :: out))) as ->.
    { cbn [_canonicalize_url_component]. rewrite S. destruct c as [|p]; [done|]. repeat (destruct p as [p|p|]; try done). }
    by rewrite IH.
  - cbn [_canonicalize_url_component]. rewrite Hh, Hl, IH. cbn [andb mbind res_bind]. cbv zeta. by rewrite U, Uh, Ul.
Qed.

Lemma canonical_chars t : canonical safe t -> chars (fun c => safe c || (c =? 37) || is_hex c) t.
Proof.
  intros H. induction H as [|c s S H IH|h l s Hh Hl Uh Ul U H IH]; [constructor|constructor; [by rewrite S|done]|].
  constructor; [by rewrite orb_true_r|]. constructor; [by rewrite Hh, !orb_true_r|]. constructor; [by rewrite Hl, !orb_true_r|done].
Qed.
End component.

(** ** Dot segments *)

(** A path of segments, each after its slash. *)
Definition slashed (segments : list text) : text := concat ((fun s => 47 :: s) <$> segments).

(** [.] stays, [..] goes up; at the end both leave a directory. *)
Fixpoint dots (stack segments : list text) : list text :=
  match segments with
  | [] => stack
  | s :: rest =>
      let stack := if bool_decide (s = lit ".") then stack
                   else if bool_decide (s = lit "..") then removelast stack
                   else stack ++ [s] in
      match rest with
      | [] => if bool_decide (s = lit ".") || bool_decide (s = lit "..") then stack ++ [[]] else stack
      | _ => dots stack rest
      end
  end.

Lemma slashed_cons s l : slashed (s :: l) = 47 :: s ++ slashed l.
Proof. done. Qed.
Lemma slashed_app l k : slashed (l ++ k) = slashed l ++ slashed k.
Proof. unfold slashed. by rewrite fmap_app, concat_app. Qed.

Lemma slashed_head l : l = [] /\ slashed l = [] \/ exists r, slashed l = 47 :: r.
Proof. destruct l as [|s l]; [by left|]. right. by eexists. Qed.

Lemma partition_found c s r : free_of c s = true -> partition c (s ++ c :: r) = (s, Some r).
Proof.
  induction s as [|d s IH]; simpl; [by rewrite N.eqb_refl|]. rewrite free_of_cons. intros [E F]%andb_true_iff.
  apply negb_true_iff in E. rewrite N.eqb_sym, E, IH by done. done.
Qed.
Lemma partition_none c s : free_of c s = true -> partition c s = (s, None).
Proof.
  induction s as [|d s IH]; simpl; [done|]. rewrite free_of_cons. intros [E F]%andb_true_iff.
  apply negb_true_iff in E. rewrite N.eqb_sym, E, IH by done. done.
Qed.
Lemma free_of_rev c s : free_of c (rev s) = free_of c s.
Proof. induction s as [|d s IH]; [done|]. simpl. by rewrite free_of_app, IH, !free_of_cons, andb_true_r, andb_comm. Qed.

Lemma parent_slashed stack s : free_of 47 s = true -> parent_path (slashed (stack ++ [s])) = slashed stack.
Proof.
  intros F. unfold parent_path, rpartition. rewrite slashed_app, slashed_cons, app_nil_r, rev_app_distr. simpl rev.
  rewrite <- app_assoc. simpl app. rewrite partition_found by (by rewrite free_of_rev). simpl. apply rev_involutive.
Qed.

Lemma parent_removelast stack : Forall (fun s => free_of 47 s = true) stack ->
  parent_path (slashed stack) = slashed (removelast stack).
Proof.
  destruct stack as [|s stack _] using rev_ind; [done|]. intros [_ [F _]%Forall_cons]%Forall_app.
  by rewrite parent_slashed, removelast_last.
Qed.

(** One round on a path of segments. *)
Lemma dot_step_slashed s rest stack :
  free_of 47 s = true -> Forall (fun s => free_of 47 s = true) stack ->
  dot_step (slashed (s :: rest)) (slashed stack) =
    if bool_decide (s = lit ".") then (match rest with [] => [47] | _ => slashed rest end, slashed stack)
    else if bool_decide (s = lit "..") then (match rest with [] => [47] | _ => slashed rest end, slashed (removelast stack))
    else (slashed rest, slashed (stack ++ [s])).
Proof.
  intros Fs Fst. rewrite slashed_cons. unfold dot_step.
  assert (starts_with (lit "../") (47 :: s ++ slashed rest) = false) as -> by done.
  assert (starts_with (lit "./") (47 :: s ++ slashed rest) = false) as -> by done.
  assert (forall p, free_of 47 p = true -> starts_with (47 :: p ++ [47]) (47 :: s ++ slashed rest) = bool_decide (s = p) && negb (is_empty rest)) as SW.
  { intros p Fp. unfold starts_with. destruct (bool_decide (s = p) && negb (is_empty rest)) eqn:B.
    - apply andb_true_iff in B as [->%bool_decide_eq_true B]. destruct rest as [|r rest]; [done|]. apply bool_decide_eq_true_2.
      rewrite slashed_cons. simpl. f_equal. rewrite length_app, take_app, Nat.add_comm. simpl length.
      rewrite take_ge by lia. replace (1 + length p - length p)%nat with 1%nat by lia. done.
    - apply bool_decide_eq_false_2. intros E. injection E as E. assert (partition 47 (s ++ slashed rest) = (p, Some (drop (length (p ++ [47])) (s ++ slashed rest)))) as P.
      { rewrite <- (take_drop (length (p ++ [47])) (s ++ slashed rest)) at 1. rewrite E, <- app_assoc. simpl. by apply partition_found. }
      destruct (slashed_head rest) as [[-> Er]|[r Er]]; rewrite Er in P.
      + rewrite app_nil_r, partition_none in P by done. done.
      + rewrite partition_found in P by done. injection P as -> _. rewrite bool_decide_eq_true_2 in B by done.
        by destruct rest. }
  assert (forall p, free_of 47 p = true -> bool_decide (47 :: s ++ slashed rest = 47 :: p) = bool_decide (s = p) && is_empty rest) as EQ.
  { intros p Fp. destruct rest as [|r rest].
    - rewrite andb_true_r. apply bool_decide_ext. unfold slashed. simpl. rewrite app_nil_r. split; congruence.
    - rewrite andb_false_r. apply bool_decide_eq_false_2. intros [= E]. rewrite slashed_cons in E.
      assert (free_of 47 (s ++ 47 :: r ++ slashed rest) = true) as K by by rewrite E.
      rewrite free_of_app, free_of_cons in K. simpl in K. by rewrite andb_false_r in K. }
  change (lit "/./") with (47 :: lit "." ++ [47]). change (lit "/../") with (47 :: lit ".." ++ [47]).
  change (lit "/.") with (47 :: lit "."). change (lit "/..") with (47 :: lit "..").
  rewrite !SW, !EQ by done.
  destruct (bool_decide (s = lit ".")) eqn:D1; [apply bool_decide_eq_true in D1 as ->|].
  - destruct rest as [|r rest]; [done|]. cbn [is_empty negb andb]. done.
  - cbn [andb]. destruct (bool_decide (s = lit "..")) eqn:D2; [apply bool_decide_eq_true in D2 as ->|].
    + rewrite parent_removelast by done. destruct rest as [|r rest]; [done|]. cbn [is_empty negb andb]. done.
    + cbn [andb]. assert (bool_decide (47 :: s ++ slashed rest = lit ".") || bool_decide (47 :: s ++ slashed rest = lit "..") = false) as ->.
      { apply orb_false_iff. split; by apply bool_decide_eq_false_2. }
      assert (starts_with [47] (47 :: s ++ slashed rest) = true) as -> by done. cbn [take drop].
      rewrite slashed_app, slashed_cons. simpl app at 4. rewrite app_nil_r.
      destruct (slashed_head rest) as [[-> Er]|[r Er]]; rewrite Er.
      * rewrite app_nil_r, partition_none by done. done.
      * rewrite drop_0, take_0, partition_found by done. done.
Qed.

Lemma dots_cons2 stack s r rest :
  dots stack (s :: r :: rest) =
    dots (if bool_decide (s = lit ".") then stack else if bool_decide (s = lit "..") then removelast stack else stack ++ [s]) (r :: rest).
Proof. done. Qed.

Lemma dot_loop_nil fuel output : dot_loop fuel [] output = output.
Proof. by destruct fuel. Qed.

Lemma removelast_Forall {A} (P : A -> Prop) l : Forall P l -> Forall P (removelast l).
Proof. destruct l as [|x l _] using rev_ind; [done|]. rewrite removelast_last. by intros [F _]%Forall_app. Qed.

(** The loop computes the reference. *)
Lemma dot_loop_slashed fuel segments stack :
  (length (slashed segments) <= fuel)%nat ->
  Forall (fun s => free_of 47 s = true) segments -> Forall (fun s => free_of 47 s = true) stack ->
  dot_loop fuel (slashed segments) (slashed stack) = slashed (dots stack segments).
Proof.
  revert segments stack. induction fuel as [|fuel IH]; intros segments stack L F Fs.
  { destruct segments; [done|]. rewrite slashed_cons in L. simpl in L. lia. }
  destruct F as [|s rest Hs F]; [done|].
  assert (dot_loop (S fuel) (slashed (s :: rest)) (slashed stack) =
    let '(r, o) := dot_step (slashed (s :: rest)) (slashed stack) in dot_loop fuel r o) as -> by done.
  rewrite dot_step_slashed by done. rewrite slashed_cons in L. simpl in L. rewrite length_app in L.
  assert (forall st, Forall (fun s => free_of 47 s = true) st -> (1 <= length s)%nat ->
    dot_loop fuel (match rest with [] => [47] | _ => slashed rest end) (slashed st) =
    match rest with [] => slashed (st ++ [[]]) | _ => slashed (dots st rest) end) as K.
  { intros st Fst Ls. destruct rest as [|r rest]; [|apply IH; [lia|done..]].
    change [47] with (slashed [[]]). rewrite IH; [done|simpl; lia|by repeat constructor|done]. }
  destruct (bool_decide (s = lit ".")) eqn:D1; [apply bool_decide_eq_true in D1 as ->|].
  { rewrite K; [|done|simpl; lia]. by destruct rest. }
  destruct (bool_decide (s = lit "..")) eqn:D2; [apply bool_decide_eq_true in D2 as ->|].
  { rewrite K; [|by apply removelast_Forall|simpl; lia]. by destruct rest. }
  rewrite IH; [|lia|done|apply Forall_app; split; [done|by repeat constructor]]. destruct rest as [|r rest]; [|by rewrite dots_cons2, D1, D2].
  cbn [dots]. by rewrite D1, D2.
Qed.

Definition no_dots (l : list text) : Prop := Forall (fun s => s <> lit "." /\ s <> lit "..") l.

Lemma dots_facts (P : text -> Prop) stack segments :
  P [] -> Forall P stack -> Forall P segments -> no_dots stack ->
  Forall P (dots stack segments) /\ no_dots (dots stack segments) /\ (segments <> [] -> dots stack segments <> []).
Proof.
  intros P0 Fs F N. revert stack Fs N. induction F as [|s rest Hs F IH]; intros stack Fs N; [done|].
  set (stack' := if bool_decide (s = lit ".") then stack else if bool_decide (s = lit "..") then removelast stack else stack ++ [s]).
  assert (Forall P stack' /\ no_dots stack') as [F' N'].
  { unfold stack', no_dots. destruct (bool_decide (s = lit ".")) eqn:D1; [done|]. apply bool_decide_eq_false in D1.
    destruct (bool_decide (s = lit "..")) eqn:D2; [split; by apply removelast_Forall|]. apply bool_decide_eq_false in D2.
    split; apply Forall_app; (split; [done|by repeat constructor]). }
  destruct rest as [|r rest].
  - assert (dots stack [s] = if bool_decide (s = lit ".") || bool_decide (s = lit "..") then stack' ++ [[]] else stack') as -> by done.
    destruct (_ || _) eqn:B.
    + split_and!; [apply Forall_app; split; [done|by repeat constructor]|apply Forall_app; split; [done|by repeat constructor]|].
      intros _. by destruct stack'.
    + apply orb_false_iff in B as [B1 B2]. unfold stack' in *. rewrite B1, B2 in *. split_and!; [done..|]. intros _. by destruct stack.
  - rewrite dots_cons2. fold stack'. destruct (IH stack' F' N') as (H1 & H2 & H3). split_and!; [done..|]. intros _. by apply H3.
Qed.

Lemma dots_fixed stack segments : no_dots segments -> dots stack segments = stack ++ segments.
Proof.
  intros N. revert stack. induction N as [|s rest [D1 D2] N IH]; intros stack; [by rewrite app_nil_r|].
  destruct rest as [|r rest].
  - simpl. by rewrite !bool_decide_eq_false_2.
  - rewrite dots_cons2, !bool_decide_eq_false_2, IH, <- app_assoc by done. done.
Qed.

Definition segments_of (path : text) : list text := tail (split_on 47 path).

Lemma slashed_segments path : starts_with [47] path = true ->
  path = slashed (segments_of path) /\ segments_of path <> [] /\ Forall (fun s => free_of 47 s = true) (segments_of path).
Proof.
  intros H. destruct path as [|c path]; [done|]. unfold starts_with in H. apply bool_decide_eq_true in H. injection H as ->.
  unfold segments_of. cbn [split_on]. rewrite N.eqb_refl. cbn [tail]. split_and!; [|apply split_on_ne|apply split_on_parts].
  rewrite <- (join_split 47 path) at 1. pose proof (split_on_ne 47 path) as NE. induction (split_on 47 path) as [|s l IH]; [done|].
  destruct l as [|r l]; [unfold slashed; simpl; by rewrite app_nil_r|].
  change (join_with 47 (s :: r :: l)) with (s ++ 47 :: join_with 47 (r :: l)). by rewrite slashed_cons, IH.
Qed.

Lemma segments_slashed l : l <> [] -> Forall (fun s => free_of 47 s = true) l -> segments_of (slashed l) = l.
Proof.
  intros NE F. destruct l as [|s l]; [done|]. unfold segments_of. rewrite slashed_cons. cbn [split_on]. rewrite N.eqb_refl. cbn [tail].
  clear NE. revert s F. induction l as [|r l IH]; intros s [Hs F]%Forall_cons.
  - unfold slashed. simpl. rewrite split_on_free by done. simpl. by rewrite app_nil_r.
  - rewrite slashed_cons, split_on_sep by done. f_equal. by apply IH.
Qed.
