(* ===== verification/UrlPolicyGate.v ===== *)
(** * What the URL policy promises

    A URL that passes is canonical, has an allowed scheme and port, and is pinned to
    public addresses only; its canonical text passes again with the same outcome; a URL
    that does not pass is refused with an error of the policy. *)

From S2P Require Import Prelude PyBase Decimals Ipaddr IpaddrProps Urls UrlPolicy UrlPolicyProps.

Open Scope N_scope.

(** ** Public addresses *)

(** Blocks no request may reach. *)
Definition internal_v4 : list (N * N) :=
  [ (v4 0 0 0 0, 8); (v4 10 0 0 0, 8); (v4 100 64 0 0, 10); (v4 127 0 0 0, 8); (v4 169 254 0 0, 16); (v4 172 16 0 0, 12);
    (v4 192 0 2 0, 24); (v4 192 168 0 0, 16); (v4 198 18 0 0, 15); (v4 198 51 100 0, 24); (v4 203 0 113 0, 24);
    (v4 224 0 0 0, 4); (v4 240 0 0 0, 4) ].
Definition internal_v6 : list (N * N) :=
  [ (0, 128); (1, 128); (v6 [0; 0; 0; 0; 0; 0xffff], 96); (v6 [0x64; 0xff9b], 96); (v6 [0x64; 0xff9b; 1], 48);
    (v6 [0x100], 64); (v6 [0x2001], 32); (v6 [0x2001; 0xdb8], 32); (v6 [0x2002], 16); (v6 [0xfc00], 7); (v6 [0xfe80], 10);
    (v6 [0xfec0], 10); (v6 [0xff00], 8) ].
Definition public (a : ip) : Prop :=
  match a with
  | V4 n => n < 2 ^ 32 /\ forallb (fun net => negb (in_v4 n net)) internal_v4 = true
  | V6 n => n < 2 ^ 128 /\ forallb (fun net => negb (in_v6 n net)) internal_v6 = true
  end.

(** Two blocks that share an address agree on the shorter prefix. *)
Lemma shifts_meet bits a x y p q : p <= bits -> q <= bits ->
  (N.shiftr a (bits - p) =? N.shiftr x (bits - p)) = true -> (N.shiftr a (bits - q) =? N.shiftr y (bits - q)) = true ->
  N.shiftr x (bits - N.min p q) = N.shiftr y (bits - N.min p q).
Proof.
  intros B1 B2 E1%N.eqb_eq E2%N.eqb_eq. replace (bits - N.min p q) with ((bits - p) + (p - N.min p q)) at 1 by lia.
  replace (bits - N.min p q) with ((bits - q) + (q - N.min p q)) by lia. rewrite <- !N.shiftr_shiftr, <- E1, <- E2, !N.shiftr_shiftr.
  f_equal. lia.
Qed.

Lemma existsb_member {A} (f : A -> bool) x l : x ∈ l -> f x = true -> existsb f l = true.
Proof. intros H F. apply existsb_exists. exists x. split; [by apply list_elem_of_In|done]. Qed.

(** An address of an exception of the registries. *)
Lemma exception_of {A} (f : A -> bool) l : forallb (fun n => negb (f n)) l = false -> exists e, e ∈ l /\ f e = true.
Proof.
  induction l as [|e l IH]; [done|]. cbn [forallb]. destruct (f e) eqn:E; [intros _; exists e; split; [by left|done]|].
  intros (e' & He & Hf)%IH. exists e'. split; [by right|done].
Qed.

(** No exception lies in a block the list names. *)
Definition apart (bits : N) (exceptions : list (N * N)) (net : N * N) : bool :=
  (net.2 <=? bits) && forallb (fun e => (e.2 <=? bits)
    && negb (N.shiftr e.1 (bits - N.min e.2 net.2) =? N.shiftr net.1 (bits - N.min e.2 net.2))) exceptions.

Lemma apart_absurd bits a exceptions net e :
  apart bits exceptions net = true -> e ∈ exceptions -> (N.shiftr a (bits - e.2) =? N.shiftr e.1 (bits - e.2)) = true ->
  (N.shiftr a (bits - net.2) =? N.shiftr net.1 (bits - net.2)) = true -> False.
Proof.
  unfold apart. intros [B%N.leb_le A]%andb_true_iff He Ee E. rewrite forallb_forall in A. apply list_elem_of_In, A in He.
  apply andb_true_iff in He as [L%N.leb_le N]. rewrite (shifts_meet bits a e.1 net.1 e.2 net.2 L B Ee E), N.eqb_refl in N. done.
Qed.

Lemma v4_private_net n net : net ∈ v4_private -> apart 32 v4_private_exceptions net = true -> in_v4 n net = true -> v4_is_private n = true.
Proof.
  intros M A E. unfold v4_is_private. rewrite (existsb_member _ net) by done. destruct (forallb _ _) eqn:F; [done|].
  apply exception_of in F as (e & He & Ee). by destruct (apart_absurd _ n _ net e A He Ee E).
Qed.
Lemma v6_private_net n net : v6_mapped n = None -> net ∈ v6_private -> apart 128 v6_private_exceptions net = true ->
  in_v6 n net = true -> v6_is_private n = true.
Proof.
  intros P M A E. unfold v6_is_private. rewrite P, (existsb_member _ net) by done. destruct (forallb _ _) eqn:F; [done|].
  apply exception_of in F as (e & He & Ee). by destruct (apart_absurd _ n _ net e A He Ee E).
Qed.

Lemma allowed_v4 n : denied_address (V4 n) = false -> forallb (fun net => negb (in_v4 n net)) internal_v4 = true.
Proof.
  intros D. unfold denied_address in D. rewrite !orb_false_iff in D. destruct D as ((((((D1 & _) & _) & D4) & D5) & _) & D7).
  apply negb_false_iff in D7. unfold v4_is_global in D7. apply andb_true_iff in D7 as [D7%negb_true_iff _].
  apply forallb_forall. intros net H%list_elem_of_In. apply negb_true_iff, not_true_iff_false. intros E.
  assert (bool_decide (net ∈ v4_private) && apart 32 v4_private_exceptions net || bool_decide (net = (v4 100 64 0 0, 10))
    || bool_decide (net = (v4 224 0 0 0, 4)) = true) as K.
  { clear -H. revert net H. apply Forall_forall. repeat constructor. }
  rewrite !orb_true_iff, andb_true_iff, !bool_decide_eq_true in K. destruct K as [[[K1 K2]| -> ]| ->].
  - by rewrite (v4_private_net n net K1 K2 E) in D1.
  - by rewrite E in D7.
  - unfold v4_is_multicast in D4. by rewrite E in D4.
Qed.

Lemma allowed_v6 n : denied_address (V6 n) = false -> is_v6_plain (V6 n) = true ->
  forallb (fun net => negb (in_v6 n net)) internal_v6 = true.
Proof.
  intros D P. unfold denied_address in D. rewrite !orb_false_iff in D. destruct D as (((((((D1 & _) & _) & D4) & _) & _) & D7) & _).
  unfold is_v6_plain in P. apply andb_true_iff in P as [P1 P2%negb_true_iff]. destruct (v6_mapped n) as [m|] eqn:M; [by rewrite bool_decide_eq_true_2 in P1 by eauto|].
  unfold _reject_transition_address in P2. rewrite !orb_false_iff in P2. destruct P2 as (((P2 & P3) & P4) & P5).
  apply forallb_forall. intros net H%list_elem_of_In. apply negb_true_iff, not_true_iff_false. intros E.
  assert (bool_decide (net ∈ v6_private) && apart 128 v6_private_exceptions net || bool_decide (net = _NAT64_WELL_KNOWN)
    || bool_decide (net = (v6 [0x2001], 32)) || bool_decide (net = (v6 [0xfec0], 10)) || bool_decide (net = (v6 [0xff00], 8)) = true) as K.
  { clear -H. revert net H. apply Forall_forall. repeat constructor. }
  rewrite !orb_true_iff, andb_true_iff, !bool_decide_eq_true in K. destruct K as [[[[[K1 K2]| -> ]| -> ]| -> ]| -> ].
  - by rewrite (v6_private_net n net M K1 K2 E) in D1.
  - by rewrite E in P4.
  - unfold v6_is_teredo in P3. unfold in_v6 in E. cbn [fst snd] in E. rewrite N.shiftr_div_pow2 in E.
    change (128 - 32) with 96 in E. change (N.shiftr (v6 [0x2001]) 96) with 0x20010000 in E. by rewrite E in P3.
  - unfold v6_is_site_local in D7. by rewrite E in D7.
  - unfold v6_is_multicast in D4. by rewrite E in D4.
Qed.

Lemma allowed_public a : ip_ok a -> denied_address a = false -> is_v6_plain a = true -> public a.
Proof. intros O D P. destruct a as [n|n]; (split; [exact O|]); [by apply allowed_v4|by apply allowed_v6]. Qed.

(** ** The text of a canonical URL *)

(** The characters of a canonical URL. *)
Definition url_char (c : N) : bool := (33 <=? c) && (c <? 127) && negb (c =? 92).

Lemma port_reads n : (1 <= n <= 65535)%Z ->
  let s := cps_of (py_str_int n) in
  forallb is_09 s = true /\ Z.of_N (read_digits 0 s) = n /\ s <> [] /\ chars is_09 s.
Proof.
  intros H s. subst s. assert (cps_of (py_str_int n) = digits_aux (S (N.to_nat (N.log2 (Z.abs_N n)))) (Z.abs_N n) []) as ->.
  { unfold py_str_int. cbn [cps_of]. destruct (n <? 0)%Z eqn:E; [apply Z.ltb_lt in E; lia|done]. }
  pose proof (digits_aux_digits (S (N.to_nat (N.log2 (Z.abs_N n)))) (Z.abs_N n)) as F. split_and!; [| | |done].
  - apply forallb_forall. intros c Hc%list_elem_of_In. rewrite Forall_forall in F. by apply F.
  - rewrite digits_read_int. lia.
  - destruct (digits_aux_cons (N.to_nat (N.log2 (Z.abs_N n))) (Z.abs_N n)) as (c & l & ->). done.
Qed.

Lemma free_contains c s : contains c s = false -> free_of c s = true.
Proof. unfold free_of, contains. by intros ->. Qed.

Lemma chars_free_of P c s : chars P s -> P c = false -> free_of c s = true.
Proof. intros F E. by eapply free_contains, chars_free. Qed.

Lemma contains_app c s t : contains c (s ++ t) = contains c s || contains c t.
Proof. apply existsb_app. Qed.

Lemma after_at_free s : contains 64 s = false -> after_at s = s.
Proof.
  intros H. unfold after_at, rpartition. rewrite partition_none by (rewrite free_of_rev; by apply free_contains). simpl. apply rev_involutive.
Qed.

Section texts.
Context (lower_wide nfkc : text -> text) (idna_encode_wide idna_decode : text -> option text).
Abbreviation host_ok := (host_ok lower_wide idna_encode_wide idna_decode).

Definition http_scheme (scheme : text) : Prop := scheme = lit "http" \/ scheme = lit "https".

Lemma default_ports_inv scheme n : _DEFAULT_PORTS scheme = Some n -> http_scheme scheme /\ (n = 80 \/ n = 443)%Z.
Proof.
  unfold _DEFAULT_PORTS. destruct (bool_decide (scheme = lit "http")) eqn:E1; [apply bool_decide_eq_true in E1|].
  - intros [= <-]. split; [by left|by left].
  - destruct (bool_decide (scheme = lit "https")) eqn:E2; [apply bool_decide_eq_true in E2|done]. intros [= <-]. split; [by right|by right].
Qed.

(** The port part of an authority. *)
Definition port_part (scheme : text) (n : Z) : text :=
  if bool_decide (_DEFAULT_PORTS scheme = Some n) then [] else 58 :: cps_of (py_str_int n).

Lemma authority_text scheme host n :
  authority_of scheme host n = (if contains 58 host then 91 :: host ++ 93 :: port_part scheme n else host ++ port_part scheme n).
Proof.
  unfold authority_of, port_part. destruct (contains 58 host); destruct (bool_decide _); rewrite ?app_nil_r, <- ?app_assoc; try done.
  simpl. by rewrite <- app_assoc.
Qed.

Lemma host_free host b c : host_ok host b -> net_char c = false -> contains c host = false.
Proof. intros H E. destruct (host_facts _ _ _ _ _ H) as (C & _). by eapply chars_free. Qed.

Lemma port_part_free scheme n c : (1 <= n <= 65535)%Z -> is_09 c = false -> c <> 58 -> contains c (port_part scheme n) = false.
Proof.
  intros H E N. unfold port_part. destruct (bool_decide _); [done|]. cbn [contains existsb]. apply orb_false_iff. split; [by apply N.eqb_neq|].
  destruct (port_reads n H) as (_ & _ & _ & C). by apply (chars_free is_09).
Qed.

Lemma authority_free scheme host b n c : host_ok host b -> (1 <= n <= 65535)%Z ->
  net_char c = false -> is_09 c = false -> c <> 58 -> c <> 91 -> c <> 93 -> contains c (authority_of scheme host n) = false.
Proof.
  intros H P E1 E2 N1 N2 N3. rewrite authority_text.
  assert (forall x l, contains c (x :: l) = (c =? x) || contains c l) as CC by done.
  destruct (contains 58 host); rewrite ?CC, contains_app, ?CC, (host_free _ _ _ H E1), (port_part_free scheme n c P E2 N1); [|done].
  rewrite !orb_false_iff. split_and!; try done; by apply N.eqb_neq.
Qed.

(** A host with a colon is an IPv6 address. *)
Lemma colon_host host b : host_ok host b -> contains 58 host = true -> exists n, host = print_v6 n /\ n < 2 ^ 128.
Proof.
  intros [a O _ _|t D] C.
  - destruct a as [n|n]; [|by exists n]. pose proof (print_v4_free n 58 O eq_refl) as F. unfold free_of in F.
    unfold contains in C. simpl in C. by rewrite C in F.
  - by rewrite (chars_free _ 58 _ (domain_chars _ _ _ _ D) eq_refl) in C.
Qed.

Lemma authority_hostinfo scheme host b n : host_ok host b -> (1 <= n <= 65535)%Z ->
  hostinfo (authority_of scheme host n) =
    (host, if bool_decide (_DEFAULT_PORTS scheme = Some n) then None else Some (cps_of (py_str_int n))).
Proof.
  intros H P. unfold hostinfo. rewrite after_at_free by (apply (authority_free _ _ b); done). cbv zeta. rewrite authority_text.
  destruct (port_reads n P) as (_ & _ & NE & _).
  pose proof (host_free _ _ 91 H eq_refl) as F1. pose proof (host_free _ _ 93 H eq_refl) as F2.
  destruct (contains 58 host) eqn:C.
  - cbn [partition]. rewrite N.eqb_refl. rewrite partition_found by by apply free_contains. unfold port_part.
    destruct (bool_decide _); [done|]. revert NE. generalize (cps_of (py_str_int n)) as d. intros d NE.
    cbn [partition]. rewrite N.eqb_refl. by destruct d.
  - rewrite partition_none by (apply free_contains; rewrite contains_app, F1; by apply port_part_free). unfold port_part.
    destruct (bool_decide _).
    + rewrite app_nil_r, partition_none by by apply free_contains. done.
    + revert NE. generalize (cps_of (py_str_int n)) as d. intros d NE. rewrite partition_found by by apply free_contains. by destruct d.
Qed.

Lemma authority_brackets scheme host b n : host_ok host b -> (1 <= n <= 65535)%Z ->
  let a := authority_of scheme host n in
  eqb (contains 91 a) (contains 93 a) = true /\ contains 91 a && negb (bracketed_netloc_ok a) = false /\ is_ascii a = true.
Proof.
  intros H P a. subst a. pose proof (host_free _ _ 91 H eq_refl) as F1. pose proof (host_free _ _ 93 H eq_refl) as F2.
  destruct (host_facts _ _ _ _ _ H) as (_ & _ & _ & A & _).
  assert (is_ascii (port_part scheme n) = true) as PA.
  { unfold port_part. destruct (bool_decide _); [done|]. cbn [is_ascii forallb]. destruct (port_reads n P) as (_ & _ & _ & C).
    apply (chars_ascii is_09 _ C). by_chars. }
  assert (forall s t, is_ascii (s ++ t) = is_ascii s && is_ascii t) as AA by (intros; apply forallb_app).
  destruct (contains 58 host) eqn:C.
  - rewrite authority_text, C. split_and!.
    + assert (forall x l c, contains c (x :: l) = (c =? x) || contains c l) as CC by done.
      rewrite !CC, !contains_app, !CC, F1, F2, (port_part_free scheme n 91), (port_part_free scheme n 93) by done. done.
    + apply andb_false_iff. right. apply negb_false_iff. unfold bracketed_netloc_ok.
      assert (91 :: host ++ 93 :: port_part scheme n = authority_of scheme host n) as E by (by rewrite authority_text, C).
      rewrite E, after_at_free, <- E by (apply (authority_free _ _ b); done). cbn [partition]. rewrite N.eqb_refl.
      rewrite partition_found by by apply free_contains. cbn [is_empty andb].
      destruct (colon_host _ _ H C) as (m & -> & Hm).
      assert (match port_part scheme n with c :: _ => c =? 58 | [] => true end = true) as -> by (unfold port_part; by destruct (bool_decide _)).
      unfold bracketed_host_ok. pose proof (print_ip_chars (V6 m) Hm) as CH. cbn [print_ip] in CH.
      assert (starts_with [118] (print_v6 m) = false) as ->.
      { apply bool_decide_eq_false_2. destruct (print_v6 m) as [|c s]; [done|]. intros [= ->]. by apply Forall_cons in CH as [? _]. }
      pose proof (ip_roundtrip (V6 m) Hm) as R. unfold ip_address in R. cbn [print_ip] in R.
      destruct (read_v4 (print_v6 m)); [done|]. rewrite partition_none by (by apply (chars_free_of ip_char)).
      by rewrite (v6_roundtrip m Hm).
    + change (91 :: host ++ 93 :: port_part scheme n) with ([91] ++ host ++ [93] ++ port_part scheme n). by rewrite !AA, A, PA.
  - rewrite authority_text, C. rewrite !contains_app, F1, F2, (port_part_free scheme n 91), (port_part_free scheme n 93) by done.
    split_and!; [done..|]. by rewrite AA, A, PA.
Qed.

(** ** Reading the text back *)

Definition request_target (path query : text) : text := if is_empty query then path else path ++ 63 :: query.

Lemma split_netloc_found a r : contains 47 a = false -> contains 63 a = false -> contains 35 a = false ->
  split_netloc (a ++ 47 :: r) = (a, 47 :: r).
Proof.
  induction a as [|c a IH]; [done|]. unfold contains. cbn [existsb]. rewrite !orb_false_iff, !(N.eqb_sym _ c).
  intros [E1 F1] [E2 F2] [E3 F3]. cbn [split_netloc app]. rewrite E1, E2, E3. cbn [orb]. by rewrite IH.
Qed.

Lemma graphic_read s : chars (fun c => 33 <=? c) s ->
  List.filter (fun c => negb ((c =? 9) || (c =? 13) || (c =? 10))) (drop_controls s) = s.
Proof.
  intros F. assert (drop_controls s = s) as ->.
  { destruct F as [|c s Hc _]; [done|]. apply N.leb_le in Hc. cbn [drop_controls]. by rewrite (proj2 (N.leb_gt _ _)) by lia. }
  induction F as [|c s Hc _ IH]; [done|]. apply N.leb_le in Hc. cbn [List.filter]. rewrite IH.
  by rewrite !(proj2 (N.eqb_neq _ _)) by lia.
Qed.

Lemma path_chars_wide t : canonical _PATH_SAFE t -> chars (fun c => (33 <=? c) && (c <? 127) && negb (is_one_of "?#"%py c) && negb (c =? 92)) t.
Proof.
  intros C. eapply chars_impl; [|by apply canonical_chars]. intros c H. assert (c < 128) as L.
  { revert H. unfold _PATH_SAFE, _UNRESERVED, is_hex, is_AZ, is_az, is_09, in_range, is_one_of. simpl.
    rewrite !orb_true_iff, !andb_true_iff, !N.leb_le, !N.eqb_eq. lia. }
  revert c L H. intros c L. apply implb_true_iff. revert c L. apply (below 128). vm_compute. done.
Qed.
Lemma query_chars_wide t : canonical _QUERY_SAFE t -> chars (fun c => (33 <=? c) && (c <? 127) && negb (c =? 35) && negb (c =? 92)) t.
Proof.
  intros C. eapply chars_impl; [|by apply canonical_chars]. intros c H. assert (c < 128) as L.
  { revert H. unfold _QUERY_SAFE, _PATH_SAFE, _UNRESERVED, is_hex, is_AZ, is_az, is_09, in_range, is_one_of. simpl.
    rewrite !orb_true_iff, !andb_true_iff, !N.leb_le, !N.eqb_eq. lia. }
  revert c L H. intros c L. apply implb_true_iff. revert c L. apply (below 128). vm_compute. done.
Qed.

Lemma urlunsplit_text scheme a path query : http_scheme scheme -> a <> [] -> starts_with [47] path = true ->
  urlunsplit (mkSplitResult scheme a path query []) = scheme ++ lit "://" ++ a ++ request_target path query.
Proof.
  intros S A P. unfold urlunsplit, request_target. cbn [sr_scheme sr_netloc sr_path sr_query sr_fragment]. rewrite P.
  destruct a as [|c a]; [done|]. rewrite andb_false_r.
  destruct S as [->| ->]; destruct query; simpl; rewrite ?app_nil_r, <- ?app_assoc; done.
Qed.

Lemma authority_chars scheme host b n : host_ok host b -> (1 <= n <= 65535)%Z -> chars url_char (authority_of scheme host n).
Proof.
  intros H P. destruct (host_facts _ _ _ _ _ H) as (C & _). assert (chars url_char host) as CH.
  { eapply chars_impl; [|exact C]. intros c Hc. assert (c < 128) as L by (revert Hc; unfold net_char; revert c; by_chars).
    revert c L Hc. intros c L. apply implb_true_iff. revert c L. apply (below 128). vm_compute. done. }
  assert (chars url_char (port_part scheme n)) as CP.
  { unfold port_part. destruct (bool_decide _); [constructor|]. constructor; [done|]. destruct (port_reads n P) as (_ & _ & _ & D).
    eapply chars_impl; [|exact D]. intros c Hc. assert (c < 128) as L by (revert c Hc; by_chars).
    revert c L Hc. intros c L. apply implb_true_iff. revert c L. apply (below 128). vm_compute. done. }
  rewrite authority_text. destruct (contains 58 host); [|by apply chars_app].
  constructor; [done|]. apply chars_app. split; [done|]. by constructor.
Qed.

Lemma target_chars path query : canonical _PATH_SAFE path -> canonical _QUERY_SAFE query -> chars url_char (request_target path query).
Proof.
  intros P%path_chars_wide Q%query_chars_wide. unfold request_target.
  assert (chars url_char path) as P'.
  { eapply chars_impl; [|exact P]. intros c. unfold url_char. rewrite !andb_true_iff. clear. intros [[[H1 H2] H3] H4]. done. }
  assert (chars url_char query) as Q'.
  { eapply chars_impl; [|exact Q]. intros c. unfold url_char. rewrite !andb_true_iff. clear. intros [[[H1 H2] H3] H4]. done. }
  destruct (is_empty query); [done|]. apply chars_app. split; [done|]. by constructor.
Qed.

(** The canonical text of a URL. *)
Definition url_text (scheme host : text) (n : Z) (path query : text) : text :=
  scheme ++ lit "://" ++ authority_of scheme host n ++ request_target path query.

Lemma authority_ne scheme host b n : host_ok host b -> authority_of scheme host n <> [].
Proof.
  intros H. destruct (host_facts _ _ _ _ _ H) as (_ & _ & E & _). rewrite authority_text. destruct (contains 58 host); [done|].
  by destruct host.
Qed.

Lemma url_text_chars scheme host b n path query : http_scheme scheme -> host_ok host b -> (1 <= n <= 65535)%Z ->
  canonical _PATH_SAFE path -> canonical _QUERY_SAFE query -> chars url_char (url_text scheme host n path query).
Proof.
  intros S H N P Q. unfold url_text. rewrite !chars_app. split_and!; [|by repeat constructor|by eapply authority_chars|by apply target_chars].
  destruct S as [->| ->]; by repeat constructor.
Qed.

Lemma url_text_split scheme host b n path query : http_scheme scheme -> host_ok host b -> (1 <= n <= 65535)%Z ->
  canonical _PATH_SAFE path -> starts_with [47] path = true -> canonical _QUERY_SAFE query ->
  urlsplit nfkc (url_text scheme host n path query) [] = Some (mkSplitResult scheme (authority_of scheme host n) path query []).
Proof.
  intros S H N P P0 Q. unfold urlsplit. rewrite graphic_read.
  2:{ eapply chars_impl; [|by eapply url_text_chars]. intros c. unfold url_char. rewrite !andb_true_iff. intros [[H1 H2] H3]. done. }
  assert (split_scheme [] (url_text scheme host n path query) = (scheme, lit "//" ++ authority_of scheme host n ++ request_target path query)) as ->.
  { destruct S as [->| ->]; done. }
  cbv beta iota. assert (forall s, starts_with (lit "//") (lit "//" ++ s) = true) as -> by done.
  set (a := authority_of scheme host n).
  assert (drop 2 (lit "//" ++ a ++ request_target path query) = a ++ request_target path query) as -> by done.
  assert (exists r, path = 47 :: r) as [r Er].
  { destruct path as [|c r]; [done|]. apply bool_decide_eq_true in P0. injection P0 as ->. by exists r. }
  assert (split_netloc (a ++ request_target path query) = (a, request_target path query)) as ->.
  { assert (exists r', request_target path query = 47 :: r') as [r' ->] by (unfold request_target; rewrite Er; destruct (is_empty query); eauto).
    apply split_netloc_found; apply (authority_free _ _ b); done. }
  destruct (authority_brackets scheme host b n H N) as (B1 & B2 & B3). fold a in B1, B2, B3. rewrite B1, B2. cbn [negb].
  pose proof (path_chars_wide path P) as CP. pose proof (query_chars_wide query Q) as CQ.
  assert (free_of 35 (request_target path query) = true) as F.
  { unfold request_target. destruct (is_empty query); [by eapply chars_free_of|]. rewrite free_of_app, free_of_cons.
    rewrite (chars_free_of _ 35 _ CP), (chars_free_of _ 35 _ CQ) by done. done. }
  rewrite partition_none by done. unfold netloc_ok. rewrite B3. cbn [orb].
  pose proof (chars_free_of _ 63 _ CP eq_refl) as FP. unfold request_target. destruct query as [|q query]; cbn [is_empty].
  - by rewrite partition_none.
  - by rewrite partition_found.
Qed.
End texts.

(** ** Address sets *)

(** The canonical text of an address that may be reached. *)
Definition canonical_address (t : text) : Prop := _canonical_global_ip t = Ok t.

Lemma canonical_address_inv t : canonical_address t -> exists a, ip_address t = Some a /\ t = print_ip a /\ public a.
Proof.
  intros (a & _ & -> & O & D & P)%canonical_ip_inv. exists a. split_and!; [by apply ip_roundtrip|done|by apply allowed_public].
Qed.

Lemma insert_key_perm x l : insert_key x l ≡ₚ x :: l.
Proof. induction l as [|y l IH]; [done|]. cbn [insert_key]. destruct (address_key_le _ _); [done|]. rewrite IH. apply Permutation_swap. Qed.

Lemma foldr_insert_perm l : foldr insert_key [] l ≡ₚ l.
Proof. induction l as [|x l IH]; [done|]. cbn [foldr]. by rewrite insert_key_perm, IH. Qed.

Lemma keyed_texts values keyed : mapM (fun v => k ← _address_sort_key v; Some (k, v)) values = Some keyed -> keyed.*2 = values.
Proof.
  intros H%mapM_Some_1. induction H as [|v k values keyed H _ IH]; [done|]. rewrite fmap_cons, IH. f_equal.
  by destruct (_address_sort_key v); simplify_eq/=.
Qed.

Lemma sorted_perm values l : sorted_addresses values = Ok l -> l ≡ₚ remove_dups values.
Proof.
  unfold sorted_addresses. destruct (mapM _ _) as [keyed|] eqn:K; [|done]. intros [= <-].
  rewrite <- (keyed_texts _ _ K). apply fmap_Permutation, foldr_insert_perm.
Qed.

Lemma sorted_total values : Forall canonical_address values -> exists l, sorted_addresses values = Ok l.
Proof.
  intros F. unfold sorted_addresses. assert (is_Some (mapM (fun v => k ← _address_sort_key v; Some (k, v)) (remove_dups values))) as [k ->]; [|eauto].
  apply mapM_is_Some. rewrite Forall_forall in F. apply Forall_forall. intros v Hv. rewrite elem_of_remove_dups in Hv.
  destruct (canonical_address_inv v (F v Hv)) as (a & E & _). unfold compose, _address_sort_key. rewrite E. by destruct a.
Qed.

Lemma map_res_inv {A B} (f : A -> res B) l k : map_res f l = Ok k -> Forall2 (fun a b => f a = Ok b) l k.
Proof.
  revert k. induction l as [|a l IH]; intros k H; cbn [map_res] in H; [injection H as <-; constructor|]. rinv. injection H as <-.
  constructor; [done|by apply IH].
Qed.

Lemma map_res_fixed {A} (f : A -> res A) l : Forall (fun a => f a = Ok a) l -> map_res f l = Ok l.
Proof. intros F. induction F as [|a l Ha _ IH]; [done|]. cbn [map_res]. by rewrite Ha, IH. Qed.

Lemma canonical_addresses values k : map_res _canonical_global_ip values = Ok k -> Forall canonical_address k.
Proof. intros H%map_res_inv. induction H as [|a b l k E _ IH]; [done|]. constructor; [by eapply canonical_ip_stable|done]. Qed.

Lemma remove_dups_length {A} `{EqDecision A} (l : list A) : (length (remove_dups l) <= length l)%nat.
Proof. induction l as [|x l IH]; [done|]. cbn [remove_dups]. destruct (decide_rel _ _ _); simpl; lia. Qed.

(** ** Paths *)

Lemma removed_dots path : starts_with [47] path = true -> _remove_dot_segments path = slashed (dots [] (segments_of path)).
Proof.
  intros H. destruct (slashed_segments path H) as (E & NE & F). unfold _remove_dot_segments.
  assert (dot_loop (length path) path [] = slashed (dots [] (segments_of path))) as ->.
  { rewrite E at 2. apply (dot_loop_slashed _ _ []); [by rewrite <- E|done|constructor]. }
  destruct (dots_facts (fun _ => True) [] (segments_of path)) as (_ & _ & K); [done|constructor|by apply Forall_true|constructor|].
  specialize (K NE). by destruct (dots [] (segments_of path)).
Qed.

(** An absolute path without dot segments. *)
Definition clean_path (path : text) : Prop :=
  exists segments, path = slashed segments /\ segments <> [] /\ Forall (fun s => free_of 47 s = true) segments /\ no_dots segments.

Lemma removed_clean path : starts_with [47] path = true -> clean_path (_remove_dot_segments path).
Proof.
  intros H. destruct (slashed_segments path H) as (_ & NE & F). exists (dots [] (segments_of path)).
  destruct (dots_facts (fun s => free_of 47 s = true) [] (segments_of path)) as (A & B & C); [done..|constructor|].
  split_and!; [by apply removed_dots|by apply C|done..].
Qed.

Lemma clean_start path : clean_path path -> starts_with [47] path = true.
Proof. intros ([|s l] & -> & NE & _); [done|]. by rewrite slashed_cons. Qed.

Lemma clean_fixed path : clean_path path -> _remove_dot_segments path = path.
Proof.
  intros C. rewrite removed_dots by by apply clean_start. destruct C as (l & -> & NE & F & D).
  by rewrite segments_slashed, dots_fixed.
Qed.

Lemma canonical_segments v : canonical _PATH_SAFE v -> Forall (canonical _PATH_SAFE) (split_on 47 v).
Proof.
  intros H. induction H as [|c s S H IH|h l s Hh Hl Uh Ul U H IH]; [repeat constructor| |].
  - cbn [split_on]. destruct (c =? 47); [constructor; [constructor|done]|]. destruct (split_on 47 s); [repeat constructor; done|].
    apply Forall_cons in IH as [H1 H2]. by repeat constructor.
  - cbn [split_on]. change (37 =? 47) with false. cbv iota.
    assert ((h =? 47) = false) as -> by (apply N.eqb_neq; by intros ->).
    assert ((l =? 47) = false) as -> by (apply N.eqb_neq; by intros ->).
    destruct (split_on 47 s); [repeat constructor; done|]. apply Forall_cons in IH as [H1 H2]. constructor; [by constructor|done].
Qed.

Lemma path_unreserved c : _UNRESERVED c = true -> _PATH_SAFE c = true.
Proof. unfold _PATH_SAFE. by intros ->. Qed.
Lemma query_unreserved c : _UNRESERVED c = true -> _QUERY_SAFE c = true.
Proof. unfold _QUERY_SAFE, _PATH_SAFE. by intros ->. Qed.

Lemma removed_canonical path : starts_with [47] path = true -> canonical _PATH_SAFE path -> canonical _PATH_SAFE (_remove_dot_segments path).
Proof.
  intros H C. rewrite removed_dots by done. destruct (slashed_segments path H) as (_ & NE & F).
  assert (Forall (canonical _PATH_SAFE) (segments_of path)) as CS.
  { unfold segments_of. pose proof (canonical_segments path C) as K. destruct K; [constructor|done]. }
  destruct (dots_facts (canonical _PATH_SAFE) [] (segments_of path)) as (A & _); [constructor|constructor|done|constructor|].
  induction A as [|s l Hs _ IH]; [constructor|]. rewrite slashed_cons. constructor; [done|]. by apply canonical_app.
Qed.

(** The path of a URL with an authority is empty or absolute. *)
Lemma split_netloc_rest url : match (split_netloc url).2 with [] => True | c :: _ => c = 47 \/ c = 63 \/ c = 35 end.
Proof.
  induction url as [|c url IH]; [done|]. cbn [split_netloc]. destruct (_ || _) eqn:E.
  - rewrite !orb_true_iff, !N.eqb_eq in E. simpl. tauto.
  - by destruct (split_netloc url).
Qed.
Lemma partition_head c s : match (partition c s).1 with [] => True | d :: _ => head s = Some d /\ d <> c end.
Proof. destruct s as [|d s]; [done|]. cbn [partition]. destruct (d =? c) eqn:E; [done|]. apply N.eqb_neq in E. by destruct (partition c s). Qed.

Lemma urlsplit_path nfkc url r : urlsplit nfkc url [] = Some r -> sr_netloc r <> [] -> sr_path r = [] \/ starts_with [47] (sr_path r) = true.
Proof.
  unfold urlsplit. destruct (split_scheme _ _) as [scheme u]. destruct (starts_with _ _).
  - pose proof (split_netloc_rest (drop 2 u)) as K. destruct (split_netloc (drop 2 u)) as [netloc u']. cbn [snd] in K.
    destruct (negb _); [done|]. destruct (_ && _); [done|]. pose proof (partition_head 35 u') as P1.
    destruct (partition 35 u') as [u1 f]. pose proof (partition_head 63 u1) as P2. destruct (partition 63 u1) as [path q].
    destruct (netloc_ok _ _); [|done]. intros [= <-] _. cbn [sr_path fst] in *. destruct path as [|d path]; [by left|]. right.
    destruct P2 as [P2 N2]. destruct u1 as [|d1 u1]; [done|]. destruct P1 as [P1 N1]. destruct u' as [|d2 u']; [done|].
    injection P2 as ->. injection P1 as ->. destruct K as [->|[K|K]]; [done|by subst|by subst].
  - destruct (negb _); [done|]. destruct (_ && _); [done|]. destruct (partition 35 u) as [u1 f]. destruct (partition 63 u1).
    destruct (netloc_ok _ _); [|done]. by intros [= <-].
Qed.

Lemma canonicalized_start v t : _canonicalize_url_component _PATH_SAFE v = Ok t -> starts_with [47] v = true -> starts_with [47] t = true.
Proof.
  intros H S. destruct v as [|c v]; [done|]. apply bool_decide_eq_true in S. injection S as ->.
  cbn [_canonicalize_url_component] in H. change (_PATH_SAFE 47) with true in H. cbv iota in H. rinv. by injection H as <-.
Qed.

(** ** Policies *)

Record url_policy_ok (p : WebUrlPolicy) : Prop := mkPolicyOk {
  po_ports : Forall (fun e => http_scheme e.1 /\ Forall (fun n => 1 <= n <= 65535)%Z e.2) (wp_allowed_scheme_ports p);
  po_bytes : (1 <= wp_max_url_bytes p <= 16384)%Z;
  po_addresses : (1 <= wp_max_resolved_addresses p <= 32)%Z
}.

Lemma integer_port_inv field v n : _integer_port field v = Ok n -> n = v /\ (1 <= n <= 65535)%Z.
Proof.
  unfold _integer_port. destruct (_ && _) eqn:E; [|done]. apply andb_true_iff in E as [E1%Z.leb_le E2%Z.leb_le]. by intros [= <-].
Qed.

Lemma normalized_ports_ok lower_wide configured ports : normalized_ports lower_wide configured = Ok ports ->
  Forall (fun e => http_scheme e.1 /\ Forall (fun n => 1 <= n <= 65535)%Z e.2) ports.
Proof.
  revert ports. induction configured as [|[s l] configured IH]; intros ports H; [by injection H as <-|].
  cbn [normalized_ports] in H. rinv. injection H as <-. constructor; [|by apply IH].
  apply orb_false_iff in E as [E%negb_false_iff%bool_decide_eq_true _]. destruct E as [n E]. apply default_ports_inv in E as [E _].
  split; [exact E|]. apply map_res_inv in E0. clear -E0. induction E0 as [|v n l k E _ IH]; [done|].
  apply integer_port_inv in E as [_ E]. by constructor.
Qed.

Lemma make_url_policy_ok lower_wide allowed bytes addresses p : make_url_policy lower_wide allowed bytes addresses = Ok p -> url_policy_ok p.
Proof.
  unfold make_url_policy. cbv zeta. intros H. rinv. injection H as <-. apply negb_false_iff, andb_true_iff in E1 as [B1%Z.leb_le B2%Z.leb_le].
  apply negb_false_iff, andb_true_iff in E2 as [A1%Z.leb_le A2%Z.leb_le]. unfold _MAX_URL_BYTES, _MAX_RESOLVED_ADDRESSES in *.
  constructor; cbn; [by eapply normalized_ports_ok|lia..].
Qed.

Lemma allowed_port_range p scheme n : url_policy_ok p -> n ∈ allowed_ports p scheme -> (1 <= n <= 65535)%Z.
Proof.
  intros [F _ _] H. unfold allowed_ports in H. rewrite Forall_forall in F.
  destruct (List.filter _ _) as [|e l] eqn:E; [by apply not_elem_of_nil in H|]. simpl in H.
  assert (e ∈ wp_allowed_scheme_ports p) as M.
  { apply list_elem_of_In. apply (proj1 (List.filter_In (fun e => bool_decide (e.1 = scheme)) e (wp_allowed_scheme_ports p))). rewrite E. by left. }
  destruct (F e M) as [_ K]. rewrite Forall_forall in K. by apply K.
Qed.

Section gate.
Context (lower_wide nfkc : text -> text) (idna_encode_wide idna_decode : text -> option text).
Context (resolver : text -> Z -> DnsAnswer) (probe : option (nat -> option bool)).
Abbreviation host_ok := (host_ok lower_wide idna_encode_wide idna_decode).
Abbreviation make_pin := (make_pin lower_wide idna_encode_wide idna_decode).
Abbreviation admitted_parts := (admitted_parts lower_wide nfkc idna_encode_wide idna_decode).
Abbreviation resolve_all := (_resolve_all resolver).
Abbreviation resolve_url := (resolve_url lower_wide nfkc idna_encode_wide idna_decode resolver probe).

Lemma make_pin_inv host n addresses pin : make_pin host n addresses = Ok pin ->
  pin_host pin = host /\ pin_port pin = n /\ exists k, map_res _canonical_global_ip addresses = Ok k /\ pin_addresses pin ≡ₚ remove_dups k.
Proof.
  unfold UrlPolicy.make_pin. intros H. rinv. destruct x1 as [c b]. rinv. injection H as <-. split_and!; [done..|].
  unfold unsafe_as_value in E5. destruct (map_res _ addresses) as [k|e]; [|by destruct e]. exists k. split; [done|].
  cbn [mbind res_bind] in E5. destruct (sorted_addresses k) as [l|[]] eqn:S; try done. injection E5 as <-. by apply sorted_perm.
Qed.

Lemma make_pin_total host b n addresses : host_ok host b -> (1 <= n <= 65535)%Z ->
  addresses <> [] -> (length addresses <= 32)%nat -> Forall canonical_address addresses ->
  exists pin, make_pin host n addresses = Ok pin.
Proof.
  intros H N NE L F. destruct (host_facts _ _ _ _ _ H) as (_ & D & E & A & LO). unfold UrlPolicy.make_pin.
  rewrite E, A, D, LO, bool_decide_eq_true_2 by done. cbn [orb negb reject_if mbind res_bind]. rewrite (host_stable _ _ _ _ _ H).
  cbn [orb negb reject_if mbind res_bind]. rewrite bool_decide_eq_true_2 by done. cbn [orb negb reject_if mbind res_bind].
  unfold _integer_port. rewrite (proj2 (Z.leb_le 1 n)), (proj2 (Z.leb_le n 65535)) by lia. cbn [andb reject_if mbind res_bind].
  assert (is_empty addresses || (_MAX_RESOLVED_ADDRESSES <? Z.of_nat (length addresses))%Z = false) as ->.
  { apply orb_false_iff. split; [by destruct addresses|]. apply Z.ltb_ge. unfold _MAX_RESOLVED_ADDRESSES. lia. }
  cbn [reject_if mbind res_bind]. rewrite map_res_fixed by done. cbn [mbind res_bind].
  destruct (sorted_total addresses F) as [l ->]. by eexists.
Qed.

(** ** Admission *)

(** The parts the policy may admit. *)
Record parts_ok (p : WebUrlPolicy) (scheme host : text) (b : bool) (n : Z) (path query : text) : Prop := mkPartsOk {
  pa_scheme : http_scheme scheme;
  pa_host : host_ok host b;
  pa_port : n ∈ allowed_ports p scheme;
  pa_path : canonical _PATH_SAFE path;
  pa_clean : clean_path path;
  pa_query : canonical _QUERY_SAFE query
}.

Lemma admitted_inv p url scheme host b n path query : admitted_parts p url = Ok (scheme, host, b, n, path, query) ->
  parts_ok p scheme host b n path query.
Proof.
  unfold UrlPolicy.admitted_parts. destruct (urlsplit nfkc url []) as [r|] eqn:U; [|done]. cbv zeta.
  destruct (_DEFAULT_PORTS _) as [d|] eqn:D; [|done]. intros H. rinv. destruct (Urls.port r) as [pp|]; [|done]. rinv.
  destruct x1 as [h b']. rinv. injection H as <- <- <- <- <- <-. apply default_ports_inv in D as [D _].
  destruct (bool_decide (_ ∈ _)) eqn:A; [apply bool_decide_eq_true in A|done].
  assert (starts_with [47] (if is_empty (sr_path r) then [47] else sr_path r) = true) as S.
  { destruct (urlsplit_path _ _ _ U) as [->|S]; [by destruct (sr_netloc r)|done|]. by destruct (sr_path r). }
  pose proof (canonicalized _ path_unreserved _ _ E3) as C. pose proof (canonicalized_start _ _ E3 S) as S'.
  constructor; [done|by eapply canonical_host_inv|done|by apply removed_canonical|by apply removed_clean|].
  by eapply canonicalized; [apply query_unreserved|].
Qed.

Lemma hostname_text scheme host b n path query : host_ok host b -> (1 <= n <= 65535)%Z ->
  hostname lower_wide (mkSplitResult scheme (authority_of scheme host n) path query []) = Some host.
Proof.
  intros H N. destruct (host_facts _ _ _ _ _ H) as (C & _ & E & A & L). unfold hostname. cbn [sr_netloc].
  rewrite (authority_hostinfo _ _ _ _ _ _ _ H N). cbn [fst]. destruct host as [|c t] eqn:Eh; [done|]. rewrite <- Eh in *.
  rewrite partition_none by by eapply chars_free_of. rewrite app_nil_r. unfold lower. by rewrite A, L.
Qed.

Lemma port_text scheme host b n path query d : host_ok host b -> (1 <= n <= 65535)%Z -> _DEFAULT_PORTS scheme = Some d ->
  exists pp, Urls.port (mkSplitResult scheme (authority_of scheme host n) path query []) = Some pp /\ default d pp = n.
Proof.
  intros H N D. unfold Urls.port. cbn [sr_netloc]. rewrite (authority_hostinfo _ _ _ _ _ _ _ H N). cbn [snd].
  destruct (bool_decide _) eqn:B; [apply bool_decide_eq_true in B; exists None; split; [done|by simpl; congruence]|].
  destruct (port_reads n N) as (F & R & _). rewrite F. cbv zeta. rewrite R, (proj2 (Z.leb_le _ _)) by lia. by eexists.
Qed.

(** The canonical text of admitted parts is admitted with the same parts. *)
Lemma admitted_text p scheme host b n path query : url_policy_ok p -> parts_ok p scheme host b n path query ->
  admitted_parts p (url_text scheme host n path query) = Ok (scheme, host, b, n, path, query).
Proof.
  intros PO [S H A P C Q]. pose proof (allowed_port_range _ _ _ PO A) as N. unfold UrlPolicy.admitted_parts.
  rewrite (url_text_split lower_wide nfkc idna_encode_wide idna_decode _ _ _ _ _ _ S H N P (clean_start _ C) Q). cbv zeta.
  cbn [sr_scheme sr_netloc sr_path sr_query].
  assert (lower lower_wide scheme = scheme) as -> by (destruct S as [->| ->]; done).
  assert (exists d, _DEFAULT_PORTS scheme = Some d) as [d D] by (destruct S as [->| ->]; eauto). rewrite D.
  pose proof (authority_ne lower_wide idna_encode_wide idna_decode scheme host b n H) as NE.
  assert (is_empty (authority_of scheme host n) = false) as -> by by destruct (authority_of scheme host n).
  rewrite (authority_free lower_wide idna_encode_wide idna_decode _ _ b _ 64) by done. cbn [deny_if mbind res_bind].
  destruct (port_text scheme host b n path query d H N D) as (pp & -> & ->).
  rewrite (hostname_text scheme host b n path query H N). change (default [] (Some host)) with host. rewrite (host_stable _ _ _ _ _ H). cbn [mbind res_bind].
  rewrite bool_decide_eq_true_2 by done. cbn [mbind res_bind].
  assert ((if is_empty path then [47] else path) = path) as -> by (apply clean_start in C; by destruct path).
  rewrite (canonical_fixed _ eq_refl _ P). cbn [mbind res_bind]. rewrite (canonical_fixed _ eq_refl _ Q). cbn [mbind res_bind].
  by rewrite clean_fixed.
Qed.

Abbreviation redirect := (validate_redirect lower_wide nfkc idna_encode_wide idna_decode resolver probe).

(** What the resolver said of a host, and what it is checked to be. *)
Definition resolved_addresses (p : WebUrlPolicy) (host : text) (b : bool) (n : Z) : res (list text) :=
  if b then Ok [host] else resolve_all p host n.

Lemma resolve_inv p k url r : url_policy_ok p -> resolve_url p k url = Ok r ->
  exists scheme host b n path query addresses pin size,
    parts_ok p scheme host b n path query /\
    r = mkResolvedWebUrl (url_text scheme host n path query) scheme host n (authority_of scheme host n) (request_target path query) pin /\
    _utf8_size (url_text scheme host n path query) "canonical URL"%py = Ok size /\ (size <= wp_max_url_bytes p)%Z /\
    resolved_addresses p host b n = Ok addresses /\ make_pin host n addresses = Ok pin /\
    wp_closed p = false /\ _raise_if_cancelled probe k = Ok tt /\ _raise_if_cancelled probe (S k) = Ok tt.
Proof.
  intros PO. unfold UrlPolicy.resolve_url. cbv zeta. intros H. rinv. destruct x2 as [[[[[scheme host] b] n] path] query]. rinv.
  apply admitted_inv in E2. pose proof E2 as [S HO A _ C _].
  rewrite urlunsplit_text in * by first [done|by apply clean_start|by eapply authority_ne]. fold (url_text scheme host n path query) in *.
  unfold make_resolved in H. rinv. injection H as <-. exists scheme, host, b, n, path, query, x4, x6, x2. destruct x0, x5.
  split_and!; try done. destruct (_ <? _)%Z eqn:L in E4; [done|]. by apply Z.ltb_ge in L.
Qed.

(** ** The canonical text passes the raw checks *)

Lemma url_char_facts c : url_char c = true -> is_space c = false /\ c <> 92 /\ c <> 0 /\ (c <? 32) || (c =? 127) = false.
Proof.
  intros H. assert (c < 128) as L by (revert H; unfold url_char; rewrite !andb_true_iff, N.ltb_lt; lia).
  assert (negb (is_space c) && negb (c =? 92) && negb (c =? 0) && negb ((c <? 32) || (c =? 127)) = true) as K.
  { revert H. apply implb_true_iff. revert c L. apply (below 128). vm_compute. done. }
  rewrite !andb_true_iff, !negb_true_iff, !N.eqb_neq in K. tauto.
Qed.

Lemma raw_text_ok s field max size field' : chars url_char s -> s <> [] -> _utf8_size s field' = Ok size -> (size <= max)%Z ->
  _validate_raw_url_text s field max = Ok tt.
Proof.
  intros C NE S L. unfold _validate_raw_url_text. assert (_utf8_size s field = Ok size) as ->.
  { unfold _utf8_size in *. by destruct (utf8_encode _). }
  cbn [mbind res_bind]. rewrite (proj2 (Z.ltb_ge _ _)) by lia. cbn [mbind res_bind].
  rewrite py_strip_nospace, bool_decide_eq_true_2; [|done|].
  2:{ apply forallb_forall. intros c Hc%list_elem_of_In. unfold chars in C. rewrite Forall_forall in C.
      by rewrite (proj1 (url_char_facts c (C c Hc))). }
  rewrite !(chars_free url_char) by done. assert (is_empty s = false) as -> by by destruct s. cbn [orb negb deny_if mbind res_bind].
  assert (existsb (fun c => (c <? 32) || (c =? 127)) s = false) as ->; [|done].
  apply not_true_iff_false. intros (c & Hc%list_elem_of_In & E)%existsb_exists. unfold chars in C. rewrite Forall_forall in C.
  destruct (url_char_facts c (C c Hc)) as (_ & _ & _ & K). by rewrite K in E.
Qed.

Lemma make_resolved_ok p scheme host b n path query pin :
  url_policy_ok p -> parts_ok p scheme host b n path query -> pin_host pin = host -> pin_port pin = n ->
  let r := mkResolvedWebUrl (url_text scheme host n path query) scheme host n (authority_of scheme host n) (request_target path query) pin in
  make_resolved r = Ok r.
Proof.
  intros PO [S H A P C Q] H1 H2 r. pose proof (allowed_port_range _ _ _ PO A) as N. unfold make_resolved, r.
  cbn [ru_canonical_url ru_scheme ru_host ru_port ru_authority ru_request_target ru_pin].
  assert (is_Some (_DEFAULT_PORTS scheme)) as D by (destruct S as [->| ->]; by eexists). rewrite (bool_decide_eq_true_2 _ D).
  unfold _integer_port. rewrite (proj2 (Z.leb_le 1 n)), (proj2 (Z.leb_le n 65535)) by lia. rewrite H1, H2, Z.eqb_refl.
  assert (starts_with [47] (request_target path query) = true /\ contains 35 (request_target path query) = false) as [-> ->].
  { pose proof (path_chars_wide _ P) as CP. pose proof (query_chars_wide _ Q) as CQ. apply clean_start in C. destruct path as [|c path]; [done|].
    apply bool_decide_eq_true in C. injection C as ->. unfold request_target. destruct (is_empty query); (split; [done|]); [by eapply chars_free|].
    rewrite contains_app, (chars_free _ 35 _ CP) by done. cbn [orb]. change (contains 35 (63 :: query)) with (contains 35 query). by eapply chars_free. }
  unfold url_text. rewrite !bool_decide_eq_true_2 by done. done.
Qed.

Lemma url_text_ne scheme host n path query : http_scheme scheme -> url_text scheme host n path query <> [].
Proof. by intros [->| ->]. Qed.

Lemma resolve_stable p k url r : url_policy_ok p -> resolve_url p k url = Ok r -> resolve_url p k (ru_canonical_url r) = Ok r.
Proof.
  intros PO (scheme & host & b & n & path & query & addresses & pin & size & PA & -> & SZ & SB & RA & MP & CL & P1 & P2)%resolve_inv; [|done].
  cbn [ru_canonical_url]. pose proof PA as [S H A P C Q]. pose proof (allowed_port_range _ _ _ PO A) as N.
  unfold UrlPolicy.resolve_url. cbv zeta. rewrite CL, P1. cbn [deny_if mbind res_bind].
  rewrite (raw_text_ok _ _ _ size "canonical URL"%py); [|by eapply url_text_chars|by apply url_text_ne|done|done]. cbn [mbind res_bind].
  rewrite (admitted_text p scheme host b n path query PO PA). cbn [mbind res_bind].
  rewrite urlunsplit_text by first [done|by apply clean_start|by eapply authority_ne]. fold (url_text scheme host n path query).
  rewrite SZ. cbn [mbind res_bind]. rewrite (proj2 (Z.ltb_ge _ _)) by lia. cbn [mbind res_bind].
  unfold resolved_addresses in RA. rewrite RA. cbn [mbind res_bind]. rewrite P2. cbn [mbind res_bind]. rewrite MP. cbn [mbind res_bind].
  apply make_pin_inv in MP as (M1 & M2 & _). fold (request_target path query). by eapply make_resolved_ok.
Qed.

(** ** Failures *)

Definition policy_error (e : web_exn) : bool :=
  match e with WebUrlPolicyError _ _ _ | WCancelled _ => true | _ => false end.
Definition refuses {A} (m : res A) : Prop := forall e, m = Err e -> policy_error e = true.

Lemma refuses_ok {A} (a : A) : refuses (Ok a).
Proof. by intros e. Qed.
Lemma refuses_denied {A} c m : refuses (@denied A c m).
Proof. by intros e [= <-]. Qed.
Lemma refuses_deny b c m : refuses (deny_if b c m).
Proof. destruct b; [apply refuses_denied|apply refuses_ok]. Qed.
Lemma refuses_bind {A B} (m : res A) (f : A -> res B) : refuses m -> (forall a, m = Ok a -> refuses (f a)) -> refuses (m ≫= f).
Proof. intros H K. destruct m as [a|e]; [by apply K|]. intros e' [= <-]. by apply H. Qed.
Lemma refuses_if {A} (b : bool) (m m' : res A) : refuses m -> refuses m' -> refuses (if b then m else m').
Proof. by destruct b. Qed.
Lemma refuses_policy {A} c m d : refuses (@Err A (WebUrlPolicyError c m d)).
Proof. by intros e [= <-]. Qed.
Lemma refuses_cancelled {A} m : refuses (@Err A (WCancelled m)).
Proof. by intros e [= <-]. Qed.

Ltac refuse := repeat match goal with
  | |- refuses (_ ≫= _) => apply refuses_bind; [|intros ? ?]
  | |- refuses (if _ then _ else _) => apply refuses_if
  | |- refuses (Ok _) => apply refuses_ok
  | |- refuses (denied _ _) => apply refuses_denied
  | |- refuses (deny_if _ _ _) => apply refuses_deny
  | |- refuses (Err (WebUrlPolicyError _ _ _)) => apply refuses_policy
  | |- refuses (Err (WCancelled _)) => apply refuses_cancelled
  | H : refuses ?m |- refuses ?m => exact H
  end.

Lemma refuses_probe k : refuses (_raise_if_cancelled probe k).
Proof. unfold _raise_if_cancelled. destruct probe as [f|]; [destruct (f k) as [[]|]|]; refuse. Qed.
Lemma refuses_size v f : refuses (_utf8_size v f).
Proof. unfold _utf8_size. destruct (utf8_encode _); refuse. Qed.
Lemma refuses_raw v f m : refuses (_validate_raw_url_text v f m).
Proof. unfold _validate_raw_url_text. refuse. apply refuses_size. Qed.

Lemma refuses_component safe v : refuses (_canonicalize_url_component safe v).
Proof.
  induction v as [v IH] using (induction_ltof1 _ (@length N)). unfold ltof in IH. destruct v as [|c rest]; [apply refuses_ok|].
  assert (refuses (_canonicalize_url_component safe rest)) as R by (apply IH; simpl; lia).
  assert (forall h l r, rest = h :: l :: r -> refuses (_canonicalize_url_component safe r)) as R2.
  { intros h l r ->. apply IH. simpl. lia. }
  destruct (decide (c = 37)) as [->|N].
  - destruct rest as [|h [|l r]]; [apply refuses_denied..|]. cbn [_canonicalize_url_component]. refuse. by eapply R2.
  - assert (refuses (if safe c then out ← _canonicalize_url_component safe rest; Ok (c :: out)
      else match utf8_encode_cp c with
           | Some bytes => out ← _canonicalize_url_component safe rest; Ok (concat (hex_byte <$> bytes) ++ out)
           | None => denied INVALID_URL "URL contains invalid Unicode"%py
           end)) as K by (destruct (utf8_encode_cp c); refuse).
    cbn [_canonicalize_url_component]. destruct c as [|q]; [done|]. repeat (destruct q as [q|q|]; try done).
Qed.

Lemma global_ip_err v e : _canonical_global_ip v = Err e -> e = _InvalidAddress \/ e = _UnsafeAddress.
Proof.
  unfold _canonical_global_ip, global_ip. destruct (_ || _); [intros [= <-]; by left|].
  destruct (ip_address v) as [[n|n]|]; [| |intros [= <-]; by left].
  - cbn [mbind res_bind]. destruct (denied_address _); [|done]. intros [= <-]. by right.
  - destruct (v6_mapped n) as [m|]; [|destruct (_reject_transition_address n); [intros [= <-]; by right|]];
      cbn [mbind res_bind]; (destruct (denied_address _); [|done]); intros [= <-]; by right.
Qed.

Lemma refuses_labels labels : refuses (check_labels lower_wide idna_encode_wide idna_decode labels).
Proof.
  induction labels as [|l labels IH]; cbn [check_labels]; [apply refuses_ok|]. refuse. unfold check_label. refuse.
  destruct (mbind _ _); refuse.
Qed.
Lemma refuses_domain h : refuses (_canonical_domain lower_wide idna_encode_wide idna_decode h).
Proof. unfold _canonical_domain. cbv zeta. refuse. destruct (idna_encode _ _); refuse. apply refuses_labels. Qed.
Lemma refuses_host h : refuses (_canonical_host lower_wide idna_encode_wide idna_decode h).
Proof.
  unfold _canonical_host. refuse. destruct (_canonical_global_ip _) as [t|e] eqn:E; [refuse|].
  apply global_ip_err in E as [->| ->]; [|refuse]. apply refuses_bind; [apply refuses_domain|intros ? ?; refuse].
Qed.
Lemma refuses_admitted p url : refuses (admitted_parts p url).
Proof.
  unfold UrlPolicy.admitted_parts. destruct (urlsplit _ _ _) as [r|]; [|refuse]. cbv zeta. destruct (_DEFAULT_PORTS _); [|refuse]. refuse.
  destruct (Urls.port r); [|refuse]. refuse; [apply refuses_host|]. destruct a1 as [h b]. refuse; apply refuses_component.
Qed.

(** ** The resolver's answers *)

Lemma checked_answer_inv v t : checked_answer v = Ok t -> exists s, v = Some s /\ _canonical_global_ip s = Ok t.
Proof.
  destruct v as [s|]; [|done]. cbn [checked_answer]. destruct (_canonical_global_ip s) as [a|[]] eqn:E; try done.
  intros [= ->]. by exists s.
Qed.

Definition answered (host : text) (n : Z) (t : text) : Prop :=
  exists values s, resolver host n = DnsValues values /\ Some s ∈ values /\ _canonical_global_ip s = Ok t.

Lemma resolve_all_inv p host n l : resolve_all p host n = Ok l ->
  l <> [] /\ (Z.of_nat (length l) <= wp_max_resolved_addresses p)%Z /\ Forall canonical_address l /\
  forall t, t ∈ l <-> answered host n t.
Proof.
  unfold UrlPolicy._resolve_all, answered. destruct (resolver host n) as [| | |values]; [done..|]. intros H. rinv.
  destruct (_ || _) eqn:B in E; [done|]. apply orb_false_iff in B as [B1 B2%Z.ltb_ge].
  apply map_res_inv in E0. apply sorted_perm in H.
  assert (forall t, t ∈ x0 <-> exists s, Some s ∈ values /\ _canonical_global_ip s = Ok t) as K.
  { intros t. clear -E0. induction E0 as [|v u values us E _ IH]; [split; [by intros ?%not_elem_of_nil|intros (? & ?%not_elem_of_nil & _); done]|].
    apply checked_answer_inv in E as (s & -> & E). rewrite elem_of_cons, IH. split.
    - intros [->|(s' & Hs & E')]; [exists s; split; [by left|done]|exists s'; split; [by right|done]].
    - intros (s' & [[= ->]|Hs]%elem_of_cons & E'); [left; congruence|right; by exists s']. }
  assert (forall t, t ∈ l <-> t ∈ x0) as M by (intros t; by rewrite H, elem_of_remove_dups).
  split_and!.
  - intros ->. destruct E0 as [|v u values us Eu _]; [done|]. by apply (not_elem_of_nil u), M, elem_of_cons; left.
  - apply Permutation_length in H. pose proof (remove_dups_length x0) as L. apply Forall2_length in E0. lia.
  - apply Forall_forall. intros t (s & _ & E1)%M%K. by eapply canonical_ip_stable.
  - intros t. rewrite M, K. split; [intros (s & ? & ?); by exists values, s|]. intros (vs & s & [= <-] & ? & ?). by exists s.
Qed.

Lemma refuses_resolve_all p host n : refuses (resolve_all p host n).
Proof.
  unfold UrlPolicy._resolve_all. destruct (resolver host n) as [| | |values]; refuse.
  - clear H. induction values as [|v values IH]; cbn [map_res]; refuse.
    destruct v as [s|]; [|apply refuses_denied]. cbn [checked_answer]. destruct (_canonical_global_ip s) as [t|e] eqn:E; [apply refuses_ok|].
    apply global_ip_err in E as [->| ->]; apply refuses_denied.
  - assert (Forall canonical_address a0) as F.
    { apply map_res_inv in H0. clear -H0. induction H0 as [|v u values us E _ IH]; [done|]. constructor; [|done].
      apply checked_answer_inv in E as (s & _ & E). by eapply canonical_ip_stable. }
    destruct (sorted_total a0 F) as [l ->]. apply refuses_ok.
Qed.

Lemma resolved_addresses_inv p host b n l : url_policy_ok p -> host_ok host b -> resolved_addresses p host b n = Ok l ->
  l <> [] /\ (length l <= 32)%nat /\ Forall canonical_address l /\
  forall t, t ∈ l <-> if b then t = host else answered host n t.
Proof.
  intros [_ _ PO] H. unfold resolved_addresses. destruct b.
  - intros [= <-]. inversion H as [a O D P E1 E2|]; subst. split_and!; [done|simpl; lia| |intros t; by rewrite list_elem_of_singleton].
    constructor; [|constructor]. unfold canonical_address, _canonical_global_ip. by rewrite global_ip_print.
  - intros (A & B & C & D)%resolve_all_inv. split_and!; [done|lia|done|done].
Qed.

Lemma refuses_resolve p k url : url_policy_ok p -> refuses (resolve_url p k url).
Proof.
  intros PO. unfold UrlPolicy.resolve_url. cbv zeta. refuse; [apply refuses_probe|apply refuses_raw|apply refuses_admitted|].
  destruct a2 as [[[[[scheme host] b] n] path] query]. apply admitted_inv in H2. pose proof H2 as [S HO A P C Q].
  pose proof (allowed_port_range _ _ _ PO A) as N. refuse; [apply refuses_size|apply refuses_resolve_all|apply refuses_probe| |].
  - destruct (resolved_addresses_inv p host b n a4 PO HO H5) as (F1 & F2 & F3 & _).
    destruct (make_pin_total host b n a4 HO N F1 F2 F3) as [pin ->]. apply refuses_ok.
  - apply make_pin_inv in H7 as (M1 & M2 & _).
    rewrite urlunsplit_text by first [done|by apply clean_start|by eapply authority_ne]. fold (request_target path query).
    fold (url_text scheme host n path query). rewrite (make_resolved_ok p scheme host b n path query a6 PO H2 M1 M2). apply refuses_ok.
Qed.

Lemma refuses_redirect p k base location : url_policy_ok p -> refuses (redirect p k base location).
Proof.
  intros PO. unfold validate_redirect. refuse; [apply refuses_probe| | |by apply refuses_resolve].
  - destruct base; refuse. by apply refuses_resolve.
  - pose proof (refuses_raw location "redirect location"%py (wp_max_url_bytes p)) as R.
    destruct (_validate_raw_url_text _ _ _) as [[]|e]; [destruct (urljoin _ _ _); refuse|]. specialize (R e eq_refl).
    destruct e as [[] m d| | | | |]; try done; refuse.
Qed.

Lemma redirect_inv p k base location r : redirect p k base location = Ok r -> exists k' url, resolve_url p k' url = Ok r.
Proof. unfold validate_redirect. intros H. rinv. eauto. Qed.
End gate.

Section claims.
Context (lower_wide nfkc : text -> text) (idna_encode_wide idna_decode : text -> option text).
Context (resolver : text -> Z -> DnsAnswer) (probe : option (nat -> option bool)).
Abbreviation resolve_url := (resolve_url lower_wide nfkc idna_encode_wide idna_decode resolver probe).
Abbreviation redirect := (validate_redirect lower_wide nfkc idna_encode_wide idna_decode resolver probe).

(** Whatever the resolver, the probe and the Unicode tables do, a URL that a policy
    hands out, at once or after a redirect, has an allowed scheme and port, a canonical
    host, a clean path, and an address set that is not empty, holds public addresses
    only, and is exactly the literal host or the resolver's answers. *)
Record safe_target (p : WebUrlPolicy) (r : ResolvedWebUrl) : Prop := mkSafeTarget {
  st_scheme : http_scheme (ru_scheme r);
  st_port : ru_port r ∈ allowed_ports p (ru_scheme r) /\ (1 <= ru_port r <= 65535)%Z;
  st_text : ru_canonical_url r = ru_scheme r ++ lit "://" ++ authority_of (ru_scheme r) (ru_host r) (ru_port r) ++ ru_request_target r;
  st_chars : chars url_char (ru_canonical_url r);
  st_path : exists path query, ru_request_target r = request_target path query /\ clean_path path;
  st_some : pin_addresses (ru_pin r) <> [];
  st_public : Forall (fun t => exists a, t = print_ip a /\ public a) (pin_addresses (ru_pin r));
  st_exact : exists b, host_ok lower_wide idna_encode_wide idna_decode (ru_host r) b /\
    forall t, t ∈ pin_addresses (ru_pin r) <-> if b then t = ru_host r else answered resolver (ru_host r) (ru_port r) t
}.

Lemma resolved_safe p k url r : url_policy_ok p -> resolve_url p k url = Ok r -> safe_target p r.
Proof.
  intros PO (scheme & host & b & n & path & query & l & pin & size & PA & -> & SZ & SB & RA & MP & _)%resolve_inv; [|done].
  pose proof PA as [S H A P C Q]. pose proof (allowed_port_range _ _ _ PO A) as N.
  destruct (resolved_addresses_inv _ _ _ _ _ _ _ _ _ PO H RA) as (NE & _ & F & M).
  apply make_pin_inv in MP as (_ & _ & kk & MR & PE). rewrite map_res_fixed in MR by done. injection MR as <-.
  assert (forall t, t ∈ pin_addresses pin <-> t ∈ l) as K by (intros t; by rewrite PE, elem_of_remove_dups).
  constructor; cbn [ru_scheme ru_port ru_canonical_url ru_host ru_request_target ru_pin]; [done|done|done|by eapply url_text_chars|by exists path, query|..].
  - intros E. destruct l as [|t l]; [done|]. apply (not_elem_of_nil t). rewrite <- E. apply K. by left.
  - apply Forall_forall. intros t Ht%K. rewrite Forall_forall in F. destruct (canonical_address_inv t (F t Ht)) as (a & _ & ? & ?). eauto.
  - exists b. split; [done|]. intros t. by rewrite K, M.
Qed.

(** C22. A policy keeps every request on the public internet. A URL that [resolve]
    returns, or that [validate_redirect] returns for a redirect, is a [safe_target]; and a
    socket whose peer passes [verify_peer] is connected to one of the pinned addresses,
    which is a public one even when the peer is reported as an IPv4-mapped IPv6 address. *)
Theorem resolved_url_is_safe allowed bytes addresses p r :
  make_url_policy lower_wide allowed bytes addresses = Ok p ->
  (exists k url, resolve_url p k url = Ok r) \/ (exists k base location, redirect p k base location = Ok r) ->
  safe_target p r /\
  forall peer, verify_peer r peer = Ok tt ->
    exists a, global_ip peer = Ok a /\ public a /\ print_ip a ∈ pin_addresses (ru_pin r).
Proof.
  intros PO%make_url_policy_ok H. assert (exists k url, resolve_url p k url = Ok r) as (k & url & E).
  { destruct H as [H|(k & base & location & H%redirect_inv)]; done. }
  split; [by eapply resolved_safe|]. intros peer. unfold verify_peer. destruct (_canonical_global_ip peer) as [t|] eqn:G; [|done].
  apply canonical_ip_inv in G as (a & G & -> & O & D & P). intros M%deny_if_inv%negb_false_iff%bool_decide_eq_true.
  exists a. split_and!; [done|by apply allowed_public|done].
Qed.

(** C23. The canonical URL is a fixed point: resolving the text a policy returned gives the
    same scheme, host, port, authority, request target and pin again, so a recorded URL
    can be fetched, redirected from and compared without a second normalisation. *)
Theorem canonical_url_is_stable allowed bytes addresses p k url r :
  make_url_policy lower_wide allowed bytes addresses = Ok p -> resolve_url p k url = Ok r ->
  resolve_url p k (ru_canonical_url r) = Ok r.
Proof. intros PO%make_url_policy_ok. by apply resolve_stable. Qed.

(** C24. Nothing but a refusal of the policy or a cancellation escapes: whatever the URL,
    the location, the resolver's answer or the Unicode tables, [resolve] and
    [validate_redirect] raise [WebUrlPolicyError] or the cancellation, never the
    [ValueError] of a pin or a record they build. *)
Theorem policy_only_refuses allowed bytes addresses p e :
  make_url_policy lower_wide allowed bytes addresses = Ok p ->
  (exists k url, resolve_url p k url = Err e) \/ (exists k base location, redirect p k base location = Err e) ->
  (exists code message details, e = WebUrlPolicyError code message details) \/ (exists message, e = WCancelled message).
Proof.
  intros PO%make_url_policy_ok H. assert (policy_error e = true) as K.
  { destruct H as [(k & url & H)|(k & base & location & H)]; [by eapply refuses_resolve|by eapply refuses_redirect]. }
  destruct e; try done; eauto 6.
Qed.
End claims.

(** C25. On an absolute path the loop of [_remove_dot_segments] computes what a walk over
    the segments with a stack does ([.] stays, [..] drops the last segment, and at the end
    both leave a directory); the result has no dot segment and is its own normal form. *)
Theorem dot_segments_are_resolved path : starts_with [47] path = true ->
  _remove_dot_segments path = slashed (dots [] (segments_of path)) /\
  no_dots (segments_of (_remove_dot_segments path)) /\
  _remove_dot_segments (_remove_dot_segments path) = _remove_dot_segments path.
Proof.
  intros H. pose proof (removed_clean path H) as C. split_and!; [by apply removed_dots| |by apply clean_fixed].
  destruct C as (l & -> & NE & F & D). by rewrite segments_slashed.
Qed.

(** ** The policy at work *)

(** Unicode tables that know nothing beyond ASCII, and a resolver with two answers, the
    second an IPv4-mapped address. *)
Definition same_text (s : text) : text := s.
Definition no_text (_ : text) : option text := None.
Definition sample_dns (_ : text) (_ : Z) : DnsAnswer :=
  DnsValues [Some (lit "2606:2800:0220:0001::1"); Some (lit "::ffff:93.184.216.34")].
Definition inner_dns (_ : text) (_ : Z) : DnsAnswer := DnsValues [Some (lit "93.184.216.34"); Some (lit "10.0.0.8")].

Definition sample_policy : WebUrlPolicy := mkWebUrlPolicy [(lit "http", [80%Z]); (lit "https", [443%Z])] 4096 32 false.
Definition sample_url : text := lit "HTTPS://Docs.Python.ORG.:443/a/./b/../%7eguide/%2e%2E/?q=%c3 x#top".
Definition sample_resolved : ResolvedWebUrl :=
  mkResolvedWebUrl (lit "https://docs.python.org/a/?q=%C3%20x") (lit "https") (lit "docs.python.org") 443
    (lit "docs.python.org") (lit "/a/?q=%C3%20x")
    (mkDnsPinSnapshot (lit "docs.python.org") 443 [lit "93.184.216.34"; lit "2606:2800:220:1::1"]).

Abbreviation resolve_sample := (resolve_url same_text same_text no_text no_text sample_dns None).

Example sample_resolves : resolve_sample sample_policy 0 sample_url = Ok sample_resolved.
Proof. vm_compute. reflexivity. Qed.

Example sample_redirects :
  (fun r => ru_canonical_url r) <$> match validate_redirect same_text same_text no_text no_text sample_dns None sample_policy 0
    (inl sample_resolved) (lit "../c//d?e") with Ok r => Some r | Err _ => None end = Some (lit "https://docs.python.org/c/d?e").
Proof. vm_compute. reflexivity. Qed.

(** Texts the policy refuses, with its codes. *)
Definition refusal (url : text) : option WebUrlPolicyCode :=
  match resolve_sample sample_policy 0 url with Err (WebUrlPolicyError c _ _) => Some c | _ => None end.

Example refusals : refusal <$>
  [ lit "file:///etc/passwd"; lit "http://user@python.org/"; lit "http://python.org:8080/"; lit "http://localhost/";
    lit "http://2130706433/"; lit "http://127.0.0.1/"; lit "http://[::ffff:10.0.0.1]/"; lit "http://[64:ff9b::7f00:1]/";
    lit "http://169.254.169.254/latest"; lit "http://metadata.internal/"; lit "http://python.org/%zz"; lit "http://a_b.org/" ] =
  Some <$>
  [ SCHEME_DENIED; USERINFO_DENIED; PORT_DENIED; HOST_DENIED; HOST_DENIED; ADDRESS_DENIED; ADDRESS_DENIED; ADDRESS_DENIED;
    ADDRESS_DENIED; HOST_DENIED; INVALID_URL; HOST_DENIED ].
Proof. vm_compute. reflexivity. Qed.

(** A peer reported in another notation is recognised; the pinned addresses are public. *)
Lemma resolved_url_is_safe_witness :
  safe_target same_text no_text no_text sample_dns sample_policy sample_resolved /\
  exists a, global_ip (lit "::ffff:93.184.216.34") = Ok a /\ public a /\ print_ip a ∈ pin_addresses (ru_pin sample_resolved).
Proof.
  destruct (resolved_url_is_safe same_text same_text no_text no_text sample_dns None None 4096 32 sample_policy sample_resolved) as [H1 H2].
  - vm_compute. reflexivity.
  - left. exists 0%nat, sample_url. vm_compute. reflexivity.
  - split; [exact H1|]. apply H2. vm_compute. reflexivity.
Defined.

Lemma canonical_url_is_stable_witness : resolve_sample sample_policy 0 (lit "https://docs.python.org/a/?q=%C3%20x") = Ok sample_resolved.
Proof.
  apply (canonical_url_is_stable same_text same_text no_text no_text sample_dns None None 4096 32 sample_policy 0 sample_url sample_resolved);
    vm_compute; reflexivity.
Defined.

(** A redirect to a name with one internal address among its answers. *)
Lemma policy_only_refuses_witness :
  let e := WebUrlPolicyError ADDRESS_DENIED "DNS resolver returned a non-global address"%py [] in
  (exists code message details, e = WebUrlPolicyError code message details) \/ (exists message, e = WCancelled message).
Proof.
  apply (policy_only_refuses same_text same_text no_text no_text inner_dns None None 4096 32 sample_policy).
  - vm_compute. reflexivity.
  - right. exists 0%nat, (inl sample_resolved), (lit "//mirror.python.org/d"). vm_compute. reflexivity.
Defined.

Lemma dot_segments_are_resolved_witness :
  _remove_dot_segments (lit "/a/./b/../../c/..") = slashed (dots [] (segments_of (lit "/a/./b/../../c/.."))) /\
  no_dots (segments_of (_remove_dot_segments (lit "/a/./b/../../c/.."))) /\
  _remove_dot_segments (_remove_dot_segments (lit "/a/./b/../../c/..")) = _remove_dot_segments (lit "/a/./b/../../c/..").
Proof. apply (dot_segments_are_resolved (lit "/a/./b/../../c/..")). vm_compute. reflexivity. Defined.
