(* ===== verification/Evaluation.v ===== *)
(** * Persistent evaluation jobs

    [backend/evaluation/repository.py] over its tables of [backend/db/models.py]: data
    sets, evaluation jobs with lease, owner and fencing token, and the cases of a job.
    The codecs of the stored documents (pydantic), the fingerprint of a data set and the
    scoring of observations are fields of the environment. *)

From S2P Require Import Prelude PyBase Errors RunState Session Schema Effects RunRepo CatalogSchema.
From Stdlib Require Import QArith.

Open Scope Z_scope.

(** ** Status enumerations *)

Inductive RagEvaluationJobStatus := G_QUEUED | G_RUNNING | G_CANCELLING | G_CANCELLED | G_SUCCEEDED | G_FAILED.
Inductive RagEvaluationCaseStatus := K_QUEUED | K_RUNNING | K_COMPLETED | K_FAILED | K_CANCELLED.

#[export] Instance RagEvaluationJobStatus_eq_dec : EqDecision RagEvaluationJobStatus.
Proof. solve_decision. Defined.
#[export] Instance RagEvaluationCaseStatus_eq_dec : EqDecision RagEvaluationCaseStatus.
Proof. solve_decision. Defined.

(** ** Documents

    Of the validated documents only the fields the repository reads are spelled out; the
    others are kept in [_rest]. *)

Record RagEvalCase := mkRagEvalCase { rc_id : pystr; rc_question : pystr; rc_rest : json }.
Record RagEvalDataset := mkRagEvalDataset { rd_name : pystr; rd_cases : list RagEvalCase }.
Record RagEvalObservation := mkRagEvalObservation {
  ro_case_id : pystr;
  ro_provider_error_code : option pystr;
  ro_provider_error_stage : option pystr;
  ro_rest : json
}.
Record RagEvalCaseResult := mkRagEvalCaseResult {
  rs_case_id : pystr;
  rs_metrics : list (pystr * option Q);
  rs_checks : list (pystr * option bool)
}.
Record RagEvalReport := mkRagEvalReport { rp_cases : list RagEvalCaseResult; rp_rest : json }.

(** Validation gives [None] where pydantic raises. A gate policy is represented by its
    dump; [ee_partial] is [evaluate_rag_partial] on the bundle of a fingerprint and
    observations, with the policy and the metadata of the report. *)
Record EvalEnv := mkEvalEnv {
  ee_dataset : json -> option RagEvalDataset;
  ee_dump_dataset : RagEvalDataset -> json;
  ee_fingerprint : RagEvalDataset -> pystr;
  ee_policy : json -> option json;
  ee_snapshot : json -> option ModelCatalogSnapshot;
  ee_report : json -> option RagEvalReport;
  ee_dump_report : RagEvalReport -> json;
  ee_observation : json -> option RagEvalObservation;
  ee_dump_observation : RagEvalObservation -> json;
  ee_partial : RagEvalDataset -> pystr -> list RagEvalObservation -> json -> json -> outcome RagEvalReport
}.

(** ** Tables *)

Record RagEvaluationDatasetRow := mkRagEvaluationDatasetRow {
  gd_id : pystr;
  gd_name : pystr;
  gd_fingerprint : pystr;
  gd_payload_json : json;
  gd_case_count : Z;
  gd_created_by_user_id : option Z;
  gd_created_at : datetime;
  gd_updated_at : datetime
}.
Definition eta_RagEvaluationDatasetRow (r : RagEvaluationDatasetRow) : RagEvaluationDatasetRow :=
  mkRagEvaluationDatasetRow (gd_id r) (gd_name r) (gd_fingerprint r) (gd_payload_json r)
    (gd_case_count r) (gd_created_by_user_id r) (gd_created_at r) (gd_updated_at r).

Record RagEvaluationJobRow := mkRagEvaluationJobRow {
  gj_id : pystr;
  gj_dataset_id : pystr;
  gj_baseline_job_id : option pystr;
  gj_status : RagEvaluationJobStatus;
  gj_completed_cases : Z;
  gj_total_cases : Z;
  gj_gate_policy_json : json;
  gj_model_catalog_hash : pystr;
  gj_model_snapshot_json : json;
  gj_owner_worker_id : option pystr;
  gj_lease_expires_at : option datetime;
  gj_heartbeat_at : option datetime;
  gj_fencing_token : Z;
  gj_attempts : Z;
  gj_max_attempts : Z;
  gj_error_code : option pystr;
  gj_error_detail_redacted : option json;
  gj_report_json : option json;
  gj_created_by_user_id : option Z;
  gj_started_at : option datetime;
  gj_finished_at : option datetime;
  gj_created_at : datetime;
  gj_updated_at : datetime
}.
Definition eta_RagEvaluationJobRow (r : RagEvaluationJobRow) : RagEvaluationJobRow :=
  mkRagEvaluationJobRow (gj_id r) (gj_dataset_id r) (gj_baseline_job_id r) (gj_status r)
    (gj_completed_cases r) (gj_total_cases r) (gj_gate_policy_json r) (gj_model_catalog_hash r)
    (gj_model_snapshot_json r) (gj_owner_worker_id r) (gj_lease_expires_at r) (gj_heartbeat_at r)
    (gj_fencing_token r) (gj_attempts r) (gj_max_attempts r) (gj_error_code r)
    (gj_error_detail_redacted r) (gj_report_json r) (gj_created_by_user_id r) (gj_started_at r)
    (gj_finished_at r) (gj_created_at r) (gj_updated_at r).
Definition set_gj_status : RagEvaluationJobStatus -> RagEvaluationJobRow -> RagEvaluationJobRow := ltac:(field_setter eta_RagEvaluationJobRow gj_status).
Definition set_gj_completed_cases : Z -> RagEvaluationJobRow -> RagEvaluationJobRow := ltac:(field_setter eta_RagEvaluationJobRow gj_completed_cases).
Definition set_gj_owner_worker_id : option pystr -> RagEvaluationJobRow -> RagEvaluationJobRow := ltac:(field_setter eta_RagEvaluationJobRow gj_owner_worker_id).
Definition set_gj_lease_expires_at : option datetime -> RagEvaluationJobRow -> RagEvaluationJobRow := ltac:(field_setter eta_RagEvaluationJobRow gj_lease_expires_at).
Definition set_gj_heartbeat_at : option datetime -> RagEvaluationJobRow -> RagEvaluationJobRow := ltac:(field_setter eta_RagEvaluationJobRow gj_heartbeat_at).
Definition set_gj_fencing_token : Z -> RagEvaluationJobRow -> RagEvaluationJobRow := ltac:(field_setter eta_RagEvaluationJobRow gj_fencing_token).
Definition set_gj_attempts : Z -> RagEvaluationJobRow -> RagEvaluationJobRow := ltac:(field_setter eta_RagEvaluationJobRow gj_attempts).
Definition set_gj_error_code : option pystr -> RagEvaluationJobRow -> RagEvaluationJobRow := ltac:(field_setter eta_RagEvaluationJobRow gj_error_code).
Definition set_gj_error_detail_redacted : option json -> RagEvaluationJobRow -> RagEvaluationJobRow := ltac:(field_setter eta_RagEvaluationJobRow gj_error_detail_redacted).
Definition set_gj_report_json : option json -> RagEvaluationJobRow -> RagEvaluationJobRow := ltac:(field_setter eta_RagEvaluationJobRow gj_report_json).
Definition set_gj_started_at : option datetime -> RagEvaluationJobRow -> RagEvaluationJobRow := ltac:(field_setter eta_RagEvaluationJobRow gj_started_at).
Definition set_gj_finished_at : option datetime -> RagEvaluationJobRow -> RagEvaluationJobRow := ltac:(field_setter eta_RagEvaluationJobRow gj_finished_at).
Definition set_gj_updated_at : datetime -> RagEvaluationJobRow -> RagEvaluationJobRow := ltac:(field_setter eta_RagEvaluationJobRow gj_updated_at).

Record RagEvaluationCaseRow := mkRagEvaluationCaseRow {
  gc_id : pystr;
  gc_job_id : pystr;
  gc_case_id : pystr;
  gc_position : Z;
  gc_status : RagEvaluationCaseStatus;
  gc_question : pystr;
  gc_generated_answer : option pystr;
  gc_judge_reason : option pystr;
  gc_observation_json : option json;
  gc_judge_json : option json;
  gc_metrics_json : list (pystr * option Q);
  gc_checks_json : list (pystr * option bool);
  gc_retrieved_identity_json : list json;
  gc_provider_error_code : option pystr;
  gc_provider_error_stage : option pystr;
  gc_duration_ms : option Z;
  gc_error_code : option pystr;
  gc_error_detail_redacted : option json;
  gc_started_at : option datetime;
  gc_finished_at : option datetime;
  gc_created_at : datetime;
  gc_updated_at : datetime
}.
Definition eta_RagEvaluationCaseRow (r : RagEvaluationCaseRow) : RagEvaluationCaseRow :=
  mkRagEvaluationCaseRow (gc_id r) (gc_job_id r) (gc_case_id r) (gc_position r) (gc_status r)
    (gc_question r) (gc_generated_answer r) (gc_judge_reason r) (gc_observation_json r)
    (gc_judge_json r) (gc_metrics_json r) (gc_checks_json r) (gc_retrieved_identity_json r)
    (gc_provider_error_code r) (gc_provider_error_stage r) (gc_duration_ms r) (gc_error_code r)
    (gc_error_detail_redacted r) (gc_started_at r) (gc_finished_at r) (gc_created_at r)
    (gc_updated_at r).
Definition set_gc_status : RagEvaluationCaseStatus -> RagEvaluationCaseRow -> RagEvaluationCaseRow := ltac:(field_setter eta_RagEvaluationCaseRow gc_status).
Definition set_gc_generated_answer : option pystr -> RagEvaluationCaseRow -> RagEvaluationCaseRow := ltac:(field_setter eta_RagEvaluationCaseRow gc_generated_answer).
Definition set_gc_judge_reason : option pystr -> RagEvaluationCaseRow -> RagEvaluationCaseRow := ltac:(field_setter eta_RagEvaluationCaseRow gc_judge_reason).
Definition set_gc_observation_json : option json -> RagEvaluationCaseRow -> RagEvaluationCaseRow := ltac:(field_setter eta_RagEvaluationCaseRow gc_observation_json).
Definition set_gc_judge_json : option json -> RagEvaluationCaseRow -> RagEvaluationCaseRow := ltac:(field_setter eta_RagEvaluationCaseRow gc_judge_json).
Definition set_gc_metrics_json : list (pystr * option Q) -> RagEvaluationCaseRow -> RagEvaluationCaseRow := ltac:(field_setter eta_RagEvaluationCaseRow gc_metrics_json).
Definition set_gc_checks_json : list (pystr * option bool) -> RagEvaluationCaseRow -> RagEvaluationCaseRow := ltac:(field_setter eta_RagEvaluationCaseRow gc_checks_json).
Definition set_gc_retrieved_identity_json : list json -> RagEvaluationCaseRow -> RagEvaluationCaseRow := ltac:(field_setter eta_RagEvaluationCaseRow gc_retrieved_identity_json).
Definition set_gc_provider_error_code : option pystr -> RagEvaluationCaseRow -> RagEvaluationCaseRow := ltac:(field_setter eta_RagEvaluationCaseRow gc_provider_error_code).
Definition set_gc_provider_error_stage : option pystr -> RagEvaluationCaseRow -> RagEvaluationCaseRow := ltac:(field_setter eta_RagEvaluationCaseRow gc_provider_error_stage).
Definition set_gc_duration_ms : option Z -> RagEvaluationCaseRow -> RagEvaluationCaseRow := ltac:(field_setter eta_RagEvaluationCaseRow gc_duration_ms).
Definition set_gc_error_code : option pystr -> RagEvaluationCaseRow -> RagEvaluationCaseRow := ltac:(field_setter eta_RagEvaluationCaseRow gc_error_code).
Definition set_gc_error_detail_redacted : option json -> RagEvaluationCaseRow -> RagEvaluationCaseRow := ltac:(field_setter eta_RagEvaluationCaseRow gc_error_detail_redacted).
Definition set_gc_started_at : option datetime -> RagEvaluationCaseRow -> RagEvaluationCaseRow := ltac:(field_setter eta_RagEvaluationCaseRow gc_started_at).
Definition set_gc_finished_at : option datetime -> RagEvaluationCaseRow -> RagEvaluationCaseRow := ltac:(field_setter eta_RagEvaluationCaseRow gc_finished_at).
Definition set_gc_updated_at : datetime -> RagEvaluationCaseRow -> RagEvaluationCaseRow := ltac:(field_setter eta_RagEvaluationCaseRow gc_updated_at).

Record EvalDb := mkEvalDb {
  g_users : gmap Z User;
  g_datasets : gmap pystr RagEvaluationDatasetRow;
  g_jobs : gmap pystr RagEvaluationJobRow;
  g_cases : gmap pystr RagEvaluationCaseRow;
  g_workers : gmap pystr WorkerHeartbeat
}.
Definition eta_EvalDb (r : EvalDb) : EvalDb :=
  mkEvalDb (g_users r) (g_datasets r) (g_jobs r) (g_cases r) (g_workers r).
Definition set_g_datasets : gmap pystr RagEvaluationDatasetRow -> EvalDb -> EvalDb := ltac:(field_setter eta_EvalDb g_datasets).
Definition set_g_jobs : gmap pystr RagEvaluationJobRow -> EvalDb -> EvalDb := ltac:(field_setter eta_EvalDb g_jobs).
Definition set_g_cases : gmap pystr RagEvaluationCaseRow -> EvalDb -> EvalDb := ltac:(field_setter eta_EvalDb g_cases).
Definition set_g_workers : gmap pystr WorkerHeartbeat -> EvalDb -> EvalDb := ltac:(field_setter eta_EvalDb g_workers).

(** [uq_rag_evaluation_dataset_fingerprint], [uq_rag_evaluation_case_job_case] *)
Definition idx_dataset_fingerprint (d : RagEvaluationDatasetRow) : option pystr := Some (gd_fingerprint d).
Definition idx_case_job (c : RagEvaluationCaseRow) : option (pystr * pystr) := Some (gc_job_id c, gc_case_id c).

(** [ck_rag_evaluation_jobs_progress], [ck_rag_evaluation_jobs_model_hash_length] and the
    foreign keys of a job and a case *)
Definition job_row_ok (db : EvalDb) (j : RagEvaluationJobRow) : bool :=
  (0 <=? gj_completed_cases j) && (1 <=? gj_total_cases j) && (gj_completed_cases j <=? gj_total_cases j)
  && (length (cps_of (gj_model_catalog_hash j)) =? 64)%nat
  && bool_decide (is_Some (g_datasets db !! gj_dataset_id j))
  && match gj_baseline_job_id j with Some b => bool_decide (is_Some (g_jobs db !! b)) | None => true end.
Definition case_row_ok (db : EvalDb) (c : RagEvaluationCaseRow) : bool := bool_decide (is_Some (g_jobs db !! gc_job_id c)).

Definition eval_constraints (db : EvalDb) : bool :=
  unique_index idx_dataset_fingerprint (g_datasets db)
  && unique_index idx_case_job (g_cases db)
  && forallb (job_row_ok db) (snd <$> map_to_list (g_jobs db))
  && forallb (case_row_ok db) (snd <$> map_to_list (g_cases db)).

#[export] Instance eval_store : Store EvalDb := eval_constraints.
Abbreviation EM := (Sess EvalDb).

(** Rows *)
Definition put_eval_job (j : RagEvaluationJobRow) (db : EvalDb) : EvalDb := set_g_jobs (<[gj_id j := j]> (g_jobs db)) db.
Definition put_case (c : RagEvaluationCaseRow) (db : EvalDb) : EvalDb := set_g_cases (<[gc_id c := c]> (g_cases db)) db.
Definition save_eval_job (j : RagEvaluationJobRow) : EM unit := modify_db (put_eval_job j).
Definition save_case (c : RagEvaluationCaseRow) : EM unit := modify_db (put_case c).

(** [query(...).filter(p).update(...)] on the cases *)
Definition update_cases (p : RagEvaluationCaseRow -> bool) (f : RagEvaluationCaseRow -> RagEvaluationCaseRow) : EM unit :=
  modify_db (fun db => set_g_cases ((fun c => if p c then f c else c) <$> g_cases db) db).

Definition job_cases (db : EvalDb) (job_id : pystr) : list RagEvaluationCaseRow :=
  order_by gc_position (rows_where (fun c => bool_decide (gc_job_id c = job_id)) (g_cases db)).
Definition find_case (db : EvalDb) (job_id case_id : pystr) : option RagEvaluationCaseRow :=
  first_where (fun c => bool_decide (gc_job_id c = job_id) && bool_decide (gc_case_id c = case_id)) (g_cases db).
Definition creator_name (db : EvalDb) (user_id : option Z) : option pystr := i ← user_id; u_username <$> g_users db !! i.

(** ** Errors *)

Definition eval_error (code : ErrorCode) (message : pystr) (status : Z) (stage : pystr) : exn :=
  EApp (app_error code message status false [] (Some "evaluation"%py) (Some stage)).
(** An [AppError] whose code is a text outside [ErrorCode]. *)
Definition eval_invalid (code : pystr) : exn := EClass "AppError"%py code.
Definition eval_job_missing : exn := eval_error NOT_FOUND "RAG Evaluation Job 不存在"%py 404 "job"%py.
Definition eval_dataset_missing : exn := eval_error NOT_FOUND "RAG 评估数据集不存在"%py 404 "dataset"%py.

(** ** Records *)

Record RagEvaluationDatasetRecord := mkRagEvaluationDatasetRecord {
  dsr_row : RagEvaluationDatasetRow;
  dsr_dataset : RagEvalDataset;
  dsr_created_by : option pystr
}.
Record RagEvaluationJobRecord := mkRagEvaluationJobRecord {
  jbr_row : RagEvaluationJobRow;
  jbr_dataset_name : pystr;
  jbr_dataset_fingerprint : pystr;
  jbr_gate_policy : json;
  jbr_model_snapshot : ModelCatalogSnapshot;
  jbr_error : option (list (pystr * json));
  jbr_report : option RagEvalReport;
  jbr_created_by : option pystr
}.
Record RagEvaluationCaseRecord := mkRagEvaluationCaseRecord {
  csr_row : RagEvaluationCaseRow;
  csr_observation : option RagEvalObservation;
  csr_error : option (list (pystr * json))
}.
Record ClaimedRagEvaluationJob := mkClaimedRagEvaluationJob {
  cl_job : RagEvaluationJobRecord;
  cl_dataset : RagEvaluationDatasetRecord;
  cl_cases : list RagEvaluationCaseRecord
}.

Section repository.
Context (env : EvalEnv).

Definition _user (username : pystr) : EM User :=
  db ← get_db;
  require (first_where (fun u => bool_decide (u_username u = username)) (g_users db))
    (EApp (app_error3 AUTHENTICATION_REQUIRED "用户不存在或已失效"%py 401)).

(** [_dataset_record]; the last check is the contract of the record. *)
Definition _dataset_record (row : RagEvaluationDatasetRow) (created_by : option pystr) : EM RagEvaluationDatasetRecord :=
  dataset ← require (ee_dataset env (gd_payload_json row)) (eval_invalid "RAG_EVALUATION_DATASET_INVALID"%py);
  raise_if (negb (bool_decide (ee_fingerprint env dataset = gd_fingerprint row))) (eval_invalid "RAG_EVALUATION_DATASET_INVALID"%py);;
  raise_if (negb (is_hex_digest (gd_fingerprint row) && (1 <=? gd_case_count row))) (EValue "RagEvaluationDatasetRecord"%py);;
  mret (mkRagEvaluationDatasetRecord row dataset created_by).

(** [Model.model_validate(column) if column is not None else None] *)
Definition optional_document {A} (validate : json -> option A) (column : option json) : option (option A) :=
  match column with None => Some None | Some doc => Some <$> validate doc end.

(** [_eval_job_record]; [None] for the data set is the row [db.get] did not find. *)
Definition _eval_job_record (row : RagEvaluationJobRow) (dataset : option RagEvaluationDatasetRow) (created_by : option pystr) :
    EM RagEvaluationJobRecord :=
  '(policy, snapshot, report) ← require (
      p ← ee_policy env (gj_gate_policy_json row); s ← ee_snapshot env (gj_model_snapshot_json row);
      r ← optional_document (ee_report env) (gj_report_json row); Some (p, s, r))
    (eval_invalid "RAG_EVALUATION_JOB_INVALID"%py);
  raise_if (negb (bool_decide (mcs_catalog_hash snapshot = gj_model_catalog_hash row))) (eval_invalid "RAG_EVALUATION_JOB_INVALID"%py);;
  d ← require dataset ENone;
  raise_if (negb (is_hex_digest (gd_fingerprint d) && is_hex_digest (gj_model_catalog_hash row) && (0 <=? gj_completed_cases row)
                  && (1 <=? gj_total_cases row) && (0 <=? gj_fencing_token row) && (0 <=? gj_attempts row) && (1 <=? gj_max_attempts row)))
    (EValue "RagEvaluationJobRecord"%py);;
  mret (mkRagEvaluationJobRecord row (gd_name d) (gd_fingerprint d) policy snapshot
          (contract <$> deserialize_public_error (gj_error_detail_redacted row)) report created_by).

Definition _case_record (row : RagEvaluationCaseRow) : EM RagEvaluationCaseRecord :=
  observation ← require (optional_document (ee_observation env) (gc_observation_json row))
    (eval_invalid "RAG_EVALUATION_CASE_INVALID"%py);
  raise_if (negb ((1 <=? gc_position row) && match gc_duration_ms row with Some d => 0 <=? d | None => true end))
    (EValue "RagEvaluationCaseRecord"%py);;
  mret (mkRagEvaluationCaseRecord row observation (contract <$> deserialize_public_error (gc_error_detail_redacted row))).

Fixpoint case_records (rows : list RagEvaluationCaseRow) : EM (list RagEvaluationCaseRecord) :=
  match rows with
  | [] => mret []
  | row :: rows => r ← _case_record row; rs ← case_records rows; mret (r :: rs)
  end.
Fixpoint dataset_records (db : EvalDb) (rows : list RagEvaluationDatasetRow) : EM (list RagEvaluationDatasetRecord) :=
  match rows with
  | [] => mret []
  | row :: rows =>
      r ← _dataset_record row (creator_name db (gd_created_by_user_id row)); rs ← dataset_records db rows; mret (r :: rs)
  end.

(** The record of a job row with its data set and creator. *)
Definition job_record (db : EvalDb) (row : RagEvaluationJobRow) : EM RagEvaluationJobRecord :=
  _eval_job_record row (g_datasets db !! gj_dataset_id row) (creator_name db (gj_created_by_user_id row)).
Fixpoint job_records (db : EvalDb) (rows : list RagEvaluationJobRow) : EM (list RagEvaluationJobRecord) :=
  match rows with
  | [] => mret []
  | row :: rows => r ← job_record db row; rs ← job_records db rows; mret (r :: rs)
  end.

(** ** Data sets *)

Definition create_dataset (username : pystr) (dataset : RagEvalDataset) : EM RagEvaluationDatasetRecord :=
  let fingerprint := ee_fingerprint env dataset in
  transaction (
    user ← _user username;
    db ← get_db;
    match first_where (fun d => bool_decide (gd_fingerprint d = fingerprint)) (g_datasets db) with
    | Some existing => _dataset_record existing (creator_name db (gd_created_by_user_id existing))
    | None =>
        now ← utcnow;
        hex ← uuid4_hex;
        let row := mkRagEvaluationDatasetRow ("rag_dataset_"%py +++ hex)%py (rd_name dataset) fingerprint (ee_dump_dataset env dataset)
                     (Z.of_nat (length (rd_cases dataset))) (Some (u_id user)) now now in
        raise_if (bool_decide (is_Some (g_datasets db !! gd_id row))) EIntegrity;;
        modify_db (fun db => set_g_datasets (<[gd_id row := row]> (g_datasets db)) db);;
        flush;;
        _dataset_record row (Some (u_username user))
    end).

(** [max(1, min(limit, 500))] *)
Definition page_limit (limit : Z) : nat := Z.to_nat (Z.max 1 (Z.min limit 500)).

Definition list_datasets (limit : Z) : EM (list RagEvaluationDatasetRecord) :=
  db ← get_db;
  dataset_records db (take (page_limit limit) (order_by (fun d => - gd_created_at d) (rows_where (fun _ => true) (g_datasets db)))).

Definition get_dataset (dataset_id : pystr) : EM RagEvaluationDatasetRecord :=
  db ← get_db;
  row ← require (g_datasets db !! dataset_id) eval_dataset_missing;
  _dataset_record row (creator_name db (gd_created_by_user_id row)).

(** ** Creating and reading jobs *)

Definition new_case (job_id : pystr) (now : datetime) (hex : pystr) (position : Z) (case : RagEvalCase) : RagEvaluationCaseRow :=
  mkRagEvaluationCaseRow ("rag_case_"%py +++ hex)%py job_id (rc_id case) position K_QUEUED (rc_question case)
    None None None None [] [] [] None None None None None None None now now.

Fixpoint add_cases (job_id : pystr) (now : datetime) (position : Z) (cases : list RagEvalCase) : EM unit :=
  match cases with
  | [] => mret tt
  | case :: cases =>
      hex ← uuid4_hex;
      let row := new_case job_id now hex position case in
      db ← get_db;
      raise_if (bool_decide (is_Some (g_cases db !! gc_id row))) EIntegrity;;
      save_case row;;
      add_cases job_id now (position + 1) cases
  end.

Definition baseline_conflict : exn := eval_error CONFLICT "Baseline 必须是同一数据集的成功 Evaluation Job"%py 409 "baseline"%py.

Definition check_baseline (dataset : RagEvaluationDatasetRow) (baseline_job_id : option pystr) : EM unit :=
  match baseline_job_id with
  | None => mret tt
  | Some id =>
      db ← get_db;
      baseline ← require (g_jobs db !! id) (eval_error NOT_FOUND "Baseline Evaluation Job 不存在"%py 404 "baseline"%py);
      raise_if (negb (bool_decide (gj_dataset_id baseline = gd_id dataset)) || negb (bool_decide (gj_status baseline = G_SUCCEEDED))
                || bool_decide (gj_report_json baseline = None)) baseline_conflict
  end.

Definition new_eval_job (hex : pystr) (dataset : RagEvaluationDatasetRow) (baseline_job_id : option pystr) (total : Z) (gate_policy : json)
    (model_snapshot : ModelCatalogSnapshot) (max_attempts : Z) (user : User) (now : datetime) : RagEvaluationJobRow :=
  mkRagEvaluationJobRow ("rag_eval_"%py +++ hex)%py (gd_id dataset) baseline_job_id G_QUEUED 0 total gate_policy
    (mcs_catalog_hash model_snapshot) (snapshot_dump model_snapshot) None None None 0 0 (Z.max 1 max_attempts) None None None
    (Some (u_id user)) None None now now.

Definition create_job (username dataset_id : pystr) (gate_policy : json) (model_snapshot : ModelCatalogSnapshot)
    (baseline_job_id : option pystr) (max_attempts : Z) : EM RagEvaluationJobRecord :=
  transaction (
    user ← _user username;
    db ← get_db;
    dataset ← require (g_datasets db !! dataset_id) eval_dataset_missing;
    check_baseline dataset baseline_job_id;;
    validated ← require (ee_dataset env (gd_payload_json dataset)) (EValue "RagEvalDataset"%py);
    now ← utcnow;
    hex ← uuid4_hex;
    let job := new_eval_job hex dataset baseline_job_id (Z.of_nat (length (rd_cases validated))) gate_policy model_snapshot
                 max_attempts user now in
    raise_if (bool_decide (is_Some (g_jobs db !! gj_id job))) EIntegrity;;
    save_eval_job job;;
    flush;;
    add_cases (gj_id job) now 1 (rd_cases validated);;
    flush;;
    _eval_job_record job (Some dataset) (Some (u_username user))).

(** [list_eval_jobs]; the query joins the data set. *)
Definition list_eval_jobs (status : option RagEvaluationJobStatus) (limit : Z) : EM (list RagEvaluationJobRecord) :=
  db ← get_db;
  job_records db (take (page_limit limit) (order_by (fun j => - gj_created_at j)
    (rows_where (fun j => bool_decide (is_Some (g_datasets db !! gj_dataset_id j))
                          && match status with Some s => bool_decide (gj_status j = s) | None => true end) (g_jobs db)))).

Definition get_eval_job (job_id : pystr) : EM RagEvaluationJobRecord :=
  db ← get_db;
  row ← require (j ← g_jobs db !! job_id; g_datasets db !! gj_dataset_id j ≫= fun _ => Some j) eval_job_missing;
  job_record db row.

Definition list_cases (job_id : pystr) : EM (list RagEvaluationCaseRecord) :=
  db ← get_db;
  require (g_jobs db !! job_id) eval_job_missing;;
  case_records (job_cases db job_id).

(** ** Ownership *)

Definition job_live (s : RagEvaluationJobStatus) : bool := match s with G_RUNNING | G_CANCELLING => true | _ => false end.
Definition case_open (s : RagEvaluationCaseStatus) : bool := match s with K_QUEUED | K_RUNNING => true | _ => false end.

Definition _assert_owner (job_id worker_id : pystr) (fencing_token : Z) : EM RagEvaluationJobRow :=
  db ← get_db;
  job ← require (g_jobs db !! job_id) eval_job_missing;
  raise_if (negb (bool_decide (gj_owner_worker_id job = Some worker_id)) || negb (gj_fencing_token job =? fencing_token)
            || negb (job_live (gj_status job)))
    (eval_error CONFLICT "当前 worker 不再拥有该 RAG Evaluation Job"%py 409 "ownership"%py);;
  mret job.

(** [_cancel_locked]: the row as it ends, and the open cases of the job. *)
Definition closed_case (s : RagEvaluationCaseStatus) (now : datetime) (c : RagEvaluationCaseRow) : RagEvaluationCaseRow :=
  set_gc_updated_at now (set_gc_finished_at (Some now) (set_gc_status s c)).
Definition of_job (job_id : pystr) (p : RagEvaluationCaseStatus -> bool) (c : RagEvaluationCaseRow) : bool :=
  bool_decide (gc_job_id c = job_id) && p (gc_status c).
Definition ended_job (s : RagEvaluationJobStatus) (now : datetime) (j : RagEvaluationJobRow) : RagEvaluationJobRow :=
  set_gj_updated_at now (set_gj_lease_expires_at None (set_gj_owner_worker_id None (set_gj_finished_at (Some now) (set_gj_status s j)))).

Definition _cancel_locked (job : RagEvaluationJobRow) : EM RagEvaluationJobRow :=
  now ← utcnow;
  let job := ended_job G_CANCELLED now job in
  save_eval_job job;;
  update_cases (of_job (gj_id job) case_open) (closed_case K_CANCELLED now);;
  mret job.

Definition cancel (job_id : pystr) : EM RagEvaluationJobRecord :=
  transaction (
    db ← get_db;
    job ← require (g_jobs db !! job_id) eval_job_missing;
    job ← (match gj_status job with
           | G_QUEUED => _cancel_locked job
           | G_RUNNING =>
               now ← utcnow;
               let job := set_gj_updated_at now (set_gj_status G_CANCELLING job) in
               save_eval_job job;;
               mret job
           | _ => mret job
           end);
    job_record db job).

(** ** Recovery *)

Definition lease_over (current : datetime) (j : RagEvaluationJobRow) : bool :=
  job_live (gj_status j) && match gj_lease_expires_at j with Some l => l <=? current | None => false end.

(** [{item.case_id: item for item in report.cases}.get(case_id)] *)
Definition scored (report : RagEvalReport) (case_id : pystr) : option RagEvalCaseResult :=
  last (List.filter (fun r => bool_decide (rs_case_id r = case_id)) (rp_cases report)).
Definition score_case (report : RagEvalReport) (now : datetime) (c : RagEvaluationCaseRow) : RagEvaluationCaseRow :=
  match scored report (gc_case_id c) with
  | Some r => set_gc_updated_at now (set_gc_checks_json (rs_checks r) (set_gc_metrics_json (rs_metrics r) c))
  | None => c
  end.
Definition score_cases (job_id : pystr) (report : RagEvalReport) (now : datetime) : EM unit :=
  update_cases (of_job job_id (fun _ => true)) (score_case report now).

Definition orphan_metadata (job : RagEvaluationJobRow) (completed : Z) : json :=
  JObj [("adapter"%py, JStr "persistent_rag_evaluation_worker"%py); ("provenance"%py, JStr "live_rag"%py); ("job_id"%py, JStr (gj_id job));
        ("model_catalog_hash"%py, JStr (gj_model_catalog_hash job)); ("completed_case_count"%py, JInt completed);
        ("failure"%py, JObj [("code"%py, JStr "RAG_EVALUATION_ORPHANED"%py); ("stage"%py, JStr "lease_recovery"%py)])].

Definition _orphaned_partial_report (job : RagEvaluationJobRow) (dataset : RagEvaluationDatasetRow) (cases : list RagEvaluationCaseRow) :
    outcome RagEvalReport :=
  match ee_dataset env (gd_payload_json dataset), ee_policy env (gj_gate_policy_json job),
        mapM (ee_observation env) (omap gc_observation_json cases) with
  | Some parsed, Some policy, Some observations =>
      ee_partial env parsed (gd_fingerprint dataset) observations policy
        (orphan_metadata job (Z.of_nat (length observations)))
  | _, _, _ => Raise (EValue "ValidationError"%py)
  end.

(** A job that may not be tried again. *)
Definition orphan_job (current : datetime) (db : EvalDb) (job : RagEvaluationJobRow) : EM unit :=
  job ← (match g_datasets db !! gj_dataset_id job with
         | None => mret job
         | Some dataset =>
             match _orphaned_partial_report job dataset (job_cases db (gj_id job)) with
             | Raise _ => mret job
             | Ret report => score_cases (gj_id job) report current;; mret (set_gj_report_json (Some (ee_dump_report env report)) job)
             end
         end);
  save_eval_job (set_gj_error_detail_redacted None (set_gj_error_code (Some "RAG_EVALUATION_ORPHANED"%py) (ended_job G_FAILED current job)));;
  update_cases (of_job (gj_id job) case_open)
    (fun c => set_gc_error_code (Some "RAG_EVALUATION_ORPHANED"%py) (closed_case K_FAILED current c)).

Definition is_running (s : RagEvaluationCaseStatus) : bool := bool_decide (s = K_RUNNING).
Definition requeue_job (current : datetime) (job : RagEvaluationJobRow) : EM unit :=
  save_eval_job (set_gj_updated_at current (set_gj_heartbeat_at None (set_gj_lease_expires_at None
    (set_gj_owner_worker_id None (set_gj_status G_QUEUED job)))));;
  update_cases (of_job (gj_id job) is_running)
    (fun c => set_gc_updated_at current (set_gc_started_at None (set_gc_status K_QUEUED c))).

Definition recover_job (current : datetime) (job : RagEvaluationJobRow) : EM unit :=
  if bool_decide (gj_status job = G_CANCELLING) then _cancel_locked job;; mret tt
  else if gj_max_attempts job <=? gj_attempts job then db ← get_db; orphan_job current db job
  else requeue_job current job.

Fixpoint recover_jobs (current : datetime) (jobs : list RagEvaluationJobRow) : EM (list pystr) :=
  match jobs with
  | [] => mret []
  | job :: jobs => recover_job current job;; ids ← recover_jobs current jobs; mret (gj_id job :: ids)
  end.

Definition reconcile_expired (now : option datetime) : EM (list pystr) :=
  current ← (match now with Some t => mret t | None => utcnow end);
  transaction (
    db ← get_db;
    recover_jobs current (rows_where (lease_over current) (g_jobs db))).

(** ** Claims *)

Definition lease_until (now : datetime) (lease_seconds : Z) : datetime := now + Z.max 10 lease_seconds * 1000000.

Definition claimed_row (worker_id : pystr) (lease_seconds : Z) (now : datetime) (j : RagEvaluationJobRow) : RagEvaluationJobRow :=
  set_gj_updated_at now (set_gj_started_at (Some (default now (gj_started_at j))) (set_gj_attempts (gj_attempts j + 1)
    (set_gj_fencing_token (gj_fencing_token j + 1) (set_gj_heartbeat_at (Some now)
      (set_gj_lease_expires_at (Some (lease_until now lease_seconds)) (set_gj_owner_worker_id (Some worker_id)
        (set_gj_status G_RUNNING j))))))).

(** The oldest queued job no other transaction has locked. *)
Definition next_eval_job (locked : pystr -> bool) (db : EvalDb) : option RagEvaluationJobRow :=
  head (order_by gj_created_at (rows_where (fun j => bool_decide (gj_status j = G_QUEUED) && negb (locked (gj_id j))) (g_jobs db))).

Definition claim_eval_job (locked : pystr -> bool) (worker_id : pystr) (lease_seconds : Z) : EM (option ClaimedRagEvaluationJob) :=
  transaction (
    db ← get_db;
    match next_eval_job locked db with
    | None => mret None
    | Some job =>
        now ← utcnow;
        let job := claimed_row worker_id lease_seconds now job in
        save_eval_job job;;
        dataset ← require (g_datasets db !! gj_dataset_id job) ENone;
        record ← job_record db job;
        dataset_record ← _dataset_record dataset (creator_name db (gd_created_by_user_id dataset));
        cases ← case_records (job_cases db (gj_id job));
        mret (Some (mkClaimedRagEvaluationJob record dataset_record cases))
    end).

Definition claim_next (locked : pystr -> bool) (worker_id : pystr) (lease_seconds : Z) : EM (option ClaimedRagEvaluationJob) :=
  reconcile_expired None;;
  claim_eval_job locked worker_id lease_seconds.

Definition eval_heartbeat (job_id worker_id : pystr) (fencing_token lease_seconds : Z) : EM unit :=
  transaction (
    job ← _assert_owner job_id worker_id fencing_token;
    now ← utcnow;
    save_eval_job (set_gj_updated_at now (set_gj_lease_expires_at (Some (lease_until now lease_seconds)) (set_gj_heartbeat_at (Some now) job)))).

Definition next_case (db : EvalDb) (job_id : pystr) : option RagEvaluationCaseRow :=
  head (order_by gc_position (rows_where (of_job job_id (fun s => bool_decide (s = K_QUEUED))) (g_cases db))).

Definition claim_case (job_id worker_id : pystr) (fencing_token : Z) : EM (option RagEvaluationCaseRecord) :=
  transaction (
    job ← _assert_owner job_id worker_id fencing_token;
    if bool_decide (gj_status job = G_CANCELLING) then mret None
    else
      db ← get_db;
      match next_case db job_id with
      | None => mret None
      | Some case =>
          now ← utcnow;
          let case := set_gc_updated_at now (set_gc_started_at (Some now) (set_gc_status K_RUNNING case)) in
          save_case case;;
          r ← _case_record case;
          mret (Some r)
      end).

(** ** Results *)

Record CaseExecution := mkCaseExecution {
  cx_observation : RagEvalObservation;
  cx_generated_answer : pystr;
  cx_judge_reason : option pystr;
  cx_judge : option json;
  cx_retrieved_identities : list json;
  cx_duration_ms : Z
}.

Definition completed_case (x : CaseExecution) (now : datetime) (c : RagEvaluationCaseRow) : RagEvaluationCaseRow :=
  set_gc_updated_at now (set_gc_finished_at (Some now) (set_gc_duration_ms (Some (Z.max (cx_duration_ms x) 0))
    (set_gc_provider_error_stage (ro_provider_error_stage (cx_observation x))
      (set_gc_provider_error_code (ro_provider_error_code (cx_observation x))
        (set_gc_retrieved_identity_json (cx_retrieved_identities x) (set_gc_judge_json (cx_judge x)
          (set_gc_observation_json (Some (ee_dump_observation env (cx_observation x)))
            (set_gc_judge_reason (cx_judge_reason x) (set_gc_generated_answer (Some (cx_generated_answer x))
              (set_gc_status K_COMPLETED c)))))))))).

Definition complete_case (job_id case_id worker_id : pystr) (fencing_token : Z) (x : CaseExecution) : EM unit :=
  transaction (
    job ← _assert_owner job_id worker_id fencing_token;
    db ← get_db;
    case ← require (find_case db job_id case_id) (eval_error NOT_FOUND "RAG Evaluation Case 不存在"%py 404 "case"%py);
    if bool_decide (gc_status case = K_COMPLETED) then mret tt
    else
      raise_if (negb (is_running (gc_status case))) (eval_error CONFLICT "RAG Evaluation Case 当前不可完成"%py 409 "case"%py);;
      now ← utcnow;
      save_case (completed_case x now case);;
      save_eval_job (set_gj_updated_at now (set_gj_completed_cases (gj_completed_cases job + 1) job))).

Definition failed_case (error_code : pystr) (detail : json) (now : datetime) (c : RagEvaluationCaseRow) : RagEvaluationCaseRow :=
  set_gc_error_detail_redacted (Some detail) (set_gc_error_code (Some error_code) (closed_case K_FAILED now c)).

(** The case that failed, and those that were not started. *)
Definition fail_cases (job_id error_code : pystr) (detail : json) (case_id : option pystr) (now : datetime) : EM unit :=
  db ← get_db;
  (match case_id ≫= find_case db job_id with
   | Some case => save_case (failed_case error_code detail now case)
   | None => mret tt
   end);;
  update_cases (of_job job_id (fun s => bool_decide (s = K_QUEUED))) (closed_case K_CANCELLED now).

(** [fail_job] once the ownership is checked. *)
Definition fail_owned (job_id error_code : pystr) (detail : json) (case_id : option pystr) (report : option RagEvalReport)
    (job : RagEvaluationJobRow) : EM unit :=
  now ← utcnow;
  let job := set_gj_error_detail_redacted (Some detail) (set_gj_error_code (Some error_code) (ended_job G_FAILED now job)) in
  job ← (match report with
         | None => mret job
         | Some r => score_cases job_id r now;; mret (set_gj_report_json (Some (ee_dump_report env r)) job)
         end);
  save_eval_job job;;
  fail_cases job_id error_code detail case_id now.
Definition fail_job (job_id worker_id : pystr) (fencing_token : Z) (error_code : pystr) (detail : json) (case_id : option pystr)
    (report : option RagEvalReport) : EM unit :=
  transaction (
    job ← _assert_owner job_id worker_id fencing_token;
    fail_owned job_id error_code detail case_id report job).

Definition finish_job (job_id worker_id : pystr) (fencing_token : Z) (report : RagEvalReport) : EM unit :=
  transaction (
    job ← _assert_owner job_id worker_id fencing_token;
    raise_if (negb (gj_completed_cases job =? gj_total_cases job))
      (eval_error CONFLICT "RAG Evaluation Job 尚未完成全部 Case"%py 409 "finalize"%py);;
    db ← get_db;
    raise_if (negb (bool_decide (list_to_set (C := gset pystr) (rs_case_id <$> rp_cases report)
                                 = list_to_set (gc_case_id <$> job_cases db job_id))))
      (eval_error CONFLICT "RAG Evaluation Report 未覆盖全部 Case"%py 409 "finalize"%py);;
    now ← utcnow;
    score_cases job_id report now;;
    save_eval_job (set_gj_error_detail_redacted None (set_gj_error_code None
      (set_gj_report_json (Some (ee_dump_report env report)) (ended_job G_SUCCEEDED now job))))).

Definition observations (job_id : pystr) : EM (list RagEvalObservation) :=
  cases ← list_cases job_id;
  let found := omap csr_observation cases in
  raise_if (negb (length found =? length cases)%nat)
    (eval_error CONFLICT "RAG Evaluation Job 仍有 Case 缺少 Observation"%py 409 "finalize"%py);;
  mret found.

Definition baseline_report (job_id : option pystr) : EM (option RagEvalReport) :=
  match job_id with
  | None => mret None
  | Some id =>
      job ← get_eval_job id;
      match gj_status (jbr_row job), jbr_report job with
      | G_SUCCEEDED, Some report => mret (Some report)
      | _, _ => raise (eval_error CONFLICT "Baseline Evaluation Job 尚未成功完成"%py 409 "baseline"%py)
      end
  end.

Definition cancel_requested (job_id : pystr) : EM bool :=
  db ← get_db;
  mret (match gj_status <$> g_jobs db !! job_id with Some G_CANCELLING | Some G_CANCELLED => true | _ => false end).

Definition finish_cancelled (job_id worker_id : pystr) (fencing_token : Z) : EM unit :=
  transaction (
    job ← _assert_owner job_id worker_id fencing_token;
    _cancel_locked job;;
    mret tt).

(** [worker_heartbeat]; a status outside the enumeration violates the check of the table. *)
Definition worker_heartbeat (worker_id status : pystr) (metadata : list (pystr * json)) : EM unit :=
  transaction (
    now ← utcnow;
    db ← get_db;
    state ← require (parse_worker_status status) EIntegrity;
    let stopped_at := if bool_decide (state = W_STOPPED) then Some now else None in
    let row := match g_workers db !! worker_id with
               | None => mkWorkerHeartbeat worker_id "rag_evaluation"%py state now now stopped_at metadata now now
               | Some row =>
                   set_wh_updated_at now (set_wh_metadata_json metadata (set_wh_stopped_at stopped_at (set_wh_heartbeat_at now
                     (set_wh_status state row))))
               end in
    modify_db (fun db => set_g_workers (<[worker_id := row]> (g_workers db)) db)).
End repository.
