(* ===== verification/EvaluationMoves.v ===== *)
(** * The moves of an evaluation job

    The abstract machine of a job and its cases, and the proof that every operation of
    the repository makes such moves. *)

From S2P Require Import Prelude PyBase Errors RunState Session Schema Effects RunRepo CatalogSchema Evaluation.
From Stdlib Require Import QArith.

Open Scope Z_scope.

(** ** The machine *)

(** A change of the cases that satisfy [p]. *)
Definition on_cases (p : RagEvaluationCaseRow -> bool) (f : RagEvaluationCaseRow -> RagEvaluationCaseRow) (c : RagEvaluationCaseRow) :
    RagEvaluationCaseRow := if p c then f c else c.
Definition with_id (c : RagEvaluationCaseRow) (x : RagEvaluationCaseRow) : bool := bool_decide (gc_id x = gc_id c).

(** The tables after a job row and its cases have changed. *)
Definition touch (j : RagEvaluationJobRow) (f : RagEvaluationCaseRow -> RagEvaluationCaseRow) (db : EvalDb) : EvalDb :=
  set_g_cases (f <$> g_cases db) (put_eval_job j db).

(** Scores change metrics and checks only. *)
Definition same_but_scores (c c' : RagEvaluationCaseRow) : Prop :=
  gc_id c' = gc_id c /\ gc_job_id c' = gc_job_id c /\ gc_case_id c' = gc_case_id c /\ gc_status c' = gc_status c
  /\ gc_observation_json c' = gc_observation_json c.

Definition report_of (job_id : pystr) (report : option RagEvalReport) (now : datetime) : RagEvaluationCaseRow -> RagEvaluationCaseRow :=
  match report with Some r => on_cases (of_job job_id (fun _ => true)) (score_case r now) | None => fun c => c end.

Section machine.
Context (env : EvalEnv).

Definition reported (report : option RagEvalReport) (j : RagEvaluationJobRow) : RagEvaluationJobRow :=
  match report with Some r => set_gj_report_json (Some (ee_dump_report env r)) j | None => j end.

(** The moves of a job [j] of [db]: its next row and the change of its cases. *)
Inductive job_move (db : EvalDb) (j : RagEvaluationJobRow) :
    RagEvaluationJobRow -> (RagEvaluationCaseRow -> RagEvaluationCaseRow) -> Prop :=
  | mv_mark now : gj_status j = G_RUNNING ->
      job_move db j (set_gj_updated_at now (set_gj_status G_CANCELLING j)) (fun c => c)
  | mv_cancel now : gj_status j = G_QUEUED \/ job_live (gj_status j) = true ->
      job_move db j (ended_job G_CANCELLED now j) (on_cases (of_job (gj_id j) case_open) (closed_case K_CANCELLED now))
  | mv_requeue now : gj_status j = G_RUNNING -> gj_attempts j < gj_max_attempts j ->
      job_move db j
        (set_gj_updated_at now (set_gj_heartbeat_at None (set_gj_lease_expires_at None (set_gj_owner_worker_id None (set_gj_status G_QUEUED j)))))
        (on_cases (of_job (gj_id j) is_running) (fun c => set_gc_updated_at now (set_gc_started_at None (set_gc_status K_QUEUED c))))
  | mv_orphan now report : gj_status j = G_RUNNING -> gj_max_attempts j <= gj_attempts j ->
      job_move db j
        (set_gj_error_detail_redacted None (set_gj_error_code (Some "RAG_EVALUATION_ORPHANED"%py) (ended_job G_FAILED now (reported report j))))
        (fun c => on_cases (of_job (gj_id j) case_open) (fun c => set_gc_error_code (Some "RAG_EVALUATION_ORPHANED"%py) (closed_case K_FAILED now c))
                    (report_of (gj_id j) report now c))
  | mv_claim worker lease now : gj_status j = G_QUEUED -> job_move db j (claimed_row worker lease now j) (fun c => c)
  | mv_beat lease now : job_live (gj_status j) = true ->
      job_move db j (set_gj_updated_at now (set_gj_lease_expires_at (Some (lease_until now lease)) (set_gj_heartbeat_at (Some now) j))) (fun c => c)
  | mv_claim_case now case : gj_status j = G_RUNNING -> g_cases db !! gc_id case = Some case ->
      gc_job_id case = gj_id j -> gc_status case = K_QUEUED ->
      job_move db j j (on_cases (with_id case) (fun c => set_gc_updated_at now (set_gc_started_at (Some now) (set_gc_status K_RUNNING c))))
  | mv_complete x now case : job_live (gj_status j) = true -> g_cases db !! gc_id case = Some case ->
      gc_job_id case = gj_id j -> gc_status case = K_RUNNING ->
      job_move db j (set_gj_updated_at now (set_gj_completed_cases (gj_completed_cases j + 1) j)) (on_cases (with_id case) (completed_case env x now))
  | mv_fail code detail now hit report : job_live (gj_status j) = true ->
      (forall c, hit c = true -> gc_job_id c = gj_id j) ->
      job_move db j
        (reported report (set_gj_error_detail_redacted (Some detail) (set_gj_error_code (Some code) (ended_job G_FAILED now j))))
        (fun c => on_cases (of_job (gj_id j) (fun s => bool_decide (s = K_QUEUED))) (closed_case K_CANCELLED now)
                    (on_cases hit (failed_case code detail now) (report_of (gj_id j) report now c)))
  | mv_finish report now : job_live (gj_status j) = true -> gj_completed_cases j = gj_total_cases j ->
      (forall i c, g_cases db !! i = Some c -> gc_job_id c = gj_id j -> is_Some (scored report (gc_case_id c))) ->
      job_move db j
        (set_gj_error_detail_redacted None (set_gj_error_code None (set_gj_report_json (Some (ee_dump_report env report)) (ended_job G_SUCCEEDED now j))))
        (on_cases (of_job (gj_id j) (fun _ => true)) (score_case report now)).

(** A new job with its cases, all queued. *)
Definition fresh_job (db : EvalDb) (j : RagEvaluationJobRow) (rows : list RagEvaluationCaseRow) : Prop :=
  g_jobs db !! gj_id j = None /\ gj_status j = G_QUEUED /\ gj_completed_cases j = 0 /\ gj_total_cases j = Z.of_nat (length rows)
  /\ gj_owner_worker_id j = None /\ gj_lease_expires_at j = None /\ gj_fencing_token j = 0 /\ gj_attempts j = 0 /\ 1 <= gj_max_attempts j
  /\ gj_report_json j = None
  /\ Forall (fun c => gc_job_id c = gj_id j /\ gc_status c = K_QUEUED /\ g_cases db !! gc_id c = None) rows /\ NoDup (gc_id <$> rows).

Definition add_rows (rows : list RagEvaluationCaseRow) (m : gmap pystr RagEvaluationCaseRow) : gmap pystr RagEvaluationCaseRow :=
  foldl (fun m c => <[gc_id c := c]> m) m rows.

Inductive eval_move (db : EvalDb) : EvalDb -> Prop :=
  | move_job j j' f : g_jobs db !! gj_id j = Some j -> job_move db j j' f -> eval_move db (touch j' f db)
  | move_create j rows : fresh_job db j rows -> eval_move db (set_g_cases (add_rows rows (g_cases db)) (put_eval_job j db))
  | move_other db' : g_jobs db' = g_jobs db -> g_cases db' = g_cases db -> eval_move db db'.

(** ** Operations make moves *)

(** Rows are stored under their keys. *)
Record keyed (db : EvalDb) : Prop := mkKeyed {
  ky_jobs : forall i j, g_jobs db !! i = Some j -> gj_id j = i;
  ky_cases : forall i c, g_cases db !! i = Some c -> gc_id c = i
}.

Lemma on_cases_id p f c : (forall c, gc_id (f c) = gc_id c) -> gc_id (on_cases p f c) = gc_id c.
Proof. intros H. unfold on_cases. by destruct (p c). Qed.
Lemma score_case_same r now c : same_but_scores c (score_case r now c).
Proof. unfold score_case. by destruct (scored r (gc_case_id c)). Qed.
Lemma report_of_same job_id report now c : same_but_scores c (report_of job_id report now c).
Proof. destruct report; simpl; [|done]. unfold on_cases. destruct (of_job _ _ c); [apply score_case_same|done]. Qed.

Lemma job_move_keys db j j' f : job_move db j j' f -> gj_id j' = gj_id j /\ forall c, gc_id (f c) = gc_id c.
Proof.
  intros M. destruct M; (split; [first [done|by destruct report]|intros c0]); try done;
    rewrite ?on_cases_id; try done; try apply report_of_same; intros c1; apply score_case_same.
Qed.

Lemma touch_keyed db j f j0 : keyed db -> g_jobs db !! gj_id j = Some j0 -> (forall c, gc_id (f c) = gc_id c) -> keyed (touch j f db).
Proof.
  intros [K1 K2] H F. constructor; simpl; intros i x Hx.
  - rewrite lookup_insert in Hx. case_decide; [by simplify_eq|by apply K1].
  - apply lookup_fmap_Some in Hx as (c & <- & Hc). rewrite F. by apply K2.
Qed.

Lemma add_rows_lookup rows m i c : add_rows rows m !! i = Some c -> m !! i = Some c \/ (c ∈ rows /\ gc_id c = i).
Proof.
  revert m. induction rows as [|r rows IH]; intros m H; [by left|]. simpl in H. apply IH in H as [H|[H E]].
  - rewrite lookup_insert in H. case_decide; [simplify_eq; right; split; [by left|done]|by left].
  - right. split; [by right|done].
Qed.

Lemma move_keyed db db' : keyed db -> eval_move db db' -> keyed db'.
Proof.
  intros K M. destruct M as [j j' f H M|j rows F|db' E1 E2].
  - destruct (job_move_keys _ _ _ _ M) as [I F]. eapply touch_keyed; [done|by rewrite I|done].
  - destruct K as [K1 K2]. constructor; simpl; intros i x Hx.
    + rewrite lookup_insert in Hx. case_decide; [by simplify_eq|by apply K1].
    + apply add_rows_lookup in Hx as [Hx|[_ Hx]]; [by apply K2|done].
  - destruct K as [K1 K2]. by constructor; rewrite ?E1, ?E2.
Qed.

Lemma moves_keyed db db' : keyed db -> rtc eval_move db db' -> keyed db'.
Proof. intros K M. induction M; [done|]. apply IHM. by eapply move_keyed. Qed.

(** A row written over its old self is a change of that row. *)
Lemma insert_on_cases (m : gmap pystr RagEvaluationCaseRow) i c g p :
  m !! i = Some c -> (forall k x, m !! k = Some x -> p x = bool_decide (k = i)) -> <[i := g c]> m = on_cases p g <$> m.
Proof.
  intros H P. apply map_eq. intros k. rewrite lookup_fmap, lookup_insert. case_decide as E.
  - subst. rewrite H. simpl. unfold on_cases. by rewrite (P _ _ H), bool_decide_eq_true_2.
  - destruct (m !! k) as [x|] eqn:X; [|done]. simpl. unfold on_cases. rewrite (P _ _ X), bool_decide_eq_false_2; done.
Qed.

Lemma with_id_key db i c k x : keyed db -> g_cases db !! i = Some c -> g_cases db !! k = Some x -> with_id c x = bool_decide (k = i).
Proof. intros K H X. unfold with_id. apply bool_decide_ext. by rewrite (ky_cases _ K _ _ H), (ky_cases _ K _ _ X). Qed.

Lemma touch_id j db : touch j (fun c => c) db = put_eval_job j db.
Proof. unfold touch. by rewrite map_fmap_id; destruct db. Qed.
Lemma touch_same j f db : g_jobs db !! gj_id j = Some j -> touch j f db = set_g_cases (f <$> g_cases db) db.
Proof. intros H. unfold touch, put_eval_job. rewrite insert_id by done. by destruct db. Qed.

Lemma assert_owner_inv job_id worker token w j w' : _assert_owner job_id worker token w = (Ret j, w') ->
  w' = w /\ g_jobs (w_db w) !! job_id = Some j /\ gj_owner_worker_id j = Some worker /\ gj_fencing_token j = token /\ job_live (gj_status j) = true.
Proof. unfold _assert_owner. intros H. minv. bool_to_prop. done. Qed.

(** The case records of rows are read only. *)
#[export] Instance dataset_record_reads row who : ReadOnly (_dataset_record env row who).
Proof. unfold _dataset_record. effects. Qed.
#[export] Instance eval_job_record_reads row d who : ReadOnly (_eval_job_record env row d who).
Proof. unfold _eval_job_record. effects. Qed.
#[export] Instance job_record_reads db row : ReadOnly (job_record env db row).
Proof. unfold job_record. effects. Qed.
#[export] Instance case_record_reads row : ReadOnly (_case_record env row).
Proof. unfold _case_record. effects. Qed.
#[export] Instance case_records_reads rows : ReadOnly (case_records env rows).
Proof. induction rows; simpl; effects. Qed.

Lemma reads {A} (m : EM A) w r w' : ReadOnly m -> m w = (r, w') -> w_db w' = w_db w.
Proof. intros R H. specialize (R w). by rewrite H in R. Qed.

Abbreviation moves := (rtc eval_move).

Lemma move_one db j j' f db' : g_jobs db !! gj_id j = Some j -> job_move db j j' f -> db' = touch j' f db -> moves db db'.
Proof. intros H M ->. apply rtc_once. by eapply move_job. Qed.

Lemma cancel_locked_inv job w j' w' : _cancel_locked job w = (Ret j', w') ->
  exists now, w_db w' = touch (ended_job G_CANCELLED now job) (on_cases (of_job (gj_id job) case_open) (closed_case K_CANCELLED now)) (w_db w).
Proof. unfold _cancel_locked, save_eval_job, update_cases. intros H. minv. by eexists. Qed.

Ltac einv := minv; repeat (match goal with
  | H : _assert_owner _ _ _ _ = (Ret _, _) |- _ =>
      let Q := fresh "Q" in let O := fresh "O" in let T := fresh "T" in let L := fresh "L" in
      apply assert_owner_inv in H as (-> & Q & O & T & L)
  | H : job_record _ _ _ _ = (Ret _, _) |- _ => apply reads in H; [|apply _]
  | H : _eval_job_record _ _ _ _ _ = (Ret _, _) |- _ => apply reads in H; [|apply _]
  | H : _dataset_record _ _ _ _ = (Ret _, _) |- _ => apply reads in H; [|apply _]
  | H : case_records _ _ _ = (Ret _, _) |- _ => apply reads in H; [|apply _]
  | H : _case_record _ _ _ = (Ret _, _) |- _ => apply reads in H; [|apply _]
  end; minv).

(** The moved job is the stored one. *)
Ltac move_by K c := eapply move_one; [by rewrite (ky_jobs _ K _ _ ltac:(eassumption))|c|].

Lemma cancel_moves job_id w r w' : keyed (w_db w) -> cancel env job_id w = (Ret r, w') -> moves (w_db w) (w_db w').
Proof.
  intros K H. unfold cancel, save_eval_job in H. einv; rewrite H; try done.
  - apply cancel_locked_inv in R1 as (now & ->). move_by K ltac:(apply mv_cancel; by left). done.
  - move_by K ltac:(by apply mv_mark). by rewrite touch_id.
Qed.

Lemma finish_cancelled_moves job_id worker token w r w' : keyed (w_db w) -> finish_cancelled job_id worker token w = (Ret r, w') -> moves (w_db w) (w_db w').
Proof.
  intros K H. unfold finish_cancelled in H. einv. apply cancel_locked_inv in R0 as (now & ->).
  move_by K ltac:(apply mv_cancel; by right). done.
Qed.

Lemma heartbeat_moves job_id worker token lease w r w' : keyed (w_db w) -> eval_heartbeat job_id worker token lease w = (Ret r, w') -> moves (w_db w) (w_db w').
Proof.
  intros K H. unfold eval_heartbeat, save_eval_job in H. einv. move_by K ltac:(by apply mv_beat). by rewrite touch_id.
Qed.

Lemma find_case_inv db job_id case_id c : keyed db -> find_case db job_id case_id = Some c ->
  g_cases db !! gc_id c = Some c /\ gc_job_id c = job_id /\ gc_case_id c = case_id.
Proof.
  intros K H. apply first_where_Some in H as (i & Hi & Hp). bool_to_prop. by rewrite (ky_cases _ K _ _ Hi).
Qed.

Lemma next_case_inv db job_id c : keyed db -> next_case db job_id = Some c ->
  g_cases db !! gc_id c = Some c /\ gc_job_id c = job_id /\ gc_status c = K_QUEUED.
Proof.
  intros K H. apply order_by_head in H as [H _]. apply elem_of_rows_where in H as (i & Hi & Hp). unfold of_job in Hp. bool_to_prop.
  by rewrite (ky_cases _ K _ _ Hi).
Qed.

Lemma save_on_cases db c g : keyed db -> g_cases db !! gc_id c = Some c -> gc_id (g c) = gc_id c ->
  put_case (g c) db = set_g_cases (on_cases (with_id c) g <$> g_cases db) db.
Proof.
  intros K H I. unfold put_case. rewrite I. f_equal. apply insert_on_cases; [done|]. intros k x X. by apply (with_id_key db).
Qed.

Lemma live_running s : job_live s = true -> s <> G_CANCELLING -> s = G_RUNNING.
Proof. by destruct s. Qed.

Lemma claim_case_moves job_id worker token w r w' : keyed (w_db w) -> claim_case env job_id worker token w = (Ret r, w') -> moves (w_db w) (w_db w').
Proof.
  intros K H. unfold claim_case, save_case in H. einv; try done. rewrite R2. cbn [w_db set_w_db]. bool_to_prop.
  pose proof (ky_jobs _ K _ _ Q) as I. apply next_case_inv in B0 as (N1 & N2 & N3); [|done]. rewrite <- I in N2.
  move_by K ltac:(apply (mv_claim_case _ a (w_clock w (w_tick w)) r0); try done; by apply live_running).
  rewrite touch_same by (by rewrite I). by apply (save_on_cases (w_db w) r0 (fun c => set_gc_updated_at _ (set_gc_started_at _ (set_gc_status K_RUNNING c)))).
Qed.

Lemma complete_case_moves job_id case_id worker token x w r w' : keyed (w_db w) ->
  complete_case env job_id case_id worker token x w = (Ret r, w') -> moves (w_db w) (w_db w').
Proof.
  intros K H. unfold complete_case, save_case, save_eval_job in H. einv; try done. unfold is_running in *. bool_to_prop.
  pose proof (ky_jobs _ K _ _ Q0) as I. apply find_case_inv in Q as (N1 & N2 & N3); [|done]. rewrite <- I in N2.
  move_by K ltac:(by apply (mv_complete _ a x (w_clock w (w_tick w)) a1)).
  rewrite (save_on_cases _ _ (completed_case env x _)) by done. by destruct (w_db w).
Qed.

Lemma finish_job_moves job_id worker token report w r w' : keyed (w_db w) ->
  finish_job env job_id worker token report w = (Ret r, w') -> moves (w_db w) (w_db w').
Proof.
  intros K H. unfold finish_job, score_cases, update_cases, save_eval_job in H. einv. bool_to_prop.
  pose proof (ky_jobs _ K _ _ Q) as I.
  move_by K ltac:(apply (mv_finish _ a report (w_clock w (w_tick w))); try done).
  - intros i c Hc Hj. assert (gc_case_id c ∈ (list_to_set (rs_case_id <$> rp_cases report) : gset pystr)) as M.
    { match goal with E : list_to_set _ = _ |- _ => rewrite E end. apply elem_of_list_to_set, list_elem_of_fmap. exists c. split; [done|]. apply elem_of_order_by, elem_of_rows_where.
      exists i. split; [done|]. apply bool_decide_eq_true. congruence. }
    apply elem_of_list_to_set, list_elem_of_fmap in M as (s & E & Hs). unfold scored.
    destruct (List.filter _ _) as [|s' l] eqn:F; [|rewrite last_cons; by destruct (last l)].
    exfalso. assert (s ∈ List.filter (fun r => bool_decide (rs_case_id r = gc_case_id c)) (rp_cases report)) as X.
    { apply list_elem_of_In, filter_In. split; [by apply list_elem_of_In|]. by apply bool_decide_eq_true. }
    rewrite F in X. by apply not_elem_of_nil in X.
  - rewrite I. by destruct (w_db w).
Qed.

Lemma fail_cases_inv job_id code detail case_id now w u w' : keyed (w_db w) ->
  fail_cases job_id code detail case_id now w = (Ret u, w') ->
  exists hit, (forall c, hit c = true -> gc_job_id c = job_id) /\
    w_db w' = set_g_cases ((fun c => on_cases (of_job job_id (fun s => bool_decide (s = K_QUEUED))) (closed_case K_CANCELLED now)
                                     (on_cases hit (failed_case code detail now) c)) <$> g_cases (w_db w)) (w_db w).
Proof.
  intros K H. unfold fail_cases, save_case, update_cases in H. minv.
  - destruct case_id as [cid|]; [change (find_case (w_db w) job_id cid = Some r) in B|discriminate B]. apply find_case_inv in B as (N1 & N2 & N3); [|done].
    exists (fun c => with_id r c && bool_decide (gc_job_id c = job_id)). split; [intros c [_ E]%andb_true_iff; by apply bool_decide_eq_true in E|].
    assert (put_case (failed_case code detail now r) (w_db w) =
      set_g_cases (on_cases (fun c => with_id r c && bool_decide (gc_job_id c = job_id)) (failed_case code detail now) <$> g_cases (w_db w)) (w_db w)) as ->.
    { unfold put_case. f_equal. apply insert_on_cases; [done|]. intros k x X. rewrite (with_id_key (w_db w) (gc_id r) r k x) by done.
      change (gc_id (failed_case code detail now r)) with (gc_id r). destruct (decide (k = gc_id r)) as [->|E].
      - assert (x = r) as -> by congruence. by rewrite (bool_decide_eq_true_2 (gc_job_id r = job_id)), andb_true_r.
      - by rewrite (bool_decide_eq_false_2 _ E). }
    cbn [g_cases set_g_cases]. rewrite <- map_fmap_compose. by destruct (w_db w).
  - exists (fun _ => false). split; done.
Qed.

Lemma put_keyed db j j0 : keyed db -> g_jobs db !! gj_id j = Some j0 -> keyed (put_eval_job j db).
Proof. intros K H. rewrite <- touch_id. by eapply touch_keyed. Qed.

Lemma fail_owned_inv job_id code detail case_id report job w r w' : keyed (w_db w) -> g_jobs (w_db w) !! job_id = Some job ->
  job_live (gj_status job) = true -> fail_owned env job_id code detail case_id report job w = (Ret r, w') ->
  exists j' f, job_move (w_db w) job j' f /\ w_db w' = touch j' f (w_db w) /\ job_live (gj_status j') = false.
Proof.
  intros K Q L H. pose proof (ky_jobs _ K _ _ Q) as I. unfold fail_owned, score_cases, update_cases, save_eval_job in H.
  destruct report as [report|]; minv; apply fail_cases_inv in H as (hit & Hh & ->).
  - do 2 eexists. split_and!; [apply (mv_fail _ job code detail (w_clock w (w_tick w)) hit (Some report)); done| |done].
    cbn [w_db set_w_db g_cases set_g_cases put_eval_job set_g_jobs]. rewrite <- map_fmap_compose. done.
  - refine (touch_keyed (w_db w) _ (report_of (gj_id job) (Some report) _) job K _ _); [done|].
    intros c. apply (report_of_same (gj_id job) (Some report)).
  - do 2 eexists. split_and!; [apply (mv_fail _ job code detail (w_clock w (w_tick w)) hit None); done| |done]. done.
  - eapply put_keyed; [exact K|done].
Qed.

Lemma fail_job_moves job_id worker token code detail case_id report w r w' : keyed (w_db w) ->
  fail_job env job_id worker token code detail case_id report w = (Ret r, w') -> moves (w_db w) (w_db w').
Proof.
  intros K H. unfold fail_job in H. einv. apply fail_owned_inv in H as (j' & f & M & E & _); [|done..].
  eapply move_one; [by rewrite (ky_jobs _ K _ _ Q)|exact M|exact E].
Qed.

(** *** Recovery *)

Lemma orphan_job_inv current job w u w' : orphan_job env current (w_db w) job w = (Ret u, w') ->
  exists report, w_db w' =
    touch (set_gj_error_detail_redacted None (set_gj_error_code (Some "RAG_EVALUATION_ORPHANED"%py) (ended_job G_FAILED current (reported report job))))
      (fun c => on_cases (of_job (gj_id job) case_open) (fun c => set_gc_error_code (Some "RAG_EVALUATION_ORPHANED"%py) (closed_case K_FAILED current c))
                  (report_of (gj_id job) report current c)) (w_db w).
Proof.
  unfold orphan_job, score_cases, update_cases, save_eval_job. intros H. minv; [|by exists None..].
  match goal with B : _ = Ret ?r |- _ => exists (Some r) end. cbn [g_cases set_g_cases put_eval_job set_g_jobs w_db set_w_db].
  by rewrite <- map_fmap_compose.
Qed.

Lemma recover_job_moves current job w u w' : keyed (w_db w) -> g_jobs (w_db w) !! gj_id job = Some job -> job_live (gj_status job) = true ->
  recover_job env current job w = (Ret u, w') ->
  moves (w_db w) (w_db w') /\ forall i, i <> gj_id job -> g_jobs (w_db w') !! i = g_jobs (w_db w) !! i.
Proof.
  intros K Q L H. unfold recover_job in H. assert (forall j f, gj_id j = gj_id job ->
    forall i, i <> gj_id job -> g_jobs (touch j f (w_db w)) !! i = g_jobs (w_db w) !! i) as T.
  { intros j f I i N. simpl. rewrite lookup_insert_ne; [done|congruence]. }
  case_bool_decide as S; [|apply live_running in S; [|done]; destruct (gj_max_attempts job <=? gj_attempts job) eqn:A; bool_to_prop].
  - einv. apply cancel_locked_inv in R as (now & ->). split; [|by apply T]. eapply move_one; [done|apply mv_cancel; by right|done].
  - minv_step. apply get_db_inv in R as [-> ->]. apply orphan_job_inv in H as (report & ->).
    split; [eapply move_one; [done|by apply (mv_orphan _ job current report)|done]|]. apply T. by destruct report.
  - unfold requeue_job, update_cases, save_eval_job in H. einv. split; [|by apply T]. eapply move_one; [done|by apply (mv_requeue _ _ current)|done].
Qed.

Lemma recover_jobs_moves current jobs w ids w' : keyed (w_db w) -> NoDup (gj_id <$> jobs) ->
  Forall (fun j => g_jobs (w_db w) !! gj_id j = Some j /\ job_live (gj_status j) = true) jobs ->
  recover_jobs env current jobs w = (Ret ids, w') -> moves (w_db w) (w_db w').
Proof.
  revert w ids. induction jobs as [|job jobs IH]; intros w ids K N F H; cbn [recover_jobs] in H; minv; [done|].
  apply Forall_cons in F as [[Q L] F]. rewrite fmap_cons in N. apply NoDup_cons in N as [N1 N2].
  apply recover_job_moves in R as [M U]; [|done..]. etrans; [exact M|]. eapply IH; [by eapply moves_keyed|done| |done].
  rewrite Forall_forall in F |- *. intros j Hj. destruct (F j Hj) as [Qj Lj]. split; [|done]. rewrite U; [done|].
  intros E. apply N1. rewrite <- E. by apply list_elem_of_fmap_2.
Qed.

Lemma rows_ids db p : keyed db -> NoDup (gj_id <$> rows_where p (g_jobs db)) /\ Forall (fun j => g_jobs db !! gj_id j = Some j /\ p j = true) (rows_where p (g_jobs db)).
Proof.
  intros K. split; [apply rows_where_keys, K|].
  apply Forall_forall. intros j (i & Hi & Hp)%elem_of_rows_where. by rewrite (ky_jobs _ K _ _ Hi).
Qed.

Lemma reconcile_moves now w ids w' : keyed (w_db w) -> reconcile_expired env now w = (Ret ids, w') -> moves (w_db w) (w_db w').
Proof.
  intros K H. unfold reconcile_expired in H.
  assert (exists t w1, w_db w1 = w_db w /\ transaction (db ← get_db; recover_jobs env t (rows_where (lease_over t) (g_jobs db))) w1 = (Ret ids, w')) as (t & w1 & E & H').
  { minv_step. exists a, w0. split; [|done]. by destruct now; minv. }
  clear H. minv. rewrite <- E in *. destruct (rows_ids (w_db w1) (lease_over t) K) as [N F]. eapply recover_jobs_moves; [done..| |done].
  eapply Forall_impl; [exact F|]. intros j [Hj Lj]. split; [done|]. unfold lease_over in Lj. by bool_to_prop.
Qed.

(** *** Claims *)

Lemma next_eval_job_inv locked db j : keyed db -> next_eval_job locked db = Some j -> g_jobs db !! gj_id j = Some j /\ gj_status j = G_QUEUED.
Proof.
  intros K H. apply order_by_head in H as [H _]. apply elem_of_rows_where in H as (i & Hi & Hp). bool_to_prop. by rewrite (ky_jobs _ K _ _ Hi).
Qed.

Lemma claim_moves locked worker lease w r w' : keyed (w_db w) -> claim_eval_job env locked worker lease w = (Ret r, w') -> moves (w_db w) (w_db w').
Proof.
  intros K H. unfold claim_eval_job, save_eval_job in H. einv; [|done].
  match goal with B : next_eval_job _ _ = Some _ |- _ => apply next_eval_job_inv in B as [Q1 S]; [|done] end.
  match goal with |- moves ?x ?y => assert (y = put_eval_job (claimed_row worker lease (w_clock w (w_tick w)) r0) x) as ->
    by (etrans; [eassumption|]; etrans; [eassumption|]; eassumption) end.
  eapply move_one; [exact Q1|by apply mv_claim|]. by rewrite touch_id.
Qed.

(** *** Creation *)

Lemma create_dataset_moves who d w r w' : create_dataset env who d w = (Ret r, w') -> moves (w_db w) (w_db w').
Proof.
  intros H. unfold create_dataset, _user in H. einv.
  - match goal with |- moves ?x ?y => assert (y = x) as -> by done end. done.
  - apply rtc_once, move_other; by rewrite H.
Qed.

Lemma worker_heartbeat_moves wk s md w r w' : worker_heartbeat wk s md w = (Ret r, w') -> moves (w_db w) (w_db w').
Proof. intros H. unfold worker_heartbeat in H. minv. by apply rtc_once, move_other. Qed.

Lemma add_cases_inv job_id now n cases w u w' : add_cases job_id now n cases w = (Ret u, w') ->
  exists rows, w_db w' = set_g_cases (add_rows rows (g_cases (w_db w))) (w_db w) /\ length rows = length cases /\
    Forall (fun c => gc_job_id c = job_id /\ gc_status c = K_QUEUED /\ g_cases (w_db w) !! gc_id c = None) rows /\ NoDup (gc_id <$> rows).
Proof.
  revert n w. induction cases as [|case cases IH]; intros n w H; cbn [add_cases] in H; unfold save_case in H; minv.
  { exists []. split_and!; [by destruct (w_db w')|done|constructor|constructor]. }
  apply IH in H as (rows & E & L & F & N). cbn [w_db set_w_db g_cases put_case set_g_cases] in *.
  match goal with G : bool_decide (is_Some _) = false |- _ => apply bool_decide_eq_false in G as G1 end.
  exists (new_case job_id now (w_uuid w (w_uuid_next w)) n case :: rows). rewrite fmap_cons. split_and!.
  - rewrite E. done.
  - simpl. by rewrite L.
  - constructor; [split_and!; [done..|by apply eq_None_not_Some]|]. eapply Forall_impl; [exact F|]. intros c (A & B & D).
    split_and!; [done..|]. rewrite lookup_insert in D. by case_decide.
  - constructor; [|done]. intros (c & Ec & Hc)%list_elem_of_fmap. rewrite Forall_forall in F. destruct (F c Hc) as (_ & _ & D).
    by rewrite <- Ec, lookup_insert_eq in D.
Qed.

#[local] Instance check_baseline_reads d b : ReadOnly (check_baseline d b).
Proof. unfold check_baseline. effects. Qed.

Lemma create_job_moves who dataset_id policy snapshot baseline m w r w' :
  create_job env who dataset_id policy snapshot baseline m w = (Ret r, w') -> moves (w_db w) (w_db w').
Proof.
  intros H. unfold create_job, _user, save_eval_job in H. einv. apply reads in R2; [|apply _].
  match goal with A : add_cases _ _ _ _ _ = _ |- _ => apply add_cases_inv in A as (rows & E & L & F & N) end.
  cbn [w_db set_w_db set_w_tick set_w_uuid_next g_cases put_eval_job set_g_jobs] in *.
  rewrite H, E, R2. apply rtc_once, move_create. bool_to_prop. unfold fresh_job. rewrite R2 in F.
  split_and!; try done; [by apply eq_None_not_Some|by rewrite L|simpl; lia].
Qed.

(** ** Every call *)

Inductive EvalCall :=
  | GCreateDataset (username : pystr) (dataset : RagEvalDataset)
  | GCreateJob (username dataset_id : pystr) (gate_policy : json) (model_snapshot : ModelCatalogSnapshot) (baseline : option pystr) (max_attempts : Z)
  | GCancel (job_id : pystr)
  | GReconcile (now : option datetime)
  | GClaim (locked : pystr -> bool) (worker_id : pystr) (lease_seconds : Z)
  | GHeartbeat (job_id worker_id : pystr) (fencing_token lease_seconds : Z)
  | GClaimCase (job_id worker_id : pystr) (fencing_token : Z)
  | GCompleteCase (job_id case_id worker_id : pystr) (fencing_token : Z) (x : CaseExecution)
  | GFail (job_id worker_id : pystr) (fencing_token : Z) (code : pystr) (detail : json) (case_id : option pystr) (report : option RagEvalReport)
  | GFinish (job_id worker_id : pystr) (fencing_token : Z) (report : RagEvalReport)
  | GFinishCancelled (job_id worker_id : pystr) (fencing_token : Z)
  | GWorker (worker_id status : pystr) (metadata : list (pystr * json)).

Definition done_with {A} (m : EM A) : EM unit := m;; mret tt.

Definition eval_call (c : EvalCall) : EM unit :=
  match c with
  | GCreateDataset u d => done_with (create_dataset env u d)
  | GCreateJob u d p s b m => done_with (create_job env u d p s b m)
  | GCancel j => done_with (cancel env j)
  | GReconcile now => done_with (reconcile_expired env now)
  | GClaim l w s => done_with (claim_next env l w s)
  | GHeartbeat j w f s => eval_heartbeat j w f s
  | GClaimCase j w f => done_with (claim_case env j w f)
  | GCompleteCase j c w f x => complete_case env j c w f x
  | GFail j w f code detail c r => fail_job env j w f code detail c r
  | GFinish j w f r => finish_job env j w f r
  | GFinishCancelled j w f => finish_cancelled j w f
  | GWorker w s md => worker_heartbeat w s md
  end.

(** The calls of other processes, one after the other, whatever their outcomes. *)
Fixpoint run_calls (cs : list EvalCall) (w : WorldOf EvalDb) : WorldOf EvalDb :=
  match cs with [] => w | c :: cs => run_calls cs (eval_call c w).2 end.

Lemma run_calls_app cs ds w : run_calls (cs ++ ds) w = run_calls ds (run_calls cs w).
Proof. revert w. induction cs as [|c cs IH]; intros w; [done|]. apply IH. Qed.

(** Whatever its outcome, a computation makes moves. *)
Definition makes_moves {A} (m : EM A) : Prop := forall w r w', keyed (w_db w) -> m w = (r, w') -> moves (w_db w) (w_db w').

Lemma makes_moves_atomic {A} (m : EM A) : Atomic m ->
  (forall w a w', keyed (w_db w) -> m w = (Ret a, w') -> moves (w_db w) (w_db w')) -> makes_moves m.
Proof. intros At H w [a|e] w' K E; [by eapply H|]. by rewrite (At _ _ _ E). Qed.

Lemma makes_moves_bind {A B} (m : EM A) (k : A -> EM B) : makes_moves m -> (forall a, makes_moves (k a)) -> makes_moves (m ≫= k).
Proof.
  intros Hm Hk w r w' K E. unfold mbind, M_bind in E. destruct (m w) as [[a|e] w1] eqn:M.
  - pose proof (Hm _ _ _ K M) as M1. etrans; [exact M1|]. eapply Hk; [by eapply moves_keyed|done].
  - simplify_eq. by eapply Hm.
Qed.

Lemma makes_moves_ret {A} (a : A) : makes_moves (mret a).
Proof. intros w r w' _ [= <- <-]. done. Qed.

Lemma makes_moves_done {A} (m : EM A) : makes_moves m -> makes_moves (done_with m).
Proof. intros H. apply makes_moves_bind; [done|]. intros a. apply makes_moves_ret. Qed.

Ltac call_moves lem := apply makes_moves_atomic; [first [apply _|unfold reconcile_expired; effects]|intros ? ? ? ? ?; by eapply lem].

Lemma call_moves c : makes_moves (eval_call c).
Proof.
  destruct c; simpl; try (apply makes_moves_done).
  - call_moves create_dataset_moves.
  - call_moves create_job_moves.
  - call_moves cancel_moves.
  - call_moves reconcile_moves.
  - apply makes_moves_bind; [call_moves reconcile_moves|]. intros _. call_moves claim_moves.
  - call_moves heartbeat_moves.
  - call_moves claim_case_moves.
  - call_moves complete_case_moves.
  - call_moves fail_job_moves.
  - call_moves finish_job_moves.
  - call_moves finish_cancelled_moves.
  - call_moves worker_heartbeat_moves.
Qed.
End machine.
