(* ===== verification/EvaluationProps.v ===== *)
(** * What evaluation jobs guarantee

    Invariants of jobs and cases under every history of calls, the fence that keeps
    workers apart, and how a job ends. *)

From S2P Require Import Prelude PyBase Errors RunState Session Schema Effects RunRepo CatalogSchema Evaluation EvaluationMoves.
From Stdlib Require Import QArith.

Open Scope Z_scope.

(** ** Counting cases *)

Definition tally (p : RagEvaluationCaseRow -> bool) (m : gmap pystr RagEvaluationCaseRow) : nat := length (rows_where p m).

Lemma tally_perm p m l : snd <$> map_to_list m ≡ₚ l -> tally p m = length (List.filter p l).
Proof. intros H. unfold tally, rows_where. apply Permutation_length, filter_perm, H. Qed.

Lemma tally_ext p q m : (forall i c, m !! i = Some c -> p c = q c) -> tally p m = tally q m.
Proof.
  intros H. unfold tally, rows_where. assert (forall c, c ∈ snd <$> map_to_list m -> p c = q c) as K.
  { intros c ([i x] & -> & Hx)%list_elem_of_fmap. apply (H i). by apply elem_of_map_to_list. }
  induction (snd <$> map_to_list m) as [|c l IH]; [done|]. simpl. rewrite (K c) by by left.
  assert (length (List.filter p l) = length (List.filter q l)) as E by (apply IH; intros d Hd; apply K; by right).
  destruct (q c); simpl; by rewrite E.
Qed.

Lemma tally_fmap p f m : tally p (f <$> m) = tally (fun c => p (f c)) m.
Proof.
  rewrite (tally_perm p (f <$> m) (f <$> (snd <$> map_to_list m))).
  - unfold tally, rows_where. induction (snd <$> map_to_list m) as [|c l IH]; [done|]. rewrite fmap_cons. simpl. destruct (p (f c)); simpl; by rewrite IH.
  - rewrite map_to_list_fmap, <- !list_fmap_compose. done.
Qed.

Lemma tally_new p m i c : m !! i = None -> tally p (<[i := c]> m) = (tally p m + if p c then 1 else 0)%nat.
Proof.
  intros H. rewrite (tally_perm p (<[i := c]> m) (c :: (snd <$> map_to_list m))) by by rewrite (map_to_list_insert m i c H).
  simpl. unfold tally, rows_where. destruct (p c); simpl; lia.
Qed.

Lemma tally_over p m i c c' : m !! i = Some c -> (tally p (<[i := c']> m) + (if p c then 1 else 0) = tally p m + if p c' then 1 else 0)%nat.
Proof.
  intros H. rewrite <- (insert_delete_id m i c H) at 2. rewrite <- (insert_delete_eq m i c').
  rewrite !tally_new by apply lookup_delete_eq. lia.
Qed.

Lemma tally_none p m : tally p m = 0%nat <-> forall i c, m !! i = Some c -> p c = false.
Proof. unfold tally. rewrite length_zero_iff_nil. apply rows_where_nil. Qed.

Lemma tally_split p q m : tally p m = (tally (fun c => p c && q c) m + tally (fun c => p c && negb (q c)) m)%nat.
Proof.
  unfold tally, rows_where. induction (snd <$> map_to_list m) as [|c l IH]; [done|]. simpl.
  destruct (p c), (q c); simpl in *; lia.
Qed.

(** ** The invariant *)

Definition completed (s : RagEvaluationCaseStatus) : bool := bool_decide (s = K_COMPLETED).

Record job_inv (m : gmap pystr RagEvaluationCaseRow) (j : RagEvaluationJobRow) : Prop := mkJobInv {
  ji_owner : is_Some (gj_owner_worker_id j) <-> job_live (gj_status j) = true;
  ji_lease : is_Some (gj_lease_expires_at j) <-> job_live (gj_status j) = true;
  ji_fence : gj_fencing_token j = gj_attempts j;
  ji_attempts : 0 <= gj_attempts j <= gj_max_attempts j;
  ji_queued : gj_status j = G_QUEUED -> gj_attempts j < gj_max_attempts j /\ tally (of_job (gj_id j) is_running) m = 0%nat;
  ji_total : gj_total_cases j = Z.of_nat (tally (of_job (gj_id j) (fun _ => true)) m);
  ji_completed : gj_status j <> G_FAILED -> gj_completed_cases j = Z.of_nat (tally (of_job (gj_id j) completed) m);
  ji_cancelled : gj_status j = G_CANCELLED -> tally (of_job (gj_id j) case_open) m = 0%nat;
  ji_succeeded : gj_status j = G_SUCCEEDED -> gj_completed_cases j = gj_total_cases j /\ is_Some (gj_report_json j);
  ji_failed : gj_status j = G_FAILED -> Z.of_nat (tally (of_job (gj_id j) completed) m) <= gj_completed_cases j
}.

Record eval_inv (db : EvalDb) : Prop := mkEvalInv {
  ei_keyed : keyed db;
  ei_parent : forall i c, g_cases db !! i = Some c -> is_Some (g_jobs db !! gc_job_id c);
  ei_observed : forall i c, g_cases db !! i = Some c -> gc_status c = K_COMPLETED -> is_Some (gc_observation_json c);
  ei_jobs : forall i j, g_jobs db !! i = Some j -> job_inv (g_cases db) j
}.

Section moves.
Context (env : EvalEnv).
Abbreviation job_move := (job_move env).
Abbreviation eval_move := (eval_move env).

(** What a move does to a case: it stays with its job, only cases of the moved job
    change, and a case becomes completed only with an observation. *)
Record case_change (j : RagEvaluationJobRow) (c c' : RagEvaluationCaseRow) : Prop := mkCaseChange {
  cc_job : gc_job_id c' = gc_job_id c;
  cc_case : gc_case_id c' = gc_case_id c;
  cc_other : gc_job_id c <> gj_id j -> c' = c;
  cc_observed : (gc_status c = K_COMPLETED -> is_Some (gc_observation_json c)) -> gc_status c' = K_COMPLETED -> is_Some (gc_observation_json c')
}.

Lemma case_change_refl j c : case_change j c c.
Proof. by constructor. Qed.

Lemma case_change_trans j c1 c2 c3 : case_change j c1 c2 -> case_change j c2 c3 -> case_change j c1 c3.
Proof.
  intros [A1 A2 A3 A4] [B1 B2 B3 B4]. constructor; [congruence|congruence| |].
  - intros N. rewrite B3 by congruence. by apply A3.
  - intros H. apply B4. by apply A4.
Qed.

Lemma case_change_on j p f c : (p c = true -> gc_job_id c = gj_id j) ->
  (p c = true -> case_change j c (f c)) -> case_change j c (on_cases p f c).
Proof. intros H F. unfold on_cases. destruct (p c); [by apply F|apply case_change_refl]. Qed.

Lemma of_job_id id p c : of_job id p c = true -> gc_job_id c = id.
Proof. unfold of_job. intros H. by bool_to_prop. Qed.

Lemma score_change j report now c : gc_job_id c = gj_id j -> case_change j c (score_case report now c).
Proof. intros E. destruct (score_case_same report now c) as (_ & H1 & H2 & H3 & H4).
  constructor; [done..|by intros N|]. by rewrite H3, H4.
Qed.

Lemma report_change j report now c : case_change j c (report_of (gj_id j) report now c).
Proof.
  destruct report as [r|]; simpl; [|apply case_change_refl]. apply case_change_on; [apply of_job_id|]. intros H%of_job_id. by apply score_change.
Qed.

Lemma job_move_cases db j j' f i c : keyed db -> job_move db j j' f -> g_cases db !! i = Some c -> case_change j c (f c).
Proof.
  intros K M H.
  assert (forall case g, g_cases db !! gc_id case = Some case -> gc_job_id case = gj_id j -> case_change j case (g case) ->
    case_change j c (on_cases (with_id case) g c)) as W.
  { intros case g Hc Hj G. unfold on_cases. rewrite (with_id_key db (gc_id case) case i c) by done.
    case_bool_decide as E; [|apply case_change_refl]. subst. by assert (c = case) as -> by congruence. }
  destruct M; try apply case_change_refl.
  1,2: apply case_change_on; [apply of_job_id|]; intros ?%of_job_id; by constructor.
  - eapply case_change_trans; [apply report_change|]. apply case_change_on; [apply of_job_id|]. intros ?%of_job_id. by constructor.
  - apply W; [done..|]. by constructor.
  - apply W; [done..|]. by constructor.
  - eapply case_change_trans; [apply (report_change j report now)|].
    apply case_change_trans with (on_cases hit (failed_case code detail now) (report_of (gj_id j) report now c)).
    + match goal with Hh : forall c, _ = true -> _ |- _ => apply case_change_on; [by apply Hh|]; intros E%Hh end. by constructor.
    + apply case_change_on; [apply of_job_id|]. intros ?%of_job_id. by constructor.
  - apply case_change_on; [apply of_job_id|]. intros ?%of_job_id. by apply score_change.
Qed.

(** The cases of another job are counted as before; those of the moved job all stay. *)
Lemma tally_other db j j' f k p : keyed db -> job_move db j j' f -> k <> gj_id j ->
  tally (of_job k p) (f <$> g_cases db) = tally (of_job k p) (g_cases db).
Proof.
  intros K M N. rewrite tally_fmap. apply tally_ext. intros i c H. destruct (job_move_cases _ _ _ _ _ _ K M H) as [A _ B _].
  unfold of_job. rewrite A. case_bool_decide; [|done]. by rewrite B by congruence.
Qed.

Lemma tally_total db j j' f : keyed db -> job_move db j j' f ->
  tally (of_job (gj_id j) (fun _ => true)) (f <$> g_cases db) = tally (of_job (gj_id j) (fun _ => true)) (g_cases db).
Proof.
  intros K M. rewrite tally_fmap. apply tally_ext. intros i c H. destruct (job_move_cases _ _ _ _ _ _ K M H) as [A _ _ _].
  unfold of_job. by rewrite A.
Qed.

Lemma tally_same p f m id : (forall i c, m !! i = Some c -> gc_job_id (f c) = gc_job_id c /\ p (gc_status (f c)) = p (gc_status c)) ->
  tally (of_job id p) (f <$> m) = tally (of_job id p) m.
Proof. intros H. rewrite tally_fmap. apply tally_ext. intros i c Hc. destruct (H i c Hc) as [A B]. unfold of_job. by rewrite A, B. Qed.

Lemma tally_le p q m : (forall c, p c = true -> q c = true) -> (tally p m <= tally q m)%nat.
Proof.
  intros H. rewrite (tally_split q p m), (tally_ext (fun c => q c && p c) p); [lia|]. intros i c _.
  destruct (p c) eqn:E; [by rewrite (H c E)|by rewrite andb_false_r].
Qed.

Lemma tally_fewer p f m id :
  (forall i c, m !! i = Some c -> gc_job_id (f c) = gc_job_id c /\ (p (gc_status (f c)) = true -> p (gc_status c) = true)) ->
  (tally (of_job id p) (f <$> m) <= tally (of_job id p) m)%nat.
Proof.
  intros H. rewrite tally_fmap, (tally_ext _ (fun c => of_job id p c && of_job id p (f c))).
  - apply tally_le. intros c. by intros [? _]%andb_true_iff.
  - intros i c Hc. destruct (H i c Hc) as [A B]. unfold of_job. rewrite A.
    destruct (p (gc_status (f c))) eqn:E; [|by rewrite !andb_false_r]. rewrite (B eq_refl). by destruct (bool_decide _).
Qed.

(** Failing or closing cases completes none. *)
Lemma on_completes_none q g c : (forall c, completed (gc_status (g c)) = false) ->
  completed (gc_status (on_cases q g c)) = true -> completed (gc_status c) = true.
Proof. intros G. unfold on_cases. destruct (q c); [by rewrite G|done]. Qed.

(** Closing or requeueing the cases that are open, or scoring, keeps what is completed. *)
Lemma on_keeps_completed id p f c : (forall s, p s = true -> completed s = false) -> completed (gc_status (f c)) = false ->
  completed (gc_status (on_cases (of_job id p) f c)) = completed (gc_status c).
Proof. intros P F. unfold on_cases. destruct (of_job id p c) eqn:O; [|done]. rewrite F. unfold of_job in O. bool_to_prop. by rewrite P. Qed.

Lemma report_keeps id report now c : gc_status (report_of id report now c) = gc_status c.
Proof. by destruct (report_of_same id report now c) as (_ & _ & _ & -> & _). Qed.

Lemma tally_closed id p f (m : gmap pystr RagEvaluationCaseRow) : (forall c, p (gc_status (f c)) = false) ->
  tally (of_job id p) (on_cases (of_job id p) f <$> m) = 0%nat.
Proof.
  intros F. apply tally_none. intros i c (c0 & <- & _)%lookup_fmap_Some. unfold on_cases. destruct (of_job id p c0) eqn:O; [|done].
  unfold of_job. by rewrite F, andb_false_r.
Qed.

Lemma completed_once db j case g : keyed db -> g_cases db !! gc_id case = Some case -> gc_job_id case = gj_id j ->
  completed (gc_status case) = false -> gc_job_id (g case) = gj_id j -> gc_status (g case) = K_COMPLETED ->
  tally (of_job (gj_id j) completed) (on_cases (with_id case) g <$> g_cases db) = S (tally (of_job (gj_id j) completed) (g_cases db)).
Proof.
  intros K H J C J' S. rewrite <- (insert_on_cases (g_cases db) (gc_id case) case g) by (done || (intros k x X; by apply (with_id_key db))).
  pose proof (tally_over (of_job (gj_id j) completed) (g_cases db) (gc_id case) case (g case) H) as T.
  assert (of_job (gj_id j) completed case = false) as E1 by (unfold of_job; by rewrite C, andb_false_r).
  assert (of_job (gj_id j) completed (g case) = true) as E2 by (unfold of_job; by rewrite S, J', bool_decide_eq_true_2).
  rewrite E1, E2 in T. lia.
Qed.

Lemma none_dead {A} : is_Some (None : option A) <-> false = true.
Proof. split; [by intros []|done]. Qed.

Ltac fields := constructor; cbn; try done; try apply none_dead; try (by split; [intros _|intros _; eexists]).

Lemma own_job db j j' f : keyed db -> job_move db j j' f -> job_inv (g_cases db) j -> job_inv (f <$> g_cases db) j'.
Proof.
  intros K M [J1 J2 J3 J4 J5 J6 J7 J8 J9 J10]. pose proof (tally_total db j j' f K M) as T.
  assert (forall i c, g_cases db !! i = Some c -> gc_job_id (f c) = gc_job_id c) as JI.
  { intros i c H. by destruct (job_move_cases _ _ _ _ _ _ K M H). }
  destruct M.
  - rewrite map_fmap_id in *. rewrite H in *. fields. intros _. by apply J7.
  - rewrite <- T in J6. fields.
    + intros _. rewrite tally_same; [apply J7; destruct H as [E|L]; [by rewrite E|intros E; by rewrite E in L]|]. intros i c Hc. split; [by apply (JI i)|]. apply on_keeps_completed; [by intros []|done].
    + intros _. by apply tally_closed.
  - rewrite <- T in J6. rewrite H in *. fields.
    + intros _. split; [done|]. by apply tally_closed.
    + intros _. rewrite tally_same; [by apply J7|]. intros i c Hc. split; [by apply (JI i)|]. apply on_keeps_completed; [by intros []|done].
  - rewrite <- T in J6. fields; try (by destruct report). intros _. destruct report; cbn [reported];
      (etrans; [apply Nat2Z.inj_le, tally_fewer|cbn; rewrite J7 by (by rewrite H); reflexivity]; intros i c Hc;
       split; [by apply (JI i)|]; intros E%on_completes_none; [by rewrite report_keeps in E|done]).
  - rewrite map_fmap_id in *. specialize (J5 H). rewrite H in *. fields; [lia|lia|intros _; by apply J7].
  - rewrite map_fmap_id in *. fields; try (rewrite H; by split; [intros _|intros _; eexists]).
  - rewrite <- T in J6. rewrite H in *. constructor; rewrite ?H; try done. intros _. rewrite tally_same; [by apply J7|]. intros i c Hc. split; [by apply (JI i)|].
    unfold on_cases. rewrite (with_id_key db (gc_id case) case i c) by done. case_bool_decide; [|done]. subst.
    assert (c = case) as -> by congruence. cbn. by rewrite H2.
  - rewrite <- T in J6. fields; try (intros E; by rewrite E in H).
    intros NF. rewrite (completed_once db j case (completed_case env x now)) by (done || by rewrite H2). rewrite J7 by done. lia.
  - assert (Z.of_nat (tally (of_job (gj_id j) completed) ((fun c => on_cases (of_job (gj_id j) (fun s => bool_decide (s = K_QUEUED)))
      (closed_case K_CANCELLED now) (on_cases hit (failed_case code detail now) (report_of (gj_id j) report now c))) <$> g_cases db))
      <= gj_completed_cases j) as F.
    { rewrite J7 by (intros E; by rewrite E in H). apply Nat2Z.inj_le, tally_fewer. intros i c Hc. split; [by apply (JI i)|].
      intros E%on_completes_none; [|done]. apply on_completes_none in E; [|done]. by rewrite report_keeps in E. }
    rewrite <- T in J6. by destruct report; fields.
  - rewrite <- T in J6. fields.
    intros _. rewrite tally_same; [apply J7; intros E; by rewrite E in H|]. intros i c Hc. split; [by apply (JI i)|].
    unfold on_cases. destruct (of_job _ _ c); [|done]. by destruct (score_case_same report now c) as (_ & _ & _ & -> & _).
Qed.

(** A job whose cases are counted as before keeps its invariant. *)
Lemma job_inv_frame m m' j : (forall p, tally (of_job (gj_id j) p) m' = tally (of_job (gj_id j) p) m) -> job_inv m j -> job_inv m' j.
Proof. intros T [J1 J2 J3 J4 J5 J6 J7 J8 J9 J10]. constructor; rewrite ?T; done. Qed.

Lemma move_job_inv db j j' f : eval_inv db -> g_jobs db !! gj_id j = Some j -> job_move db j j' f -> eval_inv (touch j' f db).
Proof.
  intros [K P O J] Q M. destruct (job_move_keys _ _ _ _ _ M) as [I F]. constructor.
  - eapply touch_keyed; [done|by rewrite I|done].
  - simpl. intros i c (c0 & <- & Hc)%lookup_fmap_Some. destruct (job_move_cases _ _ _ _ _ _ K M Hc) as [A _ _ _]. rewrite A.
    destruct (P _ _ Hc) as [x X]. rewrite lookup_insert. case_decide; by eexists.
  - simpl. intros i c (c0 & <- & Hc)%lookup_fmap_Some. destruct (job_move_cases _ _ _ _ _ _ K M Hc) as [_ _ _ A]. apply A. by apply (O i).
  - simpl. intros i x. rewrite lookup_insert. case_decide as E.
    + intros [= <-]. eapply own_job; [done..|]. by eapply J.
    + intros X. apply (job_inv_frame (g_cases db)); [|by apply (J i)]. intros p. eapply tally_other; [done..|].
      rewrite (ky_jobs _ K _ _ X). congruence.
Qed.

Lemma add_rows_tally rows m id p : Forall (fun c => m !! gc_id c = None) rows -> NoDup (gc_id <$> rows) ->
  tally (of_job id p) (add_rows rows m) = (tally (of_job id p) m + length (List.filter (of_job id p) rows))%nat.
Proof.
  revert m. induction rows as [|c rows IH]; intros m F N; simpl; [lia|]. apply Forall_cons in F as [F1 F2].
  rewrite fmap_cons in N. apply NoDup_cons in N as [N1 N2]. fold (add_rows rows (<[gc_id c := c]> m)). rewrite IH; [|..|done].
  - rewrite tally_new by done. destruct (of_job id p c); simpl; lia.
  - rewrite Forall_forall in F2 |- *. intros d Hd. rewrite lookup_insert_ne; [by apply F2|]. intros E. apply N1. rewrite E. by apply list_elem_of_fmap_2.
Qed.

Lemma filter_const {A} (p : A -> bool) l b : Forall (fun x => p x = b) l -> length (List.filter p l) = if b then length l else 0%nat.
Proof. intros F. induction F as [|x l H _ IH]; [by destruct b|]. simpl. rewrite H. destruct b; simpl; by rewrite IH. Qed.

Lemma move_create_inv db j rows : eval_inv db -> fresh_job db j rows -> eval_inv (set_g_cases (add_rows rows (g_cases db)) (put_eval_job j db)).
Proof using env.
  intros [K P O J] (F1 & F2 & F3 & F4 & F5 & F6 & F7 & F8 & F9 & F10 & FR & ND).
  assert (Forall (fun c => g_cases db !! gc_id c = None) rows) as FN by (eapply Forall_impl; [exact FR|]; by intros c (_ & _ & ?)).
  assert (forall c, c ∈ rows -> gc_job_id c = gj_id j /\ gc_status c = K_QUEUED) as FQ.
  { rewrite Forall_forall in FR. intros c Hc. destruct (FR c Hc) as (? & ? & _). done. }
  assert (forall id p, tally (of_job id p) (add_rows rows (g_cases db)) =
    (tally (of_job id p) (g_cases db) + if bool_decide (id = gj_id j) && p K_QUEUED then length rows else 0))%nat as T.
  { intros id p. rewrite add_rows_tally by done. f_equal. apply filter_const, Forall_forall. intros c Hc. destruct (FQ c Hc) as [A B].
    unfold of_job. rewrite A, B. f_equal. by apply bool_decide_ext. }
  assert (forall p, tally (of_job (gj_id j) p) (g_cases db) = 0%nat) as Z0.
  { intros p. apply tally_none. intros i c Hc. unfold of_job. case_bool_decide as E; [|done]. destruct (P _ _ Hc) as [x X]. congruence. }
  constructor.
  - eapply (move_keyed env db); [done|]. apply move_create. unfold fresh_job. split_and!; done.
  - simpl. intros i c [Hc|[Hc _]]%add_rows_lookup.
    + destruct (P _ _ Hc) as [x X]. rewrite lookup_insert. case_decide; by eexists.
    + destruct (FQ c Hc) as [-> _]. rewrite lookup_insert_eq. by eexists.
  - simpl. intros i c [Hc|[Hc _]]%add_rows_lookup; [by apply (O i)|]. by destruct (FQ c Hc) as [_ ->].
  - simpl. intros i x. rewrite lookup_insert. case_decide as E.
    + intros [= <-]. constructor; rewrite ?F2, ?F3, ?F4, ?F5, ?F6, ?F7, ?F8, ?F10, ?T, ?Z0, ?bool_decide_eq_true_2 by done;
        try done; try apply none_dead; [lia|]. intros _. split; [lia|done].
    + intros X. apply (job_inv_frame (g_cases db)); [|by apply (J i)]. intros p. rewrite T, bool_decide_eq_false_2; [simpl; lia|].
      rewrite (ky_jobs _ K _ _ X). congruence.
Qed.

Lemma move_inv db db' : eval_inv db -> eval_move db db' -> eval_inv db'.
Proof.
  intros I M. destruct M as [j j' f Q M|j rows F|db' E1 E2]; [by eapply move_job_inv|by apply move_create_inv|].
  destruct I as [K P O J]. constructor; rewrite ?E1, ?E2; try done. destruct K as [K1 K2]. by constructor; rewrite ?E1, ?E2.
Qed.

Lemma moves_inv db db' : eval_inv db -> rtc eval_move db db' -> eval_inv db'.
Proof. intros I M. induction M as [|db db1 db' M _ IH]; [done|]. apply IH. by eapply move_inv. Qed.

(** ** Jobs that have ended *)

Definition job_ended (s : RagEvaluationJobStatus) : bool := match s with G_CANCELLED | G_SUCCEEDED | G_FAILED => true | _ => false end.

Lemma job_move_alive db j j' f : job_move db j j' f -> job_ended (gj_status j) = false.
Proof.
  intros M. destruct M; repeat match goal with
    | H : gj_status _ = _ |- _ => by rewrite H
    | H : _ \/ _ |- _ => destruct H
    | H : job_live (gj_status ?x) = true |- _ => by destruct (gj_status x)
    end.
Qed.

Definition cases_of (db : EvalDb) (job_id : pystr) : gmap pystr RagEvaluationCaseRow :=
  filter (fun kv => gc_job_id kv.2 = job_id) (g_cases db).

Lemma move_frozen db db' id j : eval_inv db -> eval_move db db' -> g_jobs db !! id = Some j -> job_ended (gj_status j) = true ->
  g_jobs db' !! id = Some j /\ cases_of db' id = cases_of db id.
Proof.
  intros I M Q E. destruct M as [k k' f Qk M|k rows F|db' E1 E2].
  - pose proof (job_move_alive _ _ _ _ M) as A. pose proof (ky_jobs _ (ei_keyed _ I) _ _ Q) as Ij.
    assert (id <> gj_id k) as N by congruence. destruct (job_move_keys _ _ _ _ _ M) as [Ik _]. split.
    + simpl. rewrite lookup_insert_ne; [done|congruence].
    + apply map_eq. intros i. unfold cases_of. simpl. apply option_eq. intros c. rewrite !map_lookup_filter_Some. simpl. rewrite lookup_fmap_Some. split.
      * intros [(c0 & <- & H) J]. destruct (job_move_cases _ _ _ _ _ _ (ei_keyed _ I) M H) as [A1 _ A3 _]. rewrite A1 in J.
        rewrite A3 in * by congruence. done.
      * intros [H J]. destruct (job_move_cases _ _ _ _ _ _ (ei_keyed _ I) M H) as [A1 _ A3 _]. split; [|done]. exists c. split; [|done].
        apply A3. congruence.
  - destruct F as (F1 & _ & _ & _ & _ & _ & _ & _ & _ & _ & FR & ND). assert (id <> gj_id k) as N by congruence. split.
    + simpl. by rewrite lookup_insert_ne.
    + apply map_eq. intros i. unfold cases_of. simpl. apply option_eq. intros c. rewrite !map_lookup_filter_Some. simpl.
      rewrite Forall_forall in FR. assert (forall m, Forall (fun c => m !! gc_id c = None) rows -> m !! i = Some c -> add_rows rows m !! i = Some c) as AR.
      { clear -ND. induction rows as [|r rows IH]; intros m F H; [done|]. simpl. rewrite fmap_cons in ND. apply NoDup_cons in ND as [N1 N2].
        apply Forall_cons in F as [F1 F2]. apply IH; [done| |].
        - rewrite Forall_forall in F2 |- *. intros d Hd. rewrite lookup_insert_ne; [by apply F2|]. intros E. apply N1. rewrite E. by apply list_elem_of_fmap_2.
        - rewrite lookup_insert_ne; [done|]. intros E. congruence. }
      split.
      * intros [[H|[H _]]%add_rows_lookup J]; [done|]. destruct (FR c H) as (A & _). congruence.
      * intros [H J]. split; [|done]. apply AR; [|done]. apply Forall_forall. intros d Hd. by destruct (FR d Hd) as (_ & _ & ?).
  - unfold cases_of. by rewrite E1, E2.
Qed.

Lemma moves_frozen db db' id j : eval_inv db -> rtc eval_move db db' -> g_jobs db !! id = Some j -> job_ended (gj_status j) = true ->
  g_jobs db' !! id = Some j /\ cases_of db' id = cases_of db id.
Proof.
  intros I M. revert I. induction M as [|db db1 db' M _ IH]; intros I Q E; [done|].
  destruct (move_frozen _ _ _ _ I M Q E) as [Q1 C1]. destruct (IH (move_inv _ _ I M) Q1 E) as [Q2 C2]. by rewrite C2, C1.
Qed.

(** ** The fence *)

(** A worker that had the job under a token and has lost it. *)
Definition lost (db : EvalDb) (job_id worker : pystr) (token : Z) : Prop :=
  exists j, g_jobs db !! job_id = Some j /\
    (token < gj_fencing_token j \/
     gj_fencing_token j = token /\ (job_live (gj_status j) = false \/ gj_owner_worker_id j <> Some worker)).

Lemma job_move_fence db j j' f : job_move db j j' f ->
  gj_fencing_token j < gj_fencing_token j' \/
  gj_fencing_token j' = gj_fencing_token j /\
    (job_live (gj_status j') = false \/ job_live (gj_status j) = true /\ gj_owner_worker_id j' = gj_owner_worker_id j).
Proof.
  intros M. destruct M; try (right; split; [first [done|by destruct report]|]);
    try (left; first [done|by destruct report]); try (right; split; [first [done|by rewrite H]|done]).
  left. simpl. lia.
Qed.

Lemma move_lost db db' id worker token : eval_inv db -> eval_move db db' -> lost db id worker token -> lost db' id worker token.
Proof.
  intros I M (j & Q & L). destruct M as [k k' f Qk M|k rows F|db' E1 E2].
  - destruct (job_move_keys _ _ _ _ _ M) as [Ik _]. destruct (decide (id = gj_id k)) as [->|N].
    + assert (j = k) as -> by congruence. exists k'. simpl. rewrite Ik, lookup_insert_eq. split; [done|].
      destruct (job_move_fence _ _ _ _ M) as [A|[A [B|[B C]]]]; destruct L as [L|[L [D|D]]]; rewrite ?A, ?C in *; try (left; lia); right; (split; [done|]);
        first [by left|congruence|by right].
    + exists j. simpl. rewrite lookup_insert_ne by congruence. done.
  - exists j. simpl. rewrite lookup_insert_ne; [done|]. destruct F as (F1 & _). congruence.
  - exists j. by rewrite E1.
Qed.

Lemma moves_lost db db' id worker token : eval_inv db -> rtc eval_move db db' -> lost db id worker token -> lost db' id worker token.
Proof. intros I M. revert I. induction M as [|db db1 db' M _ IH]; intros I L; [done|]. apply IH; [by eapply move_inv|by eapply move_lost]. Qed.
End moves.

(** ** Histories *)

Section claims.
Context (env : EvalEnv).

(** Calls are made in any world that holds the tables, whatever their outcome. *)
Inductive eval_reachable : EvalDb -> Prop :=
  | eval_reachable_init db : g_jobs db = ∅ -> g_cases db = ∅ -> eval_constraints db = true -> eval_reachable db
  | eval_reachable_call c w r w' : eval_reachable (w_db w) -> eval_call env c w = (r, w') -> eval_reachable (w_db w').

Lemma eval_init_inv db : g_jobs db = ∅ -> g_cases db = ∅ -> eval_inv db.
Proof.
  intros E1 E2. constructor; rewrite ?E1, ?E2; try (intros i x H; by rewrite lookup_empty in H).
  constructor; rewrite ?E1, ?E2; intros i x H; by rewrite lookup_empty in H.
Qed.

Lemma eval_reachable_inv db : eval_reachable db -> eval_inv db.
Proof.
  induction 1 as [db E1 E2 _|c w r w' _ IH H]; [by apply eval_init_inv|]. eapply (moves_inv env); [exact IH|].
  by eapply call_moves; [apply ei_keyed|].
Qed.

Lemma run_calls_reachable cs w : eval_reachable (w_db w) -> eval_reachable (w_db (run_calls env cs w)).
Proof.
  revert w. induction cs as [|c cs IH]; intros w R; [done|]. apply IH. destruct (eval_call env c w) as [r w'] eqn:E. by eapply eval_reachable_call.
Qed.

(** Later tables of a history. *)
Inductive eval_later (db : EvalDb) : EvalDb -> Prop :=
  | eval_later_refl : eval_later db db
  | eval_later_call c w r w' : eval_later db (w_db w) -> eval_call env c w = (r, w') -> eval_later db (w_db w').

Lemma run_calls_later cs w db : eval_later db (w_db w) -> eval_later db (w_db (run_calls env cs w)).
Proof.
  revert w. induction cs as [|c cs IH]; intros w R; [done|]. apply IH. destruct (eval_call env c w) as [r w'] eqn:E. by eapply eval_later_call.
Qed.

Lemma eval_later_moves db db' : eval_inv db -> eval_later db db' -> rtc (eval_move env) db db'.
Proof.
  intros I H. induction H as [|c w r w' _ IH H]; [done|]. etrans; [exact IH|].
  by eapply call_moves; [eapply ei_keyed, (moves_inv env); [exact I|exact IH]|].
Qed.

(** C18. Every operation of the evaluation repository, in any reachable tables and with
    any outcome, acts on jobs and cases as a sequence of moves of the abstract machine
    [eval_move]: a job and its cases change together, from the states the machine
    allows, and nothing else of the two tables changes. *)
Theorem evaluation_machine_refinement c w r w' :
  eval_reachable (w_db w) -> eval_call env c w = (r, w') -> rtc (eval_move env) (w_db w) (w_db w').
Proof. intros R H. eapply call_moves; [|exact H]. by apply ei_keyed, eval_reachable_inv. Qed.

(** C19. In every reachable state of the evaluation tables: a job has an owner and a lease
    exactly while it runs or is being cancelled; its fencing token counts its claims,
    which never exceed the allowed attempts; its progress is the number of its completed
    cases, unless the job has failed, when the progress is at least that number (a
    failure may still hit a case that was completed); a completed case has its
    observation; a queued job has no case under way, a cancelled
    one no open case; and when a job has succeeded every one of its cases is completed
    with an observation and the job has its report. *)
Theorem evaluation_jobs_are_consistent db : eval_reachable db ->
  eval_inv db /\
  forall id j, g_jobs db !! id = Some j -> gj_status j = G_SUCCEEDED ->
    is_Some (gj_report_json j) /\
    forall i c, g_cases db !! i = Some c -> gc_job_id c = id -> gc_status c = K_COMPLETED /\ is_Some (gc_observation_json c).
Proof.
  intros I%eval_reachable_inv. split; [done|]. intros id j Q S. pose proof (ei_jobs _ I _ _ Q) as J.
  destruct (ji_succeeded _ _ J S) as [E R]. split; [done|]. intros i c Hc Hj.
  assert (gc_status c = K_COMPLETED) as C; [|split; [done|by apply (ei_observed _ I i)]].
  pose proof (tally_split (of_job (gj_id j) (fun _ => true)) (fun c => completed (gc_status c)) (g_cases db)) as T.
  rewrite (tally_ext (fun c => of_job (gj_id j) (fun _ => true) c && completed (gc_status c)) (of_job (gj_id j) completed)) in T
    by (intros k x _; unfold of_job; by rewrite andb_true_r).
  rewrite (ji_total _ _ J), (ji_completed _ _ J) in E by by rewrite S.
  assert (tally (fun c => of_job (gj_id j) (fun _ => true) c && negb (completed (gc_status c))) (g_cases db) = 0%nat) as Z by lia.
  rewrite tally_none in Z. specialize (Z i c Hc). unfold of_job in Z. rewrite (ky_jobs _ (ei_keyed _ I) _ _ Q), Hj, bool_decide_eq_true_2 in Z by done.
  apply negb_false_iff in Z. by apply bool_decide_eq_true in Z.
Qed.

(** What has ended stays as it ended: once a job has succeeded, failed or been
    cancelled, no later call changes any column of it or of any of its cases. *)
Theorem ended_evaluation_is_final db db' id j :
  eval_reachable db -> eval_later db db' -> g_jobs db !! id = Some j -> job_ended (gj_status j) = true ->
  g_jobs db' !! id = Some j /\ cases_of db' id = cases_of db id.
Proof. intros I%eval_reachable_inv L Q E. eapply moves_frozen; [exact I| |done|done]. by apply eval_later_moves. Qed.

(** The operations a worker performs on a job it has claimed. *)
Inductive worker_call (job_id worker : pystr) (token : Z) : EvalCall -> Prop :=
  | wc_heartbeat lease : worker_call job_id worker token (GHeartbeat job_id worker token lease)
  | wc_claim_case : worker_call job_id worker token (GClaimCase job_id worker token)
  | wc_complete case_id x : worker_call job_id worker token (GCompleteCase job_id case_id worker token x)
  | wc_fail code detail case_id report : worker_call job_id worker token (GFail job_id worker token code detail case_id report)
  | wc_finish report : worker_call job_id worker token (GFinish job_id worker token report)
  | wc_finish_cancelled : worker_call job_id worker token (GFinishCancelled job_id worker token).

Lemma assert_owner_lost db job_id worker token w : w_db w = db -> lost db job_id worker token ->
  exists e, _assert_owner job_id worker token w = (Raise (EApp e), w) /\ ae_code e = CONFLICT.
Proof.
  intros <- (j & Q & L). unfold _assert_owner, mbind, M_bind, get_db, require. rewrite Q. unfold mret, M_ret, raise_if.
  assert (negb (bool_decide (gj_owner_worker_id j = Some worker)) || negb (gj_fencing_token j =? token) || negb (job_live (gj_status j)) = true) as ->.
  { destruct L as [L|[_ [L|L]]].
    - rewrite (proj2 (Z.eqb_neq _ _)) by lia. by rewrite orb_true_r.
    - rewrite L. by rewrite orb_true_r.
    - by rewrite bool_decide_eq_false_2. }
  by eexists.
Qed.

Lemma owned_call_raises {A} (k : RagEvaluationJobRow -> EM A) db job_id worker token w : w_db w = db -> lost db job_id worker token ->
  exists e, transaction (_assert_owner job_id worker token ≫= k) w = (Raise (EApp e), w) /\ ae_code e = CONFLICT.
Proof.
  intros E L. destruct (assert_owner_lost db job_id worker token w E L) as (e & H & C). exists e. split; [|done].
  erewrite transaction_fail by (by eapply bind_raise). unfold rollback. by destruct w.
Qed.

(** C20. Workers are fenced: when a worker has lost a job - another claim raised the token,
    or the job ended or went back to the queue - every operation it still performs on it
    raises a conflict and changes nothing, and this stays so in every later state. *)
Theorem evaluation_worker_is_fenced db db' job_id worker token c w :
  eval_reachable db -> lost db job_id worker token -> eval_later db db' -> worker_call job_id worker token c -> w_db w = db' ->
  exists e, eval_call env c w = (Raise (EApp e), w) /\ ae_code e = CONFLICT.
Proof.
  intros I%eval_reachable_inv L H W E. apply eval_later_moves in H; [|done]. pose proof (moves_lost env _ _ _ _ _ I H L) as L'.
  destruct W; simpl; try (by apply (owned_call_raises _ db')).
  destruct (owned_call_raises (fun job => if bool_decide (gj_status job = G_CANCELLING) then mret None
    else db ← get_db; match next_case db job_id with None => mret None | Some case =>
      now ← utcnow; let case := set_gc_updated_at now (set_gc_started_at (Some now) (set_gc_status K_RUNNING case)) in
      save_case case;; r ← _case_record env case; mret (Some r) end) db' job_id worker token w E L') as (e & X & Ce).
  exists e. split; [|done]. unfold done_with. eapply bind_raise. exact X.
Qed.

(** One claim whose next job no longer validates. *)
Lemma invalid_claim_raises locked worker lease w j :
  eval_constraints (w_db w) = true ->
  (forall i k, g_jobs (w_db w) !! i = Some k -> job_live (gj_status k) = false) ->
  next_eval_job locked (w_db w) = Some j -> ee_snapshot env (gj_model_snapshot_json j) = None ->
  exists e w', claim_next env locked worker lease w = (Raise e, w') /\ w_db w' = w_db w.
Proof.
  intros C NL N V. unfold claim_next.
  assert (exists ids w1, reconcile_expired env None w = (Ret ids, w1) /\ w_db w1 = w_db w) as (ids & w1 & E1 & D1).
  { unfold reconcile_expired. set (w1 := set_w_tick (S (w_tick w)) w).
    assert (rows_where (lease_over (w_clock w (w_tick w))) (g_jobs (w_db w)) = []) as E.
    { apply rows_where_nil. intros i k Hk. unfold lease_over. by rewrite (NL i k Hk). }
    exists [], w1. split; [|done]. erewrite bind_run by reflexivity. apply transaction_run; [|exact C].
    erewrite bind_run by reflexivity. simpl. by rewrite E. }
  rewrite (bind_run _ _ _ _ _ E1). destruct (claim_eval_job env locked worker lease w1) as [[r|e] w'] eqn:H.
  - exfalso. unfold claim_eval_job in H. apply transaction_inv in H as [H _]. apply bind_inv in H as (db & w2 & G & H).
    apply get_db_inv in G as [-> ->]. rewrite D1, N in H. unfold save_eval_job in H. minv.
    match goal with J : job_record _ _ _ _ = _ |- _ => unfold job_record, _eval_job_record in J; apply bind_inv in J as (x & w3 & J & _);
      apply require_inv in J as [J _]; cbn in J end.
    rewrite V in *. by destruct (ee_policy env (gj_gate_policy_json j)).
  - exists e, w'. split; [done|]. rewrite <- D1. unfold claim_eval_job in H. by eapply transaction_raise.
Qed.

(** Claims of any workers one after the other: the locks each one sees, its worker and
    lease; and what each of them answers. *)
Definition Claim : Type := (pystr -> bool) * pystr * Z.
Fixpoint claims_in_turn (claims : list Claim) (w : WorldOf EvalDb) : list (outcome (option ClaimedRagEvaluationJob)) * WorldOf EvalDb :=
  match claims with
  | [] => ([], w)
  | (locked, worker, lease) :: claims =>
      let '(r, w) := claim_next env locked worker lease w in
      let '(rs, w) := claims_in_turn claims w in
      (r :: rs, w)
  end.

(** C21. A job whose stored model snapshot no longer validates blocks the queue. While no
    job is under way, take any number of claims, of any workers at any times, made one
    after the other, each of which finds that job as the oldest queued one that no
    other transaction has locked: all of them raise, and after them the tables are as
    they were, however many younger jobs are queued behind it. The attempts are not
    counted either, so the job is never given up. (A claim that runs while another
    transaction holds the row lock of the job skips it.) *)
Theorem invalid_evaluation_blocks_queue (claims : list Claim) w j :
  eval_constraints (w_db w) = true ->
  (forall i k, g_jobs (w_db w) !! i = Some k -> job_live (gj_status k) = false) ->
  Forall (fun c => next_eval_job c.1.1 (w_db w) = Some j) claims ->
  ee_snapshot env (gj_model_snapshot_json j) = None ->
  exists es w', claims_in_turn claims w = (Raise <$> es, w') /\ length es = length claims /\ w_db w' = w_db w.
Proof.
  intros C NL N V. revert w C NL N. induction claims as [|[[locked worker] lease] claims IH]; intros w C NL N; [by exists [], w|].
  apply Forall_cons in N as [N1 N]. destruct (invalid_claim_raises locked worker lease w j C NL N1 V) as (e & w1 & E & D).
  rewrite <- D in C, NL, N. destruct (IH w1 C NL N) as (es & w' & E' & L & D').
  exists (e :: es), w'. cbn [claims_in_turn]. rewrite E, E'. split_and!; [done|simpl; by rewrite L|congruence].
Qed.
End claims.

(** ** A concrete history *)

Definition gx_hex : pystr := PyStr (replicate 64 97%N).
Definition gx_snapshot : ModelCatalogSnapshot := mkModelCatalogSnapshot gx_hex [].
Definition gx_dataset : RagEvalDataset := mkRagEvalDataset "faq"%py [mkRagEvalCase "a"%py "why?"%py JNull; mkRagEvalCase "b"%py "how?"%py JNull].
Definition gx_report : RagEvalReport := mkRagEvalReport [mkRagEvalCaseResult "a"%py [] []; mkRagEvalCaseResult "b"%py [] []] JNull.
Definition gx_execution (case_id : pystr) : CaseExecution :=
  mkCaseExecution (mkRagEvalObservation case_id None None JNull) "because"%py None None [] 7.
(** Codecs that accept every document but the text [old], a snapshot of another time. *)
Definition gx_env : EvalEnv := mkEvalEnv (fun _ => Some gx_dataset) (fun _ => JNull) (fun _ => gx_hex) (fun p => Some p)
  (fun j => match j with JStr _ => None | _ => Some gx_snapshot end) (fun _ => Some gx_report) (fun _ => JObj [])
  (fun _ => Some (mkRagEvalObservation "a"%py None None JNull)) (fun _ => JObj []) (fun _ _ _ _ _ => Ret gx_report).
Definition gx_start : WorldOf EvalDb :=
  mkWorld (mkEvalDb {[1 := mkUser 1 "ana"%py ""%py "admin"%py 0]} ∅ ∅ ∅ ∅) (fun n => Z.of_nat n * 1000000) 0 (fun n => py_str_int (Z.of_nat n)) 0.

Definition gx_job : pystr := "rag_eval_1"%py.
Definition gx_created : list EvalCall :=
  [GCreateDataset "ana"%py gx_dataset; GCreateJob "ana"%py "rag_dataset_0"%py (JObj []) gx_snapshot None 2].
(** The first worker completes a case and falls silent; the second takes over and ends the job. *)
Definition gx_taken_over : list EvalCall :=
  gx_created ++
  [GClaim (fun _ => false) "w1"%py 10; GClaimCase gx_job "w1"%py 1; GCompleteCase gx_job "a"%py "w1"%py 1 (gx_execution "a"%py);
   GClaimCase gx_job "w1"%py 1; GReconcile (Some 900000000); GClaim (fun _ => false) "w2"%py 10].
Definition gx_finished : list EvalCall :=
  gx_taken_over ++
  [GClaimCase gx_job "w2"%py 2; GCompleteCase gx_job "b"%py "w2"%py 2 (gx_execution "b"%py); GFinish gx_job "w2"%py 2 gx_report].

Lemma gx_reachable cs : eval_reachable gx_env (w_db (run_calls gx_env cs gx_start)).
Proof. apply run_calls_reachable. by apply eval_reachable_init. Qed.

Definition gx_status (cs : list EvalCall) : option (RagEvaluationJobStatus * Z * Z) :=
  (fun j => (gj_status j, gj_fencing_token j, gj_completed_cases j)) <$> g_jobs (w_db (run_calls gx_env cs gx_start)) !! gx_job.

Example gx_runs : gx_status <$> [gx_created; gx_taken_over; gx_finished] = [Some (G_QUEUED, 0, 0); Some (G_RUNNING, 2, 1); Some (G_SUCCEEDED, 2, 2)].
Proof. vm_compute. reflexivity. Qed.

(** The second worker's claim on the running history. *)
Lemma evaluation_machine_refinement_witness :
  let w := run_calls gx_env gx_created gx_start in let c := GClaim (fun _ => false) "w1"%py 10 in
  rtc (eval_move gx_env) (w_db w) (w_db (eval_call gx_env c w).2).
Proof.
  apply (evaluation_machine_refinement gx_env (GClaim (fun _ => false) "w1"%py 10) _ (eval_call gx_env (GClaim (fun _ => false) "w1"%py 10) (run_calls gx_env gx_created gx_start)).1);
    [apply gx_reachable|apply surjective_pairing].
Defined.

Lemma evaluation_jobs_are_consistent_witness :
  let db := w_db (run_calls gx_env gx_finished gx_start) in
  eval_inv db /\ exists j, g_jobs db !! gx_job = Some j /\ is_Some (gj_report_json j) /\
    forall i c, g_cases db !! i = Some c -> gc_job_id c = gx_job -> gc_status c = K_COMPLETED /\ is_Some (gc_observation_json c).
Proof.
  destruct (evaluation_jobs_are_consistent gx_env (w_db (run_calls gx_env gx_finished gx_start)) (gx_reachable gx_finished)) as [I S].
  split; [exact I|]. destruct (g_jobs (w_db (run_calls gx_env gx_finished gx_start)) !! gx_job) as [j|] eqn:Q; [|vm_compute in Q; discriminate Q].
  exists j. split; [reflexivity|]. apply (S gx_job j Q). vm_compute in Q. injection Q as <-. reflexivity.
Defined.

(** A cancellation after the end. *)
Lemma ended_evaluation_is_final_witness :
  let db := w_db (run_calls gx_env gx_finished gx_start) in
  let db' := w_db (run_calls gx_env [GCancel gx_job; GReconcile (Some 9000000000)] (run_calls gx_env gx_finished gx_start)) in
  exists j, g_jobs db !! gx_job = Some j /\ g_jobs db' !! gx_job = Some j /\ cases_of db' gx_job = cases_of db gx_job.
Proof.
  intros db db'. destruct (g_jobs db !! gx_job) as [j|] eqn:Q; [|vm_compute in Q; discriminate Q].
  exists j. split; [reflexivity|]. apply (ended_evaluation_is_final gx_env db db' gx_job j).
  - apply gx_reachable.
  - apply run_calls_later, eval_later_refl.
  - exact Q.
  - vm_compute in Q. injection Q as <-. reflexivity.
Defined.

(** The first worker wakes up after the second has finished the job. *)
Lemma evaluation_worker_is_fenced_witness :
  exists e, eval_call gx_env (GFail gx_job "w1"%py 1 "X"%py JNull None None) (run_calls gx_env gx_finished gx_start)
            = (Raise (EApp e), run_calls gx_env gx_finished gx_start) /\ ae_code e = CONFLICT.
Proof.
  apply (evaluation_worker_is_fenced gx_env (w_db (run_calls gx_env gx_taken_over gx_start)) (w_db (run_calls gx_env gx_finished gx_start)) gx_job "w1"%py 1).
  - apply gx_reachable.
  - unfold lost. destruct (g_jobs (w_db (run_calls gx_env gx_taken_over gx_start)) !! gx_job) as [j|] eqn:Q; [|vm_compute in Q; discriminate Q].
    exists j. split; [reflexivity|]. left. vm_compute in Q. injection Q as <-. reflexivity.
  - unfold gx_finished. rewrite run_calls_app. apply run_calls_later, eval_later_refl.
  - apply wc_fail.
  - reflexivity.
Defined.

(** A second job is queued behind one whose snapshot is of another time. *)
Definition gx_blocked : WorldOf EvalDb :=
  let w := run_calls gx_env (gx_created ++ [GCreateJob "ana"%py "rag_dataset_0"%py (JObj []) gx_snapshot None 2]) gx_start in
  set_w_db (set_g_jobs (alter (fun j => mkRagEvaluationJobRow (gj_id j) (gj_dataset_id j) None G_QUEUED 0 2 (JObj []) gx_hex (JStr "old"%py)
    None None None 0 0 2 None None None (Some 1) None None (gj_created_at j) (gj_updated_at j)) gx_job (g_jobs (w_db w))) (w_db w)) w.

Lemma invalid_evaluation_blocks_queue_witness :
  exists e1 e2 w', claims_in_turn gx_env [(fun _ => false, "w1"%py, 60); (fun _ => false, "w2"%py, 60)] gx_blocked
    = ([Raise e1; Raise e2], w') /\ w_db w' = w_db gx_blocked.
Proof.
  destruct (next_eval_job (fun _ => false) (w_db gx_blocked)) as [j|] eqn:N; [|vm_compute in N; discriminate N].
  destruct (invalid_evaluation_blocks_queue gx_env [(fun _ => false, "w1"%py, 60); (fun _ => false, "w2"%py, 60)] gx_blocked j)
    as (es & w' & E & L & D).
  - vm_compute. reflexivity.
  - apply (bool_decide_unpack (map_Forall (fun _ k => job_live (gj_status k) = false) (g_jobs (w_db gx_blocked)))). vm_compute. exact I.
  - constructor; [exact N|]. constructor; [exact N|constructor].
  - vm_compute in N. injection N as <-. reflexivity.
  - destruct es as [|e1 [|e2 [|]]]; [discriminate L|discriminate L| |discriminate L]. exists e1, e2, w'. split; [exact E|exact D].
Defined.
