(* ===== verification/Chunking.v ===== *)
(** * Loading and chunking of documents

    [backend/indexing/document_loader.py] and the sections of
    [html_processor.py]: the text of a file, page by page, becomes three levels of
    chunks with identifiers, parents, positions and content hashes. The file
    readers, the text splitters, the HTML parser, Unicode normalisation and SHA-256
    are parameters. *)

From S2P Require Import Prelude PyBase Errors Session.

Open Scope Z_scope.

(** ** Sanitising *)

(** [[\x00-\x08\x0b\x0c\x0e-\x1f\x7f]] *)
Definition _CONTROL_CHAR_RE (c : N) : bool :=
  in_range 0 8 c || in_range 11 12 c || in_range 14 31 c || (c =? 127)%N.
(** [[\u200b-\u200d\ufeff\u200f\u202a-\u202e]] *)
Definition _INVISIBLE_CHAR_RE (c : N) : bool :=
  in_range 8203 8205 c || (c =? 65279)%N || (c =? 8207)%N || in_range 8234 8238 c.
(** [[\ue000-\uf8ff]] *)
Definition private_use (c : N) : bool := in_range 57344 63743 c.

(** [re.sub(class, "", text)] *)
Definition remove_cps (p : N -> bool) (s : pystr) : pystr := PyStr (List.filter (fun c => negb (p c)) (cps_of s)).

(** ** Raw pages and chunks *)

(** A page as a loader returns it: the page number as [int] reads it ([None] when
    it is missing or not a number), the text of the section metadata, the content. *)
Record RawDoc := mkRawDoc {
  rd_page : option Z;
  rd_section_id : option pystr;
  rd_section_title : option pystr;
  rd_page_content : option pystr
}.

Record DocumentArtifactMetadata := mkDocumentArtifactMetadata {
  am_tenant_id : pystr;
  am_knowledge_base_id : pystr;
  am_document_id : pystr;
  am_document_version_id : pystr;
  am_section_id : pystr;
  am_acl_tags : list pystr;
  am_index_version : pystr
}.

(** [base_doc]: the fields every chunk of a page shares. *)
Record BaseDoc := mkBaseDoc {
  bd_filename : pystr;
  bd_file_path : pystr;
  bd_file_type : pystr;
  bd_page_number : Z;
  bd_tenant_id : pystr;
  bd_knowledge_base_id : pystr;
  bd_document_id : pystr;
  bd_document_version_id : pystr;
  bd_section_id : pystr;
  bd_acl_tags : list pystr;
  bd_index_version : pystr
}.

Record Chunk := mkChunk {
  ch_base : BaseDoc;
  ch_text : pystr;
  ch_chunk_id : pystr;
  ch_parent_chunk_id : pystr;
  ch_root_chunk_id : pystr;
  ch_chunk_level : Z;
  ch_chunk_idx : Z;
  ch_content_hash : pystr
}.

(** ** Sections of an HTML page *)

Record HtmlSection := mkHtmlSection { hs_page : Z; hs_title : pystr; hs_text : pystr }.

Definition starts_with (p s : list N) : bool := bool_decide (take (length p) s = p).

(** A line start where [(?m)^(?=## .+$)] matches. *)
Definition heading_at (l : list N) : bool :=
  starts_with (cps_of "## "%py) l && match drop 3 l with c :: _ => negb (c =? 10)%N | [] => false end.

(** [re.split(r"(?m)^(?=## .+$)", text)]; [start]: a line starts here. *)
Fixpoint split_headings (start : bool) (cur l : list N) : list pystr :=
  match l with
  | [] => [PyStr (rev cur)]
  | c :: l' =>
      if start && heading_at l then PyStr (rev cur) :: split_headings (c =? 10)%N [c] l'
      else split_headings (c =? 10)%N (c :: cur) l'
  end.

(** [block.split("\n", 1)[0]] *)
Fixpoint first_line (l : list N) : list N :=
  match l with [] => [] | c :: l => if (c =? 10)%N then [] else c :: first_line l end.

Definition newline2 : pystr := PyStr [10; 10]%N.

Definition section_title (i : Z) (block : pystr) : pystr :=
  let line := cps_of (py_strip (PyStr (first_line (cps_of block)))) in
  if starts_with (cps_of "## "%py) line then py_strip (PyStr (drop 3 line))
  else if (i =? 1) && starts_with (cps_of "# "%py) line && negb (starts_with (cps_of "##"%py) line)
  then py_strip (PyStr (drop 2 line))
  else ""%py.

Fixpoint numbered_sections (i : Z) (blocks : list pystr) : list HtmlSection :=
  match blocks with
  | [] => []
  | block :: blocks =>
      let title := section_title i block in
      let prefix := if py_nonempty title then ("[章节: "%py +++ title +++ "]"%py +++ newline2)%py else ""%py in
      mkHtmlSection i title (prefix +++ block)%py :: numbered_sections (i + 1) blocks
  end.

(** [_split_into_sections] *)
Definition _split_into_sections (linear page_title : pystr) : list HtmlSection :=
  let text := py_strip linear in
  if negb (py_nonempty text) then []
  else
    let pieces := List.filter py_nonempty (py_strip <$> split_headings true [] (cps_of text)) in
    if (length pieces <=? 1)%nat then
      let head := if py_nonempty page_title then ("["%py +++ page_title +++ "]"%py +++ newline2)%py else ""%py in
      [mkHtmlSection 1 page_title (head +++ text)%py]
    else numbered_sections 1 pieces.

Section loader.
Context (nfc : pystr -> pystr) (sha256_hex : list N -> pystr).
(** [create_documents([text], [base_doc])] of the three splitters: the page contents. *)
Context (split_level_1 split_level_2 split_level_3 : pystr -> list pystr).
(** The file readers, and the linear text and title of an HTML file. *)
Context (pdf_load docx_load excel_load : pystr -> outcome (list RawDoc)).
Context (html_linear : pystr -> outcome (pystr * pystr)).
Context (max_pages max_page_characters : Z).

(** [parse_html_file_to_sections] *)
Definition parse_html_file_to_sections (file_path : pystr) : outcome (list HtmlSection) :=
  '(page_title, linear) ← html_linear file_path;
  let linear :=
    if py_nonempty page_title && py_nonempty linear
       && negb (starts_with (cps_of "#"%py) (drop_space (cps_of linear)))
    then ("# "%py +++ page_title +++ newline2 +++ linear)%py else linear in
  mret (_split_into_sections linear page_title).

(** [load_html_for_document_loader] *)
Definition load_html_for_document_loader (file_path : pystr) : outcome (list RawDoc) :=
  sections ← parse_html_file_to_sections file_path;
  mret (List.map (fun s => mkRawDoc (Some (hs_page s)) None (Some (hs_title s)) (Some (hs_text s))) sections).

(** [sanitize_text]: encoding with [ignore] drops lone surrogates. *)
Definition sanitize_text (text : pystr) : pystr :=
  if negb (py_nonempty text) then ""%py
  else remove_cps is_surrogate (remove_cps private_use (remove_cps _CONTROL_CHAR_RE
         (remove_cps _INVISIBLE_CHAR_RE (nfc text)))).

Definition _normalize_metadata_text (value : option pystr) : pystr :=
  match value with None => ""%py | Some s => py_strip (sanitize_text s) end.

Fixpoint normalize_tags (seen : list pystr) (values : list pystr) : list pystr :=
  match values with
  | [] => []
  | v :: values =>
      let tag := _normalize_metadata_text (Some v) in
      if negb (py_nonempty tag) || bool_decide (tag ∈ seen) then normalize_tags seen values
      else tag :: normalize_tags (tag :: seen) values
  end.
(** [_normalize_acl_tags] on a sequence of strings. *)
Definition _normalize_acl_tags (values : list pystr) : list pystr := normalize_tags [] values.

(** [DocumentArtifactMetadata.__post_init__] *)
Definition make_metadata (m : DocumentArtifactMetadata) : outcome DocumentArtifactMetadata :=
  let n s := _normalize_metadata_text (Some s) in
  let m := mkDocumentArtifactMetadata (n (am_tenant_id m)) (n (am_knowledge_base_id m)) (n (am_document_id m))
             (n (am_document_version_id m)) (n (am_section_id m)) (am_acl_tags m) (n (am_index_version m)) in
  check (py_nonempty (am_tenant_id m)) (EValue "tenant_id must be a non-empty string"%py);;
  check (py_nonempty (am_knowledge_base_id m)) (EValue "knowledge_base_id must be a non-empty string"%py);;
  check (py_nonempty (am_document_id m)) (EValue "document_id must be a non-empty string"%py);;
  check (py_nonempty (am_document_version_id m)) (EValue "document_version_id must be a non-empty string"%py);;
  check (py_nonempty (am_index_version m)) (EValue "index_version must be a non-empty string"%py);;
  mret (mkDocumentArtifactMetadata (am_tenant_id m) (am_knowledge_base_id m) (am_document_id m)
          (am_document_version_id m) (am_section_id m) (_normalize_acl_tags (am_acl_tags m)) (am_index_version m)).

(** [_build_chunk_id] *)
Definition _build_chunk_id (filename : pystr) (page_number level index : Z) (document_version_id : pystr) :
    outcome pystr :=
  let chunk_path := (filename +++ "::p"%py +++ py_str_int page_number +++ "::l"%py +++ py_str_int level +++ "::"%py
                       +++ py_str_int index)%py in
  check (py_nonempty document_version_id) (EValue "document_version_id must not be empty"%py);;
  mret (document_version_id +++ "::"%py +++ chunk_path)%py.

(** [_content_hash] *)
Definition _chunk_content_hash (text : pystr) : outcome pystr :=
  match utf8_encode text with
  | Some bytes => mret (sha256_hex bytes)
  | None => Raise (EClass "UnicodeEncodeError"%py ""%py)
  end.

(** [_artifact_metadata_for_page] with the other fields of [base_doc]. *)
Definition _artifact_metadata_for_page (raw : RawDoc) (metadata : DocumentArtifactMetadata) (page_number : Z) : pystr :=
  let from_id := _normalize_metadata_text (rd_section_id raw) in
  let from_title := _normalize_metadata_text (rd_section_title raw) in
  if py_nonempty (am_section_id metadata) then am_section_id metadata
  else if py_nonempty from_id then from_id
  else if py_nonempty from_title then from_title
  else ("page:"%py +++ py_str_int page_number)%py.

(** The counters of [_split_page_to_three_levels] and the chunks so far. *)
Record Split := mkSplit { sp_level_1 : Z; sp_level_2 : Z; sp_level_3 : Z; sp_idx : Z; sp_chunks : list Chunk }.

(** [(doc.page_content or "").strip()], and whether the loop goes on with it. *)
Definition chunk_text (page_content : pystr) : option pystr :=
  let text := py_strip page_content in if py_nonempty text then Some text else None.

Definition append_chunk (base : BaseDoc) (text id parent root : pystr) (level : Z) (st : Split) : outcome Split :=
  h ← _chunk_content_hash text;
  mret (mkSplit (sp_level_1 st) (sp_level_2 st) (sp_level_3 st) (sp_idx st + 1)
          (sp_chunks st ++ [mkChunk base text id parent root level (sp_idx st) h])).

(** The loop over the level 3 texts of a level 2 chunk. *)
Fixpoint split_leaves (base : BaseDoc) (root parent : pystr) (docs : list pystr) (st : Split) : outcome Split :=
  match docs with
  | [] => mret st
  | doc :: docs =>
      match chunk_text doc with
      | None => split_leaves base root parent docs st
      | Some text =>
          id ← _build_chunk_id (bd_filename base) (bd_page_number base) 3 (sp_level_3 st) (bd_document_version_id base);
          st ← append_chunk base text id parent root 3
                 (mkSplit (sp_level_1 st) (sp_level_2 st) (sp_level_3 st + 1) (sp_idx st) (sp_chunks st));
          split_leaves base root parent docs st
      end
  end.

(** The loop over the level 2 texts of a level 1 chunk. *)
Fixpoint split_middle (base : BaseDoc) (root : pystr) (docs : list pystr) (st : Split) : outcome Split :=
  match docs with
  | [] => mret st
  | doc :: docs =>
      match chunk_text doc with
      | None => split_middle base root docs st
      | Some text =>
          id ← _build_chunk_id (bd_filename base) (bd_page_number base) 2 (sp_level_2 st) (bd_document_version_id base);
          st ← append_chunk base text id root root 2
                 (mkSplit (sp_level_1 st) (sp_level_2 st + 1) (sp_level_3 st) (sp_idx st) (sp_chunks st));
          st ← split_leaves base root id (split_level_3 text) st;
          split_middle base root docs st
      end
  end.

(** The loop over the level 1 texts of a page. *)
Fixpoint split_roots (base : BaseDoc) (docs : list pystr) (st : Split) : outcome Split :=
  match docs with
  | [] => mret st
  | doc :: docs =>
      match chunk_text doc with
      | None => split_roots base docs st
      | Some text =>
          id ← _build_chunk_id (bd_filename base) (bd_page_number base) 1 (sp_level_1 st) (bd_document_version_id base);
          st ← append_chunk base text id ""%py id 1
                 (mkSplit (sp_level_1 st + 1) (sp_level_2 st) (sp_level_3 st) (sp_idx st) (sp_chunks st));
          st ← split_middle base id (split_level_2 text) st;
          split_roots base docs st
      end
  end.

(** [_split_page_to_three_levels] *)
Definition _split_page_to_three_levels (text : pystr) (base : BaseDoc) (page_global_chunk_idx : Z) :
    outcome (list Chunk) :=
  if negb (py_nonempty text) then mret []
  else
    st ← split_roots base (split_level_1 text) (mkSplit 0 0 0 page_global_chunk_idx []);
    mret (sp_chunks st).

Definition base_doc (file_path filename doc_type : pystr) (metadata : DocumentArtifactMetadata) (raw : RawDoc) : BaseDoc :=
  let page_num := default 0 (rd_page raw) in
  mkBaseDoc (sanitize_text filename) (sanitize_text file_path) (sanitize_text doc_type) page_num
    (am_tenant_id metadata) (am_knowledge_base_id metadata) (am_document_id metadata)
    (am_document_version_id metadata) (_artifact_metadata_for_page raw metadata page_num) (am_acl_tags metadata)
    (am_index_version metadata).

(** The loop of [_load_from_langchain_docs] over the pages. *)
Fixpoint load_pages (file_path filename doc_type : pystr) (metadata : DocumentArtifactMetadata) (idx : Z)
    (raw_docs : list RawDoc) : outcome (list Chunk) :=
  match raw_docs with
  | [] => mret []
  | raw :: raw_docs =>
      let page_content := sanitize_text (py_strip (or_str (rd_page_content raw) ""%py)) in
      check (py_len page_content <=? max_page_characters)
        (EValue ("单页字符数超过限制（最多 "%py +++ py_str_int max_page_characters +++ " 字符）"%py)%py);;
      page_chunks ← _split_page_to_three_levels page_content (base_doc file_path filename doc_type metadata raw) idx;
      rest ← load_pages file_path filename doc_type metadata (idx + Z.of_nat (length page_chunks)) raw_docs;
      mret (page_chunks ++ rest)
  end.

(** [_load_from_langchain_docs] *)
Definition _load_from_langchain_docs (raw_docs : list RawDoc) (file_path filename doc_type : pystr)
    (metadata : DocumentArtifactMetadata) : outcome (list Chunk) :=
  check (Z.of_nat (length raw_docs) <=? max_pages)
    (EValue ("文档页数超过限制（最多 "%py +++ py_str_int max_pages +++ " 页）"%py)%py);;
  load_pages file_path filename doc_type metadata 0 raw_docs.

Definition ends_with (suffix s : pystr) : bool := starts_with (rev (cps_of suffix)) (rev (cps_of s)).

(** [except Exception as e: raise Exception(...)], the message of [e] left out. *)
Definition wrapped {A} (o : outcome A) : outcome A :=
  match o with
  | Raise ECancelled => Raise ECancelled
  | Raise _ => Raise (EClass "Exception"%py "处理文档失败"%py)
  | Ret a => Ret a
  end.

(** [load_document] *)
Definition load_document (file_path filename : pystr) (metadata : DocumentArtifactMetadata) : outcome (list Chunk) :=
  let file_lower := py_lower filename in
  let read doc_type load :=
    wrapped (raw_docs ← load file_path; _load_from_langchain_docs raw_docs file_path filename doc_type metadata) in
  if ends_with ".pdf"%py file_lower then read "PDF"%py pdf_load
  else if ends_with ".docx"%py file_lower || ends_with ".doc"%py file_lower then read "Word"%py docx_load
  else if ends_with ".xlsx"%py file_lower || ends_with ".xls"%py file_lower then read "Excel"%py excel_load
  else if ends_with ".html"%py file_lower || ends_with ".htm"%py file_lower then
    raw_docs ← load_html_for_document_loader file_path;
    _load_from_langchain_docs raw_docs file_path filename "HTML"%py metadata
  else Raise (EValue ("不支持的文件类型: "%py +++ filename)%py).
End loader.
