(* ===== verification/ChunkingProps.v ===== *)
(** * Properties of chunking

    The chunks of a document form a forest of three levels, numbered in order, with
    the hash of their text; their identifiers carry the version and are distinct
    when the pages are. *)

From S2P Require Import Prelude PyBase Errors Session Decimals Chunking.

Open Scope Z_scope.

(** ** Chunk identifiers *)

(** The text [_build_chunk_id] makes. *)
Definition chunk_id_text (version filename : pystr) (page level index : Z) : pystr :=
  (version +++ "::"%py +++ filename +++ "::p"%py +++ py_str_int page +++ "::l"%py +++ py_str_int level +++ "::"%py
     +++ py_str_int index)%py.

Lemma build_chunk_id_inv filename page level index version id :
  _build_chunk_id filename page level index version = Ret id -> id = chunk_id_text version filename page level index.
Proof. unfold _build_chunk_id, check. destruct (py_nonempty version); [|done]. by intros [= <-]. Qed.

Lemma chunk_id_inj v f p l n p' l' n' :
  chunk_id_text v f p l n = chunk_id_text v f p' l' n' -> p = p' /\ l = l' /\ n = n'.
Proof.
  intros H%(f_equal cps_of). unfold chunk_id_text, py_app in H. cbn [cps_of] in H.
  apply app_inv_head in H. apply app_inv_head in H. apply app_inv_head in H. apply app_inv_head in H.
  cbn [app cps_of] in H.
  apply decimal_split in H as [P H]; [|done|apply py_str_int_decimal..]. injection H as H.
  apply decimal_split in H as [L H]; [|done|apply py_str_int_decimal..]. injection H as H.
  split_and!; apply py_str_int_inj, pystr_ext; done.
Qed.

(** ** The forest *)

(** A chunk refers to chunks before it. *)
Definition linked (before : list Chunk) (c : Chunk) : Prop :=
  (ch_chunk_level c = 1 /\ ch_parent_chunk_id c = ""%py /\ ch_root_chunk_id c = ch_chunk_id c) \/
  (ch_chunk_level c = 2 /\ exists p, p ∈ before /\ ch_chunk_level p = 1 /\
     ch_parent_chunk_id c = ch_chunk_id p /\ ch_root_chunk_id c = ch_chunk_id p) \/
  (ch_chunk_level c = 3 /\ exists p, p ∈ before /\ ch_chunk_level p = 2 /\
     ch_parent_chunk_id c = ch_chunk_id p /\ ch_root_chunk_id c = ch_root_chunk_id p).

Inductive forest : list Chunk -> Prop :=
| forest_nil : forest []
| forest_snoc l c : forest l -> linked l c -> forest (l ++ [c]).

Lemma linked_mono l k c : l ⊆ k -> linked l c -> linked k c.
Proof.
  intros S [H|[(H & p & Hp & R)|(H & p & Hp & R)]]; [by left|right; left|right; right]; split; try done;
    exists p; split; auto.
Qed.

Lemma forest_app l k : forest l -> forest k -> forest (l ++ k).
Proof.
  intros L. induction 1 as [|k c _ IH H]; [by rewrite app_nil_r|]. rewrite app_assoc. constructor; [done|].
  eapply linked_mono; [|done]. set_solver.
Qed.

Section loader_props.
Context (sha256_hex : list N -> pystr).

(** A chunk of a page: stripped text, and its hash. *)
Definition chunk_ok (base : BaseDoc) (c : Chunk) : Prop :=
  ch_base c = base /\ py_nonempty (ch_text c) = true /\ py_strip (ch_text c) = ch_text c /\
  exists bytes, utf8_encode (ch_text c) = Some bytes /\ ch_content_hash c = sha256_hex bytes.

Definition counter (level : Z) (st : Split) : Z :=
  if level =? 1 then sp_level_1 st else if level =? 2 then sp_level_2 st else sp_level_3 st.
Definition bump (level : Z) (st : Split) : Split :=
  mkSplit (sp_level_1 st + if level =? 1 then 1 else 0) (sp_level_2 st + if level =? 2 then 1 else 0)
    (sp_level_3 st + if (level =? 1) || (level =? 2) then 0 else 1) (sp_idx st) (sp_chunks st).

Definition id_of (base : BaseDoc) (k : Z * Z) : pystr :=
  chunk_id_text (bd_document_version_id base) (bd_filename base) (bd_page_number base) k.1 k.2.

(** The state of the loops: [keys] are the levels and indexes of the chunks. *)
Record split_inv (base : BaseDoc) (i0 : Z) (st : Split) : Prop := mkSplitInv {
  si_forest : forest (sp_chunks st);
  si_chunks : Forall (chunk_ok base) (sp_chunks st);
  si_idx : ch_chunk_idx <$> sp_chunks st = zrange i0 (length (sp_chunks st));
  si_next : sp_idx st = i0 + Z.of_nat (length (sp_chunks st));
  si_ids : exists keys, NoDup keys /\ ch_chunk_id <$> sp_chunks st = id_of base <$> keys /\
             Forall (fun k => 1 <= k.1 <= 3 /\ k.2 < counter k.1 st) keys
}.

Lemma counter_bump l k st : 1 <= l <= 3 -> 1 <= k <= 3 -> counter l st <= counter l (bump k st).
Proof.
  intros L K. unfold counter, bump. simpl. assert (l = 1 \/ l = 2 \/ l = 3) as [->|[->| ->]] by lia;
    assert (k = 1 \/ k = 2 \/ k = 3) as [->|[->| ->]] by lia; simpl; lia.
Qed.
Lemma counter_bump_eq l st : 1 <= l <= 3 -> counter l (bump l st) = counter l st + 1.
Proof. intros L. unfold counter, bump. assert (l = 1 \/ l = 2 \/ l = 3) as [->|[->| ->]] by lia; simpl; lia. Qed.

Lemma append_chunk_inv base i0 st st' text id parent root level :
  split_inv base i0 st -> 1 <= level <= 3 ->
  py_nonempty text = true -> py_strip text = text -> id = id_of base (level, counter level st) ->
  (forall h, linked (sp_chunks st) (mkChunk base text id parent root level (sp_idx st) h)) ->
  append_chunk sha256_hex base text id parent root level (bump level st) = Ret st' ->
  split_inv base i0 st' /\
  exists h, sp_chunks st' = sp_chunks st ++ [mkChunk base text id parent root level (sp_idx st) h].
Proof.
  intros [F C I N (keys & ND & K & B)] L T S -> LK. unfold append_chunk, _chunk_content_hash.
  destruct (utf8_encode text) as [bytes|] eqn:E; [|done]. intros [= <-].
  split; [|eexists; reflexivity]. constructor; simpl.
  - by constructor.
  - apply Forall_app. split; [done|]. constructor; [|done]. unfold chunk_ok. eauto 6.
  - rewrite fmap_app, I, length_app, zrange_app. by rewrite N.
  - rewrite length_app. simpl. lia.
  - exists (keys ++ [(level, counter level st)]). split_and!.
    + apply NoDup_app. split_and!; [done| |apply NoDup_singleton].
      intros k Hk ->%list_elem_of_singleton. rewrite Forall_forall in B. destruct (B _ Hk). simpl in *. lia.
    + by rewrite !fmap_app, K.
    + apply Forall_app. split.
      * eapply Forall_impl; [exact B|]. intros k [? ?]. split; [done|].
        pose proof (counter_bump k.1 level st). change (counter k.1 _) with (counter k.1 (bump level st)). lia.
      * constructor; [|done]. simpl. split; [done|].
        change (counter level st < counter level (bump level st)). rewrite counter_bump_eq; lia.
Qed.

Lemma chunk_text_inv doc text : chunk_text doc = Some text -> py_nonempty text = true /\ py_strip text = text.
Proof.
  unfold chunk_text. destruct (py_nonempty (py_strip doc)) eqn:E; [|done]. intros [= <-]. by rewrite py_strip_idem.
Qed.

Lemma split_leaves_inv base i0 root parent docs st st' :
  split_inv base i0 st ->
  (exists p, p ∈ sp_chunks st /\ ch_chunk_level p = 2 /\ ch_chunk_id p = parent /\ ch_root_chunk_id p = root) ->
  split_leaves sha256_hex base root parent docs st = Ret st' ->
  split_inv base i0 st' /\ sp_chunks st ⊆ sp_chunks st'.
Proof.
  revert st. induction docs as [|doc docs IH]; intros st I (p & Hp & P); cbn [split_leaves].
  { intros [= <-]. by split. }
  destruct (chunk_text doc) as [text|] eqn:T; [|intros H; eapply IH; eauto].
  apply chunk_text_inv in T as [T S].
  intros (id & ->%build_chunk_id_inv & (st1 & A & H)%outcome_bind_inv)%outcome_bind_inv.
  replace (mkSplit _ _ (sp_level_3 st + 1) _ _) with (bump 3 st) in A by (unfold bump; simpl; f_equal; lia).
  eapply append_chunk_inv in A as [I1 (h & E)]; try done.
  - destruct (IH st1 I1) as [I2 S2]; [|done|].
    + exists p. rewrite E. split; [set_solver|done].
    + split; [done|]. rewrite E in S2. set_solver.
  - intros h. right; right. split; [done|]. exists p. destruct P as (? & <- & <-). done.
Qed.

Context (split_level_3 : pystr -> list pystr).

Lemma split_middle_inv base i0 root docs st st' :
  split_inv base i0 st ->
  (exists p, p ∈ sp_chunks st /\ ch_chunk_level p = 1 /\ ch_chunk_id p = root) ->
  split_middle sha256_hex split_level_3 base root docs st = Ret st' ->
  split_inv base i0 st' /\ sp_chunks st ⊆ sp_chunks st'.
Proof.
  revert st. induction docs as [|doc docs IH]; intros st I (p & Hp & P); cbn [split_middle].
  { intros [= <-]. by split. }
  destruct (chunk_text doc) as [text|] eqn:T; [|intros H; eapply IH; eauto].
  apply chunk_text_inv in T as [T S].
  intros (id & ->%build_chunk_id_inv & (st1 & A & (st2 & B & H)%outcome_bind_inv)%outcome_bind_inv)%outcome_bind_inv.
  replace (mkSplit _ (sp_level_2 st + 1) _ _ _) with (bump 2 st) in A by (unfold bump; simpl; f_equal; lia).
  eapply append_chunk_inv in A as [I1 (h & E)]; try done.
  - eapply split_leaves_inv in B as [I2 S2]; [|done|].
    + destruct (IH st2 I2) as [I3 S3]; [|done|].
      * exists p. split; [|done]. apply S2. rewrite E. set_solver.
      * split; [done|]. rewrite E in S2. set_solver.
    + eexists. split; [rewrite E; apply elem_of_app; right; apply list_elem_of_singleton; reflexivity|done].
  - intros h. right; left. split; [done|]. exists p. destruct P as (? & <-). done.
Qed.

Context (split_level_2 : pystr -> list pystr).

Lemma split_roots_inv base i0 docs st st' :
  split_inv base i0 st -> split_roots sha256_hex split_level_2 split_level_3 base docs st = Ret st' ->
  split_inv base i0 st'.
Proof.
  revert st. induction docs as [|doc docs IH]; intros st I; cbn [split_roots].
  { by intros [= <-]. }
  destruct (chunk_text doc) as [text|] eqn:T; [|intros H; eapply IH; eauto].
  apply chunk_text_inv in T as [T S].
  intros (id & ->%build_chunk_id_inv & (st1 & A & (st2 & B & H)%outcome_bind_inv)%outcome_bind_inv)%outcome_bind_inv.
  replace (mkSplit (sp_level_1 st + 1) _ _ _ _) with (bump 1 st) in A by (unfold bump; simpl; f_equal; lia).
  eapply append_chunk_inv in A as [I1 (h & E)]; try done.
  - eapply split_middle_inv in B as [I2 _]; [by eapply IH|done|].
    eexists. split; [rewrite E; apply elem_of_app; right; apply list_elem_of_singleton; reflexivity|done].
  - intros h'. by left.
Qed.

Context (nfc : pystr -> pystr) (split_level_1 : pystr -> list pystr).
Context (max_pages max_page_characters : Z).

(** The chunks of some pages, numbered from [i0]. *)
Record pages_inv (file_path filename doc_type : pystr) (metadata : DocumentArtifactMetadata) (raws : list RawDoc)
    (i0 : Z) (chunks : list Chunk) : Prop := mkPagesInv {
  pi_forest : forest chunks;
  pi_chunks : Forall (fun c => exists raw, raw ∈ raws /\
    chunk_ok (base_doc nfc file_path filename doc_type metadata raw) c) chunks;
  pi_idx : ch_chunk_idx <$> chunks = zrange i0 (length chunks);
  pi_ids : exists keys : list (Z * (Z * Z)),
    ch_chunk_id <$> chunks = (fun k => chunk_id_text (am_document_version_id metadata) (sanitize_text nfc filename) k.1
                                         k.2.1 k.2.2) <$> keys /\
    Forall (fun k => exists raw, raw ∈ raws /\ k.1 = default 0 (rd_page raw)) keys /\
    (NoDup ((fun raw => default 0 (rd_page raw)) <$> raws) -> NoDup keys)
}.

Lemma split_page_inv file_path filename doc_type metadata raw i0 text chunks :
  _split_page_to_three_levels sha256_hex split_level_1 split_level_2 split_level_3 text
    (base_doc nfc file_path filename doc_type metadata raw) i0 = Ret chunks ->
  pages_inv file_path filename doc_type metadata [raw] i0 chunks.
Proof.
  unfold _split_page_to_three_levels. destruct (negb (py_nonempty text)).
  - intros [= <-]. constructor; [constructor|constructor|done|]. exists []. split_and!; [done|constructor|constructor].
  - intros (st & [F C I N (keys & ND & K & B)]%(split_roots_inv _ i0) & [= <-])%outcome_bind_inv.
    + constructor; [done| |done|].
      * eapply Forall_impl; [exact C|]. intros c H. exists raw. split; [set_solver|done].
      * exists ((fun k => (default 0 (rd_page raw), k)) <$> keys). split_and!.
        -- rewrite K, <- list_fmap_compose. done.
        -- apply Forall_fmap. apply Forall_true. intros k. exists raw. split; [set_solver|done].
        -- intros _. apply NoDup_fmap; [|done]. by intros ? ? [=].
    + constructor; simpl; try done; [constructor|lia|]. exists []. split_and!; [constructor|done|constructor].
Qed.

Lemma pages_inv_app file_path filename doc_type metadata raw raws i0 l k :
  pages_inv file_path filename doc_type metadata [raw] i0 l ->
  pages_inv file_path filename doc_type metadata raws (i0 + Z.of_nat (length l)) k ->
  pages_inv file_path filename doc_type metadata (raw :: raws) i0 (l ++ k).
Proof.
  intros [F1 C1 I1 (k1 & K1 & P1 & N1)] [F2 C2 I2 (k2 & K2 & P2 & N2)]. constructor.
  - by apply forest_app.
  - apply Forall_app. split; (eapply Forall_impl; [eassumption|]); intros c (r & Hr & Hc); exists r; (split; [|done]);
      apply elem_of_cons; [left; by apply list_elem_of_singleton|by right].
  - by rewrite fmap_app, I1, I2, length_app, zrange_app.
  - exists (k1 ++ k2). split_and!.
    + by rewrite !fmap_app, K1, K2.
    + apply Forall_app. split; (eapply Forall_impl; [eassumption|]); intros c (r & Hr & Hc); exists r; (split; [|done]);
        apply elem_of_cons; [left; by apply list_elem_of_singleton|by right].
    + rewrite fmap_cons. intros [Nr NR]%NoDup_cons. apply NoDup_app. split_and!; [apply N1; apply NoDup_singleton| |by apply N2].
      intros x H1 H2. rewrite Forall_forall in P1, P2. destruct (P1 _ H1) as (r1 & ->%list_elem_of_singleton & E1).
      destruct (P2 _ H2) as (r2 & R2 & E2). apply Nr. apply list_elem_of_fmap. exists r2. split; [congruence|done].
Qed.

Lemma load_pages_inv file_path filename doc_type metadata raws i0 chunks :
  load_pages nfc sha256_hex split_level_1 split_level_2 split_level_3 max_page_characters file_path filename doc_type
    metadata i0 raws = Ret chunks ->
  pages_inv file_path filename doc_type metadata raws i0 chunks.
Proof.
  revert i0 chunks. induction raws as [|raw raws IH]; intros i0 chunks; cbn [load_pages].
  { intros [= <-]. constructor; [constructor|constructor|done|]. exists []. split_and!; [done|constructor|constructor]. }
  intros (u & _ & (l & L & (k & K & [= <-])%outcome_bind_inv)%outcome_bind_inv)%outcome_bind_inv.
  apply pages_inv_app; [by eapply split_page_inv|by apply IH].
Qed.

(** C27. The chunks of a document form a forest of three levels: every middle chunk
    comes after its level 1 parent and every leaf after its middle parent, with the
    level 1 chunk of its tree as root. They are numbered 0, 1, 2, ... in order, each
    has the hash of its text, which is not blank, and the scope of the version it
    was loaded for. When the pages have distinct numbers, so have the chunks
    distinct identifiers. *)
Theorem chunks_form_forest raws file_path filename doc_type metadata chunks :
  _load_from_langchain_docs nfc sha256_hex split_level_1 split_level_2 split_level_3 max_pages max_page_characters raws
    file_path filename doc_type metadata = Ret chunks ->
  forest chunks /\
  ch_chunk_idx <$> chunks = zrange 0 (length chunks) /\
  Forall (fun c =>
    py_nonempty (ch_text c) = true /\
    (exists bytes, utf8_encode (ch_text c) = Some bytes /\ ch_content_hash c = sha256_hex bytes) /\
    bd_tenant_id (ch_base c) = am_tenant_id metadata /\
    bd_knowledge_base_id (ch_base c) = am_knowledge_base_id metadata /\
    bd_document_id (ch_base c) = am_document_id metadata /\
    bd_document_version_id (ch_base c) = am_document_version_id metadata /\
    bd_index_version (ch_base c) = am_index_version metadata) chunks /\
  (NoDup ((fun raw => default 0 (rd_page raw)) <$> raws) -> NoDup (ch_chunk_id <$> chunks)).
Proof.
  unfold _load_from_langchain_docs. intros (u & _ & [F C I (keys & K & _ & N)]%load_pages_inv)%outcome_bind_inv.
  split_and!; [done|done| |].
  - eapply Forall_impl; [exact C|]. intros c (raw & _ & E & T & _ & H). rewrite E. done.
  - intros ND. rewrite K. apply NoDup_fmap; [|by apply N].
    intros [p [l n]] [p' [l' n']] (E1 & E2 & E3)%chunk_id_inj. simpl in *. congruence.
Qed.
End loader_props.

(** ** Sections of HTML pages *)

Lemma numbered_pages i blocks : hs_page <$> numbered_sections i blocks = zrange i (length blocks).
Proof. revert i. induction blocks as [|b l IH]; intros i; simpl; [done|]. by rewrite IH. Qed.

(** The pages of an HTML file are numbered from 1 without repetition. *)
Lemma html_pages_distinct html_linear file_path raws :
  load_html_for_document_loader html_linear file_path = Ret raws ->
  (fun raw => default 0 (rd_page raw)) <$> raws = zrange 1 (length raws).
Proof.
  unfold load_html_for_document_loader, parse_html_file_to_sections.
  intros (ss & ([title linear] & _ & [= <-])%outcome_bind_inv & [= <-])%outcome_bind_inv.
  match goal with |- context [_split_into_sections ?x title] => generalize x end. intros linear'.
  assert (hs_page <$> _split_into_sections linear' title = zrange 1 (length (_split_into_sections linear' title))) as E.
  { unfold _split_into_sections. cbv zeta. destruct (negb _); [done|]. destruct (_ <=? 1)%nat; [done|].
    rewrite numbered_pages. f_equal. rewrite <- (length_fmap hs_page), numbered_pages. by rewrite length_zrange. }
  rewrite length_map, <- E. clear E. induction (_split_into_sections linear' title); f_equal/=; done.
Qed.

(** A page of two paragraphs, split at every level as it is. *)
Definition two_pages : list RawDoc :=
  [mkRawDoc (Some 1) None None (Some "alpha"%py); mkRawDoc (Some 2) None (Some "S"%py) (Some "beta"%py)].
Definition doc_metadata : DocumentArtifactMetadata :=
  mkDocumentArtifactMetadata "t"%py "kb"%py "doc"%py "docver"%py ""%py [] "v1"%py.
Definition load_two_pages : outcome (list Chunk) :=
  _load_from_langchain_docs (fun s => s) (fun _ => "hash"%py) (fun s => [s]) (fun s => [s]) (fun s => [s]) 10 100 two_pages
    "/f"%py "f.pdf"%py "PDF"%py doc_metadata.
Definition two_pages_chunks : list Chunk := match load_two_pages with Ret l => l | Raise _ => [] end.

Lemma chunks_form_forest_witness :
  length two_pages_chunks = 6%nat /\ NoDup (ch_chunk_id <$> two_pages_chunks).
Proof.
  split; [vm_compute; reflexivity|].
  apply (chunks_form_forest (fun _ => "hash"%py) (fun s => [s]) (fun s => [s]) (fun s => s) (fun s => [s]) 10 100 two_pages
           "/f"%py "f.pdf"%py "PDF"%py doc_metadata two_pages_chunks ltac:(vm_compute; reflexivity)).
  apply (bool_decide_unpack _). vm_compute. exact I.
Defined.
