(* ===== verification/Filters.v ===== *)
(** * Milvus filter expressions

    [backend/security/milvus_filters.py]: the expressions that scope every query and
    deletion of the vector store are built as text. The fragment of Milvus' filter
    language they use is given by a parser and an evaluator; the text built for a
    scope reads back as exactly the comparisons of the scope, whatever characters
    the identifiers contain. *)

From S2P Require Import Prelude PyBase Errors Session.

Open Scope Z_scope.

(** ** Literals *)

(** A value of a filter; a float by its [str] text. *)
Inductive fvalue :=
| FStr (s : pystr)
| FInt (z : Z)
| FFloat (text : pystr)
| FBool (b : bool).

#[export] Instance fvalue_eq_dec : EqDecision fvalue.
Proof. solve_decision. Defined.

Definition hex_digit (n : N) : N := if (n <? 10)%N then (48 + n)%N else (87 + n)%N.

(** One character of [json.dumps(s, ensure_ascii=False)]. *)
Definition escape_cp (c : N) : list N :=
  if (c =? 34)%N then [92; 34]%N
  else if (c =? 92)%N then [92; 92]%N
  else if (c =? 10)%N then [92; 110]%N
  else if (c =? 13)%N then [92; 114]%N
  else if (c =? 9)%N then [92; 116]%N
  else if (c =? 12)%N then [92; 102]%N
  else if (c =? 8)%N then [92; 98]%N
  else if (c <? 32)%N then ([92; 117; 48; 48] ++ [hex_digit (c / 16); hex_digit (c mod 16)])%N
  else [c].

Definition string_literal (value : pystr) : pystr := PyStr (34%N :: (cps_of value ≫= escape_cp) ++ [34%N]).

Definition word_cp (c : N) : bool := is_az c || is_AZ c || is_09 c || (c =? 95)%N.

(** [_FIELD_RE]: [[A-Za-z_][A-Za-z0-9_]*]. [$] would also match before a final line
    break, but the expression is used with [fullmatch]. *)
Definition _FIELD_RE (name : pystr) : bool :=
  fullmatch_id (fun c => is_az c || is_AZ c || (c =? 95)%N) word_cp None name.

Definition _field (name : pystr) : outcome pystr :=
  check (_FIELD_RE name) (EValue "invalid Milvus field name"%py);;
  mret name.

Fixpoint normalized_ids (seen values : list pystr) : list pystr :=
  match values with
  | [] => []
  | v :: values =>
      let n := py_strip v in
      if negb (py_nonempty n) || bool_decide (n ∈ seen) then normalized_ids seen values
      else n :: normalized_ids (n :: seen) values
  end.
Definition _normalized_document_version_ids (values : list pystr) : list pystr := normalized_ids [] values.

(** ** Builders *)

Definition literal (v : fvalue) : pystr :=
  match v with
  | FStr s => string_literal s
  | FBool b => if b then "true"%py else "false"%py
  | FInt z => py_str_int z
  | FFloat text => text
  end.

Definition eq_filter (field : pystr) (value : fvalue) : outcome pystr :=
  safe_field ← _field field;
  mret (safe_field +++ " == "%py +++ literal value)%py.

(** The literals of [in] and [not in], where a truth value is refused. *)
Fixpoint list_literals (values : list fvalue) : outcome (list pystr) :=
  match values with
  | [] => mret []
  | FBool _ :: _ => Raise (EClass "TypeError"%py "unsupported Milvus filter value"%py)
  | v :: values => rest ← list_literals values; mret (literal v :: rest)
  end.

Definition in_filter (field : pystr) (values : list fvalue) : outcome pystr :=
  safe_field ← _field field;
  literals ← list_literals values;
  mret (match literals with
        | [] => "id < 0"%py
        | _ => (safe_field +++ " in ["%py +++ py_join ", "%py literals +++ "]"%py)%py
        end).

Definition not_in_filter (field : pystr) (values : list fvalue) : outcome pystr :=
  safe_field ← _field field;
  literals ← list_literals values;
  mret (match literals with
        | [] => "id >= 0"%py
        | _ => (safe_field +++ " not in ["%py +++ py_join ", "%py literals +++ "]"%py)%py
        end).

(** The expressions that are given and not blank, stripped. *)
Definition given (expressions : list (option pystr)) : list pystr :=
  List.filter py_nonempty (py_strip <$> omap (fun o => o) expressions).
Definition parenthesized (e : pystr) : pystr := ("("%py +++ e +++ ")"%py)%py.

Definition and_filter (expressions : list (option pystr)) : pystr :=
  match given expressions with
  | [] => "id < 0"%py
  | normalized => py_join " and "%py (parenthesized <$> normalized)
  end.

Definition or_filter (expressions : list (option pystr)) : pystr :=
  match given expressions with
  | [] => "id < 0"%py
  | normalized => py_join " or "%py (parenthesized <$> normalized)
  end.

Definition index_version_filter (index_version : option pystr) : outcome (list (option pystr)) :=
  match index_version with
  | None => mret []
  | Some v =>
      check (py_nonempty (py_strip v)) (EValue "index_version must be a non-empty string"%py);;
      e ← eq_filter "index_version"%py (FStr (py_strip v));
      mret [Some e]
  end.

Definition version_identity_filter (document_version_ids : list pystr) (index_version : option pystr) : outcome pystr :=
  e ← in_filter "document_version_id"%py (FStr <$> _normalized_document_version_ids document_version_ids);
  iv ← index_version_filter index_version;
  mret (and_filter (Some e :: iv)).

Definition scope_present (field value : pystr) : outcome unit :=
  check (py_nonempty (py_strip value)) (EValue (field +++ " must be a non-empty string"%py)%py).

Definition version_scope_filter (tenant_id knowledge_base_id document_id : pystr) (document_version_ids : list pystr)
    (index_version : option pystr) : outcome pystr :=
  scope_present "tenant_id"%py tenant_id;;
  scope_present "knowledge_base_id"%py knowledge_base_id;;
  scope_present "document_id"%py document_id;;
  let version_ids := _normalized_document_version_ids document_version_ids in
  t ← eq_filter "tenant_id"%py (FStr (py_strip tenant_id));
  k ← eq_filter "knowledge_base_id"%py (FStr (py_strip knowledge_base_id));
  d ← eq_filter "document_id"%py (FStr (py_strip document_id));
  v ← in_filter "document_version_id"%py (FStr <$> version_ids);
  iv ← index_version_filter index_version;
  mret (and_filter (Some t :: Some k :: Some d :: Some v :: iv)).

(** ** The language *)

Inductive fexpr :=
| EEq (field : pystr) (v : fvalue)
| EIn (field : pystr) (vs : list pystr)
| EIdBelow    (** [id < 0] *)
| EAnd (l r : fexpr).

(** A text prefix. *)
Definition eat (p l : list N) : option (list N) := if decide (take (length p) l = p) then Some (drop (length p) l) else None.

Fixpoint read_word (l : list N) : list N * list N :=
  match l with
  | c :: l' => if word_cp c then let '(w, r) := read_word l' in (c :: w, r) else ([], l)
  | [] => ([], [])
  end.

Definition hex_value (c : N) : option N :=
  if is_09 c then Some (c - 48)%N else if in_range 97 102 c then Some (c - 87)%N
  else if in_range 65 70 c then Some (c - 55)%N else None.

(** The characters of a string literal up to its closing quote. *)
Fixpoint read_string (l : list N) : option (list N * list N) :=
  match l with
  | [] => None
  | c :: l1 =>
      if (c =? 34)%N then Some ([], l1)
      else if (c =? 92)%N then
        match l1 with
        | [] => None
        | e :: l2 =>
            let plain x := '(s, r) ← read_string l2; Some (x :: s, r) in
            if (e =? 34)%N then plain 34%N
            else if (e =? 92)%N then plain 92%N
            else if (e =? 110)%N then plain 10%N
            else if (e =? 114)%N then plain 13%N
            else if (e =? 116)%N then plain 9%N
            else if (e =? 102)%N then plain 12%N
            else if (e =? 98)%N then plain 8%N
            else if (e =? 117)%N then
              match l2 with
              | a :: b :: d :: f :: l3 =>
                  a ← hex_value a; b ← hex_value b; d ← hex_value d; f ← hex_value f;
                  '(s, r) ← read_string l3;
                  Some ((4096 * a + 256 * b + 16 * d + f)%N :: s, r)
              | _ => None
              end
            else None
        end
      else '(s, r) ← read_string l1; Some (c :: s, r)
  end.

Definition read_literal (l : list N) : option (pystr * list N) :=
  l ← eat [34%N] l; '(s, r) ← read_string l; Some (PyStr s, r).

(** An integer: decimal digits after an optional sign. *)
Fixpoint read_digits_from (acc : Z) (l : list N) : Z * list N :=
  match l with
  | c :: l' => if is_09 c then read_digits_from (10 * acc + (Z.of_N c - 48)) l' else (acc, l)
  | [] => (acc, [])
  end.
Definition read_int (l : list N) : option (Z * list N) :=
  let '(negative, l) := match eat [45%N] l with Some l => (true, l) | None => (false, l) end in
  match l with
  | c :: _ =>
      if is_09 c then let '(n, r) := read_digits_from 0 l in Some ((if (negative : bool) then - n else n), r) else None
  | [] => None
  end.

Definition read_value (l : list N) : option (fvalue * list N) :=
  match read_literal l with
  | Some (s, r) => Some (FStr s, r)
  | None => '(z, r) ← read_int l; Some (FInt z, r)
  end.

(** The literals after the first, up to the closing bracket. *)
Fixpoint read_literals (fuel : nat) (l : list N) : option (list pystr * list N) :=
  match fuel with
  | O => None
  | S fuel =>
      '(s, l) ← read_literal l;
      match eat (cps_of ", "%py) l with
      | Some l => '(ss, r) ← read_literals fuel l; Some (s :: ss, r)
      | None => l ← eat (cps_of "]"%py) l; Some ([s], l)
      end
  end.

Definition read_comparison (l : list N) : option (fexpr * list N) :=
  let '(w, r) := read_word l in
  match w with
  | [] => None
  | _ =>
      match eat (cps_of " == "%py) r with
      | Some r => '(v, r) ← read_value r; Some (EEq (PyStr w) v, r)
      | None =>
          match eat (cps_of " in ["%py) r with
          | Some r => '(ss, r) ← read_literals (S (length r)) r; Some (EIn (PyStr w) ss, r)
          | None => r ← eat (cps_of " < 0"%py) r; if decide (w = cps_of "id"%py) then Some (EIdBelow, r) else None
          end
      end
  end.

(** A parenthesised expression or a comparison, and conjunctions of them. *)
Fixpoint read_expr (fuel : nat) (l : list N) : option (fexpr * list N) :=
  match fuel with
  | O => None
  | S fuel =>
      '(e, l) ← match eat [40%N] l with
                | Some l => '(e, l) ← read_expr fuel l; l ← eat [41%N] l; Some (e, l)
                | None => read_comparison l
                end;
      match eat (cps_of " and "%py) l with
      | Some l => '(e2, l) ← read_expr fuel l; Some (EAnd e e2, l)
      | None => Some (e, l)
      end
  end.

Definition parse_filter (s : pystr) : option fexpr :=
  match read_expr (S (length (cps_of s))) (cps_of s) with
  | Some (e, []) => Some e
  | _ => None
  end.

(** The fields of an entity; primary keys are not negative. *)
Definition entity := pystr -> option fvalue.

Fixpoint matches (e : fexpr) (row : entity) : bool :=
  match e with
  | EEq f v => bool_decide (row f = Some v)
  | EIn f vs => match row f with Some (FStr v) => bool_decide (v ∈ vs) | _ => false end
  | EIdBelow => false
  | EAnd l r => matches l row && matches r row
  end.
