(* ===== verification/FiltersProps.v ===== *)
(** * Scope filters say what they mean

    The text of a scope filter parses to the comparisons of the scope, so an entity
    matches it exactly when it belongs to the scope: no identifier can break out of
    its literal. *)

From S2P Require Import Prelude PyBase Errors Session Decimals Filters.

Open Scope Z_scope.

(** ** Reading literals *)

Definition hex_ok (c : N) : Prop :=
  hex_value (hex_digit (c / 16)) = Some (c / 16)%N /\ hex_value (hex_digit (c mod 16)) = Some (c mod 16)%N /\
  (16 * (c / 16) + c mod 16 = c)%N.

Lemma control_hex c : (c < 32)%N -> hex_ok c.
Proof.
  intros H. rewrite <- (N2Nat.id c). assert (N.to_nat c < 32)%nat as L by lia. revert L. generalize (N.to_nat c).
  clear. intros n L. do 32 (destruct n as [|n]; [by vm_compute|]). lia.
Qed.

Lemma read_string_escape s rest : read_string ((s ≫= escape_cp) ++ 34%N :: rest) = Some (s, rest).
Proof.
  induction s as [|c s IH]; [done|]. rewrite bind_cons, <- app_assoc. unfold escape_cp at 1.
  repeat match goal with |- context [if (c =? ?k)%N then _ else _] =>
    destruct (N.eqb_spec c k) as [->|?]; [cbn; by rewrite IH|] end.
  destruct (N.ltb_spec c 32).
  - assert (hex_value (hex_digit (c / 16)) = Some (c / 16)%N /\ hex_value (hex_digit (c mod 16)) = Some (c mod 16)%N /\
            (16 * (c / 16) + c mod 16 = c)%N) as (E1 & E2 & E3).
    { by apply control_hex. }
    revert E1 E2 E3. generalize (c / 16)%N (c mod 16)%N. intros a b E1 E2 E3.
    cbn. rewrite E1, E2. cbn. rewrite IH. cbn. do 3 f_equal. lia.
  - cbn. destruct (N.eqb_spec c 34); [done|]. destruct (N.eqb_spec c 92); [done|]. by rewrite IH.
Qed.

Lemma eat_app p l : eat p (p ++ l) = Some l.
Proof. unfold eat. rewrite take_app_length, drop_app_length. by destruct (decide _). Qed.

Lemma eat_cons c d l : eat [c] (d :: l) = if decide (d = c) then Some l else None.
Proof. unfold eat. simpl. by destruct (decide (_ = [c])) as [[=]|], (decide (d = c)); subst. Qed.

Lemma read_literal_text s rest : read_literal (cps_of (string_literal s) ++ rest) = Some (s, rest).
Proof.
  unfold read_literal, string_literal. cbn [cps_of]. rewrite <- app_comm_cons, eat_cons, decide_True by done.
  cbn. rewrite <- app_assoc. cbn [app]. rewrite read_string_escape. by destruct s.
Qed.

Lemma cps_app s t : cps_of (s +++ t)%py = cps_of s ++ cps_of t.
Proof. done. Qed.

Lemma cps_join sep p q ps : cps_of (py_join sep (p :: q :: ps)) = cps_of p ++ cps_of sep ++ cps_of (py_join sep (q :: ps)).
Proof. done. Qed.

Lemma read_literals_text s ss rest fuel :
  (length ss < fuel)%nat ->
  read_literals fuel (cps_of (py_join ", "%py (string_literal <$> (s :: ss))) ++ 93%N :: rest) = Some (s :: ss, rest).
Proof.
  revert s fuel. induction ss as [|s2 ss IH]; intros s [|fuel] F; simpl in F; try lia.
  - cbn [read_literals fmap list_fmap py_join]. rewrite read_literal_text. cbn [mbind option_bind].
    unfold eat at 1. cbn. done.
  - rewrite !fmap_cons, cps_join, <- !app_assoc. cbn [read_literals]. rewrite read_literal_text. cbn [mbind option_bind].
    rewrite eat_app. rewrite <- fmap_cons, IH by lia. done.
Qed.

(** ** Reading comparisons *)

Lemma read_word_text w r :
  Forall (fun c => word_cp c = true) w -> match r with c :: _ => word_cp c = false | [] => True end ->
  read_word (w ++ r) = (w, r).
Proof.
  intros W R. induction W as [|c w Hc _ IH]; simpl.
  - destruct r as [|c r]; [done|]. simpl. by rewrite R.
  - by rewrite Hc, IH.
Qed.

(** A text that reads as an expression before a closing parenthesis, with enough fuel
    for the nesting in it. *)
Definition reads_within (k : nat) (t : pystr) (e : fexpr) : Prop :=
  py_strip t = t /\ py_nonempty t = true /\
  forall rest fuel, (k <= fuel)%nat -> read_expr fuel (cps_of t ++ 41%N :: rest) = Some (e, 41%N :: rest).
Abbreviation reads_as := (reads_within 1).

Lemma reads_deeper k t e : reads_as t e -> (1 <= k)%nat -> reads_within k t e.
Proof. intros (S & N & R) K. split_and!; [done..|]. intros rest fuel F. apply R. lia. Qed.

Lemma strip_ends c l d : is_space c = false -> is_space d = false -> py_strip (PyStr (c :: l ++ [d])) = PyStr (c :: l ++ [d]).
Proof.
  intros C D. unfold py_strip. cbn [cps_of drop_space]. rewrite C.
  rewrite app_comm_cons, rev_app_distr. cbn [rev app drop_space]. rewrite D. cbn [rev].
  by rewrite rev_app_distr, rev_involutive.
Qed.

(** A field name as the code writes them. *)
Definition field_name (f : pystr) : Prop :=
  exists c w, cps_of f = c :: w /\ _FIELD_RE f = true /\ Forall (fun c => word_cp c = true) (c :: w).

Lemma field_first f c w : cps_of f = c :: w -> word_cp c = true -> is_space c = false /\ c <> 40%N.
Proof.
  intros _ W. destruct (is_space c) eqn:S.
  - exfalso. unfold word_cp, is_az, is_AZ, is_09, in_range in W. unfold is_space in S.
    repeat rewrite ?orb_true_iff, ?andb_true_iff, ?N.leb_le, ?N.eqb_eq in *. lia.
  - split; [done|]. intros ->. done.
Qed.

Lemma field_app f rest :
  field_name f -> match rest with c :: _ => word_cp c = false | [] => True end ->
  exists c w, cps_of f = c :: w /\ is_space c = false /\ c <> 40%N /\ read_word (cps_of f ++ rest) = (cps_of f, rest).
Proof.
  intros (c & w & E & _ & W) R. exists c, w. inversion W; subst. destruct (field_first f c w) as [? ?]; try done.
  split_and!; try done. rewrite E. by apply read_word_text.
Qed.

Lemma read_expr_comparison t e :
  (forall rest, read_comparison (cps_of t ++ 41%N :: rest) = Some (e, 41%N :: rest)) ->
  (exists c l d, t = PyStr (c :: l ++ [d]) /\ is_space c = false /\ is_space d = false /\ c <> 40%N) -> reads_as t e.
Proof.
  intros R (c & l & d & -> & C & D & P). split_and!; [by apply strip_ends|done|]. intros rest [|fuel] F; [lia|].
  cbn [read_expr]. specialize (R rest). cbn [cps_of app] in *. rewrite eat_cons, decide_False by done. rewrite R. done.
Qed.

Lemma eq_reads f v t : field_name f -> eq_filter f (FStr v) = Ret t -> reads_as t (EEq f (FStr v)).
Proof.
  intros F. unfold eq_filter, _field. pose proof F as (c0 & w0 & E0 & V & _). unfold check. rewrite V. cbn. intros [= <-].
  destruct (field_app f (cps_of " == "%py ++ cps_of (string_literal v)) F eq_refl) as (c & w & E & S & P & _).
  apply read_expr_comparison.
  - intros rest. unfold read_comparison. rewrite !cps_app, <- !app_assoc.
    destruct (field_app f (cps_of " == "%py ++ cps_of (string_literal v) ++ 41%N :: rest) F eq_refl) as (c1 & w1 & E1 & _ & _ & ->).
    rewrite E1 at 1. rewrite eat_app. unfold read_value. rewrite read_literal_text. cbn. by destruct f.
  - exists c, (w ++ cps_of " == "%py ++ 34%N :: (cps_of v ≫= escape_cp)), 34%N. split_and!; try done.
    unfold py_app, string_literal. cbn [cps_of]. rewrite E. f_equal. cbn [app]. by rewrite <- !app_assoc.
Qed.

(** *** Integers *)

Lemma read_digits_text acc ds rest :
  Forall (fun c => is_09 c = true) ds -> match rest with c :: _ => is_09 c = false | [] => True end ->
  read_digits_from (Z.of_N acc) (ds ++ rest) = (Z.of_N (read_digits acc ds), rest).
Proof.
  intros D R. revert acc. induction D as [|c ds Hc _ IH]; intros acc; simpl.
  - destruct rest as [|c rest]; [done|]. simpl. by rewrite R.
  - rewrite Hc. unfold is_09, in_range in Hc. apply andb_true_iff in Hc as [H1%N.leb_le H2%N.leb_le].
    replace (10 * Z.of_N acc + (Z.of_N c - 48)) with (Z.of_N (10 * acc + (c - 48))) by lia. apply IH.
Qed.

Lemma read_int_text z rest :
  match rest with c :: _ => is_09 c = false | [] => True end -> read_int (cps_of (py_str_int z) ++ rest) = Some (z, rest).
Proof.
  intros R. unfold py_str_int. cbv zeta. pose proof (digits_read_int z) as V.
  pose proof (digits_aux_digits (S (N.to_nat (N.log2 (Z.abs_N z)))) (Z.abs_N z)) as D.
  destruct (digits_aux_cons (N.to_nat (N.log2 (Z.abs_N z))) (Z.abs_N z)) as (c & l & E). rewrite E in V, D |- *. clear E.
  pose proof (read_digits_text 0 (c :: l) rest D R) as T. rewrite V in T. inversion D as [|? ? Hc _]. subst.
  assert (c <> 45%N) as Nc by (intros ->; done). change (Z.of_N 0) with 0 in T. unfold read_int.
  destruct (Z.ltb_spec z 0) as [L|L]; cbn [cps_of app] in *.
  - rewrite eat_cons, decide_True by done. rewrite Hc, T. do 2 f_equal. lia.
  - rewrite eat_cons, decide_False by done. rewrite Hc, T. do 2 f_equal. lia.
Qed.

Lemma read_value_int z rest :
  match rest with c :: _ => is_09 c = false | [] => True end ->
  read_value (cps_of (py_str_int z) ++ rest) = Some (FInt z, rest).
Proof.
  intros R. unfold read_value. rewrite read_int_text by done. unfold read_literal.
  pose proof (py_str_int_decimal z) as D. destruct (cps_of (py_str_int z)) as [|c l] eqn:E.
  - exfalso. assert (read_int (cps_of (py_str_int z) ++ []) = Some (z, [])) as X by by apply read_int_text.
    by rewrite E in X.
  - simpl (_ ++ _). inversion D as [|? ? Hc _]. subst. rewrite eat_cons, decide_False; [done|]. by intros ->.
Qed.

Lemma eq_int_reads f z t : field_name f -> eq_filter f (FInt z) = Ret t -> reads_as t (EEq f (FInt z)).
Proof.
  intros F. unfold eq_filter, _field. pose proof F as (c0 & w0 & E0 & V & _). unfold check. rewrite V. cbn. intros [= <-].
  destruct (field_app f (cps_of " == "%py ++ cps_of (py_str_int z)) F eq_refl) as (c & w & E & S & P & _).
  apply read_expr_comparison.
  - intros rest. unfold read_comparison. rewrite !cps_app, <- !app_assoc.
    destruct (field_app f (cps_of " == "%py ++ cps_of (py_str_int z) ++ 41%N :: rest) F eq_refl) as (c1 & w1 & E1 & _ & _ & ->).
    rewrite E1 at 1. rewrite eat_app, read_value_int by done. cbn. by destruct f.
  - destruct (py_str_int_end z) as (l & d & El & Sd). exists c, (w ++ cps_of " == "%py ++ l), d. split_and!; try done.
    apply pystr_ext. rewrite !cps_app, El, E. cbn [cps_of]. rewrite <- !app_comm_cons, <- !app_assoc. done.
Qed.

Lemma list_literals_str vs : list_literals (FStr <$> vs) = Ret (string_literal <$> vs).
Proof. induction vs as [|v vs IH]; [done|]. rewrite fmap_cons. cbn [list_literals]. by rewrite IH. Qed.

Lemma literals_length v vs : (length vs <= length (cps_of (py_join ", "%py (string_literal <$> (v :: vs)))))%nat.
Proof.
  revert v. induction vs as [|u vs IH]; intros v; [simpl; lia|].
  rewrite !fmap_cons, cps_join, !length_app. specialize (IH u). rewrite fmap_cons in IH.
  change (length (u :: vs)) with (S (length vs)). change (length (cps_of ", "%py)) with 2%nat. lia.
Qed.

Definition in_expr (f : pystr) (vs : list pystr) : fexpr := match vs with [] => EIdBelow | _ => EIn f vs end.

Lemma in_reads f vs t : field_name f -> in_filter f (FStr <$> vs) = Ret t -> reads_as t (in_expr f vs).
Proof.
  intros F. unfold in_filter, _field. pose proof F as (c0 & w0 & E0 & V & _). unfold check. rewrite V. cbn [mbind outcome_bind mret outcome_ret].
  rewrite list_literals_str. cbn [mbind outcome_bind]. destruct vs as [|v vs].
  - intros [= <-]. apply read_expr_comparison; [done|].
    exists 105%N, (cps_of "d < "%py), 48%N. done.
  - set (lits := py_join ", "%py (string_literal <$> (v :: vs))).
    change (Ret (f +++ " in ["%py +++ lits +++ "]"%py)%py = Ret t -> reads_as t (EIn f (v :: vs))).
    intros H. assert (t = (f +++ " in ["%py +++ lits +++ "]"%py)%py) as -> by congruence. clear H.
    destruct (field_app f (cps_of " in ["%py) F eq_refl) as (c & w & E & S & P & _).
    apply read_expr_comparison.
    + intros rest. unfold read_comparison. rewrite !cps_app, <- !app_assoc.
      destruct (field_app f (cps_of " in ["%py ++ cps_of lits ++ cps_of "]"%py ++ 41%N :: rest) F eq_refl) as (c1 & w1 & E1 & _ & _ & ->).
      rewrite E1 at 1. replace (eat (cps_of " == "%py) _) with (@None (list N)) by done. rewrite eat_app.
      change (cps_of "]"%py ++ 41%N :: rest) with (93%N :: 41%N :: rest). unfold lits.
      rewrite read_literals_text; [cbn; by destruct f|].
      rewrite length_app. pose proof (literals_length v vs). cbn [length]. lia.
    + exists c, (w ++ cps_of " in ["%py ++ cps_of lits), 93%N. split_and!; try done.
      apply pystr_ext. rewrite !cps_app, E. cbn [cps_of]. rewrite <- !app_comm_cons, <- !app_assoc. done.
Qed.

(** ** Conjunctions *)

Fixpoint conj (e : fexpr) (es : list fexpr) : fexpr :=
  match es with [] => e | e2 :: es => EAnd e (conj e2 es) end.

Lemma cps_parenthesized t : cps_of (parenthesized t) = 40%N :: cps_of t ++ [41%N].
Proof. done. Qed.

Lemma read_conj k t ts e es fuel more :
  reads_within k t e -> Forall2 (reads_within k) ts es -> (k + length ts < fuel)%nat ->
  eat (cps_of " and "%py) more = None ->
  read_expr fuel (cps_of (py_join " and "%py (parenthesized <$> (t :: ts))) ++ more) = Some (conj e es, more).
Proof.
  intros R Rs F M. revert t e fuel R F. induction Rs as [|t2 e2 ts es R2 Rs IH]; intros t e [|fuel] (_ & _ & R) F;
    try (simpl in F; lia).
  - cbn [fmap list_fmap py_join]. rewrite cps_parenthesized, <- app_comm_cons, <- app_assoc. cbn [read_expr].
    rewrite eat_cons, decide_True by done. change ([41%N] ++ more) with (41%N :: more). rewrite R by lia. cbn [mbind option_bind].
    rewrite eat_cons, decide_True by done. cbn [mbind option_bind]. by rewrite M.
  - rewrite !fmap_cons, cps_join, cps_parenthesized, <- app_comm_cons. rewrite <- app_comm_cons, <- !app_assoc.
    set (tail := cps_of " and "%py ++ _). change ([41%N] ++ tail) with (41%N :: tail).
    cbn [read_expr]. rewrite eat_cons, decide_True by done.
    rewrite R by lia. cbn [mbind option_bind]. rewrite eat_cons, decide_True by done. cbn [mbind option_bind].
    unfold tail. rewrite eat_app, <- fmap_cons. rewrite (IH t2 e2); [done|done|]. simpl in F. lia.
Qed.

Lemma given_cons t l : py_strip t = t -> py_nonempty t = true -> given (Some t :: l) = t :: given l.
Proof. intros S N. unfold given. cbn [omap list_omap]. rewrite fmap_cons. cbn [List.filter]. by rewrite S, N. Qed.

Lemma given_reads k ts es : Forall2 (reads_within k) ts es -> given (Some <$> ts) = ts.
Proof.
  induction 1 as [|t e ts es (S & N & _) _ IH]; [done|]. by rewrite fmap_cons, given_cons, IH.
Qed.

Lemma join_parenthesized t ts :
  exists l, cps_of (py_join " and "%py (parenthesized <$> (t :: ts))) = 40%N :: l ++ [41%N].
Proof.
  revert t. induction ts as [|u ts IH]; intros t; [by exists (cps_of t)|].
  rewrite !fmap_cons, cps_join, cps_parenthesized. destruct (IH u) as (l & E). rewrite <- fmap_cons, E.
  exists (cps_of t ++ [41%N] ++ cps_of " and "%py ++ 40%N :: l). by rewrite <- !app_comm_cons, <- !app_assoc.
Qed.

Lemma parenthesized_length t ts : (2 + length ts < S (length (cps_of (py_join " and "%py (parenthesized <$> (t :: ts))))))%nat.
Proof.
  revert t. induction ts as [|u ts IH]; intros t; [unfold parenthesized, py_app; simpl; rewrite length_app; simpl; lia|].
  rewrite !fmap_cons, cps_join, !length_app. specialize (IH u). rewrite fmap_cons in IH.
  change (length (u :: ts)) with (S (length ts)). simpl (length (cps_of " and "%py)). lia.
Qed.

Lemma and_filter_parses k t ts e es :
  (k <= 2)%nat -> reads_within k t e -> Forall2 (reads_within k) ts es ->
  parse_filter (and_filter (Some <$> (t :: ts))) = Some (conj e es).
Proof.
  intros K R Rs. assert (Forall2 (reads_within k) (t :: ts) (e :: es)) as A by (by constructor).
  unfold and_filter. rewrite (given_reads _ _ _ A). unfold parse_filter.
  pose proof (parenthesized_length t ts) as L.
  rewrite <- (app_nil_r (cps_of _)) at 2. rewrite (read_conj k t ts e es); [done..| |done]. lia.
Qed.

(** A conjunction of one expression reads as that expression. *)
Lemma single_reads t e : reads_as t e -> reads_within 2 (and_filter [Some t]) e.
Proof.
  intros R. pose proof (given_reads 1 [t] [e] ltac:(constructor; [done|constructor])) as G. unfold and_filter.
  change [Some t] with (Some <$> [t]). rewrite G. cbn [fmap list_fmap py_join].
  split_and!; [|done|].
  - assert (parenthesized t = PyStr (40%N :: cps_of t ++ [41%N])) as -> by (apply pystr_ext; apply cps_parenthesized).
    by apply strip_ends.
  - intros rest fuel F. apply (read_conj 1 t [] e [] fuel (41%N :: rest)); [done|constructor| |done]. simpl. lia.
Qed.

Lemma matches_conj e es row : matches (conj e es) row = forallb (fun e => matches e row) (e :: es).
Proof. revert e. induction es as [|e2 es IH]; intros e; simpl; [by rewrite andb_true_r|]. by rewrite IH. Qed.

(** The entities of a scope. *)
Definition in_scope (tenant_id knowledge_base_id document_id : pystr) (document_version_ids : list pystr)
    (index_version : option pystr) (row : entity) : Prop :=
  row "tenant_id"%py = Some (FStr (py_strip tenant_id)) /\
  row "knowledge_base_id"%py = Some (FStr (py_strip knowledge_base_id)) /\
  row "document_id"%py = Some (FStr (py_strip document_id)) /\
  (exists v, row "document_version_id"%py = Some (FStr v) /\ v ∈ _normalized_document_version_ids document_version_ids) /\
  match index_version with Some v => row "index_version"%py = Some (FStr (py_strip v)) | None => True end.

Ltac field_name_tac := eexists _, _; split_and!; [reflexivity|vm_compute; reflexivity|repeat constructor].

Lemma in_expr_matches f vs row :
  matches (in_expr f vs) row = true <-> exists v, row f = Some (FStr v) /\ v ∈ vs.
Proof.
  destruct vs as [|v vs]; simpl.
  - split; [done|]. intros (v & _ & []%elem_of_nil).
  - destruct (row f) as [[u| | |]|]; try naive_solver. rewrite bool_decide_eq_true. naive_solver.
Qed.

Lemma scope_filter_parses t k d vs iv s :
  version_scope_filter t k d vs iv = Ret s ->
  exists e, parse_filter s = Some e /\ forall row, matches e row = true <-> in_scope t k d vs iv row.
Proof.
  unfold version_scope_filter.
  intros (? & _ & (? & _ & (? & _ & (ft & Ft & (fk & Fk & (fd & Fd & (fv & Fv & (fi & Fi & [= <-])
    %outcome_bind_inv)%outcome_bind_inv)%outcome_bind_inv)%outcome_bind_inv)%outcome_bind_inv)%outcome_bind_inv)
    %outcome_bind_inv)%outcome_bind_inv.
  apply eq_reads in Ft; [|field_name_tac]. apply eq_reads in Fk; [|field_name_tac]. apply eq_reads in Fd; [|field_name_tac].
  apply in_reads in Fv; [|field_name_tac].
  assert (exists ti ei, fi = Some <$> ti /\ Forall2 reads_as ti ei /\
    forall row, forallb (fun e => matches e row) ei = true <->
      match iv with Some v => row "index_version"%py = Some (FStr (py_strip v)) | None => True end) as (ti & ei & -> & Ri & Mi).
  { destruct iv as [v|]; unfold index_version_filter in Fi.
    - apply outcome_bind_inv in Fi as (? & _ & (e & E & [= <-])%outcome_bind_inv).
      apply eq_reads in E; [|field_name_tac]. exists [e], [EEq "index_version"%py (FStr (py_strip v))].
      split_and!; [done|by constructor|]. intros row. simpl. rewrite andb_true_r. apply bool_decide_eq_true.
    - injection Fi as <-. exists [], []. split_and!; [done|constructor|done]. }
  eexists. split.
  - apply (and_filter_parses 1 ft (fk :: fd :: fv :: ti)); [lia|exact Ft|]. repeat (constructor; [eassumption|]). exact Ri.
  - intros row. rewrite matches_conj. cbn [forallb matches]. rewrite !andb_true_iff, !bool_decide_eq_true, in_expr_matches, Mi.
    unfold in_scope. tauto.
Qed.

(** The parts of a scope that must not be blank. *)
Definition scope_named (tenant_id knowledge_base_id document_id : pystr) (index_version : option pystr) : bool :=
  py_nonempty (py_strip tenant_id) && py_nonempty (py_strip knowledge_base_id) && py_nonempty (py_strip document_id)
  && match index_version with Some v => py_nonempty (py_strip v) | None => true end.

Lemma scope_filter_total t k d vs iv :
  if scope_named t k d iv then exists s, version_scope_filter t k d vs iv = Ret s
  else exists m, version_scope_filter t k d vs iv = Raise (EValue m).
Proof.
  unfold version_scope_filter, scope_named, scope_present, eq_filter, in_filter, _field, index_version_filter, check.
  cbv zeta. rewrite list_literals_str.
  destruct (py_nonempty (py_strip t)); simpl; [|eauto]. destruct (py_nonempty (py_strip k)); simpl; [|eauto].
  destruct (py_nonempty (py_strip d)); simpl; [|eauto].
  destruct iv as [v|]; simpl; [|eauto]. destruct (py_nonempty (py_strip v)); simpl; eauto.
Qed.

(** The text of a scope filter begins and ends with a parenthesis. *)
Lemma scope_filter_shape t k d vs iv s :
  version_scope_filter t k d vs iv = Ret s ->
  exists c l d, s = PyStr (c :: l ++ [d]) /\ is_space c = false /\ is_space d = false.
Proof.
  unfold version_scope_filter.
  intros (? & _ & (? & _ & (? & _ & (ft & Ft & (fk & Fk & (fd & Fd & (fv & Fv & (fi & Fi & [= <-])
    %outcome_bind_inv)%outcome_bind_inv)%outcome_bind_inv)%outcome_bind_inv)%outcome_bind_inv)%outcome_bind_inv)
    %outcome_bind_inv)%outcome_bind_inv.
  apply eq_reads in Ft as (S & N & _); [|field_name_tac].
  unfold and_filter. rewrite (given_cons _ _ S N). exists 40%N.
  destruct (join_parenthesized ft (given (Some fk :: Some fd :: Some fv :: fi))) as (l & E).
  exists l, 41%N. split_and!; [|done|done]. apply pystr_ext. exact E.
Qed.

(** C26. A scope filter means its scope: for identifiers with any characters, quotes
    and operators included, the text parses, and an entity matches it exactly when
    its tenant, knowledge base and document are the given ones, its version is one of
    those listed and its index version the given one; a blank identifier is refused
    and an empty list of versions matches nothing. *)
Theorem scope_filter_is_exact t k d vs iv :
  if scope_named t k d iv then
    exists s e, version_scope_filter t k d vs iv = Ret s /\ parse_filter s = Some e /\
      forall row, matches e row = true <-> in_scope t k d vs iv row
  else exists m, version_scope_filter t k d vs iv = Raise (EValue m).
Proof.
  pose proof (scope_filter_total t k d vs iv) as H. destruct (scope_named t k d iv); [|done].
  destruct H as (s & E). destruct (scope_filter_parses _ _ _ _ _ _ E) as (e & P & M). eauto 6.
Qed.

(** An identifier that tries to leave its literal. *)
Example hostile_scope :
  version_scope_filter "a"%py "b"%py (PyStr (cps_of "c"%py ++ [34]%N ++ cps_of " or tenant_id == "%py ++ [34]%N)) ["v"]%py None
  = Ret (PyStr (cps_of "(tenant_id == "%py ++ [34]%N ++ cps_of "a"%py ++ [34]%N ++ cps_of ") and (knowledge_base_id == "%py
      ++ [34]%N ++ cps_of "b"%py ++ [34]%N ++ cps_of ") and (document_id == "%py ++ [34]%N ++ cps_of "c\"%py ++ [34]%N
      ++ cps_of " or tenant_id == \"%py ++ [34; 34]%N ++ cps_of ") and (document_version_id in ["%py ++ [34]%N ++ cps_of "v"%py
      ++ [34]%N ++ cps_of "])"%py)).
Proof. vm_compute. reflexivity. Qed.
