(* ===== verification/Retrieval.v ===== *)
(** * The retrieval scope

    [backend/documents/retrieval.py]: the current versions of a tenant's documents as
    one filter per vector collection. *)

From S2P Require Import Prelude PyBase Errors Session CatalogSchema Catalog CatalogJobs CatalogCleanup Filters.

Open Scope Z_scope.

Record RetrievalTarget := mkRetrievalTarget {
  tg_collection_name : pystr;
  tg_filter_expr : pystr;
  tg_document_version_ids : list pystr;
  tg_required : bool
}.

Record RetrievalSnapshot := mkRetrievalSnapshot {
  sn_tenant_id : pystr;
  sn_index_id : pystr;
  sn_targets : list RetrievalTarget;
  sn_current_document_count : Z;
  sn_catalog_document_count : Z
}.

(** [_COLLECTION_RE]: [[A-Za-z_][A-Za-z0-9_]{0,159}], used with [fullmatch]. *)
Definition _COLLECTION_RE (s : pystr) : bool :=
  fullmatch_id (fun c => is_az c || is_AZ c || (c =? 95)%N) word_cp (Some 159%nat) s.

Definition _collection_name (value : pystr) : outcome pystr :=
  check (_COLLECTION_RE (py_strip value)) (EValue "invalid Milvus collection name in document catalog"%py);;
  mret (py_strip value).

(** [_ready_current] *)
Definition _ready_current (document : DocumentRecord) : option DocumentVersionRecord :=
  match dr_deleted_at document, dr_current_version document with
  | None, Some v => if bool_decide (vr_status v = V_READY) then Some v else None
  | _, _ => None
  end.

(** The loop over the documents: the versions of each collection, and how many
    documents have one. *)
Fixpoint versioned (documents : list DocumentRecord) : outcome (gmap pystr (list pystr) * Z) :=
  match documents with
  | [] => mret (∅, 0)
  | d :: documents =>
      match _ready_current d with
      | None => versioned documents
      | Some v =>
          c ← _collection_name (vr_vector_collection v);
          '(m, n) ← versioned documents;
          mret (<[c := vr_id v :: default [] (m !! c)]> m, n + 1)
      end
  end.

(** The target of one collection. *)
Definition target (tenant : pystr) (leaf_chunk_level : Z) (collection : pystr) (ids : list pystr) : outcome RetrievalTarget :=
  let version_ids := sorted_ids ids in
  t ← eq_filter "tenant_id"%py (FStr tenant);
  v ← version_identity_filter version_ids None;
  l ← eq_filter "chunk_level"%py (FInt leaf_chunk_level);
  mret (mkRetrievalTarget collection (and_filter [Some t; Some v; Some l]) version_ids true).

Fixpoint targets (tenant : pystr) (leaf_chunk_level : Z) (m : gmap pystr (list pystr)) (collections : list pystr) :
    outcome (list RetrievalTarget) :=
  match collections with
  | [] => mret []
  | c :: collections =>
      t ← target tenant leaf_chunk_level c (default [] (m !! c));
      rest ← targets tenant leaf_chunk_level m collections;
      mret (t :: rest)
  end.

Definition of_outcome {D A} (o : outcome A) : Sess D A := fun w => (o, w).

(** [DocumentRetrievalScope.resolve] *)
Definition resolve (env : CatalogEnv) (tenant_id : pystr) (knowledge_base_id : option pystr) (leaf_chunk_level : Z) :
    CM RetrievalSnapshot :=
  let tenant := py_strip tenant_id in
  raise_if (negb (py_nonempty tenant)) (EValue "tenant_id must not be empty"%py);;
  raise_if (leaf_chunk_level <? 0) (EValue "leaf_chunk_level must not be negative"%py);;
  snapshot ← load_retrieval_snapshot env tenant knowledge_base_id;
  '(m, current) ← of_outcome (versioned (rs_documents snapshot));
  ts ← of_outcome (targets tenant leaf_chunk_level m (sorted_str (map_to_list m).*1));
  mret (mkRetrievalSnapshot tenant (rs_index_id snapshot) ts current (Z.of_nat (length (rs_documents snapshot)))).
