(* ===== verification/VectorStore.v ===== *)
(** * The vector store

    [backend/indexing/milvus_client.py] (the part that writes, reads back and deletes
    a version) and [milvus_writer.py]. The Milvus server and the embedding provider
    are interfaces: the server keeps rows per collection, evaluates filter texts and
    answers or fails. *)

From S2P Require Import Prelude PyBase Errors Session Chunking Filters.

Open Scope Z_scope.

(** ** Actions on a state *)

(** Code that reads and writes a state and may raise; effects before an exception
    remain. *)
Definition Act (S A : Type) : Type := S -> outcome A * S.

#[export] Instance Act_ret {S} : MRet (Act S) := fun A a s => (Ret a, s).
#[export] Instance Act_bind {S} : MBind (Act S) := fun A B k m s =>
  match m s with
  | (Ret a, s') => k a s'
  | (Raise e, s') => (Raise e, s')
  end.

Definition throw {S A} (e : exn) : Act S A := fun s => (Raise e, s).
Definition pure {S A} (o : outcome A) : Act S A := fun s => (o, s).
(** [try: m except Exception as exc: handler(exc)] *)
Definition try_except {S A} (m : Act S A) (handler : exn -> Act S A) : Act S A := fun s =>
  match m s with
  | (Raise ECancelled, s') => (Raise ECancelled, s')
  | (Raise e, s') => handler e s'
  | (Ret a, s') => (Ret a, s')
  end.

(** ** Rows and the server *)

(** A row of a collection: the fields of its chunk and its embedding. *)
Record VectorRow (Emb : Type) := mkVectorRow { vr_chunk : Chunk; vr_dense_embedding : Emb }.
Arguments mkVectorRow {Emb} _ _.
Arguments vr_chunk {Emb} _.
Arguments vr_dense_embedding {Emb} _.

(** The scalar fields a filter can name. *)
Definition row_entity {Emb} (r : VectorRow Emb) : entity := fun f =>
  let c := vr_chunk r in
  if decide (f = "tenant_id"%py) then Some (FStr (bd_tenant_id (ch_base c)))
  else if decide (f = "knowledge_base_id"%py) then Some (FStr (bd_knowledge_base_id (ch_base c)))
  else if decide (f = "document_id"%py) then Some (FStr (bd_document_id (ch_base c)))
  else if decide (f = "document_version_id"%py) then Some (FStr (bd_document_version_id (ch_base c)))
  else if decide (f = "index_version"%py) then Some (FStr (bd_index_version (ch_base c)))
  else if decide (f = "section_id"%py) then Some (FStr (bd_section_id (ch_base c)))
  else if decide (f = "content_hash"%py) then Some (FStr (ch_content_hash c))
  else if decide (f = "chunk_id"%py) then Some (FStr (ch_chunk_id c))
  else if decide (f = "parent_chunk_id"%py) then Some (FStr (ch_parent_chunk_id c))
  else if decide (f = "root_chunk_id"%py) then Some (FStr (ch_root_chunk_id c))
  else if decide (f = "text"%py) then Some (FStr (ch_text c))
  else if decide (f = "filename"%py) then Some (FStr (bd_filename (ch_base c)))
  else if decide (f = "file_type"%py) then Some (FStr (bd_file_type (ch_base c)))
  else if decide (f = "file_path"%py) then Some (FStr (bd_file_path (ch_base c)))
  else if decide (f = "page_number"%py) then Some (FInt (bd_page_number (ch_base c)))
  else if decide (f = "chunk_idx"%py) then Some (FInt (ch_chunk_idx c))
  else if decide (f = "chunk_level"%py) then Some (FInt (ch_chunk_level c))
  else None.

(** The counts a response may carry. *)
Record InsertResponse := mkInsertResponse { ir_insert_count : option json; ir_upsert_count : option json }.

(** [pymilvus.MilvusClient] on a server in state [St]. *)
Class MilvusServer (St Emb : Type) := mkMilvusServer {
  ms_has_collection : pystr -> Act St bool;
  ms_describe_fields : pystr -> Act St (option (list pystr));
  ms_create_collection : pystr -> Z -> list pystr -> Act St unit;
  ms_insert : pystr -> list (VectorRow Emb) -> Act St InsertResponse;
  ms_delete : pystr -> pystr -> Act St (option json);
  ms_query : pystr -> pystr -> Z -> Z -> Act St (list (VectorRow Emb))
}.

Definition QUERY_MAX_LIMIT : Z := 16384.

Definition CATALOG_METADATA_FIELDS : list pystr :=
  ["tenant_id"; "knowledge_base_id"; "document_id"; "document_version_id"; "section_id"; "acl_tags"; "index_version";
   "content_hash"]%py.
Definition _CATALOG_SCHEMA_FIELDS : list pystr :=
  ["id"; "dense_embedding"; "sparse_embedding"; "text"; "filename"; "file_type"; "file_path"; "page_number"; "chunk_idx";
   "chunk_id"; "parent_chunk_id"; "root_chunk_id"; "chunk_level"]%py ++ CATALOG_METADATA_FIELDS.

Section store.
Context {St Emb : Type} `{!MilvusServer St Emb}.

(** [MilvusStore.ensure_collection(..., include_catalog_fields=True)] *)
Definition ensure_collection (collection_name : pystr) (dense_dim : Z) : Act St unit :=
  present ← ms_has_collection collection_name;
  if (present : bool) then
    description ← ms_describe_fields collection_name;
    match description with
    | None => throw (ERuntime "Milvus collection description has no fields"%py)
    | Some names =>
        let missing := List.filter (fun f => negb (bool_decide (f ∈ names))) _CATALOG_SCHEMA_FIELDS in
        match missing with
        | [] => mret tt
        | _ => throw (ERuntime ("versioned Milvus collection is missing fields: "%py +++ py_join ", "%py (sorted_str missing))%py)
        end
    end
  else ms_create_collection collection_name dense_dim _CATALOG_SCHEMA_FIELDS.

(** [MilvusStore.query_all]: pages of [QUERY_MAX_LIMIT] rows. *)
Fixpoint query_all_loop (fuel : nat) (collection expr : pystr) (offset : Z) (out : list (VectorRow Emb)) :
    Act St (list (VectorRow Emb)) :=
  match fuel with
  | O => throw EFuel
  | S fuel =>
      batch ← ms_query collection expr QUERY_MAX_LIMIT offset;
      match (batch : list (VectorRow Emb)) with
      | [] => mret out
      | _ =>
          let out := out ++ batch in
          if Z.of_nat (length batch) <? QUERY_MAX_LIMIT then mret out
          else query_all_loop fuel collection expr (offset + Z.of_nat (length batch)) out
      end
  end.

Definition _normalize_filter (filter_expr : pystr) : pystr :=
  let s := py_strip filter_expr in if py_nonempty s then s else "id >= 0"%py.

(** [query_all_pages]: how many full pages the loop may read. *)
Definition query_all (query_all_pages : nat) (collection filter_expr : pystr) : Act St (list (VectorRow Emb)) :=
  query_all_loop query_all_pages collection (_normalize_filter filter_expr) 0 [].

(** The chunk identifiers of rows, all of them present. *)
Fixpoint row_chunk_ids (rows : list (VectorRow Emb)) : outcome (list pystr) :=
  match rows with
  | [] => mret []
  | r :: rows =>
      check (py_nonempty (py_strip (ch_chunk_id (vr_chunk r)))) (EValue "Milvus version row is missing chunk_id"%py);;
      rest ← row_chunk_ids rows;
      mret (ch_chunk_id (vr_chunk r) :: rest)
  end.

Record IndexVersionScope := mkIndexVersionScope {
  is_collection_name : pystr;
  is_tenant_id : pystr;
  is_knowledge_base_id : pystr;
  is_document_id : pystr;
  is_document_version_id : pystr;
  is_index_version : pystr
}.

Definition scope_expression (s : IndexVersionScope) : outcome pystr :=
  version_scope_filter (is_tenant_id s) (is_knowledge_base_id s) (is_document_id s) [is_document_version_id s]
    (Some (is_index_version s)).

(** [query_version_chunk_ids] *)
Definition query_version_chunk_ids (query_all_pages : nat) (s : IndexVersionScope) : Act St (list pystr) :=
  expression ← pure (scope_expression s);
  rows ← query_all query_all_pages (is_collection_name s) expression;
  pure (row_chunk_ids rows).

Record IndexVersionVerification := mkIndexVersionVerification {
  iv_expected_ids : list pystr;
  iv_actual_ids : list pystr;
  iv_missing_ids : list pystr;
  iv_unexpected_ids : list pystr;
  iv_duplicate_ids : list pystr;
  iv_expected_count : Z;
  iv_actual_count : Z;
  iv_exact : bool
}.

(** [Counter(actual_ids)[chunk_id] > 1] *)
Definition occurrences (x : pystr) (l : list pystr) : nat := length (List.filter (fun y => bool_decide (y = x)) l).
Definition duplicate_ids (actual : list pystr) : list pystr :=
  sorted_str (List.filter (fun x => (1 <? occurrences x actual)%nat) (remove_dups actual)).
(** [tuple(sorted(set(l) - set(k)))] *)
Definition ids_without (l k : list pystr) : list pystr :=
  sorted_str (List.filter (fun x => negb (bool_decide (x ∈ k))) (remove_dups l)).

Definition empty_list {A} (l : list A) : bool := match l with [] => true | _ => false end.

(** The comparison of the identifiers expected and read. *)
Definition compare_ids (expected actual : list pystr) : IndexVersionVerification :=
  let duplicates := duplicate_ids actual in
  let missing := ids_without expected actual in
  let unexpected := ids_without actual expected in
  mkIndexVersionVerification expected actual missing unexpected duplicates (Z.of_nat (length expected))
    (Z.of_nat (length actual))
    (empty_list missing && empty_list unexpected && empty_list duplicates
     && (Z.of_nat (length expected) =? Z.of_nat (length actual))).

Definition expected_ids_ok (expected : list pystr) : outcome unit :=
  check (forallb (fun s => py_nonempty (py_strip s)) expected)
    (EValue "expected_chunk_ids must contain non-empty strings"%py);;
  check (bool_decide (NoDup expected)) (EValue "expected_chunk_ids must be unique"%py).

(** [MilvusStore.verify_version] *)
Definition milvus_verify_version (query_all_pages : nat) (s : IndexVersionScope) (expected_chunk_ids : list pystr) :
    Act St IndexVersionVerification :=
  pure (expected_ids_ok expected_chunk_ids);;
  actual ← query_version_chunk_ids query_all_pages s;
  mret (compare_ids expected_chunk_ids actual).

(** [MilvusStore.delete_by_version] *)
Definition milvus_delete_by_version (s : IndexVersionScope) : Act St Z :=
  expression ← pure (scope_expression s);
  result ← ms_delete (is_collection_name s) expression;
  match result with
  | Some (JInt n) => if n <? 0 then throw (EValue "invalid Milvus delete_count"%py) else mret n
  | Some _ => throw (EValue "invalid Milvus delete_count"%py)
  | None => mret 0
  end.
End store.

(** ** The writer *)

(** [IndexVersionScope.__post_init__] *)
Definition make_index_scope (collection tenant kb doc version index_version : pystr) : outcome IndexVersionScope :=
  let ok field value := check (py_nonempty (py_strip value)) (EValue (field +++ " must be a non-empty string"%py)%py) in
  ok "collection_name"%py collection;; ok "tenant_id"%py tenant;; ok "knowledge_base_id"%py kb;;
  ok "document_id"%py doc;; ok "document_version_id"%py version;; ok "index_version"%py index_version;;
  mret (mkIndexVersionScope (py_strip collection) (py_strip tenant) (py_strip kb) (py_strip doc) (py_strip version)
          (py_strip index_version)).

Record IndexWriteReceipt := mkIndexWriteReceipt {
  rc_scope : IndexVersionScope;
  rc_chunk_ids : list pystr;
  rc_attempted_count : Z;
  rc_inserted_count : Z;
  rc_batch_count : Z
}.

(** [IndexWriteReceipt.__post_init__] *)
Definition make_receipt (scope : IndexVersionScope) (chunk_ids : list pystr) (attempted inserted batches : Z) :
    outcome IndexWriteReceipt :=
  scope ← make_index_scope (is_collection_name scope) (is_tenant_id scope) (is_knowledge_base_id scope)
            (is_document_id scope) (is_document_version_id scope) (is_index_version scope);
  check (negb (empty_list chunk_ids) && forallb py_nonempty chunk_ids) (EValue "chunk_ids must contain non-empty IDs"%py);;
  check (bool_decide (NoDup chunk_ids)) (EValue "chunk_ids must be unique"%py);;
  check (attempted =? Z.of_nat (length chunk_ids)) (EValue "attempted_count must equal the receipt chunk count"%py);;
  check (inserted =? attempted) (EValue "inserted_count must equal attempted_count"%py);;
  check (0 <? batches) (EValue "batch_count must be positive"%py);;
  mret (mkIndexWriteReceipt scope chunk_ids attempted inserted batches).

Definition required_string (field value : pystr) : outcome pystr :=
  check (py_nonempty (py_strip value)) (EValue ("versioned document requires non-empty "%py +++ field)%py);;
  mret (py_strip value).

(** [_normalize_acl_tags] of the writer: stripped, without blanks and repetitions. *)
Definition writer_acl_tags (values : list pystr) : list pystr := normalized_ids [] values.

(** [[0-9a-fA-F]{64}] *)
Definition is_hex_cp (c : N) : bool := is_09 c || in_range 97 102 c || in_range 65 70 c.
Definition sha256_text (s : pystr) : bool := (length (cps_of s) =? 64)%nat && forallb is_hex_cp (cps_of s).

(** One turn of the normalisation loop. *)
Definition normalized_chunk (c : Chunk) : outcome Chunk :=
  let b := ch_base c in
  text ← required_string "text"%py (ch_text c);
  filename ← required_string "filename"%py (bd_filename b);
  file_type ← required_string "file_type"%py (bd_file_type b);
  tenant ← required_string "tenant_id"%py (bd_tenant_id b);
  kb ← required_string "knowledge_base_id"%py (bd_knowledge_base_id b);
  doc ← required_string "document_id"%py (bd_document_id b);
  version ← required_string "document_version_id"%py (bd_document_version_id b);
  index_version ← required_string "index_version"%py (bd_index_version b);
  section ← required_string "section_id"%py (bd_section_id b);
  content_hash ← required_string "content_hash"%py (ch_content_hash c);
  check (sha256_text content_hash) (EValue "content_hash must be a SHA-256 hex digest"%py);;
  chunk_id ← required_string "chunk_id"%py (ch_chunk_id c);
  mret (mkChunk (mkBaseDoc filename (bd_file_path b) file_type (bd_page_number b) tenant kb doc version section
                   (writer_acl_tags (bd_acl_tags b)) index_version)
          text chunk_id (ch_parent_chunk_id c) (ch_root_chunk_id c) (ch_chunk_level c) (ch_chunk_idx c) content_hash).

Definition chunk_scope (c : Chunk) : list pystr :=
  let b := ch_base c in
  [bd_tenant_id b; bd_knowledge_base_id b; bd_document_id b; bd_document_version_id b; bd_index_version b].

Fixpoint normalized_chunks (seen : list pystr) (expected_scope : option (list pystr)) (documents : list Chunk) :
    outcome (list Chunk) :=
  match documents with
  | [] => mret []
  | d :: documents =>
      n ← normalized_chunk d;
      check (negb (bool_decide (ch_chunk_id n ∈ seen)))
        (EValue ("duplicate versioned chunk_id: "%py +++ ch_chunk_id n)%py);;
      check (match expected_scope with Some s => bool_decide (chunk_scope n = s) | None => true end)
        (EValue "all versioned documents must share one version scope"%py);;
      rest ← normalized_chunks (ch_chunk_id n :: seen) (Some (chunk_scope n)) documents;
      mret (n :: rest)
  end.

(** [_insert_count] *)
Definition _insert_count (response : InsertResponse) (expected : Z) : outcome Z :=
  let count := match ir_insert_count response with Some c => Some c | None => ir_upsert_count response end in
  match count with
  | None | Some JNull => mret expected
  | Some (JInt n) =>
      check (negb (n <? 0)) (ERuntime "Milvus returned an invalid insert count"%py);;
      check (n =? expected) (ERuntime ("Milvus inserted "%py +++ py_str_int n +++ " records, expected "%py
                                         +++ py_str_int expected +++ " for the batch"%py)%py);;
      mret n
  | Some _ => Raise (ERuntime "Milvus returned an invalid insert count"%py)
  end.

Section writer.
Context {St Emb W : Type} `{!MilvusServer St Emb}.
(** The server and the embedding provider, as parts of the world [W]. *)
Context (on_server : forall A, Act St A -> Act W A) (get_embeddings : list pystr -> Act W (list Emb)).
Context (dense_dim : Z) (query_all_pages : nat).

(** The loop over the batches; [done_] rows are written. *)
Fixpoint write_batches (fuel : nat) (collection : pystr) (batch_size total : nat) (guard : Act W unit)
    (progress_callback : Z -> Z -> Act W unit) (done_ : nat) (inserted batches : Z) (documents : list Chunk) :
    Act W (Z * Z) :=
  match fuel, documents with
  | _, [] => mret (inserted, batches)
  | O, _ => throw EFuel
  | S fuel, _ =>
      guard;;
      let batch := take batch_size documents in
      dense_embeddings ← get_embeddings (ch_text <$> batch);
      pure (check (length dense_embeddings =? length batch)%nat
              (ERuntime "embedding provider returned an unexpected vector count"%py));;
      response ← on_server _ (ms_insert collection (zip_with mkVectorRow batch dense_embeddings));
      guard;;
      n ← pure (_insert_count response (Z.of_nat (length batch)));
      progress_callback (Z.min (Z.of_nat done_ + Z.of_nat batch_size) (Z.of_nat total)) (Z.of_nat total);;
      write_batches fuel collection batch_size total guard progress_callback (done_ + batch_size) (inserted + n)
        (batches + 1) (drop batch_size documents)
  end.

(** [MilvusWriter.write_versioned_documents] with the collection given and batches
    of 50. *)
Definition write_versioned_documents (documents : list Chunk) (collection_name : pystr)
    (progress_callback : Z -> Z -> Act W unit) (ownership_guard : Act W unit) : Act W IndexWriteReceipt :=
  match documents with
  | [] => throw (EValue "versioned documents must not be empty"%py)
  | _ =>
      normalized ← pure (normalized_chunks [] None documents);
      match (normalized : list Chunk) with
      | [] => throw (EClass "AssertionError"%py ""%py)
      | first :: _ =>
          let collection := py_strip collection_name in
          pure (check (py_nonempty collection) (EValue "collection_name must not be empty"%py));;
          on_server _ (ensure_collection collection dense_dim);;
          let b := ch_base first in
          scope ← pure (make_index_scope collection (bd_tenant_id b) (bd_knowledge_base_id b) (bd_document_id b)
                          (bd_document_version_id b) (bd_index_version b));
          ownership_guard;;
          on_server _ (milvus_delete_by_version scope);;
          ownership_guard;;
          '(inserted, batches) ← write_batches (length normalized) (is_collection_name scope) 50 (length normalized)
                                   ownership_guard progress_callback 0 0 0 normalized;
          pure (make_receipt scope (ch_chunk_id <$> normalized) (Z.of_nat (length normalized)) inserted batches)
      end
  end.

(** [MilvusWriter.build_version_scope] with the collection given *)
Definition build_version_scope (tenant kb doc version index_version collection_name : pystr) :
    outcome IndexVersionScope :=
  check (py_nonempty (py_strip collection_name)) (EValue "collection_name must not be empty"%py);;
  make_index_scope (py_strip collection_name) tenant kb doc version index_version.

(** [MilvusWriter.verify_receipt] and [delete_by_version] *)
Definition verify_receipt (receipt : IndexWriteReceipt) : Act W IndexVersionVerification :=
  on_server _ (milvus_verify_version query_all_pages (rc_scope receipt) (rc_chunk_ids receipt)).
Definition writer_delete_by_version (scope : IndexVersionScope) : Act W Z := on_server _ (milvus_delete_by_version scope).
End writer.
