(* ===== verification/VectorProps.v ===== *)
(** * The vector store keeps its promises

    What Milvus guarantees, as laws of the server interface, and what the writer and
    the verification make of it: a verification is exact exactly when the rows of
    the version are the expected ones, and a write that returns a receipt has left
    the rows of the version equal to the documents, whatever happens elsewhere. *)

From S2P Require Import Prelude PyBase Errors Session Decimals Chunking Filters FiltersProps VectorStore.

Open Scope Z_scope.

(** ** Comparing identifiers *)

Lemma insert_str_perm x l : insert_str x l ≡ₚ x :: l.
Proof. induction l as [|y l IH]; simpl; [done|]. destruct (cps_le _ _); [done|]. rewrite IH. apply perm_swap. Qed.
Lemma sorted_str_perm l : sorted_str l ≡ₚ l.
Proof. induction l as [|x l IH]; simpl; [done|]. by rewrite insert_str_perm, IH. Qed.
Lemma empty_list_nil {A} (l : list A) : empty_list l = true <-> l = [].
Proof. by destruct l. Qed.
Lemma sorted_str_nil l : sorted_str l = [] <-> l = [].
Proof.
  split; [|by intros ->]. intros H. pose proof (sorted_str_perm l) as P. rewrite H in P. by apply Permutation_nil_l in P.
Qed.
Lemma filter_nil_iff {A} (p : A -> bool) l : List.filter p l = [] <-> forall x, x ∈ l -> p x = false.
Proof.
  induction l as [|x l IH]; simpl; [split; [intros _ y []%elem_of_nil|done]|].
  destruct (p x) eqn:E.
  - split; [done|]. intros H. rewrite H in E; [done|]. by left.
  - rewrite IH. split; intros H y; [intros [->|Hy]%elem_of_cons; auto|intros Hy; apply H; by right].
Qed.

Lemma ids_without_nil l k : ids_without l k = [] <-> l ⊆ k.
Proof.
  unfold ids_without. rewrite sorted_str_nil, filter_nil_iff. split; intros H x Hx.
  - apply (elem_of_remove_dups (A:=pystr)) in Hx. apply H in Hx. by apply negb_false_iff, bool_decide_eq_true in Hx.
  - rewrite elem_of_remove_dups in Hx. apply negb_false_iff. apply bool_decide_eq_true. exact (H x Hx).
Qed.

Lemma occurrences_NoDup l : (forall x, x ∈ l -> (occurrences x l <= 1)%nat) <-> NoDup l.
Proof.
  unfold occurrences. induction l as [|y l IH]; [split; [constructor|intros _ x []%elem_of_nil]|].
  rewrite NoDup_cons, <- IH. split.
  - intros H. split.
    + intros Hy. specialize (H y ltac:(by left)). simpl in H. rewrite bool_decide_eq_true_2 in H by done. simpl in H.
      assert (List.filter (fun z => bool_decide (z = y)) l = []) as E by (apply nil_length_inv; lia).
      rewrite filter_nil_iff in E. specialize (E y Hy). by apply bool_decide_eq_false in E.
    + intros x Hx. specialize (H x ltac:(by right)). simpl in H. destruct (bool_decide _); simpl in H; lia.
  - intros [N H] x [->|Hx]%elem_of_cons; simpl.
    + rewrite bool_decide_eq_true_2 by done. simpl.
      assert (List.filter (fun z => bool_decide (z = y)) l = []) as -> by
        (apply filter_nil_iff; intros z Hz; apply bool_decide_eq_false; congruence). simpl. lia.
    + case_bool_decide; [subst; done|]. by apply H.
Qed.

Lemma duplicate_ids_nil l : duplicate_ids l = [] <-> NoDup l.
Proof.
  unfold duplicate_ids. rewrite sorted_str_nil, filter_nil_iff, <- occurrences_NoDup.
  split; intros H x Hx; specialize (H x).
  - apply (elem_of_remove_dups (A:=pystr)) in Hx. apply H, Nat.ltb_ge in Hx. lia.
  - rewrite elem_of_remove_dups in Hx. apply Nat.ltb_ge. by apply H.
Qed.

(** The verification is exact: for expected identifiers without repetition it says
    so exactly when the identifiers read are those, each once. *)
Lemma compare_ids_exact expected actual :
  NoDup expected -> (iv_exact (compare_ids expected actual) = true <-> actual ≡ₚ expected).
Proof.
  intros ND. unfold compare_ids. cbn [iv_exact]. rewrite !andb_true_iff, !empty_list_nil, !ids_without_nil, duplicate_ids_nil, Z.eqb_eq.
  split.
  - intros (((S1 & S2) & N) & _). apply NoDup_Permutation; [done|done|]. intros x. split; auto.
  - intros P. split_and!.
    + intros x Hx. by rewrite P.
    + intros x Hx. by rewrite <- P.
    + by rewrite P.
    + by rewrite P.
Qed.

(** ** The server *)

Definition row_in_scope {Emb} (s : IndexVersionScope) (r : VectorRow Emb) : bool :=
  let b := ch_base (vr_chunk r) in
  bool_decide (bd_tenant_id b = is_tenant_id s) && bool_decide (bd_knowledge_base_id b = is_knowledge_base_id s)
  && bool_decide (bd_document_id b = is_document_id s) && bool_decide (bd_document_version_id b = is_document_version_id s)
  && bool_decide (bd_index_version b = is_index_version s).

(** Documented behaviour of Milvus at strong consistency: an insertion adds the rows,
    or some of them when it fails; a deletion removes the rows a filter matches, or
    some of them when it fails; a query pages through the matching rows in a fixed
    order; the other calls leave the rows alone. *)
Class MilvusLaws (St Emb : Type) `{!MilvusServer St Emb} := mkMilvusLaws {
  ms_rows : St -> pystr -> list (VectorRow Emb);
  ms_has_rows c s : forall k, ms_rows (ms_has_collection c s).2 k = ms_rows s k;
  ms_describe_rows c s : forall k, ms_rows (ms_describe_fields c s).2 k = ms_rows s k;
  ms_create_rows c d fs s : forall k, ms_rows (ms_create_collection c d fs s).2 k = ms_rows s k;
  ms_insert_rows c data s r s' : ms_insert c data s = (r, s') ->
    (forall k, k <> c -> ms_rows s' k = ms_rows s k) /\
    exists written, written `sublist_of` data /\ ms_rows s' c ≡ₚ ms_rows s c ++ written /\
      match r with Ret _ => written = data | Raise _ => True end;
  ms_delete_rows c text e s r s' : parse_filter text = Some e -> ms_delete c text s = (r, s') ->
    (forall k, k <> c -> ms_rows s' k = ms_rows s k) /\
    exists kept, kept `sublist_of` List.filter (fun x => matches e (row_entity x)) (ms_rows s c) /\
      ms_rows s' c ≡ₚ List.filter (fun x => negb (matches e (row_entity x))) (ms_rows s c) ++ kept /\
      match r with Ret _ => kept = [] | Raise _ => True end;
  ms_query_rows c text e limit offset s r s' : parse_filter text = Some e -> 0 <= offset -> 0 <= limit ->
    ms_query c text limit offset s = (r, s') ->
    (forall k, ms_rows s' k = ms_rows s k) /\
    match r with
    | Ret l => l = take (Z.to_nat limit) (drop (Z.to_nat offset)
                     (List.filter (fun x => matches e (row_entity x)) (ms_rows s c)))
    | Raise _ => True
    end
}.

(** A scope with its parts stripped, as [IndexVersionScope] keeps them. *)
Definition scope_stripped (s : IndexVersionScope) : Prop :=
  Forall (fun x => py_strip x = x /\ py_nonempty x = true)
    [is_collection_name s; is_tenant_id s; is_knowledge_base_id s; is_document_id s; is_document_version_id s;
     is_index_version s].

Lemma make_index_scope_inv c t k d v i s :
  make_index_scope c t k d v i = Ret s ->
  scope_stripped s /\ is_collection_name s = py_strip c /\ is_tenant_id s = py_strip t /\
  is_knowledge_base_id s = py_strip k /\ is_document_id s = py_strip d /\ is_document_version_id s = py_strip v /\
  is_index_version s = py_strip i.
Proof.
  unfold make_index_scope. cbv zeta.
  intros (? & E1%check_inv & (? & E2%check_inv & (? & E3%check_inv & (? & E4%check_inv & (? & E5%check_inv &
    (? & E6%check_inv & [= <-])%outcome_bind_inv)%outcome_bind_inv)%outcome_bind_inv)%outcome_bind_inv)
    %outcome_bind_inv)%outcome_bind_inv.
  split; [|done]. unfold scope_stripped. simpl. repeat (constructor; [split; [apply py_strip_idem|done]|]). constructor.
Qed.

Lemma normalized_one v : py_strip v = v -> py_nonempty v = true -> _normalized_document_version_ids [v] = [v].
Proof. intros S N. unfold _normalized_document_version_ids. simpl. rewrite S, N. done. Qed.

Lemma scope_expression_ok s :
  scope_stripped s ->
  exists t e, scope_expression s = Ret t /\ parse_filter t = Some e /\ py_strip t = t /\ py_nonempty t = true /\
    forall Emb (r : VectorRow Emb), matches e (row_entity r) = row_in_scope s r.
Proof.
  unfold scope_stripped. rewrite !Forall_cons. intros ([S0 N0] & [S1 N1] & [S2 N2] & [S3 N3] & [S4 N4] & [S5 N5] & _).
  pose proof (scope_filter_total (is_tenant_id s) (is_knowledge_base_id s) (is_document_id s) [is_document_version_id s]
                (Some (is_index_version s))) as T.
  unfold scope_named in T. rewrite S1, S2, S3, S5, N1, N2, N3, N5 in T. simpl in T. destruct T as (t & T).
  destruct (scope_filter_parses _ _ _ _ _ _ T) as (e & P & M). exists t, e.
  assert (exists c l d, t = PyStr (c :: l ++ [d]) /\ is_space c = false /\ is_space d = false) as (c & l & d & Et & C & D).
  { by apply scope_filter_shape in T. }
  split_and!; try done; [subst t; by apply strip_ends|by subst t|].
  intros Emb r. apply eq_iff_eq_true. rewrite M. unfold in_scope, row_in_scope. cbv zeta.
  rewrite !andb_true_iff, !bool_decide_eq_true, S1, S2, S3, S5, (normalized_one _ S4 N4).
  assert (row_entity r "tenant_id"%py = Some (FStr (bd_tenant_id (ch_base (vr_chunk r))))) as -> by reflexivity.
  assert (row_entity r "knowledge_base_id"%py = Some (FStr (bd_knowledge_base_id (ch_base (vr_chunk r))))) as -> by reflexivity.
  assert (row_entity r "document_id"%py = Some (FStr (bd_document_id (ch_base (vr_chunk r))))) as -> by reflexivity.
  assert (row_entity r "document_version_id"%py = Some (FStr (bd_document_version_id (ch_base (vr_chunk r))))) as -> by reflexivity.
  assert (row_entity r "index_version"%py = Some (FStr (bd_index_version (ch_base (vr_chunk r))))) as -> by reflexivity.
  setoid_rewrite list_elem_of_singleton. clear. split.
  - intros (A & B & C & (v & D & ->) & E). simplify_eq. done.
  - intros ((((-> & ->) & ->) & <-) & ->). split_and!; try done. eauto.
Qed.

(** ** Actions *)

Lemma act_bind_inv {S A B} (m : Act S A) (k : A -> Act S B) s b s' :
  (m ≫= k) s = (Ret b, s') -> exists a s1, m s = (Ret a, s1) /\ k a s1 = (Ret b, s').
Proof. unfold mbind, Act_bind. destruct (m s) as [[a|e] s1]; [eauto|done]. Qed.

Lemma act_bind_run {S A B} (m : Act S A) (k : A -> Act S B) s a s1 :
  m s = (Ret a, s1) -> (m ≫= k) s = k a s1.
Proof. unfold mbind, Act_bind. by intros ->. Qed.

Lemma pure_inv {S A} (o : outcome A) (s : S) a s' : pure o s = (Ret a, s') -> o = Ret a /\ s' = s.
Proof. unfold pure. naive_solver. Qed.

(** A bind keeps what both of its parts keep. *)
Definition keeps {S A X} (P : S -> X) (R : X -> X -> Prop) (m : Act S A) : Prop := forall s, R (P s) (P (m s).2).

Lemma keeps_bind {S A B X} (P : S -> X) (R : X -> X -> Prop) `{!Transitive R} (m : Act S A) (k : A -> Act S B) :
  keeps P R m -> (forall a, keeps P R (k a)) -> keeps P R (m ≫= k).
Proof.
  intros Hm Hk s. unfold mbind, Act_bind. specialize (Hm s). destruct (m s) as [[a|e] s1]; simpl in *; [|done].
  etrans; [exact Hm|]. apply Hk.
Qed.
Lemma keeps_ret {S A X} (P : S -> X) (R : X -> X -> Prop) `{!Reflexive R} (a : A) : keeps P R (mret a : Act S A).
Proof. intros s. simpl. reflexivity. Qed.
Lemma keeps_pure {S A X} (P : S -> X) (R : X -> X -> Prop) `{!Reflexive R} (o : outcome A) : keeps P R (pure o : Act S A).
Proof. intros s. simpl. reflexivity. Qed.
Lemma keeps_throw {S A X} (P : S -> X) (R : X -> X -> Prop) `{!Reflexive R} e : keeps P R (throw e : Act S A).
Proof. intros s. simpl. reflexivity. Qed.

Section vector_props.
Context {St Emb : Type} `{!MilvusServer St Emb} `{!MilvusLaws St Emb}.

Definition scope_rows (sc : IndexVersionScope) (s : St) : list (VectorRow Emb) :=
  List.filter (row_in_scope sc) (ms_rows s (is_collection_name sc)).
(** The rows of a collection outside a scope. *)
Definition foreign_rows (sc : IndexVersionScope) (s : St) (k : pystr) : list (VectorRow Emb) :=
  List.filter (fun r => negb (bool_decide (k = is_collection_name sc) && row_in_scope sc r)) (ms_rows s k).

Lemma filter_perm_app {A} (p : A -> bool) (l k : list A) : List.filter p (l ++ k) = List.filter p l ++ List.filter p k.
Proof. induction l as [|x l IH]; simpl; [done|]. by destruct (p x); rewrite IH. Qed.
Lemma filter_none {A} (p : A -> bool) (l : list A) : Forall (fun x => p x = false) l -> List.filter p l = [].
Proof. induction 1 as [|x l H _ IH]; simpl; [done|]. by rewrite H. Qed.
Lemma filter_all {A} (p : A -> bool) (l : list A) : Forall (fun x => p x = true) l -> List.filter p l = l.
Proof. induction 1 as [|x l H _ IH]; simpl; [done|]. by rewrite H, IH. Qed.
Lemma filter_Forall {A} (p : A -> bool) (l : list A) : Forall (fun x => p x = true) (List.filter p l).
Proof. induction l as [|x l IH]; simpl; [constructor|]. destruct (p x) eqn:E; [by constructor|done]. Qed.
Lemma filter_ext' {A} (p q : A -> bool) (l : list A) : (forall x, p x = q x) -> List.filter p l = List.filter q l.
Proof. intros H. induction l as [|x l IH]; simpl; [done|]. by rewrite H, IH. Qed.

Lemma sublist_Forall {A} (P : A -> Prop) (l k : list A) : l `sublist_of` k -> Forall P k -> Forall P l.
Proof. induction 1; rewrite ?Forall_cons; naive_solver. Qed.

(** Deleting a version removes its rows and no others. *)
Lemma milvus_delete_rows sc s r s' :
  scope_stripped sc -> milvus_delete_by_version sc s = (r, s') ->
  (forall k, foreign_rows sc s' k ≡ₚ foreign_rows sc s k) /\
  match r with Ret _ => scope_rows sc s' = [] | Raise _ => True end.
Proof.
  intros SC. destruct (scope_expression_ok sc SC) as (t & e & T & P & _ & _ & M). unfold milvus_delete_by_version.
  rewrite T. unfold mbind, Act_bind. cbn [pure]. destruct (ms_delete _ t s) as [r1 s1] eqn:D.
  destruct (ms_delete_rows _ _ _ _ _ _ P D) as (O & kept & SUB & PERM & K).
  assert (forall k, foreign_rows sc s1 k ≡ₚ foreign_rows sc s k) as F.
  { intros k. unfold foreign_rows. destruct (decide (k = is_collection_name sc)) as [->|N]; [|by rewrite (O k N)].
    rewrite bool_decide_eq_true_2 by done. simpl. rewrite (filter_perm _ _ _ PERM), filter_perm_app.
    rewrite (filter_none _ kept).
    - rewrite app_nil_r. rewrite (filter_ext' (fun x => negb (matches e (row_entity x))) (fun r => negb (row_in_scope sc r)))
        by (intros x; by rewrite M). by rewrite filter_all by apply filter_Forall.
    - eapply Forall_impl; [eapply sublist_Forall; [exact SUB|apply filter_Forall]|]. intros x Hx. simpl in *.
      rewrite M in Hx. by rewrite Hx. }
  assert (match r1 with Ret _ => scope_rows sc s1 = [] | Raise _ => True end) as R.
  { destruct r1 as [x|]; [|done]. subst kept. rewrite app_nil_r in PERM. unfold scope_rows.
    pose proof (filter_perm (row_in_scope sc) _ _ PERM) as Q. rewrite (filter_none _ (List.filter _ _)) in Q.
    - by apply Permutation_nil_r in Q.
    - eapply Forall_impl; [apply filter_Forall|]. intros x' Hx. simpl in Hx. rewrite M in Hx. by apply negb_true_iff. }
  destruct r1 as [[[]|]|ex]; try (intros [= <- <-]; done).
  destruct (_ <? 0); intros [= <- <-]; done.
Qed.

Lemma ensure_collection_rows c d s k : ms_rows (ensure_collection c d s).2 k = ms_rows s k.
Proof.
  enough (keeps (fun s => ms_rows s k) eq (ensure_collection c d)) as H by (symmetry; apply H). unfold ensure_collection.
  apply keeps_bind; [apply _|intros s0; symmetry; apply ms_has_rows|]. intros [].
  - apply keeps_bind; [apply _|intros s0; symmetry; apply ms_describe_rows|]. intros [names|]; [|apply keeps_throw; apply _].
    cbv zeta. generalize (List.filter (fun f => negb (bool_decide (f ∈ names))) _CATALOG_SCHEMA_FIELDS).
    intros [|f missing]; [apply keeps_ret|apply keeps_throw]; apply _.
  - intros s0. symmetry. apply ms_create_rows.
Qed.

Lemma page_nonneg : 0 <= QUERY_MAX_LIMIT.
Proof. done. Qed.

Lemma query_all_loop_rows fuel sc t e off out s r s' :
  parse_filter t = Some e -> (forall x : VectorRow Emb, matches e (row_entity x) = row_in_scope sc x) -> 0 <= off ->
  out = take (Z.to_nat off) (scope_rows sc s) ->
  query_all_loop fuel (is_collection_name sc) t off out s = (r, s') ->
  (forall k, ms_rows s' k = ms_rows s k) /\ match r with Ret l => l = scope_rows sc s | Raise _ => True end.
Proof.
  intros P M. revert off out s. induction fuel as [|fuel IH]; intros off out s O E; cbn [query_all_loop].
  { intros [= <- <-]. done. }
  unfold mbind, Act_bind. destruct (ms_query _ t QUERY_MAX_LIMIT off s) as [[batch|ex] s1] eqn:Q;
    destruct (ms_query_rows _ _ _ _ _ _ _ _ P O page_nonneg Q) as [R B]; [|by intros [= <- <-]].
  assert (batch = take (Z.to_nat QUERY_MAX_LIMIT) (drop (Z.to_nat off) (scope_rows sc s))) as B'.
  { rewrite B. unfold scope_rows. do 2 f_equal. apply filter_ext'. intros x. apply M. }
  clear B. set (all := scope_rows sc s) in *.
  assert (scope_rows sc s1 = all) as A1 by (unfold scope_rows, all; by rewrite R).
  destruct batch as [|x batch'].
  { intros [= <- <-]. split; [done|]. rewrite E. assert (length all <= Z.to_nat off)%nat as L.
    { apply (f_equal length) in B'. rewrite length_take, length_drop in B'. cbn [length] in B'. unfold QUERY_MAX_LIMIT in B'. lia. }
    by apply take_ge. }
  set (batch := x :: batch') in *. clearbody batch.
  assert (out ++ batch = take (Z.to_nat off + Z.to_nat QUERY_MAX_LIMIT) all) as A2.
  { rewrite E, B'. apply take_take_drop. }
  assert (length batch = Nat.min (Z.to_nat QUERY_MAX_LIMIT) (length all - Z.to_nat off)) as LB.
  { by rewrite B', length_take, length_drop. }
  destruct (Z.ltb_spec (Z.of_nat (length batch)) QUERY_MAX_LIMIT) as [L|L].
  - intros [= <- <-]. split; [done|]. rewrite A2. apply take_ge. unfold QUERY_MAX_LIMIT in *. lia.
  - intros H. destruct (IH (off + Z.of_nat (length batch)) (out ++ batch) s1) as [R2 F]; [lia| |exact H|].
    + rewrite A1, A2. f_equal. unfold QUERY_MAX_LIMIT in *. lia.
    + split; [intros k; by rewrite R2|]. destruct r; [|done]. by rewrite F.
Qed.

(** The loop over the pages ends: one page more than the rows fill is enough. *)
Lemma query_all_loop_ends fuel sc t e off out s r s' :
  parse_filter t = Some e -> (forall x : VectorRow Emb, matches e (row_entity x) = row_in_scope sc x) -> 0 <= off ->
  Z.of_nat (length (scope_rows sc s)) < off + QUERY_MAX_LIMIT * Z.of_nat fuel -> (0 < fuel)%nat ->
  (forall c t' l o s0, (ms_query (Emb:=Emb) c t' l o s0).1 <> Raise EFuel) ->
  query_all_loop fuel (is_collection_name sc) t off out s = (r, s') -> r <> Raise EFuel.
Proof.
  intros P M. revert off out s. induction fuel as [|fuel IH]; intros off out s O L F Q; [lia|]. cbn [query_all_loop].
  unfold mbind, Act_bind. specialize (Q (is_collection_name sc) t QUERY_MAX_LIMIT off s) as Q1.
  destruct (ms_query _ t QUERY_MAX_LIMIT off s) as [[batch|ex] s1] eqn:E; [|by intros [= <- <-]].
  destruct (ms_query_rows _ _ _ _ _ _ _ _ P O page_nonneg E) as [R B].
  destruct batch as [|x batch']; [by intros [= <- <-]|]. set (batch := x :: batch') in *. clearbody batch.
  destruct (Z.ltb_spec (Z.of_nat (length batch)) QUERY_MAX_LIMIT) as [L2|L2]; [by intros [= <- <-]|].
  assert (Z.of_nat (length batch) <= Z.of_nat (length (scope_rows sc s)) - off) as LB.
  { assert (batch = take (Z.to_nat QUERY_MAX_LIMIT) (drop (Z.to_nat off) (scope_rows sc s))) as B'.
    { rewrite B. unfold scope_rows. do 2 f_equal. apply filter_ext'. intros y. apply M. }
    apply (f_equal length) in B'. rewrite length_take, length_drop in B'. unfold QUERY_MAX_LIMIT in *. lia. }
  assert (scope_rows sc s1 = scope_rows sc s) as A1 by (unfold scope_rows; by rewrite R).
  apply IH; [lia|rewrite A1; unfold QUERY_MAX_LIMIT in *; lia|unfold QUERY_MAX_LIMIT in *; lia|done].
Qed.

Lemma row_chunk_ids_inv rows ids :
  row_chunk_ids rows = Ret ids -> ids = (fun r : VectorRow Emb => ch_chunk_id (vr_chunk r)) <$> rows.
Proof.
  revert ids. induction rows as [|r rows IH]; intros ids; cbn [row_chunk_ids]; [by intros [= <-]|].
  intros (? & _ & (rest & R & [= <-])%outcome_bind_inv)%outcome_bind_inv. by rewrite fmap_cons, <- (IH _ R).
Qed.

(** The identifiers of the rows of a version. *)
Definition scope_ids (sc : IndexVersionScope) (s : St) : list pystr :=
  (fun r => ch_chunk_id (vr_chunk r)) <$> scope_rows sc s.

(** A verification reads, and compares what is there. *)
Lemma milvus_verify_rows pages sc expected s r s' :
  scope_stripped sc -> milvus_verify_version pages sc expected s = (r, s') ->
  (forall k, ms_rows s' k = ms_rows s k) /\
  match r with Ret v => v = compare_ids expected (scope_ids sc s) /\ NoDup expected | Raise _ => True end.
Proof.
  intros SC. destruct (scope_expression_ok sc SC) as (t & e & T & P & St' & Nt & M).
  unfold milvus_verify_version, query_version_chunk_ids, query_all, _normalize_filter. rewrite T.
  unfold mbind, Act_bind, pure at 1. destruct (expected_ids_ok expected) as [u|ex] eqn:E; [|by intros [= <- <-]].
  unfold pure at 1. cbv zeta. rewrite St', Nt.
  destruct (query_all_loop _ _ _ _ _ _) as [[rows|ex] s1] eqn:Q.
  - destruct (query_all_loop_rows _ sc t e _ _ _ _ _ P (M Emb) ltac:(done) ltac:(done) Q) as [R ->].
    destruct (row_chunk_ids (scope_rows sc s)) as [ids|ex] eqn:I; [|by intros [= <- <-]].
    intros [= <- <-]. apply row_chunk_ids_inv in I. split; [done|]. split; [by rewrite I|].
    unfold expected_ids_ok in E. apply outcome_bind_inv in E as (? & _ & N%check_inv). by apply bool_decide_eq_true in N.
  - destruct (query_all_loop_rows _ sc t e _ _ _ _ _ P (M Emb) ltac:(done) ltac:(done) Q) as [R _]. by intros [= <- <-].
Qed.
End vector_props.

(** ** The writer, among other users of the server *)

Section writer_props.
Context {St Emb W : Type} `{!MilvusServer St Emb} `{!MilvusLaws St Emb}.
Context (on_server : forall A, Act St A -> Act W A) (get_embeddings : list pystr -> Act W (list Emb)) (dense_dim : Z).
(** The scope being written, and its rows in a world. A call reaches the server in a
    state with those rows; what else is there, and who else uses it, is open. *)
Context (scope : IndexVersionScope) (rows_of : W -> list (VectorRow Emb)).

Class ServerRuns : Prop := server_runs : forall A (m : Act St A) w a w', on_server A m w = (Ret a, w') ->
  exists s0 s1, scope_rows scope s0 ≡ₚ rows_of w /\ m s0 = (Ret a, s1) /\ rows_of w' ≡ₚ scope_rows scope s1.
Definition quiet {A} (m : Act W A) : Prop := keeps rows_of (≡ₚ) m.

Lemma quiet_run {A} (m : Act W A) w r w' : quiet m -> m w = (r, w') -> rows_of w' ≡ₚ rows_of w.
Proof. intros Q E. specialize (Q w). rewrite E in Q. by symmetry. Qed.

(** The chunks of a version: its scope is theirs. *)
Definition chunk_in_scope (c : Chunk) : Prop :=
  chunk_scope c = [is_tenant_id scope; is_knowledge_base_id scope; is_document_id scope; is_document_version_id scope;
                   is_index_version scope].

Lemma chunk_in_scope_row c (e : Emb) : chunk_in_scope c -> row_in_scope scope (mkVectorRow c e) = true.
Proof.
  unfold chunk_in_scope, chunk_scope, row_in_scope. cbv zeta. cbn [vr_chunk]. intros [= -> -> -> -> ->].
  by rewrite !bool_decide_eq_true_2.
Qed.

Lemma inserted_rows docs (embs : list Emb) :
  length embs = length docs -> Forall chunk_in_scope docs ->
  List.filter (row_in_scope scope) (zip_with mkVectorRow docs embs) = zip_with mkVectorRow docs embs /\
  vr_chunk <$> zip_with mkVectorRow docs embs = docs.
Proof.
  intros L F. revert embs L. induction F as [|c docs Hc _ IH]; intros [|e embs] L; try done.
  simpl in L. injection L as L. destruct (IH embs L) as [E1 E2]. cbn [zip_with List.filter].
  rewrite (chunk_in_scope_row c e Hc), E1, fmap_cons, E2. done.
Qed.

Context (SR : ServerRuns).
Context (guard : Act W unit) (progress : Z -> Z -> Act W unit).
Context (Qe : forall l, quiet (get_embeddings l)) (Qg : quiet guard) (Qp : forall a b, quiet (progress a b)).

Lemma insert_run docs (embs : list Emb) w r w' :
  length embs = length docs -> Forall chunk_in_scope docs ->
  on_server _ (ms_insert (is_collection_name scope) (zip_with mkVectorRow docs embs)) w = (Ret r, w') ->
  vr_chunk <$> rows_of w' ≡ₚ (vr_chunk <$> rows_of w) ++ docs.
Proof using SR.
  intros L F (s0 & s1 & E0 & R & E1)%SR. destruct (ms_insert_rows _ _ _ _ _ R) as (_ & written & _ & P & ->).
  destruct (inserted_rows docs embs L F) as [I1 I2].
  rewrite E1. unfold scope_rows. rewrite (filter_perm _ _ _ P), filter_perm_app, I1, fmap_app, I2.
  apply Permutation_app; [|done]. by rewrite <- E0.
Qed.

Lemma write_batches_rows fuel total done_ inserted batches docs w res w' :
  Forall chunk_in_scope docs ->
  write_batches on_server get_embeddings fuel (is_collection_name scope) 50 total guard progress done_ inserted batches
    docs w = (Ret res, w') ->
  vr_chunk <$> rows_of w' ≡ₚ (vr_chunk <$> rows_of w) ++ docs.
Proof using SR Qe Qg Qp.
  revert done_ inserted batches docs w. induction fuel as [|fuel IH]; intros done_ inserted batches docs w F.
  { destruct docs; [|done]. intros [= _ <-]. by rewrite app_nil_r. }
  destruct docs as [|d docs0]; [intros [= _ <-]; by rewrite app_nil_r|]. cbn [write_batches].
  set (docs := d :: docs0) in *. clearbody docs.
  intros (? & w1 & G1 & H)%act_bind_inv. apply (quiet_run _ _ _ _ Qg) in G1. cbv zeta in H.
  apply act_bind_inv in H as (embs & w2 & G2 & H). apply (quiet_run _ _ _ _ (Qe _)) in G2.
  apply act_bind_inv in H as (? & w3 & [L%check_inv ->]%pure_inv & H). apply Nat.eqb_eq in L.
  apply act_bind_inv in H as (resp & w4 & G4 & H). apply insert_run in G4; [|done|by apply Forall_take].
  apply act_bind_inv in H as (? & w5 & G5 & H). apply (quiet_run _ _ _ _ Qg) in G5.
  apply act_bind_inv in H as (n & w6 & [_ ->]%pure_inv & H).
  apply act_bind_inv in H as (? & w7 & G7 & H). apply (quiet_run _ _ _ _ (Qp _ _)) in G7.
  apply IH in H; [|by apply Forall_drop]. rewrite H, G7, G5, G4, G2, G1, <- app_assoc. by rewrite take_drop.
Qed.

Lemma required_string_inv f v s : required_string f v = Ret s -> s = py_strip v /\ py_nonempty s = true.
Proof. unfold required_string. by intros (? & E%check_inv & [= <-])%outcome_bind_inv. Qed.

Lemma normalized_chunks_scope seen sc docs normalized :
  normalized_chunks seen sc docs = Ret normalized ->
  match sc, normalized with
  | Some s, _ => Forall (fun c => chunk_scope c = s) normalized
  | None, c0 :: _ => Forall (fun c => chunk_scope c = chunk_scope c0) normalized
  | None, [] => True
  end.
Proof.
  revert seen sc normalized. induction docs as [|d docs IH]; intros seen sc normalized; cbn [normalized_chunks].
  { intros [= <-]. by destruct sc; [constructor|]. }
  intros (n & _ & (? & _ & (? & S%check_inv & (rest & R & [= <-])%outcome_bind_inv)%outcome_bind_inv)%outcome_bind_inv)
    %outcome_bind_inv. apply IH in R. destruct sc as [s|]; [apply bool_decide_eq_true in S; subst s|]; by constructor.
Qed.

Lemma normalized_chunk_inv d n :
  normalized_chunk d = Ret n ->
  Forall (fun x => py_strip x = x) (chunk_scope n) /\ ch_chunk_id n = py_strip (ch_chunk_id d).
Proof.
  unfold normalized_chunk. cbv zeta. intros H.
  repeat (apply outcome_bind_inv in H as (? & ? & H)). injection H as <-. unfold chunk_scope. cbn [ch_base ch_chunk_id
    bd_tenant_id bd_knowledge_base_id bd_document_id bd_document_version_id bd_index_version].
  repeat match goal with E : required_string _ _ = Ret _ |- _ => apply required_string_inv in E as [-> _] end.
  split; [|done]. repeat (constructor; [apply py_strip_idem|]). constructor.
Qed.

Lemma normalized_chunks_inv seen sc docs normalized :
  normalized_chunks seen sc docs = Ret normalized ->
  Forall (fun c => Forall (fun x => py_strip x = x) (chunk_scope c)) normalized /\
  ch_chunk_id <$> normalized = (fun d => py_strip (ch_chunk_id d)) <$> docs.
Proof.
  revert seen sc normalized. induction docs as [|d docs IH]; intros seen sc normalized; cbn [normalized_chunks].
  { intros [= <-]. done. }
  intros (n & [S I]%normalized_chunk_inv & (? & _ & (? & _ & (rest & R & [= <-])%outcome_bind_inv)%outcome_bind_inv)
    %outcome_bind_inv)%outcome_bind_inv. apply IH in R as [S2 I2].
  split; [by constructor|]. by rewrite !fmap_cons, I, I2.
Qed.

(** A write that returns a receipt leaves the version with the documents. *)
Lemma write_rows docs collection w receipt w' :
  write_versioned_documents on_server get_embeddings dense_dim docs collection progress guard w = (Ret receipt, w') ->
  rc_scope receipt = scope ->
  exists normalized, normalized_chunks [] None docs = Ret normalized /\ NoDup (rc_chunk_ids receipt) /\
    rc_chunk_ids receipt = ch_chunk_id <$> normalized /\ vr_chunk <$> rows_of w' ≡ₚ normalized.
Proof using SR Qe Qg Qp.
  unfold write_versioned_documents. destruct docs as [|d docs0]; [done|]. set (docs := d :: docs0).
  intros (normalized & w0 & [N ->]%pure_inv & H)%act_bind_inv Hs. destruct normalized as [|first rest] eqn:EN; [done|].
  rewrite <- EN in *. pose proof (normalized_chunks_scope _ _ _ _ N) as SC. rewrite EN in SC. rewrite <- EN in SC. cbv zeta in H.
  apply act_bind_inv in H as (? & w1 & [_ ->]%pure_inv & H).
  apply act_bind_inv in H as (? & w2 & G2 & H). apply SR in G2 as (s0 & s1 & A0 & A1 & A2).
  assert (rows_of w2 ≡ₚ rows_of w) as E2.
  { rewrite A2, <- A0. unfold scope_rows. rewrite <- (ensure_collection_rows (py_strip collection) dense_dim s0). by rewrite A1. }
  apply act_bind_inv in H as (sc & w3 & [MS ->]%pure_inv & H).
  apply act_bind_inv in H as (? & w4 & G4 & H). apply (quiet_run _ _ _ _ Qg) in G4.
  apply act_bind_inv in H as (? & w5 & G5 & H).
  apply act_bind_inv in H as (? & w6 & G6 & H). apply (quiet_run _ _ _ _ Qg) in G6.
  apply act_bind_inv in H as ([inserted batches] & w7 & G7 & [MR ->]%pure_inv).
  apply make_index_scope_inv in MS as (STR & M0 & M1 & M2 & M3 & M4 & M5).
  unfold make_receipt in MR. apply outcome_bind_inv in MR as (sc2 & MS2 & (? & _ & (? & ND%check_inv & (? & _ & (? & _ &
    (? & _ & MR)%outcome_bind_inv)%outcome_bind_inv)%outcome_bind_inv)%outcome_bind_inv)%outcome_bind_inv).
  injection MR as <-. simpl in Hs. subst sc2. apply bool_decide_eq_true in ND.
  apply make_index_scope_inv in MS2 as (_ & K0 & K1 & K2 & K3 & K4 & K5).
  assert (sc = scope) as ->.
  { unfold scope_stripped in STR. rewrite !Forall_cons in STR. destruct STR as ([? _] & [? _] & [? _] & [? _] & [? _] & [? _] & _).
    destruct sc, scope; simpl in *. congruence. }
  apply SR in G5 as (d0 & d1 & B0 & B1 & B2). apply milvus_delete_rows in B1 as [_ B3]; [|done]. rewrite B3 in B2.
  apply write_batches_rows in G7.
  - exists normalized. split_and!; try done. rewrite G7, G6, B2. done.
  - eapply Forall_impl; [exact SC|]. intros c Hc. unfold chunk_in_scope. rewrite Hc, M1, M2, M3, M4, M5.
    destruct (normalized_chunks_inv _ _ _ _ N) as [ST _]. rewrite EN in ST. inversion ST as [|? ? ST0 _].
    unfold chunk_scope in *. rewrite !Forall_cons in ST0. destruct ST0 as (-> & -> & -> & -> & -> & _). done.
Qed.
End writer_props.
