(* ===== verification/RetrievalProps.v ===== *)
(** * What a query can see

    The filters of a retrieval scope match exactly the leaves of the current versions
    of the tenant's documents, so a query sees neither another tenant's rows nor a
    candidate, a superseded or a deleted version. *)

From S2P Require Import Prelude PyBase Errors Session Decimals CatalogSchema Catalog CatalogJobs CatalogCleanup CatalogInv CatalogSteps CatalogSafety CatalogPreserve CatalogPreserve2 CatalogSystem CatalogClaim CatalogEvolve CatalogPublish CatalogServe Chunking Filters FiltersProps VectorStore VectorProps Retrieval.

Open Scope Z_scope.

(** ** The filter of a target *)

Lemma sorted_ids_elem u ids : u ∈ sorted_ids ids <-> u ∈ ids.
Proof. unfold sorted_ids. rewrite sorted_str_perm, elem_of_elements. apply elem_of_list_to_set. Qed.

Lemma normalized_ids_elem seen vs u :
  Forall (fun v => py_strip v = v /\ py_nonempty v = true) vs ->
  (u ∈ normalized_ids seen vs <-> u ∈ vs /\ u ∉ seen).
Proof.
  intros F. revert seen. induction F as [|v vs [S N] _ IH]; intros seen; cbn [normalized_ids].
  - split; [intros []%elem_of_nil|intros [[]%elem_of_nil _]].
  - rewrite S, N. cbn [negb orb]. case_bool_decide as B.
    + rewrite IH, elem_of_cons. split; [tauto|]. intros [[->|?] ?]; tauto.
    + rewrite !elem_of_cons, IH, not_elem_of_cons. split; [|destruct (decide (u = v)); tauto].
      intros [->|(? & ? & ?)]; tauto.
Qed.

(** The filter of a target is matched by the leaves of its versions. *)
Lemma target_spec tenant level c ids :
  Forall (fun v => py_strip v = v /\ py_nonempty v = true) ids ->
  exists tg e, target tenant level c ids = Ret tg /\ tg_collection_name tg = c /\
    (forall u, u ∈ tg_document_version_ids tg <-> u ∈ ids) /\
    parse_filter (tg_filter_expr tg) = Some e /\
    forall row, matches e row = true <->
      row "tenant_id"%py = Some (FStr tenant) /\ (exists u, row "document_version_id"%py = Some (FStr u) /\ u ∈ ids) /\
      row "chunk_level"%py = Some (FInt level).
Proof.
  intros F. set (vs := _normalized_document_version_ids (sorted_ids ids)).
  assert (forall u, u ∈ vs <-> u ∈ ids) as Hvs.
  { intros u. unfold vs, _normalized_document_version_ids. rewrite normalized_ids_elem; [rewrite sorted_ids_elem; set_solver|].
    apply Forall_forall. intros v Hv. rewrite Forall_forall in F. apply F. by apply sorted_ids_elem. }
  assert (exists t, eq_filter "tenant_id"%py (FStr tenant) = Ret t) as (t & Et) by (by eexists).
  assert (exists t, eq_filter "chunk_level"%py (FInt level) = Ret t) as (l & El) by (by eexists).
  assert (exists t, in_filter "document_version_id"%py (FStr <$> vs) = Ret t) as (v & Ev).
  { unfold in_filter. rewrite list_literals_str. by eexists. }
  pose proof (eq_reads "tenant_id"%py _ _ ltac:(field_name_tac) Et) as Rt. pose proof (eq_int_reads "chunk_level"%py _ _ ltac:(field_name_tac) El) as Rl.
  pose proof (single_reads _ _ (in_reads "document_version_id"%py _ _ ltac:(field_name_tac) Ev)) as Rv.
  exists (mkRetrievalTarget c (and_filter [Some t; Some (and_filter [Some v]); Some l]) (sorted_ids ids) true).
  exists (conj (EEq "tenant_id"%py (FStr tenant)) [in_expr "document_version_id"%py vs; EEq "chunk_level"%py (FInt level)]).
  split_and!; try done.
  - unfold target, version_identity_filter. cbv zeta. fold vs. rewrite Et, Ev, El. done.
  - intros u. apply sorted_ids_elem.
  - cbn [tg_filter_expr]. apply (and_filter_parses 2 t [and_filter [Some v]; l]); [lia|apply reads_deeper; [done|lia]|].
    constructor; [done|]. constructor; [apply reads_deeper; [done|lia]|constructor].
  - intros row. rewrite matches_conj. cbn [forallb matches]. rewrite !andb_true_iff, !bool_decide_eq_true, in_expr_matches.
    setoid_rewrite Hvs. tauto.
Qed.

Lemma targets_spec tenant level m cs :
  (forall c ids, m !! c = Some ids -> Forall (fun v => py_strip v = v /\ py_nonempty v = true) ids) ->
  exists tgs, targets tenant level m cs = Ret tgs /\ tg_collection_name <$> tgs = cs /\
    Forall (fun tg => exists e, parse_filter (tg_filter_expr tg) = Some e /\ forall row, matches e row = true <->
      row "tenant_id"%py = Some (FStr tenant) /\
      (exists u, row "document_version_id"%py = Some (FStr u) /\ u ∈ default [] (m !! tg_collection_name tg)) /\
      row "chunk_level"%py = Some (FInt level)) tgs.
Proof.
  intros F. induction cs as [|c cs IH]; cbn [targets]; [by exists []|]. destruct IH as (tgs & E & N & A).
  destruct (target_spec tenant level c (default [] (m !! c))) as (tg & e & Et & Ec & _ & P & M).
  { destruct (m !! c) as [ids|] eqn:Em; [by apply (F c)|constructor]. }
  exists (tg :: tgs). rewrite Et, E. split_and!; [done|by rewrite fmap_cons, Ec, N|]. constructor; [|done].
  exists e. split; [done|]. by rewrite Ec.
Qed.

(** ** The versions of each collection *)

Lemma versioned_spec docs :
  Forall (fun d => forall v, _ready_current d = Some v -> _COLLECTION_RE (py_strip (vr_vector_collection v)) = true) docs ->
  exists m, versioned docs = Ret (m, Z.of_nat (length (omap _ready_current docs))) /\
    forall c u, u ∈ default [] (m !! c) <->
      exists d v, d ∈ docs /\ _ready_current d = Some v /\ py_strip (vr_vector_collection v) = c /\ vr_id v = u.
Proof.
  induction 1 as [|d docs Hd _ (m & E & IH)]; cbn [versioned].
  { exists ∅. split; [done|]. intros c u. rewrite lookup_empty. cbn. split; [intros []%elem_of_nil|].
    intros (d & _ & []%elem_of_nil & _). }
  destruct (_ready_current d) as [v|] eqn:Ev.
  - unfold _collection_name. rewrite (Hd v eq_refl). cbn [check mbind outcome_bind mret outcome_ret]. rewrite E.
    eexists. split; [cbn; rewrite Ev; cbn [length]; do 2 f_equal; lia|]. intros c u.
    destruct (decide (py_strip (vr_vector_collection v) = c)) as [<-|N].
    + rewrite lookup_insert_eq. unfold default at 1; cbn [from_option id]. rewrite elem_of_cons, IH. split.
      * intros [->|(d' & v' & ? & ?)]; [exists d, v; split; [by left|done]|exists d', v'; split; [by right|done]].
      * intros (d' & v' & [->|Hd']%elem_of_cons & Ev' & Ec & Eu); [left; congruence|right; eauto 6].
    + rewrite lookup_insert_ne by done. rewrite IH. split.
      * intros (d' & v' & ? & ?). exists d', v'. split; [by right|done].
      * intros (d' & v' & [->|Hd']%elem_of_cons & Ev' & Ec & Eu); [congruence|eauto 6].
  - rewrite E. eexists. split; [cbn; rewrite Ev; done|]. intros c u. rewrite IH. split.
    + intros (d' & v' & ? & ?). exists d', v'. split; [by right|done].
    + intros (d' & v' & [->|Hd']%elem_of_cons & Ev' & Ec & Eu); [congruence|eauto 6].
Qed.

(** ** The scope of a query *)

Section retrieval.
Context (env : CatalogEnv).

(** The current version of a document the tenant retrieves from. *)
Definition served (db : CatalogDb) (t : pystr) (kb : option pystr) (v : DocumentVersion) : Prop :=
  exists d, retrieved db t kb d /\ doc_current_version_id d = Some (dv_id v) /\ c_versions db !! dv_id v = Some v.

Lemma ready_current_record d r w :
  catalog_inv (w_db w) -> c_docs (w_db w) !! doc_id d = Some d -> document_record d w = (Ret r, w) ->
  forall v, _ready_current r = Some v <->
    exists y, v = _version_record y /\ doc_current_version_id d = Some (dv_id y) /\ c_versions (w_db w) !! dv_id y = Some y.
Proof.
  intros I Hd Er v. destruct (document_record_run d w I Hd) as (r' & Er' & (_ & _ & Dr) & Cr).
  rewrite Er in Er'. injection Er' as <-. unfold _ready_current. rewrite Dr, Cr.
  destruct (doc_current_version_id d) as [u|] eqn:Ec.
  - destruct (current_version _ _ _ I Hd Ec) as (y & Hy & _ & Sy & Hdel & Py & _). rewrite Py, Hdel. simpl.
    rewrite bool_decide_eq_true_2 by done. destruct (tk_version _ (inv_tables _ I) _ _ Hy) as [E _]. simpl in E.
    split; [intros [= <-]; exists y; by rewrite E|]. intros (z & -> & [= ->] & Hz). congruence.
  - simpl. destruct (doc_deleted_at d); simpl; split; try done; intros (y & _ & ? & _); done.
Qed.

Lemma served_ready t kb w ds rs :
  catalog_inv (w_db w) -> (forall d, d ∈ ds <-> retrieved (w_db w) t kb d) ->
  Forall2 (fun d r => document_record d w = (Ret r, w)) ds rs ->
  forall v', (exists r, r ∈ rs /\ _ready_current r = Some v') <-> exists v, v' = _version_record v /\ served (w_db w) t kb v.
Proof.
  intros I Hds F v'. split.
  - intros (r & Hr & Hv). apply list_elem_of_lookup in Hr as (i & Hi).
    destruct (Forall2_lookup_r _ _ _ _ _ F Hi) as (d & Hd & Er). apply list_elem_of_lookup_2, Hds in Hd.
    destruct (proj1 (ready_current_record d r w I (proj1 Hd) Er v') Hv) as (y & Ey & Hc & Hy). exists y. split; [exact Ey|]. by exists d.
  - intros (v & -> & d & Hd & Hc & Hv). pose proof (proj2 (Hds d) Hd) as Hin. apply list_elem_of_lookup in Hin as (i & Hi).
    destruct (Forall2_lookup_l _ _ _ _ _ F Hi) as (r & Hr & Er). exists r. split; [by eapply list_elem_of_lookup_2|].
    apply (ready_current_record d r w I (proj1 Hd) Er). by exists v.
Qed.

(** C14. A query sees exactly the leaves of the current versions. In every reachable
    catalogue whose current versions have valid collection names, resolving the scope
    of a tenant succeeds and changes nothing, and a row of a collection matches the
    filter of a target of that collection exactly when it carries the tenant, the leaf
    level and the identifier of a version that is current in a document of the
    tenant's active knowledge bases and is kept in that collection: no row of another
    tenant, of a candidate, or of a superseded or deleted version. *)
Theorem retrieval_sees_current_leaves {Emb} t kb level w :
  catalog_reachable env (w_db w) -> py_nonempty (py_strip t) = true -> 0 <= level ->
  (forall u v, c_versions (w_db w) !! u = Some v -> py_strip u = u) ->
  (forall v, served (w_db w) (py_strip t) kb v -> _COLLECTION_RE (py_strip (dv_vector_collection v)) = true) ->
  exists sn, resolve env t kb level w = (Ret sn, w) /\ NoDup (tg_collection_name <$> sn_targets sn) /\
    forall (row : VectorRow Emb) c,
      (exists tg e, tg ∈ sn_targets sn /\ tg_collection_name tg = c /\ parse_filter (tg_filter_expr tg) = Some e /\
         matches e (row_entity row) = true) <->
      bd_tenant_id (ch_base (vr_chunk row)) = py_strip t /\ ch_chunk_level (vr_chunk row) = level /\
      exists v, served (w_db w) (py_strip t) kb v /\ py_strip (dv_vector_collection v) = c /\
        bd_document_version_id (ch_base (vr_chunk row)) = dv_id v.
Proof.
  intros R Ht Hl Hids Hcols. pose proof (catalog_reachable_inv env _ R) as I.
  destruct (snapshot_run env (py_strip t) kb w R) as (s & ds & E & Hds & F).
  pose proof (served_ready _ _ _ _ _ I Hds F) as Hsv.
  destruct (versioned_spec (rs_documents s)) as (m & Em & Hm).
  { apply Forall_forall. intros r Hr v' Hv'. destruct (proj1 (Hsv v')) as (v & -> & Sv); [eauto|]. by apply Hcols. }
  assert (forall c u, u ∈ default [] (m !! c) <->
    exists v, served (w_db w) (py_strip t) kb v /\ py_strip (dv_vector_collection v) = c /\ dv_id v = u) as Hm2.
  { intros c u. rewrite Hm. split.
    - intros (r & v' & Hr & Hv' & Ec & Eu). destruct (proj1 (Hsv v')) as (v & -> & Sv); [eauto|]. exists v. done.
    - intros (v & Sv & Ec & Eu). destruct (proj2 (Hsv (_version_record v))) as (r & Hr & Hv); [eauto|].
      exists r, (_version_record v). done. }
  destruct (targets_spec (py_strip t) level m (sorted_str (map_to_list m).*1)) as (tgs & Et & Nt & At).
  { intros c ids Hc. apply Forall_forall. intros u Hu. destruct (proj1 (Hm2 c u)) as (v & (d & _ & _ & Hv) & _ & <-).
    - by rewrite Hc.
    - split; [by eapply Hids|]. by destruct (tk_version _ (inv_tables _ I) _ _ Hv). }
  eexists. split_and!.
  - unfold resolve. cbv zeta. rewrite Ht. cbn [negb raise_if]. rewrite (proj2 (Z.ltb_ge level 0)) by done.
    rewrite (bind_run _ _ w tt w) by done. rewrite (bind_run _ _ w tt w) by done. rewrite (bind_run _ _ _ _ _ E).
    rewrite (bind_run _ _ w (m, Z.of_nat (length (omap _ready_current (rs_documents s)))) w) by (by unfold of_outcome; rewrite Em).
    cbn beta iota. rewrite (bind_run _ _ w tgs w) by (by unfold of_outcome; rewrite Et). reflexivity.
  - cbn [sn_targets]. rewrite Nt, sorted_str_perm. apply NoDup_fst_map_to_list.
  - intros row c. cbn [sn_targets]. rewrite Forall_forall in At.
    assert (row_entity row "tenant_id"%py = Some (FStr (bd_tenant_id (ch_base (vr_chunk row))))) as R1 by reflexivity.
    assert (row_entity row "document_version_id"%py = Some (FStr (bd_document_version_id (ch_base (vr_chunk row))))) as R2 by reflexivity.
    assert (row_entity row "chunk_level"%py = Some (FInt (ch_chunk_level (vr_chunk row)))) as R3 by reflexivity. split.
    + intros (tg & e & Htg & <- & Pe & Me). destruct (At tg Htg) as (e' & Pe' & M). rewrite Pe in Pe'. injection Pe' as <-.
      apply M in Me as (M1 & (u & M2 & Hu) & M3). rewrite R1 in M1. rewrite R2 in M2. rewrite R3 in M3. simplify_eq.
      split_and!; try done. apply Hm2 in Hu as (v & Sv & Ec & Eu). by exists v.
    + intros (E1 & E3 & v & Sv & Ec & Ev).
      assert (dv_id v ∈ default [] (m !! c)) as Hu by (apply Hm2; eauto).
      assert (c ∈ tg_collection_name <$> tgs) as Hc.
      { rewrite Nt, sorted_str_perm. destruct (m !! c) as [ids|] eqn:Emc; [|by apply elem_of_nil in Hu].
        apply list_elem_of_fmap. exists (c, ids). split; [done|]. by apply elem_of_map_to_list. }
      apply list_elem_of_fmap in Hc as (tg & Etg & Htg). destruct (At tg Htg) as (e & Pe & M).
      exists tg, e. split_and!; try done. apply M. rewrite R1, R2, R3, E1, E3, Ev. split_and!; try done.
      exists (dv_id v). by rewrite <- Etg.
Qed.
End retrieval.

(** The scope after a first publication. *)
Lemma retrieval_sees_current_leaves_witness :
  exists sn, resolve cat_env "t"%py None 3 (cat_run cs_published) = (Ret sn, cat_run cs_published) /\
    length (sn_targets sn) = 1%nat /\
    forall (row : VectorRow unit) c,
      (exists tg e, tg ∈ sn_targets sn /\ tg_collection_name tg = c /\ parse_filter (tg_filter_expr tg) = Some e /\
         matches e (row_entity row) = true) <->
      bd_tenant_id (ch_base (vr_chunk row)) = "t"%py /\ ch_chunk_level (vr_chunk row) = 3 /\
      exists v, served (w_db (cat_run cs_published)) "t"%py None v /\ py_strip (dv_vector_collection v) = c /\
        bd_document_version_id (ch_base (vr_chunk row)) = dv_id v.
Proof.
  assert (map_Forall (fun u v => py_strip u = u /\ _COLLECTION_RE (py_strip (dv_vector_collection v)) = true)
            (c_versions (w_db (cat_run cs_published)))) as V by (apply (bool_decide_unpack _); vm_compute; exact I).
  assert (match (resolve cat_env "t"%py None 3 (cat_run cs_published)).1 with Ret sn => length (sn_targets sn) | _ => O end = 1%nat)
    as L by (vm_compute; reflexivity).
  destruct (@retrieval_sees_current_leaves cat_env unit "t"%py None 3 (cat_run cs_published) (cat_run_reachable cs_published))
    as (sn & E & _ & M).
  - reflexivity.
  - lia.
  - intros u v Hu. exact (proj1 (V u v Hu)).
  - intros v (d & _ & _ & Hv). exact (proj2 (V _ v Hv)).
  - exists sn. split; [exact E|]. rewrite E in L. split; [exact L|exact M].
Defined.
