(* ===== verification/ParentStore.v ===== *)
(** * The parent chunk store

    [backend/indexing/parent_chunk_store.py]: the chunks of levels 1 and 2 of every
    version in a table, with a cache in front of it. The cache is an interface: it
    may fail, forget and expire entries. *)

From S2P Require Import Prelude PyBase Errors Session Chunking Filters VectorStore.

Open Scope Z_scope.

(** A row: the fields of the chunk and the time of its last update. *)
Record ParentChunk := mkParentChunk { pk_chunk : Chunk; pk_updated_at : datetime }.
Abbreviation ParentTable := (gmap pystr ParentChunk).

(** [RedisCache] on a state [C]: a failing read or write shows as a miss and as no
    write; a strict deletion raises. *)
Class ParentCache (C : Type) := mkParentCache {
  pc_get_json : pystr -> C -> option Chunk * C;
  pc_set_json : pystr -> Chunk -> C -> C;
  pc_delete_strict : pystr -> Act C Z
}.

Record ParentDb (C : Type) := mkParentDb { pd_rows : ParentTable; pd_cache : C }.
Arguments mkParentDb {C} _ _.
Arguments pd_rows {C} _.
Arguments pd_cache {C} _.

Definition _scope_value (field value : pystr) : outcome pystr :=
  check (py_nonempty (py_strip value)) (EValue (field +++ " must be a non-empty string"%py)%py);;
  mret (py_strip value).

(** [_acl_tags]: stripped, without blanks and repetitions. *)
Definition _acl_tags (value : list pystr) : list pystr := normalized_ids [] value.

(** [_artifact_identity]: the chunk with its identity fields stripped. *)
Definition _artifact_identity (c : Chunk) : outcome Chunk :=
  let b := ch_base c in
  tenant ← _scope_value "tenant_id"%py (bd_tenant_id b);
  kb ← _scope_value "knowledge_base_id"%py (bd_knowledge_base_id b);
  doc ← _scope_value "document_id"%py (bd_document_id b);
  version ← _scope_value "document_version_id"%py (bd_document_version_id b);
  section ← _scope_value "section_id"%py (bd_section_id b);
  index_version ← _scope_value "index_version"%py (bd_index_version b);
  content_hash ← _scope_value "content_hash"%py (ch_content_hash c);
  check (sha256_text content_hash) (EValue "content_hash must be a SHA-256 hex digest"%py);;
  mret (mkChunk (mkBaseDoc (bd_filename b) (bd_file_path b) (bd_file_type b) (bd_page_number b) tenant kb doc version
                   section (bd_acl_tags b) index_version)
          (ch_text c) (ch_chunk_id c) (ch_parent_chunk_id c) (ch_root_chunk_id c) (ch_chunk_level c) (ch_chunk_idx c)
          content_hash).

Definition _is_current_artifact (c : Chunk) : bool :=
  match _artifact_identity c with Ret _ => true | Raise _ => false end.

Definition _cache_key (chunk_id : pystr) : pystr := ("parent_chunk:"%py +++ chunk_id)%py.

(** The payload stored for a document under its stripped identifier. *)
Definition payload (chunk_id : pystr) (c : Chunk) : outcome Chunk :=
  i ← _artifact_identity c;
  let b := ch_base i in
  mret (mkChunk (mkBaseDoc (bd_filename b) (bd_file_path b) (bd_file_type b) (bd_page_number b) (bd_tenant_id b)
                   (bd_knowledge_base_id b) (bd_document_id b) (bd_document_version_id b) (bd_section_id b)
                   (_acl_tags (bd_acl_tags b)) (bd_index_version b))
          (ch_text i) chunk_id (ch_parent_chunk_id i) (ch_root_chunk_id i) (ch_chunk_level i) (ch_chunk_idx i)
          (ch_content_hash i)).

(** The loop of [upsert_documents]: the rows after it, the payloads written, in
    order; [now] is the clock. *)
Fixpoint upsert_rows (now : nat -> datetime) (docs : list Chunk) (rows : ParentTable) :
    outcome (ParentTable * list (pystr * Chunk)) :=
  match docs with
  | [] => mret (rows, [])
  | doc :: docs =>
      let chunk_id := py_strip (ch_chunk_id doc) in
      if negb (py_nonempty chunk_id) then upsert_rows now docs rows
      else
        p ← payload chunk_id doc;
        '(rows, payloads) ← upsert_rows (fun n => now (S n)) docs (<[chunk_id := mkParentChunk p (now 0%nat)]> rows);
        mret (rows, (chunk_id, p) :: payloads)
  end.

(** The rows [_version_query] selects. *)
Definition version_row (tenant kb doc version : pystr) (index_version : option pystr) (r : ParentChunk) : bool :=
  let b := ch_base (pk_chunk r) in
  bool_decide (bd_tenant_id b = tenant) && bool_decide (bd_knowledge_base_id b = kb)
  && bool_decide (bd_document_id b = doc) && bool_decide (bd_document_version_id b = version)
  && match index_version with Some i => bool_decide (bd_index_version b = i) | None => true end.

Definition opt_scope_value (field : pystr) (o : option pystr) : outcome (option pystr) :=
  match o with None => mret None | Some v => s ← _scope_value field v; mret (Some s) end.

(** [_version_query] *)
Definition _version_query (tenant kb doc version : pystr) (index_version : option pystr) (rows : ParentTable) :
    outcome (list ParentChunk) :=
  t ← _scope_value "tenant_id"%py tenant;
  k ← _scope_value "knowledge_base_id"%py kb;
  d ← _scope_value "document_id"%py doc;
  v ← _scope_value "document_version_id"%py version;
  i ← opt_scope_value "index_version"%py index_version;
  mret (rows_where (version_row t k d v i) rows).

Record ParentVersionVerification := mkParentVersionVerification {
  pv_expected_ids : list pystr;
  pv_actual_ids : list pystr;
  pv_missing_ids : list pystr;
  pv_unexpected_ids : list pystr;
  pv_duplicate_ids : list pystr;
  pv_metadata_mismatch_ids : list pystr;
  pv_expected_count : Z;
  pv_actual_count : Z;
  pv_exact : bool
}.

(** A row whose metadata is not that of the version. *)
Definition metadata_mismatch (tenant kb doc version : pystr) (index_version : option pystr) (r : ParentChunk) : bool :=
  let b := ch_base (pk_chunk r) in
  negb (bool_decide (bd_tenant_id b = tenant)) || negb (bool_decide (bd_knowledge_base_id b = kb))
  || negb (bool_decide (bd_document_id b = doc)) || negb (bool_decide (bd_document_version_id b = version))
  || negb (py_nonempty (py_strip (bd_section_id b))) || negb (py_nonempty (py_strip (bd_index_version b)))
  || match index_version with Some i => negb (bool_decide (bd_index_version b = i)) | None => false end
  || negb (sha256_text (ch_content_hash (pk_chunk r))).

Definition row_id (r : ParentChunk) : pystr := ch_chunk_id (pk_chunk r).

Section parent_store.
Context {C : Type} `{!ParentCache C}.

Fixpoint cache_payloads (payloads : list (pystr * Chunk)) (c : C) : C :=
  match payloads with
  | [] => c
  | (chunk_id, p) :: payloads => cache_payloads payloads (pc_set_json (_cache_key chunk_id) p c)
  end.

(** [upsert_documents] *)
Definition upsert_documents (now : nat -> datetime) (docs : list Chunk) : Act (ParentDb C) Z := fun db =>
  match docs with
  | [] => (Ret 0, db)
  | _ =>
      match upsert_rows now docs (pd_rows db) with
      | Ret (rows, payloads) =>
          (Ret (Z.of_nat (length payloads)), mkParentDb rows (cache_payloads payloads (pd_cache db)))
      | Raise e => (Raise e, db)
      end
  end.

(** The first loop of [get_documents_by_ids]: keys asked for, the results in the
    cache, the keys to read from the table. *)
Fixpoint read_cache (chunk_ids : list pystr) (found : gmap pystr Chunk) (c : C) :
    outcome (list pystr * gmap pystr Chunk * list pystr) * C :=
  match chunk_ids with
  | [] => (Ret ([], found, []), c)
  | chunk_id :: chunk_ids =>
      let key := py_strip chunk_id in
      if negb (py_nonempty key) then read_cache chunk_ids found c
      else
        let '(cached, c) := pc_get_json (_cache_key key) c in
        match cached with
        | Some p =>
            if _is_current_artifact p then
              match read_cache chunk_ids (<[key := p]> found) c with
              | (Ret (keys, found, missing), c) => (Ret (key :: keys, found, missing), c)
              | (Raise e, c) => (Raise e, c)
              end
            else
              match pc_delete_strict (_cache_key key) c with
              | (Ret _, c) =>
                  match read_cache chunk_ids found c with
                  | (Ret (keys, found, missing), c) => (Ret (key :: keys, found, key :: missing), c)
                  | (Raise e, c) => (Raise e, c)
                  end
              | (Raise e, c) => (Raise e, c)
              end
        | None =>
            match read_cache chunk_ids found c with
            | (Ret (keys, found, missing), c) => (Ret (key :: keys, found, key :: missing), c)
            | (Raise e, c) => (Raise e, c)
            end
        end
  end.

(** The rows read for the missing keys, current ones cached. *)
Fixpoint read_rows (rows : list ParentChunk) (found : gmap pystr Chunk) (c : C) : gmap pystr Chunk * C :=
  match rows with
  | [] => (found, c)
  | r :: rows =>
      if _is_current_artifact (pk_chunk r)
      then read_rows rows (<[row_id r := pk_chunk r]> found) (pc_set_json (_cache_key (row_id r)) (pk_chunk r) c)
      else read_rows rows found c
  end.

(** [get_documents_by_ids] *)
Definition get_documents_by_ids (chunk_ids : list pystr) : Act (ParentDb C) (list Chunk) := fun db =>
  match read_cache chunk_ids ∅ (pd_cache db) with
  | (Raise e, c) => (Raise e, mkParentDb (pd_rows db) c)
  | (Ret (keys, found, missing), c) =>
      let rows := rows_where (fun r => bool_decide (row_id r ∈ missing)) (pd_rows db) in
      let '(found, c) := read_rows rows found c in
      (Ret (omap (fun k => found !! k) keys), mkParentDb (pd_rows db) c)
  end.

(** [count_by_version] *)
Definition parent_count_by_version (tenant kb doc version : pystr) (index_version : option pystr) : Act (ParentDb C) Z :=
  fun db => match _version_query tenant kb doc version index_version (pd_rows db) with
            | Ret rows => (Ret (Z.of_nat (length rows)), db)
            | Raise e => (Raise e, db)
            end.

(** The verdict on the rows of a version. *)
Definition parent_verdict (tenant kb doc version : pystr) (index_version : option pystr) (expected : list pystr)
    (rows : list ParentChunk) : ParentVersionVerification :=
  let actual := row_id <$> rows in
  let duplicates := duplicate_ids actual in
  let mismatch := sorted_str (row_id <$> List.filter (metadata_mismatch tenant kb doc version index_version) rows) in
  let missing := ids_without expected actual in
  let unexpected := ids_without actual expected in
  mkParentVersionVerification expected actual missing unexpected duplicates mismatch (Z.of_nat (length expected))
    (Z.of_nat (length actual))
    (empty_list missing && empty_list unexpected && empty_list duplicates && empty_list mismatch
     && (Z.of_nat (length expected) =? Z.of_nat (length actual))).

(** [verify_version] *)
Definition parent_verify_version (tenant kb doc version : pystr) (expected_chunk_ids : list pystr)
    (index_version : option pystr) : Act (ParentDb C) ParentVersionVerification := fun db =>
  (expected_ids_ok expected_chunk_ids;;
   t ← _scope_value "tenant_id"%py tenant;
   k ← _scope_value "knowledge_base_id"%py kb;
   d ← _scope_value "document_id"%py doc;
   v ← _scope_value "document_version_id"%py version;
   i ← opt_scope_value "index_version"%py index_version;
   rows ← _version_query t k d v i (pd_rows db);
   mret (parent_verdict t k d v i expected_chunk_ids rows), db).

(** The cache entries of a version go first. *)
Fixpoint evict (ids : list pystr) : Act C unit :=
  match ids with [] => mret tt | i :: ids => pc_delete_strict (_cache_key i);; evict ids end.

(** [delete_by_version]: an exception leaves the rows. *)
Definition parent_delete_by_version (tenant kb doc version : pystr) (index_version : option pystr) : Act (ParentDb C) Z :=
  fun db =>
    match _version_query tenant kb doc version index_version (pd_rows db) with
    | Raise e => (Raise e, db)
    | Ret [] => (Ret 0, db)
    | Ret rows =>
        match evict (row_id <$> rows) (pd_cache db) with
        | (Raise e, c) => (Raise e, mkParentDb (pd_rows db) c)
        | (Ret _, c) =>
            (Ret (Z.of_nat (length rows)),
             mkParentDb (filter (fun kv => kv.1 ∉ (row_id <$> rows)) (pd_rows db)) c)
        end
    end.
End parent_store.
