(* ===== verification/ParentProps.v ===== *)
(** * The parent chunk store keeps its promises

    A verification is exact, a deletion takes a version and nothing else, a write
    stores every document, and reading through the cache returns what the table
    holds. *)

From S2P Require Import Prelude PyBase Errors Session Decimals Chunking Filters FiltersProps VectorStore VectorProps ParentStore.

Open Scope Z_scope.

(** Rows are stored under their primary key. *)
Definition table_ok (rows : ParentTable) : Prop := forall k r, rows !! k = Some r -> row_id r = k.

(** A row of a version, named by its parts stripped. *)
Definition parent_in_scope (sc : IndexVersionScope) (r : ParentChunk) : bool :=
  version_row (is_tenant_id sc) (is_knowledge_base_id sc) (is_document_id sc) (is_document_version_id sc)
    (Some (is_index_version sc)) r.
Definition parent_rows (sc : IndexVersionScope) (rows : ParentTable) : list ParentChunk := rows_where (parent_in_scope sc) rows.

Lemma scope_value_run f v : py_strip v = v -> py_nonempty v = true -> _scope_value f v = Ret v.
Proof. intros S N. unfold _scope_value, check. by rewrite S, N. Qed.
Lemma scope_value_inv f v s : _scope_value f v = Ret s -> s = py_strip v /\ py_nonempty s = true.
Proof. unfold _scope_value. by intros (? & E%check_inv & [= <-])%outcome_bind_inv. Qed.

Lemma version_query_scope sc rows :
  scope_stripped sc ->
  _version_query (is_tenant_id sc) (is_knowledge_base_id sc) (is_document_id sc) (is_document_version_id sc)
    (Some (is_index_version sc)) rows = Ret (parent_rows sc rows).
Proof.
  unfold scope_stripped. rewrite !Forall_cons. intros (_ & [S1 N1] & [S2 N2] & [S3 N3] & [S4 N4] & [S5 N5] & _).
  unfold _version_query, opt_scope_value. by rewrite !scope_value_run.
Qed.

(** ** Verification *)

Lemma parent_verdict_exact t k d v i expected rows :
  NoDup expected ->
  (pv_exact (parent_verdict t k d v i expected rows) = true <->
   row_id <$> rows ≡ₚ expected /\ Forall (fun r => metadata_mismatch t k d v i r = false) rows).
Proof.
  intros ND. unfold parent_verdict. cbn [pv_exact]. pose proof (compare_ids_exact expected (row_id <$> rows) ND) as E.
  unfold compare_ids in E. cbn [iv_exact] in E. rewrite <- E, !andb_true_iff, !(empty_list_nil (sorted_str _)), sorted_str_nil.
  assert (row_id <$> List.filter (metadata_mismatch t k d v i) rows = [] <-> Forall (fun r => metadata_mismatch t k d v i r = false) rows) as ->.
  { rewrite Forall_forall. rewrite <- filter_nil_iff. split; [apply fmap_nil_inv|by intros ->]. }
  tauto.
Qed.

Section parent_props.
Context {C : Type} `{!ParentCache C}.

(** ** Deletion *)

Lemma rows_where_elem p (rows : ParentTable) r : r ∈ rows_where p rows <-> exists k, rows !! k = Some r /\ p r = true.
Proof. apply elem_of_rows_where. Qed.

Lemma parent_delete_rows sc db r db' :
  scope_stripped sc -> table_ok (pd_rows db) ->
  parent_delete_by_version (is_tenant_id sc) (is_knowledge_base_id sc) (is_document_id sc) (is_document_version_id sc)
    (Some (is_index_version sc)) db = (r, db') ->
  table_ok (pd_rows db') /\
  (forall k x, parent_in_scope sc x = false -> (pd_rows db' !! k = Some x <-> pd_rows db !! k = Some x)) /\
  match r with Ret _ => parent_rows sc (pd_rows db') = [] | Raise _ => pd_rows db' = pd_rows db end.
Proof.
  intros SC OK. unfold parent_delete_by_version. rewrite (version_query_scope _ _ SC).
  destruct (parent_rows sc (pd_rows db)) as [|r0 rows0] eqn:E; [by intros [= <- <-]|]. rewrite <- E.
  set (rows := parent_rows sc (pd_rows db)). assert (rows = parent_rows sc (pd_rows db)) as ER by done. clearbody rows.
  destruct (evict (row_id <$> rows) (pd_cache db)) as [[u|ex] c]; [|by intros [= <- <-]]. intros [= <- <-]. cbn [pd_rows].
  assert (forall k x, pd_rows db !! k = Some x -> (k ∈ row_id <$> rows <-> parent_in_scope sc x = true)) as K.
  { intros k x Hk. split.
    - intros (y & Ey & Hy)%list_elem_of_fmap. rewrite ER in Hy. apply rows_where_elem in Hy as (k' & Hk' & P).
      pose proof (OK _ _ Hk'). assert (k' = k) by congruence. subst k'. congruence.
    - intros P. apply list_elem_of_fmap. exists x. split; [by rewrite (OK _ _ Hk)|]. rewrite ER. apply rows_where_elem. eauto. }
  split_and!.
  - intros k x [Hx _]%map_lookup_filter_Some. by apply OK.
  - intros k x P. rewrite map_lookup_filter_Some. simpl. split; [tauto|]. intros Hx. split; [done|].
    intros HK. apply (K _ _ Hx) in HK. congruence.
  - apply rows_where_nil. intros k x Hx%map_lookup_filter_Some. simpl in Hx. destruct Hx as [Hx N].
    destruct (parent_in_scope sc x) eqn:P; [|done]. exfalso. apply N. by apply (K _ _ Hx).
Qed.

(** ** Writing *)

Lemma payload_id k c p : payload k c = Ret p -> ch_chunk_id p = k.
Proof. unfold payload. by intros (i & _ & [= <-])%outcome_bind_inv. Qed.

Lemma upsert_rows_spec now docs rows rows' ps :
  upsert_rows now docs rows = Ret (rows', ps) ->
  (table_ok rows -> table_ok rows') /\
  ps.*1 = List.filter py_nonempty ((fun c => py_strip (ch_chunk_id c)) <$> docs) /\
  (forall k, k ∉ ps.*1 -> rows' !! k = rows !! k) /\
  (forall k p, NoDup ps.*1 -> (k, p) ∈ ps -> exists t, rows' !! k = Some (mkParentChunk p t)) /\
  Forall (fun kp => exists c, c ∈ docs /\ kp.1 = py_strip (ch_chunk_id c) /\ payload kp.1 c = Ret kp.2) ps.
Proof.
  revert now rows rows' ps. induction docs as [|doc docs IH]; intros now rows rows' ps; cbn [upsert_rows].
  { intros [= <- <-]. split_and!; try done. intros k p _ []%elem_of_nil. }
  rewrite fmap_cons. cbn [List.filter]. destruct (py_nonempty (py_strip (ch_chunk_id doc))) eqn:N; cbn [negb].
  - intros (p & P & ([rows1 ps1] & R & [= <- <-])%outcome_bind_inv)%outcome_bind_inv.
    destruct (IH _ _ _ _ R) as (T & K & O & L & F). cbn [fmap list_fmap fst]. rewrite K. split_and!.
    + intros OK. apply T. intros k r [[<- <-]|[_ Hk]]%lookup_insert_Some; [|by apply OK]. by apply (payload_id _ _ _ P).
    + done.
    + intros k [Hk1 Hk2]%not_elem_of_cons. rewrite (O k) by (by rewrite K). by rewrite lookup_insert_ne.
    + rewrite <- K. intros k q [N1 N2]%NoDup_cons [Hk|Hk]%elem_of_cons; [|by apply L]. injection Hk as -> ->.
      exists (now 0%nat). rewrite (O _ N1). by rewrite lookup_insert_eq.
    + constructor; [exists doc; split; [by left|done]|]. eapply Forall_impl; [exact F|].
      intros kp (c & Hc & E). exists c. split; [by right|done].
  - intros R. destruct (IH _ _ _ _ R) as (T & K & O & L & F). split_and!; try done.
    eapply Forall_impl; [exact F|]. intros kp (c & Hc & E). exists c. split; [by right|done].
Qed.

(** ** Reading through the cache *)

(** What the cache promises: it never invents or changes an entry; a strict deletion
    that returns has removed it. *)
Class CacheLaws := mkCacheLaws {
  pc_entries : C -> pystr -> option Chunk;
  pc_get_law k c : ((pc_get_json k c).1 = None \/ (pc_get_json k c).1 = pc_entries c k) /\
    forall k' p, pc_entries (pc_get_json k c).2 k' = Some p -> pc_entries c k' = Some p;
  pc_set_law k p c k' q : pc_entries (pc_set_json k p c) k' = Some q -> (k' = k /\ q = p) \/ (k' <> k /\ pc_entries c k' = Some q);
  pc_delete_law k c : (forall k' p, pc_entries (pc_delete_strict k c).2 k' = Some p -> pc_entries c k' = Some p) /\
    match (pc_delete_strict k c).1 with Ret _ => pc_entries (pc_delete_strict k c).2 k = None | Raise _ => True end
}.
Context {CL : CacheLaws}.

(** Current entries are rows of the table. *)
Definition coherent (rows : ParentTable) (c : C) : Prop :=
  forall k p, pc_entries c (_cache_key k) = Some p -> _is_current_artifact p = true ->
    exists t, rows !! k = Some (mkParentChunk p t).

Lemma cache_key_inj k1 k2 : _cache_key k1 = _cache_key k2 -> k1 = k2.
Proof. unfold _cache_key. intros E%(f_equal cps_of). rewrite !cps_app in E. apply pystr_ext. by apply app_inv_head in E. Qed.

Lemma coherent_mono rows c c' :
  coherent rows c -> (forall k p, pc_entries c' k = Some p -> pc_entries c k = Some p) -> coherent rows c'.
Proof. intros H M k p E. apply H. by apply M. Qed.

Lemma coherent_set rows c k p t : coherent rows c -> rows !! k = Some (mkParentChunk p t) -> coherent rows (pc_set_json (_cache_key k) p c).
Proof.
  intros H R k' q [[->%cache_key_inj ->]|[_ E]]%pc_set_law Q; [by exists t|]. by apply H.
Qed.

(** The cache after an upsert: entries of the keys written are their payloads. *)
Lemma cache_payloads_entries ps c k q :
  pc_entries (cache_payloads ps c) (_cache_key k) = Some q ->
  (k, q) ∈ ps \/ ((k ∉ (ps.*1)) /\ pc_entries c (_cache_key k) = Some q).
Proof.
  revert c. induction ps as [|[k0 p0] ps IH]; intros c E; [right; split; [apply not_elem_of_nil|done]|].
  simpl in E. apply IH in E as [E|[N E]]; [left; by right|].
  apply pc_set_law in E as [[->%cache_key_inj ->]|[D E]]; [left; by left|]. right. split; [|done].
  rewrite fmap_cons. simpl. apply not_elem_of_cons. split; [|done]. congruence.
Qed.

(** Writing keeps the cache coherent. *)
Lemma upsert_coherent now docs db n db' :
  NoDup (List.filter py_nonempty ((fun c => py_strip (ch_chunk_id c)) <$> docs)) -> coherent (pd_rows db) (pd_cache db) ->
  upsert_documents now docs db = (Ret n, db') -> coherent (pd_rows db') (pd_cache db').
Proof.
  intros ND H. unfold upsert_documents. destruct docs as [|doc docs0]; [by intros [= _ <-]|].
  set (docs := doc :: docs0) in *. clearbody docs. destruct (upsert_rows now docs (pd_rows db)) as [[rows ps]|e] eqn:R; [|done].
  intros [= _ <-]. destruct (upsert_rows_spec _ _ _ _ _ R) as (_ & K & O & L & _). simpl.
  intros k p [E|[N E]]%cache_payloads_entries P; [apply L; [by rewrite K|done]|]. rewrite (O k N). by apply H.
Qed.

Lemma evict_entries ids c k p : pc_entries (evict ids c).2 k = Some p -> pc_entries c k = Some p.
Proof.
  revert c. induction ids as [|i ids IH]; intros c; [done|]. cbn [evict]. unfold mbind, Act_bind.
  destruct (pc_delete_law (_cache_key i) c) as [M _]. destruct (pc_delete_strict _ c) as [[z|e] c1]; simpl in *; [|auto].
  intros E%IH. by apply M.
Qed.
Lemma evict_gone ids c u c' i : evict ids c = (Ret u, c') -> i ∈ ids -> pc_entries c' (_cache_key i) = None.
Proof.
  revert c. induction ids as [|j ids IH]; intros c E Hi; [by apply elem_of_nil in Hi|]. cbn [evict] in E.
  apply act_bind_inv in E as (z & c1 & E1 & E2). destruct (pc_delete_law (_cache_key j) c) as [_ G]. rewrite E1 in G. simpl in G.
  apply elem_of_cons in Hi as [->|Hi]; [|by eapply IH].
  destruct (pc_entries c' (_cache_key j)) as [p|] eqn:F; [|done].
  pose proof (evict_entries ids c1 (_cache_key j) p) as M. rewrite E2 in M. simpl in M. apply M in F. congruence.
Qed.

(** So does deleting a version. *)
Lemma delete_coherent t k d v i db r db' :
  table_ok (pd_rows db) -> coherent (pd_rows db) (pd_cache db) -> parent_delete_by_version t k d v i db = (r, db') ->
  coherent (pd_rows db') (pd_cache db').
Proof.
  intros OK H. unfold parent_delete_by_version. destruct (_version_query _ _ _ _ _ _) as [rows|e]; [|by intros [= <- <-]].
  destruct rows as [|r0 rows0]; [by intros [= <- <-]|]. set (rows := r0 :: rows0). clearbody rows.
  pose proof (evict_entries (row_id <$> rows) (pd_cache db)) as M. pose proof (evict_gone (row_id <$> rows) (pd_cache db)) as G.
  destruct (evict _ _) as [[u|e] c]; simpl in M; intros [= <- <-]; simpl; [|by eapply coherent_mono].
  intros key p E P. destruct (H key p (M _ _ E) P) as (tm & Hk). exists tm. apply map_lookup_filter_Some. split; [done|].
  simpl. intros Hin. specialize (G u c key eq_refl Hin). congruence.
Qed.

(** What a reader may get for a key: the row of the table, if it is current. *)
Definition current_row (rows : ParentTable) (k : pystr) : option Chunk :=
  match rows !! k with Some r => if _is_current_artifact (pk_chunk r) then Some (pk_chunk r) else None | None => None end.

Lemma read_cache_spec ids rows found c keys found' missing c' :
  coherent rows c -> (forall k p, found !! k = Some p -> current_row rows k = Some p) ->
  read_cache ids found c = (Ret (keys, found', missing), c') ->
  coherent rows c' /\ keys = List.filter py_nonempty (py_strip <$> ids) /\
  (forall k p, found' !! k = Some p -> current_row rows k = Some p) /\
  (forall k, k ∈ keys -> k ∈ missing \/ is_Some (found' !! k)) /\ (forall k, is_Some (found !! k) -> is_Some (found' !! k)).
Proof.
  revert found c keys found' missing c'. induction ids as [|i ids IH]; intros found c keys found' missing c' CO FO; cbn [read_cache].
  { intros [= <- <- <- <-]. split_and!; try done. intros k []%elem_of_nil. }
  rewrite fmap_cons. cbn [List.filter]. cbv zeta. destruct (py_nonempty (py_strip i)); cbn [negb]; [|by apply IH].
  set (key := py_strip i). destruct (pc_get_law (_cache_key key) c) as [G M].
  destruct (pc_get_json (_cache_key key) c) as [cached c1]. simpl in G, M. pose proof (coherent_mono _ _ _ CO M) as CO1.
  destruct cached as [p|].
  - destruct (_is_current_artifact p) eqn:P.
    + assert (current_row rows key = Some p) as CR.
      { destruct G as [?|G]; [done|]. destruct (CO key p) as (t & E); [done|done|]. unfold current_row. rewrite E. simpl. by rewrite P. }
      destruct (read_cache ids _ c1) as [[[[keys1 found1] missing1]|e] c2] eqn:R; [|done]. intros [= <- <- <- <-].
      assert (forall k q, <[key := p]> found !! k = Some q -> current_row rows k = Some q) as FO1.
      { intros k q [[<- <-]|[_ Hk]]%lookup_insert_Some; [done|by apply FO]. }
      destruct (IH _ _ _ _ _ _ CO1 FO1 R) as (A1 & A2 & A3 & A4 & A5).
      split_and!; try done; [by rewrite A2| |].
      * intros k [->|Hk]%elem_of_cons; [|auto]. right. apply A5. rewrite lookup_insert_eq. eauto.
      * intros k Hk. apply A5. rewrite lookup_insert_is_Some'. by right.
    + destruct (pc_delete_law (_cache_key key) c1) as [M2 _].
      destruct (pc_delete_strict _ c1) as [[z|e] c2]; [|done]. simpl in M2. pose proof (coherent_mono _ _ _ CO1 M2) as CO2.
      destruct (read_cache ids found c2) as [[[[keys1 found1] missing1]|e] c3] eqn:R; [|done]. intros [= <- <- <- <-].
      destruct (IH _ _ _ _ _ _ CO2 FO R) as (A1 & A2 & A3 & A4 & A5).
      split_and!; try done; [by rewrite A2|]. intros k [->|Hk]%elem_of_cons; [left; by left|].
      destruct (A4 _ Hk); [left; by right|by right].
  - destruct (read_cache ids found c1) as [[[[keys1 found1] missing1]|e] c3] eqn:R; [|done]. intros [= <- <- <- <-].
    destruct (IH _ _ _ _ _ _ CO1 FO R) as (A1 & A2 & A3 & A4 & A5).
    split_and!; try done; [by rewrite A2|]. intros k [->|Hk]%elem_of_cons; [left; by left|].
    destruct (A4 _ Hk); [left; by right|by right].
Qed.

Lemma read_rows_spec l rows found c found' c' :
  coherent rows c -> (forall r, r ∈ l -> rows !! row_id r = Some r) -> (forall k p, found !! k = Some p -> current_row rows k = Some p) ->
  read_rows l found c = (found', c') ->
  coherent rows c' /\ (forall k p, found' !! k = Some p -> current_row rows k = Some p) /\
  (forall k, is_Some (found !! k) -> is_Some (found' !! k)) /\
  (forall r, r ∈ l -> _is_current_artifact (pk_chunk r) = true -> is_Some (found' !! row_id r)).
Proof.
  revert found c. induction l as [|r l IH]; intros found c CO L FO; cbn [read_rows].
  { intros [= <- <-]. split_and!; try done. intros r []%elem_of_nil. }
  assert (rows !! row_id r = Some r) as Er by (apply L; by left).
  assert (forall r, r ∈ l -> rows !! row_id r = Some r) as L' by (intros; apply L; by right).
  destruct (_is_current_artifact (pk_chunk r)) eqn:P.
  - intros H. assert (coherent rows (pc_set_json (_cache_key (row_id r)) (pk_chunk r) c)) as CO1.
    { apply (coherent_set rows c (row_id r) (pk_chunk r) (pk_updated_at r) CO). by destruct r. }
    assert (forall k p, <[row_id r := pk_chunk r]> found !! k = Some p -> current_row rows k = Some p) as FO1.
    { intros k p [[<- <-]|[_ Hk]]%lookup_insert_Some; [|by apply FO]. unfold current_row. by rewrite Er, P. }
    destruct (IH _ _ CO1 L' FO1 H) as (A1 & A2 & A3 & A4).
    split_and!; try done.
    + intros k Hk. apply A3. rewrite lookup_insert_is_Some'. by right.
    + intros x [->|Hx]%elem_of_cons Q; [|by apply A4]. apply A3. rewrite lookup_insert_eq. eauto.
  - intros H. destruct (IH _ _ CO L' FO H) as (A1 & A2 & A3 & A4). split_and!; try done.
    intros x [->|Hx]%elem_of_cons Q; [congruence|by apply A4].
Qed.

Lemma omap_ext_in {A B} (f g : A -> option B) (l : list A) : (forall x, x ∈ l -> f x = g x) -> omap f l = omap g l.
Proof.
  induction l as [|x l IH]; intros H; [done|]. cbn [omap list_omap]. rewrite (H x) by (by left).
  rewrite IH; [done|]. intros y Hy. apply H. by right.
Qed.

(** Reading parent chunks through the cache returns what the table holds: when
    current cache entries are rows of the table, a read that succeeds returns, for
    the identifiers asked for, in order, the rows that are current artefacts,
    whatever the cache lost or held that is stale; and it leaves the table as it is
    and the cache coherent. *)
Theorem cached_read_is_coherent ids db chunks db' :
  table_ok (pd_rows db) -> coherent (pd_rows db) (pd_cache db) ->
  get_documents_by_ids ids db = (Ret chunks, db') ->
  chunks = omap (current_row (pd_rows db)) (List.filter py_nonempty (py_strip <$> ids)) /\
  pd_rows db' = pd_rows db /\ coherent (pd_rows db') (pd_cache db').
Proof.
  intros OK CO. unfold get_documents_by_ids.
  destruct (read_cache ids ∅ (pd_cache db)) as [[[[keys found] missing]|e] c] eqn:R; [|done].
  destruct (read_cache_spec ids (pd_rows db) ∅ _ _ _ _ _ CO ltac:(intros k p; by rewrite lookup_empty) R) as (A1 & A2 & A3 & A4 & _).
  cbv zeta. destruct (read_rows _ found c) as [found2 c2] eqn:R2. intros [= <- <-]. simpl.
  assert (forall r, r ∈ rows_where (fun r => bool_decide (row_id r ∈ missing)) (pd_rows db) -> pd_rows db !! row_id r = Some r) as RW.
  { intros r (k & Hk & _)%rows_where_elem. by rewrite (OK _ _ Hk). }
  destruct (read_rows_spec _ (pd_rows db) found c found2 c2 A1 RW A3 R2) as (B1 & B2 & B3 & B4).
  split_and!; try done. rewrite <- A2. apply omap_ext_in. intros k Hk.
  destruct (found2 !! k) as [p|] eqn:F; [by rewrite (B2 _ _ F)|]. unfold current_row.
  destruct (pd_rows db !! k) as [r|] eqn:Er; [|done]. destruct (_is_current_artifact (pk_chunk r)) eqn:P; [|done]. exfalso.
  destruct (A4 _ Hk) as [Hm|Hm]; [|apply B3 in Hm; rewrite F in Hm; by destruct Hm].
  pose proof (OK _ _ Er) as Ek. assert (is_Some (found2 !! row_id r)) as Hf.
  { apply B4; [|done]. apply rows_where_elem. exists k. split; [done|]. apply bool_decide_eq_true. by rewrite Ek. }
  rewrite Ek, F in Hf. by destruct Hf.
Qed.
End parent_props.

(** A cache that keeps everything. *)
Definition map_cache : ParentCache (gmap pystr Chunk) :=
  mkParentCache _ (fun k c => (c !! k, c)) (fun k p c => <[k := p]> c) (fun k c => (Ret 1, delete k c)).
Lemma map_cache_laws : @CacheLaws (gmap pystr Chunk) map_cache.
Proof.
  refine (@mkCacheLaws _ map_cache (fun c k => c !! k) _ _ _); simpl.
  - intros k c. split; [by right|done].
  - intros k p c k' q [[<- <-]|[N H]]%lookup_insert_Some; [by left|right; split; [congruence|done]].
  - intros k c. split; [|apply lookup_delete_eq]. intros k' p [_ H]%lookup_delete_Some. done.
Defined.

Definition parent_example : Chunk :=
  mkChunk (mkBaseDoc "f.pdf"%py "/f"%py "PDF"%py 1 "t"%py "kb"%py "doc"%py "v1"%py "page:1"%py [] "i"%py) "text"%py "c1"%py ""%py
    "c1"%py 1 0 (PyStr (repeat 97%N 64)).
Definition parent_db : ParentDb (gmap pystr Chunk) :=
  (@upsert_documents _ map_cache (fun _ => 5) [parent_example] (mkParentDb ∅ ∅)).2.

Lemma cached_read_is_coherent_witness :
  @get_documents_by_ids _ map_cache ["c1"; "c2"]%py parent_db = (Ret [parent_example], parent_db) /\
  [parent_example] = omap (current_row (pd_rows parent_db)) ["c1"; "c2"]%py.
Proof.
  split; [vm_compute; reflexivity|].
  apply (@cached_read_is_coherent _ map_cache map_cache_laws ["c1"; "c2"]%py parent_db [parent_example] parent_db).
  - intros k r H. unfold parent_db, upsert_documents in H. cbn -[insert] in H.
    apply lookup_insert_Some in H as [[<- <-]|[_ H]]; [reflexivity|]. rewrite lookup_empty in H. discriminate.
  - intros k p H _. unfold parent_db, upsert_documents in *. cbn -[insert lookup] in *.
    apply lookup_insert_Some in H as [[E <-]|[_ H]]; [|rewrite lookup_empty in H; discriminate].
    apply cache_key_inj in E as <-. exists 5. reflexivity.
  - vm_compute. reflexivity.
Defined.
