(* ===== verification/Publication.v ===== *)
(** * Document publication

    [backend/documents/publication.py]: a candidate version is built in the parent and
    vector stores, verified there, staged in the catalogue and published by one
    catalogue transaction; a failed build is cleaned up only when the catalogue shows
    it dead. The catalogue, the stores and the object files are shared: before every
    external call other processes may have moved ([moves]), and the call may be lost
    before it takes effect or its answer after it did ([faults]). Progress callbacks
    only inform the user interface and are left out. *)

From S2P Require Import Prelude PyBase Errors Session CatalogSchema Catalog CatalogJobs CatalogCleanup Chunking Filters VectorStore ParentStore.

Open Scope Z_scope.

(** ** Shared state *)

Record Shared (St C : Type) := mkShared {
  sh_catalog : WorldOf CatalogDb;
  sh_parents : ParentDb C;
  sh_server : St;
  sh_files : gset pystr  (** the files of the upload directory *)
}.
Arguments mkShared {St C} _ _ _ _.
Arguments sh_catalog {St C} _.
Arguments sh_parents {St C} _.
Arguments sh_server {St C} _.
Arguments sh_files {St C} _.

Inductive fault := NoFault | FaultBefore | FaultAfter.

(** [pw_stage] is the local variable [stage] of the build. *)
Record PubWorld (St C : Type) := mkPubWorld { pw_shared : Shared St C; pw_calls : nat; pw_stage : pystr }.
Arguments mkPubWorld {St C} _ _ _.
Arguments pw_shared {St C} _.
Arguments pw_calls {St C} _.
Arguments pw_stage {St C} _.

Definition outage : exn := EClass "OperationalError"%py ""%py.

(** ** Configuration and results *)

Record DocumentPublicationConfig := mkDocumentPublicationConfig {
  pc_tenant_id : pystr;
  pc_knowledge_base_name : pystr;
  pc_parser_version : pystr;
  pc_chunker_version : pystr;
  pc_embedding_model : pystr;
  pc_index_version : pystr;
  pc_vector_collection : pystr;
  pc_upload_dir : pystr;
  pc_max_attempts : Z
}.

Definition build_profile (c : DocumentPublicationConfig) : BuildProfile :=
  mkBuildProfile (pc_parser_version c) (pc_chunker_version c) (pc_embedding_model c) (pc_index_version c).

Record StoredUpload := mkStoredUpload {
  su_original_name : pystr;
  su_object_key : pystr;
  su_media_type : pystr;
  su_size_bytes : Z;
  su_content_sha256 : pystr
}.

Record PublicationOutcome := mkPublicationOutcome {
  po_job_id : pystr;
  po_document : DocumentRecord;
  po_version : DocumentVersionRecord;
  po_previous_version : option DocumentVersionRecord;
  po_parent_chunk_count : Z;
  po_vector_chunk_count : Z;
  po_published : bool;
  po_reused_current : bool
}.

Record DocumentRetirementOutcome := mkDocumentRetirementOutcome {
  ro_document_id : pystr;
  ro_canonical_name : pystr;
  ro_chunks_deleted : Z;
  ro_cleanup_required : bool;
  ro_cleanup_step : option pystr;
  ro_retirement_job_id : pystr
}.

(** ** Errors *)

(** The code of an exception without a public error. *)
Definition stage_code (stage : pystr) : ErrorCode :=
  if bool_decide (stage = "parse"%py) then DOCUMENT_PARSE_FAILED
  else if bool_decide (stage = "vector_store"%py) || bool_decide (stage = "verify"%py) then VECTOR_STORE_UNAVAILABLE
  else STORAGE_UNAVAILABLE.

(** [_safe_error_code] *)
Definition _safe_error_code (e : exn) (stage : pystr) : pystr :=
  match e with
  | EApp a | EPreserve a => if py_nonempty (pe_code (ae_public a)) then pe_code (ae_public a) else error_code_value (stage_code stage)
  | _ => error_code_value (stage_code stage)
  end.

Definition storage_error (message : pystr) : exn := EApp (app_error3 STORAGE_UNAVAILABLE message 503).
Definition storage_retry (message : pystr) : exn := EApp (app_error STORAGE_UNAVAILABLE message 503 true [] None None).
Definition stage_error (code : ErrorCode) (message : pystr) (retryable : bool) (stage : pystr) : AppError :=
  app_error code message 503 retryable [] None (Some stage).
Definition preserve (message stage : pystr) : exn := EPreserve (stage_error STORAGE_UNAVAILABLE message true stage).

(** [raise] of an [AppError], and of another exception as one. *)
Definition reraise {S A} (e : exn) (otherwise : AppError) : Act S A :=
  match e with EApp _ | EPreserve _ => throw e | _ => throw (EApp otherwise) end.

(** [round(a / b)] for [0 <= a], [0 < b]: to even on a tie. *)
Definition round_div (a b : Z) : Z :=
  let q := a / b in
  let r := a mod b in
  if 2 * r <? b then q else if b <? 2 * r then q + 1 else if Z.even q then q else q + 1.

Definition _STEP_GLOBAL_PROGRESS (step : pystr) : Z :=
  if bool_decide (step = "upload"%py) then 5 else if bool_decide (step = "reserve"%py) then 10
  else if bool_decide (step = "parse"%py) then 30 else if bool_decide (step = "parent_store"%py) then 45
  else if bool_decide (step = "vector_store"%py) then 80 else if bool_decide (step = "verify"%py) then 95 else 100.

(** [_manifest] *)
Definition _manifest (documents : list Chunk) (store_kind : pystr) : list ManifestEntry :=
  (fun c => mkManifestEntry (ch_chunk_id c) (ch_content_hash c) store_kind (bd_section_id (ch_base c)) (ch_chunk_level c))
    <$> documents.

Definition dead_job (s : IndexJobStatus) : bool :=
  match s with J_FAILED | J_CANCELLED | J_DEAD_LETTER => true | _ => false end.

Section publication.
Context {St Emb C : Type} `{!MilvusServer St Emb} `{!ParentCache C}.
Context (env : CatalogEnv) (config : DocumentPublicationConfig).
(** Other processes, and lost calls. *)
Context (moves : nat -> Shared St C -> Shared St C) (faults : nat -> fault).
(** The loader, the embedding provider, and the file an object key resolves to when
    its parent is the upload directory. *)
Context (load_document_file : pystr -> pystr -> DocumentArtifactMetadata -> outcome (list Chunk)).
Context (make_artifact_metadata : DocumentArtifactMetadata -> outcome DocumentArtifactMetadata).
Context (embed : nat -> list pystr -> outcome (list Emb)).
Context (object_file : pystr -> option pystr).
Context (parent_clock : nat -> nat -> datetime) (dense_dim : Z) (query_all_pages : nat).

Abbreviation Pub := (Act (PubWorld St C)).

(** One external call. *)
Definition external {A} (f : Act (Shared St C) A) : Pub A := fun w =>
  let n := pw_calls w in
  let sh := moves n (pw_shared w) in
  match faults n with
  | NoFault => let '(r, sh) := f sh in (r, mkPubWorld sh (S n) (pw_stage w))
  | FaultBefore => (Raise outage, mkPubWorld sh (S n) (pw_stage w))
  | FaultAfter =>
      let '(r, sh) := f sh in
      (match r with Ret _ => Raise outage | Raise e => Raise e end, mkPubWorld sh (S n) (pw_stage w))
  end.

Definition set_stage (stage : pystr) : Pub unit := fun w => (Ret tt, mkPubWorld (pw_shared w) (pw_calls w) stage).
Definition get_stage : Pub pystr := fun w => (Ret (pw_stage w), w).

(** The parts of the shared state. *)
Definition on_catalog {A} (m : Sess CatalogDb A) : Pub A := external (fun sh =>
  let '(r, c) := m (sh_catalog sh) in (r, mkShared c (sh_parents sh) (sh_server sh) (sh_files sh))).
Definition on_parents {A} (m : Act (ParentDb C) A) : Pub A := external (fun sh =>
  let '(r, p) := m (sh_parents sh) in (r, mkShared (sh_catalog sh) p (sh_server sh) (sh_files sh))).
Definition on_vectors (A : Type) (m : Act St A) : Pub A := external (fun sh =>
  let '(r, s) := m (sh_server sh) in (r, mkShared (sh_catalog sh) (sh_parents sh) s (sh_files sh))).
Definition on_files {A} (m : Act (gset pystr) A) : Pub A := external (fun sh =>
  let '(r, f) := m (sh_files sh) in (r, mkShared (sh_catalog sh) (sh_parents sh) (sh_server sh) f)).
Definition get_embeddings (texts : list pystr) : Pub (list Emb) := fun w =>
  external (pure (embed (pw_calls w) texts)) w.

(** ** Submitting an upload *)

Definition unlink_file (name : pystr) : Act (gset pystr) unit := fun files => (Ret tt, files ∖ {[name]}).

(** [_discard_upload]: errors of the file system are ignored. *)
Definition _discard_upload (u : StoredUpload) : Pub unit :=
  match object_file (su_object_key u) with
  | Some name => try_except (on_files (unlink_file name)) (fun _ => mret tt)
  | None => mret tt
  end.

(** [submit] *)
Definition submit (u : StoredUpload) (owner_id : Z) : Pub UploadReservation :=
  reservation ← try_except
    (kb ← on_catalog (ensure_knowledge_base env (pc_tenant_id config) owner_id (pc_knowledge_base_name config) None);
     on_catalog (reserve_upload env (mkUploadRequest (pc_tenant_id config) (kbr_id kb) (su_original_name u) owner_id
       (su_content_sha256 u) (su_object_key u) (su_media_type u) (su_size_bytes u) (build_profile config)
       (pc_vector_collection config) (pc_max_attempts config))))
    (fun e => _discard_upload u;; throw e);
  (if bool_decide (vr_source_object_key (ur_version reservation) <> su_object_key u) then _discard_upload u else mret tt);;
  mret reservation.

(** ** Progress *)

Definition clamp (n : Z) : Z := Z.max 0 (Z.min 100 n).

Definition optional_count (key : pystr) (n : option Z) : list (pystr * json) :=
  match n with Some n => [(key, JInt (Z.max n 0))] | None => [] end.

(** [_update_job] and [_step] *)
Definition _step (job_id : pystr) (publication_fence : Z) (step : pystr) (global_progress step_percent : Z)
    (message : pystr) (total_chunks processed_chunks : option Z) (execution : option IndexJobExecution) : Pub unit :=
  on_catalog (update_job env job_id publication_fence
    (mkJobUpdate (Some "running"%py) (Some step) (Some (clamp global_progress))
       ([("message"%py, JStr message); ("active_step"%py, JStr step); ("active_step_percent"%py, JInt (clamp step_percent))]
        ++ optional_count "total_chunks"%py total_chunks ++ optional_count "processed_chunks"%py processed_chunks) false)
    execution);;
  mret tt.

(** [_guard_execution] *)
Definition _guard_execution (job_id : pystr) (execution : option IndexJobExecution) : Pub unit :=
  match execution with
  | Some x => on_catalog (assert_index_lease job_id x None);; mret tt
  | None => mret tt
  end.

Definition profile_conflict (message stage recorded_key : pystr) (retryable : bool) (expected actual : pystr) : exn :=
  EApp (app_error CONFLICT message 409 retryable
    [("job_build_fingerprint"%py, JStr expected); (recorded_key, JStr actual)] None (Some stage)).

(** [_recorded_build_profile] *)
Definition _recorded_build_profile (build : VersionBuild) : Pub unit :=
  let v := vb_version build in
  let recorded := fingerprint env (mkBuildProfile (vr_parser_version v) (vr_chunker_version v) (vr_embedding_model v)
                                     (vr_index_version v)) in
  if bool_decide (recorded <> vr_build_fingerprint v)
  then throw (profile_conflict "候选版本 build profile 完整性校验失败"%py "build_profile_integrity"%py
                "recorded_build_fingerprint"%py false (vr_build_fingerprint v) recorded)
  else mret tt.

(** [_assert_worker_build_profile] *)
Definition _assert_worker_build_profile (build : VersionBuild) : Pub unit :=
  let configured := fingerprint env (build_profile config) in
  let expected := vr_build_fingerprint (vb_version build) in
  if bool_decide (configured <> expected)
  then throw (profile_conflict "当前 worker 构建能力与候选版本 profile 不匹配"%py "worker_capability"%py
                "worker_build_fingerprint"%py true expected configured)
  else mret tt.

(** ** Publishing *)

(** [_publish_with_reconciliation]: the transaction may have been committed although
    its call failed. *)
Definition _publish_with_reconciliation (build : VersionBuild) (execution : option IndexJobExecution) :
    Pub PublicationResult :=
  let job := vb_job build in
  try_except
    (on_catalog (publish (jr_id job) (jr_publication_fence job) (jr_expected_current_version_id job) execution))
    (fun exc =>
      refreshed ← try_except (on_catalog (load_build (jr_id job) (Some (dr_tenant_id (vb_document build)))))
        (fun _ => throw (preserve "发布结果暂时无法确认，候选版本已保留以便安全重试"%py "publish"%py));
      let vid := vr_id (vb_version refreshed) in
      let is_version (o : option DocumentVersionRecord) :=
        match o with Some v => bool_decide (vr_id v = vid) | None => false end in
      if bool_decide (jr_status (vb_job refreshed) = J_COMPLETED) && is_version (dr_current_version (vb_document refreshed))
      then
        mret (mkPublicationResult (vb_document refreshed) (vb_version refreshed)
          (match dr_current_version (vb_document build) with
           | Some p => if bool_decide (vr_id p <> vid) then Some p else None
           | None => None
           end) true)
      else if bool_decide (jr_status (vb_job refreshed) = J_STAGED) && is_version (dr_pending_version (vb_document refreshed))
      then throw (preserve "候选版本已完成核验，原子发布将在后续重试"%py "publish"%py)
      else throw exc).

(** [_staged_candidate_is_durable] *)
Definition _staged_candidate_is_durable (job_id version_id tenant_id : pystr) : Pub bool :=
  try_except
    (refreshed ← on_catalog (load_build job_id (Some tenant_id));
     mret (bool_decide (jr_status (vb_job refreshed) = J_STAGED)
           && match dr_pending_version (vb_document refreshed) with
              | Some v => bool_decide (vr_id v = version_id)
              | None => false
              end))
    (fun _ => mret true).

(** [_candidate_is_terminal_and_unreferenced] *)
Definition _candidate_is_terminal_and_unreferenced (job_id version_id tenant_id : pystr) : Pub bool :=
  try_except
    (refreshed ← on_catalog (load_build job_id (Some tenant_id));
     let other (o : option DocumentVersionRecord) :=
       match o with Some v => bool_decide (vr_id v <> version_id) | None => true end in
     mret (bool_decide (vr_id (vb_version refreshed) = version_id) && dead_job (jr_status (vb_job refreshed))
           && dead_status (vr_status (vb_version refreshed))
           && other (dr_current_version (vb_document refreshed)) && other (dr_pending_version (vb_document refreshed))))
    (fun _ => mret false).

(** [_record_failure_before_cleanup] *)
Definition _record_failure_before_cleanup (build : VersionBuild) (stage : pystr) (error : exn) : Pub unit :=
  let job := vb_job build in
  try_except
    (on_catalog (fail env (jr_id job) (jr_publication_fence job) (_safe_error_code error stage)
                   (Some ("stage="%py +++ stage)%py) None);;
     mret tt)
    (fun _ =>
      dead ← _candidate_is_terminal_and_unreferenced (jr_id job) (vr_id (vb_version build)) (dr_tenant_id (vb_document build));
      if (dead : bool) then mret tt
      else throw (preserve "候选失败状态暂时无法确认，构建产物已保留以便安全恢复"%py stage)).

(** [_unlink_version_object] *)
Definition _unlink_version_object (version : DocumentVersionRecord) : Pub unit :=
  match object_file (vr_source_object_key version) with
  | None => throw (storage_error "文档对象清理路径无效"%py)
  | Some name => on_files (unlink_file name)
  end.

Definition delete_parents (scope : IndexVersionScope) : Pub Z :=
  on_parents (parent_delete_by_version (is_tenant_id scope) (is_knowledge_base_id scope) (is_document_id scope)
                (is_document_version_id scope) (Some (is_index_version scope))).
Definition delete_vectors (scope : IndexVersionScope) : Pub Z := writer_delete_by_version on_vectors scope.

(** Whether an action succeeded. *)
Definition succeeded {A} (m : Pub A) : Pub bool := try_except (m;; mret true) (fun _ => mret false).

(** [_cleanup_candidate] *)
Definition _cleanup_candidate (scope : IndexVersionScope) (version : DocumentVersionRecord) : Pub bool :=
  a ← succeeded (delete_vectors scope);
  b ← succeeded (delete_parents scope);
  c ← succeeded (_unlink_version_object version);
  mret (a && b && c).

(** The clean-up after a failure that was recorded. *)
Definition fail_and_clean (build : VersionBuild) (scope : IndexVersionScope) (stage : pystr) (error : exn) : Pub unit :=
  _record_failure_before_cleanup build stage error;;
  cleaned ← _cleanup_candidate scope (vb_version build);
  if (cleaned : bool) then
    try_except (on_catalog (record_cleanup env (is_document_version_id scope) None);; mret tt) (fun _ => mret tt)
  else mret tt.

Definition build_scope (build : VersionBuild) : outcome IndexVersionScope :=
  build_version_scope (dr_tenant_id (vb_document build)) (dr_knowledge_base_id (vb_document build))
    (dr_id (vb_document build)) (vr_id (vb_version build)) (vr_index_version (vb_version build))
    (vr_vector_collection (vb_version build)).

(** [_publish_staged] *)
Definition _publish_staged (build : VersionBuild) (execution : option IndexJobExecution) : Pub PublicationOutcome :=
  scope ← pure (build_scope build);
  let job := vb_job build in
  try_except
    (_guard_execution (jr_id job) execution;;
     result ← _publish_with_reconciliation build execution;
     mret (mkPublicationOutcome (jr_id job) (pr_document result) (pr_version result) (pr_previous_version result)
             (vr_parent_chunk_count (pr_version result)) (vr_chunk_count (pr_version result)) (pr_published result) false))
    (fun exc =>
      match exc with
      | EPreserve _ => throw exc
      | _ =>
          match execution with
          | Some _ =>
              reraise exc (stage_error STORAGE_UNAVAILABLE "候选版本恢复发布失败，worker 将按策略重试"%py true "publish"%py)
          | None =>
              fail_and_clean build scope "publish"%py exc;;
              reraise exc (stage_error STORAGE_UNAVAILABLE "候选版本恢复发布失败，旧版本仍保持可用"%py false "publish"%py)
          end
      end).

(** ** Building *)

(** [_source_path] *)
Definition _source_path (object_key : pystr) : Pub pystr :=
  match object_file object_key with
  | None => throw (storage_error "文档对象路径无效"%py)
  | Some name => on_files (fun files =>
      ((if decide (name ∈ files) then Ret name else Raise (storage_retry "待处理文档对象不存在"%py)), files))
  end.

Definition is_level (levels : list Z) (c : Chunk) : bool := bool_decide (ch_chunk_level c ∈ levels).

(** The parse stage: the parents and the leaves. *)
Definition parse_stage (build : VersionBuild) (execution : option IndexJobExecution) (floor : Z) :
    Pub (list Chunk * list Chunk) :=
  let job_id := jr_id (vb_job build) in
  let fence := jr_publication_fence (vb_job build) in
  let doc := vb_document build in
  set_stage "parse"%py;;
  _step job_id fence "parse"%py (Z.max floor 12) 5 "正在解析并生成版本隔离的三级分块"%py None None execution;;
  _guard_execution job_id execution;;
  path ← _source_path (vr_source_object_key (vb_version build));
  documents ← pure
    (match
       (m ← make_artifact_metadata (mkDocumentArtifactMetadata (dr_tenant_id doc) (dr_knowledge_base_id doc) (dr_id doc)
              (vr_id (vb_version build)) ""%py [] (vr_index_version (vb_version build)));
        load_document_file path (dr_canonical_name doc) m)
     with
     | Ret l => Ret l
     | Raise (EApp a) => Raise (EApp a)
     | Raise (EPreserve a) => Raise (EPreserve a)
     | Raise ECancelled => Raise ECancelled
     | Raise _ => Raise (EApp (app_error3 DOCUMENT_PARSE_FAILED "文档处理失败"%py 422))
     end);
  _guard_execution job_id execution;;
  let parents := List.filter (is_level [1; 2]) documents in
  let leaves := List.filter (is_level [3]) documents in
  pure (check (negb (empty_list leaves))
          (EApp (app_error3 DOCUMENT_PARSE_FAILED "文档处理失败，未生成可检索叶子分块"%py 422)));;
  _step job_id fence "parse"%py (Z.max floor (_STEP_GLOBAL_PROGRESS "parse"%py)) 100
    ("版本化分块完成：父级 "%py +++ py_str_int (Z.of_nat (length parents)) +++ "，叶子 "%py
       +++ py_str_int (Z.of_nat (length leaves)))%py
    (Some (Z.of_nat (length leaves))) (Some 0) execution;;
  mret (parents, leaves).

(** The parent store stage: the version is replaced and verified. *)
Definition parent_stage (build : VersionBuild) (execution : option IndexJobExecution) (floor : Z)
    (scope : IndexVersionScope) (parents : list Chunk) : Pub unit :=
  let job_id := jr_id (vb_job build) in
  let fence := jr_publication_fence (vb_job build) in
  set_stage "parent_store"%py;;
  _step job_id fence "parent_store"%py (Z.max floor 32) 10 "正在写入隔离的候选父级分块"%py None None execution;;
  _guard_execution job_id execution;;
  delete_parents scope;;
  _guard_execution job_id execution;;
  count ← (fun w => on_parents (upsert_documents (parent_clock (pw_calls w)) parents) w);
  _guard_execution job_id execution;;
  pure (check (count =? Z.of_nat (length parents)) (ERuntime "parent chunk write count mismatch"%py));;
  verification ← on_parents (parent_verify_version (is_tenant_id scope) (is_knowledge_base_id scope) (is_document_id scope)
                    (is_document_version_id scope) (ch_chunk_id <$> parents) (Some (is_index_version scope)));
  _guard_execution job_id execution;;
  pure (check (pv_exact verification) (ERuntime "parent chunk exact verification failed"%py));;
  _step job_id fence "parent_store"%py (Z.max floor (_STEP_GLOBAL_PROGRESS "parent_store"%py)) 100
    ("候选父级分块精确核验通过："%py +++ py_str_int count +++ " 条"%py)%py None None execution.

(** [on_vector_progress] *)
Definition on_vector_progress (job_id : pystr) (fence floor : Z) (execution : option IndexJobExecution) (processed total : Z) :
    Pub unit :=
  let local_percent := if total =? 0 then 100 else round_div (processed * 100) total in
  let stage_progress := Z.min (46 + round_div (local_percent * 34) 100) (_STEP_GLOBAL_PROGRESS "vector_store"%py) in
  _step job_id fence "vector_store"%py (Z.max floor stage_progress) local_percent
    ("正在写入候选向量："%py +++ py_str_int processed +++ " / "%py +++ py_str_int total)%py (Some total) (Some processed) execution.

(** The vector store stage. *)
Definition vector_stage (build : VersionBuild) (execution : option IndexJobExecution) (floor : Z)
    (scope : IndexVersionScope) (leaves : list Chunk) : Pub IndexWriteReceipt :=
  let job_id := jr_id (vb_job build) in
  let fence := jr_publication_fence (vb_job build) in
  set_stage "vector_store"%py;;
  _step job_id fence "vector_store"%py (Z.max floor 46) 1
    ("正在写入候选向量：0 / "%py +++ py_str_int (Z.of_nat (length leaves)))%py (Some (Z.of_nat (length leaves))) (Some 0) execution;;
  _guard_execution job_id execution;;
  receipt ← write_versioned_documents on_vectors get_embeddings dense_dim leaves (is_collection_name scope)
              (on_vector_progress job_id fence floor execution) (_guard_execution job_id execution);
  _guard_execution job_id execution;;
  mret receipt.

(** The verify stage: the vectors are read back and the manifest is recorded. *)
Definition verify_stage (build : VersionBuild) (execution : option IndexJobExecution) (floor : Z)
    (receipt : IndexWriteReceipt) (parents leaves : list Chunk) : Pub unit :=
  let job_id := jr_id (vb_job build) in
  let fence := jr_publication_fence (vb_job build) in
  set_stage "verify"%py;;
  _step job_id fence "verify"%py (Z.max floor 85) 25 "正在核验 Parent、Milvus 与 manifest 的精确身份"%py
    (Some (Z.of_nat (length leaves))) (Some (Z.of_nat (length leaves))) execution;;
  _guard_execution job_id execution;;
  verification ← verify_receipt on_vectors query_all_pages receipt;
  _guard_execution job_id execution;;
  pure (check (iv_exact verification) (ERuntime "Milvus exact verification failed"%py));;
  on_catalog (record_manifest env job_id fence (_manifest parents "parent"%py ++ _manifest leaves "vector"%py)
                (Some (Z.of_nat (length leaves))) (Some (Z.of_nat (length parents))) execution);;
  mret tt.

(** The [try] block of [_run_once]. *)
Definition build_and_publish (build : VersionBuild) (execution : option IndexJobExecution) (scope : IndexVersionScope) :
    Pub PublicationOutcome :=
  let job := vb_job build in
  let floor := Z.max (jr_progress job) 0 in
  set_stage "reserve"%py;;
  _step (jr_id job) (jr_publication_fence job) "reserve"%py (Z.max floor (_STEP_GLOBAL_PROGRESS "reserve"%py)) 100
    ("候选版本 v"%py +++ py_str_int (vr_version_number (vb_version build)) +++ " 已获得发布 fencing"%py)%py None None execution;;
  '(parents, leaves) ← parse_stage build execution floor;
  parent_stage build execution floor scope parents;;
  receipt ← vector_stage build execution floor scope leaves;
  verify_stage build execution floor receipt parents leaves;;
  set_stage "publish"%py;;
  result ← _publish_with_reconciliation build execution;
  mret (mkPublicationOutcome (jr_id job) (pr_document result) (pr_version result) (pr_previous_version result)
          (Z.of_nat (length parents)) (Z.of_nat (length leaves)) (pr_published result) false).

Definition retryable_stage (stage : pystr) : bool := negb (bool_decide (stage = "parse"%py) || bool_decide (stage = "publish"%py)).

(** The [except] block of [_run_once]; nothing can fail after the publication. *)
Definition handle_build_failure (build : VersionBuild) (execution : option IndexJobExecution) (scope : IndexVersionScope)
    (exc : exn) : Pub PublicationOutcome :=
  match exc with
  | EPreserve _ => throw exc
  | _ =>
      stage ← get_stage;
      durable ← (if bool_decide (stage = "verify"%py)
                 then _staged_candidate_is_durable (jr_id (vb_job build)) (vr_id (vb_version build)) (dr_tenant_id (vb_document build))
                 else mret false);
      if (durable : bool) then throw (preserve "候选 manifest 已持久化，版本已保留以便安全发布"%py "verify"%py)
      else
        match execution with
        | Some _ =>
            reraise exc (stage_error (stage_code stage) "文档候选版本本次构建失败，worker 将按策略处理"%py
                           (retryable_stage stage) stage)
        | None =>
            fail_and_clean build scope stage exc;;
            reraise exc (stage_error (stage_code stage) "文档候选版本构建失败，旧版本仍保持可用"%py
                           (retryable_stage stage) stage)
        end
  end.

(** [_run_once], which [run] calls under the lock of the job *)
Definition _run_once (job_id : pystr) (execution : option IndexJobExecution) : Pub PublicationOutcome :=
  build ← (match execution with
           | Some x => on_catalog (assert_index_lease job_id x None)
           | None => on_catalog (load_build job_id (Some (pc_tenant_id config)))
           end);
  let job := vb_job build in
  if bool_decide (jr_status job = J_COMPLETED) then
    mret (mkPublicationOutcome job_id (vb_document build) (vb_version build) None (vr_parent_chunk_count (vb_version build))
            (vr_chunk_count (vb_version build)) false true)
  else if dead_job (jr_status job) then throw (EApp (app_error3 CONFLICT "索引任务已失效，不能继续构建"%py 409))
  else
    _recorded_build_profile build;;
    if bool_decide (jr_status job = J_STAGED) then _publish_staged build execution
    else
      _assert_worker_build_profile build;;
      scope ← pure (build_scope build);
      try_except (build_and_publish build execution scope) (handle_build_failure build execution scope).

(** ** Cleaning up a dead version *)

(** [except AppError: raise; except Exception: raise AppError(...)] *)
Definition storage_step {A} (m : Pub A) (message stage : pystr) : Pub A :=
  try_except m (fun e => reraise e (stage_error STORAGE_UNAVAILABLE message true stage)).

(** [cleanup_version] *)
Definition cleanup_version (document : DocumentRecord) (version : DocumentVersionRecord) (finalize : bool)
    (step_callback : pystr -> Pub unit) : Pub Z :=
  scope ← pure (build_version_scope (dr_tenant_id document) (dr_knowledge_base_id document) (dr_id document) (vr_id version)
                  (vr_index_version version) (vr_vector_collection version));
  deleted_vectors ← storage_step
    (step_callback "milvus"%py;; n ← delete_vectors scope; step_callback "parent_store"%py;; mret n)
    "文档向量索引清理暂时失败"%py "milvus"%py;
  storage_step (delete_parents scope;; step_callback "object_store"%py) "文档父级分块清理暂时失败"%py "parent_store"%py;;
  storage_step (_unlink_version_object version;; step_callback "finalize"%py) "文档版本对象清理暂时失败"%py "object_store"%py;;
  (if finalize then
     try_except (on_catalog (record_cleanup env (vr_id version) None);; mret tt)
       (fun _ => throw (EApp (stage_error STORAGE_UNAVAILABLE "文档清理结果暂时无法持久化"%py true "finalize"%py)))
   else mret tt);;
  mret deleted_vectors.

(** ** Retirement *)

(** [_find_document]: pages of 1000; [pages] bounds them. *)
Fixpoint _find_document (pages : nat) (canonical_name : pystr) (offset : Z) : Pub (option DocumentRecord) :=
  match pages with
  | O => throw EFuel
  | S pages =>
      documents ← on_catalog (list_documents (pc_tenant_id config) None true 1000 offset);
      match head (List.filter (fun d => bool_decide (dr_canonical_name d = canonical_name)) documents) with
      | Some d => mret (Some d)
      | None => if (length documents <? 1000)%nat then mret None
                else _find_document pages canonical_name (offset + Z.of_nat (length documents))
      end
  end.

Definition document_missing : exn := EApp (app_error3 NOT_FOUND "文档不存在"%py 404).

(** [retire] *)
Definition publication_retire (pages : nat) (retirement_uuid canonical_name : pystr) : Pub DocumentRetirementOutcome :=
  let retirement_job_id := ("retire_"%py +++ retirement_uuid)%py in
  found ← _find_document pages canonical_name 0;
  match found with
  | None => throw document_missing
  | Some document =>
      result ← try_except
        (on_catalog (retire env (pc_tenant_id config) canonical_name (Some (dr_knowledge_base_id document)) (Some retirement_job_id)))
        (fun e => reraise e (app_error STORAGE_UNAVAILABLE "文档删除 scope 暂时无法原子持久化，请重试删除"%py 503 true
           [("logical_retired"%py, JBool false); ("catalog_scope_revoked"%py, JBool false)] None (Some "document_catalog"%py)));
      if negb (rr_found result) then throw document_missing
      else
        found ← _find_document pages canonical_name 0;
        match found with
        | None => throw (EApp (app_error3 CONFLICT "目录删除结果缺少文档 scope"%py 409))
        | Some document =>
            let required := negb (empty_list (rr_cleanup_versions result)) in
            mret (mkDocumentRetirementOutcome (dr_id document) (dr_canonical_name document) 0 required
                    (if required then Some "pending"%py else None) retirement_job_id)
        end
  end.
End publication.
