(* ===== verification/Worker.v ===== *)
(** * The indexing worker

    [backend/documents/worker.py]: one turn claims an index or a cleanup job and runs
    it; a build that fails is retried, failed or given up as its error says, unless
    the worker has lost the job. The heart-beat thread of a job is one of the other
    processes; what it tells the worker - that the lease is lost - is an oracle, as
    are the draws of the random source and the event that stops the worker. Floats
    are rationals. *)

From S2P Require Import Prelude PyBase Errors Session CatalogSchema Catalog CatalogJobs CatalogCleanup Chunking Filters VectorStore ParentStore Publication.
From Stdlib Require Import QArith Qminmax.

Open Scope Z_scope.

Record IndexingWorkerConfig := mkIndexingWorkerConfig {
  wc_poll_seconds : Q;
  wc_lease_seconds : Z;
  wc_heartbeat_seconds : Z;
  wc_retry_base_seconds : Q;
  wc_retry_max_seconds : Q;
  wc_retry_jitter_ratio : Q
}.

(** [_public_error]: code, whether to retry, stage. *)
Definition _public_error (exc : exn) : pystr * bool * option pystr :=
  match exc with
  | EApp a | EPreserve a =>
      let public := ae_public a in
      (py_take 64 (if py_nonempty (pe_code public) then pe_code public else error_code_value STORAGE_UNAVAILABLE),
       pe_retryable public,
       match pe_stage public with Some s => if py_nonempty s then Some (py_take 64 s) else None | None => None end)
  | _ => (error_code_value STORAGE_UNAVAILABLE, true, None)
  end.

Definition stage_detail (stage : option pystr) : option pystr :=
  match stage with Some s => Some ("stage="%py +++ s)%py | None => None end.

(** [_retry_delay_seconds]; [draw j] is [uniform(-j, j)]. *)
Definition _retry_delay_seconds (c : IndexingWorkerConfig) (draw : Q -> Q) (attempts : Z) : Q :=
  let exponent := Z.max (attempts - 1) 0 in
  let raw := Qmin (wc_retry_base_seconds c * inject_Z (2 ^ exponent)) (wc_retry_max_seconds c) in
  let jitter := (raw * wc_retry_jitter_ratio c)%Q in
  Qmax (raw + draw jitter) 0.

(** An [AppError] whose code is that of a conflict. *)
Definition is_conflict (e : exn) : bool :=
  match e with EApp a | EPreserve a => bool_decide (pe_code (ae_public a) = error_code_value CONFLICT) | _ => false end.

(** [except BaseException] *)
Definition try_base {S A} (m : Act S A) (handler : exn -> Act S A) : Act S A := fun s =>
  match m s with
  | (Raise e, s') => handler e s'
  | (Ret a, s') => (Ret a, s')
  end.

(** [try: m finally: f] *)
Definition finally {S A} (m : Act S A) (f : Act S unit) : Act S A := fun s =>
  let '(r, s') := m s in (f;; pure r) s'.

Section worker.
Context {St Emb C : Type} `{!MilvusServer St Emb} `{!ParentCache C}.
Context (env : CatalogEnv) (config : DocumentPublicationConfig).
Context (moves : nat -> Shared St C -> Shared St C) (faults : nat -> fault).
Context (load_document_file : pystr -> pystr -> DocumentArtifactMetadata -> outcome (list Chunk)).
Context (make_artifact_metadata : DocumentArtifactMetadata -> outcome DocumentArtifactMetadata).
Context (embed : nat -> list pystr -> outcome (list Emb)).
Context (object_file : pystr -> option pystr).
Context (parent_clock : nat -> nat -> datetime) (dense_dim : Z) (query_all_pages : nat).
(** The worker, what its heart-beat thread reports, its random source, the rows other
    transactions hold locked, and the event that stops it. *)
Context (worker_id : pystr) (wconfig : IndexingWorkerConfig) (build_fingerprint : option pystr).
Context (ownership_lost : nat -> bool) (draws : nat -> Q -> Q) (locked : nat -> pystr -> bool) (stopped : nat -> bool).

Abbreviation Pub := (Act (PubWorld St C)).

Definition at_call {A} (f : nat -> A) : Pub A := fun w => (Ret (f (pw_calls w)), w).

Definition opt_entry (key : pystr) (value : option pystr) : list (pystr * json) :=
  match value with Some s => if py_nonempty s then [(key, JStr s)] else [] | None => [] end.

(** [_record_heartbeat] *)
Definition _record_heartbeat (status : WorkerStatus) (current_job_id current_job_kind : option pystr) : Pub unit :=
  on_catalog moves faults (record_worker_heartbeat env worker_id "indexing"%py (worker_status_value status)
    (opt_entry "current_job_id"%py current_job_id ++ opt_entry "current_job_kind"%py current_job_kind
     ++ opt_entry "build_fingerprint"%py build_fingerprint) None).

(** [_still_owns_index] *)
Definition _still_owns_index (build : VersionBuild) (execution : IndexJobExecution) : Pub bool :=
  try_except (on_catalog moves faults (assert_index_lease (jr_id (vb_job build)) execution None);; mret true)
    (fun e => if is_conflict e then mret false else throw e).

(** [_run_index] *)
Definition _run_index (build : VersionBuild) : Pub unit :=
  let job := vb_job build in
  let execution := mkIndexJobExecution worker_id (jr_execution_fence job) in
  try_base
    (_run_once env config moves faults load_document_file make_artifact_metadata embed object_file parent_clock dense_dim
       query_all_pages (jr_id job) (Some execution);; mret tt)
    (fun exc =>
      lost ← at_call ownership_lost;
      owns ← (if (lost : bool) then mret false else _still_owns_index build execution);
      if negb owns then mret tt
      else
        let '(code, retryable, stage) := _public_error exc in
        if (retryable : bool) then
          delay ← at_call (fun n => _retry_delay_seconds wconfig (draws n) (jr_attempts job));
          on_catalog moves faults (schedule_index_retry env (jr_id job) execution (Finite delay) code (stage_detail stage) None);;
          mret tt
        else
          on_catalog moves faults (fail env (jr_id job) (jr_publication_fence job) code (stage_detail stage) (Some execution));;
          mret tt).

(** [_run_cleanup] *)
Definition _run_cleanup (build : CleanupBuild) : Pub unit :=
  let job := cb_job build in
  let execution := mkCleanupJobExecution worker_id (cr_execution_fence job) in
  let update step := on_catalog moves faults (update_cleanup_job env (cr_id job) execution step []);; mret tt in
  try_base
    (update "physical_cleanup"%py;;
     cleanup_version env moves faults object_file (cb_document build) (cb_version build) false update;;
     lost ← at_call ownership_lost;
     if (lost : bool) then mret tt
     else on_catalog moves faults (complete_cleanup_job (cr_id job) execution);; mret tt)
    (fun exc =>
      lost ← at_call ownership_lost;
      if (lost : bool) then mret tt
      else
        let '(code, retryable, stage) := _public_error exc in
        try_except
          (if (retryable : bool) then
             delay ← at_call (fun n => _retry_delay_seconds wconfig (draws n) (cr_attempts job));
             on_catalog moves faults (schedule_cleanup_retry env (cr_id job) execution (Finite delay) code (stage_detail stage) None);;
             mret tt
           else
             on_catalog moves faults (dead_letter_cleanup_job env (cr_id job) execution code (stage_detail stage));; mret tt)
          (fun e => if is_conflict e then mret tt else throw e)).

Inductive JobKind := Index | Cleanup.

(** One claim and, when there is a job, its run. *)
Definition serve (kind : JobKind) : Pub bool :=
  match kind with
  | Cleanup =>
      build ← (fun w => on_catalog moves faults
                 (claim_cleanup_job env (locked (pw_calls w)) worker_id (wc_lease_seconds wconfig) None) w);
      match build with
      | None => mret false
      | Some b =>
          _record_heartbeat W_RUNNING (Some (cr_id (cb_job b))) (Some "cleanup"%py);;
          _run_cleanup b;;
          _record_heartbeat W_RUNNING None None;;
          mret true
      end
  | Index =>
      build ← (fun w => on_catalog moves faults
                 (claim_index_job env (locked (pw_calls w)) worker_id (wc_lease_seconds wconfig)
                    (match build_fingerprint with Some f => if py_nonempty f then Some f else None | None => None end) None) w);
      match build with
      | None => mret false
      | Some b =>
          _record_heartbeat W_RUNNING (Some (jr_id (vb_job b))) (Some "index"%py);;
          _run_index b;;
          _record_heartbeat W_RUNNING None None;;
          mret true
      end
  end.

(** The loop over the claimers: whether a job was run. *)
Fixpoint serve_first (kinds : list JobKind) : Pub bool :=
  match kinds with
  | [] => mret false
  | kind :: kinds =>
      stop ← at_call stopped;
      if (stop : bool) then mret false
      else worked ← serve kind; if (worked : bool) then mret true else serve_first kinds
  end.

Definition claimers (prefer_cleanup : bool) : list JobKind := if prefer_cleanup then [Cleanup; Index] else [Index; Cleanup].

(** [run_once]: whether a job was run, and which kind is preferred next. *)
Definition run_once (prefer_cleanup : bool) : Pub (bool * bool) :=
  _record_heartbeat W_RUNNING None None;;
  worked ← serve_first (claimers prefer_cleanup);
  mret (worked, if (worked : bool) then negb prefer_cleanup else prefer_cleanup).

(** [run_forever] of a worker that is stopped after [turns] turns at the latest;
    waiting for the poll interval is no step. *)
Fixpoint worker_turns (turns : nat) (prefer_cleanup : bool) : Pub unit :=
  match turns with
  | O => mret tt
  | S turns =>
      stop ← at_call stopped;
      if (stop : bool) then mret tt
      else '(_, prefer) ← run_once prefer_cleanup; worker_turns turns prefer
  end.

Definition run_forever (turns : nat) : Pub unit :=
  _record_heartbeat W_STARTING None None;;
  _record_heartbeat W_RUNNING None None;;
  finally (worker_turns turns false) (_record_heartbeat W_DRAINING None None;; _record_heartbeat W_STOPPED None None).
End worker.
