(* ===== verification/PublicationProps.v ===== *)
(** * Failures of a publication

    [backend/documents/publication.py] talks to a catalogue that may answer late or
    not at all: a publication that was committed although its answer was lost is
    recognised, and what a failed build left in the stores is deleted only when the
    catalogue shows that the candidate is dead. *)

From S2P Require Import Prelude PyBase Errors Session CatalogSchema Catalog CatalogJobs CatalogCleanup CatalogInv CatalogSteps CatalogSafety CatalogPreserve CatalogPreserve2 CatalogSystem CatalogClaim CatalogEvolve CatalogPublish Chunking Filters VectorStore VectorProps ParentStore Publication.

Open Scope Z_scope.

(** The index stores and the object files: what a build writes outside the catalogue. *)
Definition stores {St C} (sh : Shared St C) : ParentDb C * St * gset pystr := (sh_parents sh, sh_server sh, sh_files sh).
Abbreviation catalog_of w := (w_db (sh_catalog (pw_shared w))).
Abbreviation stores_of w := (stores (pw_shared w)).

#[export] Instance read_only_transaction {D} `{!Store D} {A} (body : Sess D A) : ReadOnly body -> ReadOnly (transaction body).
Proof. intros H w. unfold transaction. specialize (H w). destruct (body w) as [[a|e] w1]; [|done]. by destruct (store_ok _). Qed.

Section frame.
Context {St Emb C : Type} `{!MilvusServer St Emb} `{!ParentCache C}.
Context (env : CatalogEnv) (config : DocumentPublicationConfig).
Context (moves : nat -> Shared St C -> Shared St C) (faults : nat -> fault).
Context (load_document_file : pystr -> pystr -> DocumentArtifactMetadata -> outcome (list Chunk)).
Context (make_artifact_metadata : DocumentArtifactMetadata -> outcome DocumentArtifactMetadata).
Context (embed : nat -> list pystr -> outcome (list Emb)).
Context (object_file : pystr -> option pystr).
Context (parent_clock : nat -> nat -> datetime) (dense_dim : Z) (query_all_pages : nat).
Abbreviation Pub := (Act (PubWorld St C)).
Abbreviation Stores := (ParentDb C * St * gset pystr)%type.

(** ** Steps that leave the stores to others *)

(** Stores that differ by what other processes did. *)
Definition others_only : relation Stores :=
  rtc (fun a b => exists n sh, stores sh = a /\ stores (moves n sh) = b).

Class Leaves (R : relation Stores) {A} (m : Pub A) : Prop := leaves : forall w, R (stores_of w) (stores_of (m w).2).

Section leaves.
Context (R : relation Stores) `{!PreOrder R} (M : forall n sh, R (stores sh) (stores (moves n sh))).

Lemma leaves_external {A} (f : Act (Shared St C) A) :
  (forall sh, R (stores sh) (stores (f sh).2)) -> Leaves R (external moves faults f).
Proof using M PreOrder0.
  intros F w. unfold external. cbv zeta. specialize (F (moves (pw_calls w) (pw_shared w))).
  pose proof (M (pw_calls w) (pw_shared w)) as Hm.
  destruct (faults _); [destruct (f _) as [r sh]|done|destruct (f _) as [r sh]]; simpl in *; by etrans.
Qed.
Lemma leaves_on_catalog {A} (m : Sess CatalogDb A) : Leaves R (on_catalog moves faults m).
Proof using M PreOrder0. apply leaves_external. intros sh. destruct (m _). by simpl. Qed.
Lemma leaves_bind {A B} (m : Pub A) (k : A -> Pub B) : Leaves R m -> (forall a, Leaves R (k a)) -> Leaves R (m ≫= k).
Proof using PreOrder0.
  intros Hm Hk w. unfold mbind, Act_bind. specialize (Hm w). destruct (m w) as [[a|e] w1]; simpl in *; [|done].
  etrans; [exact Hm|]. apply Hk.
Qed.
Lemma leaves_ret {A} (a : A) : Leaves R (mret a).
Proof using PreOrder0. intros w. by simpl. Qed.
Lemma leaves_pure {A} (o : outcome A) : Leaves R (pure o).
Proof using PreOrder0. intros w. by simpl. Qed.
Lemma leaves_throw {A} e : Leaves R (throw e : Pub A).
Proof using PreOrder0. intros w. by simpl. Qed.
Lemma leaves_reraise {A} e a : Leaves R (reraise e a : Pub A).
Proof using PreOrder0. intros w. destruct e; by simpl. Qed.
Lemma leaves_set_stage s : Leaves R (set_stage s : Pub unit).
Proof using PreOrder0. intros w. by simpl. Qed.
Lemma leaves_try {A} (m : Pub A) h : Leaves R m -> (forall e, Leaves R (h e)) -> Leaves R (try_except m h).
Proof using PreOrder0.
  intros Hm Hh w. unfold try_except. specialize (Hm w). destruct (m w) as [[a|e] w1]; simpl in *; [done|].
  destruct e; simpl; try (etrans; [exact Hm|apply Hh]). done.
Qed.
Lemma leaves_embeddings l : Leaves R (get_embeddings moves faults embed l).
Proof using M PreOrder0. intros w. unfold get_embeddings. apply leaves_external. intros sh. by simpl. Qed.
End leaves.

End frame.

(** Resolve [Leaves] through the branches of the code. *)
Ltac leave :=
  repeat first
    [ progress intros
    | apply leaves_ret; apply _ | apply leaves_pure; apply _ | apply leaves_throw; apply _ | apply leaves_reraise; apply _
    | apply leaves_set_stage; apply _ | apply leaves_on_catalog; [apply _|assumption]
    | apply leaves_try; [apply _| |] | apply leaves_bind; [apply _| |]
    | apply leaves_embeddings; [apply _|assumption]
    | match goal with |- Leaves _ (match ?x with _ => _ end) => destruct x end ].

Section steps.
Context {St Emb C : Type} `{!MilvusServer St Emb} `{!ParentCache C}.
Context (env : CatalogEnv) (config : DocumentPublicationConfig).
Context (moves : nat -> Shared St C -> Shared St C) (faults : nat -> fault).
Context (load_document_file : pystr -> pystr -> DocumentArtifactMetadata -> outcome (list Chunk)).
Context (make_artifact_metadata : DocumentArtifactMetadata -> outcome DocumentArtifactMetadata).
Context (embed : nat -> list pystr -> outcome (list Emb)).
Context (object_file : pystr -> option pystr).
Context (parent_clock : nat -> nat -> datetime) (dense_dim : Z) (query_all_pages : nat).
Abbreviation Pub := (Act (PubWorld St C)).
Abbreviation Stores := (ParentDb C * St * gset pystr)%type.

Section leaving.
Context (R : relation Stores) `{!PreOrder R} (M : forall n sh, R (stores sh) (stores (moves n sh))).

Lemma leaves_step j f s g p m t c x : Leaves R (_step env moves faults j f s g p m t c x).
Proof using M PreOrder0. unfold _step. leave. Qed.
Lemma leaves_guard j x : Leaves R (_guard_execution moves faults j x).
Proof using M PreOrder0. unfold _guard_execution. leave. Qed.
Lemma leaves_durable j v t : Leaves R (_staged_candidate_is_durable moves faults j v t).
Proof using M PreOrder0. unfold _staged_candidate_is_durable. leave. Qed.
Lemma leaves_terminal j v t : Leaves R (_candidate_is_terminal_and_unreferenced moves faults j v t).
Proof using M PreOrder0. unfold _candidate_is_terminal_and_unreferenced. leave. Qed.
Lemma leaves_record_failure b s e : Leaves R (_record_failure_before_cleanup env moves faults b s e).
Proof using M PreOrder0. unfold _record_failure_before_cleanup. leave. Qed.
Lemma leaves_publish b x : Leaves R (_publish_with_reconciliation moves faults b x).
Proof using M PreOrder0. unfold _publish_with_reconciliation. cbv zeta. leave. Qed.
Lemma leaves_progress j f l x p t : Leaves R (on_vector_progress env moves faults j f l x p t).
Proof using M PreOrder0. unfold on_vector_progress. apply leaves_step. Qed.
End leaving.

(** ** Steps and the catalogue *)

(** What a step does to the catalogue are calls of the catalogue. *)
Class Catalogued {A} (m : Pub A) : Prop :=
  catalogued : forall w, rtc (catalog_step env) (catalog_of w) (catalog_of (m w).2).
Class CatalogOp {A} (m : Sess CatalogDb A) : Prop :=
  catalog_op : forall w, rtc (catalog_step env) (w_db w) (w_db (m w).2).

#[export] Instance op_read_only {A} (m : Sess CatalogDb A) : ReadOnly m -> CatalogOp m.
Proof. intros H w. by rewrite H. Qed.
Lemma op_ignored {A} (m : Sess CatalogDb A) c : call env c = ignored m -> CatalogOp m.
Proof.
  intros E w. apply rtc_once. assert ((ignored m w).2 = (m w).2) as <-.
  { unfold ignored, mbind, M_bind. by destruct (m w) as [[]]. }
  rewrite <- E. destruct (call env c w) as [r w'] eqn:H. by eapply catalog_step_call.
Qed.
#[export] Instance op_publish j f e x : CatalogOp (publish j f e x).
Proof. by apply (op_ignored _ (CPublish j f e x)). Qed.
#[export] Instance op_fail j f c d x : CatalogOp (fail env j f c d x).
Proof. by apply (op_ignored _ (CFail j f c d x)). Qed.
#[export] Instance op_update j f u x : CatalogOp (update_job env j f u x).
Proof. by apply (op_ignored _ (CUpdateJob j f u x)). Qed.
#[export] Instance op_manifest j f es nv np x : CatalogOp (record_manifest env j f es nv np x).
Proof. by apply (op_ignored _ (CRecordManifest j f es nv np x)). Qed.
#[export] Instance op_record_cleanup v c : CatalogOp (record_cleanup env v c).
Proof. by apply (op_ignored _ (CRecordCleanup v c)). Qed.
#[export] Instance reads_load_build j t : ReadOnly (load_build j t).
Proof. unfold load_build, _job_graph, version_build, document_record. effects. Qed.
#[export] Instance reads_assert_lease j x now : ReadOnly (assert_index_lease j x now).
Proof.
  unfold assert_index_lease, _job_graph, version_build, document_record, _assert_index_execution, _assert_candidate,
    _lease_clock, _database_now. apply read_only_transaction. effects.
Qed.

(** Other processes use the catalogue through its calls. *)
Context (catalog_moves : forall n sh, rtc (catalog_step env) (w_db (sh_catalog sh)) (w_db (sh_catalog (moves n sh)))).

Lemma catalogued_external {A} (f : Act (Shared St C) A) :
  (forall sh, rtc (catalog_step env) (w_db (sh_catalog sh)) (w_db (sh_catalog (f sh).2))) ->
  Catalogued (external moves faults f).
Proof using catalog_moves.
  intros F w. unfold external. cbv zeta. specialize (F (moves (pw_calls w) (pw_shared w))).
  pose proof (catalog_moves (pw_calls w) (pw_shared w)) as Hm.
  destruct (faults _); [destruct (f _) as [r sh]|done|destruct (f _) as [r sh]]; simpl in *; by etrans.
Qed.
#[export] Instance catalogued_on_catalog {A} (m : Sess CatalogDb A) : CatalogOp m -> Catalogued (on_catalog moves faults m).
Proof using catalog_moves.
  intros H. apply catalogued_external. intros sh. specialize (H (sh_catalog sh)). by destruct (m _).
Qed.
#[export] Instance catalogued_on_parents {A} (m : Act (ParentDb C) A) : Catalogued (on_parents moves faults m).
Proof using catalog_moves. apply catalogued_external. intros sh. by destruct (m _). Qed.
#[export] Instance catalogued_on_vectors {A} (m : Act St A) : Catalogued (on_vectors moves faults A m).
Proof using catalog_moves. apply catalogued_external. intros sh. by destruct (m _). Qed.
#[export] Instance catalogued_on_files {A} (m : Act (gset pystr) A) : Catalogued (on_files moves faults m).
Proof using catalog_moves. apply catalogued_external. intros sh. by destruct (m _). Qed.
#[export] Instance catalogued_embeddings l : Catalogued (get_embeddings moves faults embed l).
Proof using catalog_moves. intros w. unfold get_embeddings. apply catalogued_external. intros sh. by simpl. Qed.
#[export] Instance catalogued_bind {A B} (m : Pub A) (k : A -> Pub B) :
  Catalogued m -> (forall a, Catalogued (k a)) -> Catalogued (m ≫= k).
Proof.
  intros Hm Hk w. unfold mbind, Act_bind. specialize (Hm w). destruct (m w) as [[a|e] w1]; simpl in *; [|done].
  etrans; [exact Hm|]. apply Hk.
Qed.
#[export] Instance catalogued_ret {A} (a : A) : Catalogued (mret a).
Proof. intros w. by simpl. Qed.
#[export] Instance catalogued_pure {A} (o : outcome A) : Catalogued (pure o).
Proof. intros w. by simpl. Qed.
#[export] Instance catalogued_throw {A} e : Catalogued (throw e : Pub A).
Proof. intros w. by simpl. Qed.
#[export] Instance catalogued_reraise {A} e a : Catalogued (reraise e a : Pub A).
Proof. intros w. destruct e; by simpl. Qed.
#[export] Instance catalogued_set_stage s : Catalogued (set_stage s : Pub unit).
Proof. intros w. by simpl. Qed.
#[export] Instance catalogued_try {A} (m : Pub A) h :
  Catalogued m -> (forall e, Catalogued (h e)) -> Catalogued (try_except m h).
Proof.
  intros Hm Hh w. unfold try_except. specialize (Hm w). destruct (m w) as [[a|e] w1]; simpl in *; [done|].
  destruct e; simpl; try (etrans; [exact Hm|apply Hh]). done.
Qed.

Lemma catalogued_run {A} (m : Pub A) w r w' :
  Catalogued m -> m w = (r, w') -> catalog_inv (catalog_of w) ->
  catalog_inv (catalog_of w') /\ evolves (catalog_of w) (catalog_of w').
Proof. intros H E I. specialize (H w). rewrite E in H. by apply steps_forward with (env := env). Qed.

Lemma others_only_moves n sh : others_only moves (stores sh) (stores (moves n sh)).
Proof. apply rtc_once. by exists n, sh. Qed.
End steps.

(** Resolve [Catalogued] through the branches of the code. *)
Ltac catalogues :=
  repeat first
    [ progress intros
    | apply catalogued_ret | apply catalogued_pure | apply catalogued_throw | apply catalogued_reraise
    | apply catalogued_set_stage | apply catalogued_try | apply catalogued_bind
    | apply catalogued_on_catalog; [assumption|apply _]
    | apply catalogued_on_vectors; assumption | apply catalogued_on_parents; assumption
    | apply catalogued_on_files; assumption | apply catalogued_embeddings; assumption
    | match goal with |- Catalogued _ (match ?x with _ => _ end) => destruct x end ].

(** A version no pointer names any more, and none ever will: it has died. *)
Definition dead_at (db : CatalogDb) (vid : pystr) : Prop :=
  exists v d, c_versions db !! vid = Some v /\ dead_status (dv_status v) = true /\
    c_docs db !! dv_document_id v = Some d /\
    doc_current_version_id d <> Some vid /\ doc_pending_version_id d <> Some vid.

Lemma dead_version_at db vid v :
  catalog_inv db -> c_versions db !! vid = Some v -> dead_status (dv_status v) = true -> dead_at db vid.
Proof.
  intros I Hv Hs. destruct (inv_versions _ I _ _ (cell_of_version _ _ _ Hv)) as (d & Hd & P & _). simpl in Hd.
  exists v, d. unfold phase_ok in P. simpl in P. destruct (dv_status v); try done; destruct P as (P1 & P2 & _); done.
Qed.

Lemma dead_at_later db db' vid : catalog_inv db' -> evolves db db' -> dead_at db vid -> dead_at db' vid.
Proof.
  intros I E (v & d & Hv & Hs & _). destruct (ev_versions _ _ E _ _ Hv) as (v' & Hv' & L).
  apply (dead_version_at db' vid v'); [done..|]. destruct L as (_ & _ & _ & _ & _ & _ & D & _). by rewrite (D Hs).
Qed.

(** The rows a build was loaded from. *)
Definition build_of (db : CatalogDb) (b : VersionBuild) : Prop :=
  exists j v d, c_jobs db !! jr_id (vb_job b) = Some j /\ ij_document_version_id j = vr_id (vb_version b) /\
    c_versions db !! vr_id (vb_version b) = Some v /\ c_docs db !! dv_document_id v = Some d /\
    doc_tenant_id d = dr_tenant_id (vb_document b).

Lemma build_of_later db db' b : evolves db db' -> build_of db b -> build_of db' b.
Proof.
  intros [E1 E2 E3] (j & v & d & Hj & Hr & Hv & Hd & Ht). destruct (E3 _ _ Hj) as (j' & Hj' & Lj).
  destruct (E2 _ _ Hv) as (v' & Hv' & Lv). destruct (E1 _ _ Hd) as (d' & Hd' & Ld). exists j', v', d'.
  split_and!; [done|by rewrite (proj1 (proj2 Lj))|done|by rewrite (proj1 (proj2 Lv))|].
  by rewrite (proj1 (proj2 Ld)).
Qed.

(** What [load_build] read. *)
Lemma load_build_inv jid t w b w' :
  catalog_inv (w_db w) -> load_build jid t w = (Ret b, w') ->
  w' = w /\ exists j v d, graph_at (w_db w) j v d /\ ij_id j = jid /\ vb_job b = _job_record j d /\
    vb_version b = _version_record v /\ dr_tenant_id (vb_document b) = doc_tenant_id d /\
    dr_current_version (vb_document b) = _version_record <$> pointed_version (w_db w) (doc_current_version_id d) /\
    dr_pending_version (vb_document b) = _version_record <$> pointed_version (w_db w) (doc_pending_version_id d).
Proof.
  intros I H. unfold load_build in H. apply bind_inv in H as ([[[j v] d] k] & w1 & G & H). cbn beta iota in H.
  unfold _job_graph in G. apply bind_inv in G as (db & w0 & [-> ->]%get_db_inv & [Q ->]%require_inv). unfold graph_of in Q.
  destruct (c_jobs (w_db w) !! jid) as [j0|] eqn:Ej; [|done]. cbn in Q.
  destruct (c_versions (w_db w) !! _) as [v0|] eqn:Ev; [|done]. cbn in Q.
  destruct (c_docs (w_db w) !! _) as [d0|] eqn:Ed; [|done]. cbn in Q.
  destruct (c_kbs (w_db w) !! _) as [k0|] eqn:Ek; [|done]. cbn in Q.
  assert (j0 = j /\ v0 = v /\ d0 = d) as (-> & -> & ->).
  { destruct t; [case_bool_decide|]; naive_solver. }
  destruct (graph_at_intro _ _ _ _ _ I Ej Ev Ed) as [G Ei].
  unfold version_build in H. minv. unfold document_record in R. minv. split; [done|].
  exists j, v, d. by split_and!.
Qed.

Lemma loaded_build_of jid t w b w' : catalog_inv (w_db w) -> load_build jid t w = (Ret b, w') -> build_of (w_db w) b.
Proof.
  intros I L. apply load_build_inv in L as (_ & j & v & d & G & Ei & Ej & Ev & Et & _); [|done].
  exists j, v, d. rewrite Ej, Ev. simpl. split_and!; try apply G; [|done]. rewrite (ga_doc_ref _ _ _ _ G). apply G.
Qed.

(** A job that failed, was cancelled or given up belongs to a dead version. *)
Lemma dead_job_version db j v d :
  catalog_inv db -> graph_at db j v d -> dead_job (ij_status j) = true -> dead_status (dv_status v) = true.
Proof.
  intros I G D. destruct (graph_cell _ _ _ _ I G) as [P _]. unfold phase_ok, live, published in P. simpl in P.
  destruct (dv_status v); try done; exfalso;
    repeat match goal with H : exists _, _ |- _ => destruct H as (? & ? & ?) | H : _ /\ _ |- _ => destruct H end;
    simplify_eq; by destruct (ij_status _).
Qed.

#[export] Instance keeps_jobs_fail_version d v f c dt now m : Keeps c_jobs (fail_version d v f c dt now m).
Proof. unfold fail_version, save_version. frame. Qed.
#[export] Instance keeps_jobs_cleanup v t m : Keeps c_jobs (_ensure_cleanup_job v t m).
Proof. unfold _ensure_cleanup_job, add_cleanup, save_cleanup, _new_id. frame. Qed.
#[export] Instance keeps_jobs_bump k now : Keeps c_jobs (_bump_revision k now).
Proof. unfold _bump_revision, save_kb. frame. Qed.

(** A job that is saved stays while the rest leaves the jobs alone. *)
Lemma saved_job {A} j (k : unit -> CM A) w a w' :
  (forall u, Keeps c_jobs (k u)) -> (save_job j ≫= k) w = (Ret a, w') -> c_jobs (w_db w') !! ij_id j = Some j.
Proof.
  intros K (u & w1 & R & H)%bind_inv. unfold save_job in R. apply modify_db_inv in R. subst w1.
  apply (keeps_run c_jobs) in H; [|apply K]. rewrite H. apply lookup_insert_eq.
Qed.

(** A failure that was recorded has ended the job. *)
Lemma fail_ends env jid fence code detail x w b w' :
  catalog_inv (w_db w) -> fail env jid fence code detail x w = (Ret b, w') ->
  exists j, c_jobs (w_db w') !! jid = Some j /\ ij_status j = J_FAILED.
Proof.
  intros I H. unfold fail in H. apply bind_inv in H as (c & w1 & ->%required_text_inv & H). apply transaction_inv in H as [H _].
  apply bind_inv in H as ([[[j v] d] k] & w2 & (-> & Hj & Hv & Hd & _)%job_graph_inv & H). cbn beta iota in H.
  destruct (graph_at_intro _ _ _ _ _ I Hj Hv Hd) as [G Ei]. unfold _fail_locked in H.
  apply bind_inv in H as (? & w2 & [_ ->]%raise_if_inv & H).
  apply bind_inv in H as (clock & w2 & Ew%lease_clock_inv & H).
  destruct (_ && _) eqn:B.
  { apply ret_inv in H as [_ <-]. exists j. rewrite Ew. bool_to_prop. by split. }
  apply bind_inv in H as (? & w3 & R3 & H). apply bind_inv in H as (? & w4 & R4 & H). cbv zeta in H.
  set (failed := failed_job _ _ _ _ _ _ _) in H. apply saved_job in H; [|intros u; frame].
  exists failed. by rewrite <- Ei.
Qed.

Section props.
Context {St Emb C : Type} `{!MilvusServer St Emb} `{!ParentCache C}.
Context (env : CatalogEnv).
Context (moves : nat -> Shared St C -> Shared St C) (faults : nat -> fault).
Context (object_file : pystr -> option pystr).
Context (catalog_moves : forall n sh, rtc (catalog_step env) (w_db (sh_catalog sh)) (w_db (sh_catalog (moves n sh)))).
Abbreviation Pub := (Act (PubWorld St C)).

(** A successful external call on the catalogue. *)
Lemma on_catalog_ret {A} (m : Sess CatalogDb A) w a w' :
  on_catalog moves faults m w = (Ret a, w') ->
  exists c, m (sh_catalog (moves (pw_calls w) (pw_shared w))) = (Ret a, c) /\ sh_catalog (pw_shared w') = c.
Proof.
  unfold on_catalog, external. cbv zeta. destruct (faults _); [|done|].
  - destruct (m _) as [r c]. intros [= -> <-]. by exists c.
  - destruct (m _) as [[a0|e] c]; done.
Qed.

Lemma move_forward w : catalog_inv (catalog_of w) ->
  let db := w_db (sh_catalog (moves (pw_calls w) (pw_shared w))) in catalog_inv db /\ evolves (catalog_of w) db.
Proof using catalog_moves. intros I. exact (steps_forward env _ _ I (catalog_moves _ _)). Qed.

(** *** A recorded failure *)

Lemma failed_dead jid fence code detail w b w' vid j :
  catalog_inv (w_db w) -> c_jobs (w_db w) !! jid = Some j -> ij_document_version_id j = vid ->
  fail env jid fence code detail None w = (Ret b, w') -> dead_at (w_db w') vid.
Proof.
  intros I Hj Ev H. assert (catalog_inv (w_db w')) as I' by by eapply fail_safe.
  assert (evolves (w_db w) (w_db w')) as E by by eapply fail_evolves.
  apply fail_ends in H as (j' & Hj' & Sj); [|done]. destruct (ev_jobs _ _ E _ _ Hj) as (j2 & Hj2 & L). simplify_eq.
  destruct (tk_job_version _ (inv_tables _ I') _ _ Hj') as [v Hv]. destruct (tk_version_doc _ (inv_tables _ I') _ _ Hv) as [d Hd].
  simpl in *. destruct (graph_at_intro _ _ _ _ _ I' Hj' Hv Hd) as [G _]. rewrite (proj1 (proj2 L)) in Hv.
  apply (dead_version_at _ _ v I' Hv). eapply dead_job_version; [done|done|]. by rewrite Sj.
Qed.

Lemma try_ret {A} (m : Pub A) h w a w' :
  try_except m h w = (Ret a, w') -> m w = (Ret a, w') \/ exists e w1, m w = (Raise e, w1) /\ h e w1 = (Ret a, w').
Proof. unfold try_except. destruct (m w) as [[b|e] w1]; [by left|]. destruct e; intros H; try done; right; eauto. Qed.

Lemma terminal_dead jid vid t w w' :
  catalog_inv (catalog_of w) -> _candidate_is_terminal_and_unreferenced moves faults jid vid t w = (Ret true, w') ->
  dead_at (catalog_of w') vid.
Proof using catalog_moves.
  intros I H. unfold _candidate_is_terminal_and_unreferenced in H. apply try_ret in H as [H|(e & w1 & _ & [=])].
  apply act_bind_inv in H as (b & w1 & (c & L & Ec)%on_catalog_ret & H). destruct (move_forward w I) as [I1 _].
  apply load_build_inv in L as [-> (j & v & d & G & _ & _ & Ev & _)]; [|done].
  cbv zeta in H. injection H as B <-. rewrite Ec. rewrite !andb_true_iff in B. destruct B as ((((B1 & _) & B3) & _) & _).
  apply bool_decide_eq_true in B1. rewrite Ev in B1, B3. simpl in B1, B3.
  apply (dead_version_at _ _ v I1); [|done]. rewrite <- B1. apply G.
Qed.

Lemma record_failure_dead b stage e w u w' :
  catalog_inv (catalog_of w) -> build_of (catalog_of w) b ->
  _record_failure_before_cleanup env moves faults b stage e w = (Ret u, w') ->
  dead_at (catalog_of w') (vr_id (vb_version b)).
Proof using catalog_moves.
  intros I B H. unfold _record_failure_before_cleanup in H. cbv zeta in H. apply try_ret in H as [H|(e1 & w1 & H1 & H)].
  - apply act_bind_inv in H as (r & w1 & (c & L & Ec)%on_catalog_ret & H). injection H as _ <-. rewrite Ec.
    destruct (move_forward w I) as [I1 E1]. destruct (build_of_later _ _ _ E1 B) as (j & _ & _ & Hj & Ej & _). by eapply failed_dead.
  - apply (catalogued_run env) in H1 as [I1 _]; [| |done].
    2: catalogues.
    apply act_bind_inv in H as ([] & w2 & H & H2); [|done]. injection H2 as _ <-. by eapply terminal_dead.
Qed.

(** *** Cleaning up after a failure *)

#[export] Instance catalogued_cleanup scope v : Catalogued env (_cleanup_candidate moves faults object_file scope v).
Proof using catalog_moves.
  unfold _cleanup_candidate, succeeded, delete_vectors, writer_delete_by_version, delete_parents, _unlink_version_object.
  catalogues.
Qed.

(** Up to some moment the stores are left to others; from that moment on, if there is
    one, the candidate is dead. *)
Definition cleaned_when_dead (vid : pystr) (w w' : PubWorld St C) : Prop :=
  others_only moves (stores_of w) (stores_of w') \/
  exists w1, others_only moves (stores_of w) (stores_of w1) /\ dead_at (catalog_of w1) vid /\ dead_at (catalog_of w') vid.

Lemma fail_and_clean_safe b scope stage e w r w' :
  catalog_inv (catalog_of w) -> build_of (catalog_of w) b ->
  fail_and_clean env moves faults object_file b scope stage e w = (r, w') ->
  cleaned_when_dead (vr_id (vb_version b)) w w'.
Proof using catalog_moves.
  intros I B H. unfold fail_and_clean in H. unfold mbind at 1, Act_bind at 1 in H.
  pose proof (leaves_record_failure env moves faults (others_only moves) (others_only_moves moves) b stage e w) as L.
  destruct (_record_failure_before_cleanup _ _ _ _ _ _ w) as [[u|ex] w1] eqn:R; [|by injection H as <- <-; left].
  right. exists w1. split; [done|]. pose proof (record_failure_dead _ _ _ _ _ _ I B R) as D. split; [done|].
  assert (catalog_inv (catalog_of w1)) as I1.
  { apply (catalogued_run env) in R as [? _]; [done| |done]. unfold _record_failure_before_cleanup, _candidate_is_terminal_and_unreferenced.
    cbv zeta. catalogues. }
  apply (catalogued_run env) in H as [I2 E2]; [by eapply dead_at_later| |done].
  apply catalogued_bind; [apply catalogued_cleanup|catalogues].
Qed.
(** C15. A build that fails is cleaned up only when its candidate is dead. Whatever
    other processes do between the steps and whichever calls are lost, the failure is
    raised; up to some moment the stores and the object files are left alone, and from
    that moment on - if there is one - the candidate has failed or was superseded, and
    its document points to it neither as current nor as pending version, then and at
    the end. A worker, and a failure that must preserve the artefacts, never touch the
    stores. *)
Theorem failed_build_is_cleaned_safely b x scope exc w r w' :
  catalog_reachable env (catalog_of w) -> build_of (catalog_of w) b ->
  handle_build_failure env moves faults object_file b x scope exc w = (r, w') ->
  (exists e, r = Raise e) /\ cleaned_when_dead (vr_id (vb_version b)) w w' /\
  (x <> None \/ (exists a, exc = EPreserve a) -> others_only moves (stores_of w) (stores_of w')).
Proof using catalog_moves.
  intros RE B. pose proof (catalog_reachable_inv env _ RE) as I. unfold handle_build_failure.
  set (body := mbind _ get_stage).
  assert (forall r w', body w = (r, w') -> (exists e, r = Raise e) /\ cleaned_when_dead (vr_id (vb_version b)) w w' /\
    (x <> None -> others_only moves (stores_of w) (stores_of w'))) as K; [|destruct exc;
    first [intros H; apply K in H as (K1 & K2 & K3); split_and!; try done; intros [?|[? [=]]]; auto
          |intros [= <- <-]; split; [eauto|split; [by left|done]]]].
  clear r w'. intros r w'. unfold body. clear body. unfold mbind at 1, Act_bind at 1. cbn [get_stage].
  unfold mbind at 1, Act_bind at 1. set (check := if bool_decide _ then _ else _).
  assert (Leaves (others_only moves) check) as L.
  { unfold check. destruct (bool_decide _); [apply leaves_durable, others_only_moves; apply _|apply leaves_ret; apply _]. }
  assert (Catalogued env check) as LC by (unfold check, _staged_candidate_is_durable; catalogues).
  specialize (L w). destruct (check w) as [[durable|ex] w1] eqn:EC; [|intros [= <- <-]; split; [eauto|by split; [left|]]].
  simpl in L. apply (catalogued_run env) in EC as [I1 E1]; [|done..]. pose proof (build_of_later _ _ _ E1 B) as B1.
  destruct durable; [intros [= <- <-]; split; [eauto|by split; [left|]]|].
  destruct x as [x|].
  { intros H. assert (exists e, r = Raise e /\ w' = w1) as (e & -> & ->) by (destruct exc; injection H as <- <-; eauto).
    split; [eauto|by split; [left|]]. }
  unfold mbind, Act_bind. destruct (fail_and_clean _ _ _ _ _ _ _ _ w1) as [[u|ex] w2] eqn:F; intros H.
  all: assert ((exists e, r = Raise e) /\ w' = w2) as [Hr ->] by (first [destruct exc; injection H as <- <-; eauto|injection H as <- <-; eauto]).
  all: split; [done|]; split; [|done]; apply fail_and_clean_safe in F as [F|(w3 & F1 & F2 & F3)]; try done.
  all: try (left; by etrans). all: right; exists w3; split; [by etrans|done].
Qed.
(** *** Publishing *)

Lemma pointed_current db d u : pointed_version db (doc_current_version_id d) = Some u -> catalog_inv db ->
  doc_current_version_id d = Some (dv_id u).
Proof.
  unfold pointed_version. destruct (doc_current_version_id d) as [k|]; [|done]. simpl. destruct (py_nonempty k); [|done].
  intros H I. destruct (tk_version _ (inv_tables _ I) _ _ H) as [E _]. simpl in E. by rewrite E.
Qed.

(** A build that shows its job completed and its version current is published. *)
Lemma shown_published jid t w b w' :
  catalog_inv (w_db w) -> load_build jid t w = (Ret b, w') -> jr_status (vb_job b) = J_COMPLETED ->
  match dr_current_version (vb_document b) with Some v => vr_id v = vr_id (vb_version b) | None => False end ->
  exists j v d, published_at (w_db w') jid j v d /\ dv_id v = vr_id (vb_version b).
Proof.
  intros I H S Cu. apply load_build_inv in H as [-> (j & v & d & G & Ei & Ej & Ev & _ & Ec & _)]; [|done].
  rewrite Ec in Cu. destruct (pointed_version _ _) as [u|] eqn:P; [|done]. simpl in Cu. rewrite Ev in Cu. simpl in Cu.
  apply pointed_current in P; [|done]. exists j, v, d. rewrite Ej in S. simpl in S. split; [|by rewrite Ev].
  destruct (inv_docs _ I _ _ (ga_doc _ _ _ _ G)) as (P1 & _). destruct (P1 _ P) as (u2 & Hu & _ & Hs).
  rewrite Cu, (ga_version _ _ _ _ G) in Hu. injection Hu as <-. apply bool_decide_eq_true in Hs. rewrite Cu in P.
  split_and!; try done; [by rewrite <- Ei; apply G|by rewrite (ga_ref _ _ _ _ G); apply G|by rewrite (ga_doc_ref _ _ _ _ G); apply G].
Qed.

(** A published job is shown so. *)
Lemma published_shown jid t w j v d :
  catalog_inv (w_db w) -> published_at (w_db w) jid j v d -> doc_tenant_id d = t ->
  exists b, load_build jid (Some t) w = (Ret b, w) /\ jr_status (vb_job b) = J_COMPLETED /\
    vb_version b = _version_record v /\ dr_current_version (vb_document b) = Some (_version_record v).
Proof.
  intros I (Hj & Sj & Hv & Sv & Hd & Hc) Ht. destruct (graph_at_intro _ _ _ _ _ I Hj Hv Hd) as [G Ei].
  destruct (document_record_run d w I (ga_doc _ _ _ _ G)) as (rec & Er & _ & Ec).
  exists (mkVersionBuild (_job_record j d) rec (_version_record v)). destruct (ga_kb _ _ _ _ G) as [k Hk]. split_and!; try done.
  - unfold load_build. rewrite (bind_run _ _ w (j, v, d, k) w).
    + unfold version_build. by rewrite (bind_run _ _ _ _ _ Er).
    + unfold _job_graph. rewrite (bind_run _ _ _ _ _ (eq_refl : get_db w = (Ret (w_db w), w))). unfold graph_of.
      rewrite Hj. simpl. rewrite Hv. simpl. rewrite Hd. simpl. rewrite Hk. simpl. by rewrite bool_decide_eq_true_2.
  - simpl. rewrite Ec. unfold pointed_version. rewrite Hc. simpl. rewrite (ga_nonempty _ _ _ _ G), (ga_version _ _ _ _ G). done.
Qed.

Lemma publish_returned b x w r w' :
  catalog_inv (catalog_of w) -> _publish_with_reconciliation moves faults b x w = (Ret r, w') ->
  exists j v d, published_at (catalog_of w') (jr_id (vb_job b)) j v d.
Proof using catalog_moves.
  intros I. destruct (move_forward w I) as [I1 E1].
  intros H. unfold _publish_with_reconciliation in H. cbv zeta in H. apply try_ret in H as [H|(e & w1 & H1 & H)].
  - apply on_catalog_ret in H as (c & H & ->). apply publish_result in H as (j & v & d & P & _); [eauto|done].
  - apply (catalogued_run env) in H1 as [I2 E2]; [|catalogues|done].
    apply act_bind_inv in H as (b2 & w2 & H2 & H). apply try_ret in H2 as [H2|(? & ? & _ & [=])].
    apply on_catalog_ret in H2 as (c & H2 & Ec). destruct (move_forward w1 I2) as [I3 _].
    destruct (bool_decide (jr_status _ = J_COMPLETED) && _) eqn:Q; [|
      exfalso; revert H; by destruct (bool_decide (jr_status _ = J_STAGED) && _)].
    injection H as _ <-. rewrite Ec. apply andb_prop in Q as [Q1%bool_decide_eq_true Q2].
    destruct (shown_published _ _ _ _ _ I3 H2 Q1) as (j & v & d & P & _); [|eauto].
    destruct (dr_current_version _); [|done]. by bool_to_prop.
Qed.

(** The state in which the publishing call leaves the catalogue. *)
Definition after_publish (b : VersionBuild) (x : option IndexJobExecution) (w : PubWorld St C) :
    outcome PublicationResult * Shared St C :=
  let sh := moves (pw_calls w) (pw_shared w) in
  let '(r, c) := publish (jr_id (vb_job b)) (jr_publication_fence (vb_job b)) (jr_expected_current_version_id (vb_job b)) x
                   (sh_catalog sh) in
  (r, mkShared c (sh_parents sh) (sh_server sh) (sh_files sh)).

(** C16. The outcome of a publication can be relied on although calls may be lost. If
    publishing returns, the version of the job is published in the catalogue. And if
    the transaction was committed but its answer was lost, the job is looked up again:
    as long as that lookup succeeds and no other upload has replaced the version in
    the meantime, publishing returns, and reports the publication. *)
Theorem publication_outcome_is_reliable b x w :
  catalog_reachable env (catalog_of w) -> build_of (catalog_of w) b ->
  (forall r w', _publish_with_reconciliation moves faults b x w = (Ret r, w') ->
     exists j v d, published_at (catalog_of w') (jr_id (vb_job b)) j v d) /\
  (forall r1 sh1 j v d, after_publish b x w = (Ret r1, sh1) -> faults (pw_calls w) = FaultAfter ->
     faults (S (pw_calls w)) = NoFault ->
     published_at (w_db (sh_catalog (moves (S (pw_calls w)) sh1))) (jr_id (vb_job b)) j v d ->
     exists r w', _publish_with_reconciliation moves faults b x w = (Ret r, w') /\ pr_published r = true /\
       vr_id (pr_version r) = vr_id (vb_version b) /\ published_at (catalog_of w') (jr_id (vb_job b)) j v d).
Proof using catalog_moves.
  intros RE B. pose proof (catalog_reachable_inv env _ RE) as I. destruct (move_forward w I) as [I1 E1]. split.
  - intros r w'. by apply publish_returned.
  - intros r1 sh1 j v d P F1 F2 PA. unfold after_publish in P. unfold _publish_with_reconciliation. cbv zeta.
    unfold try_except at 1. unfold on_catalog at 1, external at 1. cbv zeta. rewrite F1.
    destruct (publish _ _ _ _ _) as [rp c] eqn:EP. injection P as -> <-.
    assert (catalog_inv (w_db c)) as I2 by (by eapply publish_safe).
    assert (evolves (w_db (sh_catalog (moves (pw_calls w) (pw_shared w)))) (w_db c)) as E2 by (by eapply publish_evolves).
    set (sh1 := mkShared _ _ _ _) in *. destruct (steps_forward env _ _ I2 (catalog_moves (S (pw_calls w)) sh1)) as [I3 E3].
    destruct (build_of_later _ _ b E3) as (j' & v' & d' & Hj & Er & Hv & Hd & Ht).
    { eapply build_of_later; [exact E2|]. by eapply build_of_later. }
    pose proof PA as (Hj2 & _ & Hv2 & _ & Hd2 & _). simplify_eq. rewrite Er in Hv2. simplify_eq.
    destruct (published_shown _ _ _ _ _ _ I3 PA Ht) as (b2 & L & S2 & V2 & C2).
    unfold outage, mbind, Act_bind, try_except. unfold on_catalog, external. cbv zeta. cbn [pw_calls pw_shared pw_stage]. rewrite F2, L.
    rewrite S2, C2, V2. rewrite !bool_decide_eq_true_2 by done. cbn [andb]. eexists _, _. split; [reflexivity|].
    split_and!; try done. simpl. by destruct (tk_version _ (inv_tables _ I3) _ _ Hv).
Qed.
End props.
