(* ===== verification/PublicationBuild.v ===== *)
(** * What a successful build leaves behind

    The stages of [_run_once] one after the other: the documents the loader returned
    are exactly what the parent store and the vector store hold for the version when
    the catalogue publishes it - as long as nobody else writes to that version. *)

From S2P Require Import Prelude PyBase Errors Session Decimals CatalogSchema Catalog CatalogJobs CatalogCleanup CatalogInv CatalogSteps CatalogSafety CatalogPreserve CatalogPreserve2 CatalogSystem CatalogClaim CatalogEvolve CatalogPublish Chunking ChunkingProps Filters FiltersProps VectorStore VectorProps ParentStore ParentProps Publication PublicationProps.

Open Scope Z_scope.

(** ** The loader stamps its chunks *)

(** The metadata a build hands to the loader. *)
Definition build_metadata (b : VersionBuild) : DocumentArtifactMetadata :=
  mkDocumentArtifactMetadata (dr_tenant_id (vb_document b)) (dr_knowledge_base_id (vb_document b)) (dr_id (vb_document b))
    (vr_id (vb_version b)) ""%py [] (vr_index_version (vb_version b)).

Definition metadata_scope (m : DocumentArtifactMetadata) : list pystr :=
  [am_tenant_id m; am_knowledge_base_id m; am_document_id m; am_document_version_id m; am_index_version m].

Section loader.
Context (nfc : pystr -> pystr) (sha256_hex : list N -> pystr).
Context (split_level_1 split_level_2 split_level_3 : pystr -> list pystr).
Context (pdf_load docx_load excel_load : pystr -> outcome (list RawDoc)).
Context (html_linear : pystr -> outcome (pystr * pystr)).
Context (max_pages max_page_characters : Z).

Lemma load_pages_scope file_path filename doc_type m raws docs :
  _load_from_langchain_docs nfc sha256_hex split_level_1 split_level_2 split_level_3 max_pages max_page_characters raws
    file_path filename doc_type m = Ret docs ->
  Forall (fun c => chunk_scope c = metadata_scope m) docs.
Proof.
  unfold _load_from_langchain_docs. intros (u & _ & [_ P _ _]%load_pages_inv)%outcome_bind_inv.
  eapply Forall_impl; [exact P|]. intros c (raw & _ & E & _). unfold chunk_scope. by rewrite E.
Qed.

Lemma load_document_scope file_path filename m docs :
  load_document nfc sha256_hex split_level_1 split_level_2 split_level_3 pdf_load docx_load excel_load html_linear max_pages
    max_page_characters file_path filename m = Ret docs ->
  Forall (fun c => chunk_scope c = metadata_scope m) docs.
Proof.
  unfold load_document. cbv zeta.
  assert (forall A (o : outcome A) a, wrapped o = Ret a -> o = Ret a) as W by (by intros A [a|[]] b).
  repeat match goal with |- context [if ?c then _ else _] => destruct c end; try done;
    first [intros H%W|intros H]; apply outcome_bind_inv in H as (raws & _ & H); by eapply load_pages_scope.
Qed.

Lemma make_metadata_scope m m' :
  Forall (fun s => _normalize_metadata_text nfc (Some s) = s) (metadata_scope m) ->
  make_metadata nfc m = Ret m' -> metadata_scope m' = metadata_scope m.
Proof.
  unfold metadata_scope, make_metadata. cbv zeta. rewrite !Forall_cons. intros (E1 & E2 & E3 & E4 & E5 & _) H.
  repeat (apply outcome_bind_inv in H as (? & _ & H)). apply (f_equal (fun o => match o with Ret a => metadata_scope a | _ => [] end)) in H.
  unfold metadata_scope in H. cbn [mret outcome_ret am_tenant_id am_knowledge_base_id am_document_id am_document_version_id
    am_index_version] in H. by rewrite <- H, E1, E2, E3, E4, E5.
Qed.
End loader.

Definition scope_parts (sc : IndexVersionScope) : list pystr :=
  [is_tenant_id sc; is_knowledge_base_id sc; is_document_id sc; is_document_version_id sc; is_index_version sc].

(** ** What the stores hold for a version *)

(** Each parent once, under its identifier, with the payload of that very parent. *)
Definition parents_indexed (sc : IndexVersionScope) (parents : list Chunk) (rows : ParentTable) : Prop :=
  row_id <$> parent_rows sc rows ≡ₚ ch_chunk_id <$> parents /\
  forall r, r ∈ parent_rows sc rows ->
    exists c, c ∈ parents /\ ch_chunk_id c = row_id r /\ payload (row_id r) c = Ret (pk_chunk r).

Lemma parents_indexed_perm sc parents rows rows' :
  parent_rows sc rows' ≡ₚ parent_rows sc rows -> parents_indexed sc parents rows -> parents_indexed sc parents rows'.
Proof. intros P [E F]. split; [by rewrite P|]. intros r. rewrite P. apply F. Qed.

(** Rows after an upsert were there before or come from the document of that identifier. *)
Lemma upsert_rows_source now docs rows rows' ps :
  upsert_rows now docs rows = Ret (rows', ps) ->
  forall k x, rows' !! k = Some x -> rows !! k = Some x \/
    exists c, c ∈ docs /\ py_strip (ch_chunk_id c) = k /\ payload k c = Ret (pk_chunk x).
Proof.
  revert now rows rows' ps. induction docs as [|doc docs IH]; intros now rows rows' ps; cbn [upsert_rows].
  { intros [= <- <-]. auto. }
  destruct (py_nonempty _) eqn:N; cbn [negb].
  - intros (p & P & ([rows1 ps1] & R & [= <- <-])%outcome_bind_inv)%outcome_bind_inv k x Hk.
    destruct (IH _ _ _ _ R k x Hk) as [H|(c & Hc & E)]; [|right; exists c; split; [by right|done]].
    apply lookup_insert_Some in H as [[<- <-]|[_ H]]; [|by left]. right. exists doc. split; [by left|done].
  - intros R k x Hk. destruct (IH _ _ _ _ R k x Hk) as [H|(c & Hc & E)]; [by left|]. right. exists c. split; [by right|done].
Qed.

(** A property of actions that sequencing keeps holds of the writer when it holds of
    the calls it makes on the documents it is given. *)
Section closed.
Context {St Emb W : Type} `{!MilvusServer St Emb}.
Context (on_server : forall A, Act St A -> Act W A) (get_embeddings : list pystr -> Act W (list Emb)) (dense_dim : Z).
Context (guard : Act W unit) (progress : Z -> Z -> Act W unit).
Context (Q : forall A, Act W A -> Prop) (good : Chunk -> Prop).
Context (Qb : forall A B (m : Act W A) (k : A -> Act W B), Q A m -> (forall a, Q B (k a)) -> Q B (m ≫= k)).
Context (Qp : forall A (o : outcome A), Q A (pure o)).
Context (Qc : forall c d, Q _ (on_server _ (ensure_collection c d))).
Context (Qd : forall c collection sc, good c ->
  make_index_scope collection (bd_tenant_id (ch_base c)) (bd_knowledge_base_id (ch_base c)) (bd_document_id (ch_base c))
    (bd_document_version_id (ch_base c)) (bd_index_version (ch_base c)) = Ret sc ->
  Q _ (on_server _ (milvus_delete_by_version sc))).
Context (Qi : forall c docs embs, Forall good docs -> Q _ (on_server _ (ms_insert c (zip_with mkVectorRow docs embs)))).
Context (Qe : forall l, Q _ (get_embeddings l)) (Qg : Q _ guard) (Qr : forall a b, Q _ (progress a b)).

Lemma write_batches_closed fuel collection size total done_ inserted batches docs :
  Forall good docs ->
  Q _ (write_batches on_server get_embeddings fuel collection size total guard progress done_ inserted batches docs).
Proof using Qb Qp Qi Qe Qg Qr.
  revert done_ inserted batches docs. induction fuel as [|fuel IH]; intros done_ inserted batches docs F; cbn [write_batches].
  { destruct docs; [apply (Qp _ (Ret _))|apply (Qp _ (Raise _))]. }
  destruct docs as [|d docs]; [apply (Qp _ (Ret _))|].
  repeat (apply Qb; [first [apply Qg|apply Qe|apply Qi; by apply Forall_take|apply Qp|apply Qr]|intros ?]; cbv zeta).
  apply IH. by apply Forall_drop.
Qed.

Lemma write_closed docs collection :
  (forall normalized, normalized_chunks [] None docs = Ret normalized -> Forall good normalized) ->
  Q _ (write_versioned_documents on_server get_embeddings dense_dim docs collection progress guard).
Proof using Qb Qp Qc Qd Qi Qe Qg Qr.
  intros N. unfold write_versioned_documents. destruct docs as [|d docs]; [apply (Qp _ (Raise _))|].
  destruct (normalized_chunks [] None (d :: docs)) as [normalized|e]; [|apply (Qp _ (Raise e))].
  specialize (N _ eq_refl).
  match goal with |- Q _ (pure (Ret ?a) ≫= ?k) => change (Q _ (k a)) end. cbv beta.
  destruct normalized as [|first rest]; [apply (Qp _ (Raise _))|]. cbv zeta.
  apply Qb; [apply Qp|intros ?]. apply Qb; [apply Qc|intros ?].
  match goal with |- Q _ (pure ?o ≫= ?k) => destruct o as [sc|e] eqn:E; [|apply (Qp _ (Raise e))] end.
  match goal with |- Q _ (pure (Ret sc) ≫= ?k) => change (Q _ (k sc)) end. cbv beta.
  apply Qb; [apply Qg|intros ?]. apply Qb; [eapply Qd; [|exact E]; by inversion N|intros ?]. apply Qb; [apply Qg|intros ?].
  apply Qb; [by apply write_batches_closed|]. intros [i b]. apply Qp.
Qed.
End closed.

Lemma normalized_chunk_scope d n : normalized_chunk d = Ret n -> chunk_scope n = py_strip <$> chunk_scope d.
Proof.
  unfold normalized_chunk. cbv zeta. intros H. repeat (apply outcome_bind_inv in H as (? & ? & H)). injection H as <-.
  unfold chunk_scope. cbn [ch_base bd_tenant_id bd_knowledge_base_id bd_document_id bd_document_version_id bd_index_version].
  by repeat match goal with E : required_string _ _ = Ret _ |- _ => apply required_string_inv in E as [-> _] end.
Qed.

Lemma stripped_parts sc : scope_stripped sc -> py_strip (is_collection_name sc) = is_collection_name sc /\
  py_strip <$> scope_parts sc = scope_parts sc.
Proof.
  unfold scope_stripped, scope_parts. rewrite !Forall_cons. intros ([-> _] & [E1 _] & [E2 _] & [E3 _] & [E4 _] & [E5 _] & _).
  split; [done|]. cbn. by rewrite E1, E2, E3, E4, E5.
Qed.

(** The scope of a receipt is that of the documents, in the collection given. *)
Lemma write_scope {St Emb W : Type} `{!MilvusServer St Emb} on_server get_embeddings dense_dim progress guard sc docs
    (w : W) receipt w' :
  scope_stripped sc -> Forall (fun c => chunk_scope c = scope_parts sc) docs ->
  write_versioned_documents (St:=St) (Emb:=Emb) on_server get_embeddings dense_dim docs (is_collection_name sc) progress guard w
    = (Ret receipt, w') -> rc_scope receipt = sc.
Proof.
  intros SC F. unfold write_versioned_documents. destruct docs as [|d docs0]; [done|].
  intros (normalized & w0 & [N ->]%pure_inv & H)%act_bind_inv. cbn [normalized_chunks] in N.
  apply outcome_bind_inv in N as (n & N & K). do 2 apply outcome_bind_inv in K as (? & _ & K).
  apply outcome_bind_inv in K as (rest & _ & [= <-]). cbv zeta in H. apply normalized_chunk_scope in N.
  apply Forall_cons in F as [F _]. destruct (stripped_parts _ SC) as [S0 S1]. rewrite F, S1 in N. clear F.
  apply act_bind_inv in H as (? & w1 & _ & H). apply act_bind_inv in H as (? & w2 & _ & H).
  apply act_bind_inv in H as (s1 & w3 & [M1 ->]%pure_inv & H). do 3 apply act_bind_inv in H as (? & ? & _ & H).
  apply act_bind_inv in H as ([i b] & w7 & _ & [M2 _]%pure_inv). unfold make_receipt in M2.
  apply outcome_bind_inv in M2 as (s2 & M2 & K). do 5 apply outcome_bind_inv in K as (? & _ & K). injection K as <-.
  apply make_index_scope_inv in M1 as (ST & A0 & A1 & A2 & A3 & A4 & A5).
  apply make_index_scope_inv in M2 as (_ & B0 & B1 & B2 & B3 & B4 & B5). destruct (stripped_parts _ ST) as [T0 T1].
  unfold scope_parts, chunk_scope in *. cbn in S1, T1. rewrite S0 in A0. injection S1 as U1 U2 U3 U4 U5.
  injection T1 as V1 V2 V3 V4 V5. injection N as N1 N2 N3 N4 N5. destruct s2, s1, sc; simpl in *. congruence.
Qed.

Section build.
Context {St Emb C : Type} `{!MilvusServer St Emb} `{!MilvusLaws St Emb} `{!ParentCache C}.
Context (env : CatalogEnv).
Context (moves : nat -> Shared St C -> Shared St C) (faults : nat -> fault).
Context (load_document_file : pystr -> pystr -> DocumentArtifactMetadata -> outcome (list Chunk)).
Context (make_artifact_metadata : DocumentArtifactMetadata -> outcome DocumentArtifactMetadata).
Context (embed : nat -> list pystr -> outcome (list Emb)).
Context (object_file : pystr -> option pystr).
Context (parent_clock : nat -> nat -> datetime) (dense_dim : Z) (query_all_pages : nat).
Context (sc : IndexVersionScope) (SC : scope_stripped sc).
Abbreviation Pub := (Act (PubWorld St C)).
Abbreviation Stores := (ParentDb C * St * gset pystr)%type.

(** The rows of the version, in either store, are the same. *)
Definition parents_kept : relation Stores := fun a b =>
  (table_ok (pd_rows a.1.1) -> table_ok (pd_rows b.1.1)) /\ parent_rows sc (pd_rows b.1.1) ≡ₚ parent_rows sc (pd_rows a.1.1).
Definition vectors_kept : relation Stores := fun a b => scope_rows sc b.1.2 ≡ₚ scope_rows sc a.1.2.

#[export] Instance parents_kept_pre : PreOrder parents_kept.
Proof. split; [by intros a; split|]. intros a b c [T1 P1] [T2 P2]. split; [auto|by rewrite P2]. Qed.
#[export] Instance vectors_kept_pre : PreOrder vectors_kept.
Proof. unfold vectors_kept. split; [by intros a|]. intros a b c P1 P2. by rewrite P2. Qed.

(** Nobody else writes to the version, and the others use the catalogue by its calls. *)
Context (exclusive : forall n sh, parents_kept (stores sh) (stores (moves n sh)) /\ vectors_kept (stores sh) (stores (moves n sh))).
Context (catalog_moves : forall n sh, rtc (catalog_step env) (w_db (sh_catalog sh)) (w_db (sh_catalog (moves n sh)))).
Abbreviation rows_at w := (pd_rows (sh_parents (pw_shared w))).
Abbreviation vectors_at w := (scope_rows sc (sh_server (pw_shared w))).

Lemma others_keep_parents n sh : parents_kept (stores sh) (stores (moves n sh)).
Proof using exclusive. apply exclusive. Qed.
Lemma others_keep_vectors n sh : vectors_kept (stores sh) (stores (moves n sh)).
Proof using exclusive. apply exclusive. Qed.

Lemma leaves_run (R : relation Stores) {A} (m : Pub A) w r w' : Leaves R m -> m w = (r, w') -> R (stores_of w) (stores_of w').
Proof. intros L E. specialize (L w). by rewrite E in L. Qed.

Lemma on_parents_ret {A} (m : Act (ParentDb C) A) w a w' :
  on_parents moves faults m w = (Ret a, w') ->
  m (sh_parents (moves (pw_calls w) (pw_shared w))) = (Ret a, sh_parents (pw_shared w')).
Proof.
  unfold on_parents, external. cbv zeta. destruct (faults _); [|done|].
  - destruct (m _) as [r c]. by intros [= -> <-].
  - destruct (m _) as [[a0|e] c]; done.
Qed.
Lemma on_vectors_ret {A} (m : Act St A) w a w' :
  on_vectors moves faults A m w = (Ret a, w') ->
  m (sh_server (moves (pw_calls w) (pw_shared w))) = (Ret a, sh_server (pw_shared w')).
Proof.
  unfold on_vectors, external. cbv zeta. destruct (faults _); [|done|].
  - destruct (m _) as [r c]. by intros [= -> <-].
  - destruct (m _) as [[a0|e] c]; done.
Qed.

(** ** The stages *)

Lemma parse_stage_inv b x floor w parents leaves w' :
  parse_stage env moves faults load_document_file make_artifact_metadata object_file b x floor w = (Ret (parents, leaves), w') ->
  leaves <> [] /\ exists path m docs, make_artifact_metadata (build_metadata b) = Ret m /\
    load_document_file path (dr_canonical_name (vb_document b)) m = Ret docs /\
    parents = List.filter (is_level [1; 2]) docs /\ leaves = List.filter (is_level [3]) docs.
Proof.
  unfold parse_stage. cbv zeta. intros H.
  apply act_bind_inv in H as (? & w1 & _ & H). apply act_bind_inv in H as (? & w2 & _ & H).
  apply act_bind_inv in H as (? & w3 & _ & H). apply act_bind_inv in H as (path & w4 & _ & H).
  apply act_bind_inv in H as (docs & w5 & [D ->]%pure_inv & H). apply act_bind_inv in H as (? & w6 & _ & H).
  apply act_bind_inv in H as (? & w7 & [N%check_inv ->]%pure_inv & H). apply act_bind_inv in H as (? & w8 & _ & H).
  injection H as <- <- <-. split; [intros E; by rewrite E in N|].
  exists path. change (mkDocumentArtifactMetadata _ _ _ _ _ _ _) with (build_metadata b) in D.
  destruct (make_artifact_metadata (build_metadata b)) as [m|e] eqn:M; [|by destruct e]. exists m.
  simpl in D. destruct (load_document_file path _ m) as [l|e] eqn:L; [|by destruct e]. injection D as ->. eauto.
Qed.

Lemma guard_parents j x w u w' :
  _guard_execution moves faults j x w = (Ret u, w') -> parents_kept (stores_of w) (stores_of w').
Proof using exclusive. apply leaves_run, leaves_guard; [apply _|apply others_keep_parents]. Qed.
Lemma step_parents j f s g p m t c x w u w' :
  _step env moves faults j f s g p m t c x w = (Ret u, w') -> parents_kept (stores_of w) (stores_of w').
Proof using exclusive. apply leaves_run, leaves_step; [apply _|apply others_keep_parents]. Qed.

Lemma call_parents {A} (m : Act (ParentDb C) A) w a w' :
  on_parents moves faults m w = (Ret a, w') -> table_ok (rows_at w) ->
  exists p, table_ok (pd_rows p) /\ parent_rows sc (pd_rows p) ≡ₚ parent_rows sc (rows_at w) /\
    m p = (Ret a, sh_parents (pw_shared w')).
Proof using exclusive.
  intros H%on_parents_ret T. destruct (others_keep_parents (pw_calls w) (pw_shared w)) as [K1 K2].
  eexists. split_and!; [by apply K1|exact K2|exact H].
Qed.

(** An upsert into a version without rows. *)
Lemma upsert_indexed now parents (p : ParentDb C) n p' :
  table_ok (pd_rows p) -> parent_rows sc (pd_rows p) = [] -> upsert_documents now parents p = (Ret n, p') ->
  table_ok (pd_rows p') /\ forall r, r ∈ parent_rows sc (pd_rows p') ->
    exists c, c ∈ parents /\ py_strip (ch_chunk_id c) = row_id r /\ payload (row_id r) c = Ret (pk_chunk r).
Proof.
  intros T E U. unfold upsert_documents in U. destruct parents as [|d0 parents0].
  { injection U as _ <-. split; [done|]. rewrite E. intros r []%elem_of_nil. }
  destruct (upsert_rows _ _ _) as [[rows ps]|] eqn:R; [|done]. injection U as _ <-. simpl.
  destruct (upsert_rows_spec _ _ _ _ _ R) as (TT & _). split; [by apply TT|].
  intros r (k & Hk & Sr)%elem_of_rows_where. pose proof (TT T _ _ Hk) as Er.
  destruct (upsert_rows_source _ _ _ _ _ R k r Hk) as [Ho|(c & Hc & P)]; [|exists c; by rewrite Er].
  exfalso. assert (r ∈ parent_rows sc (pd_rows p)) as Hr by (apply elem_of_rows_where; eauto).
  rewrite E in Hr. by apply elem_of_nil in Hr.
Qed.

(** Identifiers that are exactly those of the rows are stripped, so each row holds the
    payload of the parent it is named after. *)
Lemma rows_named_by_parents parents rows :
  row_id <$> parent_rows sc rows ≡ₚ ch_chunk_id <$> parents ->
  (forall r, r ∈ parent_rows sc rows ->
     exists c, c ∈ parents /\ py_strip (ch_chunk_id c) = row_id r /\ payload (row_id r) c = Ret (pk_chunk r)) ->
  parents_indexed sc parents rows.
Proof.
  intros P F. split; [done|]. intros r Hr. destruct (F r Hr) as (c & Hc & E & Hp). exists c. split_and!; [done| |done].
  assert (ch_chunk_id c ∈ (row_id <$> parent_rows sc rows)) as (r2 & E2 & H2)%list_elem_of_fmap.
  { rewrite P. by apply list_elem_of_fmap_2. }
  destruct (F r2 H2) as (c2 & _ & E3 & _). rewrite <- E, E2, <- E3. symmetry. apply py_strip_idem.
Qed.

Lemma parent_verify_rows ids (p : ParentDb C) v p' :
  parent_verify_version (is_tenant_id sc) (is_knowledge_base_id sc) (is_document_id sc) (is_document_version_id sc) ids
    (Some (is_index_version sc)) p = (Ret v, p') ->
  p' = p /\ NoDup ids /\
  v = parent_verdict (is_tenant_id sc) (is_knowledge_base_id sc) (is_document_id sc) (is_document_version_id sc)
        (Some (is_index_version sc)) ids (parent_rows sc (pd_rows p)).
Proof using SC.
  unfold parent_verify_version. intros [= H <-]. apply outcome_bind_inv in H as (? & O & H).
  unfold expected_ids_ok in O. apply outcome_bind_inv in O as (? & _ & ND%check_inv). apply bool_decide_eq_true in ND.
  pose proof SC as S. unfold scope_stripped in S. rewrite !Forall_cons in S.
  destruct S as (_ & [S1 N1] & [S2 N2] & [S3 N3] & [S4 N4] & [S5 N5] & _).
  unfold opt_scope_value in H. rewrite !scope_value_run in H by done. cbn [mbind outcome_bind mret outcome_ret] in H.
  rewrite version_query_scope in H by done. cbn in H. by injection H as <-.
Qed.

(** The parent stage leaves exactly the parents. *)
Lemma parent_stage_rows b x floor parents w u w' :
  table_ok (rows_at w) -> parent_stage env moves faults parent_clock b x floor sc parents w = (Ret u, w') ->
  table_ok (rows_at w') /\ parents_indexed sc parents (rows_at w').
Proof using exclusive SC.
  intros T H. unfold parent_stage in H. cbv zeta in H.
  apply act_bind_inv in H as (? & w1 & [= <- <-] & H).
  apply act_bind_inv in H as (? & w2 & [K1 _]%step_parents & H). apply act_bind_inv in H as (? & w3 & [K2 _]%guard_parents & H).
  apply act_bind_inv in H as (? & w4 & D & H). apply act_bind_inv in H as (? & w5 & [K4 P4]%guard_parents & H).
  apply act_bind_inv in H as (count & w6 & U & H). apply act_bind_inv in H as (? & w7 & [K6 P6]%guard_parents & H).
  apply act_bind_inv in H as (? & w8 & [_ ->]%pure_inv & H).
  apply act_bind_inv in H as (v & w9 & V & H). apply act_bind_inv in H as (? & w10 & [K9 P9]%guard_parents & H).
  apply act_bind_inv in H as (? & w11 & [X%check_inv ->]%pure_inv & H). apply step_parents in H as [K11 P11]. simpl in *.
  apply call_parents in D as (p4 & T4 & _ & D); [|auto]. destruct (parent_delete_rows _ _ _ _ SC T4 D) as (T5 & _ & E5).
  apply call_parents in U as (p6 & T6 & E6 & U); [|auto]. rewrite P4, E5 in E6. apply Permutation_nil_r in E6.
  destruct (upsert_indexed _ _ _ _ _ T6 E6 U) as [T7 F7].
  apply call_parents in V as (p9 & T9 & E9 & V); [|auto]. rewrite P6 in E9.
  apply parent_verify_rows in V as (Ev & ND & ->). rewrite Ev in *. apply parent_verdict_exact in X as [X _]; [|done].
  split; [auto|]. apply (parents_indexed_perm _ _ (rows_at w6)); [by rewrite P11, P9, E9|].
  apply rows_named_by_parents; [by rewrite <- E9|exact F7].
Qed.

(** *** The vector store *)

Lemma leaves_vectors_parents {A} (m : Act St A) : Leaves parents_kept (on_vectors moves faults A m).
Proof using exclusive.
  apply leaves_external; [apply _|apply others_keep_parents|]. intros sh. destruct (m _). by split.
Qed.

Lemma vector_stage_parents b x floor leaves w receipt w' :
  vector_stage env moves faults embed dense_dim b x floor sc leaves w = (Ret receipt, w') ->
  parents_kept (stores_of w) (stores_of w').
Proof using exclusive.
  pose proof (others_keep_parents) as M. apply leaves_run. unfold vector_stage. cbv zeta.
  apply leaves_bind; [apply _|apply leaves_set_stage; apply _|]. intros ?.
  apply leaves_bind; [apply _|apply leaves_step; [apply _|done]|]. intros ?.
  apply leaves_bind; [apply _|apply leaves_guard; [apply _|done]|]. intros ?.
  apply leaves_bind; [apply _| |].
  - apply (write_closed _ _ _ _ _ (fun A m => Leaves parents_kept m) (fun _ => True)).
    + intros. by apply leaves_bind; [apply _|..].
    + intros. apply leaves_pure; apply _.
    + intros. apply leaves_vectors_parents.
    + intros. apply leaves_vectors_parents.
    + intros. apply leaves_vectors_parents.
    + intros. apply leaves_embeddings; [apply _|done].
    + apply leaves_guard; [apply _|done].
    + intros. apply leaves_progress; [apply _|done].
    + intros normalized _. by apply Forall_true.
  - intros ?. apply leaves_bind; [apply _|apply leaves_guard; [apply _|done]|]. intros ?. apply leaves_ret; apply _.
Qed.

#[export] Instance vector_runs : ServerRuns (on_vectors moves faults) sc (fun w => vectors_at w).
Proof using exclusive.
  intros A m w a w' H%on_vectors_ret. eexists _, _. split_and!; [|exact H|done]. apply others_keep_vectors.
Qed.

Lemma quiet_leaves {A} (m : Pub A) : Leaves vectors_kept m -> quiet (fun w => vectors_at w) m.
Proof. intros L w. specialize (L w). unfold vectors_kept in L. simpl in L. by rewrite L. Qed.

Lemma vectors_kept_run {A} (m : Pub A) w r w' : Leaves vectors_kept m -> m w = (r, w') -> vectors_at w' ≡ₚ vectors_at w.
Proof. intros L E. by apply (leaves_run vectors_kept) in E. Qed.

(** The vector stage leaves exactly the normalised leaves, each under its identifier. *)
Lemma vector_stage_rows b x floor leaves w receipt w' :
  Forall (fun c => chunk_scope c = scope_parts sc) leaves ->
  vector_stage env moves faults embed dense_dim b x floor sc leaves w = (Ret receipt, w') ->
  rc_scope receipt = sc /\ exists normalized, normalized_chunks [] None leaves = Ret normalized /\
    vr_chunk <$> vectors_at w' ≡ₚ normalized.
Proof using exclusive SC.
  intros F H. pose proof (others_keep_vectors) as M. unfold vector_stage in H. cbv zeta in H.
  apply act_bind_inv in H as (? & w1 & _ & H). apply act_bind_inv in H as (? & w2 & _ & H).
  apply act_bind_inv in H as (? & w3 & _ & H). apply act_bind_inv in H as (rc & w4 & WR & H).
  apply act_bind_inv in H as (? & w5 & G & [= <- <-]). pose proof (write_scope _ _ _ _ _ _ _ _ _ _ SC F WR) as E.
  split; [done|].
  apply (write_rows (on_vectors moves faults) (get_embeddings moves faults embed) dense_dim sc (fun w => vectors_at w)) in WR
    as (normalized & N & _ & _ & P); try done.
  - exists normalized. split; [done|]. rewrite <- P. apply fmap_Permutation.
    eapply vectors_kept_run; [|exact G]. apply leaves_guard; [apply _|done].
  - exact vector_runs.
  - intros l. apply quiet_leaves, leaves_embeddings; [apply _|done].
  - apply quiet_leaves, leaves_guard; [apply _|done].
  - intros a c. apply quiet_leaves, leaves_progress; [apply _|done].
Qed.

(** *** Verification *)

Lemma verify_stage_keeps b x floor receipt parents leaves w u w' :
  rc_scope receipt = sc ->
  verify_stage env moves faults query_all_pages b x floor receipt parents leaves w = (Ret u, w') ->
  parents_kept (stores_of w) (stores_of w') /\ vectors_kept (stores_of w) (stores_of w').
Proof using exclusive SC.
  intros E H. pose proof others_keep_parents as M1. pose proof others_keep_vectors as M2.
  assert (forall R : relation Stores, PreOrder R -> (forall n sh, R (stores sh) (stores (moves n sh))) ->
    Leaves R (verify_receipt (on_vectors moves faults) query_all_pages receipt) ->
    Leaves R (verify_stage env moves faults query_all_pages b x floor receipt parents leaves)) as K.
  { intros R PR MR V. unfold verify_stage. cbv zeta.
    apply leaves_bind; [done|apply leaves_set_stage; done|]. intros ?.
    apply leaves_bind; [done|by apply leaves_step|]. intros ?. apply leaves_bind; [done|by apply leaves_guard|]. intros ?.
    apply leaves_bind; [done|done|]. intros ?. apply leaves_bind; [done|by apply leaves_guard|]. intros ?.
    apply leaves_bind; [done|by apply leaves_pure|]. intros ?.
    apply leaves_bind; [done|by apply leaves_on_catalog|]. intros ?. by apply leaves_ret. }
  split; eapply leaves_run; try exact H; apply K; try done; try apply _.
  - apply leaves_vectors_parents.
  - unfold verify_receipt. apply leaves_external; [apply _|done|]. intros sh.
    destruct (milvus_verify_version _ _ _ _) as [r s] eqn:V. rewrite E in V.
    apply milvus_verify_rows in V as [V _]; [|done]. unfold vectors_kept, scope_rows. simpl. by rewrite V.
Qed.

(** *** The catalogue during a build *)

Lemma catalogued_step j f st g p m t c x : Catalogued env (_step env moves faults j f st g p m t c x).
Proof using catalog_moves. unfold _step. catalogues. Qed.
Lemma catalogued_guard j x : Catalogued env (_guard_execution moves faults j x).
Proof using catalog_moves. unfold _guard_execution. catalogues. Qed.

Ltac staged := repeat first [ apply catalogued_step | apply catalogued_guard | catalogues ].

Lemma catalogued_parse b x floor :
  Catalogued env (parse_stage env moves faults load_document_file make_artifact_metadata object_file b x floor).
Proof using catalog_moves. unfold parse_stage, _source_path. cbv zeta. staged. Qed.
Lemma catalogued_parents b x floor parents : Catalogued env (parent_stage env moves faults parent_clock b x floor sc parents).
Proof using catalog_moves. 
  unfold parent_stage, delete_parents. cbv zeta. staged. intros w. by apply catalogued_on_parents.
Qed.
Lemma catalogued_vectors b x floor leaves :
  Catalogued env (vector_stage env moves faults embed dense_dim b x floor sc leaves).
Proof using catalog_moves.
  unfold vector_stage. cbv zeta. apply catalogued_bind; [staged|]. intros ?. apply catalogued_bind; [staged|]. intros ?.
  apply catalogued_bind; [staged|]. intros ?. apply catalogued_bind; [|intros ?; staged].
  apply (write_closed _ _ _ _ _ (fun A m => Catalogued env m) (fun _ => True));
    [intros; by apply catalogued_bind|intros; staged..|]. intros normalized _. by apply Forall_true.
Qed.
Lemma catalogued_verify b x floor receipt parents leaves :
  Catalogued env (verify_stage env moves faults query_all_pages b x floor receipt parents leaves).
Proof using catalog_moves. unfold verify_stage, verify_receipt. cbv zeta. staged. Qed.

Lemma parse_stage_parents b x floor w r w' :
  parse_stage env moves faults load_document_file make_artifact_metadata object_file b x floor w = (Ret r, w') ->
  parents_kept (stores_of w) (stores_of w').
Proof using exclusive.
  pose proof others_keep_parents as M. apply leaves_run. unfold parse_stage, _source_path, _step, _guard_execution. cbv zeta.
  leave. apply leaves_external; [apply _|done|]. intros sh. by split.
Qed.

Lemma publish_leaves b x w r w' :
  _publish_with_reconciliation moves faults b x w = (Ret r, w') ->
  parents_kept (stores_of w) (stores_of w') /\ vectors_kept (stores_of w) (stores_of w').
Proof using exclusive.
  pose proof others_keep_parents as M1. pose proof others_keep_vectors as M2.
  split; eapply leaves_run; try done; apply leaves_publish; try done; apply _.
Qed.

(** *** The whole build *)

Lemma build_indexed b x w o w' :
  catalog_inv (catalog_of w) -> table_ok (rows_at w) ->
  (forall path m docs, make_artifact_metadata (build_metadata b) = Ret m ->
     load_document_file path (dr_canonical_name (vb_document b)) m = Ret docs ->
     Forall (fun c => chunk_scope c = scope_parts sc) docs) ->
  build_and_publish env moves faults load_document_file make_artifact_metadata embed object_file parent_clock dense_dim
    query_all_pages b x sc w = (Ret o, w') ->
  exists path m docs normalized, make_artifact_metadata (build_metadata b) = Ret m /\
    load_document_file path (dr_canonical_name (vb_document b)) m = Ret docs /\
    parents_indexed sc (List.filter (is_level [1; 2]) docs) (rows_at w') /\
    normalized_chunks [] None (List.filter (is_level [3]) docs) = Ret normalized /\ normalized <> [] /\
    vr_chunk <$> vectors_at w' ≡ₚ normalized /\
    exists j v d, published_at (catalog_of w') (jr_id (vb_job b)) j v d.
Proof using exclusive catalog_moves SC.
  intros I T ST H. unfold build_and_publish in H. cbv zeta in H.
  apply act_bind_inv in H as (? & w1 & [= <- <-] & H). apply act_bind_inv in H as (? & w2 & H2 & H).
  pose proof (step_parents _ _ _ _ _ _ _ _ _ _ _ _ H2) as [T2 _].
  apply (catalogued_run env) in H2 as [I2 _]; [|apply catalogued_step|done].
  apply act_bind_inv in H as ([parents leaves] & w3 & H3 & H).
  pose proof (parse_stage_parents _ _ _ _ _ _ H3) as [T3 _]. destruct (parse_stage_inv _ _ _ _ _ _ _ H3) as (NE & path & m & docs & EM & ED & -> & ->).
  apply (catalogued_run env) in H3 as [I3 _]; [|apply catalogued_parse|done].
  apply act_bind_inv in H as (? & w4 & H4 & H). destruct (parent_stage_rows _ _ _ _ _ _ _ (T3 (T2 T)) H4) as [T4 P4].
  apply (catalogued_run env) in H4 as [I4 _]; [|apply catalogued_parents|done].
  apply act_bind_inv in H as (receipt & w5 & H5 & H). pose proof (vector_stage_parents _ _ _ _ _ _ _ H5) as [T5 P5].
  assert (Forall (fun c => chunk_scope c = scope_parts sc) (List.filter (is_level [3]) docs)) as F.
  { apply Forall_forall. intros c [Hc _]%list_elem_of_In%filter_In. pose proof (ST _ _ _ EM ED) as F.
    rewrite Forall_forall in F. apply F. by apply list_elem_of_In. }
  destruct (vector_stage_rows _ _ _ _ _ _ _ F H5) as (RS & normalized & N & V5).
  apply (catalogued_run env) in H5 as [I5 _]; [|apply catalogued_vectors|done].
  apply act_bind_inv in H as (? & w6 & H6 & H). destruct (verify_stage_keeps _ _ _ _ _ _ _ _ _ RS H6) as [[_ P6] V6].
  apply (catalogued_run env) in H6 as [I6 _]; [|apply catalogued_verify|done].
  apply act_bind_inv in H as (? & w7 & [= <- <-] & H). apply act_bind_inv in H as (result & w8 & H8 & [= <- <-]).
  destruct (publish_leaves _ _ _ _ _ H8) as [[_ P8] V8]. apply (publish_returned env) in H8; [|done..].
  exists path, m, docs, normalized. split_and!; try done.
  - eapply parents_indexed_perm; [|exact P4]. simpl in *. by rewrite P8, P6, P5.
  - intros ->. apply normalized_chunks_inv in N as [_ N]. by destruct (List.filter _ docs).
  - rewrite <- V5. apply fmap_Permutation. unfold vectors_kept in *. simpl in *. by rewrite V8, V6.
Qed.
End build.

(** ** A published version is indexed *)

Section published.
Context {St Emb C : Type} `{!MilvusServer St Emb} `{!MilvusLaws St Emb} `{!ParentCache C}.
Context (env : CatalogEnv).
Context (moves : nat -> Shared St C -> Shared St C) (faults : nat -> fault).
Context (nfc : pystr -> pystr) (sha256_hex : list N -> pystr).
Context (split_level_1 split_level_2 split_level_3 : pystr -> list pystr).
Context (pdf_load docx_load excel_load : pystr -> outcome (list RawDoc)).
Context (html_linear : pystr -> outcome (pystr * pystr)).
Context (max_pages max_page_characters : Z).
Context (embed : nat -> list pystr -> outcome (list Emb)).
Context (object_file : pystr -> option pystr).
Context (parent_clock : nat -> nat -> datetime) (dense_dim : Z) (query_all_pages : nat).

Definition loader : pystr -> pystr -> DocumentArtifactMetadata -> outcome (list Chunk) :=
  load_document nfc sha256_hex split_level_1 split_level_2 split_level_3 pdf_load docx_load excel_load html_linear max_pages
    max_page_characters.

(** The identifiers of a build are texts the metadata normalisation keeps. *)
Definition plain_build (b : VersionBuild) : Prop :=
  Forall (fun s => _normalize_metadata_text nfc (Some s) = s) (metadata_scope (build_metadata b)).

Lemma build_scope_parts b sc :
  plain_build b -> build_scope b = Ret sc -> scope_stripped sc /\ scope_parts sc = metadata_scope (build_metadata b).
Proof.
  unfold plain_build. intros F H. unfold build_scope, build_version_scope in H.
  apply outcome_bind_inv in H as (? & _ & (ST & _ & E1 & E2 & E3 & E4 & E5)%make_index_scope_inv). split; [done|].
  unfold scope_parts. rewrite E1, E2, E3, E4, E5. clear E1 E2 E3 E4 E5.
  assert (forall s, _normalize_metadata_text nfc (Some s) = s -> py_strip s = s) as K.
  { intros s <-. apply py_strip_idem. }
  unfold metadata_scope, build_metadata in *. cbn [am_tenant_id am_knowledge_base_id am_document_id am_document_version_id
    am_index_version] in *. rewrite !Forall_cons in F. destruct F as (F1 & F2 & F3 & F4 & F5 & _).
  by rewrite !K.
Qed.

End published.
