(* ===== verification/PublicationIsolation.v ===== *)
(** * A build touches only its own version

    Whatever becomes of a build - publication, failure, lost calls, partial writes -
    it changes no row of another version in the vector and parent stores, of any tenant
    and in any collection, and no other object file: what the other processes leave
    alone during the build is the same after it. *)

From S2P Require Import Prelude PyBase Errors Session Decimals CatalogSchema Catalog CatalogJobs CatalogCleanup CatalogSystem Chunking ChunkingProps Filters FiltersProps VectorStore VectorProps ParentStore ParentProps Publication PublicationProps PublicationBuild.

Open Scope Z_scope.

Lemma filter_filter_sub {A} (p q : A -> bool) (l : list A) :
  (forall x, p x = true -> q x = true) -> List.filter p (List.filter q l) = List.filter p l.
Proof.
  intros H. induction l as [|x l IH]; simpl; [done|]. destruct (q x) eqn:Q; simpl; [by rewrite IH|].
  destruct (p x) eqn:P; [|done]. by rewrite (H x P) in Q.
Qed.

Section isolation.
Context {St Emb C : Type} `{!MilvusServer St Emb} `{!MilvusLaws St Emb} `{!ParentCache C}.
Context (env : CatalogEnv).
Context (moves : nat -> Shared St C -> Shared St C) (faults : nat -> fault).
Context (load_document_file : pystr -> pystr -> DocumentArtifactMetadata -> outcome (list Chunk)).
Context (make_artifact_metadata : DocumentArtifactMetadata -> outcome DocumentArtifactMetadata).
Context (embed : nat -> list pystr -> outcome (list Emb)).
Context (object_file : pystr -> option pystr).
Context (parent_clock : nat -> nat -> datetime) (dense_dim : Z) (query_all_pages : nat).
(** The version, its object key, and the identifiers of its chunks. *)
Context (vid key : pystr) (own : pystr -> Prop).
(** The versions and files under observation: those the other processes leave alone. *)
Context (watched watched_file : pystr -> bool).
Abbreviation Pub := (Act (PubWorld St C)).
Abbreviation Stores := (ParentDb C * St * gset pystr)%type.

Definition other_chunk (c : Chunk) : bool :=
  watched (bd_document_version_id (ch_base c)) && negb (bool_decide (bd_document_version_id (ch_base c) = vid)).
Definition other_parents (rows : ParentTable) : ParentTable := filter (fun kv => other_chunk (pk_chunk kv.2) = true) rows.
Definition other_vectors (s : St) (k : pystr) : list (VectorRow Emb) :=
  List.filter (fun r => other_chunk (vr_chunk r)) (ms_rows s k).
Definition other_files (files : gset pystr) : gset pystr :=
  filter (fun f => watched_file f = true)
    (match object_file key with Some name => files ∖ {[name]} | None => files end).

Lemma other_chunk_ne c : other_chunk c = true -> bool_decide (bd_document_version_id (ch_base c) = vid) = false.
Proof. by intros [_ ?%negb_true_iff]%andb_true_iff. Qed.
Lemma own_chunk_not_other c : bd_document_version_id (ch_base c) = vid -> other_chunk c = false.
Proof. intros E. unfold other_chunk. by rewrite bool_decide_eq_true_2, andb_false_r. Qed.

(** No observed row of another version sits under the identifier of a chunk of this one. *)
Definition unmixed (rows : ParentTable) : Prop :=
  table_ok rows /\ forall k r, rows !! k = Some r -> other_chunk (pk_chunk r) = true -> ~ own k.

Definition others_kept : relation Stores := fun a b =>
  unmixed (pd_rows a.1.1) ->
  unmixed (pd_rows b.1.1) /\ other_parents (pd_rows b.1.1) = other_parents (pd_rows a.1.1) /\
  (forall k, other_vectors b.1.2 k ≡ₚ other_vectors a.1.2 k) /\ other_files b.2 = other_files a.2.

(** What the other processes do to them: the observed rows and files stay, anything
    else may change. *)
Definition left_alone : relation Stores := fun a b =>
  table_ok (pd_rows a.1.1) -> table_ok (pd_rows b.1.1) /\
  other_parents (pd_rows b.1.1) = other_parents (pd_rows a.1.1) /\
  (forall k, other_vectors b.1.2 k ≡ₚ other_vectors a.1.2 k) /\ other_files b.2 = other_files a.2.

Lemma left_alone_kept a b : left_alone a b -> others_kept a b.
Proof.
  intros H [T U]. destruct (H T) as (T' & P & V & F). split_and!; [|done..]. split; [done|]. intros k r Hk Hr.
  assert (other_parents (pd_rows b.1.1) !! k = Some r) as X by (by apply map_lookup_filter_Some).
  rewrite P in X. apply map_lookup_filter_Some in X as [X _]. by eapply U.
Qed.

#[export] Instance others_kept_pre : PreOrder others_kept.
Proof.
  split; [by intros a U|]. intros a b c H1 H2 U. destruct (H1 U) as (U1 & P1 & V1 & F1). destruct (H2 U1) as (U2 & P2 & V2 & F2).
  split_and!; [done|congruence| |congruence]. intros k. by rewrite V2.
Qed.

(** ** The vector store *)

Definition vectors_isolated {A} (m : Act St A) : Prop := forall s k, other_vectors (m s).2 k ≡ₚ other_vectors s k.

Lemma rows_isolated {A} (m : Act St A) : (forall s k, ms_rows (m s).2 k = ms_rows s k) -> vectors_isolated m.
Proof. intros H s k. unfold other_vectors. by rewrite H. Qed.

Lemma delete_isolated sc : scope_stripped sc -> is_document_version_id sc = vid -> vectors_isolated (milvus_delete_by_version sc).
Proof.
  intros SC E s k. destruct (milvus_delete_by_version sc s) as [r s'] eqn:D. destruct (milvus_delete_rows _ _ _ _ SC D) as [F _].
  simpl. specialize (F k). apply (filter_perm (fun r => other_chunk (vr_chunk r))) in F. unfold foreign_rows in F.
  rewrite !filter_filter_sub in F; [exact F|..]; intros x Hx%other_chunk_ne; unfold row_in_scope; rewrite E, Hx; by rewrite !andb_false_r, ?andb_false_l, ?andb_false_r.
Qed.

Lemma insert_isolated c docs embs :
  Forall (fun d => bd_document_version_id (ch_base d) = vid) docs -> vectors_isolated (ms_insert c (zip_with mkVectorRow docs embs)).
Proof.
  intros F s k. destruct (ms_insert c _ s) as [r s'] eqn:D. destruct (ms_insert_rows _ _ _ _ _ D) as (O & written & SUB & P & _). simpl.
  unfold other_vectors. destruct (decide (k = c)) as [->|N]; [|by rewrite O]. rewrite (filter_perm _ _ _ P), filter_perm_app.
  rewrite (filter_none _ written), app_nil_r; [done|]. eapply sublist_Forall; [exact SUB|].
  clear SUB P D. revert embs. induction F as [|d docs Hd _ IH]; intros [|e embs]; simpl; constructor; [|done].
  by apply own_chunk_not_other.
Qed.

(** ** The parent store *)

Definition parents_isolated {A} (m : Act (ParentDb C) A) : Prop := forall p,
  unmixed (pd_rows p) -> unmixed (pd_rows (m p).2) /\ other_parents (pd_rows (m p).2) = other_parents (pd_rows p).

Lemma parent_delete_isolated sc :
  scope_stripped sc -> is_document_version_id sc = vid ->
  parents_isolated (parent_delete_by_version (is_tenant_id sc) (is_knowledge_base_id sc) (is_document_id sc)
    (is_document_version_id sc) (Some (is_index_version sc))).
Proof.
  intros SC E p [T U]. destruct (parent_delete_by_version _ _ _ _ _ p) as [r p'] eqn:D.
  destruct (parent_delete_rows _ _ _ _ SC T D) as (T' & K & _). simpl.
  assert (forall x, other_chunk (pk_chunk x) = true -> parent_in_scope sc x = false) as O.
  { intros x Hx%other_chunk_ne. unfold parent_in_scope, version_row. rewrite E, Hx.
    by rewrite !andb_false_r. }
  split.
  - split; [done|]. intros k x Hk Hx. apply (U k x); [|done]. apply K; [by apply O|done].
  - apply map_eq. intros k. apply option_eq. intros x. unfold other_parents. rewrite !map_lookup_filter_Some. simpl.
    split; intros [Hk Hx]; (split; [|done]); apply K; auto.
Qed.

Lemma payload_version k c q : payload k c = Ret q -> bd_document_version_id (ch_base q) = py_strip (bd_document_version_id (ch_base c)).
Proof.
  unfold payload, _artifact_identity. cbv zeta. intros (i & H & [= <-])%outcome_bind_inv.
  repeat (apply outcome_bind_inv in H as (? & ? & H)). injection H as <-. cbn [ch_base bd_document_version_id].
  repeat match goal with E : _scope_value _ _ = Ret _ |- _ => apply scope_value_inv in E as [? ?] end. done.
Qed.

Lemma upsert_isolated now docs :
  Forall (fun c => py_strip (bd_document_version_id (ch_base c)) = vid /\ own (py_strip (ch_chunk_id c))) docs ->
  parents_isolated (upsert_documents now docs).
Proof.
  intros F p U. unfold upsert_documents. destruct docs as [|d docs]; [done|]. set (l := d :: docs) in *. clearbody l.
  destruct (upsert_rows now l (pd_rows p)) as [[rows ps]|e] eqn:R; [|done]. simpl. clear d docs.
  revert now rows ps R U. generalize (pd_rows p). clear p. induction F as [|d l [Hv Ho] _ IH]; intros t now rows ps; cbn [upsert_rows].
  { by intros [= <- <-]. }
  destruct (py_nonempty _) eqn:N; cbn [negb]; [|apply IH].
  intros (q & P & ([rows1 ps1] & R & [= <- <-])%outcome_bind_inv)%outcome_bind_inv [T U].
  set (x := mkParentChunk q (now 0%nat)) in *. set (k := py_strip (ch_chunk_id d)) in *.
  assert (other_chunk (pk_chunk x) = false) as Ox.
  { apply own_chunk_not_other. simpl. by rewrite (payload_version _ _ _ P), Hv. }
  destruct (IH _ _ _ _ R) as [U1 E1].
  { split.
    - intros k' y [[<- <-]|[_ Hk]]%lookup_insert_Some; [|by apply T]. by apply (payload_id _ _ _ P).
    - intros k' y [[<- <-]|[_ Hk]]%lookup_insert_Some Hy; [congruence|by eapply U]. }
  split; [done|]. rewrite E1. apply map_eq. intros k'. apply option_eq. intros y. unfold other_parents. rewrite !map_lookup_filter_Some.
  simpl. split.
  - intros [[[<- <-]|[_ Hk]]%lookup_insert_Some Hy]; [congruence|done].
  - intros [Hk Hy]. split; [|done]. rewrite lookup_insert_ne; [done|]. intros <-. by apply (U k y).
Qed.

(** ** The steps *)

Context (M : forall n sh, others_kept (stores sh) (stores (moves n sh))).
Context (vid_stripped : py_strip vid = vid).

Lemma isolated_vectors {A} (m : Act St A) : vectors_isolated m -> Leaves others_kept (on_vectors moves faults A m).
Proof using M.
  intros H. apply leaves_external; [apply _|done|]. intros sh U. specialize (H (sh_server sh)).
  destruct (m _) as [r s']. by split_and!.
Qed.
Lemma isolated_parents {A} (m : Act (ParentDb C) A) : parents_isolated m -> Leaves others_kept (on_parents moves faults m).
Proof using M.
  intros H. apply leaves_external; [apply _|done|]. intros sh U. specialize (H (sh_parents sh) U).
  destruct (m _) as [r p']. destruct H as [H1 H2]. by split_and!.
Qed.
Lemma isolated_files {A} (m : Act (gset pystr) A) :
  (forall f, other_files (m f).2 = other_files f) -> Leaves others_kept (on_files moves faults m).
Proof using M.
  intros H. apply leaves_external; [apply _|done|]. intros sh U. specialize (H (sh_files sh)). destruct (m _) as [r f]. by split_and!.
Qed.

Lemma leaves_bind_post {A B} (P : A -> Prop) (m : Pub A) (k : A -> Pub B) :
  Leaves others_kept m -> (forall w a w', m w = (Ret a, w') -> P a) -> (forall a, P a -> Leaves others_kept (k a)) ->
  Leaves others_kept (m ≫= k).
Proof.
  intros Hm HP Hk w. unfold mbind, Act_bind. specialize (Hm w). specialize (HP w).
  destruct (m w) as [[a|e] w1]; simpl in *; [|done]. etrans; [exact Hm|]. apply Hk. by eapply HP.
Qed.

Context (b : VersionBuild) (x : option IndexJobExecution) (sc : IndexVersionScope).
Context (SC : scope_stripped sc) (sc_version : is_document_version_id sc = vid).
Context (b_version : vr_source_object_key (vb_version b) = key).
Definition own_chunk (c : Chunk) : Prop :=
  bd_document_version_id (ch_base c) = vid /\ own (py_strip (ch_chunk_id c)).
Context (loaded : forall path m docs, make_artifact_metadata (build_metadata b) = Ret m ->
  load_document_file path (dr_canonical_name (vb_document b)) m = Ret docs -> Forall own_chunk docs).

Ltac alone := repeat first
  [ progress intros
  | apply leaves_ret; apply _ | apply leaves_pure; apply _ | apply leaves_throw; apply _ | apply leaves_reraise; apply _
  | apply leaves_set_stage; apply _ | apply leaves_on_catalog; [apply _|exact M]
  | apply leaves_step; [apply _|exact M] | apply leaves_guard; [apply _|exact M]
  | apply leaves_try; [apply _| |] | apply leaves_bind; [apply _| |]
  | match goal with |- Leaves _ (match ?x with _ => _ end) => destruct x end ].

Lemma isolated_delete_parents : Leaves others_kept (delete_parents moves faults sc).
Proof using M SC sc_version. apply isolated_parents, parent_delete_isolated; done. Qed.
Lemma isolated_delete_vectors : Leaves others_kept (delete_vectors moves faults sc).
Proof using M SC sc_version. apply isolated_vectors, delete_isolated; done. Qed.
Lemma isolated_unlink : Leaves others_kept (_unlink_version_object moves faults object_file (vb_version b)).
Proof using M b_version.
  unfold _unlink_version_object. rewrite b_version. destruct (object_file key) as [name|] eqn:E; [|alone].
  apply isolated_files. intros f. unfold other_files. rewrite E. simpl. clear. set_solver.
Qed.
Lemma isolated_clean : Leaves others_kept (_cleanup_candidate moves faults object_file sc (vb_version b)).
Proof using M SC sc_version b_version.
  unfold _cleanup_candidate, succeeded. alone.
  all: first [apply isolated_delete_vectors|apply isolated_delete_parents|apply isolated_unlink].
Qed.

Lemma isolated_parse floor :
  Leaves others_kept (parse_stage env moves faults load_document_file make_artifact_metadata object_file b x floor).
Proof using M. unfold parse_stage, _source_path. cbv zeta. alone. apply isolated_files. by intros f. Qed.

Lemma isolated_parent_stage floor parents :
  Forall own_chunk parents -> Leaves others_kept (parent_stage env moves faults parent_clock b x floor sc parents).
Proof using M SC sc_version vid_stripped.
  intros F. unfold parent_stage. cbv zeta. alone.
  - apply isolated_delete_parents.
  - intros w. apply isolated_parents, upsert_isolated. eapply Forall_impl; [exact F|]. intros c [-> Hc]. by rewrite vid_stripped.
  - apply isolated_parents. intros p U. done.
Qed.

Lemma isolated_write leaves guard progress :
  Forall own_chunk leaves -> Leaves others_kept guard -> (forall a c, Leaves others_kept (progress a c)) ->
  Leaves others_kept (write_versioned_documents (on_vectors moves faults) (get_embeddings moves faults embed) dense_dim leaves
    (is_collection_name sc) progress guard).
Proof using M vid_stripped.
  intros F G P. apply (write_closed _ _ _ _ _ (fun A m => Leaves others_kept m)
    (fun c => bd_document_version_id (ch_base c) = vid)).
  - intros A B m k Hm Hk. by apply leaves_bind; [apply _|..].
  - intros A o. apply leaves_pure; apply _.
  - intros c d. apply isolated_vectors, rows_isolated. intros s k. apply ensure_collection_rows.
  - intros c collection s Hc (ST & _ & _ & _ & _ & E & _)%make_index_scope_inv. apply isolated_vectors, delete_isolated; [done|].
    by rewrite E, Hc.
  - intros c docs embs D. by apply isolated_vectors, insert_isolated.
  - intros l. apply leaves_embeddings; [apply _|exact M].
  - exact G.
  - exact P.
  - intros normalized N. clear P G. revert N. generalize (@nil pystr) (@None (list pystr)). revert normalized.
    induction F as [|c cs [Hc _] _ IH]; intros normalized seen sco; cbn [normalized_chunks]; [intros [= <-]; constructor|].
    intros (n & N & (? & _ & (? & _ & (rest & R & [= <-])%outcome_bind_inv)%outcome_bind_inv)%outcome_bind_inv)%outcome_bind_inv.
    constructor; [|by eapply IH]. apply normalized_chunk_scope in N. unfold chunk_scope in N. cbn in N. injection N as _ _ _ N _.
    by rewrite N, Hc.
Qed.

Lemma isolated_vector_stage floor leaves :
  Forall own_chunk leaves -> Leaves others_kept (vector_stage env moves faults embed dense_dim b x floor sc leaves).
Proof using M vid_stripped.
  intros F. unfold vector_stage. cbv zeta. alone. apply isolated_write; [done|alone|]. intros p q. apply leaves_progress; [apply _|exact M].
Qed.

Lemma receipt_stripped floor leaves w receipt w' :
  vector_stage env moves faults embed dense_dim b x floor sc leaves w = (Ret receipt, w') -> scope_stripped (rc_scope receipt).
Proof.
  unfold vector_stage. cbv zeta. intros H. do 3 apply act_bind_inv in H as (? & ? & _ & H).
  apply act_bind_inv in H as (rc & w1 & WR & H). apply act_bind_inv in H as (? & ? & _ & [= <- _]).
  unfold write_versioned_documents in WR. destruct leaves as [|d leaves]; [done|].
  apply act_bind_inv in WR as (normalized & ? & _ & WR). destruct normalized as [|first rest]; [done|]. cbv zeta in WR.
  do 6 apply act_bind_inv in WR as (? & ? & _ & WR). apply act_bind_inv in WR as ([i n] & ? & _ & [MR _]%pure_inv).
  unfold make_receipt in MR. apply outcome_bind_inv in MR as (s2 & M2 & K). do 5 apply outcome_bind_inv in K as (? & _ & K).
  injection K as <-. by apply make_index_scope_inv in M2 as (? & _).
Qed.

Lemma isolated_verify floor receipt parents leaves :
  scope_stripped (rc_scope receipt) ->
  Leaves others_kept (verify_stage env moves faults query_all_pages b x floor receipt parents leaves).
Proof using M.
  intros S. unfold verify_stage. cbv zeta. alone. apply isolated_vectors, rows_isolated. intros s k.
  destruct (milvus_verify_version _ _ _ s) as [r s'] eqn:V. apply milvus_verify_rows in V as [V _]; [|done]. apply V.
Qed.

Lemma isolated_build :
  Leaves others_kept (build_and_publish env moves faults load_document_file make_artifact_metadata embed object_file parent_clock
    dense_dim query_all_pages b x sc).
Proof using M SC sc_version vid_stripped loaded.
  unfold build_and_publish. cbv zeta. apply leaves_bind; [apply _|alone|intros _]. apply leaves_bind; [apply _|alone|intros _].
  apply (leaves_bind_post (fun p => Forall own_chunk p.1 /\ Forall own_chunk p.2)); [apply isolated_parse| |].
  - intros w [parents leaves] w' H. apply parse_stage_inv in H as (_ & path & m & docs & EM & ED & -> & ->).
    pose proof (loaded _ _ _ EM ED) as F. rewrite Forall_forall in F. simpl.
    split; apply Forall_forall; intros c [Hc _]%list_elem_of_In%filter_In; apply F; by apply list_elem_of_In.
  - intros [parents leaves] [F1 F2]. simpl in F1, F2. apply leaves_bind; [apply _|by apply isolated_parent_stage|intros _].
    apply (leaves_bind_post (fun r => scope_stripped (rc_scope r))); [by apply isolated_vector_stage| |].
    + intros w r w'. apply receipt_stripped.
    + intros r Hr. apply leaves_bind; [apply _|by apply isolated_verify|intros _]. apply leaves_bind; [apply _|alone|intros _].
      apply leaves_bind; [apply _|apply leaves_publish; [apply _|exact M]|intros ?]. alone.
Qed.

Lemma isolated_failure e : Leaves others_kept (handle_build_failure env moves faults object_file b x sc e).
Proof using M SC sc_version b_version.
  assert (Leaves others_kept (fun w : PubWorld St C => get_stage w)) as G by (intros w; simpl; reflexivity).
  unfold handle_build_failure, fail_and_clean.
  destruct e; [|alone|..].
  all: apply leaves_bind; [apply _|exact G|]; intros stage; apply leaves_bind;
    [apply _|destruct (bool_decide _); [apply leaves_durable; [apply _|exact M]|alone]|]; intros []; [alone|];
    destruct x as [y|]; [alone|]; apply leaves_bind; [apply _| |intros _; alone]; apply leaves_bind;
    [apply _|apply leaves_record_failure; [apply _|exact M]|intros _]; apply leaves_bind; [apply _|apply isolated_clean|];
    intros []; alone.
Qed.
End isolation.

(** ** Isolation *)

Section isolated.
Context {St Emb C : Type} `{!MilvusServer St Emb} `{!MilvusLaws St Emb} `{!ParentCache C}.
Context (env : CatalogEnv).
Context (moves : nat -> Shared St C -> Shared St C) (faults : nat -> fault).
Context (nfc : pystr -> pystr) (sha256_hex : list N -> pystr).
Context (split_level_1 split_level_2 split_level_3 : pystr -> list pystr).
Context (pdf_load docx_load excel_load : pystr -> outcome (list RawDoc)).
Context (html_linear : pystr -> outcome (pystr * pystr)).
Context (max_pages max_page_characters : Z).
Context (embed : nat -> list pystr -> outcome (list Emb)).
Context (object_file : pystr -> option pystr).
Context (parent_clock : nat -> nat -> datetime) (dense_dim : Z) (query_all_pages : nat).
Abbreviation the_loader := (loader nfc sha256_hex split_level_1 split_level_2 split_level_3 pdf_load docx_load excel_load
  html_linear max_pages max_page_characters).

(** Chunk identifiers begin with their version and two colons. *)
Definition id_of_version (vid k : pystr) : Prop := exists rest, k = (vid +++ "::"%py +++ rest)%py.

Lemma chunk_id_stripped v f p l n :
  py_strip v = v -> py_nonempty v = true -> py_strip (chunk_id_text v f p l n) = chunk_id_text v f p l n.
Proof.
  intros S N. assert (exists c w, v = PyStr (c :: w) /\ is_space c = false) as (c & w & -> & Hc).
  { destruct v as [cps]. unfold py_strip in S. cbn [cps_of] in S. injection S as S.
    destruct (drop_space_head cps) as [E|(c & w & E & Hc)]; rewrite E in S; [by subst cps|].
    exists c. simpl in S. destruct (drop_space_app_nonspace (rev w) c Hc) as [l' E']. rewrite E', rev_app_distr in S. simpl in S.
    exists (rev l'). by rewrite <- S. }
  destruct (py_str_int_end n) as (a & d & E & Hd).
  assert (exists m, chunk_id_text (PyStr (c :: w)) f p l n = PyStr (c :: m ++ [d])) as [m ->]; [|by apply strip_ends].
  unfold chunk_id_text.
  exists (w ++ cps_of ("::"%py +++ f +++ "::p"%py +++ py_str_int p +++ "::l"%py +++ py_str_int l +++ "::"%py)%py ++ a).
  apply pystr_ext. rewrite !cps_app, E. cbn [cps_of]. rewrite <- app_comm_cons, <- !app_assoc. done.
Qed.

Lemma loaded_own vid path filename m docs :
  am_document_version_id m = vid -> py_strip vid = vid -> py_nonempty vid = true ->
  the_loader path filename m = Ret docs -> Forall (own_chunk vid (id_of_version vid)) docs.
Proof.
  intros Em S N H. pose proof (load_document_scope _ _ _ _ _ _ _ _ _ _ _ _ _ _ _ H) as F.
  assert (exists keys, ch_chunk_id <$> docs = (fun k : Z * (Z * Z) => chunk_id_text vid (sanitize_text nfc filename) k.1 k.2.1 k.2.2)
    <$> keys) as [keys K].
  { revert H. unfold loader, load_document. cbv zeta.
    assert (forall A (o : outcome A) a, wrapped o = Ret a -> o = Ret a) as W by (by intros A [a|[]] b).
    repeat match goal with |- context [if ?c then _ else _] => destruct c end; try done;
      first [intros H%W|intros H]; apply outcome_bind_inv in H as (raws & _ & H); unfold _load_from_langchain_docs in H;
      apply outcome_bind_inv in H as (u & _ & [_ _ _ (keys & K & _)]%load_pages_inv); rewrite Em in K; by exists keys. }
  rewrite Forall_forall in F |- *. intros c Hc. specialize (F c Hc). unfold chunk_scope, metadata_scope in F.
  injection F as _ _ _ F _. split; [congruence|].
  apply (list_elem_of_fmap_2 ch_chunk_id) in Hc. rewrite K in Hc. apply list_elem_of_fmap in Hc as ([p [l n]] & -> & _).
  rewrite chunk_id_stripped by done. by eexists.
Qed.

(** C12. A build touches only its own version. Take any set of versions and any set of
    files that the other processes leave alone while the build runs; they may do
    whatever they want to everything else, this version and its object included.
    Whether the build publishes, fails, loses calls, writes half of its rows or has to
    clean up after itself: every parent chunk and every vector row of those versions
    other than the build's own, of any tenant and in any collection, and every one of
    those files other than the version's own object are the same after the build and
    its error handling as before. At the start no row of those versions may sit under
    an identifier of the build's chunks, which begin with the version's id. *)
Theorem build_touches_only_its_version (watched watched_file : pystr -> bool) b x sc w r w' :
  let vid := vr_id (vb_version b) in
  let key := vr_source_object_key (vb_version b) in
  (forall n sh, left_alone object_file vid key watched watched_file (stores sh) (stores (moves n sh))) ->
  build_scope b = Ret sc -> plain_build nfc b ->
  unmixed vid (id_of_version vid) watched (pd_rows (sh_parents (pw_shared w))) ->
  try_except (build_and_publish env moves faults the_loader (make_metadata nfc) embed object_file parent_clock dense_dim
      query_all_pages b x sc) (handle_build_failure env moves faults object_file b x sc) w = (r, w') ->
  other_parents vid watched (pd_rows (sh_parents (pw_shared w'))) =
    other_parents vid watched (pd_rows (sh_parents (pw_shared w))) /\
  (forall k, other_vectors vid watched (sh_server (pw_shared w')) k ≡ₚ
     other_vectors vid watched (sh_server (pw_shared w)) k) /\
  other_files object_file key watched_file (sh_files (pw_shared w')) =
    other_files object_file key watched_file (sh_files (pw_shared w)).
Proof.
  intros vid key M' BS PL U H. pose proof (fun n sh => left_alone_kept object_file vid key (id_of_version vid)
    watched watched_file _ _ (M' n sh)) as M. destruct (build_scope_parts nfc b sc PL BS) as [SC E].
  assert (is_document_version_id sc = vid) as EV by by injection E.
  assert (py_strip vid = vid /\ py_nonempty vid = true) as [SV NV].
  { rewrite <- EV. unfold scope_stripped in SC. rewrite !Forall_cons in SC. by destruct SC as (_ & _ & _ & _ & ? & _). }
  assert (Leaves (others_kept object_file vid key (id_of_version vid) watched watched_file)
    (try_except (build_and_publish env moves faults the_loader (make_metadata nfc) embed object_file parent_clock dense_dim
      query_all_pages b x sc) (handle_build_failure env moves faults object_file b x sc))) as L.
  { apply leaves_try; [apply _| |intros e; by apply isolated_failure]. apply isolated_build; try done.
    intros path m docs MM D. eapply loaded_own; [|done|done|exact D].
    pose proof (make_metadata_scope _ _ _ PL MM) as ME. by injection ME. }
  specialize (L w). rewrite H in L. destruct (L U) as (_ & P & V & F). done.
Qed.
End isolated.
