(* ===== verification/PublicationWitness.v ===== *)
(** * A publication in the small

    A vector store kept in a map, with the laws of the server, and concrete runs to
    which the theorems on publications apply. *)

From S2P Require Import Prelude PyBase Errors Session CatalogSchema Catalog CatalogJobs CatalogCleanup CatalogInv CatalogSystem CatalogClaim CatalogEvolve CatalogPublish Chunking Filters FiltersProps VectorStore VectorProps ParentStore ParentProps Publication PublicationProps PublicationBuild PublicationIsolation.

Open Scope Z_scope.

(** ** A server *)

Abbreviation Rows := (gmap pystr (list (VectorRow unit))).
Definition rows_of (s : Rows) (c : pystr) : list (VectorRow unit) := default [] (s !! c).

Definition map_server : MilvusServer Rows unit :=
  mkMilvusServer Rows unit
    (fun c s => (Ret (bool_decide (is_Some (s !! c))), s))
    (fun _ s => (Ret (Some _CATALOG_SCHEMA_FIELDS), s))
    (fun _ _ _ s => (Ret tt, s))
    (fun c data s => (Ret (mkInsertResponse None None), <[c := rows_of s c ++ data]> s))
    (fun c text s => match parse_filter text with
                     | Some e => (Ret None, <[c := List.filter (fun x => negb (matches e (row_entity x))) (rows_of s c)]> s)
                     | None => (Raise (EValue "filter"%py), s)
                     end)
    (fun c text limit offset s => match parse_filter text with
                     | Some e => (Ret (take (Z.to_nat limit) (drop (Z.to_nat offset)
                                    (List.filter (fun x => matches e (row_entity x)) (rows_of s c)))), s)
                     | None => (Raise (EValue "filter"%py), s)
                     end).

Lemma map_server_laws : @MilvusLaws Rows unit map_server.
Proof.
  refine (@mkMilvusLaws _ _ map_server rows_of _ _ _ _ _ _); try done; simpl.
  - intros c data s r s' [= <- <-]. split; [intros k N; unfold rows_of; by rewrite lookup_insert_ne|].
    exists data. split_and!; [done| |done]. unfold rows_of at 1. by rewrite lookup_insert_eq.
  - intros c text e s r s' -> [= <- <-]. split; [intros k N; unfold rows_of; by rewrite lookup_insert_ne|].
    exists []. split_and!; [apply sublist_nil_l| |done]. unfold rows_of at 1. rewrite lookup_insert_eq. simpl. by rewrite app_nil_r.
  - intros c text e limit offset s r s' -> _ _ [= <- <-]. done.
Defined.

(** ** A build *)

Definition get_ok {A} (o : outcome A) : match o with Ret _ => A | Raise _ => unit end :=
  match o with Ret a => a | Raise _ => tt end.

(** The build of the first upload. *)
Definition build_1 : VersionBuild := Eval vm_compute in get_ok (load_build job_1 (Some "t"%py) (cat_run cs_reserved)).1.
Definition scope_1 : IndexVersionScope := Eval vm_compute in get_ok (build_scope build_1).

Lemma build_1_loaded : load_build job_1 (Some "t"%py) (cat_run cs_reserved) = (Ret build_1, cat_run cs_reserved).
Proof. vm_compute. reflexivity. Qed.

(** The world: the upload is on disk, the stores are empty. *)
Abbreviation World := (PubWorld Rows (gmap pystr Chunk)).
Definition world_of (cs : list CatalogCall) : World :=
  mkPubWorld (mkShared (cat_run cs) (mkParentDb ∅ ∅) ∅ {["a"%py]}) 0 "reserve"%py.
Definition no_moves (n : nat) (sh : Shared Rows (gmap pystr Chunk)) := sh.
Definition no_faults (n : nat) : fault := NoFault.

Definition pages (_ : pystr) : outcome (list RawDoc) := Ret [mkRawDoc (Some 1) None None (Some "one page"%py)].
Definition object_1 (key : pystr) : option pystr := if decide (key = "obj/a"%py) then Some "a"%py else None.

Definition run_build : World -> outcome PublicationOutcome * World :=
  @build_and_publish Rows unit (gmap pystr Chunk) map_server map_cache cat_env no_moves no_faults
    (loader (fun s => s) (fun _ => cat_hex 97) (fun s => [s]) (fun s => [s]) (fun s => [s]) pages pages pages
       (fun _ => Raise EKey) 10 100)
    (make_metadata (fun s => s)) (fun _ l => Ret ((fun _ => tt) <$> l)) object_1 (fun _ _ => 5) 8 1 build_1 None scope_1.

Lemma no_moves_catalog n sh :
  rtc (catalog_step cat_env) (w_db (sh_catalog sh)) (w_db (sh_catalog (no_moves n sh))).
Proof. apply rtc_refl. Qed.

Definition is_ok {A B} (p : outcome A * B) : bool := match p.1 with Ret _ => true | Raise _ => false end.


(** ** A build that fails *)

Definition run_failure : World -> outcome PublicationOutcome * World :=
  @handle_build_failure Rows unit (gmap pystr Chunk) map_server map_cache cat_env no_moves no_faults object_1 build_1 None scope_1
    (ERuntime "Milvus exact verification failed"%py).

Lemma build_1_of : build_of (w_db (cat_run cs_reserved)) build_1.
Proof. eapply loaded_build_of; [apply (catalog_reachable_inv cat_env), cat_run_reachable|apply build_1_loaded]. Qed.

Lemma failed_build_is_cleaned_safely_witness :
  exists e w', run_failure (world_of cs_reserved) = (Raise e, w') /\ sh_files (pw_shared w') = ∅ /\
    cleaned_when_dead no_moves version_1 (world_of cs_reserved) w'.
Proof.
  assert (match run_failure (world_of cs_reserved) with (Raise _, w) => bool_decide (sh_files (pw_shared w) = ∅) | _ => false end
          = true) as OK by (vm_compute; reflexivity).
  destruct (run_failure (world_of cs_reserved)) as [[o|e] w'] eqn:E; [discriminate OK|].
  exists e, w'. split; [reflexivity|]. split; [apply (bool_decide_unpack _); rewrite OK; exact I|].
  destruct (@failed_build_is_cleaned_safely Rows unit (gmap pystr Chunk) map_server map_cache cat_env no_moves no_faults object_1
    no_moves_catalog build_1 None scope_1 (ERuntime "Milvus exact verification failed"%py) (world_of cs_reserved) (Raise e) w'
    (cat_run_reachable cs_reserved) build_1_of E) as (_ & K & _). exact K.
Defined.

(** ** An answer that is lost *)

Definition build_2 : VersionBuild := Eval vm_compute in get_ok (load_build job_1 (Some "t"%py) (cat_run cs_staged)).1.
Definition lose_first (n : nat) : fault := match n with O => FaultAfter | _ => NoFault end.

Lemma build_2_of : build_of (w_db (cat_run cs_staged)) build_2.
Proof.
  apply (loaded_build_of job_1 (Some "t"%py) (cat_run cs_staged) build_2 (cat_run cs_staged));
    [apply (catalog_reachable_inv cat_env), cat_run_reachable|]. vm_compute. reflexivity.
Qed.

Lemma publication_outcome_is_reliable_witness :
  exists r w', @_publish_with_reconciliation Rows (gmap pystr Chunk) no_moves lose_first build_2 (Some exec_1)
    (world_of cs_staged) = (Ret r, w') /\ pr_published r = true.
Proof.
  assert (is_ok (after_publish no_moves build_2 (Some exec_1) (world_of cs_staged)) = true) as OK by (vm_compute; reflexivity).
  destruct (after_publish no_moves build_2 (Some exec_1) (world_of cs_staged)) as [[r1|e] sh1] eqn:E; [|discriminate OK].
  assert (exists j v d, published_at (w_db (sh_catalog sh1)) job_1 j v d) as (j & v & d & P).
  { pose proof (catalog_reachable_inv cat_env _ (cat_run_reachable cs_staged)) as I. unfold after_publish in E.
    destruct (publish _ _ _ _ _) as [r c] eqn:EP. injection E as -> <-. apply publish_result in EP as (j & v & d & P & _); [|done].
    by exists j, v, d. }
  destruct (@publication_outcome_is_reliable Rows (gmap pystr Chunk) cat_env no_moves lose_first no_moves_catalog build_2
    (Some exec_1) (world_of cs_staged) (cat_run_reachable cs_staged) build_2_of) as [_ K].
  destruct (K r1 sh1 j v d E eq_refl eq_refl P) as (r & w' & H & Hp & _). exists r, w'. split; [exact H|exact Hp].
Defined.

(** ** Another version's file *)

Definition shared_disk : World := mkPubWorld (mkShared (cat_run cs_reserved) (mkParentDb ∅ ∅) ∅ {["a"%py; "z"%py]}) 0 "reserve"%py.

(** A call fails during verification: the build fails and is cleaned up. *)
Definition lose_verify (n : nat) : fault := match n with 17%nat => FaultBefore | _ => NoFault end.

(** Meanwhile another process uploads a file. *)
Definition busy_moves (n : nat) (sh : Shared Rows (gmap pystr Chunk)) :=
  mkShared (sh_catalog sh) (sh_parents sh) (sh_server sh) (sh_files sh ∪ {["y"%py]}).
Definition watch_z (f : pystr) : bool := bool_decide (f = "z"%py).

Definition run_whole : World -> outcome PublicationOutcome * World :=
  try_except
    (@build_and_publish Rows unit (gmap pystr Chunk) map_server map_cache cat_env busy_moves lose_verify
      (loader (fun s => s) (fun _ => cat_hex 97) (fun s => [s]) (fun s => [s]) (fun s => [s]) pages pages pages
         (fun _ => Raise EKey) 10 100)
      (make_metadata (fun s => s)) (fun _ l => Ret ((fun _ => tt) <$> l)) object_1 (fun _ _ => 5) 8 1 build_1 None scope_1)
    (@handle_build_failure Rows unit (gmap pystr Chunk) map_server map_cache cat_env busy_moves lose_verify object_1 build_1 None
      scope_1).

Lemma build_touches_only_its_version_witness :
  exists e w', run_whole shared_disk = (Raise e, w') /\ sh_files (pw_shared w') = {["y"%py; "z"%py]} /\
    other_files object_1 "obj/a"%py watch_z (sh_files (pw_shared w')) =
      other_files object_1 "obj/a"%py watch_z {["a"%py; "z"%py]}.
Proof.
  assert (match run_whole shared_disk with (Raise _, w) => bool_decide (sh_files (pw_shared w) = {["y"%py; "z"%py]}) | _ => false end
          = true) as OK by (vm_compute; reflexivity).
  destruct (run_whole shared_disk) as [[o|e] w'] eqn:E; [discriminate OK|].
  exists e, w'. split; [reflexivity|]. split; [apply (bool_decide_unpack _); rewrite OK; exact I|].
  apply (@build_touches_only_its_version Rows unit (gmap pystr Chunk) map_server map_server_laws map_cache cat_env busy_moves
           lose_verify (fun s => s) (fun _ => cat_hex 97) (fun s => [s]) (fun s => [s]) (fun s => [s]) pages pages pages
           (fun _ => Raise EKey) 10 100 (fun _ l => Ret ((fun _ => tt) <$> l)) object_1 (fun _ _ => 5) 8 1
           (fun _ => true) watch_z build_1 None scope_1 shared_disk (Raise e) w').
  - intros n sh T. split; [exact T|]. split; [reflexivity|]. split; [reflexivity|]. apply set_eq. intros f.
    unfold other_files. simpl. rewrite !elem_of_filter, !elem_of_difference, elem_of_union, !elem_of_singleton.
    unfold watch_z. rewrite bool_decide_eq_true. clear. naive_solver.
  - vm_compute. reflexivity.
  - unfold plain_build. repeat constructor.
  - split; intros k r Hk; simpl in Hk; rewrite lookup_empty in Hk; discriminate.
  - exact E.
Defined.
