(* ===== verification/WorkerProps.v ===== *)
(** * The worker settles its index jobs

    A turn of [backend/documents/worker.py] on an index job that ends without an
    error leaves the job published, failed, given up, or with no worker - or the
    worker had lost it. *)

From S2P Require Import Prelude PyBase Errors Session CatalogSchema Catalog CatalogJobs CatalogCleanup CatalogInv CatalogSteps CatalogSafety CatalogPreserve CatalogPreserve2 CatalogSystem CatalogClaim CatalogEvolve CatalogPublish Chunking Filters VectorStore VectorProps ParentStore ParentProps Publication PublicationProps PublicationBuild Worker PublicationWitness.

From Stdlib Require Import QArith.

Open Scope Z_scope.

(** The job can no longer be worked on under the token, at an instant. *)
Definition out_of_hands (db : CatalogDb) (jid : pystr) (x : IndexJobExecution) (t : datetime) : Prop :=
  exists j, c_jobs db !! jid = Some j /\ (index_terminal (ij_status j) = true \/ stale j x t = true).

(** The last instant the database clock was read at. *)
Definition last_reading (c : WorldOf CatalogDb) : datetime := w_clock c (pred (w_tick c)).

Lemma bind_raised {D A B} (m : Sess D A) (k : A -> Sess D B) w e w' :
  @mbind (Sess D) M_bind _ _ k m w = (Raise e, w') ->
  m w = (Raise e, w') \/ exists a w1, m w = (Ret a, w1) /\ k a w1 = (Raise e, w').
Proof. unfold mbind, M_bind. destruct (m w) as [[a|e1] w1]; [eauto|]. intros [= -> ->]. by left. Qed.

Lemma raise_if_raised {D} b e1 (w : WorldOf D) e w' : raise_if b e1 w = (Raise e, w') -> b = true /\ e = e1 /\ w' = w.
Proof. unfold raise_if, raise. destruct b; [|done]. by intros [= -> ->]. Qed.

Lemma rolled_back {D} `{!Store D} {A} (m : Sess D A) w e w' :
  transaction m w = (Raise e, w') -> is_conflict e = true -> exists w1, m w = (Raise e, w1) /\ w' = rollback w w1.
Proof.
  unfold transaction. destruct (m w) as [[a|e1] w1]; [|intros [= -> <-]; eauto]. destruct (store_ok _); [done|]. by intros [= <- _].
Qed.

(** A job that has not ended is the pending candidate of its document. *)
Lemma candidate_accepted db j v d w e w' :
  catalog_inv db -> graph_at db j v d -> _assert_candidate d j v (ij_publication_fence j) w = (Raise e, w') ->
  index_terminal (ij_status j) = true /\ w' = w.
Proof.
  intros I G H. destruct (index_terminal (ij_status j)) eqn:T.
  - split; [done|]. apply bind_raised in H as [(_ & _ & ->)%raise_if_raised|(? & ? & [? _]%raise_if_inv & _)]; congruence.
  - exfalso. destruct (graph_cell _ _ _ _ I G) as [P _]. destruct (phase_live_job _ _ _ j P eq_refl T) as (_ & Hp & Hd & Hf).
    revert H. unfold _assert_candidate. rewrite T, Hp, Hd, Hf, Z.eqb_refl. rewrite bool_decide_eq_false_2 by naive_solver.
    rewrite bool_decide_eq_false_2 by naive_solver. done.
Qed.

(** A lease that is refused for a conflict is lost. *)
Lemma lease_refused jid x w e w' :
  catalog_inv (w_db w) -> assert_index_lease jid x None w = (Raise e, w') -> is_conflict e = true ->
  out_of_hands (w_db w') jid x (last_reading w').
Proof.
  intros I H K. apply rolled_back in H as (w1 & H & ->); [|done]. simpl.
  apply bind_raised in H as [H|([[[j v] d] k] & w2 & (-> & Hj & Hv & Hd & _)%job_graph_inv & H)].
  { exfalso. unfold _job_graph in H. apply bind_raised in H as [[=]|(db & w2 & _ & H)]. unfold require in H.
    destruct (_ ≫= _); [done|]. injection H as <- _. done. }
  destruct (graph_at_intro _ _ _ _ _ I Hj Hv Hd) as [G Ei]. cbn beta iota in H.
  apply bind_raised in H as [[=]|(t & w2 & C & H)]. pose proof (lease_clock_now _ _ _ C) as Et.
  injection C as _ C. subst w2. exists j. split; [done|].
  apply bind_raised in H as [(B & _ & ->)%raise_if_raised|(? & w2 & [_ ->]%raise_if_inv & H)].
  - right. rewrite Et in B. unfold last_reading. simpl. unfold stale. rewrite bool_decide_not in B. exact B.
  - left. apply bind_raised in H as [[T _]%(candidate_accepted (w_db w))|(? & w2 & R & H)]; [done|done|done|].
    exfalso. assert (w2 = set_w_tick (S (w_tick w)) w) as ->.
    { unfold _assert_candidate in R. by repeat (apply bind_inv in R as (? & ? & [_ ->]%raise_if_inv & R)) ; apply raise_if_inv in R as [_ ->]. }
    destruct (document_record_run d (set_w_tick (S (w_tick w)) w) I (ga_doc _ _ _ _ G)) as (rec & Er & _).
    unfold version_build in H. by rewrite (bind_run _ _ _ _ _ Er) in H.
Qed.

(** A lease that is granted shows the job. *)
Lemma lease_granted jid x w b w' :
  catalog_inv (w_db w) -> assert_index_lease jid x None w = (Ret b, w') ->
  jr_id (vb_job b) = jid /\ exists j, c_jobs (w_db w') !! jid = Some j /\ jr_status (vb_job b) = ij_status j.
Proof.
  intros I H. assert (w_db w' = w_db w) as -> by (pose proof (reads_assert_lease jid x None w) as E; by rewrite H in E).
  apply transaction_inv in H as [H _].
  apply bind_inv in H as ([[[j v] d] k] & w1 & (-> & Hj & Hv & Hd & _)%job_graph_inv & H). cbn beta iota in H.
  destruct (graph_at_intro _ _ _ _ _ I Hj Hv Hd) as [_ Ei].
  do 3 apply bind_inv in H as (? & ? & _ & H). unfold version_build in H. apply bind_inv in H as (? & ? & _ & [<- _]%ret_inv).
  simpl. split; [done|]. by exists j.
Qed.

(** A retry leaves the job without a worker, or ends it. *)
Lemma retry_releases env jid x delay code detail w r w' t :
  catalog_inv (w_db w) -> schedule_index_retry env jid x delay code detail None w = (Ret r, w') ->
  out_of_hands (w_db w') jid x t.
Proof.
  intros I H. unfold schedule_index_retry in H. apply bind_inv in H as (? & w0 & [_ ->]%require_inv & H).
  apply bind_inv in H as (? & w0 & ->%required_text_inv & H). apply transaction_inv in H as [H _].
  apply bind_inv in H as ([[[j v] d] k] & w1 & (-> & Hj & Hv & Hd & _)%job_graph_inv & H). cbn beta iota in H.
  destruct (graph_at_intro _ _ _ _ _ I Hj Hv Hd) as [_ Ei]. apply bind_inv in H as (clock & w1 & _ & H).
  apply bind_inv in H as (? & w2 & _ & H). apply bind_inv in H as (? & w3 & (_ & T & _)%assert_candidate_inv & H).
  rewrite <- Ei. destruct (_ <=? _).
  - unfold _dead_letter_locked in H. apply bind_inv in H as (? & ? & _ & H).
    rewrite bool_decide_eq_false_2 in H by (intros E; by rewrite E in T). apply bind_inv in H as (? & ? & _ & H).
    apply saved_job in H; [|intros u; frame]. eexists. split; [exact H|]. by left.
  - apply saved_job in H; [|intros u; frame]. eexists. split; [exact H|]. by right.
Qed.

Section settled.
Context {St Emb C : Type} `{!MilvusServer St Emb} `{!ParentCache C}.
Context (env : CatalogEnv) (config : DocumentPublicationConfig).
Context (moves : nat -> Shared St C -> Shared St C) (faults : nat -> fault).
Context (load_document_file : pystr -> pystr -> DocumentArtifactMetadata -> outcome (list Chunk)).
Context (make_artifact_metadata : DocumentArtifactMetadata -> outcome DocumentArtifactMetadata).
Context (embed : nat -> list pystr -> outcome (list Emb)).
Context (object_file : pystr -> option pystr).
Context (parent_clock : nat -> nat -> datetime) (dense_dim : Z) (query_all_pages : nat).
Context (catalog_moves : forall n sh, rtc (catalog_step env) (w_db (sh_catalog sh)) (w_db (sh_catalog (moves n sh)))).
Abbreviation Pub := (Act (PubWorld St C)).

Lemma catalogued_publication b x : Catalogued env (_publish_with_reconciliation moves faults b x).
Proof using catalog_moves. unfold _publish_with_reconciliation. cbv zeta. catalogues. Qed.

(** *** The build through the catalogue *)

Lemma catalogued_build b x sc :
  Catalogued env (build_and_publish env moves faults load_document_file make_artifact_metadata embed object_file parent_clock
    dense_dim query_all_pages b x sc).
Proof using catalog_moves.
  unfold build_and_publish. cbv zeta. apply catalogued_bind; [apply catalogued_set_stage|intros _].
  apply catalogued_bind; [by apply catalogued_step|intros _]. apply catalogued_bind; [by apply catalogued_parse|intros [parents leaves]].
  apply catalogued_bind; [by apply catalogued_parents|intros _]. apply catalogued_bind; [by apply catalogued_vectors|intros receipt].
  apply catalogued_bind; [by apply catalogued_verify|intros _]. apply catalogued_bind; [apply catalogued_set_stage|intros _].
  apply catalogued_bind; [apply catalogued_publication|intros result]. apply catalogued_ret.
Qed.

Lemma catalogued_failure b x sc e : Catalogued env (handle_build_failure env moves faults object_file b x sc e).
Proof using catalog_moves.
  assert (Catalogued env (fun w : PubWorld St C => get_stage w)) as G by (intros w; simpl; reflexivity).
  unfold handle_build_failure, fail_and_clean, _record_failure_before_cleanup, _cleanup_candidate, succeeded, delete_vectors,
    delete_parents, _unlink_version_object, _staged_candidate_is_durable, _candidate_is_terminal_and_unreferenced.
  destruct e; catalogues; exact G.
Qed.

Abbreviation run_job := (_run_once env config moves faults load_document_file make_artifact_metadata embed object_file parent_clock
  dense_dim query_all_pages).

Lemma catalogued_staged b x : Catalogued env (_publish_staged env moves faults object_file b (Some x)).
Proof using catalog_moves.
  unfold _publish_staged. cbv zeta. apply catalogued_bind; [apply catalogued_pure|intros sc]. apply catalogued_try.
  - apply catalogued_bind; [by apply catalogued_guard|intros _]. apply catalogued_bind; [apply catalogued_publication|intros r].
    apply catalogued_ret.
  - intros []; catalogues.
Qed.

Lemma catalogued_run_once jid x : Catalogued env (run_job jid (Some x)).
Proof using catalog_moves.
  unfold _run_once, _recorded_build_profile, _assert_worker_build_profile. apply catalogued_bind; [catalogues|intros b]. cbv zeta.
  destruct (bool_decide _); [apply catalogued_ret|]. destruct (dead_job _); [apply catalogued_throw|].
  apply catalogued_bind; [catalogues|intros _]. destruct (bool_decide _); [apply catalogued_staged|].
  apply catalogued_bind; [catalogues|intros _]. apply catalogued_bind; [apply catalogued_pure|intros sc].
  apply catalogued_try; [apply catalogued_build|intros e; apply catalogued_failure].
Qed.

Lemma reraised {A} e a (w : PubWorld St C) (r : A) w' : reraise e a w = (Ret r, w') -> False.
Proof. by destruct e. Qed.

Lemma build_completes b x sc w o w' :
  catalog_inv (catalog_of w) ->
  build_and_publish env moves faults load_document_file make_artifact_metadata embed object_file parent_clock dense_dim
    query_all_pages b x sc w = (Ret o, w') -> exists j v d, published_at (catalog_of w') (jr_id (vb_job b)) j v d.
Proof using catalog_moves.
  intros I H. unfold build_and_publish in H. cbv zeta in H.
  apply act_bind_inv in H as (? & w1 & [= <- <-] & H). apply act_bind_inv in H as (? & w2 & H2 & H).
  apply (catalogued_run env) in H2 as [I2 _]; [|by apply catalogued_step|done].
  apply act_bind_inv in H as ([parents leaves] & w3 & H3 & H).
  apply (catalogued_run env) in H3 as [I3 _]; [|by apply catalogued_parse|done]. apply act_bind_inv in H as (? & w4 & H4 & H).
  apply (catalogued_run env) in H4 as [I4 _]; [|by apply catalogued_parents|done]. apply act_bind_inv in H as (receipt & w5 & H5 & H).
  apply (catalogued_run env) in H5 as [I5 _]; [|by apply catalogued_vectors|done]. apply act_bind_inv in H as (? & w6 & H6 & H).
  apply (catalogued_run env) in H6 as [I6 _]; [|by apply catalogued_verify|done].
  apply act_bind_inv in H as (? & w7 & [= <- <-] & H). apply act_bind_inv in H as (result & w8 & H8 & [= <- <-]).
  by apply (publish_returned env) in H8.
Qed.

Lemma checked_profiles b (w : PubWorld St C) u w' :
  _recorded_build_profile env b w = (Ret u, w') \/ _assert_worker_build_profile env config b w = (Ret u, w') -> w' = w.
Proof.
  unfold _recorded_build_profile, _assert_worker_build_profile. cbv zeta. intros [H|H]; revert H; case_bool_decide; try done;
    by intros [= _ ->].
Qed.

(** A run that returns has completed its job. *)
Lemma run_completes jid x w o w' :
  catalog_inv (catalog_of w) -> run_job jid (Some x) w = (Ret o, w') ->
  exists j, c_jobs (catalog_of w') !! jid = Some j /\ ij_status j = J_COMPLETED.
Proof using catalog_moves.
  intros I H. unfold _run_once in H. apply act_bind_inv in H as (b & w1 & (c & L & Ec)%on_catalog_ret & H).
  destruct (move_forward env moves catalog_moves w I) as [I1 _]. cbv zeta in H.
  assert (catalog_inv (catalog_of w1)) as I2.
  { rewrite Ec. pose proof (reads_assert_lease jid x None (sh_catalog (moves (pw_calls w) (pw_shared w)))) as R.
    rewrite L in R. simpl in R. by rewrite R. }
  apply lease_granted in L as (Ei & j & Hj & Es); [|done]. rewrite <- Ec in Hj. clear c Ec.
  assert (forall db, (exists j v d, published_at db (jr_id (vb_job b)) j v d) ->
    exists j, c_jobs db !! jid = Some j /\ ij_status j = J_COMPLETED) as K.
  { intros db (j1 & v & d & P1 & P2 & _). rewrite Ei in P1. by exists j1. }
  destruct (bool_decide (jr_status _ = J_COMPLETED)) eqn:B1.
  { injection H as _ <-. apply bool_decide_eq_true in B1. exists j. by rewrite <- Es. }
  destruct (dead_job _); [done|]. apply act_bind_inv in H as (? & w2 & R & H).
  apply (or_introl (B := _assert_worker_build_profile env config b w1 = (Ret _, w2))), checked_profiles in R as ->.
  destruct (bool_decide (jr_status _ = J_STAGED)).
  - unfold _publish_staged in H. apply act_bind_inv in H as (sc & w2 & [_ ->]%pure_inv & H).
    apply try_ret in H as [H|(e & w2 & _ & H)].
    + apply act_bind_inv in H as (? & w2 & G & H). apply (catalogued_run env) in G as [I3 _]; [|by apply catalogued_guard|done].
      apply act_bind_inv in H as (r & w3 & H & [= _ <-]). apply K. by apply (publish_returned env) in H.
    + destruct e; first [done|by apply reraised in H].
  - apply act_bind_inv in H as (? & w2 & R & H).
    apply (or_intror (A := _recorded_build_profile env b w1 = (Ret _, w2))), checked_profiles in R as ->.
    apply act_bind_inv in H as (sc & w2 & [_ ->]%pure_inv & H). apply try_ret in H as [H|(e & w2 & _ & H)].
    + apply K. by eapply build_completes.
    + exfalso. unfold handle_build_failure in H. destruct e; [|done|..]; apply act_bind_inv in H as (stage & w3 & _ & H);
        apply act_bind_inv in H as ([] & w4 & _ & H); first [done|by apply reraised in H].
Qed.

(** *** A turn *)

Context (worker_id : pystr) (wconfig : IndexingWorkerConfig).
Context (ownership_lost : nat -> bool) (draws : nat -> Q -> Q).
Abbreviation run_index := (_run_index env config moves faults load_document_file make_artifact_metadata embed object_file
  parent_clock dense_dim query_all_pages worker_id wconfig ownership_lost draws).
Abbreviation last_read w := (last_reading (sh_catalog (pw_shared w))).

Lemma on_catalog_raised {A} (m : Sess CatalogDb A) w e w' :
  on_catalog moves faults m w = (Raise e, w') -> is_conflict e = true ->
  m (sh_catalog (moves (pw_calls w) (pw_shared w))) = (Raise e, sh_catalog (pw_shared w')).
Proof.
  unfold on_catalog, external. cbv zeta. destruct (faults _).
  - destruct (m _) as [r c]. by intros [= -> <-].
  - by intros [= <- <-].
  - destruct (m _) as [[a0|e0] c]; [by intros [= <- <-]|]. by intros [= -> <-].
Qed.

Lemma ownership_refused b x w w' :
  catalog_inv (catalog_of w) -> _still_owns_index moves faults b x w = (Ret false, w') ->
  out_of_hands (catalog_of w') (jr_id (vb_job b)) x (last_read w').
Proof using catalog_moves.
  intros I H. destruct (move_forward env moves catalog_moves w I) as [I1 _].
  unfold _still_owns_index in H. apply try_ret in H as [H|(e & w1 & H1 & H)].
  { by apply act_bind_inv in H as (? & ? & _ & [=]). }
  destruct (is_conflict e) eqn:E; [|done]. injection H as <-.
  assert (on_catalog moves faults (assert_index_lease (jr_id (vb_job b)) x None) w = (Raise e, w1)) as R.
  { unfold mbind, Act_bind in H1. destruct (on_catalog _ _ _ w) as [[a|e0] w0]; [done|]. by injection H1 as -> ->. }
  apply on_catalog_raised in R; [|done]. by apply lease_refused in R.
Qed.

(** C13. The worker settles what it claimed. When its turn on an index job ends
    without an error, then either the build returned and its job is completed; or the
    build raised, and either the heart beat had reported that the lease was lost, or
    the catalogue shows that the job is out of this worker's hands: it has ended - as
    failed or given up, or another process ended it -, or it has no owner, another
    owner, another execution fence, or a lease that had run out when the database
    clock was last read. So the worker never walks away from a job that would still
    count as being worked on, whatever other processes do and whichever calls fail. *)
Theorem index_job_is_settled b w w' :
  let x := mkIndexJobExecution worker_id (jr_execution_fence (vb_job b)) in
  let jid := jr_id (vb_job b) in
  catalog_reachable env (catalog_of w) -> run_index b w = (Ret tt, w') ->
  match run_job jid (Some x) w with
  | (Ret _, w1) => w' = w1 /\ exists j, c_jobs (catalog_of w') !! jid = Some j /\ ij_status j = J_COMPLETED
  | (Raise _, w1) => ownership_lost (pw_calls w1) = true \/ out_of_hands (catalog_of w') jid x (last_read w')
  end.
Proof using catalog_moves.
  intros x jid RE H. pose proof (catalog_reachable_inv env _ RE) as I. unfold _run_index in H. cbv zeta in H.
  change (mkIndexJobExecution worker_id (jr_execution_fence (vb_job b))) with x in H. change (jr_id (vb_job b)) with jid in H.
  unfold try_base in H. unfold mbind at 1, Act_bind at 1 in H.
  destruct (run_job jid (Some x) w) as [[o|e] w1] eqn:R.
  { injection H as <-. split; [done|]. by eapply run_completes. }
  apply (catalogued_run env) in R as [I1 _]; [|apply catalogued_run_once|done].
  apply act_bind_inv in H as (lost & w2 & [= <- <-] & H). destruct (ownership_lost _) eqn:L; [by left|right].
  apply act_bind_inv in H as (owns & w2 & O & H). destruct owns; simpl in H.
  2: { injection H as <-. by apply ownership_refused in O. }
  apply (catalogued_run env) in O as [I2 _]; [|unfold _still_owns_index; catalogues|done].
  destruct (_public_error e) as [[code retryable] stage]. destruct retryable.
  - apply act_bind_inv in H as (delay & w3 & [= <- <-] & H). apply act_bind_inv in H as (r & w3 & (c & S & Ec)%on_catalog_ret & [= <-]).
    destruct (move_forward env moves catalog_moves w2 I2) as [I3 _]. rewrite Ec. by eapply retry_releases.
  - apply act_bind_inv in H as (r & w3 & (c & S & Ec)%on_catalog_ret & [= <-]).
    destruct (move_forward env moves catalog_moves w2 I2) as [I3 _]. rewrite Ec.
    apply fail_ends in S as (j & Hj & Sj); [|done]. exists j. split; [done|]. left. by rewrite Sj.
Qed.
End settled.

(** ** Two turns *)

Definition build_3 : VersionBuild := Eval vm_compute in get_ok (load_build job_1 (Some "t"%py) (cat_run cs_claimed)).1.
Definition worker_config : DocumentPublicationConfig :=
  mkDocumentPublicationConfig "t"%py "kb"%py "p1"%py "c1"%py "e1"%py "i1"%py "col"%py "up"%py 3.
Definition outage_at (k n : nat) : fault := if Nat.eqb n k then FaultBefore else NoFault.

(** The turn of the worker on the claimed job when the [k]th call is lost. *)
Definition turn (k : nat) : World -> outcome unit * World :=
  @_run_index Rows unit (gmap pystr Chunk) map_server map_cache cat_env worker_config no_moves (outage_at k)
    (loader (fun s => s) (fun _ => cat_hex 97) (fun s => [s]) (fun s => [s]) (fun s => [s]) pages pages pages
       (fun _ => Raise EKey) 10 100)
    (make_metadata (fun s => s)) (fun _ l => Ret ((fun _ => tt) <$> l)) object_1 (fun _ _ => 5) 8 1 "w1"%py
    (mkIndexingWorkerConfig 1 60 10 1 10 0) (fun _ => false) (fun _ _ => 0%Q) build_3.

Definition job_after (k : nat) : option (IndexJobStatus * option pystr) :=
  match turn k (world_of cs_claimed) with
  | (Ret _, w) => (fun j => (ij_status j, ij_owner_worker_id j)) <$> c_jobs (catalog_of w) !! job_1
  | _ => None
  end.

Lemma index_job_is_settled_witness :
  (exists w', turn 10 (world_of cs_claimed) = (Ret tt, w') /\ out_of_hands (catalog_of w') job_1 exec_1 (last_reading (sh_catalog (pw_shared w'))))
  /\ job_after 10 = Some (J_RETRY_WAIT, None) /\ job_after 100 = Some (J_COMPLETED, None).
Proof.
  split; [|split; vm_compute; reflexivity].
  assert (is_ok (turn 10 (world_of cs_claimed)) = true) as OK by (vm_compute; reflexivity).
  destruct (turn 10 (world_of cs_claimed)) as [[[]|e] w'] eqn:E; [|discriminate OK]. exists w'. split; [reflexivity|].
  unfold turn in E.
  pose proof (@index_job_is_settled Rows unit (gmap pystr Chunk) map_server map_cache cat_env worker_config no_moves (outage_at 10)
    (loader (fun s => s) (fun _ => cat_hex 97) (fun s => [s]) (fun s => [s]) (fun s => [s]) pages pages pages
       (fun _ => Raise EKey) 10 100)
    (make_metadata (fun s => s)) (fun _ l => Ret ((fun _ => tt) <$> l)) object_1 (fun _ _ => 5) 8 1 no_moves_catalog "w1"%py
    (mkIndexingWorkerConfig 1 60 10 1 10 0) (fun _ => false) (fun _ _ => 0%Q) build_3 (world_of cs_claimed) w'
    (cat_run_reachable cs_claimed) E) as K. cbv zeta in K.
  assert (is_ok (@_run_once Rows unit (gmap pystr Chunk) map_server map_cache cat_env worker_config no_moves (outage_at 10)
    (loader (fun s => s) (fun _ => cat_hex 97) (fun s => [s]) (fun s => [s]) (fun s => [s]) pages pages pages
       (fun _ => Raise EKey) 10 100)
    (make_metadata (fun s => s)) (fun _ l => Ret ((fun _ => tt) <$> l)) object_1 (fun _ _ => 5) 8 1 job_1 (Some exec_1)
    (world_of cs_claimed)) = false) as NO by (vm_compute; reflexivity).
  change (jr_id (vb_job build_3)) with job_1 in K. change (mkIndexJobExecution "w1"%py (jr_execution_fence (vb_job build_3))) with exec_1 in K.
  destruct (_run_once _ _ _ _ _ _ _ _ _ _ _ _ _ _) as [[o|e] w1]; [discriminate NO|]. destruct K as [K|K]; [discriminate K|exact K].
Defined.

(** A catalogue call that is lost in the parse stage fails the job for good, while the
    same outage in any other stage is retried. *)
Example parse_outage_is_permanent : job_after 2 = Some (J_FAILED, None) /\ job_after 1 = Some (J_RETRY_WAIT, None).
Proof. vm_compute. by split. Qed.
