(* ===== verification/EvaluationWorker.v ===== *)
(** * The evaluation worker

    [backend/evaluation/worker.py]: a turn claims a job, runs its queued cases one by one
    and scores them; a cancellation ends the job as cancelled, an exception as failed
    with what has been observed so far. Other processes act before every access of the
    worker to the tables ([between]); among them is the worker's own heart-beat thread,
    whose report that the job is lost is an oracle. Running a case, scoring, and the
    description of an exception that has no [AppError] value here are parameters. The
    theorem is that a turn ends and settles the job it has claimed. *)

From S2P Require Import Prelude PyBase Errors RunState Session Schema Effects RunRepo CatalogSchema Evaluation EvaluationMoves EvaluationProps VectorStore VectorProps Publication Worker WorkerProps.

Open Scope Z_scope.

Record EvalWorkerState := mkEvalWorkerState {
  es_calls : nat;
  es_active_case_id : option pystr;
  es_world : WorldOf EvalDb
}.
Abbreviation EW := (Act EvalWorkerState).

Section worker.
Context (env : EvalEnv) (between : nat -> list EvalCall) (faults : nat -> fault) (heartbeat_error : nat -> bool) (locked : nat -> pystr -> bool).
(** [runtime.execute_case], by the access at which it is called. *)
Context (execute_case : nat -> pystr -> RagEvalCase -> ModelCatalogSnapshot -> outcome CaseExecution).
(** [evaluate_rag] on the data set, the observations under its fingerprint, policy,
    baseline and metadata. *)
Context (evaluate_rag : RagEvalDataset -> pystr -> list RagEvalObservation -> json -> option RagEvalReport -> json -> outcome RagEvalReport).
Context (other_error : exn -> PublicError) (rag_source_fingerprint : outcome pystr) (text_of : json -> pystr).
Context (worker_id : pystr) (lease_seconds : Z).

(** One access to the tables: the others act, and the call may be lost before it takes
    effect or its answer after it did. *)
Definition on_tables {A} (m : EM A) : EW A := fun s =>
  let n := es_calls s in
  let w := run_calls env (between n) (es_world s) in
  match faults n with
  | NoFault => let '(r, w) := m w in (r, mkEvalWorkerState (S n) (es_active_case_id s) w)
  | FaultBefore => (Raise outage, mkEvalWorkerState (S n) (es_active_case_id s) w)
  | FaultAfter =>
      let '(r, w) := m w in
      (match r with Ret _ => Raise outage | Raise e => Raise e end, mkEvalWorkerState (S n) (es_active_case_id s) w)
  end.
Definition set_active (c : option pystr) : EW unit := fun s => (Ret tt, mkEvalWorkerState (es_calls s) c (es_world s)).

Definition claimed_id (claimed : ClaimedRagEvaluationJob) : pystr := gj_id (jbr_row (cl_job claimed)).
Definition claimed_token (claimed : ClaimedRagEvaluationJob) : Z := gj_fencing_token (jbr_row (cl_job claimed)).

(** [_report_metadata] *)
Definition safe_models (s : ModelCatalogSnapshot) : json :=
  JObj ((fun '(role, spec) =>
    (role, JObj (match spec with
                 | JObj fields => omap (fun k => (fun v => (k, v)) <$> obj_get k fields) ["profile_id"; "profile_version"; "model_name"]%py
                 | _ => []
                 end))) <$> mcs_assignments s).
Definition index_versions (cases : list RagEvaluationCaseRecord) : list pystr :=
  omap (fun identity => match identity with
                        | JObj fields => v ← obj_get "index_version"%py fields; if truthy v then Some (text_of v) else None
                        | _ => None
                        end) (concat ((fun c => gc_retrieved_identity_json (csr_row c)) <$> cases)).
Definition _report_metadata (claimed : ClaimedRagEvaluationJob) : EW (list (pystr * json)) :=
  cases ← on_tables (list_cases env (claimed_id claimed));
  source ← pure rag_source_fingerprint;
  mret [("adapter"%py, JStr "persistent_rag_evaluation_worker"%py); ("provenance"%py, JStr "live_rag"%py); ("job_id"%py, JStr (claimed_id claimed));
        ("model_catalog_hash"%py, JStr (gj_model_catalog_hash (jbr_row (cl_job claimed))));
        ("models"%py, safe_models (jbr_model_snapshot (cl_job claimed)));
        ("retrieval_index_ids"%py, JArr (JStr <$> sorted_str (remove_dups (index_versions cases))));
        ("rag_source_fingerprint"%py, JStr source); ("judge_schema_version"%py, JInt 1)].

Definition _partial_report (claimed : ClaimedRagEvaluationJob) (error : PublicError) : EW RagEvalReport :=
  cases ← on_tables (list_cases env (claimed_id claimed));
  let found := omap csr_observation cases in
  metadata ← _report_metadata claimed;
  pure (ee_partial env (dsr_dataset (cl_dataset claimed)) (gd_fingerprint (dsr_row (cl_dataset claimed))) found (jbr_gate_policy (cl_job claimed))
    (JObj (metadata ++ [("completed_case_count"%py, JInt (Z.of_nat (length found)));
                        ("failure"%py, JObj [("code"%py, JStr (pe_code error)); ("stage"%py, JStr (default "worker"%py (pe_stage error)))])]))).

(** [{case.id: case for case in dataset.cases}.get(case_id)] *)
Definition indexed_case (claimed : ClaimedRagEvaluationJob) (case_id : pystr) : option RagEvalCase :=
  last (List.filter (fun c => bool_decide (rc_id c = case_id)) (rd_cases (dsr_dataset (cl_dataset claimed)))).

Definition finish_as_cancelled (claimed : ClaimedRagEvaluationJob) : EW unit :=
  on_tables (finish_cancelled (claimed_id claimed) worker_id (claimed_token claimed)).

(** The loop of [_execute_claimed]: whether it ended with a cancellation. *)
Fixpoint execute_cases (fuel : nat) (claimed : ClaimedRagEvaluationJob) : EW bool :=
  match fuel with
  | O => throw EFuel
  | S fuel => fun s =>
      (if heartbeat_error (es_calls s) then throw (ERuntime "RAG evaluation worker lost job ownership"%py)
       else
         requested ← on_tables (cancel_requested (claimed_id claimed));
         if (requested : bool) then finish_as_cancelled claimed;; mret true
         else
           record ← on_tables (claim_case env (claimed_id claimed) worker_id (claimed_token claimed));
           match record with
           | None => mret false
           | Some record =>
               let case_id := gc_case_id (csr_row record) in
               set_active (Some case_id);;
               match indexed_case claimed case_id with
               | None => throw (ERuntime "RAG Evaluation Case is missing from its Dataset"%py)
               | Some case =>
                   x ← (fun s => (execute_case (es_calls s) (claimed_id claimed) case (jbr_model_snapshot (cl_job claimed)), s));
                   on_tables (complete_case env (claimed_id claimed) (rc_id case) worker_id (claimed_token claimed) x);;
                   set_active None;;
                   execute_cases fuel claimed
               end
           end) s
  end.

(** [_execute_claimed]; [extra] is added to the rounds the cases need. *)
Definition _execute_claimed (extra : nat) (claimed : ClaimedRagEvaluationJob) : EW unit :=
  cancelled ← execute_cases (S (length (cl_cases claimed)) + extra) claimed;
  if (cancelled : bool) then mret tt
  else
    requested ← on_tables (cancel_requested (claimed_id claimed));
    if (requested : bool) then finish_as_cancelled claimed
    else
      found ← on_tables (observations env (claimed_id claimed));
      baseline ← on_tables (baseline_report env (gj_baseline_job_id (jbr_row (cl_job claimed))));
      metadata ← _report_metadata claimed;
      report ← pure (evaluate_rag (dsr_dataset (cl_dataset claimed)) (gd_fingerprint (dsr_row (cl_dataset claimed))) found
                       (jbr_gate_policy (cl_job claimed)) baseline (JObj metadata));
      on_tables (finish_job env (claimed_id claimed) worker_id (claimed_token claimed) report).

Definition public_of (e : exn) : PublicError := match e with EApp a | EPreserve a => ae_public a | e => other_error e end.

(** The handler of [run_once]; a failure that cannot be stored is only logged. *)
Definition persist_failure (claimed : ClaimedRagEvaluationJob) (error : PublicError) (partial : option RagEvalReport) : EW unit := fun s =>
  try_except
    (on_tables (fail_job env (claimed_id claimed) worker_id (claimed_token claimed) (pe_code error) (serialize_public_error error)
      (es_active_case_id s) partial))
    (fun _ => mret tt) s.
Definition settle_failure (claimed : ClaimedRagEvaluationJob) (exc : exn) : EW bool :=
  requested ← on_tables (cancel_requested (claimed_id claimed));
  if (requested : bool) then finish_as_cancelled claimed;; mret true
  else
    partial ← try_except (r ← _partial_report claimed (public_of exc); mret (Some r)) (fun _ => mret None);
    persist_failure claimed (public_of exc) partial;;
    mret true.

Definition eval_run_once (extra : nat) : EW bool :=
  claimed ← (fun s => on_tables (claim_next env (locked (es_calls s)) worker_id lease_seconds) s);
  match claimed with
  | None => on_tables (worker_heartbeat worker_id "running"%py [("active_job_id"%py, JStr ""%py)]);; mret false
  | Some claimed => finally (try_base (_execute_claimed extra claimed;; mret true) (settle_failure claimed)) (set_active None)
  end.

(** [run_forever]; [stop n] is the event as the worker sees it at the access [n], and
    [turns] bounds the turns looked at. *)
Fixpoint eval_turns (stop : nat -> bool) (turns : nat) : EW unit := fun s =>
  match turns with
  | O => (Ret tt, s)
  | S turns => if stop (es_calls s) then (Ret tt, s) else (eval_run_once 0;; eval_turns stop turns) s
  end.
Definition eval_run_forever (stop : nat -> bool) (turns : nat) : EW unit :=
  on_tables (worker_heartbeat worker_id "starting"%py []);;
  finally (eval_turns stop turns) (on_tables (worker_heartbeat worker_id "stopped"%py [])).
End worker.

(** ** Constraints and queued cases under moves *)

Definition sound (db : EvalDb) : Prop := eval_inv db /\ eval_constraints db = true.

(** The columns a constraint reads. *)
Lemma job_move_columns env db j j' f : job_move env db j j' f ->
  gj_dataset_id j' = gj_dataset_id j /\ gj_baseline_job_id j' = gj_baseline_job_id j /\ gj_model_catalog_hash j' = gj_model_catalog_hash j
  /\ gj_total_cases j' = gj_total_cases j /\ (gj_completed_cases j' = gj_completed_cases j \/ job_live (gj_status j') = true).
Proof. intros M. destruct M; try destruct report; simpl; auto 10. Qed.

Lemma forallb_rows {A} (p : A -> bool) (m : gmap pystr A) :
  forallb p (snd <$> map_to_list m) = true <-> forall i x, m !! i = Some x -> p x = true.
Proof.
  rewrite forallb_forall. split.
  - intros H i x X. apply H, list_elem_of_In, list_elem_of_fmap. exists (i, x). by rewrite elem_of_map_to_list.
  - intros H x X%list_elem_of_In. apply list_elem_of_fmap in X as ([i y] & -> & Y%elem_of_map_to_list). by apply (H i).
Qed.

Lemma job_move_constraints env db j j' f : sound db -> g_jobs db !! gj_id j = Some j -> job_move env db j j' f ->
  eval_constraints (touch j' f db) = true.
Proof.
  intros [I C] Q M. pose proof (move_job_inv env db j j' f I Q M) as I'. destruct (job_move_keys _ _ _ _ _ M) as [Ij If].
  destruct (job_move_columns _ _ _ _ _ M) as (E1 & E2 & E3 & E4 & E5). pose proof (ei_keyed _ I) as K.
  assert (g_jobs (touch j' f db) !! gj_id j' = Some j') as Q' by apply lookup_insert_eq.
  assert (forall i, is_Some (g_jobs db !! i) -> is_Some (g_jobs (touch j' f db) !! i)) as S.
  { intros i X. simpl. rewrite lookup_insert. by case_decide; [eexists|]. }
  unfold eval_constraints in C |- *. rewrite !andb_true_iff, !forallb_rows, !unique_index_spec in C. rewrite !andb_true_iff, !forallb_rows, !unique_index_spec.
  destruct C as [[[C1 C2] C3] C4]. split_and!.
  - exact C1.
  - intros i k x y key (x0 & <- & Hx)%lookup_fmap_Some (y0 & <- & Hy)%lookup_fmap_Some. unfold idx_case_job.
    destruct (job_move_cases env _ _ _ _ _ _ K M Hx) as [-> -> _ _], (job_move_cases env _ _ _ _ _ _ K M Hy) as [-> -> _ _].
    intros A B. by apply (C2 i k x0 y0 key).
  - assert (forall k, job_row_ok db k = true -> job_row_ok (touch j' f db) k = true) as Keep.
    { intros k. unfold job_row_ok. rewrite !andb_true_iff. intros [[[[[A1 A2] A3] A4] A5] A6]. split_and!; try done.
      destruct (gj_baseline_job_id k); [|done]. apply bool_decide_eq_true. apply bool_decide_eq_true in A6. by apply S. }
    intros i x. simpl. rewrite lookup_insert. case_decide as E; [|by intros X; apply Keep, (C3 i)]. intros [= <-].
    pose proof (C3 _ _ Q) as R. apply Keep. unfold job_row_ok in R |- *. rewrite E1, E2, E3, E4.
    destruct E5 as [->|L]; [done|]. pose proof (ei_jobs _ I' _ _ Q') as J. rewrite !andb_true_iff in R |- *. destruct R as [[[[[A1 A2] A3] A4] A5] A6].
    assert (0 <= gj_completed_cases j' <= gj_total_cases j') as B; [|split_and!; try done; by apply Z.leb_le; lia].
    rewrite (ji_total _ _ J), (ji_completed _ _ J) by (intros X; by rewrite X in L).
    pose proof (tally_le (of_job (gj_id j') completed) (of_job (gj_id j') (fun _ => true)) (g_cases (touch j' f db))) as T.
    assert (forall c, of_job (gj_id j') completed c = true -> of_job (gj_id j') (fun _ => true) c = true) as T0
      by (intros c; unfold of_job; rewrite !andb_true_iff; by intros [? _]).
    specialize (T T0). lia.
  - intros i c (c0 & <- & Hc)%lookup_fmap_Some. unfold case_row_ok. destruct (job_move_cases env _ _ _ _ _ _ K M Hc) as [-> _ _ _].
    apply bool_decide_eq_true, S. pose proof (C4 _ _ Hc) as X. by apply bool_decide_eq_true in X.
Qed.

(** The cases of a job that wait. *)
Definition is_queued (s : RagEvaluationCaseStatus) : bool := bool_decide (s = K_QUEUED).
Definition waiting (db : EvalDb) (id : pystr) : nat := tally (of_job id is_queued) (g_cases db).

(** The job exists and no older claim of it has the token. *)
Definition once_claimed (db : EvalDb) (id : pystr) (token : Z) : Prop := exists j, g_jobs db !! id = Some j /\ token <= gj_fencing_token j.

Lemma unqueue db j j' f env : keyed db -> job_move env db j j' f -> gj_status j' = G_QUEUED \/ gj_fencing_token j < gj_fencing_token j' \/
  (tally (of_job (gj_id j) is_queued) (f <$> g_cases db) <= tally (of_job (gj_id j) is_queued) (g_cases db))%nat.
Proof.
  intros K M.
  assert ((forall i c, g_cases db !! i = Some c -> is_queued (gc_status (f c)) = true -> is_queued (gc_status c) = true) ->
    (tally (of_job (gj_id j) is_queued) (f <$> g_cases db) <= tally (of_job (gj_id j) is_queued) (g_cases db))%nat) as T.
  { intros H. apply tally_fewer. intros i c Hc. split; [|by apply (H i)]. by destruct (job_move_cases env _ _ _ _ _ _ K M Hc). }
  assert (forall p g c, (forall c, is_queued (gc_status (g c)) = false) -> is_queued (gc_status (on_cases p g c)) = true -> is_queued (gc_status c) = true) as Q.
  { intros p g c G. unfold on_cases. destruct (p c); [by rewrite G|done]. }
  destruct M; try (by left); try (right; left; simpl; lia); right; right; try (rewrite map_fmap_id; lia); apply T; intros i c Hc H';
    repeat (apply Q in H'; [|done]); rewrite ?report_keeps in H'; try done.
  unfold on_cases in H'. destruct (of_job _ _ c); [|done]. by destruct (score_case_same report now c) as (_ & _ & _ & E & _); rewrite E in H'.
Qed.

Lemma move_claimed env db db' id token : eval_inv db -> eval_move env db db' -> once_claimed db id token -> once_claimed db' id token.
Proof.
  intros I M (j & Q & T). destruct M as [k k' f Qk M|k rows F|db' E1 E2].
  - destruct (job_move_keys _ _ _ _ _ M) as [Ik _]. destruct (decide (id = gj_id k)) as [->|N].
    + assert (j = k) as -> by congruence. exists k'. simpl. rewrite Ik, lookup_insert_eq. split; [done|].
      destruct (job_move_fence _ _ _ _ _ M) as [A|[A _]]; lia.
    + exists j. simpl. rewrite lookup_insert_ne by congruence. done.
  - exists j. simpl. rewrite lookup_insert_ne; [done|]. destruct F as (F1 & _). congruence.
  - exists j. by rewrite E1.
Qed.

(** While the job is not lost, its waiting cases become no more. *)
Lemma move_waiting env db db' id worker token n : eval_inv db -> eval_move env db db' -> once_claimed db id token ->
  lost db id worker token \/ (waiting db id <= n)%nat -> lost db' id worker token \/ (waiting db' id <= n)%nat.
Proof.
  intros I M O [L|W]; [left; by eapply move_lost|]. destruct O as (j & Q & T). destruct M as [k k' f Qk M|k rows F|db' E1 E2].
  - destruct (job_move_keys _ _ _ _ _ M) as [Ik _]. destruct (decide (id = gj_id k)) as [->|N].
    + assert (j = k) as -> by congruence. assert (g_jobs (touch k' f db) !! gj_id k = Some k') as Q' by (simpl; by rewrite Ik, lookup_insert_eq).
      destruct (unqueue db k k' f env (ei_keyed _ I) M) as [S|[S|S]].
      * left. exists k'. split; [done|]. destruct (job_move_fence _ _ _ _ _ M) as [A|[A _]]; [left; lia|].
        destruct (decide (token = gj_fencing_token k)) as [->|]; [right|left; lia]. split; [done|]. left. by rewrite S.
      * left. exists k'. split; [done|]. left. lia.
      * right. unfold waiting in *. simpl. lia.
    + right. unfold waiting. simpl. rewrite (tally_other env db k k' f id _ (ei_keyed _ I) M); [done|congruence].
  - right. destruct F as (F1 & _ & _ & _ & _ & _ & _ & _ & _ & _ & FR & ND). unfold waiting. simpl. rewrite add_rows_tally; [|eapply Forall_impl; [exact FR|]; by intros c (_ & _ & ?)|done].
    rewrite (filter_const _ _ false); [unfold waiting in W; lia|]. eapply Forall_impl; [exact FR|]. intros c (A & _ & _). unfold of_job.
    rewrite bool_decide_eq_false_2; [done|]. congruence.
  - right. unfold waiting. by rewrite E2.
Qed.

Lemma moves_waiting env db db' id worker token n : eval_inv db -> rtc (eval_move env) db db' -> once_claimed db id token ->
  lost db id worker token \/ (waiting db id <= n)%nat ->
  once_claimed db' id token /\ (lost db' id worker token \/ (waiting db' id <= n)%nat).
Proof.
  intros I M. revert I. induction M as [|db db1 db' M _ IH]; intros I O W; [done|].
  apply IH; [by eapply move_inv|by eapply move_claimed|by eapply move_waiting].
Qed.

(** ** What a turn leaves *)

Section upkeep.
Context (env : EvalEnv).

(** A computation on the tables moves jobs and cases and upkeep the constraints, whatever its outcome. *)
Definition upkeep {A} (m : EM A) : Prop := makes_moves env m /\
  forall w r w', m w = (r, w') -> eval_constraints (w_db w) = true -> eval_constraints (w_db w') = true.

Lemma upkeep_atomic {A} (m : EM A) : Atomic m -> Consistent m ->
  (forall w a w', keyed (w_db w) -> m w = (Ret a, w') -> rtc (eval_move env) (w_db w) (w_db w')) -> upkeep m.
Proof.
  intros At Co H. split; [by apply makes_moves_atomic|]. intros w [a|e] w' E C; [by eapply Co|]. by rewrite (At _ _ _ E).
Qed.

Lemma upkeep_reads {A} (m : EM A) : ReadOnly m -> upkeep m.
Proof.
  intros R. split; intros w r w'.
  - intros _ E. specialize (R w). rewrite E in R. simpl in R. by rewrite R.
  - intros E. specialize (R w). rewrite E in R. simpl in R. by rewrite R.
Qed.

Lemma upkeep_then {A B} (m : EM A) (k : A -> EM B) : upkeep m -> (forall a, upkeep (k a)) -> upkeep (@mbind (Sess EvalDb) M_bind _ _ k m).
Proof.
  intros [M1 C1] K. split; [apply makes_moves_bind; [done|]; intros a; apply K|]. intros w r w'. unfold mbind, M_bind.
  destruct (m w) as [[a|e] w1] eqn:E; [|intros [= <- <-]; by eapply C1]. intros H C. eapply (proj2 (K a)); [exact H|]. by eapply C1.
Qed.

Ltac keep lem := apply upkeep_atomic; [first [apply _|unfold reconcile_expired; effects]|first [apply _|unfold reconcile_expired; effects]|intros ? ? ? ? ?; by eapply lem].

Lemma upkeep_claim_next locked worker lease : upkeep (claim_next env locked worker lease).
Proof. apply upkeep_then; [keep reconcile_moves|]. intros _. keep claim_moves. Qed.
Lemma upkeep_claim_case j w f : upkeep (claim_case env j w f).
Proof. keep claim_case_moves. Qed.
Lemma upkeep_complete j c w f x : upkeep (complete_case env j c w f x).
Proof. keep complete_case_moves. Qed.
Lemma upkeep_fail j w f code detail c r : upkeep (fail_job env j w f code detail c r).
Proof. keep fail_job_moves. Qed.
Lemma upkeep_finish j w f r : upkeep (finish_job env j w f r).
Proof. keep finish_job_moves. Qed.
Lemma upkeep_finish_cancelled j w f : upkeep (finish_cancelled j w f).
Proof. keep finish_cancelled_moves. Qed.
Lemma upkeep_worker_heartbeat w s md : upkeep (worker_heartbeat w s md).
Proof. keep worker_heartbeat_moves. Qed.
Lemma upkeep_cancel_requested j : upkeep (cancel_requested j).
Proof. apply upkeep_reads. unfold cancel_requested. effects. Qed.
Lemma upkeep_list_cases j : upkeep (list_cases env j).
Proof. apply upkeep_reads. unfold list_cases. effects. Qed.
Lemma upkeep_observations j : upkeep (observations env j).
Proof. apply upkeep_reads. unfold observations, list_cases. effects. Qed.
Lemma upkeep_baseline b : upkeep (baseline_report env b).
Proof. apply upkeep_reads. unfold baseline_report, get_eval_job. effects. Qed.

Lemma upkeep_call c : upkeep (eval_call env c).
Proof.
  destruct c; simpl; unfold done_with; try (apply upkeep_then; [|intros; by apply upkeep_reads]).
  - keep create_dataset_moves.
  - keep create_job_moves.
  - keep cancel_moves.
  - keep reconcile_moves.
  - apply upkeep_claim_next.
  - keep heartbeat_moves.
  - apply upkeep_claim_case.
  - apply upkeep_complete.
  - apply upkeep_fail.
  - apply upkeep_finish.
  - apply upkeep_finish_cancelled.
  - apply upkeep_worker_heartbeat.
Qed.

Lemma upkeep_sound {A} (m : EM A) w r w' : upkeep m -> sound (w_db w) -> m w = (r, w') ->
  sound (w_db w') /\ rtc (eval_move env) (w_db w) (w_db w').
Proof.
  intros [M C] [I S] E. pose proof (M _ _ _ (ei_keyed _ I) E) as X. split; [|done]. split; [by eapply moves_inv|by eapply C].
Qed.

Lemma sound_calls cs w : sound (w_db w) ->
  sound (w_db (run_calls env cs w)) /\ rtc (eval_move env) (w_db w) (w_db (run_calls env cs w)).
Proof.
  revert w. induction cs as [|c cs IH]; intros w S; [done|]. simpl. destruct (eval_call env c w) as [r w'] eqn:E.
  apply upkeep_sound in E as [S' M]; [|apply upkeep_call|done]. destruct (IH w' S') as [S2 M2]. split; [done|]. by etrans.
Qed.

Lemma reachable_sound db : eval_reachable env db -> sound db.
Proof.
  induction 1 as [db E1 E2 C|c w r w' _ IH H]; [split; [by apply eval_init_inv|done]|].
  by apply upkeep_sound in H as [S _]; [|apply upkeep_call|].
Qed.
End upkeep.

Section settles.
Context (env : EvalEnv).

Lemma refused_lost id worker token w e w' : _assert_owner id worker token w = (Raise e, w') -> once_claimed (w_db w) id token ->
  w_db w' = w_db w /\ lost (w_db w) id worker token.
Proof.
  intros H (j & Q & T). unfold _assert_owner, mbind, Act_bind, M_bind, get_db, require in H. rewrite Q in H. unfold mret, M_ret, raise_if in H.
  match type of H with context [if ?b then _ else _] => destruct b eqn:B end; [|done]. injection H as _ <-. split; [done|]. exists j. split; [done|].
  destruct (decide (token = gj_fencing_token j)) as [->|]; [right|left; lia]. split; [done|]. rewrite Z.eqb_refl in B.
  apply orb_true_iff in B as [[B|B]%orb_true_iff|B]; [right|done|left].
  - apply negb_true_iff in B. by apply bool_decide_eq_false in B.
  - by apply negb_true_iff in B.
Qed.

Lemma ended_lost db j j' f worker token : job_move env db j j' f -> job_live (gj_status j') = false -> token <= gj_fencing_token j ->
  lost (touch j' f db) (gj_id j) worker token.
Proof.
  intros M L T. destruct (job_move_keys _ _ _ _ _ M) as [I _]. exists j'. split; [simpl; by rewrite I, lookup_insert_eq|].
  destruct (job_move_fence _ _ _ _ _ M) as [A|[A _]]; [left; lia|]. destruct (decide (token = gj_fencing_token j)) as [->|]; [right; auto|left; lia].
Qed.

(** An operation that ends the job it owns, in one move, leaves the job lost whatever its outcome. *)
Lemma owned_settles {A} (k : RagEvaluationJobRow -> EM A) id worker token w r w' : sound (w_db w) -> once_claimed (w_db w) id token ->
  (forall j, g_jobs (w_db w) !! id = Some j -> job_live (gj_status j) = true ->
    exists a w1 j' f, k j w = (Ret a, w1) /\ job_move env (w_db w) j j' f /\ w_db w1 = touch j' f (w_db w) /\ job_live (gj_status j') = false) ->
  transaction (@mbind (Sess EvalDb) M_bind _ _ k (_assert_owner id worker token)) w = (r, w') -> lost (w_db w') id worker token.
Proof.
  intros S O Hk H. pose proof (ei_keyed _ (proj1 S)) as K. destruct (_assert_owner id worker token w) as [[j|e] w1] eqn:E.
  - apply assert_owner_inv in E as E'. destruct E' as (-> & Q & _ & <- & L). destruct (Hk j Q L) as (a & w1 & j' & f & R & M & D & Lj).
    pose proof (ky_jobs _ K _ _ Q) as <-. assert (transaction (@mbind (Sess EvalDb) M_bind _ _ k (_assert_owner (gj_id j) worker (gj_fencing_token j))) w = (Ret a, w1)) as X.
    { apply transaction_run; [by rewrite (bind_run _ _ _ _ _ E)|]. rewrite D. by apply (job_move_constraints env _ j). }
    rewrite X in H. injection H as <- <-. rewrite D. by eapply ended_lost.
  - destruct (refused_lost _ _ _ _ _ _ E O) as [_ L]. rewrite (transaction_fail _ _ _ _ (bind_raise k _ _ _ _ E)) in H.
    by injection H as <- <-.
Qed.

Lemma finish_cancelled_settles id worker token w r w' : sound (w_db w) -> once_claimed (w_db w) id token ->
  finish_cancelled id worker token w = (r, w') -> lost (w_db w') id worker token.
Proof using env.
  intros S O. apply owned_settles; [done..|]. intros j Q L. destruct (_cancel_locked j w) as [[j'|e] w1] eqn:E; [|by unfold _cancel_locked in E].
  pose proof E as X. apply cancel_locked_inv in X as (now & D). do 4 eexists. split_and!; [by rewrite (bind_run _ _ _ _ _ E)| |exact D|done].
  apply mv_cancel. by right.
Qed.

Lemma fail_owned_returns id code detail case_id report j w : exists w', fail_owned env id code detail case_id report j w = (Ret tt, w').
Proof.
  unfold fail_owned. destruct report; (erewrite bind_run by reflexivity); (erewrite bind_run by reflexivity); (erewrite bind_run by reflexivity);
    unfold fail_cases; (erewrite bind_run by reflexivity); destruct (case_id ≫= _); by eexists.
Qed.

Lemma fail_job_settles id worker token code detail case_id report w r w' : sound (w_db w) -> once_claimed (w_db w) id token ->
  fail_job env id worker token code detail case_id report w = (r, w') -> lost (w_db w') id worker token.
Proof.
  intros S O. apply owned_settles; [done..|]. intros j Q L. destruct (fail_owned_returns id code detail case_id report j w) as [w1 E].
  destruct (fail_owned_inv env _ _ _ _ _ _ _ _ _ (ei_keyed _ (proj1 S)) Q L E) as (j' & f & M & D & Lj). by exists tt, w1, j', f.
Qed.

Lemma finish_job_settles id worker token report w w' : sound (w_db w) -> finish_job env id worker token report w = (Ret tt, w') ->
  lost (w_db w') id worker token.
Proof.
  intros [I _] H. unfold finish_job, score_cases, update_cases, save_eval_job in H. minv.
  match goal with X : _assert_owner _ _ _ _ = _ |- _ => apply assert_owner_inv in X as (-> & Q & _ & T & L) end.
  pose proof (ky_jobs _ (ei_keyed _ I) _ _ Q) as E. eexists. split; [cbn; rewrite E; apply lookup_insert_eq|]. right. split; [done|by left].
Qed.

(** A case that is claimed waited, and waits no more. *)
Lemma claim_case_waits id worker token w r w' : sound (w_db w) -> claim_case env id worker token w = (Ret (Some r), w') ->
  (waiting (w_db w') id < waiting (w_db w) id)%nat.
Proof.
  intros [I _] H. pose proof (ei_keyed _ I) as K. unfold claim_case, save_case in H. minv; [done| |done].
  match goal with X : _case_record _ _ _ = _ |- _ => apply reads in X; [|apply _]; rewrite X end. cbn [w_db set_w_db].
  match goal with Y : _assert_owner _ _ _ _ = _ |- _ => apply assert_owner_inv in Y as (-> & _) end.
  match goal with X : next_case _ _ = Some ?c |- _ => apply next_case_inv in X as (N1 & N2 & N3); [|done] end.
  unfold waiting, put_case. simpl. match goal with |- context [<[gc_id ?c := ?c']> ?m] => pose proof (tally_over (of_job id is_queued) m (gc_id c) c c' N1) as T end.
  unfold of_job in T at 2 4. simpl in T. rewrite N2, N3, !bool_decide_eq_true_2 in T by done. simpl in T. lia.
Qed.
End settles.

Lemma act_bind_cases {S A B} (m : Act S A) (k : A -> Act S B) s r s' : (m ≫= k) s = (r, s') ->
  (exists a s1, m s = (Ret a, s1) /\ k a s1 = (r, s')) \/ (exists e, m s = (Raise e, s') /\ r = Raise e).
Proof. unfold mbind, Act_bind. destruct (m s) as [[a|e] s1]; [left; eauto|]. intros [= <- <-]. right. eauto. Qed.

Section turn.
Context (env : EvalEnv) (between : nat -> list EvalCall) (faults : nat -> fault) (heartbeat_error : nat -> bool) (locked : nat -> pystr -> bool).
Context (execute_case : nat -> pystr -> RagEvalCase -> ModelCatalogSnapshot -> outcome CaseExecution).
Context (evaluate_rag : RagEvalDataset -> pystr -> list RagEvalObservation -> json -> option RagEvalReport -> json -> outcome RagEvalReport).
Context (other_error : exn -> PublicError) (rag_source_fingerprint : outcome pystr) (text_of : json -> pystr).
Context (worker_id : pystr) (lease_seconds : Z).

Abbreviation tables s := (w_db (es_world s)).
Abbreviation call := (on_tables env between faults).

(** The last access to the tables failed. *)
Definition failed_access (s : EvalWorkerState) : Prop := faults (pred (es_calls s)) <> NoFault.

(** What an access reports: the outcome of the computation, or an exception of its own. *)
Definition reported {A} (m : EM A) (w : WorldOf EvalDb) (r : outcome A) (s : EvalWorkerState) : Prop :=
  m w = (r, es_world s) \/ (exists e, r = Raise e) /\ failed_access s.

Lemma call_run {A} (m : EM A) s r s' : upkeep env m -> sound (tables s) -> call m s = (r, s') ->
  exists w, reported m w r s' /\ sound (w_db w) /\ rtc (eval_move env) (tables s) (w_db w) /\
    sound (tables s') /\ rtc (eval_move env) (w_db w) (tables s').
Proof.
  intros K S H. unfold on_tables in H. set (w := run_calls env (between (es_calls s)) (es_world s)) in *.
  destruct (sound_calls env (between (es_calls s)) (es_world s) S) as [S1 M1]. fold w in S1, M1.
  assert (forall r' w', m w = (r', w') -> sound (w_db w') /\ rtc (eval_move env) (w_db w) (w_db w')) as U
    by (intros r' w' E; by eapply upkeep_sound).
  exists w. unfold reported, failed_access. destruct (faults (es_calls s)) eqn:F.
  - destruct (m w) as [r' w'] eqn:E. injection H as <- <-. destruct (U _ _ eq_refl). split_and!; [by left|done..].
  - injection H as <- <-. split_and!; [|done..]. right. split; [eauto|]. simpl. congruence.
  - destruct (m w) as [r' w'] eqn:E. injection H as <- <-. destruct (U _ _ eq_refl). split_and!; [|done..].
    right. split; [destruct r'; eauto|]. simpl. congruence.
Qed.

Lemma reported_ret {A} (m : EM A) w a s : reported m w (Ret a) s -> m w = (Ret a, es_world s).
Proof. by intros [H|[[e [=]] _]]. Qed.

Section claimed.
Context (claimed : ClaimedRagEvaluationJob).
Abbreviation id := (claimed_id claimed).
Abbreviation token := (claimed_token claimed).

Definition in_turn (s : EvalWorkerState) : Prop := sound (tables s) /\ once_claimed (tables s) id token.
Definition gone (s : EvalWorkerState) : Prop := lost (tables s) id worker_id token.

(** The turn goes on in [m], whatever its outcome. *)
Class Steady {A} (m : EW A) : Prop := steady : forall s r s', in_turn s -> m s = (r, s') -> in_turn s'.

Lemma moves_claimed db db' : eval_inv db -> rtc (eval_move env) db db' -> once_claimed db id token -> once_claimed db' id token.
Proof. intros I M. revert I. induction M as [|db db1 db' M _ IH]; intros I O; [done|]. apply IH; [by eapply move_inv|by eapply move_claimed]. Qed.

Lemma turn_call {A} (m : EM A) s r s' : upkeep env m -> in_turn s -> call m s = (r, s') ->
  exists w, reported m w r s' /\ sound (w_db w) /\ once_claimed (w_db w) id token /\ rtc (eval_move env) (tables s) (w_db w) /\ in_turn s'.
Proof.
  intros K [S O] H. destruct (call_run m s r s' K S H) as (w & E & S1 & M1 & S2 & M2). pose proof (moves_claimed _ _ (proj1 S) M1 O) as O1.
  exists w. split_and!; [done..|]. split; [done|]. by eapply moves_claimed; [apply (proj1 S1)|exact M2|].
Qed.

Lemma steady_call {A} (m : EM A) : upkeep env m -> Steady (call m).
Proof. intros K s r s' T H. by destruct (turn_call m s r s' K T H) as (w & _ & _ & _ & _ & ?). Qed.
Lemma steady_bind {A B} (m : EW A) (k : A -> EW B) : Steady m -> (forall a, Steady (k a)) -> Steady (m ≫= k).
Proof. intros M K s r s' T [(a & s1 & H1 & H2)|(e & H & _)]%act_bind_cases; [|by eapply M]. eapply K; [|exact H2]. by eapply M. Qed.
Lemma steady_ret {A} (a : A) : Steady (mret a).
Proof. by intros s r s' T [= <- <-]. Qed.
Lemma steady_throw {A} e : Steady (throw e : EW A).
Proof. by intros s r s' T [= <- <-]. Qed.
Lemma steady_pure {A} (o : outcome A) : Steady (pure o : EW A).
Proof. by intros s r s' T [= <- <-]. Qed.
Lemma steady_active c : Steady (set_active c).
Proof. by intros s r s' T [= <- <-]. Qed.
Lemma steady_try {A} (m : EW A) h : Steady m -> (forall e, Steady (h e)) -> Steady (try_except m h).
Proof.
  intros M H s r s' T. unfold try_except. destruct (m s) as [[a|e] s1] eqn:E; pose proof (M _ _ _ T E) as T1; [by intros [= <- <-]|].
  destruct e; intros X; try (by eapply H; [exact T1|exact X]). by injection X as <- <-.
Qed.
Hint Resolve upkeep_claim_case upkeep_complete upkeep_fail upkeep_finish upkeep_finish_cancelled upkeep_cancel_requested upkeep_list_cases upkeep_observations upkeep_baseline : core.

(** One step of the worker at a time. *)
Ltac steps := repeat first [apply steady_ret|apply steady_throw|apply steady_pure|apply steady_active|(apply steady_call; by auto)|apply steady_try
  |apply steady_bind|match goal with |- Steady (match ?x with _ => _ end) => destruct x end|match goal with |- forall _, _ => intro end].

Lemma steady_metadata : Steady (_report_metadata env between faults rag_source_fingerprint text_of claimed).
Proof. unfold _report_metadata. steps. Qed.
Lemma steady_partial e : Steady (_partial_report env between faults rag_source_fingerprint text_of claimed e).
Proof. unfold _partial_report. steps; apply steady_metadata. Qed.

Abbreviation cases := (execute_cases env between faults heartbeat_error execute_case worker_id).

(** A computation chosen by the state it runs in. *)
Lemma steady_choice {A} (f : EvalWorkerState -> EW A) : (forall x, Steady (f x)) -> Steady (fun s => f s s).
Proof. intros F s r s' T H. by eapply (F s). Qed.

Lemma steady_cases fuel : Steady (cases fuel claimed).
Proof.
  induction fuel as [|fuel IH]; [apply steady_throw|]. simpl. apply steady_choice. intros s0. unfold finish_as_cancelled. steps; [|exact IH].
  by intros s o s' T [= <- <-].
Qed.

(** The loop ends with [true] only when the job has been cancelled. *)
Lemma finish_as_cancelled_gone s r s' : in_turn s -> finish_as_cancelled env between faults worker_id claimed s = (r, s') ->
  gone s' \/ (exists e, r = Raise e) /\ failed_access s'.
Proof.
  intros T H. apply turn_call in H as (w & [E|F] & S & O & _); [|by right|auto|done]. left. by apply (finish_cancelled_settles env) in E.
Qed.
Lemma finished_as_cancelled_gone s u s' : in_turn s -> finish_as_cancelled env between faults worker_id claimed s = (Ret u, s') -> gone s'.
Proof. intros T [G|[[e [=]] _]]%finish_as_cancelled_gone; done. Qed.

Lemma cases_cancelled fuel s s' : in_turn s -> cases fuel claimed s = (Ret true, s') -> gone s'.
Proof.
  revert s. induction fuel as [|fuel IH]; intros s T H; [done|]. simpl in H. destruct (heartbeat_error (es_calls s)); [done|].
  apply act_bind_inv in H as (b & s1 & H1 & H). apply steady_call in H1; [|auto|done]. destruct b.
  { apply act_bind_inv in H as (u & s2 & H2 & [= <-]). by eapply finished_as_cancelled_gone. }
  apply act_bind_inv in H as ([c|] & s2 & H2 & H); [|done]. apply steady_call in H2; [|auto|done].
  apply act_bind_inv in H as (u & s3 & H3 & H). apply (steady_active _ s2) in H3; [|done]. destruct (indexed_case claimed _); [|done].
  apply act_bind_inv in H as (x & s4 & [= _ <-] & H). apply act_bind_inv in H as (? & s5 & H5 & H). apply steady_call in H5; [|auto|done].
  apply act_bind_inv in H as (? & s6 & H6 & H). apply (steady_active _ s5) in H6; [|done]. by eapply IH.
Qed.

Lemma call_waits {A} (m : EM A) n s r s' : upkeep env m -> in_turn s -> gone s \/ (waiting (tables s) id <= n)%nat -> call m s = (r, s') ->
  gone s' \/ (waiting (tables s') id <= n)%nat.
Proof.
  intros K [S O] W H. destruct (call_run m s r s' K S H) as (w & E & S1 & M1 & S2 & M2).
  destruct (moves_waiting env _ _ id worker_id token n (proj1 S) M1 O W) as [O1 W1].
  by destruct (moves_waiting env _ _ id worker_id token n (proj1 S1) M2 O1 W1).
Qed.

Lemma claim_case_lost w r w' : lost (w_db w) id worker_id token -> claim_case env id worker_id token w = (Ret r, w') -> False.
Proof.
  intros L H. unfold claim_case in H. apply transaction_inv in H as [H _]. apply bind_inv in H as (j & w1 & H & _).
  destruct (assert_owner_lost _ _ _ _ w eq_refl L) as (e & X & _). congruence.
Qed.

(** Every round that goes on has claimed a waiting case. *)
Lemma round_waits n s c s' : in_turn s -> gone s \/ (waiting (tables s) id <= n)%nat ->
  call (claim_case env id worker_id token) s = (Ret (Some c), s') -> (waiting (tables s') id < n)%nat.
Proof.
  intros [S O] W H. destruct (call_run _ s _ s' (upkeep_claim_case env _ _ _) S H) as (w & E%reported_ret & S1 & M1 & _).
  destruct (moves_waiting env _ _ id worker_id token n (proj1 S) M1 O W) as [O1 [L|W1]]; [by apply claim_case_lost in E|].
  apply claim_case_waits in E; [lia|done].
Qed.

Lemma cases_rounds n extra s : in_turn s -> gone s \/ (waiting (tables s) id <= n)%nat ->
  cases (S n + extra) claimed s = cases (S n) claimed s.
Proof.
  revert s. induction n as [|n IH]; intros s T W; simpl; (destruct (heartbeat_error (es_calls s)); [done|]);
    unfold mbind, Act_bind;
    (destruct (call (cancel_requested id) s) as [[b|e] s1] eqn:H1; [|done]); (destruct b; [done|]);
    (destruct (call (claim_case env id worker_id token) s1) as [[[c|]|e] s2] eqn:H2; [|done..]);
    pose proof (steady_call _ (upkeep_cancel_requested env _) _ _ _ T H1) as T1;
    pose proof (call_waits _ _ _ _ _ (upkeep_cancel_requested env _) T W H1) as W1;
    pose proof (round_waits _ _ _ _ T1 W1 H2) as W2; [lia|].
  pose proof (steady_call _ (upkeep_claim_case env _ _ _) _ _ _ T1 H2) as T2.
  unfold set_active. destruct (indexed_case claimed _) as [case|]; [|done].
  destruct (execute_case _ _ case _) as [x|e]; [|done]. set (s3 := mkEvalWorkerState _ _ _).
  destruct (call (complete_case env id (rc_id case) worker_id token x) s3) as [[u|e] s4] eqn:H4; [|done].
  pose proof (steady_call _ (upkeep_complete env _ _ _ _ _) s3 _ _ T2 H4) as T4. apply (IH (mkEvalWorkerState _ _ _)); [exact T4|].
  apply (call_waits (complete_case env id (rc_id case) worker_id token x) n s3 (Ret u) s4); [auto|exact T2|right; exact (proj1 (Nat.lt_succ_r _ _) W2)|exact H4].
Qed.

Abbreviation execution := (_execute_claimed env between faults heartbeat_error execute_case evaluate_rag rag_source_fingerprint text_of worker_id).

Lemma steady_execution extra : Steady (execution extra claimed).
Proof. unfold _execute_claimed, finish_as_cancelled. steps; first [apply steady_cases|apply steady_metadata]. Qed.

Lemma execution_settles extra s u s' : in_turn s -> execution extra claimed s = (Ret u, s') -> gone s'.
Proof.
  intros T H. unfold _execute_claimed in H. apply act_bind_inv in H as (b & s1 & H1 & H). pose proof (steady_cases _ _ _ _ T H1) as T1.
  destruct b; [injection H as _ <-; exact (cases_cancelled _ s s1 T H1)|].
  apply act_bind_inv in H as (b & s2 & H2 & H). apply steady_call in H2; [|auto|done]. destruct b; [by eapply finished_as_cancelled_gone; [|exact H]|].
  apply act_bind_inv in H as (found & s3 & H3 & H). apply steady_call in H3; [|auto|done].
  apply act_bind_inv in H as (base & s4 & H4 & H). apply steady_call in H4; [|auto|done].
  apply act_bind_inv in H as (md & s5 & H5 & H). apply steady_metadata in H5; [|done].
  apply act_bind_inv in H as (report & s6 & [= _ <-] & H). apply turn_call in H as (w & E%reported_ret & S & _); [|auto|done].
  destruct u. by apply finish_job_settles in E.
Qed.

Abbreviation partial := (_partial_report env between faults rag_source_fingerprint text_of).
Abbreviation surrender := (settle_failure env between faults other_error rag_source_fingerprint text_of worker_id).

(** Giving up ends the job, unless it is lost already; or the last access fails, or
    the task is cancelled while the partial report is built. *)
Lemma surrender_settles e s r s' : in_turn s -> surrender claimed e s = (r, s') ->
  in_turn s' /\ (gone s' \/ failed_access s' \/ r = Raise ECancelled).
Proof.
  intros T H. unfold settle_failure in H. apply act_bind_cases in H as [(b & s1 & H1 & H)|(x & H & _)].
  2: { apply turn_call in H as (w & [E|[_ F]] & _ & _ & _ & T'); [by unfold cancel_requested in E|by auto|auto|done]. }
  apply steady_call in H1; [|auto|done]. destruct b.
  - assert (exists r1, finish_as_cancelled env between faults worker_id claimed s1 = (r1, s')) as [r1 F]
      by (apply act_bind_cases in H as [(u & s2 & H2 & [= <- <-])|(x & H & _)]; eauto).
    split; [by eapply (steady_call _ (upkeep_finish_cancelled env _ _ _)); [exact H1|exact F]|].
    destruct (finish_as_cancelled_gone _ _ _ H1 F) as [G|[_ G]]; auto.
  - assert (Steady (try_except (r ← partial claimed (public_of other_error e); mret (Some r)) (fun _ => mret None))) as P
      by (apply steady_try; [apply steady_bind; [apply steady_partial|intros; apply steady_ret]|intros; apply steady_ret]).
    apply act_bind_cases in H as [(p & s2 & H2 & H)|(x & H & ->)].
    + assert (T2 := P _ _ _ H1 H2). destruct (persist_failure env between faults worker_id claimed (public_of other_error e) p s2) as [r1 s3] eqn:F.
      assert (s' = s3) as -> by (unfold mbind, Act_bind in H; rewrite F in H; destruct r1; by injection H).
      unfold persist_failure, try_except in F. match type of F with context [call ?m s2] => destruct (call m s2) as [r2 s4] eqn:C end.
      assert (s3 = s4) as -> by (destruct r2 as [u|[]]; by injection F).
      apply turn_call in C as (w & [E|[_ G]] & S & O & _ & T'); [|by auto|auto|done].
      split; [done|]. left. by apply fail_job_settles in E.
    + split; [by eapply P|]. right. right. unfold try_except in H.
      match type of H with (let (_, _) := ?t in _) = _ => destruct t as [[q|y] s2] eqn:Q end; [done|].
      destruct y; try done. by injection H as <- _.
Qed.

(** A worker that has not lost the job holds it under a lease. *)
Lemma gone_or_leased s : in_turn s -> gone s \/ exists j lease, g_jobs (tables s) !! id = Some j /\
  gj_lease_expires_at j = Some lease /\ forall now, lease <= now -> lease_over now j = true.
Proof.
  intros [[I _] (j & Q & F)]. destruct (job_live (gj_status j)) eqn:L.
  - right. destruct (proj2 (ji_lease _ _ (ei_jobs _ I _ _ Q)) L) as [lease E]. exists j, lease. split_and!; [done..|].
    intros now N. unfold lease_over. rewrite L, E. by apply Z.leb_le.
  - left. exists j. split; [done|]. destruct (decide (token = gj_fencing_token j)) as [->|]; [right; auto|left; lia].
Qed.
End claimed.

Abbreviation turn := (eval_run_once env between faults heartbeat_error locked execute_case evaluate_rag other_error rag_source_fingerprint text_of
  worker_id lease_seconds).

Lemma case_records_length rows w rs w' : case_records env rows w = (Ret rs, w') -> length rs = length rows.
Proof.
  revert w rs. induction rows as [|row rows IH]; intros w rs H; cbn [case_records] in H; minv; [done|]. simpl. by erewrite IH.
Qed.

(** A claim starts a turn with at most as many waiting cases as it lists. *)
Lemma claim_starts l w claimed w' : sound (w_db w) -> claim_next env l worker_id lease_seconds w = (Ret (Some claimed), w') ->
  once_claimed (w_db w') (claimed_id claimed) (claimed_token claimed) /\ (waiting (w_db w') (claimed_id claimed) <= length (cl_cases claimed))%nat.
Proof.
  intros S H. unfold claim_next in H. apply bind_inv in H as (ids & w1 & R & H).
  assert (keyed (w_db w1)) as K by (eapply (moves_keyed env); [apply (ei_keyed _ (proj1 S))|]; by eapply reconcile_moves; [apply (ei_keyed _ (proj1 S))|]).
  clear R. unfold claim_eval_job, save_eval_job in H. minv; [|done].
  match goal with X : Some _ = Some claimed |- _ => injection X as <- end.
  match goal with X : case_records _ _ _ = _ |- _ => pose proof (case_records_length _ _ _ _ X) as Len; apply reads in X; [|apply _] end.
  match goal with X : _dataset_record _ _ _ _ = _ |- _ => apply reads in X; [|apply _] end.
  match goal with X : job_record _ _ _ _ = (Ret ?r, _) |- _ => pose proof (reads _ _ _ _ _ X) as D; unfold job_record, _eval_job_record in X; minv end.
  unfold claimed_id, claimed_token, job_cases in *. cbn [cl_job jbr_row cl_cases] in *. rewrite R4, R3. split.
  - eexists. split; [apply lookup_insert_eq|done].
  - rewrite Len, (Permutation_length (order_by_perm _ _)). apply tally_le. intros c. unfold of_job. by intros [? _]%andb_true_iff.
Qed.

(** The turn after its claim. *)
Lemma turn_run extra s claimed s1 :
  call (claim_next env (locked (es_calls s)) worker_id lease_seconds) s = (Ret (Some claimed), s1) ->
  turn extra s =
    let '(r, s2) := match _execute_claimed env between faults heartbeat_error execute_case evaluate_rag rag_source_fingerprint text_of worker_id extra claimed s1 with
                    | (Ret _, s2) => (Ret true, s2)
                    | (Raise e, s2) => settle_failure env between faults other_error rag_source_fingerprint text_of worker_id claimed e s2
                    end in (r, mkEvalWorkerState (es_calls s2) None (es_world s2)).
Proof.
  intros H. unfold eval_run_once, mbind, Act_bind. rewrite H. unfold finally, try_base.
  destruct (_execute_claimed _ _ _ _ _ _ _ _ _ _ _) as [[u|e] s2]; [done|]. by destruct (settle_failure _ _ _ _ _ _ _ _ _) as [r s3].
Qed.

(** C17. A turn of the evaluation worker ends and leaves nothing half done. When it has
    claimed a job, then - whatever other processes do before each of its accesses to the
    tables, whichever of these accesses fail, before or after they took effect, wherever
    the heart-beat reports a loss, and whatever cases and scoring return or raise - it
    takes at most one round more than the job has cases, no case is marked as its active
    one in the end, and the job has ended, is queued again or belongs to a later claim:
    the worker owns nothing. There are two exceptions. The last access of the turn fails:
    it was to read or store how the turn ends, and a failure that cannot be stored is
    only logged; or the task is cancelled while the partial report of a failed job is
    built. Then the job stays under its lease, at whose end the next claim of any worker
    recovers it. *)
Theorem evaluation_turn_settles extra s claimed s1 r s' :
  eval_reachable env (tables s) ->
  call (claim_next env (locked (es_calls s)) worker_id lease_seconds) s = (Ret (Some claimed), s1) ->
  turn extra s = (r, s') ->
  turn 0 s = (r, s') /\ es_active_case_id s' = None /\
  (lost (tables s') (claimed_id claimed) worker_id (claimed_token claimed) \/
   (failed_access s' \/ r = Raise ECancelled) /\
   exists j lease, g_jobs (tables s') !! claimed_id claimed = Some j /\ gj_lease_expires_at j = Some lease /\
     forall now, lease <= now -> lease_over now j = true).
Proof.
  intros S%reachable_sound H1 H. destruct (call_run _ _ _ _ (upkeep_claim_next env _ _ _) S H1) as (w & E%reported_ret & S1 & _ & S2 & _).
  apply claim_starts in E as [O W]; [|done]. assert (in_turn claimed s1) as T by done.
  assert (_execute_claimed env between faults heartbeat_error execute_case evaluate_rag rag_source_fingerprint text_of worker_id extra claimed s1
    = _execute_claimed env between faults heartbeat_error execute_case evaluate_rag rag_source_fingerprint text_of worker_id 0 claimed s1) as F.
  { unfold _execute_claimed, mbind, Act_bind. rewrite !(cases_rounds claimed (length (cl_cases claimed))); [done|done|by right|done|by right]. }
  rewrite (turn_run _ _ _ _ H1), F in H. rewrite (turn_run _ _ _ _ H1). split; [exact H|].
  destruct (_execute_claimed _ _ _ _ _ _ _ _ _ _ _ _) as [[u|e] s2] eqn:X.
  - injection H as <- <-. split; [done|]. left. by eapply execution_settles in X.
  - pose proof (steady_execution _ _ _ _ _ T X) as T2. destruct (settle_failure _ _ _ _ _ _ _ _ _ _) as [r3 s3] eqn:G. injection H as <- <-. split; [done|].
    apply surrender_settles in G as [T3 [G|G]]; [by left| |done]. destruct (gone_or_leased _ _ T3) as [L|L]; [by left|by right].
Qed.
End turn.

(** ** Concrete turns *)

Definition ev_start : EvalWorkerState := mkEvalWorkerState 0 None (run_calls gx_env gx_created gx_start).
Definition ev_execute (_ : nat) (_ : pystr) (case : RagEvalCase) (_ : ModelCatalogSnapshot) : outcome CaseExecution := Ret (gx_execution (rc_id case)).
Definition ev_turn (between : nat -> list EvalCall) (faults : nat -> fault) (extra : nat) : EW bool :=
  eval_run_once gx_env between faults (fun _ => false) (fun _ _ => false) ev_execute (fun _ _ _ _ _ _ => Ret gx_report)
    (fun _ => mkPublicError "X"%py "x"%py 500 true None None None None []) (Ret "src"%py) (fun _ => ""%py) "w1"%py 60 extra.
(** An administrator cancels the job while its first case runs. *)
Definition ev_cancelled (n : nat) : list EvalCall := if (n =? 3)%nat then [GCancel gx_job] else [].
(** Another process requeues the job and claims it. *)
Definition ev_stolen (n : nat) : list EvalCall :=
  if (n =? 5)%nat then [GReconcile (Some 900000000); GClaim (fun _ => false) "w2"%py 60] else [].

(** The database is away while the report is stored, and again while the failure is. *)
Definition ev_sound (_ : nat) : fault := NoFault.
Definition ev_outage (n : nat) : fault := if bool_decide (n ∈ [11; 15]%nat) then FaultBefore else NoFault.

Definition ev_result (b : (nat -> list EvalCall) * (nat -> fault)) :
    option (RagEvaluationJobStatus * Z * option pystr) * list RagEvaluationCaseStatus :=
  let db := w_db (es_world (ev_turn b.1 b.2 0 ev_start).2) in
  ((fun j => (gj_status j, gj_completed_cases j, gj_owner_worker_id j)) <$> g_jobs db !! gx_job, gc_status <$> job_cases db gx_job).

Example ev_turns : ev_result <$> [(fun _ => [], ev_sound); (ev_cancelled, ev_sound); (ev_stolen, ev_sound); (fun _ => [], ev_outage)] =
  [(Some (G_SUCCEEDED, 2, None), [K_COMPLETED; K_COMPLETED]);
   (Some (G_CANCELLED, 1, None), [K_COMPLETED; K_CANCELLED]);
   (Some (G_RUNNING, 1, Some "w2"%py), [K_COMPLETED; K_QUEUED]);
   (Some (G_RUNNING, 2, Some "w1"%py), [K_COMPLETED; K_COMPLETED])].
Proof. vm_compute. reflexivity. Qed.

Lemma evaluation_turn_settles_witness :
  let s' := (ev_turn ev_stolen ev_sound 7 ev_start).2 in
  ev_turn ev_stolen ev_sound 0 ev_start = ev_turn ev_stolen ev_sound 7 ev_start /\ es_active_case_id s' = None /\
  lost (w_db (es_world s')) gx_job "w1"%py 1.
Proof.
  destruct (on_tables gx_env ev_stolen ev_sound (claim_next gx_env (fun _ => false) "w1"%py 60) ev_start) as [[[claimed|]|e] s1] eqn:E;
    [|vm_compute in E; discriminate E..].
  assert (claimed_id claimed = gx_job /\ claimed_token claimed = 1) as [I T]
    by (apply (f_equal fst) in E; vm_compute in E; injection E as <-; split; reflexivity).
  assert (exists b, (ev_turn ev_stolen ev_sound 7 ev_start).1 = Ret b) as [b B] by (eexists; vm_compute; reflexivity).
  intros s'. rewrite <- I, <- T, (surjective_pairing (ev_turn ev_stolen ev_sound 7 ev_start)).
  destruct (evaluation_turn_settles gx_env ev_stolen ev_sound (fun _ => false) (fun _ _ => false) ev_execute (fun _ _ _ _ _ _ => Ret gx_report)
    (fun _ => mkPublicError "X"%py "x"%py 500 true None None None None []) (Ret "src"%py) (fun _ => ""%py) "w1"%py 60 7 ev_start claimed s1
    (ev_turn ev_stolen ev_sound 7 ev_start).1 (ev_turn ev_stolen ev_sound 7 ev_start).2) as (R & A & [L|[[F|F] _]]).
  - apply gx_reachable.
  - exact E.
  - apply surjective_pairing.
  - split; [exact R|split; [exact A|exact L]].
  - exfalso. apply F. reflexivity.
  - exfalso. rewrite B in F. discriminate F.
Defined.
